(* ===== verification/_CoqProject ===== *)
-Q . S2P
Prelude.v
Timing.v
CommonError.v
Containers.v
Paths.v
Crash.v
AuditLine.v
AuditLog.v
IpcProtocol.v
IpcFacts.v
PolicyEngine.v
SafetyGates.v
ConfigTypes.v
Logger.v
Config.v
ConfigRules.v
PowerLocker.v
PowerScheme.v
UserActivity.v
RawInput.v
ThreadTuner.v
Recovery.v
AgentForms.v
ScheduledTask.v
PriorityBooster.v
PolicyExecutor.v
ServiceCalls.v
Presence.v
ServiceHost.v
ServiceControl.v
ServiceDispatcher.v
TrayHost.v
IpcSession.v
ProcessWatcher.v
WatchThread.v
ProcessQueries.v
Platform.v
Memory.v
Actions.v
ProcessCommands.v
MemoryClean.v
PowerSchemeCommand.v
World.v
FormCommands.v
MemoryCleanSafety.v
PowerSchemeSafety.v
Metrics.v
Credentials.v
IpcArguments.v
IpcServer.v
PolicyCommand.v
HostTick.v
HostConsole.v
IpcTransport.v
AgentCommand.v
LeaseBackends.v
Watched.v
LeaseCommands.v
ObserveCommands.v
AuditCommands.v
GatesCommand.v
CommandLine.v
