(* ===== verification/Prelude.v ===== *)
(** * CppOptimizer: a verification library

    CppOptimizer is a Windows optimizer for games. A host observes memory and
    game processes, decides by a small policy what to do, and does it through
    components that hold something of the system (a power request, a process
    priority, a power scheme) and must give it back. Actions that change the
    system pass six gates and leave audit and journal lines; agents report facts
    to the host over a named pipe; the host may run as a service. This library
    models the C++ code under [src/] and proves what makes it correct.

    ** The files, in dependency order

    Foundations:
    - [Prelude]: machine integers, state passing ([M], [<--], [;;;]),
      characters, strings, decimal numbers and lines; the tactics [b2p] and
      [split_matches]; the hint databases [optimizer] and [frame]; [preserves],
      the frame condition of a state-passing function.
    - [Timing]: the steady clock and sleeping, with their laws; actions that do
      not turn the clock back ([advances]).
    - [CommonError] ([common/error]): [Error], [Result] and messages.
    - [Containers]: what the code uses of the C++ library: [std::map] on
      strings as sorted association lists ([smap]), [std::stoll], and the file
      system as the class [FileSystem] with its laws and an in-memory instance.
    - [Paths]: [std::filesystem::path]; [Crash]: worlds that die after a given
      number of operations ([Dying]); [World]: a recording world for commands,
      with the calls made, and its frame lemmas.
    - [Platform] ([platform/native_api], [main.cpp]): probing and paths.

    The record of what is done:
    - [AuditLine], [AuditLog] ([audit/audit_log]): lines, summaries and their
      parsers; appending, tail reading, compaction and folding of the files,
      the bounded log in memory.
    - [Logger] ([logger/logger]): the asynchronous queue and its writer thread
      as interleaved events ([log_run]); what the level of the spdlog logger
      behind it lets through ([should_log]).

    Observing:
    - [Metrics] ([metrics/], [disk/], [gpu/]); [UserActivity]
      ([activity/user_activity]); [RawInput] ([activity/raw_input]);
      [ProcessWatcher] ([process/process_watcher]):
      matching rules, the difference of two rounds, one poll, ids of new rules;
      [WatchThread], its polling thread with [Start], [Stop] and the callbacks as
      interleaved steps; [ProcessQueries], the process directory with its handles;
      [Presence] ([service/presence]): who is in front of the machine.

    Deciding and being allowed to:
    - [PolicyEngine], [SafetyGates] ([policy/]); [ConfigTypes], [Config],
      [ConfigRules] ([config/config_manager]) over the class [Toml].

    Acting and giving back:
    - [PowerLocker] (counted power requests, interface [PowerService]),
      [PriorityBooster] (leases on priorities, interface [BoostService]),
      [PolicyExecutor] (proved against the two interfaces alone), [ServiceCalls]
      (services that record their calls, each matched by an event of the executor),
      [PowerScheme] (switch, restore and recovery with a record on disk),
      [ThreadTuner], [Memory] (cleaning plans, backends, working sets).

    The host and its agents:
    - [IpcProtocol], [IpcFacts], [IpcSession], [IpcServer], [Credentials]
      ([ipc/]): header, payload, sessions, the concurrent server as a step
      relation over its workers, the periodic reporter, the token file.
      [IpcTransport] ([ipc/ipc_transport]): both ends of the named pipe over
      overlapped calls, with their bounds in time, and its instance of the
      laws the reporter was proved against ([client_reporter_laws]).
    - [ServiceHost] ([service/service_host]): the state machine of the service,
      with the interleaving of control requests as a step relation (module
      [Concurrent]), and [SafeModeGuard] (module [SafeMode]); [ServiceControl]:
      the backend that installs, removes and queries the service;
      [ServiceDispatcher]: [ServiceMain] under the service control manager and
      what it is told, the instance of [ScmLaws] on the Win32 calls.
    - [TrayHost] ([service/tray_host]): the icon in the notification area, its
      hidden window and the thread that runs it, as the steps of an interleaving
      with [Start], [Stop] and the messages of others.
    - [Recovery], [AgentForms], [ScheduledTask] ([service/]): the recovery
      marker over sessions, instance name, start-up entry, scheduled task.

    - [HostTick], [HostConsole] ([main.cpp], [service/service_host]): what the
      host does once a second, its loop, and how it starts and ends on the
      console ([RunServiceConsoleCommand]): pipe, Safe Mode, presence, recovery
      marker, lock and configuration together.

    The command line ([main.cpp]):
    - [CommandLine]: which command the arguments name ([wmain]);
      [FormCommands]: [--startup], [--scheduled-task], [--service install],
      [uninstall] and [status], [--agent-form]; [ProcessCommands]:
      [--list-processes], [--watch], [--add-game], the last over a console that
      records the lines read ([Heard]);
    - [AgentCommand]: [--agent] and [--ipc-pipe], and their connection to the
      host; [LeaseCommands]: [--power-lock], [--priority-boost] and
      [--scheduler], over a system that records the states its calls find and
      leave ([Watched]), with [LeaseBackends] ([power/], [process/]): the Win32
      backends of the locker and of the booster, instances of their laws;
    - [GatesCommand]: [--gates], and how its report compares with the gates the
      acting commands evaluate; [ObserveCommands]: [--status], [--observe],
      [--activity], [--cpu], [--gpu], [--disk], [--diagnose]; [AuditCommands]:
      [--journal], [--audit-log], [--audit-summary], [--audit-compact],
      [--log], [--config];
    - [Actions]: journal and audit entries, environment facts;
      [MemoryClean], [MemoryCleanSafety]: [--memory-clean];
      [PowerSchemeCommand], [PowerSchemeSafety]: [--power-scheme];
      [PolicyCommand]: [--policy], the window in which the executor acts on the
      decisions of the policy engine; [IpcArguments]: the scans of the IPC options.

    ** How the code is modelled

    A C++ function is a function of the same name, here and there split into
    its loops and blocks; where two classes share a method name the class is
    added ([HysteresisFilter_Update], [ReleaseAllBoosts], [Pdh_Sample]). An
    object is a record of its members, threaded as state. An abstract backend of
    the code, or the Win32 calls a component makes, is a class of operations on
    a state type with results in [Result] or [option]; what the code relies on
    of the real one (documented behaviour) is a second class of laws
    ([PowerRequestLaws], [PriorityLaws], [FileSystemLaws], [TokenLaws],
    [PdhLaws], [ReporterLaws], ...), each with an instance that satisfies it, on
    which the witnesses run. The laws leave open what the system leaves open: a
    power scheme may be set or not whatever [PowerSetActiveScheme] answers, and a
    transfer that is cancelled may complete. Where a theorem speaks of a time
    during a run (something is held, a question was answered, a call was made),
    the run is over a system that records it, and the record is of that run. Unsigned integers are [Z] with [u8] .. [u64] where
    the code can wrap; times are [Z] in nanoseconds; narrow strings are
    [string], wide ones [list Z] of code units or, for fixed texts, [string] in
    UTF-8. Errors are values of [Result]; the exceptions of the code modelled
    are those of [std::stoll], which the code catches, and what makes a worker
    of the server fail ([set_fatal]). A command that reports answers what it prints
    as data, without its layout; what the others print is not modelled.

    ** Fuel

    Structural recursion is used wherever the code loops over data. Where it
    does not, fuel stands for the number of turns and a theorem says how much is
    enough: the service loop takes the list of its ticks and answers [None]
    while it is still running; the session loop counts frames ([ServeOne_total]);
    the search for a free id needs as many attempts as there are rules
    ([MakeUniqueGameId_fresh]); the writer of the logger [drain_fuel], two steps
    per pending record ([StopAsync_drains]); the reporter twice its window in
    nanoseconds ([RunPeriodicReporter_bounded]), which is what [--agent] gives it
    ([RunAgentCommand_bounded]); a pipe that is busy [connect_fuel] turns of the
    connecting loop ([connect_fuel_enough]); a command that holds a lease
    [hold_fuel] turns of its wait ([hold_spec]); [--observe] a turn for every
    second and one ([sample_memory_ends]); the windows of [--policy] and
    [--service console] 61 ([policy_window_ends], [console_window_ends]); the path of the program the
    buffers from 260 code units up to 32768 ([ResolveImagePath_total]); the
    snapshot of processes one turn per entry ([walk_snapshot_enough]); the
    menu of [--add-game] reads as many lines as the user types; the instance name 962 turns
    ([DefaultHostInstanceName_total]); the enumeration of adapters as many turns
    as there are adapters and one.

    ** What the theorems show

    - Giving back: [PowerLocker_refines_counters], [PowerLocker_failure_atomic],
      [ReleaseBoost_spec], [AcquireBoost_fresh], [ReleaseAllBoosts_closes],
      [ApplyDecision_reconciles], [run_executor_halts], [ExecutorReleaseAll_spec],
      [policy_gives_back], [boost_then_restore], [interrupted_switch_recovers] (whenever the process
      dies), [scheduled_task_life], [sessions_report],
      [queries_leak_nothing], [power_lock_gives_back],
      [priority_boost_gives_back], [TrayHost_tidy], [RunCpuCommand_closes]; forms of the agent: [form_install_exclusive],
      [form_apply_converges], [registered_lines_dispatch].
    - Nothing is done unasked: [power_scheme_guarded], [rollback_not_blocked],
      [one_switch_per_cooldown], [memory_clean_needs_consent],
      [RunMemoryCleanExecuteCommand_guarded], [memory_clean_once_per_cooldown],
      [policy_needs_permission], [scheduler_gated], [gates_agree], [add_game_on_consent],
      [LoadConfig_explicit].
    - Nothing is lost: [policy_on_record], [log_run_keeps], [StopAsync_drains], [Flush_returns_iff],
      [AuditLog_refines_history], [CompactAuditFile_conserves],
      [CompactAuditFile_atomic], [FoldAuditSummaryFile_conserves],
      [SummarizeAuditLines_spec], [ReadAuditTail_spec], [journal_remembers].
    - Deciding: [EvaluatePolicy_iff], [Evaluate_spec], [run_policy_no_flapping],
      [ComputeMemoryMarginPercent_spec]; gates and cooldowns:
      [EvaluateGates_spec], [WithCooldownRun_never_shortens],
      [WriteCooldownLedger_atomic], [ReadCooldownLedger_Write],
      [RecordCooldownRun_enforced].
    - Configuration: [LoadConfig_valid], [unknown_keys_harmless],
      [unknown_keys_reported], [ParseConfigVersion_iff], [MergeGameRules_spec],
      [AppendGameRules_appends], [ToTomlString_reads_back].
    - The wire: [ParseHeader_iff], [ParseFactsV1_iff_Serialize],
      [ValidateFactsV1Schema_iff], [FormatFactsSummary_spec],
      [FormatFactsSummary_noninterference].
    - Sessions: [ServeLoop_verdicts], [DefaultHandler_acks],
      [IpcRoundTripSession_stream], [IpcReportNextGap_spec],
      [RunConcurrentServer_counts], [RunPeriodicReporter_bounded],
      [RunAgentCommand_bounded], [agent_and_host_agree],
      [ProvisionAgentTokenFile_spec], [ReadAgentTokenFile_iff]; the pipe:
      [ReadAllOverlapped_exact], [WriteAllOverlapped_exact],
      [server_end_kept], [client_end_kept].
    - The host: [host_guesses_bounded], [latched_host_is_deaf],
      [anomalous_host_is_deaf], [malformed_client_ends_host], [console_window_ends], [RunServiceMain_reports],
      [RunService_tells], [reachable_reports], [TrayHost_Stop_returns],
      [OnClientRejected_spec], [ShouldAcceptClients_spec],
      [PresenceSummary_spec], [presence_timeline].
    - Observing: [subscribers_hear_history], [Stop_returns], [run_watch_history], [DiffProcessPresence_pointwise],
      [PollOnce_spec], [MakeUniqueGameId_fresh], [TickDeltaMs_elapsed],
      [ObserveActivityForeground_spec], [PdhCpuQuery_life],
      [AggregateMemoryWindow_spec], [RunObserve_window], [RunActivityCommand_counts],
      [TopByIo_spec].
    - Behaviour that differs from what the code's comments promise:
      [one_client_silences_host], [ledger_believes_anyone],
      [idle_ticks_skip_summary], [dangling_option_opens_host],
      [AuthFailed_unreported], [AcquireBoost_restart_leaks],
      [unreadable_time_hides_restart], [answer_after_stopped],
      [self_stop_disables_Start], [details_nameless], [zero_names_configuration],
      [unreadable_form_is_joined], [startup_remove_unaudited],
      [failed_registration_unrecorded], [self_trim_bypasses_compile_gate], [stale_decision_boosts_other], [rollback_erases_summary],
      [failed_restriction_leaves_token], [session_swallows_suffix],
      [expired_read_leaves_pending], [cancelled_read_loses_bytes],
      [served_session_vanishes], [unverified_rollback_is_forgotten],
      [raised_level_hides_pending], [unregistered_service_succeeds],
      [late_start_hangs], [restart_terminates], [stop_during_start_hangs],
      [observer_is_boosted], [native_write_row_open], [number_beyond_limit_is_path],
      [totals_of_lines_shown],
      [Flush_returns_iff], [FormatFactsSummary_exceeds_limit],
      [ComputeMemoryMarginPercent_wraps].

    ** What is not modelled

    The Win32 functions themselves, which are the operations of the classes;
    writing to the console, the layout of what is printed, and the usage text of
    [main.cpp]. In [TrayHost] the names of the window and of its class are left
    out; one thread calls [Start] and one calls [Stop] at a time, [Start]
    does not create its thread while an earlier one is still running, the menu
    is shown and answered in one step, and the calls that remove the icon and
    destroy the window succeed. *)

From Stdlib Require Export ZArith Lia Ascii String.
From stdpp Require Export base numbers option list gmap strings.

Abbreviation byte := Corelib.Init.Byte.byte.

Declare Scope optimizer_scope.
Delimit Scope optimizer_scope with opt.
Open Scope optimizer_scope.

Abbreviation strlen s := (Z.of_nat (String.length s)).
Abbreviation len l := (Z.of_nat (List.length l)).

(** ** Machine integers *)

(** The unsigned types of the source wrap modulo a power of two; a signed
    [w]-bit conversion reads the top half of the range as negative. *)
Definition u8 (z : Z) : Z := (z mod 2 ^ 8)%Z.
Definition u16 (z : Z) : Z := (z mod 2 ^ 16)%Z.
Definition u32 (z : Z) : Z := (z mod 2 ^ 32)%Z.
Definition u64 (z : Z) : Z := (z mod 2 ^ 64)%Z.
Definition i32 (z : Z) : Z :=
  (let r := z mod 2 ^ 32 in if r <? 2 ^ 31 then r else r - 2 ^ 32)%Z.

Definition is_u8 (z : Z) : Prop := (0 <= z < 2 ^ 8)%Z.
Definition is_u16 (z : Z) : Prop := (0 <= z < 2 ^ 16)%Z.
Definition is_u32 (z : Z) : Prop := (0 <= z < 2 ^ 32)%Z.
Definition is_u64 (z : Z) : Prop := (0 <= z < 2 ^ 64)%Z.

Definition SIZE_MAX : Z := (2 ^ 64 - 1)%Z.
Definition UINT32_MAX : Z := (2 ^ 32 - 1)%Z.

Lemma lor_shiftl_add (a b k : Z) :
  (0 <= k → 0 <= a < 2 ^ k → Z.lor a (Z.shiftl b k) = a + b * 2 ^ k)%Z.
Proof.
  intros Hk Ha. rewrite <- Z.shiftl_mul_pow2 by done.
  rewrite <- Z.add_lor_land.
  assert (Z.land a (Z.shiftl b k) = 0%Z) as ->; [|lia].
  apply Z.bits_inj'. intros i Hi. rewrite Z.land_spec, Z.bits_0.
  destruct (Z.lt_ge_cases i k).
  - by rewrite Z.shiftl_spec_low, andb_false_r.
  - assert (Z.testbit a i = false) as ->; [|done].
    apply Z.testbit_false; [lia|]. rewrite Z.div_small; [done|]. split; [lia|].
    eapply Z.lt_le_trans; [apply Ha|]. apply Z.pow_le_mono_r; lia.
Qed.

Lemma u8_small z : is_u8 z → u8 z = z.
Proof. apply Z.mod_small. Qed.
Lemma u16_small z : is_u16 z → u16 z = z.
Proof. apply Z.mod_small. Qed.
Lemma u32_small z : is_u32 z → u32 z = z.
Proof. apply Z.mod_small. Qed.
Lemma u64_small z : is_u64 z → u64 z = z.
Proof. apply Z.mod_small. Qed.
Lemma u16_range z : is_u16 (u16 z).
Proof. apply Z.mod_pos_bound. reflexivity. Qed.
Lemma u32_range z : is_u32 (u32 z).
Proof. apply Z.mod_pos_bound. reflexivity. Qed.
Lemma u64_range z : is_u64 (u64 z).
Proof. apply Z.mod_pos_bound. reflexivity. Qed.

(** A [std::wstring]: its code units. *)
Definition wstring : Type := list Z.

(** ** State passing *)

(** Code that calls a backend is a function of the backend's state. *)
Definition M (S A : Type) : Type := S → A * S.

Definition mret {S A} (a : A) : M S A := λ s, (a, s).
Definition mthen {S A B} (m : M S A) (k : A → M S B) : M S B :=
  λ s, let '(a, s') := m s in k a s'.

Notation "x <-- m ;; k" := (mthen m (λ x, k))
  (at level 100, m at next level, right associativity) : optimizer_scope.
Notation "m ;;; k" := (mthen m (λ _, k))
  (at level 100, right associativity) : optimizer_scope.

Lemma bool_eqb_sym a b : Bool.eqb a b = Bool.eqb b a.
Proof. by destruct a, b. Qed.

(** ** Characters *)

Definition code (c : ascii) : Z := Z.of_N (N_of_ascii c).

Definition is_digit (c : ascii) : bool :=
  ((48 <=? code c) && (code c <=? 57))%Z.
Definition is_lower (c : ascii) : bool :=
  ((97 <=? code c) && (code c <=? 122))%Z.
Definition is_upper (c : ascii) : bool :=
  ((65 <=? code c) && (code c <=? 90))%Z.
Definition is_alnum (c : ascii) : bool := is_lower c || is_upper c || is_digit c.

(** [c - '0'] *)
Definition digit_value (c : ascii) : Z := (code c - 48)%Z.
Definition digit_char (d : Z) : ascii := ascii_of_N (Z.to_N (48 + d)).

(** A control byte: below 0x20, or 0x7F. *)
Definition is_control (c : ascii) : bool := ((code c <? 32) || (code c =? 127))%Z.

Lemma code_range c : is_u8 (code c).
Proof.
  unfold code, is_u8. pose proof (N_ascii_bounded c). lia.
Qed.

Lemma code_digit_char d : (0 <= d <= 9)%Z → code (digit_char d) = (48 + d)%Z.
Proof.
  intros Hd. unfold code, digit_char. rewrite N_ascii_embedding by lia. lia.
Qed.

(** A byte of a narrow string as a wide character: [char] is signed. *)
Definition widen_char (c : ascii) : Z :=
  (let v := code c in if v <? 128 then v else u16 (v - 256))%Z.

Definition widen (s : string) : wstring := map widen_char (list_ascii_of_string s).

(** ** Strings *)

#[global] Arguments String.append !_ _ / : simpl nomatch.

Fixpoint all_chars (p : ascii → bool) (s : string) : bool :=
  match s with
  | EmptyString => true
  | String c s' => p c && all_chars p s'
  end.

Definition any_char (p : ascii → bool) (s : string) : bool :=
  negb (all_chars (λ c, negb (p c)) s).

Definition string_empty (s : string) : bool :=
  match s with EmptyString => true | _ => false end.

Lemma string_empty_iff s : string_empty s = true ↔ s = ""%string.
Proof. by destruct s. Qed.

Lemma string_empty_false s : s ≠ ""%string → string_empty s = false.
Proof. by destruct s. Qed.

Lemma string_empty_app_l a b : string_empty a = false → string_empty (a +:+ b) = false.
Proof. by destruct a. Qed.

Lemma string_app_assoc (a b c : string) : ((a +:+ b) +:+ c = a +:+ b +:+ c)%string.
Proof. induction a as [|x a IH]; simpl; congruence. Qed.

Lemma string_app_nil_r (a : string) : (a +:+ "" = a)%string.
Proof. induction a as [|x a IH]; simpl; congruence. Qed.

Lemma string_app_inj_l (a b c : string) : (a +:+ b = a +:+ c → b = c)%string.
Proof. induction a as [|x a IH]; simpl; [done|]. intros [= H]. by apply IH. Qed.

Lemma strlen_app (a b : string) :
  String.length (a +:+ b) = (String.length a + String.length b)%nat.
Proof. induction a as [|x a IH]; simpl; congruence. Qed.

Lemma all_chars_app p a b : all_chars p (a +:+ b) = all_chars p a && all_chars p b.
Proof. induction a as [|x a IH]; simpl; [done|]. by rewrite IH, andb_assoc. Qed.

Lemma all_chars_impl p q s :
  (∀ c, p c = true → q c = true) → all_chars p s = true → all_chars q s = true.
Proof.
  intros H. induction s as [|c s IH]; simpl; [done|].
  rewrite !andb_true_iff. naive_solver.
Qed.

(** [std::tolower] in the C locale, and a function on every character. *)
Definition ascii_lower (c : ascii) : ascii :=
  if is_upper c then ascii_of_N (Z.to_N (code c - 65 + 97)) else c.

Fixpoint map_chars (f : ascii → ascii) (s : string) : string :=
  match s with
  | EmptyString => EmptyString
  | String c s' => String (f c) (map_chars f s')
  end.

(** [cut pat s] is [s] before and after the first occurrence of [pat]: the
    source's [at = s.find(pat)], [s.substr(0, at)], [s.substr(at + pat.size())],
    with [None] for [npos]. *)
Fixpoint strip (pat s : string) : option string :=
  match pat, s with
  | EmptyString, _ => Some s
  | String p pat', String c s' => if Ascii.eqb p c then strip pat' s' else None
  | String _ _, EmptyString => None
  end.

Fixpoint cut (pat s : string) : option (string * string) :=
  match strip pat s with
  | Some rest => Some (EmptyString, rest)
  | None =>
      match s with
      | EmptyString => None
      | String c s' =>
          match cut pat s' with
          | Some (a, b) => Some (String c a, b)
          | None => None
          end
      end
  end.

Lemma strip_app pat b : strip pat (pat +:+ b) = Some b.
Proof. induction pat as [|p pat IH]; simpl; [done|]. by rewrite Ascii.eqb_refl. Qed.

Lemma strip_spec pat s r : strip pat s = Some r ↔ s = pat +:+ r.
Proof.
  split; [|intros ->; apply strip_app].
  revert s. induction pat as [|p pat IH]; intros s; simpl; [naive_solver|].
  destruct s as [|c s]; [done|].
  destruct (Ascii.eqb_spec p c) as [->|]; [|done]. naive_solver.
Qed.

Lemma strip_None_mono pat a b :
  (String.length pat <= String.length a)%nat →
  strip pat a = None → strip pat (a +:+ b) = None.
Proof.
  revert a. induction pat as [|p pat IH]; intros a; simpl; [done|].
  destruct a as [|c a]; simpl; [lia|]. intros Hl.
  destruct (Ascii.eqb p c); [|done]. apply IH. lia.
Qed.

Lemma cut_spec pat s a b : cut pat s = Some (a, b) → s = a +:+ pat +:+ b.
Proof.
  revert a b. induction s as [|c s IH]; intros a b; simpl.
  - destruct pat; naive_solver.
  - destruct (strip pat (String c s)) as [r|] eqn:Hs.
    + intros [= <- <-]. by apply strip_spec in Hs.
    + destruct (cut pat s) as [[a' b']|] eqn:Hc; [|done].
      intros [= <- <-]. simpl. f_equal. by apply IH.
Qed.

(** An occurrence found at the end of [a +:+ pat] is still the first one when
    more text follows. *)
Lemma cut_app pat a b :
  cut pat (a +:+ pat) = Some (a, EmptyString) → cut pat (a +:+ pat +:+ b) = Some (a, b).
Proof.
  induction a as [|c a IH]; simpl.
  - intros _. destruct pat as [|p pat]; [by destruct b|].
    simpl. by rewrite Ascii.eqb_refl, strip_app.
  - destruct (strip pat (String c (a +:+ pat))) as [r|] eqn:Hs; [done|].
    destruct (cut pat (a +:+ pat)) as [[a' b']|] eqn:Hc; [|done].
    intros [= -> ->]. rewrite IH by done.
    change (String c (a +:+ pat +:+ b)) with (String c a +:+ (pat +:+ b)).
    rewrite <- string_app_assoc. simpl.
    pose proof (strip_None_mono pat (String c (a +:+ pat)) b) as Hm.
    simpl in Hm. rewrite Hm; [done| |done]. rewrite strlen_app. lia.
Qed.

(** A one-character pattern is first found after text that lacks it. *)
Lemma cut_char c a b :
  all_chars (λ x, negb (Ascii.eqb c x)) a = true →
  cut (String c EmptyString) (a +:+ String c b) = Some (a, b).
Proof.
  induction a as [|x a IH]; simpl.
  - intros _. by rewrite Ascii.eqb_refl.
  - rewrite andb_true_iff, negb_true_iff. intros [-> H]. by rewrite IH.
Qed.

Lemma cut_char_prefix c s a b :
  cut (String c EmptyString) s = Some (a, b) →
  all_chars (λ x, negb (Ascii.eqb c x)) a = true.
Proof.
  revert a b. induction s as [|x s IH]; intros a b; simpl; [done|].
  destruct (Ascii.eqb c x) eqn:E.
  - intros [= <- <-]. done.
  - destruct (cut _ s) as [[a' b']|] eqn:Hc; [|done].
    intros [= <- <-]. simpl. rewrite E. simpl. naive_solver.
Qed.

Lemma cut_char_None c s :
  cut (String c EmptyString) s = None ↔ all_chars (λ x, negb (Ascii.eqb c x)) s = true.
Proof.
  induction s as [|x s IH]; simpl; [done|].
  destruct (Ascii.eqb c x); simpl; [done|].
  rewrite <- IH. destruct (cut _ s) as [[]|]; naive_solver.
Qed.

Lemma cut_char_app c a b r s :
  cut (String c EmptyString) s = Some (a, b) →
  cut (String c EmptyString) (s +:+ r) = Some (a, b +:+ r).
Proof.
  revert a b. induction s as [|x s IH]; intros a b; simpl; [done|].
  destruct (Ascii.eqb c x); [naive_solver|].
  destruct (cut _ s) as [[a' b']|] eqn:Hc; [|done].
  intros [= <- <-]. by rewrite (IH _ _ eq_refl).
Qed.

Lemma existsb_eqb_iff k l : existsb (String.eqb k) l = true ↔ k ∈ l.
Proof.
  rewrite existsb_exists. setoid_rewrite <- list_elem_of_In. split.
  - by intros (x & Hx & ->%String.eqb_eq).
  - intros Hk. exists k. by rewrite String.eqb_refl.
Qed.

(** Text that lacks a character [c]. *)
Definition lacks (c : ascii) (s : string) : bool := all_chars (λ x, negb (Ascii.eqb c x)) s.

(** A pattern is not found in text that lacks its first character. *)
Lemma cut_skip c pat a s :
  lacks c a = true →
  cut (String c pat) (a +:+ s) =
  match cut (String c pat) s with Some (x, y) => Some (a +:+ x, y) | None => None end.
Proof.
  unfold lacks. induction a as [|x a IH]; cbn [all_chars]; intros Ha.
  - cbn. by destruct (cut _ s) as [[]|].
  - apply andb_true_iff in Ha as [Hx Ha]. apply negb_true_iff in Hx.
    cbn [String.append cut strip]. rewrite Hx, IH by done. by destruct (cut _ s) as [[]|].
Qed.

Lemma cut_cons pat x s :
  strip pat (String x s) = None →
  cut pat (String x s) =
  match cut pat s with Some (a, b) => Some (String x a, b) | None => None end.
Proof. cbn [cut]. by intros ->. Qed.

Lemma cut_here c pat s : cut (String c pat) (String c pat +:+ s) = Some (EmptyString, s).
Proof. cbn [String.append cut strip]. by rewrite Ascii.eqb_refl, strip_app. Qed.

(** A pattern with a character that neither the text before it nor its own
    beginning has is found where it stands. *)
Lemma cut_marker pre c post a b :
  lacks c pre = true → lacks c a = true →
  cut (pre +:+ String c post) (a +:+ (pre +:+ String c post) +:+ b) = Some (a, b).
Proof.
  intros Hpre. revert b. induction a as [|x a IH]; intros b Ha; cbn [String.append].
  - destruct (_ +:+ b) as [|y s] eqn:E; [by destruct pre|].
    cbn [cut]. by rewrite <- E, strip_app.
  - assert (lacks c a = true) as Ha' by (cbn in Ha; by apply andb_true_iff in Ha as [_ ?]).
    cbn [cut].
    destruct (strip _ (String x (a +:+ _))) as [r|] eqn:Hs; [exfalso|by rewrite IH].
    apply strip_spec in Hs.
    assert (cut (String c "") (String x (a +:+ (pre +:+ String c post) +:+ b)) =
            Some (String x (a +:+ pre), post +:+ b)) as H1.
    { rewrite (string_app_assoc pre). change (String c post +:+ b) with (String c (post +:+ b)).
      rewrite <- (string_app_assoc a). apply (cut_char c (String x (a +:+ pre))).
      unfold lacks in *. cbn. rewrite all_chars_app, Hpre, Ha'. cbn in Ha.
      by apply andb_true_iff in Ha as [-> _]. }
    rewrite Hs in H1. rewrite string_app_assoc in H1.
    change (String c post +:+ r) with (String c (post +:+ r)) in H1.
    rewrite cut_char in H1 by exact Hpre. injection H1 as H1 _.
    apply (f_equal String.length) in H1. cbn in H1. rewrite strlen_app in H1. lia.
Qed.

(** ** Decimal numbers *)

Open Scope Z_scope.

(** [dec_acc v s] continues a decimal number [v] with the digits of [s]. *)
Fixpoint dec_acc (v : Z) (s : string) : Z :=
  match s with
  | EmptyString => v
  | String c s' => dec_acc (10 * v + digit_value c)%Z s'
  end.

Fixpoint dec_go (fuel : nat) (n : Z) (acc : string) : string :=
  match fuel with
  | O => acc
  | S f =>
      let acc' := String (digit_char (n mod 10)%Z) acc in
      if (n <? 10)%Z then acc' else dec_go f (n / 10)%Z acc'
  end.

(** [std::to_string] on an integer. *)
Definition to_string (n : Z) : string :=
  let go m := dec_go (S (Z.to_nat (Z.log2 m))) m EmptyString in
  if (n <? 0)%Z then String "-" (go (- n)%Z) else go n.

Definition is_decimal (s : string) : bool :=
  negb (string_empty s) && all_chars is_digit s.

Lemma digit_char_digit d : (0 <= d <= 9)%Z → is_digit (digit_char d) = true.
Proof. intros Hd. unfold is_digit. rewrite code_digit_char by done. lia. Qed.

Lemma digit_value_char d : (0 <= d <= 9)%Z → digit_value (digit_char d) = d.
Proof. intros Hd. unfold digit_value. rewrite code_digit_char by done. lia. Qed.

Lemma dec_acc_app v a b : dec_acc v (a +:+ b) = dec_acc (dec_acc v a) b.
Proof. revert v. induction a as [|c a IH]; intros v; simpl; [done|]. apply IH. Qed.

Lemma digit_value_range c : is_digit c = true → (0 <= digit_value c <= 9)%Z.
Proof. unfold is_digit, digit_value. lia. Qed.

Lemma dec_acc_ge v s : (0 <= v)%Z → all_chars is_digit s = true → (v <= dec_acc v s)%Z.
Proof.
  revert v. induction s as [|c s IH]; intros v Hv; simpl; [lia|].
  rewrite andb_true_iff. intros [Hc Hs]. apply digit_value_range in Hc.
  specialize (IH (10 * v + digit_value c)%Z ltac:(lia) Hs). lia.
Qed.

Lemma dec_go_spec fuel n acc :
  (0 <= n < 10 ^ Z.of_nat (S fuel))%Z →
  ∃ d, dec_go (S fuel) n acc = d +:+ acc ∧ is_decimal d = true ∧ dec_acc 0%Z d = n.
Proof.
  revert n acc. induction fuel as [|fuel IH]; intros n acc Hn.
  - assert (n < 10)%Z by (change (10 ^ Z.of_nat 1)%Z with 10%Z in Hn; lia).
    cbn [dec_go]. rewrite (proj2 (Z.ltb_lt n 10%Z)), Z.mod_small by lia.
    exists (String (digit_char n) EmptyString). cbn.
    rewrite digit_char_digit, digit_value_char by lia. repeat split; lia.
  - cbn [dec_go]. destruct (Z.ltb_spec n 10).
    + rewrite Z.mod_small by lia.
      exists (String (digit_char n) EmptyString). cbn.
      rewrite digit_char_digit, digit_value_char by lia. repeat split; lia.
    + pose proof (Z.mod_pos_bound n 10 ltac:(lia)) as Hm.
      pose proof (Z.div_mod n 10 ltac:(lia)) as Hdm.
      destruct (IH (n / 10)%Z (String (digit_char (n mod 10)) acc)) as (d & Hd & Hdec & Hv).
      { split; [apply Z.div_pos; lia|]. apply Z.div_lt_upper_bound; [lia|].
        rewrite Nat2Z.inj_succ, Z.pow_succ_r in Hn by lia. lia. }
      cbn [dec_go] in Hd. rewrite Hd.
      exists (d +:+ String (digit_char (n mod 10)) EmptyString).
      rewrite string_app_assoc. split; [done|]. unfold is_decimal in *.
      rewrite all_chars_app, dec_acc_app, Hv. cbn.
      rewrite digit_char_digit, digit_value_char by lia.
      apply andb_true_iff in Hdec as [Hne Hall]. rewrite Hall.
      split; [by destruct d|]. lia.
Qed.

Lemma log2_lt_pow10 n : (0 <= n)%Z → (n < 10 ^ Z.of_nat (S (Z.to_nat (Z.log2 n))))%Z.
Proof.
  intros Hn. destruct (Z.eq_dec n 0) as [->|]; [done|].
  pose proof (Z.log2_spec n ltac:(lia)) as [_ Hlt].
  pose proof (Z.log2_nonneg n).
  rewrite Nat2Z.inj_succ, Z2Nat.id by lia.
  eapply Z.lt_le_trans; [exact Hlt|]. apply Z.pow_le_mono_l. lia.
Qed.

(** The printed form of a natural number is a decimal that reads back. *)
Lemma to_string_spec n :
  (0 <= n)%Z → is_decimal (to_string n) = true ∧ dec_acc 0%Z (to_string n) = n.
Proof.
  intros Hn. unfold to_string. rewrite (proj2 (Z.ltb_ge n 0%Z)) by lia.
  destruct (dec_go_spec (Z.to_nat (Z.log2 n)) n EmptyString) as (d & -> & Hd & Hv).
  { split; [done|]. by apply log2_lt_pow10. }
  by rewrite string_app_nil_r.
Qed.

Lemma is_decimal_digits s : is_decimal s = true → all_chars is_digit s = true.
Proof. unfold is_decimal. by intros [_ ?]%andb_true_iff. Qed.

Lemma to_string_digits n : (0 <= n)%Z → all_chars is_digit (to_string n) = true.
Proof. intros Hn. by apply is_decimal_digits, to_string_spec. Qed.

Lemma to_string_not_empty n : (0 <= n)%Z → to_string n ≠ EmptyString.
Proof.
  intros Hn E. destruct (to_string_spec n Hn) as [Hd _]. by rewrite E in Hd.
Qed.

(** A decimal without leading zeros. *)
Definition canonical (s : string) : bool :=
  is_decimal s &&
  match s with
  | String c (String _ _) => negb (Ascii.eqb c "0")
  | _ => true
  end.

Lemma digit_char_nonzero d : 1 <= d <= 9 → Ascii.eqb (digit_char d) "0" = false.
Proof.
  intros Hd. apply Ascii.eqb_neq. intros E. apply (f_equal code) in E.
  rewrite code_digit_char in E by lia. change (code "0") with 48 in E. lia.
Qed.

Lemma dec_go_head fuel n acc :
  0 < n < 10 ^ Z.of_nat (S fuel) →
  match dec_go (S fuel) n acc with
  | String c _ => Ascii.eqb c "0" = false
  | EmptyString => False
  end.
Proof.
  revert n acc. induction fuel as [|fuel IH]; intros n acc Hn.
  - change (10 ^ Z.of_nat 1) with 10 in Hn. cbn [dec_go].
    rewrite (proj2 (Z.ltb_lt n 10)), Z.mod_small by lia. apply digit_char_nonzero. lia.
  - cbn [dec_go]. destruct (Z.ltb_spec n 10).
    + rewrite Z.mod_small by lia. apply digit_char_nonzero. lia.
    + apply IH. pose proof (Z.div_mod n 10 ltac:(lia)).
      pose proof (Z.mod_pos_bound n 10 ltac:(lia)). split; [lia|].
      apply Z.div_lt_upper_bound; [lia|].
      rewrite Nat2Z.inj_succ, Z.pow_succ_r in Hn by lia. lia.
Qed.

Lemma to_string_canonical n : 0 <= n → canonical (to_string n) = true.
Proof.
  intros Hn. unfold canonical. destruct (to_string_spec n Hn) as [-> _]. cbn [andb].
  destruct (Z.eq_dec n 0) as [->|]; [done|].
  unfold to_string. rewrite (proj2 (Z.ltb_ge n 0)) by lia.
  pose proof (dec_go_head (Z.to_nat (Z.log2 n)) n EmptyString
    ltac:(split; [lia|by apply log2_lt_pow10])) as Hh.
  destruct (dec_go _ n _) as [|c [|c' s]]; [done|done|]. by rewrite Hh.
Qed.

Lemma dec_acc_shift v s : dec_acc v s = v * 10 ^ strlen s + dec_acc 0 s.
Proof.
  revert v. induction s as [|c s IH]; intros v; cbn [dec_acc String.length].
  - change (10 ^ Z.of_nat 0) with 1. lia.
  - rewrite (IH (10 * v + _)), (IH (10 * 0 + _)), Nat2Z.inj_succ, Z.pow_succ_r by lia. lia.
Qed.

Lemma dec_acc_bound s : all_chars is_digit s = true → 0 <= dec_acc 0 s < 10 ^ strlen s.
Proof.
  induction s as [|c s IH]; [cbn; lia|]. cbn [all_chars dec_acc String.length].
  intros [Hc Hs]%andb_true_iff. apply digit_value_range in Hc. specialize (IH Hs).
  rewrite dec_acc_shift, Nat2Z.inj_succ, Z.pow_succ_r by lia. nia.
Qed.

Lemma digit_value_inj c d :
  is_digit c = true → is_digit d = true → digit_value c = digit_value d → c = d.
Proof.
  unfold is_digit, digit_value, code. intros Hc Hd E.
  assert (N_of_ascii c = N_of_ascii d) as E' by lia.
  rewrite <- (ascii_N_embedding c), <- (ascii_N_embedding d). by f_equal.
Qed.

Lemma dec_acc_inj a b :
  String.length a = String.length b →
  all_chars is_digit a = true → all_chars is_digit b = true →
  dec_acc 0 a = dec_acc 0 b → a = b.
Proof.
  revert b. induction a as [|c a IH]; intros [|d b]; try done. cbn [all_chars dec_acc String.length].
  intros [= Hl] [Hc Ha]%andb_true_iff [Hd Hb]%andb_true_iff.
  rewrite !(dec_acc_shift (10 * 0 + _)), Hl. intros E.
  pose proof (dec_acc_bound a Ha) as Ba. rewrite Hl in Ba. pose proof (dec_acc_bound b Hb).
  pose proof (digit_value_range c Hc). pose proof (digit_value_range d Hd).
  assert (digit_value c = digit_value d) as Ed by nia.
  rewrite (digit_value_inj c d Hc Hd Ed). f_equal. apply IH; [done..|]. nia.
Qed.

(** Of equal value are only equal canonical decimals. *)
Lemma canonical_length a b :
  canonical a = true → canonical b = true → dec_acc 0 a = dec_acc 0 b →
  (String.length a <= String.length b)%nat.
Proof.
  unfold canonical, is_decimal. intros Ca Cb E.
  apply andb_true_iff in Ca as [[Ha1 Ha2]%andb_true_iff Ha3].
  apply andb_true_iff in Cb as [[Hb1 Hb2]%andb_true_iff _].
  destruct a as [|c [|c' a]]; [done|destruct b; cbn; [done|lia]|].
  apply Nat.nlt_ge. intros Hlt. cbn [all_chars] in Ha2. apply andb_true_iff in Ha2 as [Hc Ha2].
  change (dec_acc 0 (String c (String c' a))) with (dec_acc (10 * 0 + digit_value c) (String c' a))
    in E.
  rewrite dec_acc_shift in E. pose proof (dec_acc_bound b Hb2).
  pose proof (dec_acc_bound (String c' a) Ha2). pose proof (digit_value_range c Hc).
  assert (1 <= digit_value c).
  { destruct (Z.eq_dec (digit_value c) 0) as [E0|]; [exfalso|lia].
    rewrite (digit_value_inj c "0" Hc eq_refl E0) in Ha3. done. }
  assert (10 ^ strlen b <= 10 ^ strlen (String c' a)).
  { apply Z.pow_le_mono_r; [lia|]. cbn [String.length] in Hlt |- *. lia. }
  nia.
Qed.

Lemma to_string_dec s : canonical s = true → to_string (dec_acc 0 s) = s.
Proof.
  intros Hs. assert (all_chars is_digit s = true) as Hd.
  { unfold canonical in Hs. apply andb_true_iff in Hs as [Hs _]. by apply is_decimal_digits. }
  pose proof (dec_acc_bound s Hd) as [H0 _].
  pose proof (to_string_canonical _ H0) as Hc. destruct (to_string_spec _ H0) as [_ Hv].
  apply dec_acc_inj; [|by apply to_string_digits|done|done].
  apply Nat.le_antisymm; by apply canonical_length.
Qed.

Lemma to_string_length n k : 0 <= n < 10 ^ Z.of_nat k → (0 < k)%nat → strlen (to_string n) <= Z.of_nat k.
Proof.
  intros Hn Hk. pose proof (to_string_canonical n ltac:(lia)) as Hc.
  destruct (to_string_spec n ltac:(lia)) as [Hd Hv].
  destruct (to_string n) as [|c [|c' s]]; [done|cbn; lia|].
  apply Z.le_ngt. intros Hlt. unfold canonical in Hc. apply andb_true_iff in Hc as [_ Hc].
  apply is_decimal_digits in Hd. cbn [all_chars] in Hd. apply andb_true_iff in Hd as [Hd Hs].
  change (dec_acc 0 (String c (String c' s))) with (dec_acc (10 * 0 + digit_value c) (String c' s))
    in Hv.
  rewrite dec_acc_shift in Hv. pose proof (dec_acc_bound (String c' s) Hs).
  pose proof (digit_value_range c Hd).
  assert (1 <= digit_value c).
  { destruct (Z.eq_dec (digit_value c) 0) as [E0|]; [exfalso|lia].
    by rewrite (digit_value_inj c "0" Hd eq_refl E0) in Hc. }
  assert (10 ^ Z.of_nat k <= 10 ^ strlen (String c' s)).
  { apply Z.pow_le_mono_r; [lia|]. cbn [String.length] in Hlt |- *. lia. }
  nia.
Qed.

(** ** Lines *)

Definition LF : ascii := "010"%char.
Definition CR : ascii := "013"%char.

(** Cutting at every LF; the text after the last LF is a segment too. *)
Fixpoint split_lf (s : string) : list string :=
  match s with
  | EmptyString => [EmptyString]
  | String c s' =>
      if Ascii.eqb LF c then EmptyString :: split_lf s'
      else match split_lf s' with
           | l :: ls => String c l :: ls
           | [] => [String c EmptyString]
           end
  end.

(** The lines a [std::getline] loop reads: the text after the last LF counts
    only when it is not empty. *)
Fixpoint getlines (s : string) : list string :=
  match s with
  | EmptyString => []
  | String c s' =>
      if Ascii.eqb LF c then EmptyString :: getlines s'
      else match getlines s' with
           | l :: ls => String c l :: ls
           | [] => [String c EmptyString]
           end
  end.

(** [out << line << '\n'] for every line. *)
Fixpoint unlines (ls : list string) : string :=
  match ls with
  | [] => EmptyString
  | l :: ls' => l +:+ String LF (unlines ls')
  end.

Definition no_lf (s : string) : bool := all_chars (λ c, negb (Ascii.eqb LF c)) s.

Lemma split_lf_line l s :
  no_lf l = true → split_lf (l +:+ String LF s) = l :: split_lf s.
Proof.
  unfold no_lf. induction l as [|c l IH]; simpl; [done|].
  rewrite andb_true_iff, negb_true_iff. intros [-> H]. by rewrite IH.
Qed.

Lemma split_lf_no_lf l : no_lf l = true → split_lf l = [l].
Proof.
  unfold no_lf. induction l as [|c l IH]; simpl; [done|].
  rewrite andb_true_iff, negb_true_iff. intros [-> H]. by rewrite IH.
Qed.

Lemma getlines_line l s : no_lf l = true → getlines (l +:+ String LF s) = l :: getlines s.
Proof.
  unfold no_lf. induction l as [|c l IH]; simpl; [done|].
  rewrite andb_true_iff, negb_true_iff. intros [-> H]. by rewrite IH.
Qed.

Lemma getlines_unlines ls : forallb no_lf ls = true → getlines (unlines ls) = ls.
Proof.
  induction ls as [|l ls IH]; simpl; [done|].
  rewrite andb_true_iff. intros [Hl Hls]. by rewrite getlines_line, IH.
Qed.

Lemma getlines_no_lf s : forallb no_lf (getlines s) = true.
Proof.
  induction s as [|c s IH]; [done|]. cbn [getlines].
  destruct (Ascii.eqb LF c) eqn:E; [exact IH|].
  destruct (getlines s) as [|l ls]; cbn in *; unfold no_lf in *; cbn; rewrite E; done.
Qed.

Lemma unlines_app a b : unlines (a ++ b) = unlines a +:+ unlines b.
Proof.
  induction a as [|l a IH]; simpl; [done|]. rewrite IH.
  by rewrite string_app_assoc.
Qed.

Lemma getlines_unlines_app ls s :
  forallb no_lf ls = true → getlines (unlines ls +:+ s) = ls ++ getlines s.
Proof.
  induction ls as [|l ls IH]; simpl; [done|].
  rewrite andb_true_iff. intros [Hl Hls].
  rewrite string_app_assoc. simpl. by rewrite getlines_line, IH.
Qed.

(** A line without the CR that may end it. *)
Definition drop_cr (line : string) : string :=
  match rev (list_ascii_of_string line) with
  | c :: r => if Ascii.eqb c CR then string_of_list_ascii (rev r) else line
  | [] => line
  end.

(** A line without a CR is kept whole. *)
Lemma drop_cr_id s : all_chars (λ c, negb (Ascii.eqb CR c)) s = true → drop_cr s = s.
Proof.
  intros H. unfold drop_cr. destruct (rev (list_ascii_of_string s)) as [|c r] eqn:E; [done|].
  destruct (Ascii.eqb_spec c CR) as [->|]; [exfalso|done].
  assert (CR ∈ list_ascii_of_string s) as Hin.
  { rewrite <- (rev_involutive (list_ascii_of_string s)), E.
    apply list_elem_of_In, in_rev. rewrite rev_involutive. by left. }
  clear E. induction s as [|x s IH]; cbn [list_ascii_of_string all_chars] in *;
    [by apply not_elem_of_nil in Hin|].
  apply andb_true_iff in H as [Hx Hs]. apply elem_of_cons in Hin as [E|Hin]; [|auto].
  by rewrite <- E in Hx.
Qed.

Lemma split_lf_unlines ls : forallb no_lf ls = true → split_lf (unlines ls) = ls ++ [""].
Proof.
  induction ls as [|l ls IH]; cbn [forallb unlines app]; [done|].
  intros [Hl Hls]%andb_true_iff. by rewrite split_lf_line, IH.
Qed.

(** ** Automation *)

(** Boolean connectives and comparisons of the source, as propositions. *)
Ltac b2p :=
  repeat match goal with
  | H : (_ && _)%bool = true |- _ => apply andb_true_iff in H as [? ?]
  | H : (_ || _)%bool = true |- _ => apply orb_true_iff in H
  | H : (_ || _)%bool = false |- _ => apply orb_false_iff in H as [? ?]
  | H : negb _ = true |- _ => apply negb_true_iff in H
  | H : negb _ = false |- _ => apply negb_false_iff in H
  | H : (_ =? _)%Z = true |- _ => apply Z.eqb_eq in H
  | H : (_ =? _)%Z = false |- _ => apply Z.eqb_neq in H
  | H : (_ <? _)%Z = true |- _ => apply Z.ltb_lt in H
  | H : (_ <? _)%Z = false |- _ => apply Z.ltb_ge in H
  | H : (_ <=? _)%Z = true |- _ => apply Z.leb_le in H
  | H : (_ <=? _)%Z = false |- _ => apply Z.leb_gt in H
  | H : String.eqb _ _ = true |- _ => apply String.eqb_eq in H
  | H : String.eqb _ _ = false |- _ => apply String.eqb_neq in H
  | H : bool_decide _ = true |- _ => apply bool_decide_eq_true in H
  | H : bool_decide _ = false |- _ => apply bool_decide_eq_false in H
  end.

(** Case analysis on the first scrutinee of a match, goal first. *)
Ltac split_match :=
  match goal with
  | |- context [match ?x with _ => _ end] =>
      lazymatch x with
      | context [match _ with _ => _ end] => fail
      | _ => destruct x eqn:?
      end
  | H : context [match ?x with _ => _ end] |- _ =>
      lazymatch x with
      | context [match _ with _ => _ end] => fail
      | _ => destruct x eqn:?
      end
  end.

Ltac split_matches := repeat (split_match; simplify_eq/=).

(** An invariant of a fold. *)
Lemma foldl_keeps {A B} (I : A → Prop) (R : B → Prop) (f : A → B → A) l a :
  Forall R l → (∀ a b, R b → I a → I (f a b)) → I a → I (foldl f a l).
Proof.
  intros Hl Hf. revert a. induction Hl as [|b l Hb _ IH]; intros a Ha; cbn; [done|]. eauto.
Qed.

(** ** What an action leaves alone *)

(** The action does not change what [obs] observes of the state. *)
Definition preserves {S A X} (obs : S → X) (m : M S A) : Prop := ∀ s, obs (m s).2 = obs s.

Section Preserves.
Context {S X : Type} (obs : S → X).

Lemma preserves_ret {A} (a : A) : preserves obs (mret a).
Proof. done. Qed.

Lemma preserves_get {A} (f : S → A) : preserves obs (λ s, (f s, s)).
Proof. done. Qed.

Lemma preserves_bind {A B} (m : M S A) (k : A → M S B) :
  preserves obs m → (∀ a, preserves obs (k a)) → preserves obs (mthen m k).
Proof.
  intros Hm Hk s. specialize (Hm s). unfold mthen. destruct (m s) as [a s']. cbn in Hm.
  by rewrite Hk.
Qed.

Lemma preserves_run {A} (m : M S A) s a s' :
  preserves obs m → m s = (a, s') → obs s' = obs s.
Proof. intros Hm E. specialize (Hm s). by rewrite E in Hm. Qed.
End Preserves.

Create HintDb frame.

(** Composes what the parts of an action leave alone; the hints of [frame] say
    it of the operations. *)
Ltac frame_run obs s :=
  lazymatch goal with
  | |- _ (snd (match ?x with _ => _ end)) = _ => destruct x; frame_run obs s
  | |- _ (snd (_, _)) = _ => reflexivity
  | |- _ (snd (?m s)) = _ =>
      let Hp := fresh in enough (Hp : preserves obs m) by exact (Hp s)
  end.

Ltac frame_step :=
  lazymatch goal with
  | |- preserves _ (mret _) => apply preserves_ret
  | |- preserves _ (mthen _ _) => apply preserves_bind; [|intros ?]
  | |- preserves _ (match ?x with _ => _ end) => destruct x
  | |- preserves _ (let _ := _ in _) => cbv zeta
  | |- preserves _ (λ _, (_, _)) => apply preserves_get
  | |- preserves ?obs (λ _, _) =>
      let s := fresh "s" in intros s; cbv beta zeta; frame_run obs s
  | |- _ => solve [auto 2 with frame nocore]
  end.
Ltac frame := intros; repeat frame_step.

Create HintDb optimizer discriminated.
Create Rewrite HintDb optimizer.
#[export] Hint Rewrite strlen_app all_chars_app string_app_assoc string_app_nil_r
  dec_acc_app : optimizer.
#[export] Hint Resolve u32_range u64_range code_range digit_value_range
  to_string_digits to_string_not_empty getlines_no_lf is_decimal_digits : optimizer.
