(* ===== verification/Timing.v ===== *)
(** The steady clock and sleeping, as the timed loops of the code use them, and
    what they may rely on: no call turns the clock back, and a sleep moves it
    on. Times are in nanoseconds. *)

From S2P Require Import Prelude.

Open Scope Z_scope.

Definition ns_of_millis (ms : Z) : Z := ms * 1000000.

(** [steady_clock::now] and [this_thread::sleep_for]. *)
Class SteadyClock (B : Type) := clock_now : M B Z.
Class Sleeping (B : Type) := sleep_for : Z → M B unit.

Class TimeLaws (B : Type) `{SteadyClock B, Sleeping B} := {
  time : B → Z;
  clock_time b : time b <= (clock_now b).1 <= time (clock_now b).2;
  sleep_time d b : time b < time (sleep_for d b).2 ∧ time b + d <= time (sleep_for d b).2
}.

Section Advancing.
Context {B : Type} `{TimeLaws B}.

(** The action does not turn the clock back. *)
Definition advances {A} (m : M B A) : Prop := ∀ b, time b <= time (m b).2.

Lemma advances_ret {A} (a : A) : advances (mret a).
Proof. intros b. cbn. lia. Qed.

Lemma advances_get {A} (f : B → A) : advances (λ b, (f b, b)).
Proof. intros b. cbn. lia. Qed.

Lemma advances_bind {A C} (m : M B A) (k : A → M B C) :
  advances m → (∀ a, advances (k a)) → advances (mthen m k).
Proof.
  intros Hm Hk b. specialize (Hm b). unfold mthen. destruct (m b) as [a b']. cbn in Hm.
  specialize (Hk a b'). lia.
Qed.

Lemma advances_run {A} (m : M B A) b a b' : advances m → m b = (a, b') → time b <= time b'.
Proof. intros Hm E. specialize (Hm b). by rewrite E in Hm. Qed.

Lemma clock_run b now b' : clock_now b = (now, b') → time b <= now <= time b'.
Proof. intros E. pose proof (clock_time b) as Hc. by rewrite E in Hc. Qed.

Lemma sleep_run d b u b' : sleep_for d b = (u, b') → time b < time b' ∧ time b + d <= time b'.
Proof. intros E. pose proof (sleep_time d b) as Hs. by rewrite E in Hs. Qed.

Lemma advances_clock : advances clock_now.
Proof. intros b. pose proof (clock_time b). lia. Qed.

Lemma advances_sleep d : advances (sleep_for d).
Proof. intros b. pose proof (sleep_time d b). lia. Qed.
End Advancing.

Create HintDb advance.
#[export] Hint Resolve advances_ret advances_get advances_clock advances_sleep : advance.

Ltac advance :=
  repeat lazymatch goal with
  | |- advances (mthen _ _) => apply advances_bind; [|intros ?]
  | |- advances (match ?x with _ => _ end) => destruct x
  | |- _ => solve [auto with advance]
  end.
