(* ===== verification/CommonError.v ===== *)
(** The error model every fallible operation returns ([common/error.hpp],
    [common/error.cpp]): an error carries the domain it comes from, its raw
    code, the failing operation and a message for display. Wide message texts
    are kept as their UTF-8 bytes. The operating system's message table is not
    code of the repository: it is the class [SystemMessages]. *)

From S2P Require Import Prelude.

Open Scope string_scope.
Open Scope list_scope.
Open Scope Z_scope.

Module ErrorDomain.
Inductive ErrorDomain :=
  | Win32 | HResult | Pdh | NtStatus | Validation | Unsupported | Internal.
End ErrorDomain.
Abbreviation ErrorDomain := ErrorDomain.ErrorDomain.

#[export] Instance ErrorDomain_eq_dec : EqDecision ErrorDomain.
Proof. solve_decision. Defined.

Record Error := MkError {
  domain : ErrorDomain;
  err_code : Z;
  operation : string;
  message : string
}.

#[export] Instance Error_eq_dec : EqDecision Error.
Proof. solve_decision. Defined.

Inductive Result (T : Type) :=
  | Success (value : T)
  | Failure (error : Error).
Arguments Success {T} value.
Arguments Failure {T} error.

Definition HasValue {T} (r : Result T) : bool :=
  match r with Success _ => true | Failure _ => false end.

(** The constants of [winerror.h] the sources test for. *)
Definition ERROR_TIMEOUT : Z := 1460.
Definition ERROR_BROKEN_PIPE : Z := 109.
Definition ERROR_NO_DATA : Z := 232.

(** [FormatMessageW]: the system's text for a code, without its final line
    break; empty when the system has none. *)
Class SystemMessages := FormatSystemMessage : Z → string.

Definition DomainToString (d : ErrorDomain) : string :=
  match d with
  | ErrorDomain.Win32 => "Win32"
  | ErrorDomain.HResult => "HRESULT"
  | ErrorDomain.Pdh => "PDH"
  | ErrorDomain.NtStatus => "NTSTATUS"
  | ErrorDomain.Validation => "Validation"
  | ErrorDomain.Unsupported => "Unsupported"
  | ErrorDomain.Internal => "Internal"
  end.

(** [std::hex << std::uppercase] on an unsigned 64-bit value. *)
Definition hex_char (d : Z) : ascii :=
  if d <? 10 then digit_char d else ascii_of_N (Z.to_N (55 + d)).

Fixpoint hex_go (fuel : nat) (n : Z) (acc : string) : string :=
  match fuel with
  | O => acc
  | S f =>
      let acc' := String (hex_char (n mod 16)) acc in
      if n <? 16 then acc' else hex_go f (n / 16) acc'
  end.

Definition FormatUnknown (d : ErrorDomain) (c : Z) : string :=
  DomainToString d +:+ " error 0x" +:+ hex_go 16 (u64 c) "".

Section Formatting.
Context `{SystemMessages}.

Definition FormatErrorMessage (d : ErrorDomain) (c : Z) : string :=
  match d with
  | ErrorDomain.Win32 | ErrorDomain.HResult =>
      let m := FormatSystemMessage (u32 c) in
      if string_empty m then FormatUnknown d c else m
  | ErrorDomain.Pdh | ErrorDomain.NtStatus => FormatUnknown d c
  | ErrorDomain.Validation => "Validation error"
  | ErrorDomain.Unsupported => "Unsupported operation"
  | ErrorDomain.Internal => FormatUnknown d c
  end.

Definition MakeError (d : ErrorDomain) (c : Z) (op : string) : Error :=
  MkError d c op (FormatErrorMessage d c).

Definition FromWin32 (c : Z) (op : string) : Error := MakeError ErrorDomain.Win32 c op.
Definition FromHResult (c : Z) (op : string) : Error :=
  MakeError ErrorDomain.HResult (u32 c) op.
Definition FromPdh (c : Z) (op : string) : Error := MakeError ErrorDomain.Pdh (u32 c) op.
Definition FromNtStatus (c : Z) (op : string) : Error :=
  MakeError ErrorDomain.NtStatus (u32 c) op.
End Formatting.

Definition Unsupported (op msg : string) : Error :=
  MkError ErrorDomain.Unsupported 0 op msg.
Definition Validation (op msg : string) : Error :=
  MkError ErrorDomain.Validation 0 op msg.

(** A system with no message texts, for evaluating the model. *)
Definition no_messages : SystemMessages := λ _, "".

Definition is_win32 (e : Error) (c : Z) : bool :=
  bool_decide (domain e = ErrorDomain.Win32) && (err_code e =? c).
