(* ===== verification/Containers.v ===== *)
(** Library types of the sources that several components keep state in: the
    ordered [std::map] with string keys, and the integer parser [std::stoll].
    The file system they persist to is not code of the repository: it is the
    class [FileSystem], with the documented behaviour the components rely on
    in [FileSystemLaws], and an in-memory instance to evaluate the model. *)

From Stdlib Require Import Sorted.
From S2P Require Import Prelude.

Open Scope string_scope.
Open Scope list_scope.
Open Scope Z_scope.

(** ** [std::map<std::string, V>] *)

(** The entries in iteration order, which is increasing in the keys. *)
Definition smap (V : Type) : Type := list (string * V).

Fixpoint smap_find {V} (k : string) (m : smap V) : option V :=
  match m with
  | [] => None
  | (k', v) :: r => if String.eqb k' k then Some v else smap_find k r
  end.

(** [m[k] = v], [insert_or_assign]. *)
Fixpoint smap_set {V} (k : string) (v : V) (m : smap V) : smap V :=
  match m with
  | [] => [(k, v)]
  | (k', v') :: r =>
      match String.compare k k' with
      | Eq => (k, v) :: r
      | Lt => (k, v) :: (k', v') :: r
      | Gt => (k', v') :: smap_set k v r
      end
  end.

Definition smap_erase {V} (k : string) (m : smap V) : smap V :=
  List.filter (λ p, negb (String.eqb p.1 k)) m.

Definition str_lt (a b : string) : Prop := String.compare a b = Lt.

Definition smap_sorted {V} (m : smap V) : Prop := StronglySorted (λ p q, str_lt p.1 q.1) m.

Lemma str_compare_refl a : String.compare a a = Eq.
Proof.
  induction a as [|x a IH]; cbn; [done|].
  unfold Ascii.compare. by rewrite N.compare_refl.
Qed.

Lemma str_lt_trans a b c : str_lt a b → str_lt b c → str_lt a c.
Proof.
  unfold str_lt. revert b c. induction a as [|x a IH]; intros [|y b] [|z c]; cbn; try done.
  unfold Ascii.compare.
  destruct (N.compare_spec (N_of_ascii x) (N_of_ascii y)),
    (N.compare_spec (N_of_ascii y) (N_of_ascii z)),
    (N.compare_spec (N_of_ascii x) (N_of_ascii z)); try done; try lia.
  apply IH.
Qed.

Lemma str_compare_Gt a b : String.compare a b = Gt → str_lt b a.
Proof. intros H. unfold str_lt. rewrite String.compare_antisym, H. done. Qed.

Lemma smap_find_set {V} k k' (v : V) m :
  smap_find k' (smap_set k v m) = if String.eqb k k' then Some v else smap_find k' m.
Proof.
  induction m as [|[k0 v0] r IH]; cbn; [done|].
  destruct (String.compare k k0) eqn:Hc; cbn.
  - apply String.compare_eq_iff in Hc as ->. by destruct (String.eqb k0 k').
  - done.
  - rewrite IH. destruct (String.eqb_spec k0 k') as [->|]; [|done].
    destruct (String.eqb_spec k k') as [->|]; [|done].
    by rewrite str_compare_refl in Hc.
Qed.

Lemma smap_set_above {V} k (v : V) m :
  Forall (λ p, str_lt p.1 k) m → smap_set k v m = m ++ [(k, v)].
Proof.
  induction 1 as [|[k0 v0] r Hlt _ IH]; cbn; [done|].
  unfold str_lt in Hlt. cbn in Hlt. rewrite String.compare_antisym, Hlt. cbn. by rewrite IH.
Qed.

Lemma smap_set_keys {V} k (v : V) m (P : string * V → Prop) :
  P (k, v) → Forall P m → Forall P (smap_set k v m).
Proof.
  intros Hk. induction 1 as [|[k0 v0] r H0 Hr IH]; cbn; [by repeat constructor|].
  destruct (String.compare k k0); by repeat constructor.
Qed.

Lemma smap_set_sorted {V} k (v : V) m : smap_sorted m → smap_sorted (smap_set k v m).
Proof.
  unfold smap_sorted. induction 1 as [|[k0 v0] r Hr IH Hall]; cbn; [by repeat constructor|].
  destruct (String.compare k k0) eqn:Hc.
  - apply String.compare_eq_iff in Hc as ->. by constructor.
  - constructor; [by constructor|]. constructor; [done|].
    eapply Forall_impl; [exact Hall|]. intros [k1 v1] H. by eapply str_lt_trans.
  - constructor; [done|]. apply smap_set_keys; [|done]. by apply str_compare_Gt.
Qed.

(** Inserting the entries of a sorted map in order rebuilds it. *)
Lemma smap_rebuild {V} (m : smap V) acc :
  smap_sorted (acc ++ m) →
  foldl (λ a p, smap_set p.1 p.2 a) acc m = acc ++ m.
Proof.
  revert acc. induction m as [|[k v] r IH]; intros acc Hs; cbn; [by rewrite app_nil_r|].
  rewrite smap_set_above.
  - rewrite IH; by rewrite <- app_assoc.
  - clear IH. induction acc as [|p acc IHa]; [constructor|].
    inversion Hs as [|? ? Hs' Hall]; subst. constructor; [|by apply IHa].
    apply Forall_app in Hall as [_ Hall]. by apply Forall_cons_1 in Hall as [? _].
Qed.

Lemma smap_find_None_erase {V} k (m : smap V) : smap_find k (smap_erase k m) = None.
Proof.
  induction m as [|[k0 v0] r IH]; cbn; [done|].
  destruct (String.eqb k0 k) eqn:E; cbn; [done|]. by rewrite E.
Qed.

Lemma smap_find_erase_ne {V} k k' (m : smap V) :
  k ≠ k' → smap_find k' (smap_erase k m) = smap_find k' m.
Proof.
  intros Hne. induction m as [|[k0 v0] r IH]; cbn; [done|].
  destruct (String.eqb_spec k0 k) as [->|]; cbn.
  - by rewrite (proj2 (String.eqb_neq _ _)).
  - unfold smap_erase in IH. by rewrite IH.
Qed.

Lemma smap_find_erase {V} k k' (m : smap V) :
  smap_find k' (smap_erase k m) = if String.eqb k k' then None else smap_find k' m.
Proof.
  destruct (String.eqb_spec k k') as [<-|Hne].
  - apply smap_find_None_erase.
  - by apply smap_find_erase_ne.
Qed.

Lemma smap_find_In {V} k (v : V) m : smap_find k m = Some v → (k, v) ∈ m.
Proof.
  induction m as [|[k0 v0] r IH]; cbn; [done|].
  destruct (String.eqb_spec k0 k) as [->|]; [|rewrite elem_of_cons; auto].
  intros [= ->]. apply elem_of_cons. by left.
Qed.

Lemma smap_erase_sorted {V} k (m : smap V) : smap_sorted m → smap_sorted (smap_erase k m).
Proof.
  unfold smap_sorted, smap_erase. induction 1 as [|p r Hr IH Hall]; cbn; [constructor|].
  destruct (negb _); [|done]. constructor; [done|].
  rewrite list.Forall_forall in Hall |- *. intros q Hq. apply Hall.
  apply list_elem_of_In, filter_In in Hq as [Hq _]. by apply list_elem_of_In.
Qed.

Lemma smap_In_find {V} k (v : V) m : smap_sorted m → (k, v) ∈ m → smap_find k m = Some v.
Proof.
  induction 1 as [|[k0 v0] r Hr IH Hall]; cbn; [by intros ?%not_elem_of_nil|].
  intros [[= -> ->]|Hin]%elem_of_cons; [by rewrite String.eqb_refl|].
  destruct (String.eqb_spec k0 k) as [->|]; [|by apply IH].
  rewrite list.Forall_forall in Hall. specialize (Hall _ Hin). unfold str_lt in Hall.
  cbn in Hall. by rewrite str_compare_refl in Hall.
Qed.

(** ** Numbering *)

(** The largest of a set of numbers and 0; a greater one is fresh. *)
Definition set_max (X : gset Z) : Z := set_fold Z.max 0 X.

Lemma set_max_ge (X : gset Z) h : h ∈ X → h <= set_max X.
Proof.
  unfold set_max.
  apply (set_fold_ind_L (λ r (Y : gset Z), h ∈ Y → h <= r)); [set_solver|].
  intros x Y r Hx IH. rewrite elem_of_union, elem_of_singleton.
  intros [->|Hin]; [lia|]. specialize (IH Hin). lia.
Qed.

Lemma set_max_nonneg (X : gset Z) : 0 <= set_max X.
Proof.
  unfold set_max. apply (set_fold_ind_L (λ r (Y : gset Z), 0 <= r)); [lia|]. intros; lia.
Qed.

(** ** [std::stoll] *)

Definition is_i64 (z : Z) : Prop := - 2 ^ 63 <= z < 2 ^ 63.

Definition is_space (c : ascii) : bool := (code c =? 32) || ((9 <=? code c) && (code c <=? 13)).

Fixpoint skip_space (s : string) : string :=
  match s with
  | String c s' => if is_space c then skip_space s' else s
  | EmptyString => s
  end.

Fixpoint take_digits (s : string) : string :=
  match s with
  | String c s' => if is_digit c then String c (take_digits s') else EmptyString
  | EmptyString => EmptyString
  end.

Definition stoll_sign (s : string) : bool * string :=
  match s with
  | String c s' => if Ascii.eqb c "-" then (true, s')
                   else if Ascii.eqb c "+" then (false, s') else (false, s)
  | EmptyString => (false, s)
  end.

(** Leading white space, an optional sign, digits; what follows is ignored.
    [None] where the source throws: no digit, or out of the 64-bit range. *)
Definition stoll (s : string) : option Z :=
  let '(neg, s) := stoll_sign (skip_space s) in
  let d := take_digits s in
  if string_empty d then None
  else
    let v := if neg : bool then - dec_acc 0 d else dec_acc 0 d in
    if (- 2 ^ 63 <=? v) && (v <? 2 ^ 63) then Some v else None.

Lemma take_digits_all s : all_chars is_digit s = true → take_digits s = s.
Proof.
  induction s as [|c s IH]; cbn; [done|].
  rewrite andb_true_iff. intros [-> H]. by rewrite IH.
Qed.

Lemma stoll_range s v : stoll s = Some v → is_i64 v.
Proof.
  unfold stoll, is_i64. intros H. destruct (stoll_sign _) as [neg t].
  destruct (string_empty _); [done|].
  destruct (_ && _) eqn:Hr in H; [|done]. injection H as <-. b2p. lia.
Qed.

Lemma digit_not_special c :
  is_digit c = true →
  is_space c = false ∧ Ascii.eqb c "-" = false ∧ Ascii.eqb c "+" = false.
Proof. by destruct c as [[] [] [] [] [] [] [] []]. Qed.

Lemma stoll_to_string v : is_i64 v → stoll (to_string v) = Some v.
Proof.
  unfold is_i64. intros Hv. destruct (Z.ltb_spec v 0) as [Hneg|Hpos].
  - pose proof (to_string_spec (- v) ltac:(lia)) as [Hd Hval].
    assert (to_string v = String "-" (to_string (- v))) as ->.
    { unfold to_string. rewrite (proj2 (Z.ltb_lt v 0)), (proj2 (Z.ltb_ge (- v) 0)) by lia.
      done. }
    unfold stoll, stoll_sign. cbn [skip_space]. change (is_space "-") with false. cbn beta iota.
    change (Ascii.eqb "-" "-") with true. cbn beta iota.
    rewrite take_digits_all by (by apply is_decimal_digits).
    destruct (string_empty (to_string (- v))) eqn:He.
    { unfold is_decimal in Hd. by rewrite He in Hd. }
    rewrite Hval. replace (- - v) with v by lia.
    destruct (_ && _) eqn:Hr; [done|]. apply andb_false_iff in Hr as [Hr|Hr]; b2p; lia.
  - pose proof (to_string_spec v Hpos) as [Hd Hval].
    unfold stoll, stoll_sign. unfold is_decimal in Hd. apply andb_true_iff in Hd as [Hne Hall].
    destruct (to_string v) as [|c t] eqn:Et; [done|].
    pose proof Hall as Hall'. cbn in Hall'. apply andb_true_iff in Hall' as [Hc _].
    destruct (digit_not_special c Hc) as (Hs & Hm & Hp).
    cbn [skip_space]. rewrite Hs. cbn beta iota. rewrite Hm, Hp. cbn beta iota.
    rewrite take_digits_all by done. cbn [string_empty]. rewrite Hval.
    destruct (_ && _) eqn:Hr; [done|]. apply andb_false_iff in Hr as [Hr|Hr]; b2p; lia.
Qed.

(** ** Files *)

(** What an [ofstream] that is opened, written and flushed comes to. *)
Inductive WriteOutcome := Written | OpenFailed | FlushFailed.

(** The file system over a state [W] of the world. An opened stream delivers
    the whole file; [GetLastError] is the code the last failure left. *)
Class FileSystem (W : Type) := {
  is_directory : string → W → bool;
  exists_file : string → W → bool * Z;
  open_read : string → W → option string;
  GetLastError : W → Z;
  create_directories : string → M W Z;
  write_trunc : string → string → M W WriteOutcome;
  append_text : string → string → M W WriteOutcome;
  MoveFileExW : string → string → M W bool;
  remove_file : string → M W unit
}.

(** Documented behaviour, in terms of what each path holds: a write that
    succeeds leaves the text in its file, a failed open leaves everything as it
    was, a replacing move is atomic, and no operation touches a third path. *)
Class FileSystemLaws (W : Type) `{FileSystem W} := {
  file : string → W → option string;
  exists_file_none : ∀ p w, exists_file p w = (false, 0) → file p w = None;
  open_read_file : ∀ p w t, open_read p w = Some t → file p w = Some t;
  create_directories_file : ∀ p q w, file q (create_directories p w).2 = file q w;
  write_trunc_file : ∀ p t w w', write_trunc p t w = (Written, w') → file p w' = Some t;
  write_trunc_open : ∀ p t w w' q,
    write_trunc p t w = (OpenFailed, w') → file q w' = file q w;
  write_trunc_other : ∀ p t w q, q ≠ p → file q (write_trunc p t w).2 = file q w;
  append_text_file : ∀ p t w w', append_text p t w = (Written, w') →
    file p w' = Some (default "" (file p w) +:+ t);
  append_text_open : ∀ p t w w' q,
    append_text p t w = (OpenFailed, w') → file q w' = file q w;
  append_text_other : ∀ p t w q, q ≠ p → file q (append_text p t w).2 = file q w;
  move_file : ∀ p q w w', MoveFileExW p q w = (true, w') → p ≠ q →
    file q w' = file p w ∧ file p w' = None;
  move_file_fail : ∀ p q w w' r, MoveFileExW p q w = (false, w') → file r w' = file r w;
  move_file_other : ∀ p q w r, r ≠ p → r ≠ q → file r (MoveFileExW p q w).2 = file r w;
  remove_file_other : ∀ p w r, r ≠ p → file r (remove_file p w).2 = file r w
}.

(** A file replaced through a temporary one: what is done when the temporary
    file cannot be opened, cannot be written, or cannot be moved. *)
Definition via_temp {W A} `{FileSystem W} (tempPath path text : string)
    (on_open on_flush on_move : M W A) (done : A) : M W A :=
  out <-- write_trunc tempPath text ;;
  match out with
  | OpenFailed => on_open
  | FlushFailed => on_flush
  | Written =>
      moved <-- MoveFileExW tempPath path ;;
      if negb moved then on_move else mret done
  end.

Lemma tmp_path_ne (p ext : string) : ext ≠ "" → p +:+ ext ≠ p.
Proof.
  intros Hext E. apply (f_equal String.length) in E. rewrite strlen_app in E.
  destruct ext; [done|]. cbn in E. lia.
Qed.

Section ViaTemp.
Context {W A : Type} `{FileSystemLaws W}.

(** A step that touches no file but [p] and ends in one of [Q]. *)
Definition only_touches (p : string) (Q : A → Prop) (m : M W A) : Prop :=
  ∀ w a w', m w = (a, w') → Q a ∧ ∀ q, q ≠ p → file q w' = file q w.

Lemma only_touches_ret p (Q : A → Prop) (f : W → A) :
  (∀ w, Q (f w)) → only_touches p Q (λ w, (f w, w)).
Proof. intros Hf w a w' [= <- <-]. split; [apply Hf|done]. Qed.

Lemma only_touches_remove p (Q : A → Prop) (f : W → M W A) :
  (∀ w, only_touches p Q (f w)) → only_touches p Q (λ w, (remove_file p ;;; f w) w).
Proof.
  intros Hf w a w'. unfold mthen. pose proof (λ q, remove_file_other p w q) as Hr.
  destruct (remove_file p w) as [[] w1]. cbn in Hr. intros E.
  apply Hf in E as [HQ Hq]. split; [done|]. intros q Hne. by rewrite Hq, Hr.
Qed.

(** The file has the new text, or it is as it was. *)
Lemma via_temp_atomic (failed : A → Prop) t path text on_open on_flush on_move ok w a w' :
  t ≠ path →
  only_touches t failed on_open → only_touches t failed on_flush →
  only_touches t failed on_move →
  via_temp t path text on_open on_flush on_move ok w = (a, w') →
  (∀ q, q ≠ path → q ≠ t → file q w' = file q w) ∧
  ((a = ok ∧ file path w' = Some text) ∨ (failed a ∧ file path w' = file path w)).
Proof.
  intros Hne Ho Hf Hm. unfold via_temp, mthen, mret.
  pose proof (λ q, write_trunc_other t text w q) as Hw.
  destruct (write_trunc t text w) as [[] w1] eqn:Ht; cbn in Hw.
  - apply write_trunc_file in Ht. pose proof (λ q, move_file_other t path w1 q) as Hmo.
    destruct (MoveFileExW t path w1) as [[] w2] eqn:Hmv; cbn [negb] in *; cbn in Hmo.
    + intros [= <- <-]. destruct (move_file _ _ _ _ Hmv Hne) as [Hp _].
      split; [intros q H1 H2; by rewrite Hmo, Hw|]. left. by rewrite Hp.
    + intros [HQ Hq]%Hm. assert (∀ q, q ≠ t → file q w' = file q w) as Hall.
      { intros q H1. by rewrite Hq, (move_file_fail _ _ _ _ q Hmv), Hw. }
      split; [intros q _ H2; by apply Hall|]. right. split; [done|]. by apply Hall.
  - intros [HQ Hq]%Ho. split; [intros q H1 H2|right; split; [done|]]; by rewrite Hq, Hw.
  - intros [HQ Hq]%Hf. split; [intros q H1 H2|right; split; [done|]]; by rewrite Hq, Hw.
Qed.
End ViaTemp.

(** An in-memory file system with a set of paths that refuse writes. *)
Record MemFs := MkMemFs { files : gmap string string; read_only : list string }.

Definition refuses (p : string) (w : MemFs) : bool := existsb (String.eqb p) (read_only w).

#[export] Instance mem_fs : FileSystem MemFs := {|
  is_directory _ _ := false;
  exists_file p w := (bool_decide (is_Some (files w !! p)), 0);
  open_read p w := files w !! p;
  GetLastError _ := 5;
  create_directories _ := mret 0;
  write_trunc p t w :=
    if refuses p w then (OpenFailed, w)
    else (Written, MkMemFs (<[p := t]> (files w)) (read_only w));
  append_text p t w :=
    if refuses p w then (OpenFailed, w)
    else (Written, MkMemFs (<[p := default "" (files w !! p) +:+ t]> (files w)) (read_only w));
  MoveFileExW p q w :=
    match files w !! p with
    | Some t => if refuses q w then (false, w)
                else (true, MkMemFs (<[q := t]> (delete p (files w))) (read_only w))
    | None => (false, w)
    end;
  remove_file p w := (tt, MkMemFs (delete p (files w)) (read_only w))
|}.

#[export] Program Instance mem_fs_laws : FileSystemLaws MemFs := {|
  file p w := files w !! p
|}.
Next Obligation.
  intros p w. cbn. intros [= H]. apply bool_decide_eq_false in H.
  by apply eq_None_not_Some.
Qed.
Next Obligation. done. Qed.
Next Obligation. done. Qed.
Next Obligation.
  intros p t w w'. cbn. destruct (refuses p w); [done|]. intros [= <-]. cbn.
  apply lookup_insert_eq.
Qed.
Next Obligation. intros p t w w' q. cbn. destruct (refuses p w); by intros [= <-]. Qed.
Next Obligation.
  intros p t w q Hne. cbn. destruct (refuses p w); cbn; [done|]. by apply lookup_insert_ne.
Qed.
Next Obligation.
  intros p t w w'. cbn. destruct (refuses p w); [done|]. intros [= <-]. cbn.
  apply lookup_insert_eq.
Qed.
Next Obligation. intros p t w w' q. cbn. destruct (refuses p w); by intros [= <-]. Qed.
Next Obligation.
  intros p t w q Hne. cbn. destruct (refuses p w); cbn; [done|]. by apply lookup_insert_ne.
Qed.
Next Obligation.
  intros p q w w'. cbn. destruct (files w !! p); [|done].
  destruct (refuses q w); [done|]. intros [= <-] Hne. cbn.
  rewrite lookup_insert_eq, lookup_insert_ne, lookup_delete_eq by done. done.
Qed.
Next Obligation.
  intros p q w w' r. cbn. destruct (files w !! p); [|by intros [= <-]].
  destruct (refuses q w); by intros [= <-].
Qed.
Next Obligation.
  intros p q w r Hp Hq. cbn. destruct (files w !! p); [|done].
  destruct (refuses q w); cbn; [done|]. by rewrite lookup_insert_ne, lookup_delete_ne.
Qed.
Next Obligation. intros p w r Hne. cbn. by apply lookup_delete_ne. Qed.

(** A file system that is a part of a larger world. *)
Section Lifted.
Context {W V : Type} `{FileSystem V} (part : W → V) (replace : V → W → W).

Definition on_part {A} (m : M V A) : M W A := λ w,
  ((m (part w)).1, replace (m (part w)).2 w).

Definition lifted_fs : FileSystem W := {|
  is_directory p w := is_directory p (part w);
  exists_file p w := exists_file p (part w);
  open_read p w := open_read p (part w);
  GetLastError w := GetLastError (part w);
  create_directories p := on_part (create_directories p);
  write_trunc p t := on_part (write_trunc p t);
  append_text p t := on_part (append_text p t);
  MoveFileExW p q := on_part (MoveFileExW p q);
  remove_file p := on_part (remove_file p)
|}.

Context `{!FileSystemLaws V} (part_replace : ∀ v w, part (replace v w) = v).

Lemma on_part_run {A} (m : M V A) w a w' :
  on_part m w = (a, w') → m (part w) = (a, part w').
Proof. unfold on_part. intros [= <- <-]. rewrite part_replace. by destruct (m (part w)). Qed.

Lemma on_part_files {A} (m : M V A) q w :
  file q (part (on_part m w).2) = file q (m (part w)).2.
Proof. unfold on_part. cbn. by rewrite part_replace. Qed.

Lemma lifted_fs_laws : @FileSystemLaws W lifted_fs.
Proof.
  refine (@Build_FileSystemLaws W lifted_fs (λ q w, file q (part w)) _ _ _ _ _ _ _ _ _ _ _ _ _).
  - intros p w. exact (exists_file_none p (part w)).
  - intros p w t. exact (open_read_file p (part w) t).
  - intros p q w. etrans; [apply on_part_files|]. exact (create_directories_file p q (part w)).
  - intros p t w w' E%on_part_run. exact (write_trunc_file p t (part w) (part w') E).
  - intros p t w w' q E%on_part_run. exact (write_trunc_open p t (part w) (part w') q E).
  - intros p t w q Hq. etrans; [apply on_part_files|]. exact (write_trunc_other p t (part w) q Hq).
  - intros p t w w' E%on_part_run. exact (append_text_file p t (part w) (part w') E).
  - intros p t w w' q E%on_part_run. exact (append_text_open p t (part w) (part w') q E).
  - intros p t w q Hq. etrans; [apply on_part_files|]. exact (append_text_other p t (part w) q Hq).
  - intros p q w w' E%on_part_run. exact (move_file p q (part w) (part w') E).
  - intros p q w w' r E%on_part_run. exact (move_file_fail p q (part w) (part w') r E).
  - intros p q w r H1 H2. etrans; [apply on_part_files|]. exact (move_file_other p q (part w) r H1 H2).
  - intros p w r Hr. etrans; [apply on_part_files|]. exact (remove_file_other p (part w) r Hr).
Defined.
End Lifted.

(** [file_size] and [resize_file] with their error codes; whether reading an
    opened file breaks off. *)
Class FileSizes (W : Type) := {
  is_directory_ec : string → W → Z;
  file_size : string → W → Z * Z;
  read_bad : string → W → bool;
  resize_file : string → Z → M W Z
}.

(** The first [n] characters. *)
Fixpoint str_take (n : nat) (s : string) : string :=
  match n, s with
  | S n', String c s' => String c (str_take n' s')
  | _, _ => EmptyString
  end.

Class FileSizesLaws (W : Type) `{FileSystemLaws W} `{!FileSizes W} := {
  exists_file_some : ∀ p w, file p w = None → (exists_file p w).1 = false;
  file_size_file : ∀ p w n t, file_size p w = (n, 0) → file p w = Some t → n = strlen t;
  resize_file_file : ∀ p n w w' t, resize_file p n w = (0, w') → file p w = Some t →
    0 <= n <= strlen t → file p w' = Some (str_take (Z.to_nat n) t);
  resize_file_fail : ∀ p n w, (resize_file p n w).1 ≠ 0 →
    file p (resize_file p n w).2 = file p w;
  resize_file_other : ∀ p n w q, q ≠ p → file q (resize_file p n w).2 = file q w
}.

#[export] Instance mem_sizes : FileSizes MemFs := {|
  is_directory_ec _ _ := 0;
  file_size p w := match files w !! p with Some t => (strlen t, 0) | None => (0, 2) end;
  read_bad _ _ := false;
  resize_file p n w :=
    match files w !! p with
    | Some t => (0, MkMemFs (<[p := str_take (Z.to_nat n) t]> (files w)) (read_only w))
    | None => (2, w)
    end
|}.

#[export] Program Instance mem_sizes_laws : FileSizesLaws MemFs.
Next Obligation.
  intros p w. cbn. intros E. apply bool_decide_eq_false_2. rewrite E. by intros [? ?].
Qed.
Next Obligation. intros p w n t. cbn. intros H E. rewrite E in H. by injection H as <-. Qed.
Next Obligation.
  intros p n w w' t. cbn. intros H E _. rewrite E in H. injection H as <-. cbn.
  apply lookup_insert_eq.
Qed.
Next Obligation.
  intros p n w. cbn. destruct (files w !! p) eqn:E; cbn; [intros Hn; by destruct Hn|done].
Qed.
Next Obligation.
  intros p n w q Hne. cbn. destruct (files w !! p); cbn; [|done]. by apply lookup_insert_ne.
Qed.

Definition empty_fs : MemFs := MkMemFs ∅ [].
