(* ===== verification/Paths.v ===== *)
(** Names of files: what the sources use of [std::filesystem::path] on
    Windows. A path is its text, in which both slashes separate; the root name
    is a drive ([C:]), a server ([\\server]) or a device prefix ([\\?\]).
    Decomposition follows the documented grammar: root name, root directory,
    relative path, whose last component is the file name, which splits at its
    last dot into stem and extension (a stream suffix after a colon belongs to
    neither). *)

From S2P Require Import Prelude Containers.

Open Scope string_scope.
Open Scope list_scope.
Open Scope Z_scope.

Definition is_slash (c : ascii) : bool := Ascii.eqb c "/" || Ascii.eqb c "\".
Definition is_letter (c : ascii) : bool := is_lower c || is_upper c.

Fixpoint str_skip (n : nat) (s : string) : string :=
  match n, s with
  | O, _ => s
  | S n', String _ s' => str_skip n' s'
  | S _, EmptyString => EmptyString
  end.

(** The longest prefix of characters that satisfy [p], and the rest. *)
Fixpoint span (p : ascii → bool) (s : string) : string * string :=
  match s with
  | EmptyString => (EmptyString, EmptyString)
  | String c s' => if p c then let '(a, b) := span p s' in (String c a, b)
                   else (EmptyString, s)
  end.

(** The longest suffix of characters that satisfy [p], and what precedes. *)
Fixpoint span_end (p : ascii → bool) (s : string) : string * string :=
  match s with
  | EmptyString => (EmptyString, EmptyString)
  | String c s' =>
      let '(a, b) := span_end p s' in
      if string_empty a && p c then (EmptyString, String c b) else (String c a, b)
  end.

(** The length of the root name. *)
Definition root_name_length (s : string) : nat :=
  match s with
  | String a (String b r) =>
      if is_letter a && Ascii.eqb b ":" then 2
      else if negb (is_slash a) then 0
      else match r with
           | String c (String d r') =>
               if is_slash d && match r' with String e _ => negb (is_slash e) | _ => true end
                  && ((is_slash b && (Ascii.eqb c "?" || Ascii.eqb c "."))
                      || (Ascii.eqb b "?" && Ascii.eqb c "?"))
               then 3
               else if is_slash b && negb (is_slash c)
                    then 2 + String.length (span (λ x, negb (is_slash x)) r).1
                    else 0
           | String c EmptyString => if is_slash b && negb (is_slash c) then 3 else 0
           | EmptyString => 0
           end
  | _ => 0
  end%nat.

(** Root name with root directory, and the relative path. *)
Definition split_root (s : string) : string * string :=
  let n := root_name_length s in
  let '(slashes, rel) := span is_slash (str_skip n s) in
  (str_take n s +:+ slashes, rel).

(** The relative path, cut before its file name. *)
Definition split_filename (rel : string) : string * string :=
  span_end (λ c, negb (is_slash c)) rel.

Definition filename (p : string) : string := (split_filename (split_root p).2).2.

Definition parent_path (p : string) : string :=
  let '(root, rel) := split_root p in
  root +:+ (span_end is_slash (split_filename rel).1).1.

(** A file name without its stream suffix, cut before its last dot; a leading
    dot and the name [..] have no extension. *)
Definition split_extension (name : string) : string * string :=
  let name := (span (λ c, negb (Ascii.eqb c ":")) name).1 in
  if String.eqb name ".." then (name, EmptyString)
  else
    let '(a, b) := span_end (λ c, negb (Ascii.eqb c ".")) name in
    if (String.length a <=? 1)%nat then (name, EmptyString)
    else (str_take (String.length a - 1) a, String "." b).

Definition stem (p : string) : string := (split_extension (filename p)).1.
Definition extension (p : string) : string := (split_extension (filename p)).2.

(** [dir / name] for a name without root name and root directory. *)
Definition path_append (dir name : string) : string :=
  let n := root_name_length dir in
  if (n =? String.length dir)%nat then
    (if (3 <=? n)%nat then dir +:+ String "\" name else dir +:+ name)
  else if is_slash (default " "%char (String.get (String.length dir - 1) dir))
  then dir +:+ name
  else dir +:+ String "\" name.

Lemma path_append_not_empty dir name : name ≠ "" → path_append dir name ≠ "".
Proof.
  intros Hn. unfold path_append. destruct (_ =? _)%nat; [destruct (_ <=? _)%nat|destruct (is_slash _)];
    by destruct dir, name.
Qed.

(** The parent directory is made first, when the path has one. *)
Definition make_parent {W} `{FileSystem W} (path : string) : M W Z :=
  let parent := parent_path path in
  if string_empty parent then mret 0 else create_directories parent.

Lemma make_parent_file {W} `{FileSystemLaws W} path p w :
  file p (make_parent path w).2 = file p w.
Proof. unfold make_parent. destruct (string_empty _); [done|]. apply create_directories_file. Qed.
