(* ===== verification/Crash.v ===== *)
(** Dying in the middle: a world that lets a number of its operations happen
    and then nothing more. Running an operation of the sources in it, for every
    number, visits every state in which the process or the machine can stop;
    the operation's own error paths run on, without effect. The dying world
    obeys the laws of the living one, so that what is proved of an operation
    whatever fails holds wherever it stops. *)

From S2P Require Import Prelude Containers.

Open Scope Z_scope.

(** How many operations still happen, and the world. *)
Definition Dying (W : Type) : Type := nat * W.

(** An operation that happens if it still can. *)
Definition unless_dead {W A} (dead : A) (m : M W A) : M (Dying W) A := λ '(n, w),
  match n with
  | O => (dead, (O, w))
  | S n' => let '(a, w') := m w in (a, (n', w'))
  end.

Lemma unless_dead_cases {W A} (dead : A) (m : M W A) n w a d :
  unless_dead dead m (n, w) = (a, d) →
  (n = O ∧ a = dead ∧ d = (O, w)) ∨ ∃ n' w', n = S n' ∧ m w = (a, w') ∧ d = (n', w').
Proof.
  destruct n as [|n]; cbn; [intros [= <- <-]; by left|].
  destruct (m w) as [b w'] eqn:E. intros [= <- <-]. right. by exists n, w'.
Qed.

Section Dying.
Context {W : Type} `{FileSystemLaws W}.

#[export] Instance dying_fs : FileSystem (Dying W) := {|
  is_directory p d := is_directory p d.2;
  exists_file p d := exists_file p d.2;
  open_read p d := open_read p d.2;
  GetLastError d := GetLastError d.2;
  create_directories p := unless_dead 5 (create_directories p);
  write_trunc p t := unless_dead OpenFailed (write_trunc p t);
  append_text p t := unless_dead OpenFailed (append_text p t);
  MoveFileExW p q := unless_dead false (MoveFileExW p q);
  remove_file p := unless_dead tt (remove_file p)
|}.

(** What holds of the living world's operation holds of the dying one's, when
    it holds of doing nothing. *)
Lemma unless_dead_file {A} (dead : A) (m : M W A) q d :
  file q (m d.2).2 = file q d.2 → file q (unless_dead dead m d).2.2 = file q d.2.
Proof. destruct d as [[|n] w]; cbn; [done|]. by destruct (m w). Qed.

#[export] Program Instance dying_fs_laws : FileSystemLaws (Dying W) := {|
  file p d := file p d.2
|}.
Next Obligation. intros p d E. exact (exists_file_none p d.2 E). Qed.
Next Obligation. intros p d t E. exact (open_read_file p d.2 t E). Qed.
Next Obligation. intros p q d. apply unless_dead_file, create_directories_file. Qed.
Next Obligation.
  intros p t [n w] d' [(_ & ? & _)|(n' & w' & _ & E & ->)]%unless_dead_cases; [done|].
  by eapply write_trunc_file.
Qed.
Next Obligation.
  intros p t [n w] d' q [(_ & _ & ->)|(n' & w' & _ & E & ->)]%unless_dead_cases; [done|].
  by eapply write_trunc_open.
Qed.
Next Obligation. intros p t d q Hq. by apply unless_dead_file, write_trunc_other. Qed.
Next Obligation.
  intros p t [n w] d' [(_ & ? & _)|(n' & w' & _ & E & ->)]%unless_dead_cases; [done|].
  by apply append_text_file.
Qed.
Next Obligation.
  intros p t [n w] d' q [(_ & _ & ->)|(n' & w' & _ & E & ->)]%unless_dead_cases; [done|].
  by eapply append_text_open.
Qed.
Next Obligation. intros p t d q Hq. by apply unless_dead_file, append_text_other. Qed.
Next Obligation.
  intros p q [n w] d' [(_ & ? & _)|(n' & w' & _ & E & ->)]%unless_dead_cases; [done|].
  by apply move_file.
Qed.
Next Obligation.
  intros p q [n w] d' r [(_ & _ & ->)|(n' & w' & _ & E & ->)]%unless_dead_cases; [done|].
  by eapply move_file_fail.
Qed.
Next Obligation. intros p q d r Hp Hq. by apply unless_dead_file, move_file_other. Qed.
Next Obligation. intros p d r Hr. by apply unless_dead_file, remove_file_other. Qed.

End Dying.

(** ** Files and something else *)

(** The file system of a world that has more than files. *)
Definition on_files {W X A} (m : M W A) : M (W * X) A := λ '(w, x), let '(a, w') := m w in (a, (w', x)).

Lemma on_files_inv {W X A} (m : M W A) w (x : X) a d :
  on_files m (w, x) = (a, d) → ∃ w', m w = (a, w') ∧ d = (w', x).
Proof. cbn. destruct (m w) as [b w']. intros [= <- <-]. by exists w'. Qed.

Section Paired.
Context {W X : Type} `{FileSystemLaws W}.

#[export] Instance paired_fs : FileSystem (W * X) | 10 := {|
  is_directory p d := is_directory p d.1;
  exists_file p d := exists_file p d.1;
  open_read p d := open_read p d.1;
  GetLastError d := GetLastError d.1;
  create_directories p := on_files (create_directories p);
  write_trunc p t := on_files (write_trunc p t);
  append_text p t := on_files (append_text p t);
  MoveFileExW p q := on_files (MoveFileExW p q);
  remove_file p := on_files (remove_file p)
|}.

Lemma on_files_file {A} (m : M W A) q (d : W * X) :
  file q (m d.1).2 = file q d.1 → file q (on_files m d).2.1 = file q d.1.
Proof. destruct d as [w x]. cbn. by destruct (m w). Qed.

Lemma on_files_other {A} (m : M W A) (d : W * X) : (on_files m d).2.2 = d.2.
Proof. destruct d as [w x]. cbn. by destruct (m w). Qed.

#[export] Program Instance paired_fs_laws : FileSystemLaws (W * X) := {|
  file p d := file p d.1
|}.
Next Obligation. intros p d E. exact (exists_file_none p d.1 E). Qed.
Next Obligation. intros p d t E. exact (open_read_file p d.1 t E). Qed.
Next Obligation. intros p q d. apply on_files_file, create_directories_file. Qed.
Next Obligation. intros p t [w x] d' (w' & E & ->)%on_files_inv. by eapply write_trunc_file. Qed.
Next Obligation. intros p t [w x] d' q (w' & E & ->)%on_files_inv. by eapply write_trunc_open. Qed.
Next Obligation. intros p t d q Hq. by apply on_files_file, write_trunc_other. Qed.
Next Obligation. intros p t [w x] d' (w' & E & ->)%on_files_inv. by apply append_text_file. Qed.
Next Obligation. intros p t [w x] d' q (w' & E & ->)%on_files_inv. by eapply append_text_open. Qed.
Next Obligation. intros p t d q Hq. by apply on_files_file, append_text_other. Qed.
Next Obligation. intros p q [w x] d' (w' & E & ->)%on_files_inv. by apply move_file. Qed.
Next Obligation. intros p q [w x] d' r (w' & E & ->)%on_files_inv. by eapply move_file_fail. Qed.
Next Obligation. intros p q d r Hp Hq. by apply on_files_file, move_file_other. Qed.
Next Obligation. intros p d r Hr. by apply on_files_file, remove_file_other. Qed.

End Paired.
