(* ===== verification/AuditLine.v ===== *)
(** The texts of the audit ([audit/audit_log], the pure part): one line per
    audited action, summary lines that stand for compacted ones, and journal
    lines; how each is written, read back and counted. Counts are 64-bit
    [size_t]; a text is searched with [cut], the source's [find] and [substr]. *)

From S2P Require Import Prelude CommonError.

Open Scope string_scope.
Open Scope list_scope.
Open Scope Z_scope.

(** ** Records *)

Module RiskLevel.
Inductive RiskLevel := R0 | R1 | R2 | R3 | R4.
End RiskLevel.
Abbreviation RiskLevel := RiskLevel.RiskLevel.

Definition RiskLevelToString (level : RiskLevel) : string :=
  match level with
  | RiskLevel.R0 => "R0"
  | RiskLevel.R1 => "R1"
  | RiskLevel.R2 => "R2"
  | RiskLevel.R3 => "R3"
  | RiskLevel.R4 => "R4"
  end.

(** [at_time] is a time of the steady clock; 0 is the one never set. *)
Record AuditRecord := MkAuditRecord {
  ar_operationId : string;
  ar_risk : RiskLevel;
  ar_caller : string;
  ar_target : string;
  ar_detail : string;
  ar_ok : bool;
  ar_at : Z
}.

Definition FormatAuditRecord (record : AuditRecord) : wstring :=
  widen "[audit] " ++ widen (RiskLevelToString (ar_risk record)) ++ widen " " ++
  widen (ar_operationId record) ++ widen " " ++
  widen (if ar_ok record then "ok" else "fail") ++ widen " caller=" ++
  widen (ar_caller record) ++ widen " target=" ++ widen (ar_target record) ++
  widen " detail=" ++ widen (ar_detail record).

(** Broken-down local time, as [localtime_s] gives it. *)
Record tm := MkTm {
  tm_year : Z; tm_mon : Z; tm_mday : Z; tm_hour : Z; tm_min : Z; tm_sec : Z
}.

(** [%m] and the like: two digits. *)
Definition two_digits (n : Z) : string :=
  String (digit_char (n / 10)) (String (digit_char (n mod 10)) "").

(** [local] is the answer of [localtime_s]; the text of any [int] year fits the
    buffer of [strftime]. *)
Definition LocalTimestampAscii (local : option tm) : string :=
  match local with
  | None => ""
  | Some t =>
      to_string (1900 + tm_year t) +:+ "-" +:+ two_digits (tm_mon t + 1) +:+ "-" +:+
      two_digits (tm_mday t) +:+ " " +:+ two_digits (tm_hour t) +:+ ":" +:+
      two_digits (tm_min t) +:+ ":" +:+ two_digits (tm_sec t)
  end.

Fixpoint sanitize (field : string) : string :=
  match field with
  | EmptyString => EmptyString
  | String c f => String (if is_control c then " "%char else c) (sanitize f)
  end.

Definition AppendSanitized (out field : string) : string := out +:+ sanitize field.

(** [local] as for the timestamp. *)
Definition FormatAuditLineAscii (local : option tm) (record : AuditRecord) : string :=
  let line := LocalTimestampAscii local +:+ " [audit] " +:+
              RiskLevelToString (ar_risk record) +:+ " " in
  let line := AppendSanitized line (ar_operationId record) in
  let line := line +:+ (if ar_ok record then " ok" else " fail") +:+ " caller=" in
  let line := AppendSanitized line (ar_caller record) +:+ " target=" in
  let line := AppendSanitized line (ar_target record) +:+ " detail=" in
  AppendSanitized line (ar_detail record).

(** ** Counting by operation *)

Record AuditOperationCount := MkCount {
  aoc_operationId : string;
  aoc_ok : Z;
  aoc_fail : Z
}.

(** Adds to the entry of [op], made at the end when there is none. *)
Fixpoint add_count (op : string) (ok fail : Z) (l : list AuditOperationCount)
  : list AuditOperationCount :=
  match l with
  | [] => [MkCount op (u64 ok) (u64 fail)]
  | e :: r =>
      if String.eqb (aoc_operationId e) op
      then MkCount op (u64 (aoc_ok e + ok)) (u64 (aoc_fail e + fail)) :: r
      else e :: add_count op ok fail r
  end.

Definition bump (op : string) (ok : bool) : list AuditOperationCount → list AuditOperationCount :=
  add_count op (if ok then 1 else 0) (if ok then 0 else 1).

Record AuditSummary := MkAuditSummary {
  as_total : Z;
  as_ok : Z;
  as_fail : Z;
  as_byOperation : list AuditOperationCount;
  as_firstAt : Z;
  as_lastAt : Z
}.

(** One round of the loop; the boolean is [hasTime]. *)
Definition summarize_record (st : AuditSummary * bool) (r : AuditRecord)
  : AuditSummary * bool :=
  let '(s, hasTime) := st in
  let timed := negb (ar_at r =? 0) in
  (MkAuditSummary
     (u64 (as_total s + 1))
     (if ar_ok r then u64 (as_ok s + 1) else as_ok s)
     (if ar_ok r then as_fail s else u64 (as_fail s + 1))
     (bump (ar_operationId r) (ar_ok r) (as_byOperation s))
     (if timed && (negb hasTime || (ar_at r <? as_firstAt s)) then ar_at r else as_firstAt s)
     (if timed && (negb hasTime || (as_lastAt s <? ar_at r)) then ar_at r else as_lastAt s),
   hasTime || timed).

Definition SummarizeRecords (records : list AuditRecord) : AuditSummary :=
  (foldl summarize_record (MkAuditSummary 0 0 0 [] 0 0, false) records).1.

(** ** Audit lines *)

Record AuditLinePrefix := MkPrefix {
  alp_timestamp : string;
  alp_operationId : string;
  alp_ok : bool
}.

(** The text before the first space, all of it when there is none. *)
Definition first_word (s : string) : string :=
  match cut " " s with Some (w, _) => w | None => s end.

Definition ParseAuditLinePrefix (line : string) : option AuditLinePrefix :=
  match cut " [audit] " line with
  | None => None
  | Some (timestamp, rest) =>
      if string_empty timestamp then None
      else
        match cut " " rest with
        | None => None
        | Some (_, rest) =>
            match cut " " rest with
            | None => None
            | Some (operationId, rest) =>
                let result := first_word rest in
                if string_empty operationId then None
                else if String.eqb result "ok" then Some (MkPrefix timestamp operationId true)
                else if String.eqb result "fail"
                then Some (MkPrefix timestamp operationId false)
                else None
            end
        end
  end.

Record AuditLineSummary := MkLineSummary {
  als_total : Z;
  als_ok : Z;
  als_fail : Z;
  als_unparsed : Z;
  als_byOperation : list AuditOperationCount;
  als_firstTimestamp : string;
  als_lastTimestamp : string
}.

Definition empty_summary : AuditLineSummary := MkLineSummary 0 0 0 0 [] "" "".

Definition summarize_line (s : AuditLineSummary) (line : string) : AuditLineSummary :=
  match ParseAuditLinePrefix line with
  | None =>
      MkLineSummary (als_total s) (als_ok s) (als_fail s) (u64 (als_unparsed s + 1))
        (als_byOperation s) (als_firstTimestamp s) (als_lastTimestamp s)
  | Some p =>
      MkLineSummary (u64 (als_total s + 1))
        (if alp_ok p then u64 (als_ok s + 1) else als_ok s)
        (if alp_ok p then als_fail s else u64 (als_fail s + 1))
        (als_unparsed s)
        (bump (alp_operationId p) (alp_ok p) (als_byOperation s))
        (if string_empty (als_firstTimestamp s) then alp_timestamp p
         else als_firstTimestamp s)
        (alp_timestamp p)
  end.

Definition SummarizeAuditLines (lines : list string) : AuditLineSummary :=
  foldl summarize_line empty_summary lines.

(** ** Summary lines *)

Definition format_count (e : AuditOperationCount) : string :=
  " " +:+ aoc_operationId e +:+ "=" +:+ to_string (aoc_ok e) +:+ "/" +:+
  to_string (aoc_fail e).

Fixpoint format_counts (l : list AuditOperationCount) : string :=
  match l with
  | [] => ""
  | e :: r => format_count e +:+ format_counts r
  end.

Definition FormatAuditSummaryLine (s : AuditLineSummary) : string :=
  als_firstTimestamp s +:+
  (if string_empty (als_firstTimestamp s) then "" else ".." +:+ als_lastTimestamp s) +:+
  " [audit-summary] total=" +:+ to_string (als_total s) +:+
  " ok=" +:+ to_string (als_ok s) +:+
  " fail=" +:+ to_string (als_fail s) +:+
  " unparsed=" +:+ to_string (als_unparsed s) +:+
  format_counts (als_byOperation s).

(** [(std::numeric_limits<std::size_t>::max() - 9) / 10] *)
Definition digit_guard : Z := (SIZE_MAX - 9) / 10.

(** The loop of [ExtractCount]: the digits that follow, as many as there are. *)
Fixpoint extract_digits (value digits : Z) (s : string) : option (Z * Z) :=
  match s with
  | EmptyString => Some (value, digits)
  | String c s' =>
      if negb (is_digit c) then Some (value, digits)
      else if digit_guard <? value then None
      else extract_digits (value * 10 + digit_value c) (digits + 1) s'
  end.

Definition ExtractCount (fields key : string) : option Z :=
  match cut key fields with
  | None => None
  | Some (_, rest) =>
      match extract_digits 0 0 rest with
      | Some (value, digits) => if digits =? 0 then None else Some value
      | None => None
      end
  end.

Fixpoint parse_digits (value : Z) (text : string) : option Z :=
  match text with
  | EmptyString => Some value
  | String c t =>
      if negb (is_digit c) then None
      else if digit_guard <? value then None
      else parse_digits (value * 10 + digit_value c) t
  end.

Definition ParseDigits (text : string) : option Z :=
  if string_empty text then None else parse_digits 0 text.

Definition ParseOperationCount (token : string) : option AuditOperationCount :=
  match cut "=" token with
  | None => None
  | Some (operationId, rest) =>
      if string_empty operationId then None
      else
        match cut "/" rest with
        | None => None
        | Some (ok, fail) =>
            match ParseDigits ok, ParseDigits fail with
            | Some ok, Some fail => Some (MkCount operationId ok fail)
            | _, _ => None
            end
        end
  end.

Record AuditSummaryRecord := MkSummaryRecord {
  asr_firstTimestamp : string;
  asr_lastTimestamp : string;
  asr_total : Z;
  asr_ok : Z;
  asr_fail : Z;
  asr_unparsed : Z;
  asr_byOperation : list AuditOperationCount
}.

(** The time range before the marker. *)
Definition parse_range (range : string) : option (string * string) :=
  if string_empty range then Some ("", "")
  else
    match cut ".." range with
    | None => None
    | Some (first, last) =>
        if string_empty first || string_empty last then None else Some (first, last)
    end.

(** What follows the word in which [key] occurs. *)
Definition skip_field (rest key : string) : string :=
  match cut key rest with
  | None => ""
  | Some (_, r) => match cut " " r with Some (_, r') => r' | None => "" end
  end.

(** The words of a text, cut at every space. *)
Fixpoint words (s : string) : list string :=
  match s with
  | EmptyString => [EmptyString]
  | String c s' =>
      if Ascii.eqb " " c then EmptyString :: words s'
      else match words s' with
           | w :: ws => String c w :: ws
           | [] => [String c EmptyString]
           end
  end.

(** The loop over the tail; an empty word is passed over. *)
Fixpoint parse_counts (tokens : list string) : option (list AuditOperationCount) :=
  match tokens with
  | [] => Some []
  | token :: rest =>
      if string_empty token then parse_counts rest
      else
        match ParseOperationCount token with
        | None => None
        | Some e => match parse_counts rest with
                    | Some l => Some (e :: l)
                    | None => None
                    end
        end
  end.

Definition ParseAuditSummaryLine (line : string) : option AuditSummaryRecord :=
  match cut " [audit-summary] " line with
  | None => None
  | Some (range, fields) =>
      match parse_range range with
      | None => None
      | Some (first, last) =>
          match ExtractCount fields "total=", ExtractCount fields "ok=",
                ExtractCount fields "fail=", ExtractCount fields "unparsed=" with
          | Some total, Some ok, Some fail, Some unparsed =>
              let rest := foldl skip_field fields ["total="; "ok="; "fail="; "unparsed="] in
              match parse_counts (words rest) with
              | Some l => Some (MkSummaryRecord first last total ok fail unparsed l)
              | None => None
              end
          | _, _, _, _ => None
          end
      end
  end.

Record AuditCompactionTotals := MkTotals {
  act_ranges : Z;
  act_total : Z;
  act_ok : Z;
  act_fail : Z;
  act_unparsed : Z;
  act_unparsable : Z;
  act_firstTimestamp : string;
  act_lastTimestamp : string
}.

Definition analyze_line (t : AuditCompactionTotals) (line : string) : AuditCompactionTotals :=
  match ParseAuditSummaryLine line with
  | None =>
      MkTotals (act_ranges t) (act_total t) (act_ok t) (act_fail t) (act_unparsed t)
        (u64 (act_unparsable t + 1)) (act_firstTimestamp t) (act_lastTimestamp t)
  | Some r =>
      MkTotals (u64 (act_ranges t + 1)) (u64 (act_total t + asr_total r))
        (u64 (act_ok t + asr_ok r)) (u64 (act_fail t + asr_fail r))
        (u64 (act_unparsed t + asr_unparsed r)) (act_unparsable t)
        (if string_empty (act_firstTimestamp t) then asr_firstTimestamp r
         else act_firstTimestamp t)
        (if string_empty (asr_lastTimestamp r) then act_lastTimestamp t
         else asr_lastTimestamp r)
  end.

Definition AnalyzeAuditSummaryLines (lines : list string) : AuditCompactionTotals :=
  foldl analyze_line (MkTotals 0 0 0 0 0 0 "" "") lines.

(** ** Journal lines *)

Module JournalPhase.
Inductive JournalPhase := Before | After | State.
End JournalPhase.
Abbreviation JournalPhase := JournalPhase.JournalPhase.

Definition JournalPhaseToString (phase : JournalPhase) : string :=
  match phase with
  | JournalPhase.Before => "before"
  | JournalPhase.After => "after"
  | JournalPhase.State => "state"
  end.

Record JournalEntry := MkJournalEntry {
  je_timestamp : string;
  je_phase : string;
  je_operationId : string;
  je_ok : bool
}.

(** [s.rfind(p, 0) == 0] *)
Definition starts_with (p s : string) : bool :=
  match strip p s with Some _ => true | None => false end.

Definition ParseJournalLine (line : string) : option JournalEntry :=
  match cut " [journal] " line with
  | None => None
  | Some (timestamp, fields) =>
      match cut " " fields with
      | None => None
      | Some (phase, rest) =>
          match cut " " rest with
          | None => None
          | Some (operationId, result) =>
              if starts_with "ok" result
              then Some (MkJournalEntry timestamp phase operationId true)
              else if starts_with "fail" result
              then Some (MkJournalEntry timestamp phase operationId false)
              else None
          end
      end
  end.

(** The line [AppendJournalLine] writes. *)
Definition FormatJournalLine (local : option tm) (phase : JournalPhase)
    (operationId : string) (ok : bool) (target detail : string) : string :=
  let line := LocalTimestampAscii local +:+ " [journal] " +:+
              JournalPhaseToString phase +:+ " " in
  let line := AppendSanitized line operationId in
  let line := line +:+ (if ok then " ok" else " fail") +:+ " caller=" in
  let line := AppendSanitized line "cli" +:+ " target=" in
  let line := AppendSanitized line target +:+ " detail=" in
  AppendSanitized line detail.

(** ** Characters of the lines *)

Lemma lacks_app c a b : lacks c (a +:+ b) = lacks c a && lacks c b.
Proof. apply all_chars_app. Qed.

Lemma all_chars_lacks p c s : p c = false → all_chars p s = true → lacks c s = true.
Proof.
  intros Hc. apply all_chars_impl. intros x Hx.
  destruct (Ascii.eqb_spec c x) as [->|]; [congruence|done].
Qed.

Lemma all_chars_cons p c s : all_chars p (String c s) = p c && all_chars p s.
Proof. done. Qed.

Lemma sanitize_clean field : all_chars (λ c, negb (is_control c)) (sanitize field) = true.
Proof.
  induction field as [|c f IH]; [done|]. cbn [sanitize].
  rewrite all_chars_cons, IH, andb_true_r.
  destruct (is_control c) eqn:E; [done|]. by rewrite E.
Qed.

Lemma sanitize_id field : all_chars (λ c, negb (is_control c)) field = true → sanitize field = field.
Proof.
  induction field as [|c f IH]; [done|]. rewrite all_chars_cons. cbn [sanitize].
  intros [Hc Hf]%andb_true_iff. apply negb_true_iff in Hc. by rewrite Hc, IH.
Qed.

Lemma sanitize_no_lf field : no_lf (sanitize field) = true.
Proof. eapply (all_chars_lacks _ LF), sanitize_clean. done. Qed.

Definition tm_ok (t : tm) : Prop :=
  0 <= 1900 + tm_year t ∧ 0 <= tm_mon t <= 11 ∧ 1 <= tm_mday t <= 31 ∧
  0 <= tm_hour t <= 23 ∧ 0 <= tm_min t <= 59 ∧ 0 <= tm_sec t <= 60.

(** The characters of a timestamp. *)
Definition stamp_char (c : ascii) : bool :=
  is_digit c || Ascii.eqb c "-" || Ascii.eqb c ":" || Ascii.eqb c " ".

Lemma two_digits_stamp n : 0 <= n <= 99 → all_chars stamp_char (two_digits n) = true.
Proof.
  intros Hn. unfold two_digits. rewrite !all_chars_cons. cbn [all_chars].
  assert (0 <= n / 10 <= 9 ∧ 0 <= n mod 10 <= 9) as [H1 H2]
    by (pose proof (Z.div_mod n 10); pose proof (Z.mod_pos_bound n 10); lia).
  unfold stamp_char. by rewrite !digit_char_digit.
Qed.

Lemma to_string_stamp n : 0 <= n → all_chars stamp_char (to_string n) = true.
Proof.
  intros Hn. eapply all_chars_impl; [|by apply to_string_digits].
  intros c Hc. unfold stamp_char. by rewrite Hc.
Qed.

Lemma timestamp_stamp t : tm_ok t → all_chars stamp_char (LocalTimestampAscii (Some t)) = true.
Proof.
  intros (H1 & H2 & H3 & H4 & H5 & H6). unfold LocalTimestampAscii.
  rewrite !all_chars_app, to_string_stamp, !two_digits_stamp by lia. done.
Qed.

Lemma timestamp_not_empty t : tm_ok t → string_empty (LocalTimestampAscii (Some t)) = false.
Proof.
  intros (H1 & _). unfold LocalTimestampAscii.
  pose proof (to_string_not_empty (1900 + tm_year t) H1). by destruct (to_string _).
Qed.

(** What the clock may answer. *)
Definition local_ok (local : option tm) : Prop := from_option tm_ok True local.

Lemma timestamp_lacks c local :
  local_ok local → stamp_char c = false → lacks c (LocalTimestampAscii local) = true.
Proof.
  intros Hl Hc. destruct local as [t|]; [|done].
  apply (all_chars_lacks stamp_char); [done|]. by apply timestamp_stamp.
Qed.

(** Every line is one line, whatever the fields hold. *)
Lemma FormatAuditLineAscii_no_lf local record :
  local_ok local → no_lf (FormatAuditLineAscii local record) = true.
Proof.
  intros Hl. pose proof (timestamp_lacks LF local Hl eq_refl) as Ht.
  unfold FormatAuditLineAscii, AppendSanitized, no_lf in *. unfold lacks in Ht.
  rewrite !all_chars_app, Ht.
  pose proof sanitize_no_lf as Hs. unfold no_lf in Hs. rewrite !Hs.
  by destruct (ar_risk record), (ar_ok record).
Qed.

(** A word after a marker, up to the next space. *)
Lemma cut_space a b : lacks " " a = true → cut " " (a +:+ " " +:+ b) = Some (a, b).
Proof. apply cut_char. Qed.

Lemma FormatAuditLineAscii_shape local record :
  FormatAuditLineAscii local record =
  LocalTimestampAscii local +:+ " [audit] " +:+ RiskLevelToString (ar_risk record) +:+ " " +:+
  sanitize (ar_operationId record) +:+ " " +:+ (if ar_ok record then "ok" else "fail") +:+ " " +:+
  "caller=" +:+ sanitize (ar_caller record) +:+ " target=" +:+ sanitize (ar_target record) +:+
  " detail=" +:+ sanitize (ar_detail record).
Proof.
  unfold FormatAuditLineAscii, AppendSanitized. rewrite !string_app_assoc.
  by destruct (ar_ok record).
Qed.

Lemma ParseAuditLinePrefix_Format local record :
  local_ok local →
  string_empty (ar_operationId record) = false →
  lacks " " (sanitize (ar_operationId record)) = true →
  ParseAuditLinePrefix (FormatAuditLineAscii local record) =
  if string_empty (LocalTimestampAscii local) then None
  else Some (MkPrefix (LocalTimestampAscii local) (sanitize (ar_operationId record))
               (ar_ok record)).
Proof.
  intros Hl He Hsp. rewrite FormatAuditLineAscii_shape. unfold ParseAuditLinePrefix.
  pose proof (timestamp_lacks "[" local Hl eq_refl) as Ht.
  rewrite (cut_marker " " "[" "audit] " _ _ eq_refl Ht).
  destruct (string_empty (LocalTimestampAscii local)); [done|].
  rewrite cut_space by (by destruct (ar_risk record)).
  rewrite cut_space by exact Hsp.
  assert (string_empty (sanitize (ar_operationId record)) = false) as ->.
  { by destruct (ar_operationId record). }
  unfold first_word. rewrite cut_space by (by destruct (ar_ok record)).
  by destruct (ar_ok record).
Qed.

(** ** Numbers in a line *)

(** The largest count the readers accept, a little less than [SIZE_MAX]. *)
Definition kMaxParsed : Z := 10 * digit_guard + 9.

Definition parsed_range (n : Z) : Prop := 0 <= n <= kMaxParsed.

Lemma dec_acc_guard v c s :
  0 <= v → is_digit c = true → all_chars is_digit s = true →
  dec_acc (10 * v + digit_value c) s <= kMaxParsed → (digit_guard <? v) = false.
Proof.
  intros Hv Hc Hs Hmax. apply digit_value_range in Hc.
  pose proof (dec_acc_ge (10 * v + digit_value c) s ltac:(lia) Hs).
  apply Z.ltb_ge. unfold kMaxParsed in *. lia.
Qed.

Lemma parse_digits_dec v s :
  0 <= v → all_chars is_digit s = true → dec_acc v s <= kMaxParsed →
  parse_digits v s = Some (dec_acc v s).
Proof.
  revert v. induction s as [|c s IH]; intros v Hv; [done|].
  rewrite all_chars_cons. intros [Hc Hs]%andb_true_iff Hmax. cbn [parse_digits dec_acc] in *.
  rewrite Hc, (dec_acc_guard v c s) by done. cbn [negb].
  replace (v * 10 + digit_value c) with (10 * v + digit_value c) by lia.
  pose proof (digit_value_range c Hc). apply IH; [lia|done|done].
Qed.

Lemma extract_digits_dec v n s rest :
  0 <= v → all_chars is_digit s = true → dec_acc v s <= kMaxParsed →
  match rest with String c _ => is_digit c = false | EmptyString => True end →
  extract_digits v n (s +:+ rest) = Some (dec_acc v s, n + strlen s).
Proof.
  revert v n. induction s as [|c s IH]; intros v n Hv; cbn [String.append String.length].
  - intros _ _ Hr. replace (n + Z.of_nat 0) with n by lia.
    destruct rest as [|c r]; [done|]. cbn. by rewrite Hr.
  - rewrite all_chars_cons. intros [Hc Hs]%andb_true_iff Hmax Hr. cbn [extract_digits dec_acc] in *.
    rewrite Hc, (dec_acc_guard v c s) by done. cbn [negb].
    replace (v * 10 + digit_value c) with (10 * v + digit_value c) by lia.
    pose proof (digit_value_range c Hc). rewrite IH; [|lia|done|done|done].
    do 2 f_equal. lia.
Qed.

Lemma ParseDigits_to_string n : parsed_range n → ParseDigits (to_string n) = Some n.
Proof.
  intros [H0 Hmax]. destruct (to_string_spec n H0) as [Hd Hv]. unfold ParseDigits.
  apply andb_true_iff in Hd as [Hne Hall]. apply negb_true_iff in Hne. rewrite Hne.
  rewrite parse_digits_dec; [by rewrite Hv|done|done|by rewrite Hv].
Qed.

(** A count found by its key, whose first occurrence it is. *)
Lemma ExtractCount_found pre c post a n rest :
  lacks c pre = true → lacks c a = true → parsed_range n →
  match rest with String c _ => is_digit c = false | EmptyString => True end →
  ExtractCount (a +:+ (pre +:+ String c post) +:+ to_string n +:+ rest) (pre +:+ String c post)
  = Some n.
Proof.
  intros Hpre Ha [H0 Hmax] Hr. unfold ExtractCount. rewrite cut_marker by done.
  destruct (to_string_spec n H0) as [Hd Hv].
  apply andb_true_iff in Hd as [Hne Hall]. apply negb_true_iff in Hne.
  rewrite extract_digits_dec; [|lia|done|by rewrite Hv|done]. rewrite Hv.
  destruct (Z.eqb_spec (0 + strlen (to_string n)) 0) as [E|]; [|done].
  by destruct (to_string n).
Qed.

Lemma to_string_lacks c n : 0 <= n → is_digit c = false → lacks c (to_string n) = true.
Proof. intros Hn Hc. apply (all_chars_lacks is_digit); [done|]. by apply to_string_digits. Qed.

(** ** Words *)

Lemma words_end a : lacks " " a = true → words a = [a].
Proof.
  unfold lacks. induction a as [|c a IH]; [done|]. rewrite all_chars_cons.
  intros [Hc Ha]%andb_true_iff. apply negb_true_iff in Hc. cbn [words]. by rewrite Hc, IH.
Qed.

Lemma words_cons a b : lacks " " a = true → words (a +:+ " " +:+ b) = a :: words b.
Proof.
  unfold lacks. induction a as [|c a IH]; [done|]. rewrite all_chars_cons.
  intros [Hc Ha]%andb_true_iff. apply negb_true_iff in Hc.
  change (words (String c (a +:+ " " +:+ b)) = String c a :: words b).
  cbn [words]. by rewrite Hc, IH.
Qed.

(** ** Round trip of summary lines *)

Definition count_ok (e : AuditOperationCount) : Prop :=
  aoc_operationId e ≠ "" ∧ lacks " " (aoc_operationId e) = true ∧
  lacks "=" (aoc_operationId e) = true ∧
  parsed_range (aoc_ok e) ∧ parsed_range (aoc_fail e).

Definition token_of (e : AuditOperationCount) : string :=
  aoc_operationId e +:+ "=" +:+ to_string (aoc_ok e) +:+ "/" +:+ to_string (aoc_fail e).

Lemma token_of_lacks e : count_ok e → lacks " " (token_of e) = true.
Proof.
  intros (_ & Hs & _ & [H1 _] & [H2 _]). unfold token_of. rewrite !lacks_app, Hs.
  by rewrite !to_string_lacks.
Qed.

Lemma ParseOperationCount_token e : count_ok e → ParseOperationCount (token_of e) = Some e.
Proof.
  intros (Hne & Hs & Heq & H1 & H2). unfold ParseOperationCount, token_of.
  change ("=" +:+ ?x) with (String "=" x). rewrite cut_char by exact Heq.
  rewrite (string_empty_false _ Hne).
  change ("/" +:+ ?x) with (String "/" x).
  rewrite cut_char by (apply (to_string_lacks "/"); [apply H1|done]).
  rewrite !ParseDigits_to_string by done. by destruct e.
Qed.

Lemma parse_counts_words l :
  Forall count_ok l →
  parse_counts (match l with [] => [""] | e :: r => words (token_of e +:+ format_counts r) end)
  = Some l.
Proof.
  induction 1 as [|e r He Hr IH]; [done|].
  assert (words (token_of e +:+ format_counts r) =
          token_of e :: match r with [] => [] | e' :: r' => words (token_of e' +:+ format_counts r') end)
    as ->.
  { destruct r as [|e' r']; cbn [format_counts].
    - rewrite string_app_nil_r. apply words_end. by apply token_of_lacks.
    - unfold format_count. rewrite !string_app_assoc, words_cons by (by apply token_of_lacks).
      f_equal. f_equal. unfold token_of. by rewrite !string_app_assoc. }
  cbn [parse_counts].
  assert (string_empty (token_of e) = false) as ->.
  { apply string_empty_app_l, string_empty_false, He. }
  rewrite ParseOperationCount_token by done.
  destruct r; [done|]. by rewrite IH.
Qed.

Definition stamp_text (s : string) : Prop :=
  s ≠ "" ∧ lacks "[" s = true ∧ lacks "." s = true.

Record line_summary_ok (s : AuditLineSummary) : Prop := MkSummaryOk {
  lso_total : parsed_range (als_total s);
  lso_ok : parsed_range (als_ok s);
  lso_fail : parsed_range (als_fail s);
  lso_unparsed : parsed_range (als_unparsed s);
  lso_counts : Forall count_ok (als_byOperation s);
  lso_range : (als_firstTimestamp s = "" ∧ als_lastTimestamp s = "") ∨
              (stamp_text (als_firstTimestamp s) ∧ stamp_text (als_lastTimestamp s))
}.

Definition record_of (s : AuditLineSummary) : AuditSummaryRecord :=
  MkSummaryRecord (als_firstTimestamp s) (als_lastTimestamp s) (als_total s) (als_ok s)
    (als_fail s) (als_unparsed s) (als_byOperation s).

(** The fields after the marker. *)
Definition summary_fields (s : AuditLineSummary) : string :=
  "total=" +:+ to_string (als_total s) +:+ " ok=" +:+ to_string (als_ok s) +:+
  " fail=" +:+ to_string (als_fail s) +:+ " unparsed=" +:+ to_string (als_unparsed s) +:+
  format_counts (als_byOperation s).

Definition range_text (s : AuditLineSummary) : string :=
  als_firstTimestamp s +:+
  (if string_empty (als_firstTimestamp s) then "" else ".." +:+ als_lastTimestamp s).

Lemma FormatAuditSummaryLine_shape s :
  FormatAuditSummaryLine s = range_text s +:+ " [audit-summary] " +:+ summary_fields s.
Proof. unfold FormatAuditSummaryLine, range_text, summary_fields. by rewrite !string_app_assoc. Qed.

Lemma range_text_parse s :
  line_summary_ok s →
  lacks "[" (range_text s) = true ∧
  parse_range (range_text s) = Some (als_firstTimestamp s, als_lastTimestamp s).
Proof.
  unfold range_text. intros [_ _ _ _ _ [[-> ->]|[(H1 & H2 & H3) (H4 & H5 & H6)]]]; [done|].
  pose proof (string_empty_false _ H1) as E.
  rewrite E, !lacks_app, H2, H5. split; [done|]. unfold parse_range.
  rewrite string_empty_app_l, (cut_marker "" "." "."), E by done. cbn [orb].
  by rewrite (string_empty_false _ H4).
Qed.

Lemma counts_not_digit l :
  match format_counts l with String c _ => is_digit c = false | EmptyString => True end.
Proof. by destruct l. Qed.

Ltac reassoc :=
  repeat (change (String.append (String ?c ?x) ?y) with (String c (x +:+ y))); cbn [String.append];
  rewrite ?string_app_assoc.

Lemma skip_field_found pre c post a n rest :
  lacks c pre = true → lacks c a = true → 0 <= n →
  skip_field (a +:+ (pre +:+ String c post) +:+ to_string n +:+ " " +:+ rest)
    (pre +:+ String c post) = rest.
Proof.
  intros Hpre Ha Hn. unfold skip_field. rewrite cut_marker by done.
  by rewrite cut_space by (by apply to_string_lacks).
Qed.

Section SummaryRoundTrip.
Variable s : AuditLineSummary.
Hypothesis Hs : line_summary_ok s.

Let total := to_string (als_total s).
Let ok := to_string (als_ok s).
Let fail := to_string (als_fail s).
Let unparsed := to_string (als_unparsed s).
Let counts := format_counts (als_byOperation s).

Lemma summary_numbers_lack c :
  is_digit c = false →
  lacks c total = true ∧ lacks c ok = true ∧ lacks c fail = true ∧ lacks c unparsed = true.
Proof.
  destruct Hs as [[H1 _] [H2 _] [H3 _] [H4 _] _ _]. intros Hc.
  unfold total, ok, fail, unparsed. by rewrite !to_string_lacks.
Qed.

Lemma summary_counts :
  ExtractCount (summary_fields s) "total=" = Some (als_total s) ∧
  ExtractCount (summary_fields s) "ok=" = Some (als_ok s) ∧
  ExtractCount (summary_fields s) "fail=" = Some (als_fail s) ∧
  ExtractCount (summary_fields s) "unparsed=" = Some (als_unparsed s).
Proof.
  destruct Hs as [H1 H2 H3 H4 _ _].
  destruct (summary_numbers_lack "k" eq_refl) as (Hk & _).
  destruct (summary_numbers_lack "f" eq_refl) as (Hf1 & Hf2 & _).
  destruct (summary_numbers_lack "u" eq_refl) as (Hu1 & Hu2 & Hu3 & _).
  split_and!.
  - exact (ExtractCount_found "" "t" "otal=" "" (als_total s)
             (" ok=" +:+ ok +:+ " fail=" +:+ fail +:+ " unparsed=" +:+ unparsed +:+ counts)
             eq_refl eq_refl H1 eq_refl).
  - pose proof (ExtractCount_found "o" "k" "=" ("total=" +:+ total +:+ " ") (als_ok s)
             (" fail=" +:+ fail +:+ " unparsed=" +:+ unparsed +:+ counts)) as H.
    rewrite !lacks_app, Hk, !string_app_assoc in H. by apply H.
  - pose proof (ExtractCount_found "" "f" "ail=" ("total=" +:+ total +:+ " ok=" +:+ ok +:+ " ")
             (als_fail s) (" unparsed=" +:+ unparsed +:+ counts)) as H.
    rewrite !lacks_app, Hf1, Hf2, !string_app_assoc in H. by apply H.
  - pose proof (ExtractCount_found "" "u" "nparsed="
             ("total=" +:+ total +:+ " ok=" +:+ ok +:+ " fail=" +:+ fail +:+ " ")
             (als_unparsed s) counts) as H.
    rewrite !lacks_app, Hu1, Hu2, Hu3, !string_app_assoc in H.
    apply H; [done|done|done|apply counts_not_digit].
Qed.

Lemma summary_skip :
  words (foldl skip_field (summary_fields s) ["total="; "ok="; "fail="; "unparsed="]) =
  match als_byOperation s with
  | [] => [""]
  | e :: r => words (token_of e +:+ format_counts r)
  end.
Proof.
  destruct Hs as [[H1 _] [H2 _] [H3 _] [H4 _] _ _]. cbn [foldl].
  assert (skip_field (summary_fields s) "total=" =
          "ok=" +:+ ok +:+ " fail=" +:+ fail +:+ " unparsed=" +:+ unparsed +:+ counts) as ->
    by exact (skip_field_found "" "t" "otal=" "" (als_total s) _ eq_refl eq_refl H1).
  assert (skip_field ("ok=" +:+ ok +:+ " fail=" +:+ fail +:+ " unparsed=" +:+ unparsed +:+ counts)
            "ok=" = "fail=" +:+ fail +:+ " unparsed=" +:+ unparsed +:+ counts) as ->
    by exact (skip_field_found "" "o" "k=" "" (als_ok s) _ eq_refl eq_refl H2).
  assert (skip_field ("fail=" +:+ fail +:+ " unparsed=" +:+ unparsed +:+ counts) "fail=" =
          "unparsed=" +:+ unparsed +:+ counts) as ->
    by exact (skip_field_found "" "f" "ail=" "" (als_fail s) _ eq_refl eq_refl H3).
  destruct (summary_numbers_lack " " eq_refl) as (_ & _ & _ & Hu).
  unfold counts. destruct (als_byOperation s) as [|e r]; cbn [format_counts].
  - unfold skip_field. pose proof (cut_marker "" "u" "nparsed=" "" (unparsed +:+ "")) as Hc.
    cbn [String.append] in Hc |- *. rewrite Hc by done. rewrite string_app_nil_r.
    by rewrite (proj2 (cut_char_None " " unparsed) Hu).
  - pose proof (skip_field_found "" "u" "nparsed=" "" (als_unparsed s)
                  (token_of e +:+ format_counts r) eq_refl eq_refl H4) as Hk.
    unfold format_count. unfold token_of in *. rewrite !string_app_assoc in *.
    f_equal. exact Hk.
Qed.

Lemma summary_line_round_trip :
  ParseAuditSummaryLine (FormatAuditSummaryLine s) = Some (record_of s).
Proof.
  destruct (range_text_parse s Hs) as [Hr1 Hr2]. destruct summary_counts as (E1 & E2 & E3 & E4).
  rewrite FormatAuditSummaryLine_shape. unfold ParseAuditSummaryLine.
  rewrite (cut_marker " " "[" "audit-summary] ") by done.
  rewrite Hr2, E1, E2, E3, E4, summary_skip.
  rewrite parse_counts_words by (by apply lso_counts). done.
Qed.
End SummaryRoundTrip.

(** ** What the counts count *)

(** The count of [op], 0 when it has no entry. *)
Fixpoint count_of (b : bool) (op : string) (l : list AuditOperationCount) : Z :=
  match l with
  | [] => 0
  | e :: r => if String.eqb (aoc_operationId e) op then (if b then aoc_ok e else aoc_fail e)
              else count_of b op r
  end.

Lemma u64_add_l a b : u64 (u64 a + b) = u64 (a + b).
Proof. unfold u64. by rewrite Zplus_mod_idemp_l. Qed.

Lemma u64_add_r a b : u64 (a + u64 b) = u64 (a + b).
Proof. unfold u64. by rewrite Zplus_mod_idemp_r. Qed.

Lemma count_of_add b op ok fail op' l :
  count_of b op' (add_count op ok fail l) =
  if String.eqb op op' then u64 (count_of b op' l + (if b then ok else fail))
  else count_of b op' l.
Proof.
  induction l as [|e r IH]; cbn.
  - destruct (String.eqb op op'); by destruct b.
  - destruct (String.eqb_spec (aoc_operationId e) op) as [E|E]; cbn.
    + rewrite E. destruct (String.eqb op op'); by destruct b.
    + rewrite IH. destruct (String.eqb_spec (aoc_operationId e) op') as [<-|]; [|done].
      by rewrite (proj2 (String.eqb_neq op _)) by congruence.
Qed.

Lemma add_count_keys op ok fail l :
  map aoc_operationId (add_count op ok fail l) =
  if bool_decide (op ∈ map aoc_operationId l) then map aoc_operationId l
  else map aoc_operationId l ++ [op].
Proof.
  induction l as [|e r IH]; [done|]. cbn [add_count].
  destruct (String.eqb_spec (aoc_operationId e) op) as [E|E]; cbn [map].
  - rewrite bool_decide_eq_true_2; [by rewrite E|]. rewrite E. apply elem_of_cons. by left.
  - rewrite IH. case_bool_decide as H1; case_bool_decide as H2; try done.
    all: rewrite ?elem_of_cons in H1; rewrite ?elem_of_cons in H2; naive_solver.
Qed.

(** The entries after a run of operations with their outcomes. *)
Definition tally (runs : list (string * bool)) : list AuditOperationCount :=
  foldl (λ acc r, bump r.1 r.2 acc) [] runs.

Definition is_run (op : string) (b : bool) (r : string * bool) : bool :=
  String.eqb r.1 op && Bool.eqb r.2 b.

Lemma tally_snoc runs r : tally (runs ++ [r]) = bump r.1 r.2 (tally runs).
Proof. unfold tally. by rewrite foldl_app. Qed.

Lemma filter_snoc {A} (p : A → bool) l x :
  List.filter p (l ++ [x]) = List.filter p l ++ (if p x then [x] else []).
Proof. rewrite List.filter_app. cbn. by destruct (p x). Qed.

Lemma count_of_tally b op runs :
  count_of b op (tally runs) = u64 (len (List.filter (is_run op b) runs)).
Proof.
  induction runs as [|r runs IH] using rev_ind; [done|].
  rewrite tally_snoc, filter_snoc, length_app. unfold bump. rewrite count_of_add, IH.
  unfold is_run. destruct (String.eqb r.1 op); cbn [andb length].
  - rewrite u64_add_l, Nat2Z.inj_add. by destruct (r.2), b.
  - f_equal. lia.
Qed.

Lemma tally_keys runs :
  NoDup (map aoc_operationId (tally runs)) ∧
  ∀ op, op ∈ map aoc_operationId (tally runs) ↔ op ∈ map fst runs.
Proof.
  induction runs as [|r runs [IH1 IH2]] using rev_ind; [by split; [constructor|]|].
  rewrite tally_snoc. unfold bump. rewrite add_count_keys, map_app.
  case_bool_decide as Hin; split.
  - done.
  - intros op. rewrite IH2, elem_of_app. cbn. rewrite list_elem_of_singleton.
    rewrite IH2 in Hin. naive_solver.
  - apply NoDup_app. split; [done|]. split; [|apply NoDup_singleton].
    intros x Hx ->%list_elem_of_singleton. done.
  - intros op. rewrite !elem_of_app, IH2. cbn. by rewrite !list_elem_of_singleton.
Qed.

Definition runs_of (prefixes : list AuditLinePrefix) : list (string * bool) :=
  map (λ p, (alp_operationId p, alp_ok p)) prefixes.

Definition parsable (line : string) : bool :=
  match ParseAuditLinePrefix line with Some _ => true | None => false end.

Lemma ParseAuditLinePrefix_fields line p :
  ParseAuditLinePrefix line = Some p →
  alp_timestamp p ≠ "" ∧ alp_operationId p ≠ "" ∧ lacks " " (alp_operationId p) = true.
Proof.
  unfold ParseAuditLinePrefix. intros H.
  destruct (cut " [audit] " line) as [[ts r1]|]; [|done].
  destruct (string_empty ts) eqn:Ets; [done|].
  destruct (cut " " r1) as [[? r2]|]; [|done].
  destruct (cut " " r2) as [[op r3]|] eqn:Hop; [|done].
  destruct (string_empty op) eqn:Eop; [done|].
  apply cut_char_prefix in Hop.
  assert (ts ≠ "" ∧ op ≠ "") as [? ?] by (by split; intros ->).
  split_matches; done.
Qed.

Lemma omap_snoc {A B} (f : A → option B) l x :
  omap f (l ++ [x]) = omap f l ++ match f x with Some y => [y] | None => [] end.
Proof. rewrite omap_app. cbn. by destruct (f x). Qed.

Lemma head_snoc {A} (l : list A) x : head (l ++ [x]) = Some (default x (head l)).
Proof. by destruct l. Qed.

(** The summary as a function of the parsed lines and the number of others. *)
Definition summary_of (prefixes : list AuditLinePrefix) (unparsed : Z) : AuditLineSummary :=
  MkLineSummary (u64 (len prefixes)) (u64 (len (List.filter alp_ok prefixes)))
    (u64 (len (List.filter (λ p, negb (alp_ok p)) prefixes))) (u64 unparsed)
    (tally (runs_of prefixes))
    (from_option alp_timestamp "" (head prefixes)) (from_option alp_timestamp "" (last prefixes)).

Lemma u64_succ_len {A} (l : list A) x : u64 (u64 (len l) + 1) = u64 (len (l ++ [x])).
Proof. rewrite u64_add_l, length_app. f_equal. cbn. lia. Qed.

Lemma SummarizeAuditLines_eq lines :
  SummarizeAuditLines lines =
  summary_of (omap ParseAuditLinePrefix lines)
    (len (List.filter (λ l, negb (parsable l)) lines)).
Proof.
  induction lines as [|line lines IH] using rev_ind; [done|].
  unfold SummarizeAuditLines in *. rewrite foldl_app, IH, omap_snoc, filter_snoc. cbn [foldl].
  unfold summarize_line, parsable. destruct (ParseAuditLinePrefix line) as [p|] eqn:Hp; cbn [negb].
  - rewrite !app_nil_r. unfold summary_of. cbn.
    rewrite !filter_snoc, last_snoc, head_snoc, <- !u64_succ_len. unfold runs_of.
    rewrite map_app. cbn [map]. rewrite tally_snoc. cbn.
    f_equal.
    + destruct (alp_ok p); [apply u64_succ_len|by rewrite app_nil_r].
    + destruct (alp_ok p); [by rewrite app_nil_r|apply u64_succ_len].
    + destruct (head (omap ParseAuditLinePrefix lines)) as [q|] eqn:Hq; [|done]. cbn.
      assert (q ∈ omap ParseAuditLinePrefix lines) as Hin.
      { apply head_Some_elem_of in Hq. done. }
      apply list_elem_of_omap in Hin as (l & _ & Hl).
      apply ParseAuditLinePrefix_fields in Hl as [Hl _].
      by rewrite (string_empty_false _ Hl).
  - rewrite app_nil_r. unfold summary_of. cbn. f_equal. apply u64_succ_len.
Qed.

(** The summary of audit lines counts every line once: a line that parses
    under its operation and outcome, any other as unparsed; every operation has
    one entry; the time range runs from the first parsed line to the last. *)
Lemma SummarizeAuditLines_spec (lines : list string) :
  let s := SummarizeAuditLines lines in
  let prefixes := omap ParseAuditLinePrefix lines in
  als_total s = u64 (len prefixes) ∧
  als_ok s = u64 (len (List.filter alp_ok prefixes)) ∧
  als_fail s = u64 (len (List.filter (λ p, negb (alp_ok p)) prefixes)) ∧
  als_unparsed s = u64 (len (List.filter (λ l, negb (parsable l)) lines)) ∧
  (∀ op b, count_of b op (als_byOperation s) =
           u64 (len (List.filter (is_run op b) (runs_of prefixes)))) ∧
  NoDup (map aoc_operationId (als_byOperation s)) ∧
  (∀ op, op ∈ map aoc_operationId (als_byOperation s) ↔ op ∈ map alp_operationId prefixes) ∧
  als_firstTimestamp s = from_option alp_timestamp "" (head prefixes) ∧
  als_lastTimestamp s = from_option alp_timestamp "" (last prefixes).
Proof.
  cbn zeta. rewrite SummarizeAuditLines_eq. unfold summary_of. cbn.
  split_and!; try done.
  - intros op b. apply count_of_tally.
  - apply tally_keys.
  - intros op. rewrite (proj2 (tally_keys _)). unfold runs_of. by rewrite List.map_map.
Qed.

Definition runs_of_records (records : list AuditRecord) : list (string * bool) :=
  map (λ r, (ar_operationId r, ar_ok r)) records.

(** The times that were set. *)
Definition times_of (records : list AuditRecord) : list Z :=
  List.filter (λ t, negb (t =? 0)) (map ar_at records).

Definition min_of (l : list Z) : Z :=
  match l with [] => 0 | t :: r => foldl Z.min t r end.
Definition max_of (l : list Z) : Z :=
  match l with [] => 0 | t :: r => foldl Z.max t r end.

Lemma min_of_snoc l t : min_of (l ++ [t]) = match l with [] => t | _ => Z.min (min_of l) t end.
Proof. destruct l; [done|]. cbn. by rewrite foldl_app. Qed.

Lemma max_of_snoc l t : max_of (l ++ [t]) = match l with [] => t | _ => Z.max (max_of l) t end.
Proof. destruct l; [done|]. cbn. by rewrite foldl_app. Qed.

Lemma summarize_records_eq records :
  foldl summarize_record (MkAuditSummary 0 0 0 [] 0 0, false) records =
  (MkAuditSummary (u64 (len records)) (u64 (len (List.filter ar_ok records)))
     (u64 (len (List.filter (λ r, negb (ar_ok r)) records))) (tally (runs_of_records records))
     (min_of (times_of records)) (max_of (times_of records)),
   match times_of records with [] => false | _ => true end).
Proof.
  induction records as [|r records IH] using rev_ind; [done|].
  rewrite foldl_app, IH. cbn [foldl]. unfold summarize_record at 1. cbn.
  rewrite !filter_snoc, <- u64_succ_len. unfold runs_of_records, times_of.
  rewrite !map_app. cbn [map]. rewrite filter_snoc, tally_snoc.
  fold (times_of records). f_equal; [f_equal|].
  - destruct (ar_ok r); [apply u64_succ_len|by rewrite app_nil_r].
  - destruct (ar_ok r); [by rewrite app_nil_r|apply u64_succ_len].
  - destruct (ar_at r =? 0); cbn [negb andb]; [by rewrite app_nil_r|].
    rewrite min_of_snoc. destruct (times_of records); cbn [negb orb]; [done|].
    destruct (Z.ltb_spec (ar_at r) (min_of (z :: l))); lia.
  - destruct (ar_at r =? 0); cbn [negb andb]; [by rewrite app_nil_r|].
    rewrite max_of_snoc. destruct (times_of records); cbn [negb orb]; [done|].
    destruct (Z.ltb_spec (max_of (z :: l)) (ar_at r)); lia.
  - destruct (ar_at r =? 0), (times_of records); done.
Qed.

(** The summary of records: totals, one entry per operation, and the earliest
    and latest of the times that were set, in whatever order they came. *)
Lemma SummarizeRecords_spec (records : list AuditRecord) :
  let s := SummarizeRecords records in
  as_total s = u64 (len records) ∧
  as_ok s = u64 (len (List.filter ar_ok records)) ∧
  as_fail s = u64 (len (List.filter (λ r, negb (ar_ok r)) records)) ∧
  (∀ op b, count_of b op (as_byOperation s) =
           u64 (len (List.filter (is_run op b) (runs_of_records records)))) ∧
  NoDup (map aoc_operationId (as_byOperation s)) ∧
  as_firstAt s = min_of (times_of records) ∧
  as_lastAt s = max_of (times_of records).
Proof.
  cbn zeta. unfold SummarizeRecords. rewrite summarize_records_eq. cbn.
  split_and!; try done; [|apply tally_keys]. intros op b. apply count_of_tally.
Qed.

Lemma starts_with_app p s : starts_with p (p +:+ s) = true.
Proof. unfold starts_with. by rewrite strip_app. Qed.

(** A journal line reads back as the step it was written for. *)
Lemma ParseJournalLine_Format local phase operationId ok target detail :
  local_ok local → lacks " " (sanitize operationId) = true →
  ParseJournalLine (FormatJournalLine local phase operationId ok target detail) =
  Some (MkJournalEntry (LocalTimestampAscii local) (JournalPhaseToString phase)
          (sanitize operationId) ok).
Proof.
  intros Hl Hsp. unfold FormatJournalLine, AppendSanitized, ParseJournalLine.
  rewrite !string_app_assoc.
  rewrite (cut_marker " " "[" "journal] " _ _ eq_refl (timestamp_lacks "[" local Hl eq_refl)).
  rewrite cut_space by (by destruct phase).
  destruct ok.
  - change (" ok" +:+ ?x) with (" " +:+ "ok" +:+ x). rewrite cut_space by exact Hsp.
    by rewrite starts_with_app.
  - change (" fail" +:+ ?x) with (" " +:+ "fail" +:+ x). rewrite cut_space by exact Hsp.
    by rewrite starts_with_app.
Qed.

(** ** Merging summary lines *)

Definition parses_summary (line : string) : bool :=
  match ParseAuditSummaryLine line with Some _ => true | None => false end.

(** One round of the loop that folds a summary file. *)
Definition merge_counts (l : list AuditOperationCount) (entries : list AuditOperationCount)
  : list AuditOperationCount :=
  foldl (λ acc e, add_count (aoc_operationId e) (aoc_ok e) (aoc_fail e) acc) l entries.

Definition merge_record (s : AuditLineSummary) (r : AuditSummaryRecord) : AuditLineSummary :=
  MkLineSummary (u64 (als_total s + asr_total r)) (u64 (als_ok s + asr_ok r))
    (u64 (als_fail s + asr_fail r)) (u64 (als_unparsed s + asr_unparsed r))
    (merge_counts (als_byOperation s) (asr_byOperation r))
    (if string_empty (als_firstTimestamp s) then asr_firstTimestamp r else als_firstTimestamp s)
    (if string_empty (asr_lastTimestamp r) then als_lastTimestamp s else asr_lastTimestamp r).
