(* ===== verification/AuditLog.v ===== *)
(** The audit's files and its log in memory ([audit/audit_log]): appending,
    reading back, compaction of the audit file into summary lines, folding of
    the summary file, and the bounded [AuditLog]. Text formats are in
    [AuditLine]; files are those of [FileSystem] and [FileSizes], times those of
    the class [Clock]. *)

From S2P Require Import Prelude CommonError Containers Paths AuditLine.

Open Scope string_scope.
Open Scope list_scope.
Open Scope Z_scope.

(** ** The system *)

Class Clock (W : Type) := {
  localtime : W → option tm;
  steady_clock : W → Z
}.

Class ClockLaws (W : Type) `{!Clock W} := {
  localtime_ok : ∀ w, local_ok (localtime w)
}.

(** ** Options and results *)

Record CompactOptions := MkCompactOptions {
  maxBytes : Z;
  maxLines : Z;
  keepTailLines : Z;
  summaryMaxBytes : Z
}.

Definition default_options : CompactOptions :=
  MkCompactOptions (10 * 1024 * 1024) 20000 2000 (50 * 1024 * 1024).

Record CompactResult := MkCompactResult {
  compacted : bool;
  cr_beforeLines : Z;
  cr_afterLines : Z;
  summarizedLines : Z;
  unparsedKept : Z;
  cr_summaryPath : string
}.

Record FoldSummaryResult := MkFoldResult {
  folded : bool;
  fr_beforeLines : Z;
  fr_afterLines : Z;
  mergedRanges : Z;
  unparsableKept : Z
}.

Record AuditTail := MkTail { totalLines : Z; tail_lines : list string }.

Definition kMaxAuditReadBytes : Z := 8 * 1024 * 1024.
Definition kMaxAuditLineBytes : Z := 4096.
Definition kMaxSummaryReadBytes : Z := 64 * 1024 * 1024.

Definition ShouldCompactAuditFile (currentBytes currentLines : Z) (o : CompactOptions) : bool :=
  ((0 <? maxBytes o) && (maxBytes o <=? currentBytes)) ||
  ((0 <? maxLines o) && (maxLines o <=? currentLines)).

Definition AuditSummaryPath (path : string) : string :=
  path_append (parent_path path) (stem path +:+ "-summary" +:+ extension path).

(** The text before the suffix [suf], if it ends the text. *)
Fixpoint strip_end (suf s : string) : option string :=
  if String.eqb s suf then Some ""
  else match s with
       | EmptyString => None
       | String c s' => match strip_end suf s' with
                        | Some a => Some (String c a)
                        | None => None
                        end
       end.

(** [""] for a name that is not a summary's. *)
Definition AuditPathForSummary (summaryPath : string) : string :=
  match strip_end "-summary" (stem summaryPath) with
  | Some name => if string_empty name then ""
                 else path_append (parent_path summaryPath) (name +:+ extension summaryPath)
  | None => ""
  end.

Section Files.
Context {W : Type} `{SystemMessages} `{FileSystem W} `{FileSizes W} `{Clock W}.

Definition last_error {A} (op : string) : M W (Result A) :=
  λ w, (Failure (FromWin32 (u32 (GetLastError w)) op), w).

(** ** Appending *)

(** The part the three appenders share: the parent directories, then [k]. *)
Definition with_parent {A} (path op : string) (k : M W (Result A)) : M W (Result A) :=
  let parent := parent_path path in
  ec <-- (if string_empty parent then mret 0 else create_directories parent) ;;
  if negb (ec =? 0) then mret (Failure (FromWin32 (u32 ec) op)) else k.

(** [text] depends on the time at which it is made. *)
Definition append_flushed (path open_op flush_op : string) (text : W → string)
  : M W (Result unit) :=
  λ w,
    (out <-- append_text path (text w) ;;
     match out with
     | OpenFailed => last_error open_op
     | FlushFailed => last_error flush_op
     | Written => mret (Success tt)
     end) w.

Definition AppendAuditLine (path : string) (record : AuditRecord) : M W (Result unit) :=
  if string_empty path then mret (Failure (Validation "AppendAuditLine" "路径不能为空"))
  else
    with_parent path "create_directories(audit log)"
      (append_flushed path "open audit log for append" "flush audit log"
         (λ w, FormatAuditLineAscii (localtime w) record +:+ String LF "")).

Definition AppendJournalLine (path : string) (phase : JournalPhase) (operationId : string)
    (ok : bool) (target detail : string) : M W (Result unit) :=
  if string_empty path then mret (Failure (Validation "AppendJournalLine" "路径不能为空"))
  else
    with_parent path "create_directories(action journal)"
      (append_flushed path "open action journal for append" "flush action journal"
         (λ w, FormatJournalLine (localtime w) phase operationId ok target detail
               +:+ String LF "")).

(** The file is opened for appending and nothing is written. *)
Definition ProbeAuditWritable (path : string) : M W (Result unit) :=
  if string_empty path then mret (Failure (Validation "ProbeAuditWritable" "路径不能为空"))
  else
    with_parent path "create_directories(audit probe)"
      (out <-- append_text path "" ;;
       match out with
       | OpenFailed => last_error "open audit log for probe"
       | _ => mret (Success tt)
       end).

(** ** Reading back *)

Definition shorten (line : string) : string :=
  if kMaxAuditLineBytes <? strlen line
  then str_take (Z.to_nat kMaxAuditLineBytes) line +:+ "..." else line.

(** A ring of at most [n] elements. *)
Definition push_ring {A} (n : Z) (ring : list A) (x : A) : list A :=
  let ring := ring ++ [x] in
  if n <? len ring then tl ring else ring.

Definition tail_line (maxLines : Z) (st : Z * list string) (line : string) : Z * list string :=
  (u64 (st.1 + 1),
   if maxLines =? 0 then st.2 else push_ring maxLines st.2 (shorten line)).

Definition ReadAuditTail (path : string) (maxLines : Z) (w : W) : Result AuditTail :=
  if string_empty path then Failure (Validation "ReadAuditTail" "路径不能为空")
  else
    let '(exists_, ec) := exists_file path w in
    if negb (ec =? 0) then Failure (FromWin32 (u32 ec) "exists(audit log)")
    else if negb exists_ then Success (MkTail 0 [])
    else
      let '(size, ec) := file_size path w in
      if negb (ec =? 0) then Failure (FromWin32 (u32 ec) "file_size(audit log)")
      else if kMaxAuditReadBytes <? size
      then Failure (Validation "ReadAuditTail" "审计文件超出可回看上限（8 MiB）")
      else
        match open_read path w with
        | None => Failure (FromWin32 (u32 (GetLastError w)) "open audit log for read")
        | Some text =>
            if read_bad path w
            then Failure (FromWin32 (u32 (GetLastError w)) "read audit log")
            else
              let '(total, ring) := foldl (tail_line maxLines) (0, []) (getlines text) in
              Success (MkTail total ring)
        end.

(** ** Compaction *)

Definition head_lines (o : CompactOptions) (lines : list string) : list string :=
  take (length lines - Nat.min (Z.to_nat (keepTailLines o)) (length lines)) lines.
Definition kept_tail (o : CompactOptions) (lines : list string) : list string :=
  drop (length lines - Nat.min (Z.to_nat (keepTailLines o)) (length lines)) lines.

(** The lines that stay: of the compacted part those that do not parse. *)
Definition retained_lines (o : CompactOptions) (lines : list string) : list string :=
  List.filter (λ l, negb (parsable l)) (head_lines o lines) ++ kept_tail o lines.

Definition compact_record (path : string) (o : CompactOptions) (lines : list string)
    (summary : AuditLineSummary) : AuditRecord :=
  MkAuditRecord "audit.compact" RiskLevel.R0 "audit" (stem path +:+ extension path)
    ("before=" +:+ to_string (len lines) +:+
     " after=" +:+ to_string (len (retained_lines o lines) + 1) +:+
     " summarized=" +:+ to_string (als_total summary) +:+
     " unparsed=" +:+ to_string (als_unparsed summary) +:+
     " threshold_bytes=" +:+ to_string (maxBytes o) +:+
     " threshold_lines=" +:+ to_string (maxLines o))
    true 0.

(** The temporary file takes the new content, or nothing is left of it. *)
Definition write_temp (tempPath create_op write_op text : string) : M W (option Error) :=
  out <-- write_trunc tempPath text ;;
  match out with
  | OpenFailed => λ w, (Some (FromWin32 (u32 (GetLastError w)) create_op), w)
  | FlushFailed => λ w,
      let code := u32 (GetLastError w) in
      (remove_file tempPath ;;; mret (Some (FromWin32 code write_op))) w
  | Written => mret None
  end.

(** [exists] and [file_size] on the summary file; 0 when there is none and when
    its size cannot be told. *)
Definition summary_size (summaryPath : string) (w : W) : Z :=
  if (exists_file summaryPath w).1 then
    let '(size, ec) := file_size summaryPath w in if ec =? 0 then size else 0
  else 0.

Definition drop_temp {A} (tempPath : string) (e : Error) : M W (Result A) :=
  remove_file tempPath ;;; mret (Failure e).

(** The summary line is appended. *)
Definition append_summary (tempPath summaryPath line : string) (k : M W (Result CompactResult))
  : M W (Result CompactResult) :=
  out <-- append_text summaryPath (line +:+ String LF "") ;;
  match out with
  | OpenFailed => remove_file tempPath ;;; last_error "open audit summary for append"
  | FlushFailed => λ w,
      drop_temp tempPath (FromWin32 (u32 (GetLastError w)) "append audit summary") w
  | Written => k
  end.

(** The temporary file replaces the audit file, or the summary file is cut back
    to [before] bytes. *)
Definition replace_audit (path tempPath summaryPath : string) (before : Z)
    (result : CompactResult) : M W (Result CompactResult) :=
  moved <-- MoveFileExW tempPath path ;;
  if negb moved then λ w,
    let code := u32 (GetLastError w) in
    (remove_file tempPath ;;;
     resize_file summaryPath before ;;;
     mret (Failure (FromWin32 code "MoveFileExW(audit compact)"))) w
  else mret (Success result).

Definition compact_write (path : string) (o : CompactOptions) (lines : list string)
    (summary : AuditLineSummary) (self : string) : M W (Result CompactResult) :=
  let retained := retained_lines o lines ++ [self] in
  let summaryPath := AuditSummaryPath path in
  let tempPath := path +:+ ".tmp" in
  failed <-- write_temp tempPath "create audit temp file" "write audit temp file"
               (unlines retained) ;;
  match failed with
  | Some e => mret (Failure e)
  | None => λ w,
      let before := summary_size summaryPath w in
      (ec <-- (if string_empty (parent_path path) then mret 0
               else create_directories (parent_path summaryPath)) ;;
       if negb (ec =? 0)
       then drop_temp tempPath (FromWin32 (u32 ec) "create_directories(audit summary)")
       else
         append_summary tempPath summaryPath (FormatAuditSummaryLine summary)
           (replace_audit path tempPath summaryPath before
              (MkCompactResult true (len lines) (len retained) (als_total summary)
                 (als_unparsed summary) summaryPath))) w
  end.

Definition compact_lines (path : string) (o : CompactOptions) (size : Z) (lines : list string)
  : M W (Result CompactResult) :=
  let unchanged kept := MkCompactResult false (len lines) (len lines) 0 kept "" in
  if negb (ShouldCompactAuditFile size (len lines) o) then mret (Success (unchanged 0))
  else
    let summary := SummarizeAuditLines (head_lines o lines) in
    if bool_decide (retained_lines o lines = lines)
    then mret (Success (unchanged (als_unparsed summary)))
    else λ w,
      compact_write path o lines summary
        (FormatAuditLineAscii (localtime w) (compact_record path o lines summary)) w.

Definition CompactAuditFile (path : string) (o : CompactOptions) : M W (Result CompactResult) :=
  λ w,
  if string_empty path
  then (Failure (Validation "CompactAuditFile" "路径不能为空"), w)
  else
    let '(exists_, ec) := exists_file path w in
    if negb (ec =? 0) then (Failure (FromWin32 (u32 ec) "exists(audit log)"), w)
    else if negb exists_ then (Success (MkCompactResult false 0 0 0 0 ""), w)
    else
      let '(size, ec) := file_size path w in
      if negb (ec =? 0) then (Failure (FromWin32 (u32 ec) "file_size(audit log)"), w)
      else if kMaxAuditReadBytes <? size
      then (Failure (Validation "CompactAuditFile" "审计文件超出可压缩上限（8 MiB）"), w)
      else
        match open_read path w with
        | None => last_error "open audit log for compact" w
        | Some text =>
            if read_bad path w then last_error "read audit log for compact" w
            else compact_lines path o size (getlines text) w
        end.

(** ** Folding the summary file *)

(** The loop over the lines: lines read, lines merged, the merged summary and
    the lines that do not parse. *)
Record FoldState := MkFoldState {
  fs_before : Z;
  fs_merged : Z;
  fs_summary : AuditLineSummary;
  fs_kept : list string
}.

Definition fold_line (st : FoldState) (line : string) : FoldState :=
  match ParseAuditSummaryLine line with
  | None => MkFoldState (u64 (fs_before st + 1)) (fs_merged st) (fs_summary st)
              (fs_kept st ++ [line])
  | Some r => MkFoldState (u64 (fs_before st + 1)) (u64 (fs_merged st + 1))
                (merge_record (fs_summary st) r) (fs_kept st)
  end.

Definition fold_lines (lines : list string) : FoldState :=
  foldl fold_line (MkFoldState 0 0 empty_summary []) lines.

Definition fold_record (auditPath : string) (r : FoldSummaryResult) (o : CompactOptions)
  : AuditRecord :=
  MkAuditRecord "audit.fold" RiskLevel.R0 "audit" (stem auditPath +:+ extension auditPath)
    ("merged_ranges=" +:+ to_string (mergedRanges r) +:+
     " before=" +:+ to_string (fr_beforeLines r) +:+
     " after=" +:+ to_string (fr_afterLines r) +:+
     " unparsable_kept=" +:+ to_string (unparsableKept r) +:+
     " summary_max_bytes=" +:+ to_string (summaryMaxBytes o))
    true 0.

(** The folding is entered in the audit file, when its name is known. *)
Definition record_fold (summaryPath : string) (o : CompactOptions) (r : FoldSummaryResult)
  : M W (Result FoldSummaryResult) :=
  let auditPath := AuditPathForSummary summaryPath in
  if string_empty auditPath then mret (Success r)
  else
    appended <-- AppendAuditLine auditPath (fold_record auditPath r o) ;;
    match appended with
    | Failure e => mret (Failure e)
    | Success _ => mret (Success r)
    end.

Definition rewrite_summary (summaryPath : string) (o : CompactOptions) (rewritten : list string)
    (r : FoldSummaryResult) : M W (Result FoldSummaryResult) :=
  let tempPath := summaryPath +:+ ".tmp" in
  failed <-- write_temp tempPath "create audit summary temp file" "write audit summary temp file"
               (unlines rewritten) ;;
  match failed with
  | Some e => mret (Failure e)
  | None =>
      moved <-- MoveFileExW tempPath summaryPath ;;
      if negb moved then λ w,
        drop_temp tempPath (FromWin32 (u32 (GetLastError w)) "MoveFileExW(audit summary fold)") w
      else record_fold summaryPath o r
  end.

Definition fold_text (summaryPath : string) (o : CompactOptions) (text : string)
  : M W (Result FoldSummaryResult) :=
  let st := fold_lines (getlines text) in
  let kept := len (fs_kept st) in
  let unchanged := MkFoldResult false (fs_before st) (fs_before st) (fs_merged st) kept in
  if fs_merged st =? 0 then mret (Success unchanged)
  else if fs_before st <=? 1 + kept then mret (Success unchanged)
  else
    rewrite_summary summaryPath o (FormatAuditSummaryLine (fs_summary st) :: fs_kept st)
      (MkFoldResult true (fs_before st) (1 + kept) (fs_merged st) kept).

Definition FoldAuditSummaryFile (summaryPath : string) (o : CompactOptions)
  : M W (Result FoldSummaryResult) := λ w,
  if string_empty summaryPath
  then (Failure (Validation "FoldAuditSummaryFile" "路径不能为空"), w)
  else if is_directory summaryPath w
  then (Failure (Validation "FoldAuditSummaryFile" "汇总路径是目录，不是文件"), w)
  else if negb (is_directory_ec summaryPath w =? 0)
  then (Failure (FromWin32 (u32 (is_directory_ec summaryPath w)) "is_directory(audit summary)"), w)
  else
    let '(exists_, ec) := exists_file summaryPath w in
    if negb exists_ then
      if negb (ec =? 0) then (Failure (FromWin32 (u32 ec) "exists(audit summary)"), w)
      else (Success (MkFoldResult false 0 0 0 0), w)
    else
      let '(size, ec) := file_size summaryPath w in
      if negb (ec =? 0) then (Failure (FromWin32 (u32 ec) "file_size(audit summary)"), w)
      else if (summaryMaxBytes o =? 0) || (size <? summaryMaxBytes o)
      then (Success (MkFoldResult false 0 0 0 0), w)
      else if kMaxSummaryReadBytes <? size
      then (Failure (Validation "FoldAuditSummaryFile" "汇总文件超出可折叠读取上限（64 MiB）"), w)
      else
        match open_read summaryPath w with
        | None => last_error "open audit summary for fold" w
        | Some text =>
            if read_bad summaryPath w then last_error "read audit summary for fold" w
            else fold_text summaryPath o text w
        end.

(** ** The log in memory *)

Record AuditLog := MkAuditLog {
  capacity : Z;
  enabled : bool;
  filePath : string;
  log_records : list AuditRecord
}.

Definition IsAvailable (l : AuditLog) : bool := enabled l.
Definition IsPersistent (l : AuditLog) : bool := negb (string_empty (filePath l)).
Definition Records (l : AuditLog) : list AuditRecord := log_records l.
Definition Capacity (l : AuditLog) : Z := capacity l.
Definition Size (l : AuditLog) : Z := len (log_records l).

Definition remember (l : AuditLog) (record : AuditRecord) : AuditLog :=
  MkAuditLog (capacity l) (enabled l) (filePath l)
    (push_ring (capacity l) (log_records l) record).

(** A record without a time gets the present one. *)
Definition stamp (record : AuditRecord) (w : W) : AuditRecord :=
  if ar_at record =? 0
  then MkAuditRecord (ar_operationId record) (ar_risk record) (ar_caller record)
         (ar_target record) (ar_detail record) (ar_ok record) (steady_clock w)
  else record.

Definition Append (record : AuditRecord) : M (AuditLog * W) (Result unit) := λ s,
  let '(l, w) := s in
  if negb (enabled l)
  then (Failure (Unsupported "AuditLog::Append" "审计不可用（disabled）"), (l, w))
  else
    let record := stamp record w in
    if string_empty (filePath l) then (Success tt, (remember l record, w))
    else
      let '(appended, w1) := AppendAuditLine (filePath l) record w in
      match appended with
      | Failure e => (Failure e, (l, w1))
      | Success _ => (Success tt, (remember l record, w1))
      end.
End Files.

(** ** Rings *)

(** The last [n] elements. *)
Definition last_n {A} (n : Z) (l : list A) : list A := drop (length l - Z.to_nat n) l.

Lemma last_n_length {A} n (l : list A) : 0 <= n → len (last_n n l) = Z.min n (len l).
Proof. intros Hn. unfold last_n. rewrite length_drop. lia. Qed.

Lemma drop_tl {A} (l : list A) k : drop (S k) l = tl (drop k l).
Proof.
  revert l. induction k as [|k IH]; intros l; [by destruct l|].
  destruct l as [|x l]; [done|]. apply (IH l).
Qed.

Lemma push_ring_last_n {A} n (h : list A) x :
  0 <= n → push_ring n (last_n n h) x = last_n n (h ++ [x]).
Proof.
  intros Hn. unfold push_ring. rewrite length_app. cbn [length].
  pose proof (last_n_length n h Hn) as Hl. unfold last_n in *. rewrite length_app. cbn [length].
  destruct (Z.ltb_spec n (Z.of_nat (length (drop (length h - Z.to_nat n) h) + 1))) as [Hlt|Hge].
  - assert (Z.to_nat n <= length h)%nat by lia.
    replace (length h + 1 - Z.to_nat n)%nat with (S (length h - Z.to_nat n)) by lia.
    rewrite <- drop_app_le by lia. by rewrite drop_tl.
  - replace (length h + 1 - Z.to_nat n)%nat with 0%nat by lia.
    replace (length h - Z.to_nat n)%nat with 0%nat by lia. done.
Qed.

(** ** Appending: theorems *)

Section Theorems.
Context {W : Type} `{!SystemMessages} `{!FileSystem W} `{!FileSystemLaws W}
  `{!FileSizes W} `{!FileSizesLaws W} `{!Clock W} `{!ClockLaws W}.

Lemma with_parent_spec {A} path op (k : M W (Result A)) w r w' :
  with_parent path op k w = (r, w') →
  (∃ w1, (∀ q, file q w1 = file q w) ∧ k w1 = (r, w')) ∨
  ((∀ q, file q w' = file q w) ∧ ∃ e, r = Failure e).
Proof.
  unfold with_parent, mthen, mret. destruct (string_empty (parent_path path)).
  - intros Hk. left. by exists w.
  - pose proof (λ q, create_directories_file (parent_path path) q w) as Hd.
    destruct (create_directories _ w) as [ec w1]. cbn in Hd.
    destruct (negb (ec =? 0)); [|intros Hk; left; by exists w1].
    intros [= <- <-]. right. split; [done|]. by eexists.
Qed.

Lemma append_flushed_spec path o1 o2 text w r w' :
  append_flushed path o1 o2 text w = (r, w') →
  (∀ q, q ≠ path → file q w' = file q w) ∧
  (r = Success tt → file path w' = Some (default "" (file path w) +:+ text w)).
Proof.
  unfold append_flushed, mthen, last_error, mret.
  pose proof (λ q, append_text_other path (text w) w q) as Ho.
  destruct (append_text path (text w) w) as [[] w1] eqn:Ha; cbn in Ho; intros [= <- <-].
  - split; [done|]. intros _. by apply append_text_file.
  - done.
  - done.
Qed.

Lemma AppendAuditLine_Success path record w w' :
  AppendAuditLine path record w = (Success tt, w') →
  ∃ w1, file path w' =
        Some (default "" (file path w) +:+ FormatAuditLineAscii (localtime w1) record +:+
              String LF "").
Proof.
  unfold AppendAuditLine. destruct (string_empty path); [done|].
  intros [(w1 & Hw1 & Hk)|(_ & e & [=])]%with_parent_spec.
  apply append_flushed_spec in Hk as [_ Hk]. exists w1. by rewrite Hk, Hw1.
Qed.

Lemma tail_line_fold n lines st h :
  0 <= n → st.2 = last_n n h →
  foldl (tail_line n) st lines =
  (foldl (λ t _, u64 (t + 1)) st.1 lines, last_n n (h ++ map shorten lines)).
Proof.
  intros Hn. revert st h. induction lines as [|l lines IH]; intros [t r] h Hst; cbn [foldl map].
  - cbn in Hst. by rewrite app_nil_r, Hst.
  - rewrite (IH _ (h ++ [shorten l])).
    + cbn. by rewrite <- app_assoc.
    + cbn in *. destruct (Z.eqb_spec n 0) as [->|].
      * rewrite Hst. unfold last_n. rewrite length_app. cbn.
        rewrite !Nat.sub_0_r, drop_all.
        assert (length h + 1 = length (h ++ [shorten l]))%nat as -> by (by rewrite length_app).
        by rewrite drop_all.
      * rewrite Hst. by apply push_ring_last_n.
Qed.

Lemma count_lines {A} t (lines : list A) :
  foldl (λ t _, u64 (t + 1)) (u64 t) lines = u64 (t + len lines).
Proof.
  revert t. induction lines as [|l lines IH]; intros t; cbn [foldl length].
  - f_equal. lia.
  - rewrite u64_add_l, IH. f_equal. lia.
Qed.

(** Looking back at the audit file shows its last [maxLines] lines, oldest
    first, each shortened to 4096 bytes, and how many lines there are; no file
    is no record, anything unreadable is an error. *)
Lemma ReadAuditTail_spec (path : string) (maxLines : Z) (w : W) (tail : AuditTail) :
  0 <= maxLines →
  ReadAuditTail path maxLines w = Success tail →
  match file path w with
  | None => totalLines tail = 0 ∧ tail_lines tail = []
  | Some text =>
      totalLines tail = u64 (len (getlines text)) ∧
      tail_lines tail = last_n maxLines (map shorten (getlines text))
  end.
Proof.
  intros Hn. unfold ReadAuditTail. destruct (string_empty path); [done|].
  destruct (exists_file path w) as [b ec] eqn:Hex.
  destruct (Z.eqb_spec ec 0) as [->|]; [|done]. cbn [negb].
  pose proof (exists_file_some path w) as Hsome. rewrite Hex in Hsome. cbn in Hsome.
  destruct b; cbn [negb].
  - destruct (file_size path w) as [size ec]. destruct (negb (ec =? 0)); [done|].
    destruct (_ <? size); [done|]. destruct (open_read path w) as [text|] eqn:Ho; [|done].
    apply open_read_file in Ho. rewrite Ho. destruct (read_bad path w); [done|].
    rewrite (tail_line_fold _ _ _ []) by (done || by unfold last_n; rewrite drop_nil).
    cbn [fst]. rewrite (count_lines 0). by intros [= <-].
  - apply exists_file_none in Hex. rewrite Hex. by intros [= <-].
Qed.

(** ** The log: theorems *)

(** A run of appends, with the records that were accepted. *)
Fixpoint append_all (rs : list AuditRecord) : M (AuditLog * W) (list AuditRecord) :=
  match rs with
  | [] => mret []
  | r :: rs' => λ s,
      let '(res, s1) := Append r s in
      let '(acc, s2) := append_all rs' s1 in
      (if HasValue res then stamp r s.2 :: acc else acc, s2)
  end.

Lemma Append_spec r l w res l' w' :
  Append r (l, w) = (res, (l', w')) →
  match res with
  | Failure _ => l' = l
  | Success _ =>
      enabled l = true ∧ l' = remember l (stamp r w) ∧
      (IsPersistent l = true → ∃ local,
         file (filePath l) w' =
         Some (default "" (file (filePath l) w) +:+
               unlines [FormatAuditLineAscii local (stamp r w)]))
  end.
Proof.
  unfold Append. destruct (enabled l) eqn:He; cbn [negb]; [|by intros [= <- <- <-]].
  unfold IsPersistent. destruct (string_empty (filePath l)); [by intros [= <- <- <-]|].
  destruct (AppendAuditLine _ _ w) as [[[]|e] w1] eqn:Ha; intros [= <- <- <-]; [|done].
  split_and!; [done|done|]. intros _. apply AppendAuditLine_Success in Ha as [w2 Ha].
  by exists (localtime w2).
Qed.

Lemma append_all_length rs s acc s' :
  append_all rs s = (acc, s') → (length acc <= length rs)%nat.
Proof.
  revert s acc s'. induction rs as [|r rs IH]; intros s acc s'; cbn.
  - by intros [= <- _].
  - destruct (Append r s) as [res s1]. destruct (append_all rs s1) as [acc1 s2] eqn:E.
    apply IH in E. intros [= <- _]. destruct (HasValue res); cbn; lia.
Qed.

(** What the file of a persistent log holds after lines for the records [acc]. *)
Definition lines_for (acc : list AuditRecord) (lines : list string) : Prop :=
  Forall2 (λ r line, ∃ local, line = FormatAuditLineAscii local r) acc lines.

(** C36. The log in memory is the last [capacity] of the records it accepted, in
    their order, whatever was refused in between; a disabled log accepts none;
    and when a persistent log refused none, its file has grown by one line for
    every record it holds or has held. *)
Theorem AuditLog_refines_history (rs acc h : list AuditRecord) (l l' : AuditLog) (w w' : W) :
  0 <= capacity l →
  Records l = last_n (capacity l) h →
  append_all rs (l, w) = (acc, (l', w')) →
  Records l' = last_n (capacity l) (h ++ acc) ∧
  (enabled l = false → acc = []) ∧
  (IsPersistent l = true → length acc = length rs → ∃ lines,
     lines_for acc lines ∧
     default "" (file (filePath l) w') = default "" (file (filePath l) w) +:+ unlines lines).
Proof.
  intros Hcap. revert acc h l w Hcap.
  induction rs as [|r rs IH]; intros acc h l w Hcap Hrec; cbn [append_all].
  - intros [= <- <- <-]. rewrite app_nil_r. split_and!; [done|done|].
    intros _ _. exists []. split; [constructor|]. cbn. by rewrite string_app_nil_r.
  - destruct (Append r (l, w)) as [res [l1 w1]] eqn:Ha.
    destruct (append_all rs (l1, w1)) as [acc1 [l2 w2]] eqn:Hrun.
    apply Append_spec in Ha. destruct res as [[]|e]; cbn [HasValue].
    + destruct Ha as (He & -> & Hfile). intros [= <- <- <-].
      destruct (IH acc1 (h ++ [stamp r w]) (remember l (stamp r w)) w1 Hcap) as (H1 & H2 & H3).
      { unfold Records, remember in *. cbn. rewrite Hrec. by apply push_ring_last_n. }
      { done. }
      rewrite <- app_assoc in H1. split_and!; [exact H1|congruence|].
      intros Hp Hlen. injection Hlen as Hlen. destruct (Hfile Hp) as [local Hl].
      destruct (H3 Hp Hlen) as (lines & Hl1 & Hl2).
      exists (FormatAuditLineAscii local (stamp r w) :: lines). split.
      * constructor; [by exists local|done].
      * unfold remember in Hl2. cbn [filePath] in Hl2. rewrite Hl2, Hl.
        cbn [default from_option id unlines]. by rewrite !string_app_assoc.
    + subst l1. intros [= <- <- <-]. destruct (IH acc1 h l w1 Hcap Hrec Hrun) as (H1 & H2 & H3).
      split_and!; [done|done|]. intros _ Hlen. apply append_all_length in Hrun. cbn in Hlen. lia.
Qed.

(** ** Compaction: theorems *)

Lemma write_temp_spec t o1 o2 text w r w' :
  write_temp t o1 o2 text w = (r, w') →
  (∀ q, q ≠ t → file q w' = file q w) ∧ (r = None → file t w' = Some text).
Proof.
  unfold write_temp, mthen, mret. pose proof (λ q, write_trunc_other t text w q) as Ho.
  destruct (write_trunc t text w) as [[] w1] eqn:Hw; cbn in Ho.
  - intros [= <- <-]. split; [done|]. intros _. by apply write_trunc_file in Hw.
  - by intros [= <- <-].
  - pose proof (λ q, remove_file_other t w1 q) as Hr.
    destruct (remove_file t w1) as [[] w2]. intros [= <- <-]. cbn in Hr.
    split; [|done]. intros q Hq. by rewrite Hr, Ho.
Qed.

Lemma drop_temp_spec {A} t e w (r : Result A) w' :
  drop_temp t e w = (r, w') → r = Failure e ∧ ∀ q, q ≠ t → file q w' = file q w.
Proof.
  unfold drop_temp, mthen, mret. pose proof (λ q, remove_file_other t w q) as Hr.
  destruct (remove_file t w) as [[] w1]. by intros [= <- <-].
Qed.

(** The three files of a compaction are three. *)
Definition distinct_paths (path : string) : Prop :=
  AuditSummaryPath path ≠ path ∧ AuditSummaryPath path ≠ path +:+ ".tmp".

Lemma replace_audit_spec path before result w r w' :
  distinct_paths path →
  replace_audit path (path +:+ ".tmp") (AuditSummaryPath path) before result w = (r, w') →
  match r with
  | Success c => c = result ∧ file path w' = file (path +:+ ".tmp") w ∧
                 file (AuditSummaryPath path) w' = file (AuditSummaryPath path) w
  | Failure _ => file path w' = file path w ∧
      ∃ w2 ec, file (AuditSummaryPath path) w2 = file (AuditSummaryPath path) w ∧
               resize_file (AuditSummaryPath path) before w2 = (ec, w')
  end ∧
  ∀ q, q ≠ path → q ≠ path +:+ ".tmp" → q ≠ AuditSummaryPath path → file q w' = file q w.
Proof.
  intros [Hd1 Hd2]. pose proof (tmp_path_ne path ".tmp" ltac:(done)) as Hne.
  unfold replace_audit, mthen, mret.
  pose proof (λ q, move_file_other (path +:+ ".tmp") path w q) as Hmo.
  destruct (MoveFileExW _ _ w) as [[] w1] eqn:Hm; cbn [negb] in *.
  - intros [= <- <-]. cbn in Hmo. destruct (move_file _ _ _ _ Hm Hne) as [Hf _].
    split_and!; [done|done|by apply Hmo|]. intros. by apply Hmo.
  - pose proof (λ q, remove_file_other (path +:+ ".tmp") w1 q) as Hro.
    destruct (remove_file _ w1) as [[] w2]. cbn in Hro.
    pose proof (λ q, resize_file_other (AuditSummaryPath path) before w2 q) as Hs.
    destruct (resize_file _ _ w2) as [ec w3] eqn:Hres. intros [= <- <-]. cbn in Hs.
    assert (∀ q, q ≠ path +:+ ".tmp" → file q w2 = file q w) as H2.
    { intros q Hq. by rewrite Hro, (move_file_fail _ _ _ _ q Hm). }
    split; [split|].
    + by rewrite Hs, H2.
    + exists w2, ec. split; [by apply H2|done].
    + intros q Hq1 Hq2 Hq3. by rewrite Hs, H2.
Qed.

(** A compaction that was written: the new content of both files. *)
Definition compaction_written (path : string) (lines retained : list string) (self : string)
    (summary : AuditLineSummary) (w w' : W) : Prop :=
  file path w' = Some (unlines (retained ++ [self])) ∧
  file (AuditSummaryPath path) w' =
    Some (default "" (file (AuditSummaryPath path) w) +:+
          FormatAuditSummaryLine summary +:+ String LF "").

Lemma append_summary_spec t sp line k w r w' :
  append_summary t sp line k w = (r, w') →
  (∃ e, r = Failure e ∧ ∀ q, q ≠ t → q ≠ sp → file q w' = file q w) ∨
  ∃ w1, (∀ q, q ≠ sp → file q w1 = file q w) ∧
        file sp w1 = Some (default "" (file sp w) +:+ line +:+ String LF "") ∧
        k w1 = (r, w').
Proof.
  unfold append_summary, mthen, last_error.
  pose proof (λ q, append_text_other sp (line +:+ String LF "") w q) as Ho.
  destruct (append_text sp _ w) as [[] w1] eqn:Ha; cbn in Ho.
  - intros Hk. right. exists w1. split_and!; [done| |done]. by apply append_text_file.
  - pose proof (λ q, remove_file_other t w1 q) as Hr.
    destruct (remove_file t w1) as [[] w2]. intros [= <- <-]. cbn in Hr.
    left. eexists. split; [done|]. intros q H1 H2. by rewrite Hr, Ho.
  - intros [-> Hq]%drop_temp_spec. left. eexists. split; [done|].
    intros q H1 H2. by rewrite Hq, Ho.
Qed.

Lemma compact_write_spec path o lines summary self w r w' :
  distinct_paths path →
  compact_write path o lines summary self w = (r, w') →
  match r with
  | Success c =>
      c = MkCompactResult true (len lines) (len (retained_lines o lines ++ [self]))
            (als_total summary) (als_unparsed summary) (AuditSummaryPath path) ∧
      compaction_written path lines (retained_lines o lines) self summary w w'
  | Failure _ => file path w' = file path w
  end ∧
  ∀ q, q ≠ path → q ≠ path +:+ ".tmp" → q ≠ AuditSummaryPath path → file q w' = file q w.
Proof.
  intros Hd. pose proof Hd as [Hd1 Hd2].
  pose proof (tmp_path_ne path ".tmp" ltac:(done)) as Hne.
  unfold compact_write. unfold mthen at 1.
  destruct (write_temp _ _ _ _ w) as [[e|] w1] eqn:Ht; apply write_temp_spec in Ht as [Ht1 Ht2].
  { unfold mret. intros [= <- <-]. auto. }
  specialize (Ht2 eq_refl). unfold mthen at 1.
  set (mk := if string_empty (parent_path path) then mret 0
             else create_directories (parent_path (AuditSummaryPath path))).
  assert (∀ q, file q (mk w1).2 = file q w1) as Hmk.
  { intros q. unfold mk. destruct (string_empty _); [done|]. apply create_directories_file. }
  destruct (mk w1) as [ec w2]. cbn in Hmk.
  destruct (negb (ec =? 0)).
  { intros [-> Hq]%drop_temp_spec. split; [|intros q ? ? ?]; by rewrite Hq, Hmk, Ht1. }
  intros [(e & -> & Hq)|(w3 & H1 & H2 & Hk)]%append_summary_spec.
  { split; [|intros q ? ? ?]; by rewrite Hq, Hmk, Ht1. }
  apply replace_audit_spec in Hk as [Hk Hother]; [|done]. split.
  - destruct r as [c|e].
    + destruct Hk as (-> & Hp & Hs). split; [done|]. split.
      * by rewrite Hp, H1, Hmk, Ht2.
      * by rewrite Hs, H2, Hmk, Ht1.
    + destruct Hk as [Hp _]. by rewrite Hp, H1, Hmk, Ht1.
  - intros q ? ? ?. by rewrite Hother, H1, Hmk, Ht1.
Qed.

(** How a call of [CompactAuditFile] ends: without touching anything, or in
    [compact_write] on the lines of the file. *)
Lemma CompactAuditFile_cases path o w r w' :
  CompactAuditFile path o w = (r, w') →
  (w' = w ∧ match r with Success c => compacted c = false | Failure _ => True end) ∨
  ∃ old, file path w = Some old ∧ strlen old <= kMaxAuditReadBytes ∧
    let lines := getlines old in
    ShouldCompactAuditFile (strlen old) (len lines) o = true ∧
    retained_lines o lines ≠ lines ∧
    ∃ self, no_lf self = true ∧
      compact_write path o lines (SummarizeAuditLines (head_lines o lines)) self w = (r, w').
Proof.
  unfold CompactAuditFile, last_error.
  destruct (string_empty path); [intros [= <- <-]; by left|].
  destruct (exists_file path w) as [b ec].
  destruct (negb (ec =? 0)); [intros [= <- <-]; by left|].
  destruct b; cbn [negb]; [|intros [= <- <-]; by left].
  destruct (file_size path w) as [size ec'] eqn:Hsize.
  destruct (Z.eqb_spec ec' 0) as [->|]; cbn [negb]; [|intros [= <- <-]; by left].
  destruct (Z.ltb_spec kMaxAuditReadBytes size) as [|Hmax]; [intros [= <- <-]; by left|].
  destruct (open_read path w) as [old|] eqn:Ho; [|intros [= <- <-]; by left].
  apply open_read_file in Ho. pose proof (file_size_file _ _ _ _ Hsize Ho) as Hn.
  destruct (read_bad path w); [intros [= <- <-]; by left|].
  unfold compact_lines.
  destruct (ShouldCompactAuditFile size (len (getlines old)) o) eqn:Hs; cbn [negb];
    [|intros [= <- <-]; by left].
  case_bool_decide as Hr; [intros [= <- <-]; by left|].
  intros Hw. right. exists old. rewrite <- Hn. split_and!; [done|lia|done|done|].
  eexists. split; [|exact Hw]. apply FormatAuditLineAscii_no_lf, localtime_ok.
Qed.

(** A compaction that fails, or finds nothing to do, leaves the audit file
    as it was; the only other files it ever touches are the summary file and
    its temporary file; and when it reports no compaction it touches none. *)
Lemma CompactAuditFile_atomic (path : string) (o : CompactOptions) (w : W) :
  distinct_paths path →
  let '(r, w') := CompactAuditFile path o w in
  match r with
  | Failure _ => file path w' = file path w
  | Success c => compacted c = false → w' = w
  end ∧
  ∀ q, q ≠ path → q ≠ path +:+ ".tmp" → q ≠ AuditSummaryPath path → file q w' = file q w.
Proof.
  intros Hd. destruct (CompactAuditFile path o w) as [r w'] eqn:E.
  apply CompactAuditFile_cases in E as [[-> Hc]|(old & _ & _ & _ & _ & self & _ & E)].
  - by destruct r.
  - apply compact_write_spec in E as [Hr Hother]; [|done]. split; [|done].
    destruct r as [c|e]; [|done]. by destruct Hr as [-> _].
Qed.
End Theorems.

(** Runs of [op] with outcome [b] among audit lines. *)
Definition op_count (op : string) (b : bool) (lines : list string) : Z :=
  len (List.filter (is_run op b) (runs_of (omap ParseAuditLinePrefix lines))).

Lemma op_count_app op b l1 l2 : op_count op b (l1 ++ l2) = op_count op b l1 + op_count op b l2.
Proof.
  unfold op_count, runs_of. rewrite omap_app, map_app, List.filter_app, length_app. lia.
Qed.

Lemma op_count_bound op b lines : 0 <= op_count op b lines <= len lines.
Proof.
  unfold op_count, runs_of. pose proof (filter_length_le (is_run op b)
    (map (λ p, (alp_operationId p, alp_ok p)) (omap ParseAuditLinePrefix lines))) as H1.
  rewrite length_map in H1.
  assert (length (omap ParseAuditLinePrefix lines) <= length lines)%nat; [|lia].
  clear. induction lines as [|l lines IH]; cbn; [done|].
  destruct (ParseAuditLinePrefix l); cbn; lia.
Qed.

Lemma op_count_unparsable op b lines : op_count op b (List.filter (λ l, negb (parsable l)) lines) = 0.
Proof.
  unfold op_count.
  assert (omap ParseAuditLinePrefix (List.filter (λ l, negb (parsable l)) lines) = []) as ->; [|done].
  induction lines as [|l lines IH]; cbn; [done|]. unfold parsable.
  destruct (ParseAuditLinePrefix l) eqn:E; cbn; [done|]. by rewrite E.
Qed.

Lemma getlines_length s : len (getlines s) <= strlen s.
Proof.
  induction s as [|c s IH]; [done|]. cbn [getlines String.length].
  destruct (Ascii.eqb LF c); cbn [length]; [lia|].
  destruct (getlines s); cbn [length] in *; lia.
Qed.

Lemma filter_idem {A} (p : A → bool) l : List.filter p (List.filter p l) = List.filter p l.
Proof.
  induction l as [|x l IH]; cbn; [done|]. destruct (p x) eqn:E; cbn; [|done]. by rewrite E, IH.
Qed.

(** Splitting a list of lines for compaction loses no count and no line that
    does not parse. *)
Lemma compaction_split o lines :
  len lines < 2 ^ 64 →
  let S := SummarizeAuditLines (head_lines o lines) in
  (∀ op b, op_count op b lines =
           count_of b op (als_byOperation S) + op_count op b (retained_lines o lines)) ∧
  List.filter (λ l, negb (parsable l)) (retained_lines o lines) =
  List.filter (λ l, negb (parsable l)) lines ∧
  len lines = als_total S + len (retained_lines o lines).
Proof.
  intros Hlen S.
  assert (lines = head_lines o lines ++ kept_tail o lines) as Hsplit
    by (symmetry; apply take_drop).
  assert (len (head_lines o lines) <= len lines) as Hh.
  { unfold head_lines. rewrite length_take. lia. }
  split_and!.
  - intros op b. unfold S. rewrite SummarizeAuditLines_eq. cbn.
    rewrite count_of_tally. change (len _) with (op_count op b (head_lines o lines)) at 1.
    pose proof (op_count_bound op b (head_lines o lines)).
    rewrite u64_small by (unfold is_u64; lia).
    rewrite Hsplit at 1. unfold retained_lines.
    rewrite !op_count_app, op_count_unparsable. lia.
  - rewrite Hsplit at 2. unfold retained_lines. by rewrite !List.filter_app, filter_idem.
  - unfold S. rewrite SummarizeAuditLines_eq. cbn. unfold retained_lines.
    assert (∀ l, len (omap ParseAuditLinePrefix l) + len (List.filter (λ l, negb (parsable l)) l)
                 = len l) as Hsum.
    { clear. induction l as [|x l IH]; cbn; [done|]. unfold parsable at 1.
      destruct (ParseAuditLinePrefix x); cbn [negb length]; lia. }
    pose proof (Hsum (head_lines o lines)).
    rewrite u64_small by (unfold is_u64; lia). rewrite length_app.
    rewrite Hsplit at 1. rewrite length_app. lia.
Qed.

Section Conservation.
Context {W : Type} `{!SystemMessages} `{!FileSystem W} `{!FileSystemLaws W}
  `{!FileSizes W} `{!FileSizesLaws W} `{!Clock W} `{!ClockLaws W}.

(** C21. A compaction loses detail, never a count: it appends one summary line
    for a summary [S] and leaves the retained lines and one line of its own in
    the audit file, and then every operation has run as often, with either
    outcome, according to [S] and the retained lines together as according to
    the old file; every line that does not parse is still there, in order; and
    the file has become shorter by the lines [S] stands for. *)
Theorem CompactAuditFile_conserves (path : string) (o : CompactOptions) (w w' : W)
    (c : CompactResult) :
  distinct_paths path →
  CompactAuditFile path o w = (Success c, w') →
  compacted c = true →
  ∃ old new S self retained,
    file path w = Some old ∧ file path w' = Some new ∧
    getlines new = retained ++ [self] ∧
    file (AuditSummaryPath path) w' =
      Some (default "" (file (AuditSummaryPath path) w) +:+
            FormatAuditSummaryLine S +:+ String LF "") ∧
    (∀ op b, op_count op b (getlines old) =
             count_of b op (als_byOperation S) + op_count op b retained) ∧
    List.filter (λ l, negb (parsable l)) retained =
      List.filter (λ l, negb (parsable l)) (getlines old) ∧
    len (getlines old) = als_total S + len retained ∧
    summarizedLines c = als_total S ∧ cr_afterLines c = len (getlines new).
Proof.
  intros Hd E Hc.
  apply CompactAuditFile_cases in E as [[_ Hn]|(old & Ho & Hmax & _ & _ & self & Hlf & E)];
    [congruence|].
  apply compact_write_spec in E as [[-> [Hf Hs]] _]; [|done].
  pose proof (getlines_length old).
  assert (len (getlines old) < 2 ^ 64) as Hlen.
  { assert (kMaxAuditReadBytes < 2 ^ 64) by done. lia. }
  destruct (compaction_split o (getlines old) Hlen) as (H1 & H2 & H3).
  exists old, (unlines (retained_lines o (getlines old) ++ [self])),
    (SummarizeAuditLines (head_lines o (getlines old))), self, (retained_lines o (getlines old)).
  assert (getlines (unlines (retained_lines o (getlines old) ++ [self])) =
          retained_lines o (getlines old) ++ [self]) as Hnew.
  { apply getlines_unlines. rewrite forallb_app. cbn [forallb]. rewrite Hlf, !andb_true_r.
    pose proof (getlines_no_lf old) as Hall. rewrite forallb_forall in Hall |- *.
    intros x Hx. apply Hall. unfold retained_lines in Hx.
    rewrite <- (take_drop (length (getlines old) -
      Nat.min (Z.to_nat (keepTailLines o)) (length (getlines old))) (getlines old)).
    apply in_app_iff in Hx as [Hx|Hx]; apply in_app_iff; [left|by right].
    by apply filter_In in Hx as [Hx _]. }
  split_and!; try done. cbn. by rewrite Hnew.
Qed.

(** When the replacement of the audit file fails and the size of the summary
    file could not be told, the roll-back cuts the summary file down to nothing:
    all counts of earlier compactions are gone. *)
Lemma rollback_erases_summary (path : string) (before : string) (result : CompactResult)
    (w w1 w' : W) (e : Error) :
  distinct_paths path →
  (exists_file (AuditSummaryPath path) w).1 = true →
  (file_size (AuditSummaryPath path) w).2 ≠ 0 →
  file (AuditSummaryPath path) w1 = Some before →
  (∀ v, is_Some (file (AuditSummaryPath path) v) →
        (resize_file (AuditSummaryPath path) 0 v).1 = 0) →
  replace_audit path (path +:+ ".tmp") (AuditSummaryPath path)
    (summary_size (AuditSummaryPath path) w) result w1 = (Failure e, w') →
  file (AuditSummaryPath path) w' = Some "".
Proof.
  intros Hd Hex Hsize Hf Hres. unfold summary_size. rewrite Hex.
  destruct (file_size _ w) as [size ec]. cbn in Hsize. rewrite (proj2 (Z.eqb_neq ec 0)) by done.
  intros [(_ & w2 & ec2 & H2 & H3) _]%replace_audit_spec; [|done].
  rewrite Hf in H2. pose proof (Hres w2) as Hz. rewrite H2, H3 in Hz. cbn in Hz.
  rewrite Hz in H3 by by eexists.
  apply (resize_file_file _ _ _ _ _ H3) in H2; [|lia]. done.
Qed.

(** A byte threshold above 8 MiB, such as the default of 10 MiB, never causes
    a compaction: whatever is compacted has reached the threshold of lines. *)
Lemma byte_threshold_unreachable (path : string) (o : CompactOptions) (w w' : W)
    (c : CompactResult) :
  kMaxAuditReadBytes < maxBytes o →
  CompactAuditFile path o w = (Success c, w') →
  compacted c = true →
  ∃ old, file path w = Some old ∧ 0 < maxLines o <= len (getlines old).
Proof.
  intros Hmax E Hc.
  apply CompactAuditFile_cases in E as [[_ Hn]|(old & Ho & Hle & Hs & _)]; [congruence|].
  exists old. split; [done|]. unfold ShouldCompactAuditFile in Hs. b2p.
  destruct Hs as [Hs|Hs]; b2p; lia.
Qed.
End Conservation.

(** ** Folding: theorems *)

Definition add_entry (b : bool) (op : string) (n : Z) (e : AuditOperationCount) : Z :=
  if String.eqb (aoc_operationId e) op then u64 (n + (if b then aoc_ok e else aoc_fail e)) else n.

Lemma count_of_merge b op l entries :
  count_of b op (merge_counts l entries) =
  foldl (add_entry b op) (count_of b op l) entries.
Proof.
  unfold merge_counts. revert l. induction entries as [|e r IH]; intros l; [done|].
  cbn [foldl]. rewrite IH, count_of_add. done.
Qed.

(** The runs of [op] with outcome [b] that the summary lines stand for. *)
Definition summary_op_count (op : string) (b : bool) (lines : list string) : Z :=
  foldl (λ n r, foldl (add_entry b op) n (asr_byOperation r)) 0 (omap ParseAuditSummaryLine lines).

Lemma fold_lines_spec lines :
  let st := fold_lines lines in
  let t := AnalyzeAuditSummaryLines lines in
  fs_before st = u64 (len lines) ∧ fs_merged st = act_ranges t ∧
  als_total (fs_summary st) = act_total t ∧ als_ok (fs_summary st) = act_ok t ∧
  als_fail (fs_summary st) = act_fail t ∧ als_unparsed (fs_summary st) = act_unparsed t ∧
  als_firstTimestamp (fs_summary st) = act_firstTimestamp t ∧
  als_lastTimestamp (fs_summary st) = act_lastTimestamp t ∧
  fs_kept st = List.filter (λ l, negb (parses_summary l)) lines ∧
  act_unparsable t = u64 (len (fs_kept st)) ∧
  ∀ op b, count_of b op (als_byOperation (fs_summary st)) = summary_op_count op b lines.
Proof.
  cbn zeta. induction lines as [|line lines IH] using rev_ind; [by split_and!|].
  destruct IH as (H1 & H2 & H3 & H4 & H5 & H6 & H7 & H8 & H9 & H10 & H11).
  unfold fold_lines, AnalyzeAuditSummaryLines in *. rewrite !foldl_app. cbn [foldl].
  unfold summary_op_count in *. rewrite omap_snoc, filter_snoc.
  set (st := foldl fold_line _ lines) in *. set (t := foldl analyze_line _ lines) in *.
  clearbody st t. unfold fold_line, analyze_line, parses_summary in *.
  destruct (ParseAuditSummaryLine line) as [r|]; cbn.
  - rewrite H1, H7, H8, (u64_succ_len lines line), app_nil_r. split_and!; try congruence.
    intros op b. rewrite count_of_merge, H11, foldl_app. done.
  - rewrite H1, H10, (u64_succ_len lines line), (u64_succ_len (fs_kept st) line), app_nil_r.
    split_and!; congruence || exact H11.
Qed.

(** *** Lines stay lines *)

Lemma no_lf_app a b : no_lf (a +:+ b) = no_lf a && no_lf b.
Proof. apply all_chars_app. Qed.

Lemma cut_no_lf pat s a b :
  cut pat s = Some (a, b) → no_lf s = true → no_lf a = true ∧ no_lf b = true.
Proof.
  intros ->%cut_spec. rewrite !no_lf_app. intros H. b2p. done.
Qed.

Lemma words_no_lf s : no_lf s = true → Forall (λ w, no_lf w = true) (words s).
Proof.
  induction s as [|c s IH]; [by repeat constructor|]. cbn [words].
  unfold no_lf at 1. rewrite all_chars_cons. intros [Hc Hs]%andb_true_iff.
  specialize (IH Hs). destruct (Ascii.eqb " " c); [by constructor|].
  destruct (words s) as [|w ws].
  - constructor; [|constructor]. unfold no_lf. by rewrite all_chars_cons, Hc.
  - inversion IH; subst. constructor; [|done]. unfold no_lf. by rewrite all_chars_cons, Hc.
Qed.

Lemma skip_field_no_lf rest key : no_lf rest = true → no_lf (skip_field rest key) = true.
Proof.
  unfold skip_field. intros H.
  destruct (cut key rest) as [[a r]|] eqn:E; [|done]. apply cut_no_lf in E as [_ E]; [|done].
  destruct (cut " " r) as [[x y]|] eqn:E2; [|done]. by apply cut_no_lf in E2 as [_ ?].
Qed.

Lemma parse_counts_no_lf tokens l :
  Forall (λ w, no_lf w = true) tokens → parse_counts tokens = Some l →
  Forall (λ e, no_lf (aoc_operationId e) = true) l.
Proof.
  intros Ht. revert l. induction Ht as [|t ts Hlf _ IH]; intros l; cbn [parse_counts].
  - by intros [= <-].
  - destruct (string_empty t); [apply IH|].
    destruct (ParseOperationCount t) as [e|] eqn:He; [|done].
    destruct (parse_counts ts) as [l'|]; [|done]. intros [= <-]. constructor; [|by apply IH].
    unfold ParseOperationCount in He. destruct (cut "=" t) as [[op r]|] eqn:Hc; [|done].
    apply cut_no_lf in Hc as [Hop _]; [|done]. split_matches; done.
Qed.

Definition record_no_lf (r : AuditSummaryRecord) : Prop :=
  no_lf (asr_firstTimestamp r) = true ∧ no_lf (asr_lastTimestamp r) = true ∧
  Forall (λ e, no_lf (aoc_operationId e) = true) (asr_byOperation r).

Lemma ParseAuditSummaryLine_no_lf line r :
  ParseAuditSummaryLine line = Some r → no_lf line = true → record_no_lf r.
Proof.
  unfold ParseAuditSummaryLine. intros Hp Hlf.
  destruct (cut _ line) as [[range fields]|] eqn:Hc; [|done].
  apply cut_no_lf in Hc as [Hr Hf]; [|done].
  destruct (parse_range range) as [[first last]|] eqn:Hrange; [|done].
  destruct (ExtractCount fields "total="), (ExtractCount fields "ok="),
    (ExtractCount fields "fail="), (ExtractCount fields "unparsed="); try done.
  destruct (parse_counts _) as [l|] eqn:Hl; [|done]. injection Hp as <-.
  assert (no_lf first = true ∧ no_lf last = true) as [? ?].
  { unfold parse_range in Hrange. destruct (string_empty range); [by injection Hrange as <- <-|].
    destruct (cut ".." range) as [[a b]|] eqn:Hd; [|done].
    apply cut_no_lf in Hd; [|done]. destruct (_ || _); [done|].
    injection Hrange as <- <-. by apply Hd. }
  split_and!; [done|done|]. eapply parse_counts_no_lf; [|exact Hl].
  apply words_no_lf. cbn [foldl]. by repeat apply skip_field_no_lf.
Qed.

Definition summary_no_lf (s : AuditLineSummary) : Prop :=
  no_lf (als_firstTimestamp s) = true ∧ no_lf (als_lastTimestamp s) = true ∧
  Forall (λ e, no_lf (aoc_operationId e) = true) (als_byOperation s).

Lemma keys_no_lf l :
  Forall (λ e, no_lf (aoc_operationId e) = true) l ↔
  Forall (λ k, no_lf k = true) (map aoc_operationId l).
Proof. induction l; cbn; rewrite ?Forall_nil, ?Forall_cons; naive_solver. Qed.

Lemma merge_counts_inv l entries :
  NoDup (map aoc_operationId l) →
  Forall (λ e, no_lf (aoc_operationId e) = true) l →
  Forall (λ e, no_lf (aoc_operationId e) = true) entries →
  NoDup (map aoc_operationId (merge_counts l entries)) ∧
  Forall (λ e, no_lf (aoc_operationId e) = true) (merge_counts l entries).
Proof.
  unfold merge_counts. intros Hnd Hl He. revert l Hnd Hl.
  induction He as [|e r He _ IH]; intros l Hnd Hl; [done|]. cbn [foldl].
  rewrite keys_no_lf in Hl. apply IH; [|apply keys_no_lf]; rewrite add_count_keys;
    case_bool_decide as Hin; try done.
  - apply NoDup_app. split; [done|]. split; [|apply NoDup_singleton].
    intros x Hx ->%list_elem_of_singleton. done.
  - apply Forall_app. split; [done|]. by constructor.
Qed.

Lemma merge_record_inv s r :
  NoDup (map aoc_operationId (als_byOperation s)) → summary_no_lf s → record_no_lf r →
  NoDup (map aoc_operationId (als_byOperation (merge_record s r))) ∧
  summary_no_lf (merge_record s r).
Proof.
  intros Hnd (H1 & H2 & H3) (H4 & H5 & H6). unfold summary_no_lf, merge_record. cbn.
  destruct (merge_counts_inv _ _ Hnd H3 H6) as [? ?].
  split; [done|]. split_and!; [| |done]; by destruct (string_empty _).
Qed.

Lemma fold_lines_inv lines :
  forallb no_lf lines = true →
  NoDup (map aoc_operationId (als_byOperation (fs_summary (fold_lines lines)))) ∧
  summary_no_lf (fs_summary (fold_lines lines)).
Proof.
  induction lines as [|line lines IH] using rev_ind.
  { intros _. split; [constructor|]. split_and!; [done|done|constructor]. }
  rewrite forallb_app. intros [Hl Hline]%andb_true_iff. cbn in Hline.
  rewrite andb_true_r in Hline. destruct (IH Hl) as [H1 H2].
  unfold fold_lines in *. rewrite foldl_app. cbn [foldl]. unfold fold_line at 1 3.
  destruct (ParseAuditSummaryLine line) as [r|] eqn:E; cbn; [|done].
  apply ParseAuditSummaryLine_no_lf in E; [|done]. by apply merge_record_inv.
Qed.

Lemma FormatAuditSummaryLine_no_lf s :
  line_summary_ok s → summary_no_lf s → no_lf (FormatAuditSummaryLine s) = true.
Proof.
  intros [[H1 _] [H2 _] [H3 _] [H4 _] Hc _] (H5 & H6 & H7).
  unfold FormatAuditSummaryLine. rewrite !no_lf_app, H5.
  assert (∀ n, 0 <= n → no_lf (to_string n) = true) as Hn by (intros; by apply to_string_lacks).
  rewrite !Hn by done.
  assert (no_lf (if string_empty (als_firstTimestamp s) then ""
                 else ".." +:+ als_lastTimestamp s) = true) as ->
    by (destruct (string_empty _); [done|]; by rewrite no_lf_app, H6).
  assert (no_lf (format_counts (als_byOperation s)) = true) as ->; [|done].
  induction Hc as [|e r (_ & _ & _ & [? _] & [? _]) _ IH]; [done|].
  inversion H7; subst. cbn [format_counts]. unfold format_count.
  rewrite !no_lf_app, !Hn, IH by done.
  match goal with H : no_lf (aoc_operationId e) = true |- _ => by rewrite H end.
Qed.

Lemma count_entries b op n l :
  NoDup (map aoc_operationId l) →
  foldl (add_entry b op) n l =
  if bool_decide (op ∈ map aoc_operationId l) then u64 (n + count_of b op l) else n.
Proof.
  revert n. induction l as [|e r IH]; intros n; cbn [foldl map count_of]; [done|].
  intros [Hne Hr]%NoDup_cons. rewrite (IH _ Hr).
  unfold add_entry.
  destruct (String.eqb_spec (aoc_operationId e) op) as [<-|He].
  - rewrite (bool_decide_eq_false_2 (aoc_operationId e ∈ map aoc_operationId r)) by done.
    rewrite bool_decide_eq_true_2; [done|]. apply elem_of_cons. by left.
  - assert (bool_decide (op ∈ aoc_operationId e :: map aoc_operationId r) =
            bool_decide (op ∈ map aoc_operationId r)) as ->; [|done].
    apply bool_decide_ext. rewrite elem_of_cons. naive_solver.
Qed.

Lemma count_of_not_in b op l : op ∉ map aoc_operationId l → count_of b op l = 0.
Proof.
  induction l as [|e r IH]; cbn; [done|]. rewrite not_elem_of_cons. intros [Hne Hr].
  rewrite (proj2 (String.eqb_neq _ _)) by congruence. by apply IH.
Qed.

Lemma count_of_range b op l : Forall count_ok l → is_u64 (count_of b op l).
Proof.
  assert (kMaxParsed < 2 ^ 64) as Hmax by done.
  induction 1 as [|e r (_ & _ & _ & [? ?] & [? ?]) _ IH]; cbn; [done|].
  destruct (String.eqb _ _); [|done]. unfold is_u64. destruct b; lia.
Qed.

Lemma unparsable_lines lines :
  omap ParseAuditSummaryLine (List.filter (λ l, negb (parses_summary l)) lines) = [].
Proof.
  induction lines as [|l lines IH]; cbn; [done|]. unfold parses_summary.
  destruct (ParseAuditSummaryLine l) eqn:E; cbn; [done|]. by rewrite E.
Qed.

Lemma analyze_unparsable t lines :
  foldl analyze_line t (List.filter (λ l, negb (parses_summary l)) lines) =
  MkTotals (act_ranges t) (act_total t) (act_ok t) (act_fail t) (act_unparsed t)
    (foldl (λ n _, u64 (n + 1)) (act_unparsable t)
       (List.filter (λ l, negb (parses_summary l)) lines))
    (act_firstTimestamp t) (act_lastTimestamp t).
Proof.
  revert t. induction lines as [|l lines IH]; intros t; cbn; [by destruct t|].
  destruct (parses_summary l) eqn:E; cbn; [apply IH|]. rewrite IH.
  unfold parses_summary in E. unfold analyze_line. by destruct (ParseAuditSummaryLine l).
Qed.

(** What is read off the lines of a summary file. *)
Definition same_totals (t1 t2 : AuditCompactionTotals) : Prop :=
  act_total t1 = act_total t2 ∧ act_ok t1 = act_ok t2 ∧ act_fail t1 = act_fail t2 ∧
  act_unparsed t1 = act_unparsed t2 ∧ act_unparsable t1 = act_unparsable t2 ∧
  act_firstTimestamp t1 = act_firstTimestamp t2 ∧ act_lastTimestamp t1 = act_lastTimestamp t2.

(** The lines a folding writes say what the lines it read said. *)
Lemma folded_lines_spec lines :
  let st := fold_lines lines in
  let new := FormatAuditSummaryLine (fs_summary st) :: fs_kept st in
  forallb no_lf lines = true →
  line_summary_ok (fs_summary st) →
  same_totals (AnalyzeAuditSummaryLines new) (AnalyzeAuditSummaryLines lines) ∧
  act_ranges (AnalyzeAuditSummaryLines new) = 1 ∧
  (∀ op b, summary_op_count op b new = summary_op_count op b lines) ∧
  forallb no_lf new = true.
Proof.
  cbn zeta. intros Hlf Hok.
  destruct (fold_lines_spec lines) as (_ & _ & H3 & H4 & H5 & H6 & H7 & H8 & H9 & H10 & H11).
  destruct (fold_lines_inv lines Hlf) as [Hnd Hs].
  pose proof (summary_line_round_trip _ Hok) as Hrt.
  set (S := fs_summary (fold_lines lines)) in *.
  assert (AnalyzeAuditSummaryLines (FormatAuditSummaryLine S :: fs_kept (fold_lines lines)) =
          MkTotals 1 (als_total S) (als_ok S) (als_fail S) (als_unparsed S)
            (u64 (len (fs_kept (fold_lines lines)))) (als_firstTimestamp S)
            (als_lastTimestamp S)) as ->.
  { unfold AnalyzeAuditSummaryLines. cbn [foldl]. rewrite H9, analyze_unparsable.
    unfold analyze_line. rewrite Hrt. cbn. rewrite (count_lines 0).
    assert (∀ n, parsed_range n → u64 n = n) as Hu.
    { intros n [? ?]. apply u64_small. assert (kMaxParsed < 2 ^ 64) by done.
      unfold is_u64. lia. }
    destruct Hok as [? ? ? ? _ _]. rewrite !Hu by done.
    by destruct (als_lastTimestamp S) eqn:E. }
  split_and!.
  - unfold same_totals. cbn. split_and!; done.
  - done.
  - intros op b. rewrite <- H11. unfold summary_op_count. cbn [omap list_omap]. rewrite Hrt.
    rewrite H9. pose proof (unparsable_lines lines) as Hun. cbn in Hun. rewrite Hun. cbn.
    rewrite count_entries by done. fold S.
    pose proof (count_of_range b op _ (lso_counts _ Hok)).
    case_bool_decide; [by rewrite u64_small|]. by rewrite count_of_not_in.
  - cbn [forallb]. rewrite FormatAuditSummaryLine_no_lf by done. cbn [andb].
    rewrite H9, forallb_forall in *. intros x [Hx _]%filter_In. by apply Hlf.
Qed.

Section Folding.
Context {W : Type} `{!SystemMessages} `{!FileSystem W} `{!FileSystemLaws W}
  `{!FileSizes W} `{!FileSizesLaws W} `{!Clock W} `{!ClockLaws W}.

Lemma AppendAuditLine_other path record w r w' q :
  AppendAuditLine path record w = (r, w') → q ≠ path → file q w' = file q w.
Proof.
  unfold AppendAuditLine. destruct (string_empty path); [by intros [= <- <-]|].
  intros [(w1 & Hw1 & Hk)|(Hw & _)]%with_parent_spec Hq; [|done].
  apply append_flushed_spec in Hk as [Hk _]. by rewrite Hk, Hw1.
Qed.

Lemma record_fold_other path o c w r w' q :
  record_fold path o c w = (r, w') → q ≠ AuditPathForSummary path →
  file q w' = file q w ∧ match r with Success c' => c' = c | Failure _ => True end.
Proof.
  unfold record_fold, mthen, mret. destruct (string_empty _); [by intros [= <- <-]|].
  destruct (AppendAuditLine _ _ w) as [r1 w1] eqn:Ha. intros E Hq.
  apply AppendAuditLine_other with (q := q) in Ha; [|done].
  destruct r1; by injection E as <- <-.
Qed.

Lemma rewrite_summary_spec path o new c w r w' :
  AuditPathForSummary path ≠ path →
  rewrite_summary path o new c w = (r, w') →
  file path w' = file path w ∧ (∃ e, r = Failure e) ∨
  file path w' = Some (unlines new) ∧ match r with Success c' => c' = c | Failure _ => True end.
Proof.
  intros Hp. pose proof (tmp_path_ne path ".tmp" ltac:(done)) as Hne.
  unfold rewrite_summary. unfold mthen at 1.
  destruct (write_temp _ _ _ _ w) as [[e|] w1] eqn:Ht; apply write_temp_spec in Ht as [Ht1 Ht2].
  { unfold mret. intros [= <- <-]. left. rewrite Ht1 by done. split; [done|]. by eexists. }
  specialize (Ht2 eq_refl). unfold mthen.
  destruct (MoveFileExW _ _ w1) as [[] w2] eqn:Hm; cbn [negb].
  - destruct (move_file _ _ _ _ Hm Hne) as [Hf _]. intros Hr. right.
    apply record_fold_other with (q := path) in Hr as [Hr1 Hr2]; [|done].
    by rewrite Hr1, Hf, Ht2.
  - intros [-> Hq]%drop_temp_spec. left. split; [|by eexists].
    by rewrite Hq, (move_file_fail _ _ _ _ path Hm), Ht1.
Qed.

Lemma FoldAuditSummaryFile_cases path o w r w' :
  FoldAuditSummaryFile path o w = (r, w') →
  (w' = w ∧ match r with Success c => folded c = false | Failure _ => True end) ∨
  ∃ old c, file path w = Some old ∧ folded c = true ∧
    let st := fold_lines (getlines old) in
    rewrite_summary path o (FormatAuditSummaryLine (fs_summary st) :: fs_kept st) c w = (r, w').
Proof.
  unfold FoldAuditSummaryFile, last_error.
  destruct (string_empty path); [intros [= <- <-]; by left|].
  destruct (is_directory path w); [intros [= <- <-]; by left|].
  destruct (negb (is_directory_ec path w =? 0)); [intros [= <- <-]; by left|].
  destruct (exists_file path w) as [[] ec]; cbn [negb];
    [|destruct (negb (ec =? 0)); intros [= <- <-]; by left].
  destruct (file_size path w) as [size ec'].
  destruct (negb (ec' =? 0)); [intros [= <- <-]; by left|].
  destruct (_ || _); [intros [= <- <-]; by left|].
  destruct (kMaxSummaryReadBytes <? size); [intros [= <- <-]; by left|].
  destruct (open_read path w) as [old|] eqn:Ho; [|intros [= <- <-]; by left].
  destruct (read_bad path w); [intros [= <- <-]; by left|].
  unfold fold_text. cbv zeta.
  destruct (fs_merged _ =? 0); [intros [= <- <-]; by left|].
  destruct (_ <=? _); [intros [= <- <-]; by left|].
  intros Hr. right. apply open_read_file in Ho. eexists old, _. split_and!; [done| |exact Hr].
  done.
Qed.

(** However a folding of the summary file ends, what is read off the file
    afterwards is what was read off it before: the totals, the time range, the
    counts of every operation and the lines that do not parse; and after a
    folding that succeeds one line carries all the counts. The merged counts
    must stay within what the reader of such a line accepts. *)
Lemma FoldAuditSummaryFile_conserves (path old : string) (o : CompactOptions) (w w' : W)
    (r : Result FoldSummaryResult) :
  AuditPathForSummary path ≠ path →
  file path w = Some old →
  line_summary_ok (fs_summary (fold_lines (getlines old))) →
  FoldAuditSummaryFile path o w = (r, w') →
  ∃ new,
    file path w' = Some new ∧
    same_totals (AnalyzeAuditSummaryLines (getlines new))
      (AnalyzeAuditSummaryLines (getlines old)) ∧
    (∀ op b, summary_op_count op b (getlines new) = summary_op_count op b (getlines old)) ∧
    List.filter (λ l, negb (parses_summary l)) (getlines new) =
      List.filter (λ l, negb (parses_summary l)) (getlines old) ∧
    match r with
    | Success c => folded c = true → act_ranges (AnalyzeAuditSummaryLines (getlines new)) = 1
    | Failure _ => True
    end.
Proof.
  intros Hp Hold Hok E.
  assert (∀ t, same_totals t t) as Hrefl by (intros t; unfold same_totals; by split_and!).
  apply FoldAuditSummaryFile_cases in E as [[-> Hr]|(old' & c & Ho & Hc & E)].
  { exists old. split_and!; [done|apply Hrefl|done|done|].
    destruct r as [c|]; [congruence|done]. }
  assert (old' = old) as -> by congruence.
  apply rewrite_summary_spec in E as [[E (e & ->)]|[E Hr]]; [|..|done].
  { exists old. rewrite E. split_and!; [done|apply Hrefl|done..]. }
  destruct (folded_lines_spec (getlines old) (getlines_no_lf old) Hok) as (H1 & H2 & H3 & H4).
  eexists. split; [exact E|]. rewrite getlines_unlines by exact H4.
  split_and!; [exact H1|exact H3| |by destruct r].
  destruct (fold_lines_spec (getlines old)) as (_ & _ & _ & _ & _ & _ & _ & _ & H9 & _).
  cbn [List.filter]. unfold parses_summary at 1.
  rewrite (summary_line_round_trip _ Hok). cbn [negb]. by rewrite H9, filter_idem.
Qed.
End Folding.

(** ** Examples *)

#[export] Instance mem_clock : Clock MemFs := {|
  localtime _ := Some (MkTm 125 0 31 23 59 58);
  steady_clock _ := 1000
|}.

#[export] Program Instance mem_clock_laws : ClockLaws MemFs.
Next Obligation. intros w. cbn. unfold tm_ok. cbn. lia. Qed.

#[local] Instance quiet : SystemMessages := no_messages.

Definition sample_path : string := "logs\audit.log".

Definition sample_record (op : string) (ok : bool) : AuditRecord :=
  MkAuditRecord op RiskLevel.R1 "policy" "game" "x" ok 0.

(** Six audited actions, one of them in a line cut short. *)
Definition sample_lines : list string :=
  map (λ r, FormatAuditLineAscii (localtime empty_fs) r)
    [sample_record "priority.boost" true; sample_record "power.release" false;
     sample_record "priority.boost" true; sample_record "priority.boost" false] ++
  ["2025-01-31 23:59"] ++
  map (λ r, FormatAuditLineAscii (localtime empty_fs) r)
    [sample_record "power.release" true].

Definition sample_fs (ro : list string) : MemFs :=
  MkMemFs {[ sample_path := unlines sample_lines ]} ro.

Definition sample_options : CompactOptions := MkCompactOptions 0 4 1 100.

Lemma sample_distinct : distinct_paths sample_path.
Proof. by split; vm_compute. Qed.

Example ReadAuditTail_spec_witness :
  ∃ tail, ReadAuditTail sample_path 2 (sample_fs []) = Success tail ∧
          tail_lines tail = last_n 2 (map shorten (getlines (unlines sample_lines))).
Proof.
  assert (∃ tail, ReadAuditTail sample_path 2 (sample_fs []) = Success tail) as [tail Ht]
    by (vm_compute; by eexists).
  exists tail. split; [exact Ht|].
  exact (proj2 (ReadAuditTail_spec sample_path 2 (sample_fs []) tail ltac:(lia) Ht)).
Defined.

Definition sample_log : AuditLog := MkAuditLog 2 true sample_path [].

Example AuditLog_refines_history_witness :
  let rs := [sample_record "a" true; sample_record "b" true; sample_record "c" false] in
  map ar_operationId (Records (append_all rs (sample_log, sample_fs [])).2.1) = ["b"; "c"].
Proof.
  cbn zeta. destruct (append_all _ _) as [acc [l' w']] eqn:E.
  pose proof (AuditLog_refines_history _ acc [] sample_log l' (sample_fs []) w'
    ltac:(done) eq_refl E) as [H _].
  cbn [snd fst]. rewrite H. vm_compute in E. injection E as <- _ _. reflexivity.
Defined.

Example CompactAuditFile_atomic_witness :
  let w := sample_fs [sample_path] in
  file sample_path (CompactAuditFile sample_path sample_options w).2 = file sample_path w.
Proof.
  pose proof (CompactAuditFile_atomic sample_path sample_options (sample_fs [sample_path])
    sample_distinct) as H.
  cbn zeta. destruct (CompactAuditFile _ _ _) as [r w'] eqn:E.
  assert (∃ e, r = Failure e) as [e ->] by (vm_compute in E; injection E as <- _; by eexists).
  exact (proj1 H).
Defined.

Example CompactAuditFile_conserves_witness :
  ∃ c w', CompactAuditFile sample_path sample_options (sample_fs []) = (Success c, w') ∧
    ∃ S retained,
      file (AuditSummaryPath sample_path) w' =
        Some (FormatAuditSummaryLine S +:+ String LF "") ∧
      (∀ op b, op_count op b (getlines (unlines sample_lines)) =
               count_of b op (als_byOperation S) + op_count op b retained) ∧
      len (getlines (unlines sample_lines)) = als_total S + len retained.
Proof.
  destruct (CompactAuditFile sample_path sample_options (sample_fs [])) as [r w'] eqn:E.
  assert (∃ c, r = Success c ∧ compacted c = true) as (c & -> & Hc)
    by (vm_compute in E; injection E as <- _; by eexists).
  exists c, w'. split; [done|].
  destruct (CompactAuditFile_conserves _ _ _ _ _ sample_distinct E Hc)
    as (old & new & S & self & retained & Ho & _ & _ & H2 & H3 & _ & H4 & _).
  assert (old = unlines sample_lines) as -> by (vm_compute in Ho |- *; congruence).
  exists S, retained. split_and!; [|exact H3|exact H4]. exact H2.
Defined.

Example byte_threshold_unreachable_witness :
  let o := MkCompactOptions (10 * 1024 * 1024) 4 1 100 in
  ∃ c w', CompactAuditFile sample_path o (sample_fs []) = (Success c, w') ∧
          ∃ old, file sample_path (sample_fs []) = Some old ∧ 0 < 4 <= len (getlines old).
Proof.
  cbn zeta. destruct (CompactAuditFile sample_path _ (sample_fs [])) as [r w'] eqn:E.
  assert (∃ c, r = Success c ∧ compacted c = true) as (c & -> & Hc)
    by (vm_compute in E; injection E as <- _; by eexists).
  exists c, w'. split; [done|].
  exact (byte_threshold_unreachable sample_path (MkCompactOptions (10 * 1024 * 1024) 4 1 100)
    (sample_fs []) w' c ltac:(vm_compute; reflexivity) E Hc).
Defined.

Definition sample_summary : string := "logs\audit-summary.log".

Definition sample_summary_lines : list string :=
  ["2025-01-01 00:00:00..2025-01-02 00:00:00 [audit-summary] total=3 ok=2 fail=1 unparsed=0 a=2/0 b=0/1";
   "torn";
   "2025-01-02 00:00:00..2025-01-03 00:00:00 [audit-summary] total=2 ok=2 fail=0 unparsed=1 b=1/0 c=1/0"].

Definition summary_fs : MemFs :=
  MkMemFs {[ sample_summary := unlines sample_summary_lines ]} [].

Lemma sample_merged_ok :
  line_summary_ok (fs_summary (fold_lines (getlines (unlines sample_summary_lines)))).
Proof.
  assert (fs_summary (fold_lines (getlines (unlines sample_summary_lines))) =
    MkLineSummary 5 4 1 1 [MkCount "a" 2 0; MkCount "b" 1 1; MkCount "c" 1 0]
      "2025-01-01 00:00:00" "2025-01-03 00:00:00") as -> by (vm_compute; reflexivity).
  assert (∀ n, 0 <= n <= 5 → parsed_range n) as Hn.
  { intros n Hn. assert (5 <= kMaxParsed) by (vm_compute; discriminate).
    unfold parsed_range. lia. }
  split; cbn; try (apply Hn; lia).
  - repeat apply Forall_cons_2; [..|constructor]; unfold count_ok; cbn;
      (split_and!; [done|reflexivity|reflexivity|apply Hn; lia|apply Hn; lia]).
  - right. by repeat split.
Qed.

Example FoldAuditSummaryFile_conserves_witness :
  ∃ new, file sample_summary (FoldAuditSummaryFile sample_summary sample_options summary_fs).2
         = Some new ∧
         same_totals (AnalyzeAuditSummaryLines (getlines new))
           (AnalyzeAuditSummaryLines sample_summary_lines).
Proof.
  destruct (FoldAuditSummaryFile _ _ _) as [r w'] eqn:E.
  destruct (FoldAuditSummaryFile_conserves sample_summary (unlines sample_summary_lines)
    sample_options summary_fs w' r ltac:(vm_compute; discriminate) ltac:(reflexivity) sample_merged_ok E)
    as (new & H1 & H2 & _).
  exists new. split; [exact H1|]. exact H2.
Defined.

(** A system that does not tell the size of any file. *)
Module Denied.
#[local] Instance denied_sizes : FileSizes MemFs := {|
  is_directory_ec _ _ := 0;
  file_size _ _ := (0, 5);
  read_bad _ _ := false;
  resize_file := @resize_file MemFs mem_sizes
|}.

#[local] Instance denied_sizes_laws : FileSizesLaws MemFs.
Proof.
  split.
  - apply (@exists_file_some _ _ _ mem_sizes mem_sizes_laws).
  - by intros p w n t [= _ ?].
  - apply (@resize_file_file _ _ _ mem_sizes mem_sizes_laws).
  - apply (@resize_file_fail _ _ _ mem_sizes mem_sizes_laws).
  - apply (@resize_file_other _ _ _ mem_sizes mem_sizes_laws).
Qed.

Definition stuck_fs : MemFs :=
  MkMemFs {[ sample_path := "new"; sample_summary := "old counts" ]} [sample_path].

Example rollback_erases_summary_witness :
  ∃ e w', replace_audit sample_path (sample_path +:+ ".tmp") (AuditSummaryPath sample_path)
            (summary_size (AuditSummaryPath sample_path) stuck_fs)
            (MkCompactResult true 0 0 0 0 "") stuck_fs = (Failure e, w') ∧
          file (AuditSummaryPath sample_path) w' = Some "".
Proof.
  destruct (replace_audit _ _ _ _ _ _) as [r w'] eqn:E.
  assert (∃ e, r = Failure e) as [e ->] by (vm_compute in E; injection E as <- _; by eexists).
  exists e, w'. split; [done|].
  refine (rollback_erases_summary sample_path "old counts" _ stuck_fs stuck_fs w' e
    sample_distinct _ _ _ _ E).
  - reflexivity.
  - vm_compute. discriminate.
  - reflexivity.
  - intros v [t Ht]. cbn in Ht |- *. by rewrite Ht.
Defined.
End Denied.
