(* ===== verification/IpcProtocol.v ===== *)
(** The frame header of the named-pipe protocol ([ipc/ipc_protocol.hpp],
    [source/ipc/ipc_protocol.cpp]): a fixed 16-byte little-endian layout whose
    every field is checked before a frame is used. *)

From S2P Require Import Prelude CommonError.

Open Scope string_scope.
Open Scope list_scope.
Open Scope Z_scope.

(** ** Data *)

Definition kIpcMagic : Z := 0x43504F50.
Definition kIpcVersion : Z := 1.
Definition kMaxPayloadLength : Z := 4096.
Definition kIpcHeaderSize : nat := 16.

Module IpcMessageType.
Inductive IpcMessageType := Ping | Ack | FactsSnapshot | Error.
End IpcMessageType.
Abbreviation IpcMessageType := IpcMessageType.IpcMessageType.

#[export] Instance IpcMessageType_eq_dec : EqDecision IpcMessageType.
Proof. solve_decision. Defined.

(** The enumerators' values. *)
Definition type_value (t : IpcMessageType) : Z :=
  match t with
  | IpcMessageType.Ping => 0x01
  | IpcMessageType.Ack => 0x02
  | IpcMessageType.FactsSnapshot => 0x03
  | IpcMessageType.Error => 0x04
  end.

Definition MessageTypeToString (t : IpcMessageType) : string :=
  match t with
  | IpcMessageType.Ping => "Ping"
  | IpcMessageType.Ack => "Ack"
  | IpcMessageType.FactsSnapshot => "FactsSnapshot"
  | IpcMessageType.Error => "Error"
  end.

Definition ParseMessageType (value : Z) : option IpcMessageType :=
  if value =? type_value IpcMessageType.Ping then Some IpcMessageType.Ping
  else if value =? type_value IpcMessageType.Ack then Some IpcMessageType.Ack
  else if value =? type_value IpcMessageType.FactsSnapshot
       then Some IpcMessageType.FactsSnapshot
  else if value =? type_value IpcMessageType.Error then Some IpcMessageType.Error
  else None.

Record IpcHeader := MkIpcHeader {
  magic : Z;
  version : Z;
  type : Z;
  reserved : Z;
  payloadLength : Z;
  requestId : Z
}.

(** The integer types of the struct's fields. *)
Definition header_in_range (h : IpcHeader) : Prop :=
  is_u32 (magic h) ∧ is_u8 (version h) ∧ is_u8 (type h) ∧ is_u16 (reserved h) ∧
  is_u32 (payloadLength h) ∧ is_u32 (requestId h).

(** ** Operations *)

Definition byte_of_Z (z : Z) : byte := byte_of_ascii (ascii_of_N (Z.to_N (u8 z))).
Definition Z_of_byte (b : byte) : Z := Z.of_N (N_of_ascii (ascii_of_byte b)).

Definition byte_at (bytes : list byte) (i : nat) : Z :=
  match bytes !! i with Some b => Z_of_byte b | None => 0 end.

(** [value |= bytes[offset + i] << (8 * i)] for [i] from 0 to 3. *)
Definition ReadU32LE (bytes : list byte) (offset : nat) : Z :=
  foldl (λ value i, Z.lor value
                      (u32 (Z.shiftl (byte_at bytes (offset + i)) (8 * Z.of_nat i))))
        0 (seq 0 4).

(** [out[i] = (value >> (8 * i)) & 0xFF] for [i] from 0 to 3. *)
Definition WriteU32LE (value : Z) : list byte :=
  map (λ i, byte_of_Z (Z.land (Z.shiftr value (8 * Z.of_nat i)) 0xFF)) (seq 0 4).

Definition MakeIpcHeader (t : IpcMessageType) (length request : Z) : IpcHeader :=
  MkIpcHeader kIpcMagic kIpcVersion (type_value t) 0 length request.

Definition ValidateIpcHeader (h : IpcHeader) : Result unit :=
  if negb (magic h =? kIpcMagic) then
    Failure (Validation "ValidateIpcHeader" "帧魔数不匹配，拒绝")
  else if negb (version h =? kIpcVersion) then
    Failure (Validation "ValidateIpcHeader" "不支持的协议版本")
  else match ParseMessageType (type h) with
  | None => Failure (Validation "ValidateIpcHeader" "未知消息类型，拒绝")
  | Some _ =>
      if negb (reserved h =? 0) then
        Failure (Validation "ValidateIpcHeader" "预留字段非零，拒绝")
      else if kMaxPayloadLength <? payloadLength h then
        Failure (Validation "ValidateIpcHeader" "载荷超过上限")
      else Success tt
  end.

Definition SerializeHeader (h : IpcHeader) : list byte :=
  WriteU32LE (magic h) ++
  [byte_of_Z (version h); byte_of_Z (type h);
   byte_of_Z (Z.land (reserved h) 0xFF);
   byte_of_Z (Z.land (Z.shiftr (reserved h) 8) 0xFF)] ++
  WriteU32LE (payloadLength h) ++ WriteU32LE (requestId h).

Definition ParseHeader (bytes : list byte) : Result IpcHeader :=
  if negb (Nat.eqb (length bytes) kIpcHeaderSize) then
    Failure (Validation "ParseHeader" "帧头长度必须为 16 字节")
  else
    let header := {|
      magic := ReadU32LE bytes 0;
      version := byte_at bytes 4;
      type := byte_at bytes 5;
      reserved := u16 (Z.lor (byte_at bytes 6) (Z.shiftl (byte_at bytes 7) 8));
      payloadLength := ReadU32LE bytes 8;
      requestId := ReadU32LE bytes 12
    |} in
    match ValidateIpcHeader header with
    | Failure e => Failure e
    | Success _ => Success header
    end.

(** ** Bytes and words *)

Lemma Z_of_byte_range b : is_u8 (Z_of_byte b).
Proof. apply code_range. Qed.

Lemma Z_of_byte_of_Z z : Z_of_byte (byte_of_Z z) = u8 z.
Proof.
  unfold Z_of_byte, byte_of_Z. rewrite ascii_of_byte_of_ascii.
  pose proof (Z.mod_pos_bound z (2 ^ 8) ltac:(lia)). unfold u8.
  rewrite N_ascii_embedding by lia. lia.
Qed.

Lemma byte_of_Z_of_byte b : byte_of_Z (Z_of_byte b) = b.
Proof.
  unfold byte_of_Z. rewrite u8_small by apply Z_of_byte_range.
  unfold Z_of_byte. rewrite N2Z.id, ascii_N_embedding.
  apply byte_of_ascii_of_byte.
Qed.

Lemma land_byte z : Z.land z 0xFF = z mod 2 ^ 8.
Proof. change 0xFF with (Z.ones 8). by rewrite Z.land_ones. Qed.

Lemma byte_at_app pre l i : byte_at (pre ++ l) (length pre + i) = byte_at l i.
Proof.
  unfold byte_at. rewrite lookup_app_r by lia.
  by replace (length pre + i - length pre)%nat with i by lia.
Qed.

Lemma ReadU32LE_bytes pre b0 b1 b2 b3 post :
  ReadU32LE (pre ++ [b0; b1; b2; b3] ++ post) (length pre) =
  Z_of_byte b0 + Z_of_byte b1 * 2 ^ 8 + Z_of_byte b2 * 2 ^ 16 + Z_of_byte b3 * 2 ^ 24.
Proof.
  unfold ReadU32LE. cbn [foldl seq]. rewrite !byte_at_app.
  cbn [byte_at lookup list_lookup app].
  pose proof (Z_of_byte_range b0) as H0. pose proof (Z_of_byte_range b1) as H1.
  pose proof (Z_of_byte_range b2) as H2. pose proof (Z_of_byte_range b3) as H3.
  unfold is_u8 in *.
  change (8 * Z.of_nat 0) with 0. change (8 * Z.of_nat 1) with 8.
  change (8 * Z.of_nat 2) with 16. change (8 * Z.of_nat 3) with 24.
  rewrite Z.shiftl_0_r.
  rewrite !u32_small
    by (unfold is_u32; rewrite ?Z.shiftl_mul_pow2 by lia; lia).
  rewrite Z.lor_0_l, (lor_shiftl_add _ _ 8) by lia.
  rewrite (lor_shiftl_add _ _ 16), (lor_shiftl_add _ _ 24) by lia. done.
Qed.

Lemma WriteU32LE_length v : length (WriteU32LE v) = 4%nat.
Proof. done. Qed.

Lemma WriteU32LE_bytes v :
  WriteU32LE v = [byte_of_Z v; byte_of_Z (v / 2 ^ 8);
                  byte_of_Z (v / 2 ^ 16); byte_of_Z (v / 2 ^ 24)].
Proof.
  unfold WriteU32LE. cbn [map seq]. rewrite !land_byte.
  change (8 * Z.of_nat 0) with 0. change (8 * Z.of_nat 1) with 8.
  change (8 * Z.of_nat 2) with 16. change (8 * Z.of_nat 3) with 24.
  rewrite Z.shiftr_0_r, !Z.shiftr_div_pow2 by lia.
  unfold byte_of_Z, u8. by rewrite !Z.mod_mod.
Qed.

Lemma Read_Write_U32LE pre v post :
  is_u32 v → ReadU32LE (pre ++ WriteU32LE v ++ post) (length pre) = v.
Proof.
  intros Hv. rewrite WriteU32LE_bytes, ReadU32LE_bytes, !Z_of_byte_of_Z.
  unfold u8, is_u32 in *.
  change (2 ^ 8) with 256. change (2 ^ 16) with 65536. change (2 ^ 24) with 16777216.
  Z.div_mod_to_equations. lia.
Qed.

Lemma byte_of_Z_eq z b : u8 z = Z_of_byte b → byte_of_Z z = b.
Proof.
  intros E. rewrite <- (byte_of_Z_of_byte b), <- E. unfold byte_of_Z, u8.
  by rewrite Z.mod_mod.
Qed.

Lemma Write_Read_U32LE b0 b1 b2 b3 :
  WriteU32LE (Z_of_byte b0 + Z_of_byte b1 * 2 ^ 8 + Z_of_byte b2 * 2 ^ 16 +
              Z_of_byte b3 * 2 ^ 24) = [b0; b1; b2; b3].
Proof.
  pose proof (Z_of_byte_range b0) as H0. pose proof (Z_of_byte_range b1) as H1.
  pose proof (Z_of_byte_range b2) as H2. pose proof (Z_of_byte_range b3) as H3.
  rewrite WriteU32LE_bytes. unfold is_u8 in *.
  repeat match goal with |- _ :: _ = _ :: _ => f_equal end.
  all: apply byte_of_Z_eq; unfold u8.
  all: try done.
  all: change (2 ^ 8) with 256 in *; change (2 ^ 16) with 65536;
    change (2 ^ 24) with 16777216; Z.div_mod_to_equations; lia.
Qed.

Lemma ReadU32LE_range bytes o : is_u32 (ReadU32LE bytes o).
Proof.
  unfold ReadU32LE, is_u32. cbn [foldl seq].
  assert (∀ a x, 0 <= a < 2 ^ 32 → 0 <= Z.lor a (u32 x) < 2 ^ 32) as Hlor.
  { intros a x Ha. pose proof (u32_range x) as Hx. unfold is_u32 in Hx.
    split; [apply Z.lor_nonneg; lia|].
    destruct (Z.eq_dec (Z.lor a (u32 x)) 0) as [->|Hne]; [lia|].
    assert (0 <= Z.lor a (u32 x)) by (apply Z.lor_nonneg; lia).
    apply Z.log2_lt_pow2; [lia|]. rewrite Z.log2_lor by lia.
    apply Z.max_lub_lt.
    - destruct (Z.eq_dec a 0) as [->|]; [done|]. apply Z.log2_lt_pow2; lia.
    - destruct (Z.eq_dec (u32 x) 0) as [->|]; [done|]. apply Z.log2_lt_pow2; lia. }
  do 4 apply Hlor. lia.
Qed.

Lemma byte_at_range bytes i : is_u8 (byte_at bytes i).
Proof. unfold byte_at. destruct (bytes !! i); [apply Z_of_byte_range|done]. Qed.

(** ** Headers *)

Lemma ParseMessageType_Some v t : ParseMessageType v = Some t ↔ v = type_value t.
Proof.
  unfold ParseMessageType. split.
  - intros H. split_matches; b2p; done.
  - intros ->. by destruct t.
Qed.

Lemma ValidateIpcHeader_Success h :
  ValidateIpcHeader h = Success tt ↔
  magic h = kIpcMagic ∧ version h = kIpcVersion ∧ is_Some (ParseMessageType (type h)) ∧
  reserved h = 0 ∧ payloadLength h <= kMaxPayloadLength.
Proof.
  unfold ValidateIpcHeader. split.
  - intros H. split_matches; b2p. repeat split; try done; by eexists.
  - intros (-> & -> & [t Ht] & -> & Hl). rewrite Ht. cbn.
    by rewrite (proj2 (Z.ltb_ge _ _)).
Qed.

Lemma SerializeHeader_length h : length (SerializeHeader h) = kIpcHeaderSize.
Proof. done. Qed.

Lemma list16 (bytes : list byte) :
  length bytes = kIpcHeaderSize →
  ∃ b0 b1 b2 b3 b4 b5 b6 b7 b8 b9 b10 b11 b12 b13 b14 b15,
    bytes = [b0; b1; b2; b3; b4; b5; b6; b7; b8; b9; b10; b11; b12; b13; b14; b15].
Proof.
  intros H. do 16 (destruct bytes as [|? bytes]; [done|]).
  destruct bytes; [|done]. by repeat eexists.
Qed.

(** What [ParseHeader] reads from a header's serialized form. *)
Lemma ParseHeader_Serialize h :
  header_in_range h →
  ParseHeader (SerializeHeader h) =
  match ValidateIpcHeader h with Failure e => Failure e | Success _ => Success h end.
Proof.
  intros (Hm & Hv & Ht & Hr & Hp & Hq). unfold ParseHeader.
  rewrite SerializeHeader_length. cbn [Nat.eqb kIpcHeaderSize negb].
  set (hdr := MkIpcHeader _ _ _ _ _ _). assert (hdr = h) as ->; [|done].
  destruct h as [m v t r p q]; cbn in Hm, Hv, Ht, Hr, Hp, Hq. subst hdr.
  unfold SerializeHeader. cbn [magic version type reserved payloadLength requestId].
  f_equal.
  - by apply (Read_Write_U32LE []).
  - cbn [byte_at lookup list_lookup app WriteU32LE map seq].
    by rewrite Z_of_byte_of_Z, u8_small.
  - cbn [byte_at lookup list_lookup app WriteU32LE map seq].
    by rewrite Z_of_byte_of_Z, u8_small.
  - cbn [byte_at lookup list_lookup app WriteU32LE map seq].
    rewrite !Z_of_byte_of_Z, !land_byte, Z.shiftr_div_pow2 by lia.
    unfold u8. rewrite !Z.mod_mod by done.
    rewrite lor_shiftl_add by (try apply Z.mod_pos_bound; lia).
    unfold u16, is_u16 in *. Z.div_mod_to_equations. lia.
  - apply (Read_Write_U32LE (WriteU32LE m ++ [_; _; _; _])); done.
  - rewrite <- (app_nil_r (WriteU32LE q)).
    apply (Read_Write_U32LE (WriteU32LE m ++ [_; _; _; _] ++ WriteU32LE p)); done.
Qed.

Lemma SerializeHeader_Parse bytes h :
  ParseHeader bytes = Success h → SerializeHeader h = bytes ∧ header_in_range h.
Proof.
  intros H. unfold ParseHeader in H.
  destruct (Nat.eqb (length bytes) kIpcHeaderSize) eqn:Hl; [|done]. cbn [negb] in H.
  apply Nat.eqb_eq in Hl.
  destruct (ValidateIpcHeader _) eqn:Hv; [|done]. injection H as <-.
  split.
  - destruct (list16 _ Hl) as (b0&b1&b2&b3&b4&b5&b6&b7&b8&b9&b10&b11&b12&b13&b14&b15&->).
    unfold SerializeHeader. cbn [magic version type reserved payloadLength requestId].
    pose proof (ReadU32LE_bytes [] b0 b1 b2 b3
                  [b4;b5;b6;b7;b8;b9;b10;b11;b12;b13;b14;b15]) as R0.
    pose proof (ReadU32LE_bytes [b0;b1;b2;b3;b4;b5;b6;b7] b8 b9 b10 b11
                  [b12;b13;b14;b15]) as R8.
    pose proof (ReadU32LE_bytes [b0;b1;b2;b3;b4;b5;b6;b7;b8;b9;b10;b11]
                  b12 b13 b14 b15 []) as R12.
    cbn [app length] in R0, R8, R12. rewrite R0, R8, R12.
    rewrite !Write_Read_U32LE. cbn [byte_at lookup list_lookup app].
    rewrite !byte_of_Z_of_byte.
    pose proof (Z_of_byte_range b6). pose proof (Z_of_byte_range b7). unfold is_u8 in *.
    rewrite lor_shiftl_add by lia.
    rewrite u16_small by (unfold is_u16; lia).
    rewrite !land_byte, Z.shiftr_div_pow2 by lia.
    rewrite (byte_of_Z_eq _ b6), (byte_of_Z_eq _ b7); [done| |];
      unfold u8; change (2 ^ 8) with 256 in *; Z.div_mod_to_equations; lia.
  - unfold header_in_range. cbn [magic version type reserved payloadLength requestId].
    eauto 10 using ReadU32LE_range, byte_at_range, u16_range.
Qed.

(** [ParseHeader] accepts exactly the serialized forms of well-formed
    headers: 16 bytes that carry the magic, version 1, a known message type, a
    zero reserved field and a payload length within the limit. So parsing and
    serializing a header are inverse to each other, no two byte strings parse to
    the same header, and every other byte string is refused. *)
Lemma ParseHeader_iff (bytes : list byte) (h : IpcHeader) :
  ParseHeader bytes = Success h ↔
  bytes = SerializeHeader h ∧ header_in_range h ∧
  magic h = kIpcMagic ∧ version h = kIpcVersion ∧
  (∃ t, type h = type_value t) ∧ reserved h = 0 ∧ payloadLength h <= kMaxPayloadLength.
Proof.
  split.
  - intros H. destruct (SerializeHeader_Parse _ _ H) as [<- Hr].
    rewrite ParseHeader_Serialize in H by done.
    destruct (ValidateIpcHeader h) as [[]|] eqn:Hv; [|done].
    apply ValidateIpcHeader_Success in Hv as (? & ? & [t Ht%ParseMessageType_Some] & ? & ?).
    repeat (split; [by auto|]). split; [by exists t|done].
  - intros (-> & Hr & Hm & Hv & [t Ht] & Hz & Hl).
    rewrite ParseHeader_Serialize by done.
    rewrite (proj2 (ValidateIpcHeader_Success h)); [done|].
    repeat (split; [by auto|]). split; [|done].
    exists t. by apply ParseMessageType_Some.
Qed.

(** The headers the program itself builds. *)
Lemma MakeIpcHeader_valid t n r :
  0 <= n <= kMaxPayloadLength → is_u32 r →
  ParseHeader (SerializeHeader (MakeIpcHeader t n r)) = Success (MakeIpcHeader t n r).
Proof.
  unfold kMaxPayloadLength. intros Hn Hr.
  rewrite ParseHeader_Serialize.
  - rewrite (proj2 (ValidateIpcHeader_Success _)); [done|].
    cbn. repeat split; try done; [|unfold kMaxPayloadLength; lia].
    exists t. by apply ParseMessageType_Some.
  - unfold header_in_range, is_u32, is_u16, is_u8 in *; cbn.
    repeat split; try lia; by destruct t.
Qed.

#[export] Hint Resolve Z_of_byte_range byte_at_range ReadU32LE_range : optimizer.
