(* ===== verification/IpcFacts.v ===== *)
(** The structured payload of a FactsSnapshot frame ([ipc/ipc_facts.hpp],
    [source/ipc/ipc_facts.cpp]): the CPOPFACTS/1 text, its strict parser, the
    matching serializer, the v1 key schema and the summary a server echoes. *)

From S2P Require Import Prelude CommonError IpcProtocol.

Open Scope string_scope.
Open Scope list_scope.
Open Scope Z_scope.

(** ** Data *)

Definition kFactsEnvelopeV1 : string := "CPOPFACTS/1".
Definition kFactsTokenKey : string := "agent_token".
Definition kMaxFactsTokenBytes : Z := 64.
Definition kMaxFactsEntries : Z := 64.
Definition kMaxFactsKeyBytes : Z := 64.
Definition kMaxFactsValueBytes : Z := 128.
Definition kFactsSummaryMaxBytes : Z := 480.

Record IpcFact := MkFact { key : string; value : string }.

#[export] Instance IpcFact_eq_dec : EqDecision IpcFact.
Proof. solve_decision. Defined.

(** ** Helpers *)

Definition IsAsciiKeyChar (c : ascii) : bool :=
  is_alnum c || Ascii.eqb c "_" || Ascii.eqb c "-".

Definition HasControlByte (text : string) : bool := any_char is_control text.

Definition BytesFromText (text : string) : list byte := list_byte_of_string text.

(** A message on failure, as in the source. *)
Definition ValidateKey (k : string) : option string :=
  if string_empty k then Some "键为空"
  else if kMaxFactsKeyBytes <? strlen k then Some "键超过长度上限"
  else if HasControlByte k then Some "键含控制字符"
  else if negb (all_chars IsAsciiKeyChar k)
       then Some "键含非法字符（仅 ASCII 字母/数字/_/-）"
  else None.

Definition ValidateValue (v : string) : option string :=
  if kMaxFactsValueBytes <? strlen v then Some "值超过长度上限"
  else if HasControlByte v then Some "值含控制字符"
  else None.

Definition has_key (k : string) (facts : list IpcFact) : bool :=
  existsb (λ f, String.eqb (key f) k) facts.

(** The loop of [ValidateFacts]; [before] holds the facts already visited. *)
Fixpoint ValidateFacts_loop (before facts : list IpcFact) : option string :=
  match facts with
  | [] => None
  | f :: rest =>
      match ValidateKey (key f) with
      | Some e => Some e
      | None =>
          match ValidateValue (value f) with
          | Some e => Some e
          | None =>
              if has_key (key f) before then Some ("重复键 " +:+ key f)
              else ValidateFacts_loop (before ++ [f]) rest
          end
      end
  end.

Definition ValidateFacts (facts : list IpcFact) : option string :=
  if kMaxFactsEntries <? len facts then Some "事实条数超过上限"
  else ValidateFacts_loop [] facts.

(** [acc] is 64 bits wide and stays within 32 between iterations. *)
Fixpoint ParseUint32_loop (acc : Z) (text : string) : option Z :=
  match text with
  | EmptyString => Some acc
  | String c text' =>
      if negb (is_digit c) then None
      else
        let acc' := u64 (acc * 10 + digit_value c) in
        if UINT32_MAX <? acc' then None else ParseUint32_loop acc' text'
  end.

Definition ParseUint32 (text : string) : option Z :=
  if string_empty text then None else ParseUint32_loop 0 text.

Definition FactsValidationError (msg : string) : Error := Validation "FactsV1" msg.

(** ** Parsing *)

(** The fact lines, in order; [facts] holds those already accepted. *)
Fixpoint ParseFacts_lines (facts : list IpcFact) (lines : list string)
  : Result (list IpcFact) :=
  match lines with
  | [] => Success facts
  | line :: rest =>
      if kMaxFactsEntries <=? len facts then
        Failure (FactsValidationError "事实条数超过上限")
      else match cut "=" line with
      | None => Failure (FactsValidationError "事实行缺少 '='")
      | Some (k, v) =>
          match ValidateKey k with
          | Some e => Failure (FactsValidationError e)
          | None =>
              match ValidateValue v with
              | Some e => Failure (FactsValidationError e)
              | None =>
                  if has_key k facts then Failure (FactsValidationError "重复键")
                  else ParseFacts_lines (facts ++ [MkFact k v]) rest
              end
          end
      end
  end.

Definition ParseFactsV1 (payload : list byte) : Result (list IpcFact) :=
  match payload with
  | [] => Failure (FactsValidationError "空载荷")
  | _ =>
      let text := string_of_list_byte payload in
      if any_char (Ascii.eqb CR) text then
        Failure (FactsValidationError "载荷含 CR（行尾只允许 LF）")
      else
        let lines := split_lf text in
        if existsb string_empty lines then
          Failure (FactsValidationError "载荷含空行或尾随换行")
        else match lines with
        | front :: rest =>
            if negb (String.eqb front kFactsEnvelopeV1) then
              Failure (FactsValidationError "首行信封必须为 CPOPFACTS/1")
            else ParseFacts_lines [] rest
        | [] => Failure (FactsValidationError "首行信封必须为 CPOPFACTS/1")
        end
  end.

(** ** Serializing *)

Definition fact_line (f : IpcFact) : string := key f +:+ "=" +:+ value f.

Fixpoint append_facts (text : string) (facts : list IpcFact) : string :=
  match facts with
  | [] => text
  | f :: rest => append_facts (text +:+ String LF (fact_line f)) rest
  end.

Definition SerializeFactsV1 (facts : list IpcFact) : Result (list byte) :=
  match ValidateFacts facts with
  | Some e => Failure (FactsValidationError e)
  | None => Success (BytesFromText (append_facts kFactsEnvelopeV1 facts))
  end.

(** ** Summary, values and schema *)

Definition is_token (f : IpcFact) : bool := String.eqb (key f) kFactsTokenKey.

Fixpoint summary_loop (out : string) (facts : list IpcFact) : string :=
  match facts with
  | [] => out
  | f :: rest =>
      if is_token f then summary_loop out rest
      else
        let entry := String " " (fact_line f) in
        if kFactsSummaryMaxBytes <? strlen out + strlen entry + 3
        then out +:+ " …"
        else
          let out' := out +:+ entry in
          match rest with [] => out' | _ => summary_loop out' rest end
  end.

Definition FormatFactsSummary (facts : list IpcFact) : string :=
  let echoable := len (filter (λ f, is_token f = false) facts) in
  let out := "facts ok (" +:+ to_string echoable +:+ ")" in
  if echoable =? 0 then out else summary_loop (out +:+ ":") facts.

Fixpoint NumericFactValue (facts : list IpcFact) (k : string) : option Z :=
  match facts with
  | [] => None
  | f :: rest =>
      if negb (String.eqb (key f) k) then NumericFactValue rest k
      else ParseUint32 (value f)
  end.

Definition known_numeric (k : string) : bool :=
  String.eqb k "client_pid" || String.eqb k "memory_total_mb" ||
  String.eqb k "memory_available_mb" || String.eqb k "memory_load_percent" ||
  String.eqb k "user_idle_seconds" || String.eqb k "foreground_pid".

(** The local variables of [ValidateFactsV1Schema]'s loop. *)
Record SchemaState := MkSchema {
  hasNonCredential : bool;
  total : option Z;      (* [hasTotal], [totalMb] *)
  available : option Z   (* [hasAvailable], [availableMb] *)
}.

Definition schema_fact (st : SchemaState) (f : IpcFact) : Result SchemaState :=
  if String.eqb (key f) "agent_token" then
    if string_empty (value f) || (kMaxFactsTokenBytes <? strlen (value f)) then
      Failure (FactsValidationError "agent_token 长度必须 1..64")
    else if negb (all_chars IsAsciiKeyChar (value f)) then
      Failure (FactsValidationError "agent_token 含非法字符")
    else Success st
  else if String.eqb (key f) "observer" then
    if string_empty (value f) then
      Failure (FactsValidationError "observer 值不能为空")
    else Success (MkSchema true (total st) (available st))
  else if negb (known_numeric (key f)) then
    Failure (FactsValidationError ("未知事实键：" +:+ key f))
  else match ParseUint32 (value f) with
  | None =>
      Failure (FactsValidationError
                 ("键 " +:+ key f +:+ " 的值必须是十进制无符号整数"))
  | Some numeric =>
      if String.eqb (key f) "memory_total_mb" then
        if numeric =? 0 then
          Failure (FactsValidationError "memory_total_mb 必须 >= 1")
        else Success (MkSchema true (Some numeric) (available st))
      else if String.eqb (key f) "memory_available_mb" then
        Success (MkSchema true (total st) (Some numeric))
      else if String.eqb (key f) "memory_load_percent" && (100 <? numeric) then
        Failure (FactsValidationError "memory_load_percent 必须 0..100")
      else if String.eqb (key f) "foreground_pid" && (numeric =? 0) then
        Failure (FactsValidationError "foreground_pid 必须 >= 1")
      else Success (MkSchema true (total st) (available st))
  end.

Fixpoint schema_loop (st : SchemaState) (facts : list IpcFact) : Result SchemaState :=
  match facts with
  | [] => Success st
  | f :: rest =>
      match schema_fact st f with
      | Failure e => Failure e
      | Success st' => schema_loop st' rest
      end
  end.

Definition ValidateFactsV1Schema (facts : list IpcFact) : Result unit :=
  match schema_loop (MkSchema false None None) facts with
  | Failure e => Failure e
  | Success st =>
      let over := match total st, available st with
                  | Some t, Some a => t <? a
                  | _, _ => false
                  end in
      if over then
        Failure (FactsValidationError
                   "memory_available_mb 不能大于 memory_total_mb")
      else if negb (hasNonCredential st) then
        Failure (FactsValidationError
                   "Facts 不含任何非凭据事实（至少一条已注册键）")
      else Success tt
  end.

(** ** Numbers *)

Lemma ParseUint32_loop_Some acc text v :
  is_u32 acc →
  ParseUint32_loop acc text = Some v ↔
  all_chars is_digit text = true ∧ dec_acc acc text = v ∧ v <= UINT32_MAX.
Proof.
  revert acc. induction text as [|c text IH]; intros acc Ha; cbn.
  - unfold is_u32, UINT32_MAX in *. split; [intros [= ->]; lia|naive_solver].
  - destruct (is_digit c) eqn:Hc; cbn; [|naive_solver].
    pose proof (digit_value_range c Hc) as Hd. unfold is_u32, UINT32_MAX in *.
    rewrite u64_small by (unfold is_u64; lia).
    replace (10 * acc + digit_value c) with (acc * 10 + digit_value c) by lia.
    destruct (Z.ltb_spec (2 ^ 32 - 1) (acc * 10 + digit_value c)) as [Hgt|Hle].
    + split; [done|]. intros (Hall & <- & Hle).
      pose proof (dec_acc_ge (acc * 10 + digit_value c) text ltac:(lia) Hall). lia.
    + apply IH. lia.
Qed.

(** [ParseUint32] accepts exactly the non-empty strings of ASCII digits
    whose decimal value fits 32 bits, and yields that value: the 64-bit
    accumulator never wraps, whatever the length of the text. *)
Lemma ParseUint32_iff (text : string) (v : Z) :
  ParseUint32 text = Some v ↔
  is_decimal text = true ∧ dec_acc 0 text = v ∧ v <= UINT32_MAX.
Proof.
  unfold ParseUint32, is_decimal. destruct text as [|c t]; [by split; [|intros [? _]]|].
  apply ParseUint32_loop_Some. done.
Qed.

(** ** Well-formed facts *)

Definition ok_fact (f : IpcFact) : Prop :=
  ValidateKey (key f) = None ∧ ValidateValue (value f) = None.

Lemma ValidateKey_None k :
  ValidateKey k = None ↔
  k ≠ "" ∧ strlen k <= kMaxFactsKeyBytes ∧ HasControlByte k = false ∧
  all_chars IsAsciiKeyChar k = true.
Proof.
  unfold ValidateKey. rewrite <- string_empty_iff.
  destruct (string_empty k), (Z.ltb_spec kMaxFactsKeyBytes (strlen k)),
    (HasControlByte k), (all_chars IsAsciiKeyChar k); cbn;
    split; intros; repeat split; try done; try lia; naive_solver lia.
Qed.

Lemma ValidateValue_None v :
  ValidateValue v = None ↔ strlen v <= kMaxFactsValueBytes ∧ HasControlByte v = false.
Proof.
  unfold ValidateValue.
  destruct (Z.ltb_spec kMaxFactsValueBytes (strlen v)), (HasControlByte v);
    split; intros; repeat split; try done; naive_solver lia.
Qed.

Lemma has_key_false k facts : has_key k facts = false ↔ k ∉ map key facts.
Proof.
  induction facts as [|f fs IH]; cbn; [set_solver|].
  rewrite orb_false_iff, String.eqb_neq, IH. set_solver.
Qed.

Lemma ValidateFacts_loop_None before facts :
  ValidateFacts_loop before facts = None ↔
  Forall ok_fact facts ∧ NoDup (map key facts) ∧
  (∀ f, f ∈ facts → key f ∉ map key before).
Proof.
  revert before. induction facts as [|f fs IH]; intros before; cbn.
  { split; [|done]. intros _. repeat split; [constructor|constructor|set_solver]. }
  rewrite Forall_cons, NoDup_cons. unfold ok_fact at 1.
  destruct (ValidateKey (key f)); [naive_solver|].
  destruct (ValidateValue (value f)); [naive_solver|].
  destruct (has_key (key f) before) eqn:Hk.
  { split; [done|]. intros (_ & _ & H). apply not_false_iff_true in Hk. destruct Hk.
    apply has_key_false. apply H. set_solver. }
  apply has_key_false in Hk. rewrite IH, map_app. cbn.
  split.
  - intros (Hf & Hn & Hb). split; [done|]. split.
    + split; [|done]. intros (f' & E & Hin)%list_elem_of_In%in_map_iff.
      apply (Hb f'); [by apply list_elem_of_In|]. set_solver.
    + intros f' [->|Hin]%elem_of_cons; [done|]. specialize (Hb f' Hin). set_solver.
  - intros ((_ & Hf) & (Hnin & Hn) & Hb). repeat split; [done|done|].
    intros f' Hin. rewrite elem_of_app, elem_of_cons. intros [H|[E|H]].
    + eapply Hb; [|done]. set_solver.
    + apply Hnin. rewrite <- E. apply list_elem_of_In, in_map, list_elem_of_In, Hin.
    + set_solver.
Qed.

Lemma ValidateFacts_None facts :
  ValidateFacts facts = None ↔
  len facts <= kMaxFactsEntries ∧ Forall ok_fact facts ∧ NoDup (map key facts).
Proof.
  unfold ValidateFacts. destruct (Z.ltb_spec kMaxFactsEntries (len facts)).
  { split; [done|lia]. }
  rewrite ValidateFacts_loop_None. set_solver.
Qed.

(** ** Lines of a payload *)

Fixpoint tail_lines (ls : list string) : string :=
  match ls with
  | [] => ""
  | l :: ls' => String LF (l +:+ tail_lines ls')
  end.

Lemma split_lf_tail l ls :
  no_lf l = true → forallb no_lf ls = true → split_lf (l +:+ tail_lines ls) = l :: ls.
Proof.
  revert l. induction ls as [|l' ls IH]; intros l Hl; cbn [tail_lines forallb].
  - rewrite string_app_nil_r. by rewrite split_lf_no_lf.
  - rewrite andb_true_iff. intros [? ?]. rewrite split_lf_line by done. by rewrite IH.
Qed.

Lemma split_lf_inv s : ∃ l ls, split_lf s = l :: ls ∧ s = l +:+ tail_lines ls.
Proof.
  induction s as [|c s (l & ls & E & Es)]; [by exists "", []|]. cbn [split_lf].
  rewrite E. destruct (Ascii.eqb_spec LF c) as [<-|_].
  - exists "", (l :: ls). by rewrite Es.
  - exists (String c l), ls. by rewrite Es.
Qed.

Lemma append_facts_spec text facts :
  append_facts text facts = text +:+ tail_lines (map fact_line facts).
Proof.
  revert text. induction facts as [|f fs IH]; intros text; cbn.
  - by rewrite string_app_nil_r.
  - rewrite IH, string_app_assoc. done.
Qed.

(** Key characters and control-free text avoid the separators. *)
Lemma key_char_sep c :
  IsAsciiKeyChar c = true → negb (Ascii.eqb "=" c) = true ∧ is_control c = false.
Proof. by destruct c as [[] [] [] [] [] [] [] []]. Qed.

Lemma no_control_sep c :
  negb (is_control c) = true →
  negb (Ascii.eqb LF c) = true ∧ negb (Ascii.eqb CR c) = true.
Proof. by destruct c as [[] [] [] [] [] [] [] []]. Qed.

Lemma ok_fact_line f :
  ok_fact f →
  cut "=" (fact_line f) = Some (key f, value f) ∧ no_lf (fact_line f) = true ∧
  all_chars (λ c, negb (Ascii.eqb CR c)) (fact_line f) = true ∧
  string_empty (fact_line f) = false.
Proof.
  intros [(Hne & _ & _ & Hk)%ValidateKey_None (_ & Hv)%ValidateValue_None].
  unfold HasControlByte, any_char in Hv. apply negb_false_iff in Hv.
  split; [|split; [|split]].
  - apply cut_char. eapply all_chars_impl; [|exact Hk]. intros c. apply key_char_sep.
  - unfold no_lf, fact_line. rewrite !all_chars_app. cbn.
    apply andb_true_iff. split; (eapply all_chars_impl; [|eassumption]); intros c Hc.
    + apply no_control_sep. by destruct (key_char_sep c Hc) as [_ ->].
    + by apply no_control_sep.
  - unfold fact_line. rewrite !all_chars_app. cbn.
    apply andb_true_iff. split; (eapply all_chars_impl; [|eassumption]); intros c Hc.
    + apply no_control_sep. by destruct (key_char_sep c Hc) as [_ ->].
    + by apply no_control_sep.
  - unfold fact_line. by destruct (key f).
Qed.

Lemma ParseFacts_lines_Success before lines out :
  len before <= kMaxFactsEntries →
  ParseFacts_lines before lines = Success out ↔
  ∃ facts, out = before ++ facts ∧ lines = map fact_line facts ∧
           ValidateFacts_loop before facts = None ∧ len out <= kMaxFactsEntries.
Proof.
  revert before. induction lines as [|line rest IH]; intros before Hb; cbn.
  - split.
    + intros [= <-]. exists []. by rewrite app_nil_r.
    + intros ([|f fs] & -> & Hl & _); [by rewrite app_nil_r|done].
  - split.
    + destruct (Z.leb_spec kMaxFactsEntries (len before)) as [|Hlt]; [done|].
      destruct (cut "=" line) as [[k v]|] eqn:Hc; [|done].
      destruct (ValidateKey k) eqn:Hk; [done|].
      destruct (ValidateValue v) eqn:Hv; [done|].
      destruct (has_key k before) eqn:Hh; [done|].
      rewrite IH by (rewrite length_app; cbn; lia).
      intros (fs & -> & -> & Hfs & Hlen). exists (MkFact k v :: fs). cbn.
      rewrite Hk, Hv, Hh, Hfs, <- app_assoc.
      apply cut_spec in Hc as ->. repeat split; try done. by rewrite <- app_assoc in Hlen.
    + intros ([|f fs] & -> & [= -> ->] & Hfs & Hlen).
      cbn in Hfs. rewrite length_app in Hlen. cbn in Hlen.
      destruct (ValidateKey (key f)) eqn:Hk; [done|].
      destruct (ValidateValue (value f)) eqn:Hv; [done|].
      destruct (has_key (key f) before) eqn:Hh; [done|].
      rewrite (proj2 (Z.leb_gt _ _)) by lia.
      destruct (ok_fact_line f) as [-> _]; [done|]. rewrite Hk, Hv, Hh.
      destruct f as [k v]; cbn in *.
      apply IH; [rewrite length_app; cbn; lia|].
      exists fs. rewrite <- app_assoc. repeat split; try done.
      rewrite length_app. cbn. lia.
Qed.

Lemma existsb_empty_lines facts :
  Forall ok_fact facts → existsb string_empty (map fact_line facts) = false.
Proof.
  induction 1 as [|f fs Hf _ IH]; cbn; [done|].
  destruct (ok_fact_line f Hf) as (_ & _ & _ & ->). done.
Qed.

Lemma fact_lines_no_lf facts :
  Forall ok_fact facts → forallb no_lf (map fact_line facts) = true.
Proof.
  induction 1 as [|f fs Hf _ IH]; cbn; [done|].
  destruct (ok_fact_line f Hf) as (_ & -> & _). done.
Qed.

Lemma fact_lines_no_cr facts :
  Forall ok_fact facts →
  all_chars (λ c, negb (Ascii.eqb CR c)) (tail_lines (map fact_line facts)) = true.
Proof.
  induction 1 as [|f fs Hf _ IH]; [done|].
  cbn [map tail_lines all_chars].
  destruct (ok_fact_line f Hf) as (_ & _ & H & _). rewrite all_chars_app, H. exact IH.
Qed.

Lemma split_valid_payload facts :
  Forall ok_fact facts →
  split_lf (append_facts kFactsEnvelopeV1 facts) =
  kFactsEnvelopeV1 :: map fact_line facts.
Proof.
  intros H. rewrite append_facts_spec.
  apply split_lf_tail; [done|by apply fact_lines_no_lf].
Qed.

Lemma Serialize_parses facts payload :
  SerializeFactsV1 facts = Success payload → ParseFactsV1 payload = Success facts.
Proof.
  unfold ParseFactsV1, SerializeFactsV1, BytesFromText.
  destruct (ValidateFacts facts) eqn:Hv; [done|].
  apply ValidateFacts_None in Hv as (Hl & Hok & Hnd). intros [= <-].
  destruct (list_byte_of_string _) as [|b bs] eqn:E.
  { apply (f_equal string_of_list_byte) in E.
    rewrite string_of_list_byte_of_string, append_facts_spec in E. done. }
  rewrite <- E, string_of_list_byte_of_string, split_valid_payload by done.
  unfold any_char. rewrite append_facts_spec, all_chars_app, fact_lines_no_cr by done.
  cbn [existsb]. rewrite existsb_empty_lines by done. cbn -[ParseFacts_lines].
  apply ParseFacts_lines_Success; [done|]. exists facts.
  repeat split; try done. apply ValidateFacts_loop_None. set_solver.
Qed.

(** C22. The parser and the serializer of the CPOPFACTS/1 text are inverse to
    each other, byte for byte: a payload parses to a list of facts exactly when
    that list serializes to that payload. So everything that is accepted is in
    the one canonical form, with at most 64 facts, valid keys and values and no
    duplicate key, and everything a client may send is accepted unchanged. *)
Theorem ParseFactsV1_iff_Serialize (payload : list byte) (facts : list IpcFact) :
  ParseFactsV1 payload = Success facts ↔ SerializeFactsV1 facts = Success payload.
Proof.
  unfold ParseFactsV1, SerializeFactsV1, BytesFromText. split.
  - destruct payload as [|b bs]; [done|]. set (payload := b :: bs) in *.
    destruct (any_char _ _); [done|].
    destruct (split_lf_inv (string_of_list_byte payload)) as (front & rest & -> & Et).
    destruct (existsb _ _); [done|].
    destruct (String.eqb_spec front kFactsEnvelopeV1) as [->|]; [|done]. cbn [negb].
    rewrite ParseFacts_lines_Success by done.
    intros (fs & -> & -> & Hv & Hl). rewrite app_nil_l in *.
    unfold ValidateFacts. rewrite (proj2 (Z.ltb_ge _ _)), Hv by done.
    rewrite append_facts_spec, <- Et. by rewrite list_byte_of_string_of_list_byte.
  - apply Serialize_parses.
Qed.

(** ** The echoed summary *)

Definition echoed (facts : list IpcFact) : list IpcFact :=
  filter (λ f, is_token f = false) facts.

Fixpoint entries (facts : list IpcFact) : string :=
  match facts with
  | [] => ""
  | f :: rest => String " " (fact_line f) +:+ entries rest
  end.

Lemma echoed_cons_token f fs : is_token f = true → echoed (f :: fs) = echoed fs.
Proof. intros H. apply filter_cons_False. by rewrite H. Qed.
Lemma echoed_cons f fs : is_token f = false → echoed (f :: fs) = f :: echoed fs.
Proof. intros H. by apply filter_cons_True. Qed.

(** The loop only sees the facts that are echoed. *)
Lemma summary_loop_echoed out facts : summary_loop out facts = summary_loop out (echoed facts).
Proof.
  revert out. induction facts as [|f fs IH]; intros out; [done|].
  destruct (is_token f) eqn:Hf.
  - rewrite echoed_cons_token by done. cbn [summary_loop]. by rewrite Hf.
  - rewrite echoed_cons by done. cbn [summary_loop]. rewrite Hf.
    destruct (Z.ltb _ _); [done|].
    assert (∀ o l, match l with [] => o | _ :: _ => summary_loop o l end =
                   summary_loop o l) as E by (by intros o []).
    by rewrite !E, IH.
Qed.

Lemma echoed_idem facts : echoed (echoed facts) = echoed facts.
Proof.
  unfold echoed. rewrite list_filter_filter. apply list_filter_iff. naive_solver.
Qed.

Lemma FormatFactsSummary_echoed facts :
  FormatFactsSummary facts = FormatFactsSummary (echoed facts).
Proof.
  unfold FormatFactsSummary. change (filter (λ f, is_token f = false)) with echoed.
  rewrite echoed_idem. destruct (_ =? 0); [done|]. apply summary_loop_echoed.
Qed.

(** The summary that is echoed to the peer and logged does not depend on
    the credential: two lists of facts that differ only in their [agent_token]
    entries (number, position or value) have the same summary. *)
Lemma FormatFactsSummary_noninterference (facts facts' : list IpcFact) :
  echoed facts = echoed facts' → FormatFactsSummary facts = FormatFactsSummary facts'.
Proof.
  intros E. by rewrite FormatFactsSummary_echoed, E, <- FormatFactsSummary_echoed.
Qed.

Example FormatFactsSummary_noninterference_witness :
  FormatFactsSummary [MkFact "agent_token" "secret"; MkFact "observer" "agent"] =
  FormatFactsSummary [MkFact "observer" "agent"; MkFact "agent_token" "other"].
Proof. apply FormatFactsSummary_noninterference. reflexivity. Defined.

Lemma summary_loop_spec out facts :
  Forall (λ f, is_token f = false) facts →
  strlen out <= kFactsSummaryMaxBytes - 3 →
  ∃ shown hidden, facts = shown ++ hidden ∧
    summary_loop out facts =
      out +:+ entries shown +:+ (if hidden is [] then "" else " …") ∧
    strlen (out +:+ entries shown) <= kFactsSummaryMaxBytes - 3 ∧
    (∀ f, head hidden = Some f →
       kFactsSummaryMaxBytes - 3 < strlen (out +:+ entries (shown ++ [f]))).
Proof.
  intros H. revert out. induction H as [|f fs Hf _ IH]; intros out Hout; cbn [summary_loop].
  { exists [], []. cbn. rewrite !string_app_nil_r. by repeat split. }
  rewrite Hf. unfold kFactsSummaryMaxBytes in *.
  destruct (Z.ltb_spec 480 (strlen out + strlen (String " " (fact_line f)) + 3)) as [Hlt|Hle].
  - exists [], (f :: fs). cbn [entries app]. rewrite !string_app_nil_r.
    repeat split; [done|]. intros ? [= <-]. rewrite strlen_app, string_app_nil_r. lia.
  - destruct (IH (out +:+ String " " (fact_line f))) as (sh & hi & -> & E & Hl & Hh).
    { rewrite strlen_app. lia. }
    exists (f :: sh), hi. cbn [entries app]. rewrite <- !string_app_assoc.
    rewrite string_app_assoc in E. rewrite <- !string_app_assoc in E.
    split; [done|]. split; [|split; [done|]].
    + destruct (sh ++ hi) eqn:Es; [|done]. apply app_nil in Es as [-> ->].
      cbn. by rewrite !string_app_nil_r.
    + intros g Hg. specialize (Hh g Hg). by rewrite string_app_assoc in Hh.
Qed.

(** What the summary says of a list that passed validation. *)
Definition summary_of (facts : list IpcFact) (s : string) : Prop :=
  let n := len (echoed facts) in
  let head := "facts ok (" +:+ to_string n +:+ ")" in
  (n = 0 ∧ s = head) ∨
  (n <> 0 ∧ ∃ shown hidden, echoed facts = shown ++ hidden ∧
     s = head +:+ ":" +:+ entries shown +:+ (if hidden is [] then "" else " …") ∧
     (∀ f, List.head hidden = Some f →
        kFactsSummaryMaxBytes - 3 < strlen (head +:+ ":" +:+ entries (shown ++ [f])))).

Lemma to_string_short n : 0 <= n <= kMaxFactsEntries → strlen (to_string n) <= 2.
Proof.
  intros Hn. assert (forallb (λ k, strlen (to_string (Z.of_nat k)) <=? 2) (seq 0 65) = true)
    as H by reflexivity.
  rewrite forallb_forall in H. specialize (H (Z.to_nat n)). rewrite in_seq in H.
  unfold kMaxFactsEntries in Hn. rewrite Z2Nat.id in H by lia. apply Z.leb_le, H. lia.
Qed.

(** The summary of a validated list counts the echoed facts, then shows
    them in order and whole, the longest prefix that leaves three bytes of the
    480 free; it ends in an ellipsis exactly when a fact is left out. The
    ellipsis with its space takes four bytes, so 481 bytes is the bound. *)
Lemma FormatFactsSummary_spec (facts : list IpcFact) :
  ValidateFacts facts = None →
  summary_of facts (FormatFactsSummary facts) ∧
  strlen (FormatFactsSummary facts) <= kFactsSummaryMaxBytes + 1.
Proof.
  intros (Hl & _)%ValidateFacts_None.
  assert (0 <= len (echoed facts) <= kMaxFactsEntries) as Hn.
  { pose proof (length_filter (λ f, is_token f = false) facts). unfold echoed. lia. }
  pose proof (to_string_short _ Hn) as Hs.
  unfold summary_of, FormatFactsSummary.
  change (filter (λ f, is_token f = false)) with echoed.
  unfold kFactsSummaryMaxBytes in *.
  destruct (Z.eqb_spec (len (echoed facts)) 0) as [E|Hne].
  - split; [by left|]. rewrite !strlen_app. cbn [String.length]. lia.
  - rewrite summary_loop_echoed.
    destruct (summary_loop_spec
      (("facts ok (" +:+ to_string (len (echoed facts)) +:+ ")") +:+ ":") (echoed facts))
      as (sh & hi & Ef & Es & Hb & Hh).
    { apply list.Forall_forall. intros f Hf. by apply list_elem_of_filter in Hf as [? _]. }
    { unfold kFactsSummaryMaxBytes. rewrite !strlen_app. cbn [String.length]. lia. }
    rewrite Es. unfold kFactsSummaryMaxBytes in *. split.
    + right. split; [done|]. exists sh, hi. split; [done|]. split.
      * by rewrite !string_app_assoc.
      * intros f Hf. specialize (Hh f Hf). by rewrite !string_app_assoc in *.
    + rewrite <- string_app_assoc, strlen_app.
      destruct hi; [cbn [String.length]; lia|]. change (String.length " …") with 4%nat. lia.
Qed.

Definition long_fact (k : string) (n : nat) : IpcFact :=
  MkFact k (string_of_list_ascii (replicate n "0"%char)).

(** Schema-valid facts whose summary is as long as it can be. *)
Definition long_facts : list IpcFact :=
  [long_fact "client_pid" 128; long_fact "memory_available_mb" 128;
   long_fact "memory_load_percent" 128; long_fact "user_idle_seconds" 7;
   long_fact "observer" 1].

Example FormatFactsSummary_spec_witness :
  ValidateFacts long_facts = None ∧ strlen (FormatFactsSummary long_facts) <= 481.
Proof.
  split; [reflexivity|].
  exact (proj2 (FormatFactsSummary_spec long_facts ltac:(reflexivity))).
Defined.

(** The bound of 480 bytes the header states for the summary is exceeded:
    a list that passes both validations has a summary of 481 bytes. *)
Lemma FormatFactsSummary_exceeds_limit :
  ∃ facts, ValidateFacts facts = None ∧ ValidateFactsV1Schema facts = Success tt ∧
           strlen (FormatFactsSummary facts) = kFactsSummaryMaxBytes + 1.
Proof. exists long_facts. split; [reflexivity|split; vm_compute; reflexivity]. Qed.

(** ** The schema *)

(** The requirement on one fact. *)
Definition schema_ok (f : IpcFact) : bool :=
  if is_token f then
    (1 <=? strlen (value f)) && (strlen (value f) <=? kMaxFactsTokenBytes) &&
    all_chars IsAsciiKeyChar (value f)
  else if String.eqb (key f) "observer" then negb (string_empty (value f))
  else known_numeric (key f) &&
    match ParseUint32 (value f) with
    | None => false
    | Some n =>
        (negb (String.eqb (key f) "memory_total_mb" || String.eqb (key f) "foreground_pid")
         || (1 <=? n)) &&
        (negb (String.eqb (key f) "memory_load_percent") || (n <=? 100))
    end.

(** What a fact contributes to the loop's state. *)
Definition schema_next (st : SchemaState) (f : IpcFact) : SchemaState :=
  MkSchema (hasNonCredential st || negb (is_token f))
    (if String.eqb (key f) "memory_total_mb" then ParseUint32 (value f) else total st)
    (if String.eqb (key f) "memory_available_mb" then ParseUint32 (value f)
     else available st).

Lemma ParseUint32_nonneg text v : ParseUint32 text = Some v → 0 <= v.
Proof.
  unfold ParseUint32. destruct (string_empty text); [done|].
  intros (Hd & <- & _)%ParseUint32_loop_Some; [|done]. by apply dec_acc_ge.
Qed.

Lemma schema_fact_spec st f :
  schema_fact st f = Success (schema_next st f) ∧ schema_ok f = true ∨
  (∃ e, schema_fact st f = Failure e) ∧ schema_ok f = false.
Proof.
  unfold schema_fact, schema_ok, schema_next, is_token, kFactsTokenKey.
  destruct st as [b t a]. cbn [hasNonCredential total available].
  destruct (String.eqb_spec (key f) "agent_token") as [E|_].
  { rewrite E. cbn [String.eqb Ascii.eqb Bool.eqb]. rewrite orb_false_r.
    destruct (value f) as [|c v]; cbn [string_empty]; [right; split; [eauto|done]|].
    cbn [orb]. rewrite (proj2 (Z.leb_le 1 _)) by (cbn [String.length]; lia).
    destruct (Z.ltb_spec kMaxFactsTokenBytes (strlen (String c v))) as [Hlt|Hle].
    { rewrite (proj2 (Z.leb_gt _ _)) by done. right. split; eauto. }
    rewrite (proj2 (Z.leb_le _ _)) by done. cbn [andb].
    destruct (all_chars _ _); [left|right]; split; eauto. }
  destruct (String.eqb_spec (key f) "observer") as [E|_].
  { rewrite E. cbn [String.eqb Ascii.eqb Bool.eqb]. rewrite orb_true_r.
    destruct (string_empty (value f)); [right|left]; split; eauto. }
  rewrite orb_true_r. destruct (known_numeric (key f)); cbn [negb andb];
    [|right; split; eauto].
  destruct (ParseUint32 (value f)) as [n|] eqn:Hn; [|right; split; eauto].
  apply ParseUint32_nonneg in Hn.
  destruct (String.eqb_spec (key f) "memory_total_mb") as [E|_].
  { rewrite E. cbn [String.eqb Ascii.eqb Bool.eqb negb orb].
    destruct (Z.eqb_spec n 0); [right|left]; split; eauto; lia. }
  destruct (String.eqb_spec (key f) "memory_available_mb") as [E|_].
  { rewrite E. cbn [String.eqb Ascii.eqb Bool.eqb negb orb]. left. by split. }
  destruct (String.eqb_spec (key f) "memory_load_percent") as [E|_].
  { rewrite E. cbn [String.eqb Ascii.eqb Bool.eqb negb orb andb].
    destruct (Z.ltb_spec 100 n); [right|left]; split; eauto; lia. }
  cbn [andb orb negb]. rewrite andb_true_r.
  destruct (String.eqb_spec (key f) "foreground_pid") as [E|_]; cbn [andb negb orb];
    [|by left].
  destruct (Z.eqb_spec n 0); [right|left]; split; eauto; lia.
Qed.

Lemma schema_loop_spec st facts :
  schema_loop st facts = Success (foldl schema_next st facts) ∧
    forallb schema_ok facts = true ∨
  (∃ e, schema_loop st facts = Failure e) ∧ forallb schema_ok facts = false.
Proof.
  revert st. induction facts as [|f fs IH]; intros st; cbn; [by left|].
  destruct (schema_fact_spec st f) as [[-> ->]|[[e ->] ->]]; cbn; [apply IH|].
  right. split; eauto.
Qed.

Lemma schema_hasNonCredential st facts :
  hasNonCredential (foldl schema_next st facts) =
  hasNonCredential st || existsb (λ f, negb (is_token f)) facts.
Proof.
  revert st. induction facts as [|f fs IH]; intros st; cbn; [by rewrite orb_false_r|].
  rewrite IH. cbn. by rewrite orb_assoc.
Qed.

Lemma NumericFactValue_no_key k facts :
  k ∉ map key facts → NumericFactValue facts k = None.
Proof.
  induction facts as [|f fs IH]; cbn; [done|].
  rewrite elem_of_cons. intros H. rewrite (proj2 (String.eqb_neq _ _)) by naive_solver.
  cbn. naive_solver.
Qed.

(** With distinct keys the loop's last value is the first one. *)
Lemma schema_numeric (get : SchemaState → option Z) k :
  (∀ st f, get (schema_next st f) =
           if String.eqb (key f) k then ParseUint32 (value f) else get st) →
  ∀ facts st, NoDup (map key facts) → get st = None ∨ k ∉ map key facts →
    get (foldl schema_next st facts) =
    match get st with Some v => Some v | None => NumericFactValue facts k end.
Proof.
  intros Hget facts. induction facts as [|f fs IH]; intros st; cbn.
  { by destruct (get st). }
  rewrite NoDup_cons, elem_of_cons. intros [Hnin Hnd] Hst.
  pose proof (Hget st f) as E.
  destruct (String.eqb_spec (key f) k) as [<-|Hne]; cbn.
  - rewrite IH, E by auto. destruct Hst as [->|Hk]; [|naive_solver].
    destruct (ParseUint32 (value f)); [done|]. by rewrite NumericFactValue_no_key.
  - rewrite IH, E by (rewrite ?E; naive_solver). done.
Qed.

(** The v1 schema accepts a list with distinct keys, as the parser
    delivers, exactly when every fact meets the requirement on its key, some
    fact is not the credential, and the values a consumer then reads satisfy
    [memory_available_mb <= memory_total_mb] where both are present. *)
Lemma ValidateFactsV1Schema_iff (facts : list IpcFact) :
  NoDup (map key facts) →
  ValidateFactsV1Schema facts = Success tt ↔
  forallb schema_ok facts = true ∧ existsb (λ f, negb (is_token f)) facts = true ∧
  (∀ t a, NumericFactValue facts "memory_total_mb" = Some t →
          NumericFactValue facts "memory_available_mb" = Some a → a <= t).
Proof.
  intros Hnd. unfold ValidateFactsV1Schema.
  destruct (schema_loop_spec (MkSchema false None None) facts)
    as [[-> ->]|[[e ->] ->]]; [|naive_solver].
  rewrite schema_hasNonCredential.
  rewrite (schema_numeric total "memory_total_mb"), (schema_numeric available
    "memory_available_mb") by (try done; by left).
  cbn [hasNonCredential total available orb].
  destruct (NumericFactValue facts "memory_total_mb") as [t|],
    (NumericFactValue facts "memory_available_mb") as [a|],
    (existsb _ facts); cbn [negb]; try destruct (Z.ltb_spec t a);
    split; try done; try naive_solver lia.
  intros (_ & _ & H'). specialize (H' t a eq_refl eq_refl). lia.
Qed.

Example ValidateFactsV1Schema_iff_witness :
  NoDup (map key long_facts) ∧ (ValidateFactsV1Schema long_facts = Success tt ↔
  forallb schema_ok long_facts = true ∧
  existsb (λ f, negb (is_token f)) long_facts = true ∧
  (∀ t a, NumericFactValue long_facts "memory_total_mb" = Some t →
          NumericFactValue long_facts "memory_available_mb" = Some a → a <= t)).
Proof.
  assert (NoDup (map key long_facts)) as H by (apply (bool_decide_unpack _); reflexivity).
  split; [exact H|]. exact (ValidateFactsV1Schema_iff long_facts H).
Defined.
