(* ===== verification/PolicyEngine.v ===== *)
(** The advisory policy ([policy/policy_engine.hpp],
    [source/policy/policy_engine.cpp]): the memory margin and its pressure
    class, the rules, and the evaluator that debounces their decisions. Time
    points are nanoseconds of the steady clock, durations milliseconds, as in
    the source. *)

From S2P Require Import Prelude CommonError.

Open Scope string_scope.
Open Scope list_scope.
Open Scope Z_scope.

(** ** Data *)

Module ResourcePressure.
Inductive ResourcePressure := Comfortable | Adequate | Tight | Critical.
End ResourcePressure.
Abbreviation ResourcePressure := ResourcePressure.ResourcePressure.

Module PolicyAction.
Inductive PolicyAction := NoOp | Notify | SuggestMemoryTune | SuggestPriorityBoost.
End PolicyAction.
Abbreviation PolicyAction := PolicyAction.PolicyAction.

#[export] Instance ResourcePressure_eq_dec : EqDecision ResourcePressure.
Proof. solve_decision. Defined.
#[export] Instance PolicyAction_eq_dec : EqDecision PolicyAction.
Proof. solve_decision. Defined.

Definition PressureToString (p : ResourcePressure) : string :=
  match p with
  | ResourcePressure.Comfortable => "comfortable"
  | ResourcePressure.Adequate => "adequate"
  | ResourcePressure.Tight => "tight"
  | ResourcePressure.Critical => "critical"
  end.

Definition ActionToString (a : PolicyAction) : string :=
  match a with
  | PolicyAction.NoOp => "NoOp"
  | PolicyAction.Notify => "Notify"
  | PolicyAction.SuggestMemoryTune => "SuggestMemoryTune"
  | PolicyAction.SuggestPriorityBoost => "SuggestPriorityBoost"
  end.

Record PolicyThresholds := MkThresholds {
  comfortableMarginPercent : Z;
  adequateMarginPercent : Z;
  tightMarginPercent : Z
}.

Definition default_thresholds : PolicyThresholds := MkThresholds 30 15 5.

Record GameFocus := MkFocus {
  gameId : string;
  running : bool;
  foreground : bool;
  pauseWhenBackground : bool
}.

Record PolicyInput := MkInput {
  pressure : ResourcePressure;
  game : GameFocus;
  userPresent : bool
}.

Record PolicyDecision := MkDecision {
  action : PolicyAction;
  dec_gameId : string;
  reasonCode : string;
  reason : string;
  ttlMs : Z
}.

Definition default_decision : PolicyDecision := MkDecision PolicyAction.NoOp "" "" "" 0.

(** ** Margin and pressure *)

Definition ComputeMemoryMarginPercent (availableBytes totalBytes : Z) : Result Z :=
  if (totalBytes =? 0) || (totalBytes <? availableBytes) then
    Failure (Validation "ComputeMemoryMarginPercent"
               "invalid memory counts (total == 0 or available > total)")
  else Success (u32 (u64 (availableBytes * 100) / totalBytes)).

Definition ClassifyPressure (marginPercent : Z) (t : PolicyThresholds)
  : Result ResourcePressure :=
  if (marginPercent <? 0) || (100 <? marginPercent) then
    Failure (Validation "ClassifyPressure" "margin percent must be in 0..100")
  else if negb ((0 <=? tightMarginPercent t) &&
                (tightMarginPercent t <? adequateMarginPercent t) &&
                (adequateMarginPercent t <? comfortableMarginPercent t) &&
                (comfortableMarginPercent t <=? 100)) then
    Failure (Validation "ClassifyPressure"
               "thresholds must satisfy 0 <= tight < adequate < comfortable <= 100")
  else if comfortableMarginPercent t <? marginPercent then
    Success ResourcePressure.Comfortable
  else if adequateMarginPercent t <? marginPercent then
    Success ResourcePressure.Adequate
  else if tightMarginPercent t <? marginPercent then
    Success ResourcePressure.Tight
  else Success ResourcePressure.Critical.

(** ** Rules *)

Definition EvaluatePolicy (input : PolicyInput) : PolicyDecision :=
  let decide a code text := MkDecision a (gameId (game input)) code text 0 in
  if negb (running (game input)) || string_empty (gameId (game input)) then
    decide PolicyAction.NoOp "no_game" "无游戏在运行，不产生优化建议"
  else if bool_decide (pressure input = ResourcePressure.Critical) then
    decide PolicyAction.Notify "mem_critical"
      "内存余量危急（余量 <= 紧张阈值），仅提示不执行任何动作"
  else if negb (userPresent input) then
    decide PolicyAction.NoOp "user_away"
      "用户不在场（AFK/锁屏/断开/在场未知），不产生优化建议"
  else if negb (foreground (game input)) && pauseWhenBackground (game input) then
    decide PolicyAction.NoOp "game_background"
      "游戏在后台且配置后台暂停优化，不产生建议"
  else if bool_decide (pressure input = ResourcePressure.Tight) then
    decide PolicyAction.SuggestMemoryTune "mem_tight"
      "内存余量紧张，建议 Layer 2 内存维护（咨询，无执行器）"
  else if foreground (game input) then
    decide PolicyAction.SuggestPriorityBoost "prio_boost"
      "游戏前台且内存余量充足，建议 Layer 3 优先级提升"
  else
    decide PolicyAction.NoOp "mem_ok" "资源余量充足或一般，无证据不启用优化".

(** ** Debouncing *)

(** A difference of time points against a duration in milliseconds. *)
Definition ns_of_ms (ms : Z) : Z := ms * 1000000.

Record HysteresisFilter := MkFilter {
  flt_cooldown : Z;
  flt_state : bool;
  lastChange : Z;
  hasState : bool
}.

Definition clamp0 (ms : Z) : Z := if ms <? 0 then 0 else ms.

Definition NewHysteresisFilter (cooldown : Z) : HysteresisFilter :=
  MkFilter (clamp0 cooldown) false 0 false.

Definition HysteresisFilter_Update (newState : bool) (now : Z) (f : HysteresisFilter)
  : bool * HysteresisFilter :=
  if negb (hasState f) then (newState, MkFilter (flt_cooldown f) newState now true)
  else if Bool.eqb newState (flt_state f) then (flt_state f, f)
  else if now - lastChange f <? ns_of_ms (flt_cooldown f) then (flt_state f, f)
  else (newState, MkFilter (flt_cooldown f) newState now true).

Definition HysteresisFilter_State (f : HysteresisFilter) : bool := flt_state f.

Definition HysteresisFilter_Reset (f : HysteresisFilter) : HysteresisFilter :=
  MkFilter (flt_cooldown f) false 0 false.

Record PolicyEvaluation := MkEvaluation {
  decision : PolicyDecision;
  suppressed : bool
}.

Definition SameDecision (a b : PolicyDecision) : bool :=
  bool_decide (action a = action b) && String.eqb (dec_gameId a) (dec_gameId b) &&
  String.eqb (reasonCode a) (reasonCode b).

Record PolicyEvaluator := MkEvaluator {
  thresholds : PolicyThresholds;
  cooldown : Z;
  filter_ : HysteresisFilter;
  lastDecision : PolicyDecision;
  hasLast : bool
}.

Definition NewPolicyEvaluator (t : PolicyThresholds) (c : Z) : PolicyEvaluator :=
  MkEvaluator t (clamp0 c) (NewHysteresisFilter (clamp0 c)) default_decision false.

Definition acting (d : PolicyDecision) : bool :=
  negb (bool_decide (action d = PolicyAction.NoOp)).

(** The rules' decision, with its time to live. *)
Definition fresh_decision (input : PolicyInput) (cooldown : Z) : PolicyDecision :=
  let d := EvaluatePolicy input in
  if acting d then MkDecision (action d) (dec_gameId d) (reasonCode d) (reason d) cooldown
  else d.

Definition Evaluate (input : PolicyInput) (now : Z) (e : PolicyEvaluator)
  : PolicyEvaluation * PolicyEvaluator :=
  let fresh := fresh_decision input (cooldown e) in
  if negb (hasLast e) then
    let '(_, f) := HysteresisFilter_Update (acting fresh) now (filter_ e) in
    (MkEvaluation fresh false, MkEvaluator (thresholds e) (cooldown e) f fresh true)
  else if SameDecision (lastDecision e) fresh then (MkEvaluation fresh false, e)
  else
    let '(effective, f) := HysteresisFilter_Update (acting fresh) now (filter_ e) in
    if Bool.eqb effective (acting fresh) then
      (MkEvaluation fresh false, MkEvaluator (thresholds e) (cooldown e) f fresh true)
    else
      (MkEvaluation (lastDecision e) true,
       MkEvaluator (thresholds e) (cooldown e) f (lastDecision e) true).

Definition PolicyEvaluator_Reset (e : PolicyEvaluator) : PolicyEvaluator :=
  MkEvaluator (thresholds e) (cooldown e) (HysteresisFilter_Reset (filter_ e))
    default_decision false.

Definition IsActing (e : PolicyEvaluator) : bool := HysteresisFilter_State (filter_ e).

(** ** Margin and pressure: theorems *)

(** The margin is refused exactly for a zero total or more available than
    total; otherwise, as long as the product fits 64 bits, it is the floor of
    the percentage and lies within 0..100. *)
Lemma ComputeMemoryMarginPercent_spec (available total : Z) :
  is_u64 available → is_u64 total →
  (HasValue (ComputeMemoryMarginPercent available total) = false ↔
     total = 0 ∨ total < available) ∧
  (0 < total → available <= total → available * 100 < 2 ^ 64 →
     ComputeMemoryMarginPercent available total = Success (available * 100 / total) ∧
     0 <= available * 100 / total <= 100).
Proof.
  intros Ha Ht. unfold ComputeMemoryMarginPercent, is_u64 in *. split.
  - destruct (Z.eqb_spec total 0), (Z.ltb_spec total available); cbn;
      split; try done; intros; lia.
  - intros H0 Hle Hm.
    destruct (Z.eqb_spec total 0), (Z.ltb_spec total available); cbn; try lia.
    rewrite u64_small by (unfold is_u64; lia).
    assert (0 <= available * 100 / total <= 100) as Hb.
    { split; [apply Z.div_pos; lia|]. apply Z.div_le_upper_bound; lia. }
    rewrite u32_small by (unfold is_u32; lia). done.
Qed.

Example ComputeMemoryMarginPercent_spec_witness :
  ComputeMemoryMarginPercent 4294967296 17179869184 = Success 25.
Proof.
  refine (proj1 (proj2 (ComputeMemoryMarginPercent_spec 4294967296 17179869184 _ _) _ _ _));
    unfold is_u64; lia.
Defined.

(** Beyond that product the 64-bit multiplication wraps: a machine with
    everything available can be reported as having no margin at all. *)
Lemma ComputeMemoryMarginPercent_wraps :
  ∃ bytes, is_u64 bytes ∧ 0 < bytes ∧ ComputeMemoryMarginPercent bytes bytes = Success 0.
Proof. exists (2 ^ 63). unfold is_u64. repeat split; lia. Qed.

(** The half-open interval of margins of each class. *)
Definition class_interval (t : PolicyThresholds) (p : ResourcePressure) (m : Z) : Prop :=
  match p with
  | ResourcePressure.Comfortable => comfortableMarginPercent t < m <= 100
  | ResourcePressure.Adequate => adequateMarginPercent t < m <= comfortableMarginPercent t
  | ResourcePressure.Tight => tightMarginPercent t < m <= adequateMarginPercent t
  | ResourcePressure.Critical => 0 <= m <= tightMarginPercent t
  end.

Definition valid_thresholds (t : PolicyThresholds) : Prop :=
  0 <= tightMarginPercent t < adequateMarginPercent t ∧
  adequateMarginPercent t < comfortableMarginPercent t <= 100.

(** A margin is given a class exactly when the thresholds are valid and
    the margin is a percentage, and the class is the one whose interval holds
    it; the four intervals partition 0..100, a boundary belonging to the
    class of less margin. *)
Lemma ClassifyPressure_iff (m : Z) (t : PolicyThresholds) (p : ResourcePressure) :
  ClassifyPressure m t = Success p ↔ valid_thresholds t ∧ class_interval t p m.
Proof.
  unfold ClassifyPressure, valid_thresholds, class_interval. split.
  - intros H. split_matches; b2p; lia.
  - intros [Ht Hi].
    destruct p; repeat (split_match; b2p; try done; try lia);
      repeat match goal with H : _ ∨ _ |- _ => destruct H as [H|H] end; b2p; lia.
Qed.

(** ** Rules: theorems *)

(** The preconditions every suggestion shares. *)
Definition game_active (i : PolicyInput) : Prop :=
  running (game i) = true ∧ gameId (game i) ≠ "".

Definition may_suggest (i : PolicyInput) : Prop :=
  game_active i ∧ userPresent i = true ∧
  (foreground (game i) = true ∨ pauseWhenBackground (game i) = false).

(** The rules as an equivalence: a notification is raised exactly for a
    running game under critical pressure (whoever is present); memory tuning is
    suggested exactly under tight pressure, to a present user whose game is in
    front or may run in the background; a priority boost exactly with margin to
    spare, to a present user whose game is in front. Nothing else is ever
    advised, and the decision names the observed game. *)
Lemma EvaluatePolicy_iff (i : PolicyInput) :
  let d := EvaluatePolicy i in
  (action d = PolicyAction.Notify ↔
     game_active i ∧ pressure i = ResourcePressure.Critical) ∧
  (action d = PolicyAction.SuggestMemoryTune ↔
     may_suggest i ∧ pressure i = ResourcePressure.Tight) ∧
  (action d = PolicyAction.SuggestPriorityBoost ↔
     may_suggest i ∧ foreground (game i) = true ∧
     (pressure i = ResourcePressure.Adequate ∨
      pressure i = ResourcePressure.Comfortable)) ∧
  dec_gameId d = gameId (game i) ∧ ttlMs d = 0.
Proof.
  cbn zeta. destruct i as [p [g r f b] u].
  unfold may_suggest, game_active, EvaluatePolicy.
  cbn [pressure game userPresent running foreground pauseWhenBackground gameId].
  destruct r, g as [|c g], p, u, f, b; cbn;
    repeat split; intros; destruct_and?; destruct_or?; try done; naive_solver.
Qed.

Lemma EvaluatePolicy_ttl i : ttlMs (EvaluatePolicy i) = 0.
Proof. unfold EvaluatePolicy. by repeat split_match. Qed.

(** ** Debouncing: theorems *)

(** What the filter records is whether the last effective decision acts. *)
Definition evaluator_ok (e : PolicyEvaluator) : Prop :=
  flt_cooldown (filter_ e) = cooldown e ∧ 0 <= cooldown e ∧
  hasState (filter_ e) = hasLast e ∧
  (hasLast e = true → flt_state (filter_ e) = acting (lastDecision e)).

Lemma NewPolicyEvaluator_ok t c : evaluator_ok (NewPolicyEvaluator t c).
Proof.
  unfold evaluator_ok, NewPolicyEvaluator, NewHysteresisFilter, clamp0. cbn.
  repeat split; try done; destruct (Z.ltb_spec c 0); try done.
  all: by rewrite (proj2 (Z.ltb_ge c 0)).
Qed.

Lemma PolicyEvaluator_Reset_ok e : evaluator_ok e → evaluator_ok (PolicyEvaluator_Reset e).
Proof. unfold evaluator_ok. cbn. naive_solver. Qed.

Lemma SameDecision_acting a b : SameDecision a b = true → acting a = acting b.
Proof. unfold SameDecision, acting. intros H. b2p. by rewrite H. Qed.

Lemma Evaluate_ok i now e : evaluator_ok e → evaluator_ok (Evaluate i now e).2.
Proof.
  intros (Hc & H0 & Hs & Hl). unfold Evaluate, HysteresisFilter_Update. rewrite Hs.
  destruct (hasLast e) eqn:E; cbn [negb]; [|by repeat split].
  destruct (SameDecision _ _); [repeat split; cbn; auto; by rewrite E|].
  destruct (Bool.eqb _ (flt_state _)) eqn:Eb.
  - rewrite bool_eqb_sym in Eb. rewrite Eb. apply eqb_prop in Eb. by repeat split.
  - destruct (Z.ltb _ _).
    + rewrite bool_eqb_sym in Eb. rewrite Eb. repeat split; cbn; auto.
    + rewrite Bool.eqb_reflx. by repeat split.
Qed.

(** One evaluation, on every branch. The rules' decision is suppressed
    exactly when an earlier decision is in force, it disagrees with the new one
    on whether to act, and the last such change is less than the cooldown ago;
    then the last effective decision is repeated and nothing changes. Otherwise
    the rules' decision takes effect at once, valid for the cooldown if it acts
    and for no time if not. *)
Lemma Evaluate_spec (i : PolicyInput) (now : Z) (e : PolicyEvaluator) :
  evaluator_ok e →
  let fresh := fresh_decision i (cooldown e) in
  let held := hasLast e && negb (Bool.eqb (acting fresh) (acting (lastDecision e))) &&
              (now - lastChange (filter_ e) <? ns_of_ms (cooldown e)) in
  suppressed (Evaluate i now e).1 = held ∧
  decision (Evaluate i now e).1 = (if held then lastDecision e else fresh) ∧
  (held = true → (Evaluate i now e).2 = e) ∧
  IsActing (Evaluate i now e).2 = acting (decision (Evaluate i now e).1) ∧
  ttlMs fresh = (if acting fresh then cooldown e else 0).
Proof.
  intros (Hc & H0 & Hs & Hl). cbn zeta.
  assert (ttlMs (fresh_decision i (cooldown e)) =
          if acting (fresh_decision i (cooldown e)) then cooldown e else 0) as Ht.
  { unfold fresh_decision. destruct (acting (EvaluatePolicy i)) eqn:E; cbn.
    - unfold acting in *. cbn. by rewrite E.
    - rewrite E. apply EvaluatePolicy_ttl. }
  set (fresh := fresh_decision i (cooldown e)) in *.
  unfold Evaluate, HysteresisFilter_Update, IsActing, HysteresisFilter_State.
  fold fresh. rewrite Hs.
  destruct (hasLast e) eqn:E; cbn [negb andb]; [|by repeat split].
  rewrite Hc, Hl by done.
  destruct (SameDecision _ _) eqn:Esame.
  { apply SameDecision_acting in Esame. rewrite Esame, Bool.eqb_reflx. cbn.
    rewrite Hl by done. by repeat split. }
  destruct (Bool.eqb (acting fresh) (acting (lastDecision e))) eqn:Eb; cbn [negb andb].
  - rewrite bool_eqb_sym, Eb. cbn. apply eqb_prop in Eb.
    rewrite Hl by done. by repeat split.
  - destruct (Z.ltb _ _); cbn [andb].
    + rewrite bool_eqb_sym, Eb. cbn. repeat split; auto.
      destruct e as [? ? [] ? ?]; cbn in *. by subst.
    + rewrite Bool.eqb_reflx. by repeat split.
Qed.

Definition sample_input (fg : bool) : PolicyInput :=
  MkInput ResourcePressure.Comfortable (MkFocus "game" true fg true) true.

(** An evaluator with a 5 s cooldown that has advised a boost at time 0. *)
Definition boosted_evaluator : PolicyEvaluator :=
  (Evaluate (sample_input true) 0 (NewPolicyEvaluator default_thresholds 5000)).2.

Example Evaluate_spec_witness :
  suppressed (Evaluate (sample_input false) (ns_of_ms 4999) boosted_evaluator).1 = true ∧
  suppressed (Evaluate (sample_input false) (ns_of_ms 5000) boosted_evaluator).1 = false.
Proof.
  assert (evaluator_ok boosted_evaluator) as H
    by (apply Evaluate_ok, NewPolicyEvaluator_ok).
  split.
  - exact (proj1 (Evaluate_spec (sample_input false) (ns_of_ms 4999) _ H)).
  - exact (proj1 (Evaluate_spec (sample_input false) (ns_of_ms 5000) _ H)).
Defined.

(** *** Runs *)

(** A run of evaluations: the times with the decisions reported. *)
Fixpoint run_policy (inputs : list (PolicyInput * Z)) (e : PolicyEvaluator)
  : list (Z * PolicyDecision) :=
  match inputs with
  | [] => []
  | (i, now) :: rest =>
      let '(r, e') := Evaluate i now e in (now, decision r) :: run_policy rest e'
  end.

(** The times at which the reported decisions start or stop acting. *)
Fixpoint switches (prev : bool) (outs : list (Z * PolicyDecision)) : list Z :=
  match outs with
  | [] => []
  | (now, d) :: rest =>
      if Bool.eqb (acting d) prev then switches prev rest
      else now :: switches (acting d) rest
  end.

Fixpoint spaced (gap last : Z) (times : list Z) : Prop :=
  match times with
  | [] => True
  | t :: rest => last + gap <= t ∧ spaced gap t rest
  end.

Lemma Evaluate_last i now e :
  evaluator_ok e → hasLast e = true →
  acting (decision (Evaluate i now e).1) = acting (lastDecision (Evaluate i now e).2) ∧
  hasLast (Evaluate i now e).2 = true ∧
  cooldown (Evaluate i now e).2 = cooldown e ∧
  ((acting (decision (Evaluate i now e).1) = acting (lastDecision e) ∧
    lastChange (filter_ (Evaluate i now e).2) = lastChange (filter_ e)) ∨
   (acting (decision (Evaluate i now e).1) <> acting (lastDecision e) ∧
    lastChange (filter_ (Evaluate i now e).2) = now ∧
    lastChange (filter_ e) + ns_of_ms (cooldown e) <= now)).
Proof.
  intros (Hc & H0 & Hs & Hl) E. specialize (Hl E). rewrite E in Hs.
  unfold Evaluate, HysteresisFilter_Update. rewrite E, Hs, Hc, Hl. cbn [negb].
  set (fresh := fresh_decision i (cooldown e)).
  destruct (SameDecision _ _) eqn:Esame.
  { apply SameDecision_acting in Esame. cbn. rewrite Esame. auto 10. }
  destruct (Bool.eqb (acting fresh) (acting (lastDecision e))) eqn:Eb.
  - apply eqb_prop in Eb. rewrite Eb, Bool.eqb_reflx. cbn. rewrite Eb. auto 10.
  - destruct (Z.ltb_spec (now - lastChange (filter_ e)) (ns_of_ms (cooldown e))).
    + rewrite bool_eqb_sym, Eb. cbn. auto 10.
    + rewrite Bool.eqb_reflx. cbn. split; [done|]. split; [done|]. split; [done|]. right.
      apply eqb_false_iff in Eb. repeat split; [done|lia].
Qed.

Lemma run_policy_spaced inputs e :
  evaluator_ok e → hasLast e = true →
  spaced (ns_of_ms (cooldown e)) (lastChange (filter_ e))
    (switches (acting (lastDecision e)) (run_policy inputs e)).
Proof.
  revert e. induction inputs as [|[i now] rest IH]; intros e Hok Hlast; cbn; [done|].
  pose proof (Evaluate_ok i now e Hok) as Hok'.
  destruct (Evaluate_last i now e Hok Hlast) as (Ed & Hlast' & Hcd & Hcase).
  destruct (Evaluate i now e) as [r e'] eqn:Er. cbn in *.
  specialize (IH e' Hok' Hlast'). rewrite <- Ed, Hcd in IH.
  destruct Hcase as [[Ha Hch]|(Ha & Hch & Hle)].
  - rewrite Ha, Bool.eqb_reflx. by rewrite Hch, Ha in IH.
  - rewrite (proj2 (eqb_false_iff _ _)) by done. cbn. by rewrite Hch in IH.
Qed.

(** C37. In every run of an evaluator, whatever the inputs and their times,
    the reported decisions start or stop acting at most once per cooldown: any
    two successive changes are at least the cooldown apart, the first evaluation
    counting as one. *)
Theorem run_policy_no_flapping
    (t : PolicyThresholds) (c : Z) (i : PolicyInput) (now : Z)
    (inputs : list (PolicyInput * Z)) :
  let outs := run_policy ((i, now) :: inputs) (NewPolicyEvaluator t c) in
  ∃ d rest, outs = (now, d) :: rest ∧
    spaced (ns_of_ms (Z.max 0 c)) now (switches (acting d) rest).
Proof.
  pose proof (Evaluate_ok i now _ (NewPolicyEvaluator_ok t c)) as Hok.
  cbn zeta. cbn [run_policy].
  destruct (Evaluate i now (NewPolicyEvaluator t c)) as [r e'] eqn:Er.
  exists (decision r), (run_policy inputs e'). split; [done|].
  unfold Evaluate in Er. cbn in Er. injection Er as <- <-.
  pose proof (run_policy_spaced inputs _ Hok eq_refl) as H. cbn in H |- *.
  unfold clamp0 in *.
  replace (Z.max 0 c) with (if c <? 0 then 0 else c); [exact H|].
  destruct (Z.ltb_spec c 0); lia.
Qed.
