(* ===== verification/SafetyGates.v ===== *)
(** The six gates before a dangerous capability ([policy/safety_gates.hpp],
    [source/policy/safety_gates.cpp]): the ordered verdict, the environment
    gate, the cooldown gate with its ledger file, and the report. *)

From S2P Require Import Prelude CommonError Containers Paths.

Open Scope string_scope.
Open Scope list_scope.
Open Scope Z_scope.

(** ** Verdict *)

Module GateId.
Inductive GateId :=
  CompileTime | Config | CommandLine | PermissionAndEnvironment | Audit | Cooldown.
End GateId.
Abbreviation GateId := GateId.GateId.

#[export] Instance GateId_eq_dec : EqDecision GateId.
Proof. solve_decision. Defined.

Definition GateIdToString (g : GateId) : string :=
  match g with
  | GateId.CompileTime => "compile"
  | GateId.Config => "config"
  | GateId.CommandLine => "cmdline"
  | GateId.PermissionAndEnvironment => "perm_env"
  | GateId.Audit => "audit"
  | GateId.Cooldown => "cooldown"
  end.

Record GateInputs := MkGateInputs {
  gate_compileTime : bool;
  gate_config : bool;
  gate_commandLine : bool;
  gate_permissionAndEnvironment : bool;
  gate_audit : bool;
  gate_cooldown : bool
}.

Record GateEvaluation := MkGateEvaluation {
  gates : GateInputs;
  allowed : bool;
  firstBlocking : option GateId
}.

Definition ordered_gates (i : GateInputs) : list (GateId * bool) :=
  [(GateId.CompileTime, gate_compileTime i);
   (GateId.Config, gate_config i);
   (GateId.CommandLine, gate_commandLine i);
   (GateId.PermissionAndEnvironment, gate_permissionAndEnvironment i);
   (GateId.Audit, gate_audit i);
   (GateId.Cooldown, gate_cooldown i)].

Definition gate_step (e : GateEvaluation) (gate : GateId * bool) : GateEvaluation :=
  if gate.2 then e
  else MkGateEvaluation (gates e) false
         (match firstBlocking e with None => Some gate.1 | b => b end).

Definition EvaluateGates (i : GateInputs) : GateEvaluation :=
  foldl gate_step (MkGateEvaluation i true None) (ordered_gates i).

Record EnvironmentFacts := MkEnvironment {
  factsKnown : bool;
  osSupported : bool;
  onBattery : bool;
  remoteSession : bool;
  sessionLocked : bool;
  interactiveSession : bool
}.

Definition EvaluateEnvironmentGate (f : EnvironmentFacts) : bool :=
  factsKnown f && osSupported f && negb (onBattery f) && negb (remoteSession f) &&
  negb (sessionLocked f) && interactiveSession f.

(** ** What is compiled in *)

(** The switches of the build: [OPTIMIZER_ENABLE_<capability>] is 1, or 0 by
    default. *)
Class BuildOptions := {
  OPTIMIZER_ENABLE_MEMORY_CLEAN : bool;
  OPTIMIZER_ENABLE_POWER_SCHEME_SWITCH : bool;
  OPTIMIZER_ENABLE_STANDBY_PURGE : bool;
  OPTIMIZER_ENABLE_SCHEDULER_TUNER : bool;
  OPTIMIZER_ENABLE_FILE_CACHE_TRIM : bool
}.

Section CompiledIn.
Context `{BuildOptions}.

Definition MemoryCleanCompiledIn : bool := OPTIMIZER_ENABLE_MEMORY_CLEAN.
Definition PowerSchemeSwitchCompiledIn : bool := OPTIMIZER_ENABLE_POWER_SCHEME_SWITCH.
Definition StandbyPurgeCompiledIn : bool := OPTIMIZER_ENABLE_STANDBY_PURGE.
Definition SchedulerTunerCompiledIn : bool := OPTIMIZER_ENABLE_SCHEDULER_TUNER.
Definition FileCacheTrimCompiledIn : bool := OPTIMIZER_ENABLE_FILE_CACHE_TRIM.
End CompiledIn.

Definition kMemoryCleanCapabilityId : string := "memory.clean".
Definition kPowerSchemeCapabilityId : string := "power.switch_power_scheme".
Definition kStandbyPurgeCapabilityId : string := "memory.purge_standby".
Definition kSchedulerTunerCapabilityId : string := "scheduler.tuner".
Definition kFileCacheTrimCapabilityId : string := "memory.file_cache_trim".
Definition kServiceRegistrationCapabilityId : string := "service.registration".

(** ** Cooldown ledger *)

Definition kCooldownEnvelope : string := "CppOptimizerCooldowns/1".

(** 15 minutes, in seconds. *)
Definition kDefaultCooldown : Z := 15 * 60.

Definition CooldownLedger : Type := smap Z.

(** Times are Unix seconds; the recorded one is positive where it is
    subtracted, so the difference fits 64 bits for any [now] not below 0. *)
Definition EvaluateCooldownGate (ledger : CooldownLedger) (capabilityId : string)
    (nowUnixSeconds cooldown : Z) : bool :=
  match smap_find capabilityId ledger with
  | None => true
  | Some last =>
      if last <=? 0 then true
      else
        let elapsed := nowUnixSeconds - last in
        if elapsed <? 0 then false else cooldown <=? elapsed
  end.

Definition WithCooldownRun (ledger : CooldownLedger) (capabilityId : string)
    (nowUnixSeconds : Z) : CooldownLedger :=
  if string_empty capabilityId || (nowUnixSeconds <=? 0) then ledger
  else
    let later := match smap_find capabilityId ledger with
                 | Some last => nowUnixSeconds <? last
                 | None => false
                 end in
    if later then ledger else smap_set capabilityId nowUnixSeconds ledger.

(** One line after the envelope. *)
Definition ledger_line (ledger : CooldownLedger) (line : string) : CooldownLedger :=
  if string_empty line then ledger
  else match cut " " line with
  | None => ledger
  | Some (k, v) =>
      match stoll v with Some n => smap_set k n ledger | None => ledger end
  end.

Definition parse_ledger (text : string) : CooldownLedger :=
  match getlines text with
  | [] => []
  | first :: rest =>
      if negb (String.eqb first kCooldownEnvelope) then []
      else foldl ledger_line [] rest
  end.

Definition format_ledger (ledger : CooldownLedger) : string :=
  unlines (kCooldownEnvelope :: map (λ e, e.1 +:+ " " +:+ to_string e.2) ledger).

Section Files.
Context {W : Type} `{SystemMessages} `{FileSystem W}.

Definition ReadCooldownLedger (path : string) (w : W) : Result CooldownLedger :=
  if string_empty path then
    Failure (Validation "ReadCooldownLedger" "路径不能为空")
  else if is_directory path w then
    Failure (Validation "ReadCooldownLedger" "冷却台账路径是目录，不是文件")
  else
    let '(ex, ec) := exists_file path w in
    if negb ex then
      if negb (ec =? 0) then Failure (FromWin32 (u32 ec) "exists(cooldown ledger)")
      else Success []
    else match open_read path w with
    | None => Failure (FromWin32 (u32 (GetLastError w)) "open cooldown ledger")
    | Some text => Success (parse_ledger text)
    end.

Definition write_and_replace (path text : string) : M W (Result unit) :=
  let tempPath := path +:+ ".tmp" in
  out <-- write_trunc tempPath text ;;
  match out with
  | OpenFailed => λ w,
      (Failure (FromWin32 (u32 (GetLastError w))
                  "open cooldown ledger temp file for write"), w)
  | FlushFailed =>
      remove_file tempPath ;;;
      λ w, (Failure (FromWin32 (u32 (GetLastError w)) "flush cooldown ledger temp file"), w)
  | Written =>
      moved <-- MoveFileExW tempPath path ;;
      if negb moved then λ w,
        let code := u32 (GetLastError w) in
        (remove_file tempPath ;;;
         mret (Failure (FromWin32 code "MoveFileExW(cooldown ledger)"))) w
      else mret (Success tt)
  end.

Definition WriteCooldownLedger (path : string) (ledger : CooldownLedger)
  : M W (Result unit) :=
  if string_empty path then
    mret (Failure (Validation "WriteCooldownLedger" "路径不能为空"))
  else
    let parent := parent_path path in
    ec <-- (if string_empty parent then mret 0 else create_directories parent) ;;
    if negb (ec =? 0) then
      mret (Failure (FromWin32 (u32 ec) "create_directories(cooldown ledger)"))
    else write_and_replace path (format_ledger ledger).

Definition RecordCooldownRun (path capabilityId : string) (nowUnixSeconds : Z)
  : M W (Result unit) :=
  if string_empty path then
    mret (Failure (Validation "RecordCooldownRun" "路径不能为空"))
  else if string_empty capabilityId then
    mret (Failure (Validation "RecordCooldownRun" "能力 ID 不能为空"))
  else λ w,
    match ReadCooldownLedger path w with
    | Failure e => (Failure e, w)
    | Success ledger =>
        WriteCooldownLedger path (WithCooldownRun ledger capabilityId nowUnixSeconds) w
    end.
End Files.

(** ** Report *)

Record GatesReportEntry := MkGatesReportEntry {
  ent_name : string;
  ent_allowed : bool;
  ent_firstBlocking : string
}.

Record GatesReport := MkGatesReport {
  readOnly : bool;
  acknowledged : bool;
  isolatedAcknowledged : bool;
  rep_factsKnown : bool;
  rep_osSupported : bool;
  rep_onBattery : bool;
  rep_remoteSession : bool;
  rep_sessionLocked : bool;
  auditWritable : bool;
  capabilities : list GatesReportEntry
}.

(** The double quote. *)
Definition Q : string := String "034" EmptyString.

Definition json_bool (b : bool) : string := if b then "true" else "false".

Definition json_entry (i : nat) (e : GatesReportEntry) : string :=
  (if (0 <? Z.of_nat i) then "," else "") +:+
  "{" +:+ Q +:+ "name" +:+ Q +:+ ":" +:+ Q +:+ ent_name e +:+ Q +:+ "," +:+
  Q +:+ "allowed" +:+ Q +:+ ":" +:+ json_bool (ent_allowed e) +:+ "," +:+
  Q +:+ "firstBlocking" +:+ Q +:+ ":" +:+
  (if string_empty (ent_firstBlocking e) then "null"
   else Q +:+ ent_firstBlocking e +:+ Q) +:+ "}".

Fixpoint json_entries (i : nat) (es : list GatesReportEntry) : string :=
  match es with
  | [] => ""
  | e :: r => json_entry i e +:+ json_entries (S i) r
  end.

Definition json_field (name : string) (b : bool) : string :=
  Q +:+ name +:+ Q +:+ ":" +:+ json_bool b.

Definition FormatGatesJson (r : GatesReport) : string :=
  "{" +:+ json_field "readOnly" (readOnly r) +:+
  "," +:+ json_field "acknowledged" (acknowledged r) +:+
  "," +:+ json_field "isolatedAcknowledged" (isolatedAcknowledged r) +:+
  "," +:+ Q +:+ "environment" +:+ Q +:+ ":{" +:+ json_field "factsKnown" (rep_factsKnown r) +:+
  "," +:+ json_field "osSupported" (rep_osSupported r) +:+
  "," +:+ json_field "onBattery" (rep_onBattery r) +:+
  "," +:+ json_field "remoteSession" (rep_remoteSession r) +:+
  "," +:+ json_field "sessionLocked" (rep_sessionLocked r) +:+
  "," +:+ json_field "auditWritable" (auditWritable r) +:+
  "}," +:+ Q +:+ "capabilities" +:+ Q +:+ ":[" +:+
  json_entries 0 (capabilities r) +:+ "]}".

(** ** Verdict: theorems *)

Lemma gate_step_fold gs e :
  firstBlocking (foldl gate_step e gs) =
    match firstBlocking e with
    | Some g => Some g
    | None => fst <$> List.find (λ g, negb g.2) gs
    end ∧
  allowed (foldl gate_step e gs) = allowed e && forallb snd gs ∧
  gates (foldl gate_step e gs) = gates e.
Proof.
  revert e. induction gs as [|[g b] gs IH]; intros e; cbn.
  { rewrite andb_true_r. by destruct (firstBlocking e). }
  destruct (IH (gate_step e (g, b))) as (-> & -> & ->).
  destruct b; cbn; [done|]. rewrite andb_false_r. by destruct (firstBlocking e).
Qed.

(** The verdict allows a capability exactly when all six gates pass;
    otherwise it names the gate that does not pass while every gate before it,
    in the order of their declaration, does. *)
Lemma EvaluateGates_spec (i : GateInputs) :
  let e := EvaluateGates i in
  gates e = i ∧
  (allowed e = true ↔ ∀ g, g ∈ ordered_gates i → g.2 = true) ∧
  (allowed e = true ↔ firstBlocking e = None) ∧
  (∀ g, firstBlocking e = Some g ↔
     ∃ before after, ordered_gates i = before ++ (g, false) :: after ∧
                     forallb snd before = true).
Proof.
  cbn zeta. destruct (gate_step_fold (ordered_gates i) (MkGateEvaluation i true None))
    as (Hf & Ha & Hg).
  unfold EvaluateGates. rewrite Hf, Ha, Hg. cbn [firstBlocking allowed gates andb].
  clear Hf Ha Hg. split; [done|].
  assert (∀ gs : list (GateId * bool),
    (fst <$> List.find (λ g, negb g.2) gs = None ↔ forallb snd gs = true) ∧
    ∀ g, fst <$> List.find (λ g, negb g.2) gs = Some g ↔
      ∃ before after, gs = before ++ (g, false) :: after ∧ forallb snd before = true)
    as Hfind.
  { induction gs as [|[g0 b] gs [IH1 IH2]]; cbn.
    - split; [done|]. intros g. split; [done|]. by intros ([|] & ? & ? & ?).
    - destruct b; cbn.
      + split; [done|]. intros g. rewrite IH2. split.
        * intros (bs & a & -> & Hb). by exists ((g0, true) :: bs), a.
        * intros ([|[? ?] bs] & a & E & Hb); [done|].
          cbn in E. injection E as <- <- ->. by exists bs, a.
      + split; [done|]. intros g. split.
        * intros [= <-]. by exists [], gs.
        * intros ([|[? ?] bs] & a & E & Hb); injection E; intros; subst; done. }
  destruct (Hfind (ordered_gates i)) as [H1 H2].
  split; [|split; [by rewrite H1|exact H2]].
  rewrite forallb_forall. split; intros H g Hin; apply H; by apply list_elem_of_In.
Qed.

(** ** Ledger: theorems *)

Lemma WithCooldownRun_find l id now id' :
  smap_find id' (WithCooldownRun l id now) =
  if negb (string_empty id) && (0 <? now) && String.eqb id id' then
    match smap_find id l with
    | Some last => Some (Z.max now last)
    | None => Some now
    end
  else smap_find id' l.
Proof.
  unfold WithCooldownRun. destruct (string_empty id); [done|]. cbn [orb negb andb].
  destruct (Z.leb_spec now 0), (Z.ltb_spec 0 now); try lia; cbn [andb]; [done|].
  destruct (String.eqb_spec id id') as [<-|Hne].
  - destruct (smap_find id l) as [last|] eqn:Hl; [destruct (Z.ltb_spec now last)|].
    + rewrite Hl. f_equal. lia.
    + rewrite smap_find_set, String.eqb_refl. f_equal. lia.
    + by rewrite smap_find_set, String.eqb_refl.
  - destruct (match smap_find id l with Some _ => _ | None => _ end); [done|].
    by rewrite smap_find_set, (proj2 (String.eqb_neq _ _)).
Qed.

Lemma WithCooldownRun_closes l id now t cooldown :
  id ≠ "" → 0 < now →
  EvaluateCooldownGate (WithCooldownRun l id now) id t cooldown = true →
  now + Z.max 0 cooldown <= t.
Proof.
  intros Hid Hnow. unfold EvaluateCooldownGate.
  rewrite WithCooldownRun_find, String.eqb_refl, (proj2 (Z.ltb_lt 0 now)) by done.
  destruct (string_empty id) eqn:He; [by apply string_empty_iff in He|]. cbn [negb andb].
  destruct (smap_find id l); split_matches; b2p; try done; intros; b2p; lia.
Qed.

Lemma WithCooldownRun_other l id now id' t cooldown :
  id' ≠ id →
  EvaluateCooldownGate (WithCooldownRun l id now) id' t cooldown =
  EvaluateCooldownGate l id' t cooldown.
Proof.
  intros Hne. unfold EvaluateCooldownGate.
  by rewrite WithCooldownRun_find, (proj2 (String.eqb_neq id id')), andb_false_r.
Qed.

(** Recording a run never opens a gate: whatever the clock says, if a
    capability may run after the run of any capability is entered in the
    ledger, it might have run before. Entering a run closes the gate of its
    capability until the cooldown has passed since then, and leaves every other
    gate as it was. *)
Lemma WithCooldownRun_never_shortens
    (l : CooldownLedger) (id id' : string) (now t cooldown : Z) :
  (EvaluateCooldownGate (WithCooldownRun l id now) id' t cooldown = true →
   EvaluateCooldownGate l id' t cooldown = true) ∧
  (id ≠ "" → 0 < now →
   EvaluateCooldownGate (WithCooldownRun l id now) id t cooldown = true →
   now + Z.max 0 cooldown <= t) ∧
  (id' ≠ id →
   EvaluateCooldownGate (WithCooldownRun l id now) id' t cooldown =
   EvaluateCooldownGate l id' t cooldown).
Proof.
  split; [|split; [apply WithCooldownRun_closes|apply WithCooldownRun_other]].
  unfold EvaluateCooldownGate. rewrite WithCooldownRun_find.
  destruct (_ && _) eqn:E; [|done]. b2p. subst id'.
  destruct (smap_find id l); split_matches; b2p; try done; intros; b2p; lia.
Qed.

(** A capability id the line format can carry. *)
Definition plain_id (k : string) : bool :=
  no_lf k && all_chars (λ c, negb (Ascii.eqb " " c)) k.

Definition ledger_ok (l : CooldownLedger) : Prop :=
  smap_sorted l ∧ Forall (λ e, plain_id e.1 = true ∧ is_i64 e.2) l.

Lemma to_string_no_lf n : no_lf (to_string n) = true.
Proof.
  assert (∀ m, 0 <= m → no_lf (to_string m) = true) as H.
  { intros m Hm. eapply all_chars_impl; [|apply (to_string_digits m Hm)].
    by intros [[] [] [] [] [] [] [] []]. }
  destruct (Z.ltb_spec n 0); [|by apply H].
  assert (to_string n = String "-" (to_string (- n))) as ->.
  { unfold to_string. rewrite (proj2 (Z.ltb_lt n 0)), (proj2 (Z.ltb_ge (- n) 0)) by lia.
    done. }
  unfold no_lf. cbn. apply H. lia.
Qed.

Lemma ledger_lines l :
  Forall (λ e, plain_id e.1 = true ∧ is_i64 e.2) l →
  forallb no_lf (map (λ e, e.1 +:+ " " +:+ to_string e.2) l) = true ∧
  (∀ acc, foldl ledger_line acc (map (λ e, e.1 +:+ " " +:+ to_string e.2) l) =
          foldl (λ a p, smap_set p.1 p.2 a) acc l).
Proof.
  induction 1 as [|[k v] l [Hk Hv] _ [IH1 IH2]]; [done|].
  cbn [map forallb foldl fst snd] in *. unfold plain_id in Hk.
  apply andb_true_iff in Hk as [Hlf Hsp]. split.
  - rewrite IH1, andb_true_r. unfold no_lf in *. rewrite !all_chars_app, Hlf. cbn.
    apply to_string_no_lf.
  - intros acc. rewrite IH2. f_equal. unfold ledger_line. change (" " +:+ to_string v)
      with (String " " (to_string v)).
    destruct (string_empty (k +:+ String " " (to_string v))) eqn:He.
    { by destruct k. }
    by rewrite cut_char, stoll_to_string.
Qed.

Lemma parse_format_ledger l : ledger_ok l → parse_ledger (format_ledger l) = l.
Proof.
  intros [Hs Hall]. unfold parse_ledger, format_ledger.
  destruct (ledger_lines l Hall) as [H1 H2].
  rewrite getlines_unlines by (cbn [forallb]; by rewrite H1).
  cbn [String.eqb negb]. rewrite String.eqb_refl. cbn [negb]. rewrite H2.
  by rewrite (smap_rebuild l []).
Qed.

Lemma ledger_ok_set l k v :
  ledger_ok l → plain_id k = true → is_i64 v → ledger_ok (smap_set k v l).
Proof.
  intros [Hs Hall] Hk Hv. split; [by apply smap_set_sorted|].
  by apply (smap_set_keys k v l (λ e, plain_id e.1 = true ∧ is_i64 e.2)).
Qed.

Lemma parse_ledger_ok text : ledger_ok (parse_ledger text).
Proof.
  assert (ledger_ok []) as Hnil by (split; constructor).
  unfold parse_ledger. pose proof (getlines_no_lf text) as Hlf.
  destruct (getlines text) as [|first rest]; [done|]. destruct (negb _); [done|].
  cbn in Hlf. apply andb_true_iff in Hlf as [_ Hlf].
  revert Hnil. generalize (@nil (string * Z)) as acc.
  induction rest as [|line rest IH]; intros acc Hacc; cbn; [done|].
  cbn in Hlf. apply andb_true_iff in Hlf as [Hl Hlf]. apply IH; [done|].
  unfold ledger_line. destruct (string_empty line); [done|].
  destruct (cut " " line) as [[k v]|] eqn:Hc; [|done].
  destruct (stoll v) eqn:Hv; [|done].
  apply ledger_ok_set; [done| |by eapply stoll_range].
  unfold plain_id. rewrite (cut_char_prefix _ _ _ _ Hc), andb_true_r.
  apply cut_spec in Hc as ->. unfold no_lf in *. rewrite all_chars_app in Hl.
  by apply andb_true_iff in Hl as [? _].
Qed.

Lemma WithCooldownRun_ok l id now :
  ledger_ok l → plain_id id = true → is_i64 now → ledger_ok (WithCooldownRun l id now).
Proof.
  intros Hl Hid Hnow. unfold WithCooldownRun. destruct (_ || _); [done|].
  cbv zeta. destruct (match smap_find id l with Some _ => _ | None => _ end); [done|].
  by apply ledger_ok_set.
Qed.

Section FileTheorems.
Context {W : Type} `{!SystemMessages} `{FS : !FileSystem W} `{!FileSystemLaws W}.

Lemma write_and_replace_spec path text w r w' :
  write_and_replace path text w = (r, w') →
  (∀ q, q ≠ path → q ≠ path +:+ ".tmp" → file q w' = file q w) ∧
  match r with
  | Success _ => file path w' = Some text
  | Failure _ => file path w' = file path w
  end.
Proof.
  pose proof (tmp_path_ne path ".tmp" ltac:(done)) as Hne.
  unfold write_and_replace, mthen, mret.
  pose proof (λ q, write_trunc_other (path +:+ ".tmp") text w q) as Ho.
  destruct (write_trunc (path +:+ ".tmp") text w) as [[] w1] eqn:Hw; cbn in Ho.
  - pose proof (write_trunc_file _ _ _ _ Hw) as Hf.
    pose proof (λ q, move_file_other (path +:+ ".tmp") path w1 q) as Hmo.
    destruct (MoveFileExW _ _ w1) as [[] w2] eqn:Hm; cbn in *.
    + intros [= <- <-]. destruct (move_file _ _ _ _ Hm Hne) as [Hm1 _]. split.
      * intros q H1 H2. by rewrite Hmo, Ho.
      * by rewrite Hm1.
    + pose proof (λ q, remove_file_other (path +:+ ".tmp") w2 q) as Hro.
      destruct (remove_file _ w2) as [[] w3]. intros [= <- <-]. cbn in Hro.
      assert (∀ q, q ≠ path +:+ ".tmp" → file q w3 = file q w) as Hq.
      { intros q H1. rewrite Hro, (move_file_fail _ _ _ _ q Hm), Ho; done. }
      split; [auto|by apply Hq].
  - intros [= <- <-]. split; [intros q _ _|]; by eapply write_trunc_open.
  - pose proof (λ q, remove_file_other (path +:+ ".tmp") w1 q) as Hro.
    destruct (remove_file _ w1) as [[] w2]. intros [= <- <-]. cbn in Hro.
    split; [intros q H1 H2|]; by rewrite Hro, Ho by done.
Qed.

(** C39. Writing the ledger is atomic: on success the file holds the whole new
    ledger, on any failure, at whatever step, it still holds what it held
    before; only the ledger and its temporary file are touched. *)
Theorem WriteCooldownLedger_atomic (path : string) (l : CooldownLedger) (w : W) :
  let '(r, w') := WriteCooldownLedger path l w in
  (∀ q, q ≠ path → q ≠ path +:+ ".tmp" → file q w' = file q w) ∧
  match r with
  | Success _ => file path w' = Some (format_ledger l)
  | Failure _ => file path w' = file path w
  end.
Proof.
  unfold WriteCooldownLedger. destruct (string_empty path) eqn:Hp; [done|].
  unfold mthen, mret.
  destruct (string_empty (parent_path path)).
  - change (0 =? 0) with true. cbn [negb].
    destruct (write_and_replace path (format_ledger l) w) as [r w'] eqn:E.
    by apply write_and_replace_spec in E.
  - pose proof (λ q, create_directories_file (parent_path path) q w) as Hd.
    destruct (create_directories _ w) as [ec w1]. cbn in Hd.
    destruct (negb (ec =? 0)); [by split|].
    destruct (write_and_replace path (format_ledger l) w1) as [r w'] eqn:E.
    apply write_and_replace_spec in E as [E1 E2]. rewrite <- (Hd path). split; [|done].
    intros q H1 H2. by rewrite E1, Hd.
Qed.

Lemma WriteCooldownLedger_Success path l w w' :
  WriteCooldownLedger path l w = (Success tt, w') → file path w' = Some (format_ledger l).
Proof.
  intros E. unfold WriteCooldownLedger in E. destruct (string_empty path); [done|].
  unfold mthen, mret in E. destruct (string_empty (parent_path path)).
  - by apply write_and_replace_spec in E as [_ E].
  - destruct (create_directories _ w) as [ec w1].
    destruct (negb (ec =? 0)); [done|]. by apply write_and_replace_spec in E as [_ E].
Qed.

Lemma ReadCooldownLedger_file path w l t :
  ReadCooldownLedger path w = Success l → file path w = Some t → l = parse_ledger t.
Proof.
  unfold ReadCooldownLedger. intros Hr Hf.
  destruct (string_empty path); [done|]. destruct (is_directory path w); [done|].
  destruct (exists_file path w) as [[] ec] eqn:Hex; cbn [negb] in Hr.
  - destruct (open_read path w) eqn:Ho; [|done]. injection Hr as <-.
    apply open_read_file in Ho. congruence.
  - destruct (Z.eqb_spec ec 0) as [->|]; [|done]. cbn in Hr.
    apply exists_file_none in Hex. congruence.
Qed.

Lemma ReadCooldownLedger_ok path w l : ReadCooldownLedger path w = Success l → ledger_ok l.
Proof.
  unfold ReadCooldownLedger. intros Hr.
  destruct (string_empty path); [done|]. destruct (is_directory path w); [done|].
  destruct (exists_file path w) as [[] ec]; cbn [negb] in Hr.
  - destruct (open_read path w); [|done]. injection Hr as <-. apply parse_ledger_ok.
  - destruct (negb _); [done|]. injection Hr as <-. split; constructor.
Qed.

(** A ledger of plain ids and 64-bit times that was written is the ledger
    that is read back: reading may fail, but yields no other ledger. *)
Lemma ReadCooldownLedger_Write (path : string) (l l' : CooldownLedger) (w w' : W) :
  ledger_ok l →
  WriteCooldownLedger path l w = (Success tt, w') →
  ReadCooldownLedger path w' = Success l' →
  l' = l.
Proof.
  intros Hok Hw%WriteCooldownLedger_Success Hr.
  rewrite (ReadCooldownLedger_file _ _ _ _ Hr Hw). by apply parse_format_ledger.
Qed.

(** A recorded run keeps its capability's gate closed for the whole
    cooldown: after [RecordCooldownRun] succeeds, any ledger later read from
    that file lets the capability run again no earlier than [now] plus the
    cooldown, and for every other capability says what the file said before. *)
Lemma RecordCooldownRun_enforced
    (path id : string) (now t cooldown : Z) (l0 l : CooldownLedger) (w w' : W) :
  plain_id id = true → is_i64 now → 0 < now →
  ReadCooldownLedger path w = Success l0 →
  RecordCooldownRun path id now w = (Success tt, w') →
  ReadCooldownLedger path w' = Success l →
  (EvaluateCooldownGate l id t cooldown = true → now + Z.max 0 cooldown <= t) ∧
  (∀ id', id' ≠ id →
     EvaluateCooldownGate l id' t cooldown = EvaluateCooldownGate l0 id' t cooldown).
Proof.
  intros Hid Hnow Hpos Hr0 Hrec Hr. unfold RecordCooldownRun in Hrec.
  destruct (string_empty path); [done|]. destruct (string_empty id) eqn:He; [done|].
  rewrite Hr0 in Hrec.
  pose proof (ReadCooldownLedger_ok _ _ _ Hr0) as Hok0.
  pose proof (WithCooldownRun_ok l0 id now Hok0 Hid Hnow) as Hok1.
  apply WriteCooldownLedger_Success in Hrec.
  rewrite (ReadCooldownLedger_file _ _ _ _ Hr Hrec), parse_format_ledger by done.
  split.
  - apply WithCooldownRun_closes; [|done]. intros E. by rewrite E in He.
  - intros id' Hne. by apply WithCooldownRun_other.
Qed.
End FileTheorems.

Definition sample_ledger : CooldownLedger :=
  smap_set "power.switch_power_scheme" 1700000000 (smap_set "memory.clean" 1600000000 []).

#[local] Instance quiet : SystemMessages := no_messages.

Example WriteCooldownLedger_atomic_witness :
  file "l.txt" (WriteCooldownLedger "l.txt" sample_ledger empty_fs).2 =
  Some (format_ledger sample_ledger).
Proof.
  pose proof (WriteCooldownLedger_atomic "l.txt" sample_ledger empty_fs) as H.
  vm_compute in H |- *. exact (proj2 H).
Defined.

Lemma sample_ledger_ok : ledger_ok sample_ledger.
Proof.
  apply ledger_ok_set; [|done|by vm_compute].
  apply ledger_ok_set; [split; constructor|done|by vm_compute].
Qed.

Example ReadCooldownLedger_Write_witness :
  ReadCooldownLedger "l.txt" (WriteCooldownLedger "l.txt" sample_ledger empty_fs).2 =
  Success sample_ledger.
Proof.
  set (w' := (WriteCooldownLedger "l.txt" sample_ledger empty_fs).2).
  assert (∃ l, ReadCooldownLedger "l.txt" w' = Success l) as [l Hl]
    by (vm_compute; by eexists).
  rewrite Hl. f_equal.
  apply (ReadCooldownLedger_Write "l.txt" sample_ledger l empty_fs w' sample_ledger_ok);
    [vm_compute; reflexivity|exact Hl].
Defined.

Example RecordCooldownRun_enforced_witness :
  let w' := (RecordCooldownRun "l.txt" "memory.clean" 1700000000 empty_fs).2 in
  ∃ l, ReadCooldownLedger "l.txt" w' = Success l ∧
       (EvaluateCooldownGate l "memory.clean" 1700000800 900 = true →
        1700000000 + Z.max 0 900 <= 1700000800).
Proof.
  set (w' := (RecordCooldownRun "l.txt" "memory.clean" 1700000000 empty_fs).2). cbn zeta.
  assert (ReadCooldownLedger "l.txt" w' = Success [("memory.clean", 1700000000)]) as Hl
    by (vm_compute; reflexivity).
  exists [("memory.clean", 1700000000)]. split; [exact Hl|].
  refine (proj1 (RecordCooldownRun_enforced "l.txt" "memory.clean" 1700000000 1700000800 900
    [] [("memory.clean", 1700000000)] empty_fs w' _ _ _ _ _ Hl));
    vm_compute; try reflexivity; split; [discriminate|reflexivity].
Defined.
