(* ===== verification/ConfigTypes.v ===== *)
(** The configuration's data ([config/config_manager.hpp]): one record per
    section, with the values a missing section or key leaves in place. Strings
    are UTF-8; a [double] is its 64 bits. *)

From S2P Require Import Prelude.

Open Scope string_scope.
Open Scope list_scope.
Open Scope Z_scope.

Module RunMode.
Inductive RunMode := Observe | Balanced | Experimental.
End RunMode.
Abbreviation RunMode := RunMode.RunMode.

#[export] Instance RunMode_eq_dec : EqDecision RunMode.
Proof. solve_decision. Defined.

(** Increasing in strength. *)
Module CleanLevel.
Inductive CleanLevel := None | Light | Medium | Deep.
End CleanLevel.
Abbreviation CleanLevel := CleanLevel.CleanLevel.

#[export] Instance CleanLevel_eq_dec : EqDecision CleanLevel.
Proof. solve_decision. Defined.

(** The enumerators' order, which the code compares. *)
Definition clean_value (l : CleanLevel) : Z :=
  match l with
  | CleanLevel.None => 0
  | CleanLevel.Light => 1
  | CleanLevel.Medium => 2
  | CleanLevel.Deep => 3
  end.

Module PriorityLevel.
Inductive PriorityLevel := None | AboveNormal | High.
End PriorityLevel.
Abbreviation PriorityLevel := PriorityLevel.PriorityLevel.

#[export] Instance PriorityLevel_eq_dec : EqDecision PriorityLevel.
Proof. solve_decision. Defined.

Record LayerConfig := MkLayers {
  monitoring : bool;
  maintenance : bool;
  emergency : bool
}.

Record PowerConfig := MkPowerConfig {
  executionRequired : bool;
  displayRequired : bool;
  switchPowerScheme : bool
}.

Record PriorityConfig := MkPriorityConfig {
  pri_enabled : bool;
  maxLevel : PriorityLevel
}.

Record GpuHeartbeatConfig := MkGpuHeartbeat {
  gpu_enabled : bool;
  maxMeasuredLoadPercent : Z
}.

Record ToggleConfig := MkToggle { tog_enabled : bool }.

Record PolicyConfig := MkPolicyConfig {
  comfortableMarginPercent : Z;
  adequateMarginPercent : Z;
  tightMarginPercent : Z;
  pol_cooldownMs : Z;
  userAwayIdleSeconds : Z;
  haltAfterActionFailures : Z
}.

Record SafeModeConfig := MkSafeModeConfig {
  sm_enabled : bool;
  sm_failuresToEnter : Z;
  sm_countingWindowMs : Z;
  sm_cooldownMs : Z
}.

Record IpcConfig := MkIpcConfig { safeMode : SafeModeConfig }.

Record GameConfig := MkGameConfig {
  cfg_id : string;
  displayName : string;
  cfg_processNames : list string;
  cfg_windowTitleContains : string;
  pauseWhenBackground : bool
}.

Record ApplicationConfig := MkApplication {
  app_mode : RunMode;
  safeModeOnRecoveryError : bool
}.

Record LoggingConfig := MkLogging {
  log_level : string;
  log_directory : string;
  maxFileMb : Z;
  maxFiles : Z;
  log_console : bool
}.

Record MemoryConfig := MkMemoryConfig {
  queryEnabled : bool;
  scheduledCleanEnabled : bool;
  allowNativeWrite : bool;
  maxCleanLevel : CleanLevel
}.

Record ConfigVersion := MkVersion {
  ver_major : Z;
  ver_minor : Z;
  ver_patch : Z;
  prerelease : string
}.

Definition kSupportedConfigMajor : Z := 1.

Record AgentConfig := MkAgent { agent_form : string }.

Record ConfigSnapshot := MkSnapshot {
  version : ConfigVersion;
  unknownKeys : list string;
  application : ApplicationConfig;
  logging : LoggingConfig;
  layers : LayerConfig;
  power : PowerConfig;
  priority : PriorityConfig;
  memory : MemoryConfig;
  gpuHeartbeat : GpuHeartbeatConfig;
  scheduler : ToggleConfig;
  diskCache : ToggleConfig;
  policy : PolicyConfig;
  ipc : IpcConfig;
  games : list GameConfig;
  agent : AgentConfig
}.

(** ** Defaults *)

(** The bits of the double 1.0. *)
Definition double_one : Z := 4607182418800017408.

Definition default_policy : PolicyConfig := MkPolicyConfig 30 15 5 5000 0 0.
Definition default_safe_mode : SafeModeConfig := MkSafeModeConfig true 3 5000 2000.
Definition default_memory : MemoryConfig := MkMemoryConfig true false false CleanLevel.Light.
Definition default_power : PowerConfig := MkPowerConfig true false false.

Definition default_snapshot : ConfigSnapshot :=
  MkSnapshot (MkVersion 1 0 0 "") [] (MkApplication RunMode.Observe true)
    (MkLogging "info" "" 10 5 true) (MkLayers true false false) default_power
    (MkPriorityConfig false PriorityLevel.AboveNormal) default_memory
    (MkGpuHeartbeat false double_one) (MkToggle false) (MkToggle false)
    default_policy (MkIpcConfig default_safe_mode) [] (MkAgent "startup_tray").
