(* ===== verification/Logger.v ===== *)
(** The logger ([logger/logger]): levels, the line of a record, the filter of
    [Write], and the bounded queue behind the asynchronous mode with its writer
    thread. The sinks are spdlog's; writing a record is entering it in a list.
    Every block of the queue under its mutex is one step; the writer thread is a
    program counter, and a step relation interleaves it with the callers. *)

From Stdlib Require Import Sorting.Permutation.
From S2P Require Import Prelude CommonError.

Open Scope string_scope.
Open Scope list_scope.
Open Scope Z_scope.

(** ** Levels and records *)

Module LogLevel.
Inductive LogLevel := Trace | Debug | Info | Warn | Error | Critical.
End LogLevel.
Abbreviation LogLevel := LogLevel.LogLevel.

#[export] Instance LogLevel_eq_dec : EqDecision LogLevel.
Proof. solve_decision. Defined.

Definition log_level_value (l : LogLevel) : Z :=
  match l with
  | LogLevel.Trace => 0
  | LogLevel.Debug => 1
  | LogLevel.Info => 2
  | LogLevel.Warn => 3
  | LogLevel.Error => 4
  | LogLevel.Critical => 5
  end.

Definition LevelToString (l : LogLevel) : string :=
  match l with
  | LogLevel.Trace => "TRACE"
  | LogLevel.Debug => "DEBUG"
  | LogLevel.Info => "INFO"
  | LogLevel.Warn => "WARN"
  | LogLevel.Error => "ERROR"
  | LogLevel.Critical => "CRITICAL"
  end.

(** [left - L'a' + L'A'] on lower-case letters. *)
Definition fold_upper (c : Z) : Z :=
  if (97 <=? c) && (c <=? 122) then u16 (c - 97 + 65) else c.

Fixpoint equal_folded (a b : wstring) : bool :=
  match a, b with
  | x :: a', y :: b' => if negb (fold_upper x =? fold_upper y) then false else equal_folded a' b'
  | _, _ => true
  end.

Definition EqualsIgnoreCaseAscii (a b : wstring) : bool :=
  if negb (len a =? len b) then false else equal_folded a b.

Definition LevelFromString (name : wstring) : Result LogLevel :=
  if EqualsIgnoreCaseAscii name (widen "TRACE") then Success LogLevel.Trace
  else if EqualsIgnoreCaseAscii name (widen "DEBUG") then Success LogLevel.Debug
  else if EqualsIgnoreCaseAscii name (widen "INFO") then Success LogLevel.Info
  else if EqualsIgnoreCaseAscii name (widen "WARN") then Success LogLevel.Warn
  else if EqualsIgnoreCaseAscii name (widen "ERROR") then Success LogLevel.Error
  else if EqualsIgnoreCaseAscii name (widen "CRITICAL") then Success LogLevel.Critical
  else Failure (Validation "LevelFromString" "Unknown log level name").

Record LogRecord := MkLogRecord {
  rec_level : LogLevel;
  localTime : wstring;
  rec_module : wstring;
  rec_message : wstring
}.

#[export] Instance LogRecord_eq_dec : EqDecision LogRecord.
Proof. solve_decision. Defined.

Definition FormatLogRecord (r : LogRecord) : wstring :=
  localTime r ++ widen " [" ++ widen (LevelToString (rec_level r)) ++ widen "] " ++
  rec_module r ++ widen ": " ++ rec_message r.

(** [SYSTEMTIME] and its text, [{:04d}-{:02d}-{:02d} {:02d}:{:02d}:{:02d}.{:03d}]. *)
Record SYSTEMTIME := MkSystemTime {
  wYear : Z; wMonth : Z; wDay : Z; wHour : Z; wMinute : Z; wSecond : Z; wMilliseconds : Z
}.

Fixpoint zeros (n : nat) : string :=
  match n with O => EmptyString | S n' => String "0" (zeros n') end.

Definition padded (width : nat) (n : Z) : string :=
  let t := to_string n in zeros (width - String.length t) +:+ t.

Definition NowLocalTime (st : SYSTEMTIME) : wstring :=
  widen (padded 4 (wYear st) +:+ "-" +:+ padded 2 (wMonth st) +:+ "-" +:+ padded 2 (wDay st)
         +:+ " " +:+ padded 2 (wHour st) +:+ ":" +:+ padded 2 (wMinute st) +:+ ":" +:+
         padded 2 (wSecond st) +:+ "." +:+ padded 3 (wMilliseconds st)).

(** ** The queue *)

(** Where the writer thread is: waiting for work or a stop, calling the sink
    with a record, past its loop, or gone. *)
Inductive WriterState := Waiting | Writing (r : LogRecord) | Leaving | Gone.

Record AsyncLogQueue := MkQueue {
  q_capacity : Z;
  queue : list LogRecord;
  stopping : bool;
  finished : bool;
  written : Z;
  q_dropped : Z;
  pushedSeq : Z;
  writtenSeq : Z;
  writer : WriterState
}.

Definition new_queue (capacity : Z) : AsyncLogQueue :=
  MkQueue capacity [] false false 0 0 0 0 Waiting.

Definition IsProtectedLevel (l : LogLevel) : bool :=
  bool_decide (l = LogLevel.Error) || bool_decide (l = LogLevel.Critical).

(** The search for a record to make room: the first of a lower, unprotected
    level is replaced. *)
Fixpoint replace_lower (r : LogRecord) (l : list LogRecord) : option (list LogRecord) :=
  match l with
  | [] => None
  | it :: l' =>
      if negb (IsProtectedLevel (rec_level it)) &&
         (log_level_value (rec_level it) <? log_level_value (rec_level r))
      then Some (r :: l')
      else match replace_lower r l' with
           | Some l'' => Some (it :: l'')
           | None => None
           end
  end.

Definition set_queue (q : AsyncLogQueue) (l : list LogRecord) (dropped pushed : Z) : AsyncLogQueue :=
  MkQueue (q_capacity q) l (stopping q) (finished q) (written q) dropped pushed (writtenSeq q)
    (writer q).

Definition Push (r : LogRecord) (q : AsyncLogQueue) : Result unit * AsyncLogQueue :=
  if stopping q then
    (Failure (Unsupported "AsyncLogQueue::Push" "队列已停止接收（Stop 后不再入队）"), q)
  else if len (queue q) <? q_capacity q then
    (Success tt, set_queue q (queue q ++ [r]) (q_dropped q) (u64 (pushedSeq q + 1)))
  else if IsProtectedLevel (rec_level r) then
    match replace_lower r (queue q) with
    | Some l => (Success tt, set_queue q l (u64 (q_dropped q + 1)) (u64 (pushedSeq q + 1)))
    | None =>
        (Failure (Unsupported "AsyncLogQueue::Push"
                    "队列已满且无低级别记录可腾位（保护级别不丢弃）"), q)
    end
  else (Success tt, set_queue q (queue q) (u64 (q_dropped q + 1)) (pushedSeq q)).

(** The first block of [Stop]; the rest waits until the writer is gone. *)
Definition Stop (q : AsyncLogQueue) : AsyncLogQueue :=
  if stopping q && finished q then q
  else MkQueue (q_capacity q) (queue q) true (finished q) (written q) (q_dropped q) (pushedSeq q)
         (writtenSeq q) (writer q).

Definition set_writer (q : AsyncLogQueue) (w : WriterState) : AsyncLogQueue :=
  MkQueue (q_capacity q) (queue q) (stopping q) (finished q) (written q) (q_dropped q)
    (pushedSeq q) (writtenSeq q) w.

(** One step of [WorkerLoop] and the record it hands to the sink, [None] while
    it waits or when it is gone. *)
Definition WorkerLoop (q : AsyncLogQueue) : option (AsyncLogQueue * option LogRecord) :=
  match writer q with
  | Waiting =>
      if stopping q || negb (len (queue q) =? 0) then
        match queue q with
        | [] => Some (set_writer q Leaving, None)
        | r :: l => Some (set_writer (set_queue q l (q_dropped q) (pushedSeq q)) (Writing r), None)
        end
      else None
  | Writing r =>
      Some (MkQueue (q_capacity q) (queue q) (stopping q) (finished q) (u64 (written q + 1))
              (q_dropped q) (pushedSeq q) (u64 (writtenSeq q + 1)) Waiting, Some r)
  | Leaving =>
      Some (MkQueue (q_capacity q) (queue q) (stopping q) true (written q) (q_dropped q)
              (pushedSeq q) (writtenSeq q) Gone, None)
  | Gone => None
  end.

(** [Flush]: the mark it takes and the condition it waits for. *)
Definition flush_target (q : AsyncLogQueue) : Z := pushedSeq q.
Definition flush_done (target : Z) (q : AsyncLogQueue) : bool :=
  (target <=? writtenSeq q) || finished q.

Definition IsRunning (q : AsyncLogQueue) : bool := negb (stopping q).
Definition WrittenCount (q : AsyncLogQueue) : Z := written q.
Definition DroppedCount (q : AsyncLogQueue) : Z := q_dropped q.

(** ** The logger *)

Record FileSinkOptions := MkFileSinkOptions {
  maxFileMb : Z;
  maxFiles : Z;
  alsoConsole : bool
}.

(** The sinks of spdlog the logger makes, with the arguments it makes them with. *)
Inductive SinkSpec :=
  | RotatingFile (path : wstring) (maxBytes files : Z)
  | BasicFile (path : wstring)
  | StderrSink
  | DebugSink.

(** The logger of spdlog, which has a level of its own. *)
Record SpdLogger := MkSpd { spd_level : LogLevel; sinks : list SinkSpec }.

(** [impl] is the current logger of spdlog, [None] where making one failed;
    [lines] are the records that went to its sinks, in order. *)
Record Logger := MkLogger {
  lg_level : LogLevel;
  impl : option SpdLogger;
  asyncQueue : option AsyncLogQueue;
  lines : list LogRecord
}.

Definition new_logger (level : LogLevel) : Logger :=
  MkLogger level (Some (MkSpd level [DebugSink])) None [].

Definition SetLevel (level : LogLevel) (l : Logger) : Logger :=
  MkLogger level (match impl l with Some s => Some (MkSpd level (sinks s)) | None => None end)
    (asyncQueue l) (lines l).
Definition set_impl (l : Logger) (sinks : list SinkSpec) : Logger :=
  MkLogger (lg_level l) (Some (MkSpd (lg_level l) sinks)) (asyncQueue l) (lines l).
Definition set_async (l : Logger) (q : option AsyncLogQueue) : Logger :=
  MkLogger (lg_level l) (impl l) q (lines l).

Definition SetStderrSink (l : Logger) : Logger := set_impl l [StderrSink].
Definition SetDebugSink (l : Logger) : Logger := set_impl l [DebugSink].

Definition IsAsync (l : Logger) : bool :=
  match asyncQueue l with Some _ => true | None => false end.

(** [spdlog::logger::log] looks at the level again. *)
Definition should_log (im : option SpdLogger) (r : LogRecord) : bool :=
  match im with
  | Some s => log_level_value (spd_level s) <=? log_level_value (rec_level r)
  | None => false
  end.

Definition WriteNow (r : LogRecord) (l : Logger) : Logger :=
  if should_log (impl l) r then
    MkLogger (lg_level l) (impl l) (asyncQueue l) (lines l ++ [r])
  else l.

(** [now] is the local time at the call. *)
Definition Write (level : LogLevel) (module message : wstring) (now : SYSTEMTIME) (l : Logger) :
    Logger :=
  if log_level_value level <? log_level_value (lg_level l) then l
  else
    let r := MkLogRecord level (NowLocalTime now) module message in
    match asyncQueue l with
    | Some q =>
        match Push r q with
        | (Success _, q') => set_async l (Some q')
        | (Failure _, q') => WriteNow r (set_async l (Some q'))
        end
    | None => WriteNow r l
    end.

(** A step of the writer thread of the current queue, whose sink is [WriteNow]. *)
Definition worker (l : Logger) : option Logger :=
  match asyncQueue l with
  | None => None
  | Some q =>
      match WorkerLoop q with
      | None => None
      | Some (q', out) =>
          let l' := set_async l (Some q') in
          Some (match out with Some r => WriteNow r l' | None => l' end)
      end
  end.

(** [n] steps of the writer, or as many as it can take. *)
Fixpoint workers (n : nat) (l : Logger) : Logger :=
  match n with
  | O => l
  | S n' => match worker l with Some l' => workers n' l' | None => l end
  end.

(** What the queue still holds: the record being written and those waiting. *)
Definition pending (q : AsyncLogQueue) : list LogRecord :=
  match writer q with Writing r => [r] | _ => [] end ++ queue q.

(** Joining the writer: it takes two steps per record and two to leave. *)
Definition drain_fuel (q : AsyncLogQueue) : nat := 2 * length (pending q) + 3.

Definition StopAsync (l : Logger) : Logger :=
  match asyncQueue l with
  | None => l
  | Some q => set_async (workers (drain_fuel q) (set_async l (Some (Stop q)))) None
  end.

(** spdlog opening a file: [None], or the last Win32 error and the text of its
    exception. *)
Class SinkOpening := open_sink : SinkSpec → option (Z * string).

Section Opening.
Context `{SystemMessages, SinkOpening}.

Definition file_sink (path : wstring) (options : FileSinkOptions) : SinkSpec :=
  if 0 <? maxFileMb options then
    RotatingFile path (u64 (maxFileMb options * 1024 * 1024))
      (if 0 <? maxFiles options then maxFiles options else 1)
  else BasicFile path.

Definition SetFileSink (path : wstring) (options : FileSinkOptions) (l : Logger) :
    Result unit * Logger :=
  match open_sink (file_sink path options) with
  | Some (code, what) => (Failure (FromWin32 code ("Logger::SetFileSink: " +:+ what)), l)
  | None =>
      (Success tt,
       set_impl l (file_sink path options :: if alsoConsole options then [StderrSink] else []))
  end.

Definition SetAsyncFileSink (path : wstring) (options : FileSinkOptions) (queueCapacity : Z)
    (l : Logger) : Result unit * Logger :=
  match SetFileSink path options l with
  | (Failure e, l1) => (Failure e, l1)
  | (Success _, l1) =>
      (Success tt,
       set_async (StopAsync l1)
         (Some (new_queue (if 0 <? queueCapacity then queueCapacity else 1))))
  end.

End Opening.

(** * Facts *)

(** ** Level names *)

(** Comparing folds both sides to upper case. *)
Lemma EqualsIgnoreCaseAscii_iff a b :
  EqualsIgnoreCaseAscii a b = true ↔ map fold_upper a = map fold_upper b.
Proof.
  unfold EqualsIgnoreCaseAscii. revert b.
  induction a as [|x a IH]; intros [|y b]; [done..|].
  cbn [length equal_folded map]. specialize (IH b).
  destruct (Z.eqb_spec (len a) (len b)) as [E|E]; cbn [negb] in IH.
  - rewrite (proj2 (Z.eqb_eq _ _)) by lia. cbn [negb].
    destruct (Z.eqb_spec (fold_upper x) (fold_upper y)) as [->|Hf]; cbn [negb].
    + rewrite IH. split; [by intros ->|congruence].
    + split; [done|congruence].
  - rewrite (proj2 (Z.eqb_neq _ _)) by lia. split; [done|]. intros [= _ Hm].
    apply (f_equal length) in Hm. rewrite !length_map in Hm. lia.
Qed.

Lemma level_name_folded l :
  map fold_upper (widen (LevelToString l)) = widen (LevelToString l).
Proof. by destruct l. Qed.

Lemma LevelFromString_iff name l :
  LevelFromString name = Success l ↔ map fold_upper name = widen (LevelToString l).
Proof.
  assert (∀ k, EqualsIgnoreCaseAscii name (widen (LevelToString k)) =
               bool_decide (map fold_upper name = widen (LevelToString k))) as Hk.
  { intros k. apply eq_true_iff_eq. rewrite EqualsIgnoreCaseAscii_iff, level_name_folded.
    by rewrite bool_decide_eq_true. }
  unfold LevelFromString.
  change (widen "TRACE") with (widen (LevelToString LogLevel.Trace)).
  change (widen "DEBUG") with (widen (LevelToString LogLevel.Debug)).
  change (widen "INFO") with (widen (LevelToString LogLevel.Info)).
  change (widen "WARN") with (widen (LevelToString LogLevel.Warn)).
  change (widen "ERROR") with (widen (LevelToString LogLevel.Error)).
  change (widen "CRITICAL") with (widen (LevelToString LogLevel.Critical)).
  rewrite !Hk.
  repeat match goal with
  | |- context [bool_decide (?x = ?y)] => destruct (bool_decide_reflect (x = y)) as [->|]
  end; (split; [by intros [= <-]|]); destruct l; naive_solver.
Qed.

(** ** What a step keeps *)

Definition protected (r : LogRecord) : Prop := IsProtectedLevel (rec_level r) = true.
#[export] Instance protected_dec r : Decision (protected r).
Proof. apply _. Defined.

Lemma WriteNow_queue r l : asyncQueue (WriteNow r l) = asyncQueue l.
Proof. unfold WriteNow. by destruct (should_log _ _). Qed.

(** Every record the logger has: written, or pending in the queue. *)
Definition pending_of (l : Logger) : list LogRecord :=
  match asyncQueue l with Some q => pending q | None => [] end.
Definition contents (l : Logger) : list LogRecord := lines l ++ pending_of l.
Definition dropped_of (l : Logger) : Z :=
  match asyncQueue l with Some q => q_dropped q | None => 0 end.

(** The queue at every moment: the capacity holds, a writer past its loop left
    an empty, stopped queue, and [finished] is set when it is gone. *)
Definition queue_ok (q : AsyncLogQueue) : Prop :=
  0 < q_capacity q ∧ len (queue q) <= q_capacity q ∧
  match writer q with
  | Leaving => stopping q = true ∧ queue q = [] ∧ finished q = false
  | Gone => stopping q = true ∧ queue q = [] ∧ finished q = true
  | _ => finished q = false
  end.

Lemma replace_lower_spec r l l' :
  replace_lower r l = Some l' →
  ∃ a it b, l = a ++ it :: b ∧ l' = a ++ r :: b ∧ ¬ protected it ∧
    log_level_value (rec_level it) < log_level_value (rec_level r).
Proof.
  revert l'. induction l as [|it l IH]; intros l'; cbn [replace_lower]; [done|].
  destruct (negb _ && _) eqn:E.
  - intros [= <-]. exists [], it, l. b2p. unfold protected. naive_solver congruence.
  - destruct (replace_lower r l) as [l''|] eqn:Hl; [|done]. intros [= <-].
    destruct (IH _ eq_refl) as (a & x & b & -> & -> & H). by exists (it :: a), x, b.
Qed.

(** A protected record finds no room only in a queue of records at or above it. *)
Lemma replace_lower_None r l :
  protected r → replace_lower r l = None → Forall protected l.
Proof.
  intros Hr. induction l as [|it l IH]; cbn [replace_lower]; [constructor|].
  destruct (negb _ && _) eqn:E; [done|].
  destruct (replace_lower r l) as [l''|] eqn:Hl; [done|]. intros _.
  constructor; [|by apply IH]. unfold protected in *.
  destruct (rec_level it), (rec_level r); done.
Qed.

Lemma pending_set_queue q l d p :
  pending (set_queue q l d p) = match writer q with Writing r => [r] | _ => [] end ++ l.
Proof. done. Qed.

(** What [Push] did, on each of its branches. *)
Inductive pushed (r : LogRecord) (q : AsyncLogQueue) : Result unit → AsyncLogQueue → Prop :=
  | pushed_room :
      stopping q = false → len (queue q) < q_capacity q →
      pushed r q (Success tt)
        (set_queue q (queue q ++ [r]) (q_dropped q) (u64 (pushedSeq q + 1)))
  | pushed_replaced a it b :
      stopping q = false → q_capacity q <= len (queue q) → protected r → ¬ protected it →
      queue q = a ++ it :: b → replace_lower r (queue q) = Some (a ++ r :: b) →
      pushed r q (Success tt)
        (set_queue q (a ++ r :: b) (u64 (q_dropped q + 1)) (u64 (pushedSeq q + 1)))
  | pushed_dropped :
      stopping q = false → q_capacity q <= len (queue q) → ¬ protected r →
      pushed r q (Success tt) (set_queue q (queue q) (u64 (q_dropped q + 1)) (pushedSeq q))
  | pushed_refused e :
      stopping q = true ∨ q_capacity q <= len (queue q) ∧ protected r ∧
        replace_lower r (queue q) = None →
      pushed r q (Failure e) q.

Lemma Push_pushed r q : pushed r q (fst (Push r q)) (snd (Push r q)).
Proof.
  unfold Push. destruct (stopping q) eqn:Hs; [constructor; auto|].
  destruct (Z.ltb_spec (len (queue q)) (q_capacity q)); [by constructor|].
  destruct (IsProtectedLevel (rec_level r)) eqn:Hp;
    [|constructor; [done..|unfold protected; congruence]].
  destruct (replace_lower r (queue q)) as [l|] eqn:Hr; [|constructor; auto].
  pose proof (replace_lower_spec _ _ _ Hr) as (a & it & b & Hq & -> & Hit & _).
  by apply pushed_replaced with it.
Qed.

Lemma Push_ok r q : queue_ok q → queue_ok (snd (Push r q)).
Proof.
  intros (Hc & Hl & Hw). destruct (Push_pushed r q) as [Hs Hr|a it b Hs Hr ?? Hq|Hs Hr|];
    [| |by repeat split..].
  - unfold queue_ok. cbn. rewrite length_app. cbn. split; [done|split; [lia|]].
    destruct (writer q); [done..| |]; destruct_and?; congruence.
  - unfold queue_ok. cbn. rewrite Hq in Hl. rewrite length_app in Hl |- *. cbn in Hl |- *.
    split; [done|split; [lia|]].
    destruct (writer q); [done..| |]; destruct_and?; congruence.
Qed.

Lemma WorkerLoop_ok q q' out : queue_ok q → WorkerLoop q = Some (q', out) → queue_ok q'.
Proof.
  unfold queue_ok, WorkerLoop. intros (Hc & Hl & Hw).
  destruct (writer q) eqn:Ew; [|by intros [= <- <-]| |done].
  - destruct (stopping q || _) eqn:Hs; [|done].
    destruct (queue q) as [|r l] eqn:Hq; intros [= <- <-]; cbn in *.
    + rewrite Hq, Hw. rewrite orb_false_r in Hs. rewrite Hs. split_and!; [done|cbn in *; lia|done..].
    + split; [done|split; [lia|exact Hw]].
  - intros [= <- <-]. cbn. destruct Hw as (-> & -> & _). split_and!; [done|cbn; lia|done..].
Qed.

Lemma Stop_ok q : queue_ok q → queue_ok (Stop q).
Proof.
  unfold Stop. destruct (stopping q && finished q); [done|].
  unfold queue_ok. cbn. by destruct (writer q); intros (? & ? & ?); destruct_and?.
Qed.

(** ** Histories *)

(** What callers and the writer do, in the order it happens. *)
Inductive LogEvent :=
  | EWrite (level : LogLevel) (module message : wstring) (now : SYSTEMTIME)
  | EWorker
  | EStop
  | ESetLevel (level : LogLevel).

Definition log_step (e : LogEvent) (l : Logger) : Logger :=
  match e with
  | EWrite level module message now => Write level module message now l
  | EWorker => default l (worker l)
  | EStop => set_async l (Stop <$> asyncQueue l)
  | ESetLevel level => SetLevel level l
  end.

Definition log_run (es : list LogEvent) (l : Logger) : Logger := fold_left (λ l e, log_step e l) es l.

(** The records of the writes that pass the level of their moment. *)
Fixpoint accepted (level : LogLevel) (es : list LogEvent) : list LogRecord :=
  match es with
  | [] => []
  | EWrite lv module message now :: es' =>
      if log_level_value lv <? log_level_value level then accepted level es'
      else MkLogRecord lv (NowLocalTime now) module message :: accepted level es'
  | ESetLevel lv :: es' => accepted lv es'
  | _ :: es' => accepted level es'
  end.

Lemma accepted_app level es1 es2 l :
  lg_level l = level → accepted level (es1 ++ es2) =
  accepted level es1 ++ accepted (lg_level (log_run es1 l)) es2.
Proof.
  revert level l. induction es1 as [|e es1 IH]; intros level l <-; [done|].
  unfold log_run. cbn [fold_left app]. fold (log_run es1 (log_step e l)).
  destruct e as [lv module message now| | |lv]; cbn [accepted].
  - rewrite (IH _ (log_step (EWrite lv module message now) l)).
    + by destruct (_ <? _).
    + cbn [log_step]. unfold Write. destruct (_ <? _); [done|]. unfold WriteNow.
      destruct (asyncQueue l) as [q|]; [destruct (Push _ q) as [[] ?]|]; cbn; try done;
        by destruct (should_log _ _).
  - apply IH. cbn [log_step]. unfold worker. destruct (asyncQueue l) as [q|]; [|done].
    destruct (WorkerLoop q) as [[q' [r|]]|]; [|done..]. cbn. unfold WriteNow. by destruct (should_log _ _).
  - by apply IH.
  - by apply IH.
Qed.

Definition below (r : LogRecord) (level : LogLevel) : Prop :=
  log_level_value (rec_level r) < log_level_value level.

(** What was [kept] and came in is there; [lost] was given up and counted,
    [hidden] was taken from the queue and not let through. *)
Definition keeps (l : Logger) (new lost hidden : list LogRecord) (l' : Logger) : Prop :=
  contents l ++ new ≡ₚ contents l' ++ lost ++ hidden ∧ Forall (λ r, ¬ protected r) lost ∧
  dropped_of l' = u64 (dropped_of l + len lost) ∧
  Forall (λ r, r ∈ pending_of l ∧ should_log (impl l) r = false) hidden.

Lemma keeps_refl l l' :
  is_u64 (dropped_of l) → contents l' = contents l → dropped_of l' = dropped_of l → keeps l [] [] [] l'.
Proof.
  intros Hd Hc Hd'. unfold keeps. cbn [app]. rewrite !app_nil_r, Hc, Hd'. split_and!; try done.
  cbn. by rewrite Z.add_0_r, u64_small.
Qed.

Lemma Push_keeps l q r :
  asyncQueue l = Some q → is_u64 (q_dropped q) → should_log (impl l) r = true →
  ∃ lost, keeps l [r] lost []
    (match Push r q with
     | (Success _, q') => set_async l (Some q')
     | (Failure _, q') => WriteNow r (set_async l (Some q'))
     end).
Proof.
  intros Hq Hd Hs. pose proof (Push_pushed r q) as Hp.
  destruct (Push r q) as [res q']. cbn [fst snd] in Hp.
  unfold keeps, contents, pending_of, dropped_of. rewrite Hq.
  destruct Hp as [Hst Hr|a it b Hst Hr Hp Hit Ha _|Hst Hr Hp|e He].
  - exists []. cbn [asyncQueue set_async set_queue q_dropped lines length app].
    rewrite pending_set_queue. unfold pending. split_and!; [|done| |done].
    + by rewrite app_nil_r, !(assoc_L (++)).
    + by rewrite Z.add_0_r, u64_small.
  - exists [it]. cbn [asyncQueue set_async set_queue q_dropped lines length].
    rewrite pending_set_queue. unfold pending. rewrite Ha, (right_id_L [] (++)).
    split_and!; [|by constructor|done|done].
    rewrite <- !(assoc_L (++)). do 3 f_equiv. cbn. rewrite <- !Permutation_middle.
    rewrite !app_nil_r. apply Permutation_swap.
  - exists [r]. cbn [asyncQueue set_async set_queue q_dropped lines length].
    rewrite pending_set_queue, (right_id_L [] (++)). split_and!; [done|by constructor|done|done].
  - exists []. unfold WriteNow. cbn [set_async impl]. rewrite Hs.
    cbn [asyncQueue set_async lines length app].
    split_and!; [|done| |done].
    + rewrite app_nil_r, <- !(assoc_L (++)). f_equiv. apply Permutation_app_comm.
    + by rewrite Z.add_0_r, u64_small.
Qed.

Lemma worker_keeps l l' :
  is_u64 (dropped_of l) → worker l = Some l' → ∃ hidden, keeps l [] [] hidden l'.
Proof.
  unfold worker. destruct (asyncQueue l) as [q|] eqn:Hq; [|done].
  destruct (WorkerLoop q) as [[q' out]|] eqn:Hw; [|done]. intros Hd [= <-].
  unfold keeps, contents, pending_of, dropped_of in *. rewrite Hq in *.
  unfold WorkerLoop in Hw. unfold pending. destruct (writer q) as [|r| |] eqn:Ew; [| | |done].
  - exists []. destruct (stopping q || _); [|done].
    destruct (queue q) as [|r rest] eqn:Er; simplify_eq/=; rewrite ?Er, ?Ew, !app_nil_r, Z.add_0_r;
      by rewrite u64_small.
  - simplify_eq/=. exists (if should_log (impl l) r then [] else [r]).
    unfold WriteNow. cbn [set_async impl]. destruct (should_log (impl l) r) eqn:Hs; cbn;
      rewrite ?app_nil_r, Z.add_0_r, u64_small by done; (split_and!; [|done|done|]).
    + by rewrite <- (assoc_L (++)).
    + done.
    + rewrite <- (assoc_L (++)). f_equiv. by rewrite Permutation_app_comm.
    + constructor; [|done]. split; [by left|done].
  - exists []. simplify_eq/=. rewrite ?Ew, !app_nil_r, Z.add_0_r. by rewrite u64_small.
Qed.

(** spdlog's level is the logger's. *)
Definition in_step (l : Logger) : Prop := ∃ s, impl l = Some s ∧ spd_level s = lg_level l.

Lemma WriteNow_in_step r l : in_step l → in_step (WriteNow r l).
Proof. unfold WriteNow. by destruct (should_log _ _). Qed.

Lemma log_step_in_step e l : in_step l → in_step (log_step e l).
Proof.
  intros Hl. destruct e as [level module message now| | |level]; cbn [log_step].
  - unfold Write. destruct (_ <? _); [done|].
    destruct (asyncQueue l) as [q|]; [destruct (Push _ q) as [[] ?]|]; try apply WriteNow_in_step; done.
  - unfold worker. destruct (asyncQueue l) as [q|]; [|done].
    destruct (WorkerLoop q) as [[q' [r|]]|]; cbn; [by apply WriteNow_in_step|done..].
  - done.
  - destruct Hl as (s & Hs & _). unfold in_step, SetLevel. rewrite Hs. cbn. by eexists.
Qed.

Lemma should_log_in_step l r : in_step l → should_log (impl l) r = false ↔ below r (lg_level l).
Proof. intros (s & -> & <-). unfold should_log, below. by rewrite Z.leb_gt. Qed.

(** One event. *)
Lemma log_step_keeps e l :
  is_u64 (dropped_of l) → in_step l →
  ∃ lost hidden, keeps l (accepted (lg_level l) [e]) lost hidden (log_step e l).
Proof.
  intros Hd Hi. destruct e as [level module message now| | |level]; cbn [log_step accepted].
  - unfold Write. destruct (_ <? _) eqn:Elt; [exists [], []; by apply keeps_refl|].
    assert (Hs : should_log (impl l) (MkLogRecord level (NowLocalTime now) module message) = true).
    { apply not_false_iff_true. rewrite should_log_in_step by done. unfold below. cbn. b2p. lia. }
    destruct (asyncQueue l) as [q|] eqn:Hq.
    + unfold dropped_of in Hd. rewrite Hq in Hd.
      destruct (Push_keeps l q _ Hq Hd Hs) as [lost Hl]. by exists lost, [].
    + exists [], []. unfold WriteNow. rewrite Hs. unfold keeps, contents, pending_of, dropped_of. cbn.
      rewrite Hq. by rewrite !app_nil_r.
  - exists []. destruct (worker l) as [l'|] eqn:Hw; cbn; [by apply worker_keeps|].
    exists []. by apply keeps_refl.
  - exists [], []. apply keeps_refl; [done|..]; unfold contents, pending_of, dropped_of; cbn;
      destruct (asyncQueue l) as [q|]; cbn; unfold Stop; try destruct (_ && _); done.
  - exists [], []. by apply keeps_refl.
Qed.

(** The level was raised above [r] while it was pending. *)
Definition overtaken (es : list LogEvent) (l : Logger) (r : LogRecord) : Prop :=
  ∃ es1 level es2, es = es1 ++ ESetLevel level :: es2 ∧
    r ∈ pending_of (log_run es1 l) ∧ below r level.

Lemma overtaken_snoc es e l r : overtaken es l r → overtaken (es ++ [e]) l r.
Proof.
  intros (es1 & level & es2 & -> & H). exists es1, level, (es2 ++ [e]). by rewrite <- app_assoc.
Qed.

(** What is pending after a step was before, or has just passed the level. *)
Lemma log_step_pending e l r :
  (∀ level, e ≠ ESetLevel level) → r ∈ pending_of (log_step e l) →
  lg_level (log_step e l) = lg_level l ∧ (r ∈ pending_of l ∨ ¬ below r (lg_level l)).
Proof.
  unfold pending_of. intros He. destruct e as [level module message now| | |level]; cbn [log_step];
    [| | |by destruct (He level)].
  - unfold Write. destruct (_ <? _) eqn:Elt; [by eauto|].
    set (r' := MkLogRecord _ _ _ _). assert (¬ below r' (lg_level l)) by (unfold below; cbn; b2p; lia).
    destruct (asyncQueue l) as [q|] eqn:Hq.
    2:{ unfold WriteNow. destruct (should_log _ _); cbn; rewrite Hq; by auto. }
    pose proof (Push_pushed r' q) as Hp. destruct (Push r' q) as [res q']. cbn [fst snd] in Hp.
    assert (Hpend : r ∈ pending q' → r ∈ pending q ∨ r = r').
    { destruct Hp as [Hst Hr|a it b Hst Hr Hp Hit Ha _|Hst Hr Hp|e He']; rewrite ?pending_set_queue;
        unfold pending; [| |by left|by left].
      - set_solver.
      - rewrite Ha. set_solver. }
    destruct res; [cbn; naive_solver|]. unfold WriteNow. destruct (should_log _ _); cbn; naive_solver.
  - unfold worker in *. destruct (asyncQueue l) as [q|] eqn:Hq; [|cbn in *; rewrite Hq; by auto].
    destruct (WorkerLoop q) as [[q' out]|] eqn:Hw; [|cbn in *; rewrite Hq in *; by auto]. cbn [default] in *.
    intros Hin. assert (r ∈ pending q') as Hin'.
    { destruct out; [|done]. unfold WriteNow in *. by destruct (should_log _ _). }
    split; [destruct out; [unfold WriteNow; by destruct (should_log _ _)|done]|left].
    clear Hin. unfold WorkerLoop in Hw. unfold pending in *. destruct (writer q) eqn:Ew; simplify_eq/=.
    + destruct (stopping q || _); [|done]. by destruct (queue q) as [|x rest] eqn:Er; simplify_eq/=;
        rewrite ?Er in *.
    + by right.
    + done.
  - destruct (asyncQueue l) as [q|]; cbn in *; [|by auto]. unfold Stop in *. destruct (_ && _); by auto.
Qed.

(** C17. Nothing of importance is lost without a trace. Whatever callers and the
    writer thread do, in any interleaving, with the queue full or stopping, every
    record that passed the level is written or still pending, exactly once, except
    for records below Error, each of which the drop counter counts, and for records
    above which the level was raised while they were pending: those spdlog may not
    let through, and nothing counts them. The logger starts with a sink and with
    nothing pending that is below its level. *)
Theorem log_run_keeps es l :
  is_u64 (dropped_of l) → in_step l → Forall (λ r, ¬ below r (lg_level l)) (pending_of l) →
  ∃ lost hidden,
    contents l ++ accepted (lg_level l) es ≡ₚ contents (log_run es l) ++ lost ++ hidden ∧
    Forall (λ r, IsProtectedLevel (rec_level r) = false) lost ∧
    dropped_of (log_run es l) = u64 (dropped_of l + len lost) ∧
    Forall (overtaken es l) hidden.
Proof.
  intros Hd Hi Hp.
  enough (∃ lost hidden,
    contents l ++ accepted (lg_level l) es ≡ₚ contents (log_run es l) ++ lost ++ hidden ∧
    Forall (λ r, ¬ protected r) lost ∧
    dropped_of (log_run es l) = u64 (dropped_of l + len lost) ∧
    Forall (overtaken es l) hidden ∧ in_step (log_run es l) ∧
    (∀ r, r ∈ pending_of (log_run es l) → below r (lg_level (log_run es l)) → overtaken es l r))
    as (lost & hidden & H1 & H2 & H3 & H4 & _).
  { exists lost, hidden. split_and!; [done| |done|done].
    eapply Forall_impl; [exact H2|]. intros r. unfold protected. by destruct (IsProtectedLevel _). }
  induction es as [|e es IH] using rev_ind.
  { exists [], []. cbn. rewrite !app_nil_r, Z.add_0_r, u64_small by done. split_and!; try done.
    intros r Hr Hb. rewrite Forall_forall in Hp. by destruct (Hp r Hr). }
  destruct IH as (lost & hidden & H1 & H2 & H3 & H4 & H5 & H6).
  assert (log_run (es ++ [e]) l = log_step e (log_run es l)) as Erun
    by (unfold log_run; by rewrite fold_left_app).
  assert (is_u64 (dropped_of (log_run es l))) as Hd' by (rewrite H3; apply u64_range).
  destruct (log_step_keeps e (log_run es l) Hd' H5) as (lost' & hidden' & K1 & K2 & K3 & K4).
  rewrite Erun, (accepted_app _ es [e] l eq_refl).
  exists (lost ++ lost'), (hidden ++ hidden'). split_and!.
  - rewrite (assoc_L (++)), H1, <- !(assoc_L (++)).
    rewrite (Permutation_app_comm hidden), (Permutation_app_comm lost). rewrite !(assoc_L (++)), K1.
    rewrite <- !(assoc_L (++)). f_equiv. rewrite (Permutation_app_comm lost').
    rewrite (Permutation_app_comm hidden). rewrite <- !(assoc_L (++)).
    solve_Permutation.
  - by apply Forall_app.
  - rewrite K3, H3, length_app, Nat2Z.inj_add. unfold u64. rewrite Zplus_mod_idemp_l. f_equal. lia.
  - apply Forall_app. split; (eapply Forall_impl; [eassumption|]); cbn.
    + intros r. apply overtaken_snoc.
    + intros r [Hin Hs]. apply overtaken_snoc, H6; [done|]. by apply should_log_in_step.
  - by apply log_step_in_step.
  - intros r Hin Hb.
    assert (Hset : (∃ level, e = ESetLevel level) ∨ ∀ level, e ≠ ESetLevel level)
      by (destruct e; eauto; right; done).
    destruct Hset as [[level ->]|Hset].
    { exists es, level, []. split_and!; [done|exact Hin|exact Hb]. }
    destruct (log_step_pending e _ r Hset Hin) as [Elv [Hr|Hr]]; rewrite Elv in Hb; [|done].
    by apply overtaken_snoc, H6.
Qed.

(** ** The writer thread *)

Lemma workers_add n m l : workers (n + m) l = workers m (workers n l).
Proof.
  revert l. induction n as [|n IH]; intros l; cbn [workers Nat.add]; [done|].
  destruct (worker l) as [l'|] eqn:Hw; [apply IH|].
  destruct m; cbn [workers]; [done|]. by rewrite Hw.
Qed.

Lemma workers_ok n l :
  (∀ q, asyncQueue l = Some q → queue_ok q) → ∀ q, asyncQueue (workers n l) = Some q → queue_ok q.
Proof.
  revert l. induction n as [|n IH]; intros l Hl; cbn [workers]; [done|].
  destruct (worker l) as [l'|] eqn:Hw; [|done]. apply IH. unfold worker in Hw.
  destruct (asyncQueue l) as [q|] eqn:Hq; [|done].
  destruct (WorkerLoop q) as [[q' out]|] eqn:He; [|done]. injection Hw as <-.
  pose proof (WorkerLoop_ok _ _ _ (Hl q eq_refl) He).
  destruct out; [unfold WriteNow; destruct (should_log _ _)|]; by intros ? [= <-].
Qed.

Lemma workers_stuck n l : worker l = None → workers n l = l.
Proof. destruct n; cbn [workers]; [done|]. by intros ->. Qed.

(** A waiting writer takes two steps per record. *)
Lemma workers_waiting qu cap st fin w d p ws lv im ls :
  ∃ w' ws',
    workers (2 * length qu) (MkLogger lv im (Some (MkQueue cap qu st fin w d p ws Waiting)) ls) =
    MkLogger lv im (Some (MkQueue cap [] st fin w' d p ws' Waiting))
      (ls ++ List.filter (should_log im) qu).
Proof.
  revert w ws ls. induction qu as [|r qu IH]; intros w ws ls.
  - exists w, ws. by rewrite app_nil_r.
  - replace (2 * length (r :: qu))%nat with (2 + 2 * length qu)%nat by (cbn; lia).
    rewrite workers_add.
    assert (workers 2 (MkLogger lv im (Some (MkQueue cap (r :: qu) st fin w d p ws Waiting)) ls) =
            MkLogger lv im (Some (MkQueue cap qu st fin (u64 (w + 1)) d p (u64 (ws + 1)) Waiting))
              (ls ++ List.filter (should_log im) [r])) as ->.
    { cbn [workers]. unfold worker at 1. cbn [asyncQueue]. unfold WorkerLoop. cbn [writer stopping queue].
      rewrite orb_true_r. cbn. unfold WriteNow. cbn. destruct (should_log im r); by rewrite ?app_nil_r. }
    destruct (IH (u64 (w + 1)) (u64 (ws + 1)) (ls ++ List.filter (should_log im) [r])) as (w' & ws' & ->).
    exists w', ws'. rewrite <- (assoc_L (++)). by rewrite <- List.filter_app.
Qed.

(** Written once everything pending has been: what spdlog lets through. *)
Definition drained (l : Logger) : list LogRecord :=
  lines l ++ List.filter (should_log (impl l)) (pending_of l).

Lemma shown_all l rs :
  in_step l → Forall (λ r, ¬ below r (lg_level l)) rs → List.filter (should_log (impl l)) rs = rs.
Proof.
  intros Hi. induction 1 as [|r rs Hr _ IH]; [done|]. cbn. rewrite IH.
  pose proof (should_log_in_step l r Hi). by destruct (should_log _ _); [|tauto].
Qed.

(** The writer, left alone, writes everything pending, in order. *)
Lemma workers_drain l q :
  asyncQueue l = Some q → writer q = Waiting ∨ (∃ r, writer q = Writing r) →
  ∃ n w' ws',
    (n <= 2 * length (pending q))%nat ∧
    workers n l =
      MkLogger (lg_level l) (impl l)
        (Some (MkQueue (q_capacity q) [] (stopping q) (finished q) w' (q_dropped q) (pushedSeq q)
                 ws' Waiting))
        (drained l).
Proof.
  unfold drained, pending_of. intros Hq. rewrite Hq. revert Hq.
  destruct l as [lv im aq ls]. cbn [asyncQueue lg_level impl lines]. intros ->.
  destruct q as [cap qu st fin w d p ws wr]. unfold pending. cbn [writer queue]. intros [->|[r ->]].
  - destruct (workers_waiting qu cap st fin w d p ws lv im ls) as (w' & ws' & H).
    exists (2 * length qu)%nat, w', ws'. split; [cbn; lia|exact H].
  - destruct (workers_waiting qu cap st fin (u64 (w + 1)) d p (u64 (ws + 1)) lv im
                (ls ++ List.filter (should_log im) [r])) as (w' & ws' & H).
    exists (1 + 2 * length qu)%nat, w', ws'. split; [cbn; lia|].
    rewrite workers_add. rewrite <- (assoc_L (++)), <- List.filter_app in H.
    etransitivity; [|exact H]. f_equal. cbn. unfold WriteNow. cbn. destruct (should_log im r); by rewrite ?app_nil_r.
Qed.

(** A stopped queue ends with its writer gone. *)
Lemma workers_stopped l q :
  asyncQueue l = Some q → queue_ok q → stopping q = true →
  ∃ q', workers (drain_fuel q) l = MkLogger (lg_level l) (impl l) (Some q') (drained l) ∧
        writer q' = Gone ∧ finished q' = true.
Proof.
  intros Hq (_ & _ & Hw) Hs. unfold drain_fuel.
  assert (writer q = Waiting ∨ (∃ r, writer q = Writing r) ∨ writer q = Leaving ∨ writer q = Gone)
    as [Hr|[Hr|[Hr|Hr]]] by (destruct (writer q); eauto).
  1,2: destruct (workers_drain l q Hq ltac:(eauto)) as (n & w' & ws' & Hn & Hd);
    replace (2 * length (pending q) + 3)%nat with (n + (2 + (2 * length (pending q) + 1 - n)))%nat
      by lia;
    rewrite workers_add, Hd, workers_add, Hs; cbn; rewrite workers_stuck by done; by eexists.
  - unfold drained, pending_of, pending. rewrite Hq, Hr in *. destruct Hw as (_ & -> & _).
    cbn [length app Nat.mul Nat.add List.filter].
    cbn [workers]. unfold worker at 1. rewrite Hq. unfold WorkerLoop. rewrite Hr, app_nil_r. by eexists.
  - unfold drained, pending_of, pending. rewrite Hq, Hr in *. destruct Hw as (_ & Hqu & Hf).
    rewrite workers_stuck by (unfold worker; rewrite Hq; unfold WorkerLoop; by rewrite Hr).
    exists q. rewrite Hqu, app_nil_r, <- Hq. by destruct l.
Qed.

(** C32. Stopping the asynchronous mode ends, and leaves nothing behind: in the
    bounded number of steps it waits for, the writer takes every pending record in
    order, writes those that the level it finds lets through, all of them where
    the level was not raised above one, and is gone; and the logger is
    synchronous. *)
Theorem StopAsync_drains l q :
  asyncQueue l = Some q → queue_ok q →
  StopAsync l = MkLogger (lg_level l) (impl l) None (drained l) ∧
  (in_step l → Forall (λ r, ¬ below r (lg_level l)) (pending q) → drained l = contents l) ∧
  ∃ q', asyncQueue (workers (drain_fuel q) (set_async l (Some (Stop q)))) = Some q' ∧
        pending q' = [] ∧ writer q' = Gone ∧ finished q' = true.
Proof.
  intros Hq Hok.
  assert (pending (Stop q) = pending q ∧ stopping (Stop q) = true) as (Hp & Hst).
  { unfold Stop. destruct (stopping q) eqn:Hs, (finished q); by rewrite ?Hs. }
  destruct (workers_stopped (set_async l (Some (Stop q))) (Stop q) eq_refl (Stop_ok q Hok) Hst)
    as (q' & Hw & Hg & Hf).
  assert (queue_ok q') as Hok'.
  { pose proof (workers_ok (drain_fuel (Stop q)) (set_async l (Some (Stop q)))
      (λ q0 E, eq_ind (Stop q) queue_ok (Stop_ok q Hok) q0 (f_equal (default q) E)) q') as H3.
    apply H3. by rewrite Hw. }
  unfold drain_fuel in *. rewrite Hp in Hw. unfold drained, contents, pending_of in *.
  cbn [asyncQueue set_async lines lg_level impl] in Hw.
  rewrite Hp in Hw. unfold StopAsync, drain_fuel. rewrite Hq, Hw. split_and!; [done| |exists q'].
  - intros Hi Hall. f_equal. by apply shown_all.
  - split_and!; [done| |done|done]. unfold pending. rewrite Hg. destruct Hok' as (_ & _ & Hok').
    rewrite Hg in Hok'. apply Hok'.
Qed.

(** ** Flush *)

(** The sequence numbers: [k] records were given a number and then replaced. *)
Definition seq_ok (k bound : Z) (q : AsyncLogQueue) : Prop :=
  0 <= k ∧ 0 <= writtenSeq q ∧ pushedSeq q = writtenSeq q + len (pending q) + k ∧
  pushedSeq q <= bound.

(** Whether pushing [r] replaces a record. *)
Definition replaces (r : LogRecord) (q : AsyncLogQueue) : bool :=
  negb (stopping q) && (q_capacity q <=? len (queue q)) && IsProtectedLevel (rec_level r) &&
  match replace_lower r (queue q) with Some _ => true | None => false end.

Definition replacement (e : LogEvent) (l : Logger) : Z :=
  match e, asyncQueue l with
  | EWrite lv module message now, Some q =>
      if log_level_value lv <? log_level_value (lg_level l) then 0
      else Z.b2z (replaces (MkLogRecord lv (NowLocalTime now) module message) q)
  | _, _ => 0
  end.

Fixpoint replacements (es : list LogEvent) (l : Logger) : Z :=
  match es with
  | [] => 0
  | e :: es' => replacement e l + replacements es' (log_step e l)
  end.

Lemma WorkerLoop_seq k b q q' out :
  b < 2 ^ 64 → seq_ok k b q → WorkerLoop q = Some (q', out) → seq_ok k b q'.
Proof.
  intros Hb (Hk & Hw & Hp & Hl). unfold WorkerLoop, seq_ok, pending in *.
  destruct (writer q) eqn:Ew; [| | |done].
  - destruct (stopping q || _); [|done].
    destruct (queue q) eqn:Hq; intros [= <- <-]; cbn in *; rewrite ?Hq; split_and!; try done; cbn; lia.
  - intros [= <- <-]. cbn [length writtenSeq pushedSeq writer queue app] in *.
    rewrite u64_small by (unfold is_u64; lia). lia.
  - intros [= <- <-]. cbn in *. lia.
Qed.

Lemma Push_seq k b r q :
  b + 1 < 2 ^ 64 → seq_ok k b q → seq_ok (k + Z.b2z (replaces r q)) (b + 1) (snd (Push r q)).
Proof.
  intros Hb (Hk & Hw & Hp & Hl). unfold replaces.
  destruct (Push_pushed r q) as [Hs Hr|a it b' Hs Hr Hpr Hit Ha Hrl|Hs Hr Hpr|e He].
  - rewrite Hs, (proj2 (Z.leb_gt _ _)) by done. cbn. unfold seq_ok, pending in *. cbn.
    rewrite !length_app in *. cbn. rewrite u64_small by (unfold is_u64; lia). lia.
  - rewrite Hs, (proj2 (Z.leb_le _ _)), Hpr, Hrl by done. unfold seq_ok, pending in *. cbn.
    rewrite Ha in Hp. rewrite !length_app in *. cbn in *.
    rewrite u64_small by (unfold is_u64; lia). lia.
  - rewrite Hs. unfold protected in Hpr. destruct (IsProtectedLevel _); [done|].
    rewrite andb_false_r. unfold seq_ok, pending in *. cbn. lia.
  - assert (negb (stopping q) && (q_capacity q <=? len (queue q)) && IsProtectedLevel (rec_level r) &&
            match replace_lower r (queue q) with Some _ => true | None => false end = false) as ->.
    { destruct He as [->|(_ & _ & ->)]; [done|apply andb_false_r]. }
    unfold seq_ok. cbn. lia.
Qed.

Definition queued (P : AsyncLogQueue → Prop) (l : Logger) : Prop :=
  ∀ q, asyncQueue l = Some q → P q.

Lemma log_step_seq k b e l :
  b + 1 < 2 ^ 64 → queued queue_ok l → queued (seq_ok k b) l →
  queued queue_ok (log_step e l) ∧ queued (seq_ok (k + replacement e l) (b + 1)) (log_step e l).
Proof.
  intros Hb Hok Hs.
  assert (queued (seq_ok k (b + 1)) l) as Hs'.
  { intros q Hq. destruct (Hs q Hq) as (? & ? & ? & ?). unfold seq_ok. lia. }
  unfold replacement. destruct e as [level module message now| | |level]; cbn [log_step];
    rewrite ?Z.add_0_r.
  - unfold Write. destruct (asyncQueue l) as [q|] eqn:Hq.
    + destruct (_ <? _); rewrite ?Z.add_0_r; [done|].
      set (r := MkLogRecord _ _ _ _).
      pose proof (Push_ok r q (Hok q Hq)). pose proof (Push_seq k b r q Hb (Hs q Hq)).
      destruct (Push r q) as [[] q']; split; intros ?; rewrite ?WriteNow_queue; by intros [= <-].
    + rewrite Z.add_0_r. destruct (_ <? _); [done|].
      split; intros q; rewrite WriteNow_queue; by rewrite Hq.
  - unfold worker. destruct (asyncQueue l) as [q|] eqn:Hq; [|by split; intros q; cbn; rewrite Hq].
    destruct (WorkerLoop q) as [[q' out]|] eqn:Hw; [|done].
    pose proof (WorkerLoop_ok _ _ _ (Hok q Hq) Hw).
    pose proof (WorkerLoop_seq k (b + 1) _ _ _ Hb (Hs' q Hq) Hw).
    destruct out; split; intros ?; unfold default, from_option, id; rewrite ?WriteNow_queue; by intros [= <-].
  - split; intros q'; cbn; destruct (asyncQueue l) as [q|] eqn:Hq; intros [= <-].
    + by apply Stop_ok, Hok.
    + destruct (Hs' q Hq) as (? & ? & ? & ?). unfold Stop. by destruct (_ && _).
  - done.
Qed.

Lemma log_run_seq es k b l :
  b + len es < 2 ^ 64 → queued queue_ok l → queued (seq_ok k b) l →
  queued queue_ok (log_run es l) ∧
  queued (seq_ok (k + replacements es l) (b + len es)) (log_run es l).
Proof.
  revert k b l. unfold log_run. induction es as [|e es IH]; intros k b l Hb Hok Hs.
  - cbn. by rewrite !Z.add_0_r.
  - cbn [fold_left replacements length] in *.
    destruct (log_step_seq k b e l ltac:(lia) Hok Hs) as [Hok' Hs'].
    destruct (IH (k + replacement e l) (b + 1) (log_step e l) ltac:(lia) Hok' Hs') as [H1 H2]. split; [done|].
    by replace (k + (replacement e l + replacements es (log_step e l))) with
      (k + replacement e l + replacements es (log_step e l)) by lia;
    replace (b + Z.of_nat (S (length es))) with (b + 1 + len es) by lia.
Qed.

Lemma workers_seq k b n l :
  b < 2 ^ 64 → queued (seq_ok k b) l → queued (seq_ok k b) (workers n l).
Proof.
  intros Hb. revert l. induction n as [|n IH]; intros l Hs; cbn [workers]; [done|].
  destruct (worker l) as [l'|] eqn:Hw; [|done]. apply IH.
  unfold worker in Hw. destruct (asyncQueue l) as [q|] eqn:Hq; [|done].
  destruct (WorkerLoop q) as [[q' out]|] eqn:Hl; [|done]. simplify_eq.
  pose proof (WorkerLoop_seq _ _ _ _ _ Hb (Hs q Hq) Hl).
  destruct out; intros ?; rewrite ?WriteNow_queue; by intros [= <-].
Qed.

Lemma workers_running n l :
  queued (λ q, queue_ok q ∧ stopping q = false) l →
  queued (λ q, queue_ok q ∧ stopping q = false) (workers n l).
Proof.
  revert l. induction n as [|n IH]; intros l Hl; cbn [workers]; [done|].
  destruct (worker l) as [l'|] eqn:Hw; [|done]. apply IH.
  unfold worker in Hw. destruct (asyncQueue l) as [q|] eqn:Hq; [|done].
  destruct (WorkerLoop q) as [[q' out]|] eqn:He; [|done]. simplify_eq.
  destruct (Hl q Hq) as [Hok Hs]. pose proof (WorkerLoop_ok _ _ _ Hok He).
  assert (stopping q' = false).
  { unfold WorkerLoop in He. destruct (writer q); simplify_eq; [|done..].
    destruct (_ || _); [|done]. by destruct (queue q); simplify_eq/=. }
  destruct out; intros ?; rewrite ?WriteNow_queue; by intros [= <-].
Qed.

Lemma seq_lost k b q : 0 < k → seq_ok k b q → writtenSeq q < pushedSeq q.
Proof. unfold seq_ok. lia. Qed.

Lemma workers_pushedSeq n l q q' :
  asyncQueue l = Some q → asyncQueue (workers n l) = Some q' → pushedSeq q' = pushedSeq q.
Proof.
  revert l q. induction n as [|n IH]; intros l q Hq; cbn [workers]; [congruence|].
  destruct (worker l) as [l'|] eqn:Hw; [|congruence]. unfold worker in Hw. rewrite Hq in Hw.
  destruct (WorkerLoop q) as [[q1 out]|] eqn:He; [|done]. simplify_eq. intros Hq'.
  etransitivity; [refine (IH _ q1 _ Hq'); destruct out; by rewrite ?WriteNow_queue|].
  unfold WorkerLoop in He. destruct (writer q); simplify_eq; [|done..].
  destruct (_ || _); [|done]. by destruct (queue q); simplify_eq/=.
Qed.

(** [Flush] on a running queue returns, after at most two steps of the
    writer per pending record and with all of them written, exactly when no
    record was ever replaced: a replacement numbers the new record without
    withdrawing the number of the old one, and from then on the writer by itself
    never catches up with the mark [Flush] waits for. *)
Lemma Flush_returns_iff es l capacity q :
  0 < capacity → len es < 2 ^ 64 →
  let l0 := set_async l (Some (new_queue capacity)) in
  let l1 := log_run es l0 in
  asyncQueue l1 = Some q → stopping q = false →
  (replacements es l0 = 0 →
     ∃ n q', (n <= 2 * length (pending q))%nat ∧ asyncQueue (workers n l1) = Some q' ∧
       flush_done (flush_target q) q' = true ∧ lines (workers n l1) = drained l1) ∧
  (replacements es l0 ≠ 0 →
     ∀ n q', asyncQueue (workers n l1) = Some q' → flush_done (flush_target q) q' = false).
Proof.
  intros Hcap Hb l0 l1 Hq Hst.
  assert (queued queue_ok l0 ∧ queued (seq_ok 0 0) l0) as [H0 H0'].
  { split; intros ? [= <-]; [|done]. split; [done|split; [cbn; lia|done]]. }
  destruct (log_run_seq es 0 0 l0 ltac:(lia) H0 H0') as [Hok Hseq].
  fold l1 in Hok, Hseq. rewrite !Z.add_0_l in Hseq.
  pose proof (Hok q Hq) as Hqok. unfold flush_done, flush_target. split.
  - intros Hr. rewrite Hr in Hseq.
    assert (writer q = Waiting ∨ (∃ r, writer q = Writing r)) as Hw.
    { destruct Hqok as (_ & _ & Hw). destruct (writer q); eauto; destruct Hw as (? & _); congruence. }
    destruct (workers_drain l1 q Hq Hw) as (n & w' & ws' & Hn & Hd).
    pose proof (workers_seq _ _ n l1 Hb Hseq) as Hs. rewrite Hd in Hs.
    destruct (Hs _ eq_refl) as (_ & _ & Hp & _). cbn in Hp.
    exists n. eexists. rewrite Hd. cbn.
    split_and!; [done|done| |done]. apply orb_true_iff. left. cbn. lia.
  - intros Hr n q' Hq'.
    pose proof (workers_seq _ _ n l1 Hb Hseq q' Hq') as Hs.
    assert (queued (λ q, queue_ok q ∧ stopping q = false) l1) as Hrun.
    { intros ? [= <-]%(eq_trans (eq_sym Hq)). done. }
    destruct (workers_running n l1 Hrun q' Hq') as [(_ & _ & Hw) Hst'].
    rewrite <- (workers_pushedSeq n l1 q q' Hq Hq').
    apply orb_false_iff. split.
    + apply Z.leb_gt, (seq_lost (replacements es l0) (len es)); [|done].
      destruct Hs as [? _]. lia.
    + destruct (writer q'); [done|done|destruct Hw as (? & _); congruence..].
Qed.

(** ** Witnesses *)

Definition at_noon : SYSTEMTIME := MkSystemTime 2026 1 2 12 0 0 7.
Definition say (level : LogLevel) : LogEvent := EWrite level (widen "m") (widen "hello") at_noon.
Definition small_queue : Logger := set_async (new_logger LogLevel.Info) (Some (new_queue 1)).

Example NowLocalTime_noon : NowLocalTime at_noon = widen "2026-01-02 12:00:00.007".
Proof. reflexivity. Qed.

Lemma log_run_keeps_witness :
  let es := [say LogLevel.Info; say LogLevel.Error; say LogLevel.Debug; EWorker;
             say LogLevel.Critical; ESetLevel LogLevel.Critical; EWorker; EWorker; EWorker; EStop;
             say LogLevel.Warn] in
  ∃ lost hidden,
    contents small_queue ++ accepted LogLevel.Info es ≡ₚ
      contents (log_run es small_queue) ++ lost ++ hidden ∧
    Forall (λ r, IsProtectedLevel (rec_level r) = false) lost ∧
    dropped_of (log_run es small_queue) = u64 (0 + len lost) ∧
    Forall (overtaken es small_queue) hidden.
Proof.
  intros es. apply (log_run_keeps es small_queue).
  - unfold is_u64. cbn. lia.
  - by eexists.
  - constructor.
Defined.

(** An error that was accepted and waits in the queue is neither written nor
    counted once the level is raised above it. *)
Lemma raised_level_hides_pending :
  let l := log_run [say LogLevel.Error; ESetLevel LogLevel.Critical; EWorker; EWorker] small_queue in
  accepted LogLevel.Info [say LogLevel.Error; ESetLevel LogLevel.Critical] ≠ [] ∧
  contents l = [] ∧ dropped_of l = 0.
Proof. by vm_compute. Qed.

Lemma StopAsync_drains_witness :
  let l := log_run [say LogLevel.Error; EWorker; say LogLevel.Critical] small_queue in
  lines (StopAsync l) = contents l ∧ length (contents l) = 2%nat ∧ asyncQueue (StopAsync l) = None.
Proof.
  intros l.
  destruct (StopAsync_drains l (default (new_queue 1) (asyncQueue l)) eq_refl) as (-> & Hall & _).
  - vm_compute. repeat split; congruence.
  - cbn [lines]. split_and!; [|reflexivity|reflexivity]. apply Hall.
    + by eexists.
    + repeat constructor; by vm_compute.
Defined.

(** A full queue of one Info record, into which an Error record goes: flushing
    then waits for a second record that will never be written. *)
Lemma Flush_returns_iff_witness :
  let l := log_run [say LogLevel.Info; say LogLevel.Error] small_queue in
  let q := default (new_queue 1) (asyncQueue l) in
  ∀ n q', asyncQueue (workers n l) = Some q' → flush_done (flush_target q) q' = false.
Proof.
  intros l q.
  apply (Flush_returns_iff [say LogLevel.Info; say LogLevel.Error] (new_logger LogLevel.Info) 1 q).
  - lia.
  - cbn. lia.
  - reflexivity.
  - reflexivity.
  - vm_compute. congruence.
Defined.

(** Without a replacement it returns. *)
Example Flush_returns :
  let l := log_run [say LogLevel.Info] small_queue in
  option_map (flush_done 1) (asyncQueue (workers 2 l)) = Some true.
Proof. reflexivity. Qed.
