(* ===== verification/Config.v ===== *)
(** Reading the configuration ([config/config_manager], names, versions and
    [LoadConfig]). The TOML parser is a library: a document is a tree of nodes
    of an abstract type, seen through the class [Toml] of the accessors the
    source uses; [TomlLaws] states what it relies on of a node's type. *)

From S2P Require Import Prelude CommonError ConfigTypes.

Open Scope string_scope.
Open Scope list_scope.
Open Scope Z_scope.

Definition ToLower (text : string) : string := map_chars ascii_lower text.

(** ** Versions *)

Definition version_error (msg : string) : Error := Validation "ParseConfigVersion" msg.
Definition three_segments : string :=
  "version must be MAJOR.MINOR.PATCH (three numeric segments)".

(** The state of the loop over the body. *)
Record VersionState := MkVersionState {
  segments : Z * Z * Z;
  segmentIndex : Z;
  digits : Z;
  segmentFirstDigitZero : bool
}.

(** [segments[i] = segments[i] * 10 + d] *)
Definition extend_segment (s : Z * Z * Z) (i d : Z) : Z * Z * Z :=
  let '(a, b, c) := s in
  if i =? 0 then (u32 (a * 10 + d), b, c)
  else if i =? 1 then (a, u32 (b * 10 + d), c)
  else (a, b, u32 (c * 10 + d)).

Definition version_char (st : VersionState) (c : ascii) : Result VersionState :=
  if Ascii.eqb c "." then
    if (digits st =? 0) || (2 <=? segmentIndex st)
    then Failure (version_error three_segments)
    else Success (MkVersionState (segments st) (segmentIndex st + 1) 0 false)
  else if negb (is_digit c)
  then Failure (version_error "version must be MAJOR.MINOR.PATCH (ASCII digits and '.')")
  else if 4 <=? digits st
  then Failure (version_error "version segments must be <= 4 digits")
  else if negb (digits st =? 0) && segmentFirstDigitZero st
  then Failure (version_error "version segments must not have leading zeros")
  else
    Success (MkVersionState (extend_segment (segments st) (segmentIndex st) (digit_value c))
               (segmentIndex st) (digits st + 1)
               (if digits st =? 0 then Ascii.eqb c "0" else segmentFirstDigitZero st)).

Fixpoint version_loop (st : VersionState) (body : string) : Result VersionState :=
  match body with
  | EmptyString => Success st
  | String c body' =>
      match version_char st c with
      | Failure e => Failure e
      | Success st' => version_loop st' body'
      end
  end.

Definition prerelease_char (c : ascii) : bool :=
  is_digit c || is_lower c || is_upper c || Ascii.eqb c "." || Ascii.eqb c "-".

Definition first_is (c : ascii) (s : string) : bool :=
  match s with String x _ => Ascii.eqb x c | EmptyString => false end.
Fixpoint last_is (c : ascii) (s : string) : bool :=
  match s with
  | EmptyString => false
  | String x EmptyString => Ascii.eqb x c
  | String _ s' => last_is c s'
  end.

(** The checks on what follows the dash. *)
Definition prerelease_error (p : string) : option Error :=
  if string_empty p || (32 <? strlen p)
  then Some (version_error "prerelease must be 1..32 characters after '-'")
  else if first_is "." p || last_is "." p ||
          match cut ".." p with Some _ => true | None => false end
  then Some (version_error "prerelease must not contain empty segments")
  else if negb (all_chars prerelease_char p)
  then Some (version_error "prerelease accepts ASCII letters/digits/'.'/'-' only")
  else None.

Definition ParseConfigVersion (text : string) : Result ConfigVersion :=
  if string_empty text || (48 <? strlen text)
  then Failure (version_error "version must be 1..48 ASCII characters")
  else
    let '(body, pre) := match cut "-" text with
                        | Some (body, pre) => (body, Some pre)
                        | None => (text, None)
                        end in
    match version_loop (MkVersionState (0, 0, 0) 0 0 false) body with
    | Failure e => Failure e
    | Success st =>
        if (digits st =? 0) || negb (segmentIndex st =? 2)
        then Failure (version_error three_segments)
        else
          match from_option prerelease_error None pre with
          | Some e => Failure e
          | None =>
              let '(a, b, c) := segments st in
              Success (MkVersion a b c (default "" pre))
          end
    end.

Definition FormatConfigVersion (v : ConfigVersion) : string :=
  to_string (ver_major v) +:+ "." +:+ to_string (ver_minor v) +:+ "." +:+
  to_string (ver_patch v) +:+
  (if string_empty (prerelease v) then "" else "-" +:+ prerelease v).

(** ** Modes, layers, names *)

Definition AllowsLocalReversibleActions (mode : RunMode) (l : LayerConfig) : bool :=
  negb (bool_decide (mode = RunMode.Observe)) && (maintenance l || emergency l).

Definition AllowsSystemLevelActions (mode : RunMode) (l : LayerConfig) : bool :=
  bool_decide (mode = RunMode.Experimental) && emergency l.

Definition ParseRunMode (name : string) : Result RunMode :=
  let lower := ToLower name in
  if String.eqb lower "observe" then Success RunMode.Observe
  else if String.eqb lower "balanced" then Success RunMode.Balanced
  else if String.eqb lower "experimental" then Success RunMode.Experimental
  else Failure (Validation "ParseRunMode"
                  "Unknown run mode (expected observe/balanced/experimental)").

Definition ParseCleanLevel (name : string) : Result CleanLevel :=
  let lower := ToLower name in
  if String.eqb lower "none" then Success CleanLevel.None
  else if String.eqb lower "light" then Success CleanLevel.Light
  else if String.eqb lower "medium" then Success CleanLevel.Medium
  else if String.eqb lower "deep" then Success CleanLevel.Deep
  else Failure (Validation "ParseCleanLevel"
                  "Unknown clean level (expected none/light/medium/deep)").

Definition ParsePriorityLevel (name : string) : Result PriorityLevel :=
  let lower := ToLower name in
  if String.eqb lower "none" then Success PriorityLevel.None
  else if String.eqb lower "above_normal" then Success PriorityLevel.AboveNormal
  else if String.eqb lower "high" then Success PriorityLevel.High
  else if String.eqb lower "realtime"
  then Failure (Validation "ParsePriorityLevel" "realtime priority is forbidden")
  else Failure (Validation "ParsePriorityLevel"
                  "Unknown priority level (expected none/above_normal/high)").

(** ** Documents *)

(** Accessors of the parsed tree: [as_table] with the entries in the order of
    iteration, [as_array], the tests on [type()] and [value<T>()], which
    converts between types where the library does. *)
Class Toml (Node : Type) := {
  as_table : Node → option (list (string * Node));
  as_array : Node → option (list Node);
  is_integer : Node → bool;
  is_string : Node → bool;
  value_string : Node → option string;
  value_bool : Node → option bool;
  value_int : Node → option Z;
  value_double : Node → option Z
}.

Class TomlLaws (Node : Type) `{Toml Node} := {
  value_int_i64 : ∀ n z, value_int n = Some z → - 2 ^ 63 <= z < 2 ^ 63;
  integer_value : ∀ n, is_integer n = true → is_Some (value_int n);
  string_value : ∀ n, is_string n = true → is_Some (value_string n)
}.

(** [toml::parse_file] on the world: a table, or the description of the error. *)
Class TomlFiles (W Node : Type) := parse_file : string → W → list (string * Node) + string.

Section Loading.
Context {Node : Type} `{Toml Node}.

Definition Table : Type := list (string * Node).

Definition get (key : string) (t : Table) : option Node :=
  snd <$> List.find (λ e, String.eqb e.1 key) t.

Definition section (key : string) (t : Table) : option Table := get key t ≫= as_table.
Definition get_string (key : string) (t : Table) : option string := get key t ≫= value_string.
Definition get_bool (key : string) (t : Table) : option bool := get key t ≫= value_bool.
Definition get_int (key : string) (t : Table) : option Z := get key t ≫= value_int.
Definition get_double (key : string) (t : Table) : option Z := get key t ≫= value_double.

(** A present value within the limits of [int32_t] replaces the old one. *)
Definition in_int32 (z : Z) : bool := (- 2 ^ 31 <=? z) && (z <=? 2 ^ 31 - 1).
Definition set_int32 (v : option Z) (old : Z) : Z :=
  match v with Some z => if in_int32 z then z else old | None => old end.

(** [static_cast<std::uint32_t>] of a present value above 0. *)
Definition set_positive (v : option Z) (old : Z) : Z :=
  match v with Some z => if 0 <? z then u32 z else old | None => old end.

Definition load_version (t : Table) : Result ConfigVersion :=
  match get "version" t with
  | None => Success (version default_snapshot)
  | Some node =>
      let text :=
        if is_integer node then Some (to_string (default 0 (value_int node)) +:+ ".0.0")
        else if is_string node then Some (default "" (value_string node))
        else None in
      match text with
      | None => Failure (Validation "LoadConfig"
                  ("version must be a string " +:+ String "034" "M.m.p[-pre]" +:+
                   String "034" " (or legacy integer)"))
      | Some text =>
          match ParseConfigVersion text with
          | Failure e => Failure e
          | Success v =>
              if negb (ver_major v =? kSupportedConfigMajor)
              then Failure (Validation "LoadConfig"
                              "unsupported config version major (supported: 1.x.y)")
              else Success v
          end
      end
  end.

Definition load_application (t : Table) (a : ApplicationConfig) : Result ApplicationConfig :=
  match section "application" t with
  | None => Success a
  | Some s =>
      let finish m := Success (MkApplication m
        (default (safeModeOnRecoveryError a) (get_bool "safe_mode_on_recovery_error" s))) in
      match get_string "mode" s with
      | None => finish (app_mode a)
      | Some name => match ParseRunMode name with
                     | Failure e => Failure e
                     | Success m => finish m
                     end
      end
  end.

Definition load_logging (t : Table) (l : LoggingConfig) : LoggingConfig :=
  match section "logging" t with
  | None => l
  | Some s =>
      MkLogging (default (log_level l) (get_string "level" s))
        (default (log_directory l) (get_string "directory" s))
        (set_positive (get_int "max_file_mb" s) (maxFileMb l))
        (set_positive (get_int "max_files" s) (maxFiles l))
        (default (log_console l) (get_bool "console" s))
  end.

Definition load_memory (t : Table) (m : MemoryConfig) : Result MemoryConfig :=
  match section "memory" t with
  | None => Success m
  | Some s =>
      let finish level := Success (MkMemoryConfig
        (default (queryEnabled m) (get_bool "query_enabled" s))
        (default (scheduledCleanEnabled m) (get_bool "scheduled_clean_enabled" s))
        (default (allowNativeWrite m) (get_bool "allow_native_write" s)) level) in
      match get_string "max_clean_level" s with
      | None => finish (maxCleanLevel m)
      | Some name => match ParseCleanLevel name with
                     | Failure e => Failure e
                     | Success level => finish level
                     end
      end
  end.

Definition load_layers (t : Table) (l : LayerConfig) : LayerConfig :=
  match section "layers" t with
  | None => l
  | Some s =>
      MkLayers (default (monitoring l) (get_bool "monitoring" s))
        (default (maintenance l) (get_bool "maintenance" s))
        (default (emergency l) (get_bool "emergency" s))
  end.

Definition load_power (t : Table) (p : PowerConfig) : PowerConfig :=
  match section "power" t with
  | None => p
  | Some s =>
      MkPowerConfig (default (executionRequired p) (get_bool "execution_required" s))
        (default (displayRequired p) (get_bool "display_required" s))
        (default (switchPowerScheme p) (get_bool "switch_power_scheme" s))
  end.

(** A level that does not parse keeps the old one. *)
Definition load_priority (t : Table) (p : PriorityConfig) : PriorityConfig :=
  match section "priority" t with
  | None => p
  | Some s =>
      MkPriorityConfig (default (pri_enabled p) (get_bool "enabled" s))
        (match get_string "max_level" s with
         | None => maxLevel p
         | Some name => match ParsePriorityLevel name with
                        | Success level => level
                        | Failure _ => maxLevel p
                        end
         end)
  end.

Definition load_gpu_heartbeat (t : Table) (g : GpuHeartbeatConfig) : GpuHeartbeatConfig :=
  match section "gpu_heartbeat" t with
  | None => g
  | Some s =>
      MkGpuHeartbeat (default (gpu_enabled g) (get_bool "enabled" s))
        (default (maxMeasuredLoadPercent g) (get_double "max_measured_load_percent" s))
  end.

(** [scheduler] and [disk_cache] *)
Definition load_toggle (key : string) (t : Table) (g : ToggleConfig) : ToggleConfig :=
  match section key t with
  | None => g
  | Some s => MkToggle (default (tog_enabled g) (get_bool "enabled" s))
  end.

Definition load_policy_values (t : Table) (p : PolicyConfig) : PolicyConfig :=
  match section "policy" t with
  | None => p
  | Some s =>
      MkPolicyConfig
        (set_int32 (get_int "comfortable_margin_percent" s) (comfortableMarginPercent p))
        (set_int32 (get_int "adequate_margin_percent" s) (adequateMarginPercent p))
        (set_int32 (get_int "tight_margin_percent" s) (tightMarginPercent p))
        (set_int32 (get_int "cooldown_ms" s) (pol_cooldownMs p))
        (set_int32 (get_int "user_away_idle_seconds" s) (userAwayIdleSeconds p))
        (set_int32 (get_int "halt_after_action_failures" s) (haltAfterActionFailures p))
  end.

Definition policy_in_order (p : PolicyConfig) : bool :=
  (0 <=? tightMarginPercent p) &&
  (tightMarginPercent p <? adequateMarginPercent p) &&
  (adequateMarginPercent p <? comfortableMarginPercent p) &&
  (comfortableMarginPercent p <=? 100).

Definition policy_rejected (p : PolicyConfig) : bool :=
  negb (policy_in_order p) || (pol_cooldownMs p <? 0) || (userAwayIdleSeconds p <? 0) ||
  (86400 <? userAwayIdleSeconds p) || (haltAfterActionFailures p <? 0) ||
  (10000 <? haltAfterActionFailures p).

Definition policy_error : Error :=
  Validation "LoadConfig"
    ("[policy] thresholds must satisfy " +:+
     "0 <= tight < adequate < comfortable <= 100, cooldown_ms >= 0, " +:+
     "user_away_idle_seconds in 0..86400 (0 = gate off), " +:+
     "halt_after_action_failures in 0..10000 (0 = off)").

Definition load_policy (t : Table) (p : PolicyConfig) : Result PolicyConfig :=
  let p := load_policy_values t p in
  if policy_rejected p then Failure policy_error else Success p.

Definition load_safe_mode_values (t : Table) (m : SafeModeConfig) : SafeModeConfig :=
  match section "ipc" t with
  | None => m
  | Some s =>
      MkSafeModeConfig (default (sm_enabled m) (get_bool "safe_mode_enabled" s))
        (set_int32 (get_int "safe_mode_failures" s) (sm_failuresToEnter m))
        (set_int32 (get_int "safe_mode_window_ms" s) (sm_countingWindowMs m))
        (set_int32 (get_int "safe_mode_cooldown_ms" s) (sm_cooldownMs m))
  end.

Definition safe_mode_in_range (m : SafeModeConfig) : bool :=
  (1 <=? sm_failuresToEnter m) && (sm_failuresToEnter m <=? 100) &&
  (1 <=? sm_countingWindowMs m) && (sm_countingWindowMs m <=? 600000) &&
  (1 <=? sm_cooldownMs m) && (sm_cooldownMs m <=? 600000).

Definition safe_mode_error : Error :=
  Validation "LoadConfig"
    ("[ipc] safe_mode must satisfy " +:+
     "1 <= failures <= 100, 1 <= window_ms <= 600000, " +:+
     "1 <= cooldown_ms <= 600000").

Definition load_ipc (t : Table) (i : IpcConfig) : Result IpcConfig :=
  let m := load_safe_mode_values t (safeMode i) in
  if negb (safe_mode_in_range m) then Failure safe_mode_error else Success (MkIpcConfig m).

(** ** Games *)

Definition load_game (g : Table) : GameConfig :=
  MkGameConfig (default "" (get_string "id" g)) (default "" (get_string "display_name" g))
    (match get "process_names" g ≫= as_array with
     | Some names => omap value_string names
     | None => []
     end)
    (default "" (get_string "window_title_contains" g))
    (default true (get_bool "pause_when_background" g)).

(** Elements that are no tables, and games without an id, are passed over. *)
Definition load_games (t : Table) : list GameConfig :=
  match get "games" t ≫= as_array with
  | None => []
  | Some l => List.filter (λ g, negb (string_empty (cfg_id g))) (load_game <$> omap as_table l)
  end.

(** ** Unknown keys *)

Definition CollectUnknownKeys (t : Table) (known : list string) (prefix : string)
  : list string :=
  map (λ name, if string_empty prefix then name else prefix +:+ "." +:+ name)
    (List.filter (λ name, negb (existsb (String.eqb name) known)) (map fst t)).

Definition top_keys : list string :=
  ["version"; "application"; "logging"; "layers"; "power"; "priority"; "memory";
   "gpu_heartbeat"; "scheduler"; "disk_cache"; "policy"; "ipc"; "games"; "agent"].

Definition section_keys : list (string * list string) :=
  [("application", ["mode"; "safe_mode_on_recovery_error"]);
   ("logging", ["level"; "directory"; "max_file_mb"; "max_files"; "console"]);
   ("layers", ["monitoring"; "maintenance"; "emergency"]);
   ("power", ["execution_required"; "display_required"; "switch_power_scheme"]);
   ("priority", ["enabled"; "max_level"]);
   ("memory", ["query_enabled"; "scheduled_clean_enabled"; "allow_native_write";
               "max_clean_level"]);
   ("gpu_heartbeat", ["enabled"; "max_measured_load_percent"]);
   ("scheduler", ["enabled"]);
   ("disk_cache", ["enabled"]);
   ("policy", ["comfortable_margin_percent"; "adequate_margin_percent";
               "tight_margin_percent"; "cooldown_ms"; "user_away_idle_seconds";
               "halt_after_action_failures"]);
   ("ipc", ["safe_mode_enabled"; "safe_mode_failures"; "safe_mode_window_ms";
            "safe_mode_cooldown_ms"]);
   ("agent", ["form"])].

Definition game_keys : list string :=
  ["id"; "display_name"; "process_names"; "pause_when_background"; "window_title_contains"].

Definition collectSection (t : Table) (s : string * list string) : list string :=
  match section s.1 t with
  | Some table => CollectUnknownKeys table s.2 s.1
  | None => []
  end.

Definition collect_game (index : nat) (node : Node) : list string :=
  match as_table node with
  | Some g => CollectUnknownKeys g game_keys ("games[" +:+ to_string (Z.of_nat index) +:+ "]")
  | None => []
  end.

Definition collect_unknown (t : Table) : list string :=
  CollectUnknownKeys t top_keys "" ++ flat_map (collectSection t) section_keys ++
  match get "games" t ≫= as_array with
  | Some l => concat (imap collect_game l)
  | None => []
  end.

(** ** The agent's form *)

Definition agent_error : Error :=
  Validation "LoadConfig"
    ("agent.form: 仅支持 " +:+ String "034" "startup_tray" +:+ String "034" "（默认）/" +:+
     String "034" "task" +:+ String "034" "/" +:+ String "034" "service" +:+
     String "034" "（未知形态不做宽松猜测）").

Definition load_agent (t : Table) (a : AgentConfig) : Result AgentConfig :=
  match section "agent" t with
  | None => Success a
  | Some s =>
      match get_string "form" s with
      | None => Success a
      | Some form =>
          let lower := ToLower form in
          if negb (String.eqb lower "startup_tray") && negb (String.eqb lower "task") &&
             negb (String.eqb lower "service")
          then Failure agent_error
          else Success (MkAgent lower)
      end
  end.

(** ** The whole document *)

Definition bind_result {A B} (r : Result A) (k : A → Result B) : Result B :=
  match r with Success a => k a | Failure e => Failure e end.

Notation "x <=- r ;; k" := (bind_result r (λ x, k))
  (at level 100, r at next level, right associativity) : optimizer_scope.

Definition load_table (t : Table) : Result ConfigSnapshot :=
  let d := default_snapshot in
  v <=- load_version t ;;
  app <=- load_application t (application d) ;;
  mem <=- load_memory t (memory d) ;;
  pol <=- load_policy t (policy d) ;;
  i <=- load_ipc t (ipc d) ;;
  a <=- load_agent t (agent d) ;;
  Success (MkSnapshot v (collect_unknown t) app (load_logging t (logging d)) (load_layers t (layers d))
             (load_power t (power d)) (load_priority t (priority d)) mem
             (load_gpu_heartbeat t (gpuHeartbeat d)) (load_toggle "scheduler" t (scheduler d))
             (load_toggle "disk_cache" t (diskCache d)) pol i (load_games t) a).

Definition LoadConfig {W} `{TomlFiles W Node} (path : string) (w : W) : Result ConfigSnapshot :=
  match parse_file path w with
  | inr description => Failure (Validation "LoadConfig" description)
  | inl t => load_table t
  end.
End Loading.

(** ** Versions: theorems *)

(** A finished segment. *)
Definition good_segment (s : string) : Prop := canonical s = true ∧ strlen s <= 4.

(** A segment being read. *)
Definition open_segment (s : string) : Prop := s = "" ∨ good_segment s.

Definition triple (l : list Z) : Z * Z * Z := (nth 0 l 0, nth 1 l 0, nth 2 l 0).

(** The state after the segments [fs] and the characters [t] of the next one. *)
Definition state_of (fs : list string) (t : string) : VersionState :=
  MkVersionState (triple (map (dec_acc 0) (fs ++ [t]))) (len fs) (strlen t) (first_is "0" t).

(** The text read by then. *)
Definition text_of (fs : list string) (t : string) : string :=
  foldr (λ s acc, s +:+ "." +:+ acc) t fs.

Lemma text_of_app fs t s : text_of fs t +:+ s = text_of fs (t +:+ s).
Proof.
  induction fs as [|f fs IH]; cbn [text_of foldr]; [done|].
  rewrite !string_app_assoc. do 2 f_equal. exact IH.
Qed.

Lemma text_of_dot fs t s : text_of fs (t +:+ "." +:+ s) = text_of (fs ++ [t]) s.
Proof. unfold text_of. by rewrite foldr_app. Qed.

Lemma extend_triple l x d :
  (length l <= 2)%nat → 0 <= 10 * x + d < 2 ^ 32 →
  extend_segment (triple (l ++ [x])) (len l) d = triple (l ++ [10 * x + d]).
Proof.
  intros Hl Hx. unfold extend_segment, triple.
  assert (u32 (x * 10 + d) = 10 * x + d) as E.
  { rewrite Z.mul_comm. apply u32_small. exact Hx. }
  destruct l as [|a [|b [|c l]]]; cbn in Hl |- *; [by rewrite E..|lia].
Qed.

Lemma first_is_app c t x : first_is c (t +:+ String x "") =
  if string_empty t then Ascii.eqb x c else first_is c t.
Proof. by destruct t. Qed.

Lemma dec_acc_small t : all_chars is_digit t = true → strlen t <= 4 → 0 <= dec_acc 0 t < 10000.
Proof.
  intros Hd Hl. pose proof (dec_acc_bound t Hd).
  assert (10 ^ strlen t <= 10 ^ 4) by (apply Z.pow_le_mono_r; lia). lia.
Qed.

Lemma open_digits t : open_segment t → all_chars is_digit t = true ∧ strlen t <= 4.
Proof.
  intros [->|[Hc Hl]]; [done|]. split; [|done]. unfold canonical in Hc.
  apply andb_true_iff in Hc as [Hc _]. by apply is_decimal_digits.
Qed.

(** One digit more. *)
Lemma version_digit fs t c :
  open_segment t → (length fs <= 2)%nat → is_digit c = true →
  version_char (state_of fs t) c =
  if 4 <=? strlen t then Failure (version_error "version segments must be <= 4 digits")
  else if negb (string_empty t) && first_is "0" t
  then Failure (version_error "version segments must not have leading zeros")
  else Success (state_of fs (t +:+ String c "")).
Proof.
  intros Ht Hfs Hc. destruct (open_digits t Ht) as [Hd Hl]. unfold version_char. cbn [state_of].
  assert (Ascii.eqb c "." = false) as ->.
  { apply Ascii.eqb_neq. by intros ->. }
  rewrite Hc. cbn [negb digits segments segmentIndex segmentFirstDigitZero state_of].
  destruct (4 <=? strlen t); [done|].
  assert ((strlen t =? 0) = string_empty t) as -> by (by destruct t).
  destruct (negb (string_empty t) && first_is "0" t); [done|]. f_equal.
  unfold state_of. rewrite first_is_app. f_equal.
  - rewrite !map_app. cbn [map]. rewrite <- (length_map (dec_acc 0) fs) at 1.
    pose proof (dec_acc_small t Hd Hl). pose proof (digit_value_range c Hc).
    rewrite extend_triple; [|by rewrite length_map|lia].
    by rewrite dec_acc_app.
  - rewrite strlen_app. cbn [String.length]. lia.
Qed.

Lemma open_segment_snoc t c :
  open_segment t → is_digit c = true → (4 <=? strlen t) = false →
  negb (string_empty t) && first_is "0" t = false →
  good_segment (t +:+ String c "").
Proof.
  intros Ht Hc H4 Hz. apply Z.leb_gt in H4. split.
  - destruct Ht as [->|[Hcan _]]; [unfold canonical; by cbn; rewrite Hc|].
    unfold canonical, is_decimal in *. destruct t as [|x t]; [done|]. cbn [string_empty negb andb] in *.
    apply andb_true_iff in Hcan as [Hd _]. rewrite all_chars_app, Hd. cbn [all_chars].
    rewrite Hc. cbn [String.append andb]. cbn [first_is] in Hz. rewrite Hz. by destruct t.
  - rewrite strlen_app. cbn [String.length]. lia.
Qed.

Lemma version_loop_sound fs t body st :
  open_segment t → Forall good_segment fs → (length fs <= 2)%nat →
  version_loop (state_of fs t) body = Success st →
  ∃ fs' t', st = state_of fs' t' ∧ open_segment t' ∧ Forall good_segment fs' ∧
            (length fs' <= 2)%nat ∧ text_of fs t +:+ body = text_of fs' t'.
Proof.
  revert fs t. induction body as [|c body IH]; intros fs t Ht Hfs Hl; cbn [version_loop].
  - intros [= <-]. exists fs, t. by rewrite string_app_nil_r.
  - destruct (Ascii.eqb_spec c ".") as [->|Hdot].
    + unfold version_char. cbn [Ascii.eqb Bool.eqb state_of digits segmentIndex].
      assert ((strlen t =? 0) = string_empty t) as -> by (by destruct t).
      destruct (string_empty t) eqn:He; [done|]. cbn [orb].
      destruct (Z.leb_spec 2 (len fs)) as [|H2]; [done|].
      change (MkVersionState _ _ _ _) with (MkVersionState (triple (map (dec_acc 0) (fs ++ [t])))
        (len fs + 1) 0 false).
      assert (MkVersionState (triple (map (dec_acc 0) (fs ++ [t]))) (len fs + 1) 0 false
              = state_of (fs ++ [t]) "") as ->.
      { unfold state_of. cbn. rewrite (map_app _ (fs ++ [t])), length_app. f_equal; [|cbn; lia].
        destruct fs as [|a [|b fs]]; cbn in H2 |- *; done || lia. }
      intros Hv. apply IH in Hv as (fs' & t' & -> & Ht' & Hfs' & Hl' & Htext).
      * exists fs', t'. split_and!; [done..|]. rewrite <- Htext, <- text_of_dot, text_of_app.
        cbn. rewrite text_of_app. f_equal. by rewrite string_app_assoc.
      * by left.
      * apply Forall_app. split; [done|]. constructor; [|constructor].
        destruct Ht as [->|]; done.
      * rewrite length_app. cbn. lia.
    + destruct (is_digit c) eqn:Hc; [|unfold version_char;
        rewrite (proj2 (Ascii.eqb_neq c ".") Hdot), Hc; done].
      rewrite version_digit by done. destruct (4 <=? strlen t) eqn:H4; [done|].
      destruct (_ && _) eqn:Hz; [done|]. intros Hv.
      apply IH in Hv as (fs' & t' & -> & Ht' & Hfs' & Hl' & Htext); [|right|done|done].
      * exists fs', t'. split_and!; [done..|]. rewrite <- Htext, !text_of_app. f_equal.
        by rewrite string_app_assoc.
      * by apply open_segment_snoc.
Qed.

Lemma canonical_first t c s :
  string_empty t = false → canonical (t +:+ String c s) = true → first_is "0" t = false.
Proof.
  unfold canonical. intros Ht [_ H]%andb_true_iff. destruct t as [|x t]; [done|].
  cbn [first_is]. by destruct t; apply negb_true_iff in H.
Qed.

Lemma version_loop_digits fs t s rest :
  (length fs <= 2)%nat → open_segment t → (s = "" ∨ good_segment (t +:+ s)) →
  version_loop (state_of fs t) (s +:+ rest) = version_loop (state_of fs (t +:+ s)) rest.
Proof.
  intros Hfs. revert t. induction s as [|c s IH]; intros t Ht Hs.
  { by rewrite string_app_nil_r. }
  destruct Hs as [|[Hcan Hl]]; [done|].
  assert (is_digit c = true) as Hc.
  { unfold canonical in Hcan. apply andb_true_iff in Hcan as [Hd%is_decimal_digits _].
    rewrite all_chars_app in Hd. cbn in Hd. b2p. done. }
  change (String c s +:+ rest) with (String c (s +:+ rest)). cbn [version_loop].
  rewrite version_digit by done.
  assert ((4 <=? strlen t) = false) as H4.
  { apply Z.leb_gt. rewrite strlen_app in Hl. cbn in Hl. lia. }
  assert (negb (string_empty t) && first_is "0" t = false) as Hzero.
  { destruct (string_empty t) eqn:He; [done|]. cbn. by eapply canonical_first. }
  rewrite H4, Hzero.
  assert (t +:+ String c s = (t +:+ String c "") +:+ s) as E by (by rewrite string_app_assoc).
  rewrite E in Hcan, Hl |- *. apply IH.
  - right. by apply open_segment_snoc.
  - right. done.
Qed.

Lemma version_loop_dot fs t rest :
  good_segment t → (length fs <= 1)%nat →
  version_loop (state_of fs t) ("." +:+ rest) = version_loop (state_of (fs ++ [t]) "") rest.
Proof.
  intros [Hcan _] Hl. change ("." +:+ rest) with (String "." rest). cbn [version_loop].
  unfold version_char. cbn [Ascii.eqb Bool.eqb state_of digits segmentIndex].
  assert ((strlen t =? 0) = string_empty t) as -> by (by destruct t).
  assert (string_empty t = false) as -> by (by destruct t).
  rewrite (proj2 (Z.leb_gt 2 (len fs))) by lia. cbn [orb]. f_equal.
  unfold state_of. cbn. rewrite (map_app _ (fs ++ [t])), length_app. f_equal; [|cbn; lia].
  destruct fs as [|a [|b fs]]; cbn in Hl |- *; done || lia.
Qed.

Lemma good_number n : 0 <= n <= 9999 → good_segment (to_string n).
Proof.
  intros Hn. split; [apply to_string_canonical; lia|].
  apply (to_string_length n 4); [|lia]. change (10 ^ Z.of_nat 4) with 10000. lia.
Qed.

(** The three segments in full, and nothing else, lead to their numbers. *)
Lemma version_loop_numbers a b c st body :
  0 <= a <= 9999 → 0 <= b <= 9999 → 0 <= c <= 9999 →
  body = to_string a +:+ "." +:+ to_string b +:+ "." +:+ to_string c →
  version_loop (MkVersionState (0, 0, 0) 0 0 false) body = Success st →
  segments st = (a, b, c) ∧ segmentIndex st = 2 ∧ digits st ≠ 0.
Proof.
  intros Ha Hb Hc ->. change (MkVersionState (0, 0, 0) 0 0 false) with (state_of [] "").
  pose proof (good_number a Ha) as Ga. pose proof (good_number b Hb) as Gb.
  pose proof (good_number c Hc) as Gc.
  rewrite version_loop_digits; [|cbn; lia|by left|by right].
  rewrite version_loop_dot; [|done|cbn; lia].
  rewrite version_loop_digits; [|cbn; lia|by left|by right].
  rewrite version_loop_dot; [|done|cbn; lia].
  rewrite <- (string_app_nil_r (to_string c)).
  rewrite version_loop_digits; [|cbn; lia|by left|by right].
  cbn [version_loop]. intros [= <-]. cbn [segments segmentIndex digits state_of].
  split_and!; [|done|].
  - destruct (to_string_spec a) as [_ Va]; [lia|]. destruct (to_string_spec b) as [_ Vb]; [lia|].
    destruct (to_string_spec c) as [_ Vc]; [lia|]. unfold triple. cbn. by rewrite Va, Vb, Vc.
  - cbn. pose proof (to_string_not_empty c ltac:(lia)). destruct (to_string c); [done|]. cbn. lia.
Qed.

Lemma version_loop_runs a b c :
  0 <= a <= 9999 → 0 <= b <= 9999 → 0 <= c <= 9999 →
  ∃ st, version_loop (MkVersionState (0, 0, 0) 0 0 false)
          (to_string a +:+ "." +:+ to_string b +:+ "." +:+ to_string c) = Success st.
Proof.
  intros Ha Hb Hc. change (MkVersionState (0, 0, 0) 0 0 false) with (state_of [] "").
  pose proof (good_number a Ha) as Ga. pose proof (good_number b Hb) as Gb.
  pose proof (good_number c Hc) as Gc.
  rewrite version_loop_digits; [|cbn; lia|by left|by right].
  rewrite version_loop_dot; [|done|cbn; lia].
  rewrite version_loop_digits; [|cbn; lia|by left|by right].
  rewrite version_loop_dot; [|done|cbn; lia].
  rewrite <- (string_app_nil_r (to_string c)).
  rewrite version_loop_digits; [|cbn; lia|by left|by right]. by eexists.
Qed.

Definition valid_version (v : ConfigVersion) : Prop :=
  0 <= ver_major v <= 9999 ∧ 0 <= ver_minor v <= 9999 ∧ 0 <= ver_patch v <= 9999 ∧
  (prerelease v ≠ "" → prerelease_error (prerelease v) = None).

Lemma numbers_lack_dash a b c :
  0 <= a → 0 <= b → 0 <= c →
  lacks "-" (to_string a +:+ "." +:+ to_string b +:+ "." +:+ to_string c) = true.
Proof.
  intros. unfold lacks. rewrite !all_chars_app.
  assert (∀ n, 0 <= n → all_chars (λ x, negb (Ascii.eqb "-" x)) (to_string n) = true) as Hn.
  { intros n Hn. eapply all_chars_impl; [|by apply to_string_digits].
    by intros [[] [] [] [] [] [] [] []]. }
  by rewrite !Hn.
Qed.

Lemma prerelease_short p : prerelease_error p = None → 1 <= strlen p <= 32.
Proof.
  unfold prerelease_error. destruct (string_empty p) eqn:He; [done|]. cbn [orb].
  destruct (Z.ltb_spec 32 (strlen p)); [done|]. intros _. destruct p; [done|].
  cbn [String.length] in *. lia.
Qed.

(** What the body of a version must be. *)
Lemma version_body body st :
  version_loop (MkVersionState (0, 0, 0) 0 0 false) body = Success st →
  digits st ≠ 0 → segmentIndex st = 2 →
  ∃ a b c, 0 <= a <= 9999 ∧ 0 <= b <= 9999 ∧ 0 <= c <= 9999 ∧ segments st = (a, b, c) ∧
           body = to_string a +:+ "." +:+ to_string b +:+ "." +:+ to_string c.
Proof.
  change (MkVersionState (0, 0, 0) 0 0 false) with (state_of [] "").
  intros Hv Hd Hi. apply version_loop_sound in Hv as (fs & t & -> & Ht & Hfs & _ & Htext);
    [|by left|constructor|cbn; lia].
  cbn in Hd, Hi. destruct fs as [|s1 [|s2 [|s3 fs]]]; try (cbn in Hi; lia).
  apply Forall_cons in Hfs as [[C1 L1] Hfs]. apply Forall_cons in Hfs as [[C2 L2] _].
  destruct Ht as [->|[C3 L3]]; [done|].
  assert (∀ s, canonical s = true → strlen s <= 4 → 0 <= dec_acc 0 s <= 9999) as Hr.
  { intros s Hc Hl. pose proof (dec_acc_small s) as H. destruct (open_digits s) as [Hs _].
    { right. by split. } specialize (H Hs Hl). lia. }
  exists (dec_acc 0 s1), (dec_acc 0 s2), (dec_acc 0 t). split_and!; try (by apply Hr).
  - done.
  - cbn in Htext. rewrite !to_string_dec by done. exact Htext.
Qed.

Definition numbers_text (a b c : Z) : string :=
  to_string a +:+ "." +:+ to_string b +:+ "." +:+ to_string c.

Lemma FormatConfigVersion_eq v :
  FormatConfigVersion v =
  numbers_text (ver_major v) (ver_minor v) (ver_patch v) +:+
  (if string_empty (prerelease v) then "" else String "-" (prerelease v)).
Proof. unfold FormatConfigVersion, numbers_text. by rewrite !string_app_assoc. Qed.

Lemma ParseConfigVersion_sound text v :
  ParseConfigVersion text = Success v → text = FormatConfigVersion v ∧ valid_version v.
Proof.
  unfold ParseConfigVersion, valid_version. rewrite FormatConfigVersion_eq.
  destruct (string_empty text || (48 <? strlen text)); [done|].
  destruct (match cut "-" text with Some _ => _ | None => _ end) as [body pre] eqn:Hcut.
  destruct (version_loop _ body) as [st|e] eqn:Hv; [|done].
  destruct (Z.eqb_spec (digits st) 0) as [|Hd]; [done|]. cbn [orb].
  destruct (Z.eqb_spec (segmentIndex st) 2) as [Hi|]; [|done]. cbn [negb].
  destruct (from_option prerelease_error None pre) eqn:Hpre; [done|].
  destruct (version_body body st Hv Hd Hi) as (a & b & c & Ha & Hb & Hc & -> & ->).
  intros [= <-]. cbn [ver_major ver_minor ver_patch prerelease].
  destruct (cut "-" text) as [[body' pre']|] eqn:E; injection Hcut as -> <-.
  - cbn in Hpre |- *. pose proof (prerelease_short pre' Hpre).
    apply cut_spec in E as ->. destruct pre' as [|x p]; [cbn in *; lia|]. done.
  - cbn. by rewrite string_app_nil_r.
Qed.

Lemma FormatConfigVersion_length v :
  valid_version v → strlen (FormatConfigVersion v) <= 48.
Proof.
  intros (Ha & Hb & Hc & Hp). rewrite FormatConfigVersion_eq. unfold numbers_text.
  destruct (good_number _ Ha) as [_ La]. destruct (good_number _ Hb) as [_ Lb].
  destruct (good_number _ Hc) as [_ Lc]. rewrite !strlen_app.
  destruct (string_empty (prerelease v)) eqn:He; cbn [String.length]; [lia|].
  assert (prerelease v ≠ "") as Hne by (intros E; by rewrite E in He).
  pose proof (prerelease_short _ (Hp Hne)). lia.
Qed.

Lemma ParseConfigVersion_complete v :
  valid_version v → ParseConfigVersion (FormatConfigVersion v) = Success v.
Proof.
  intros Hv. pose proof (FormatConfigVersion_length v Hv) as Hlen.
  unfold ParseConfigVersion. rewrite (proj2 (Z.ltb_ge 48 _) Hlen), orb_false_r.
  rewrite FormatConfigVersion_eq. destruct v as [a b c pre].
  destruct Hv as (Ha & Hb & Hc & Hpre). cbn [ver_major ver_minor ver_patch prerelease] in *.
  destruct (version_loop_runs a b c Ha Hb Hc) as [st Hst]. fold (numbers_text a b c) in Hst.
  destruct (version_loop_numbers a b c st _ Ha Hb Hc eq_refl Hst) as (H1 & H2 & H3).
  pose proof (numbers_lack_dash a b c ltac:(lia) ltac:(lia) ltac:(lia)) as Hdash.
  fold (numbers_text a b c) in Hdash.
  assert (to_string a ≠ "") as Hne by (apply to_string_not_empty; lia).
  rewrite (string_empty_app_l (numbers_text a b c))
    by (apply string_empty_app_l, string_empty_false, Hne).
  destruct (string_empty pre) eqn:He.
  - apply string_empty_iff in He as ->.
    rewrite string_app_nil_r, (proj2 (cut_char_None "-" _) Hdash), Hst, H1, H2.
    by rewrite (proj2 (Z.eqb_neq _ _) H3).
  - assert (pre ≠ "") as Hp by (by intros ->).
    rewrite cut_char, Hst, H1, H2, (proj2 (Z.eqb_neq _ _) H3) by exact Hdash. cbn.
    by rewrite (Hpre Hp).
Qed.

(** A version is read from a text exactly when the text is what that version
    is printed as and the version is one that can be written: three numbers of
    at most four digits and, if any, a pre-release name of the documented form.
    So no two texts give the same version. *)
Lemma ParseConfigVersion_iff (text : string) (v : ConfigVersion) :
  ParseConfigVersion text = Success v ↔ text = FormatConfigVersion v ∧ valid_version v.
Proof.
  split; [apply ParseConfigVersion_sound|]. intros [-> Hv]. by apply ParseConfigVersion_complete.
Qed.

(** ** Loading: theorems *)

(** What every snapshot that is handed out satisfies. *)
Record snapshot_ok (s : ConfigSnapshot) : Prop := MkSnapshotOk {
  so_version : ver_major (version s) = kSupportedConfigMajor ∧ valid_version (version s);
  so_margins : 0 <= tightMarginPercent (policy s) ∧
    tightMarginPercent (policy s) < adequateMarginPercent (policy s) ∧
    adequateMarginPercent (policy s) < comfortableMarginPercent (policy s) ∧
    comfortableMarginPercent (policy s) <= 100;
  so_cooldown : 0 <= pol_cooldownMs (policy s) < 2 ^ 31;
  so_away : 0 <= userAwayIdleSeconds (policy s) <= 86400;
  so_halt : 0 <= haltAfterActionFailures (policy s) <= 10000;
  so_safe_mode : 1 <= sm_failuresToEnter (safeMode (ipc s)) <= 100 ∧
    1 <= sm_countingWindowMs (safeMode (ipc s)) <= 600000 ∧
    1 <= sm_cooldownMs (safeMode (ipc s)) <= 600000;
  so_logging : is_u32 (maxFileMb (logging s)) ∧ is_u32 (maxFiles (logging s));
  so_games : Forall (λ g, cfg_id g ≠ "") (games s);
  so_agent : agent_form (agent s) ∈ ["startup_tray"; "task"; "service"]
}.

Lemma bind_result_Success {A B} (r : Result A) (k : A → Result B) b :
  bind_result r k = Success b → ∃ a, r = Success a ∧ k a = Success b.
Proof. destruct r as [a|e]; cbn; [intros Hk; by exists a|done]. Qed.

Section LoadingTheorems.
Context {Node : Type} `{Toml Node} `{!TomlLaws Node}.
Implicit Types t : list (string * Node).

Lemma load_version_ok t v :
  load_version t = Success v → ver_major v = kSupportedConfigMajor ∧ valid_version v.
Proof.
  unfold load_version. destruct (get "version" t) as [n|].
  - destruct (if is_integer n then _ else _) as [text|]; [|done].
    destruct (ParseConfigVersion text) as [v'|e] eqn:Hp; [|done].
    destruct (Z.eqb_spec (ver_major v') kSupportedConfigMajor); [|done]. cbn. intros [= <-].
    split; [done|]. by apply ParseConfigVersion_sound in Hp as [_ ?].
  - intros [= <-]. split; [done|]. unfold valid_version. cbn. split_and!; lia || done.
Qed.

Lemma set_int32_range o old :
  - 2 ^ 31 <= old < 2 ^ 31 → - 2 ^ 31 <= set_int32 o old < 2 ^ 31.
Proof.
  intros Hold. unfold set_int32, in_int32. destruct o as [z|]; [|done].
  destruct (_ && _) eqn:E; b2p; lia.
Qed.

Lemma load_policy_ok t p p' :
  load_policy t p = Success p' → - 2 ^ 31 <= pol_cooldownMs p < 2 ^ 31 →
  policy_rejected p' = false ∧ pol_cooldownMs p' < 2 ^ 31.
Proof.
  unfold load_policy. intros Hl Hr. destruct (policy_rejected _) eqn:E; [done|].
  injection Hl as <-. split; [done|]. unfold load_policy_values.
  destruct (section "policy" t); [|lia]. cbn.
  pose proof (set_int32_range (get_int "cooldown_ms" t0) _ Hr). lia.
Qed.

Lemma load_games_ok t : Forall (λ g, cfg_id g ≠ "") (load_games t).
Proof.
  unfold load_games. destruct (_ ≫= as_array) as [l|]; [|constructor].
  apply list.Forall_forall. intros g Hg. apply list_elem_of_In, filter_In in Hg as [_ Hg].
  intros E. by rewrite E in Hg.
Qed.

Lemma load_agent_ok t a a' :
  load_agent t a = Success a' → agent_form a ∈ ["startup_tray"; "task"; "service"] →
  agent_form a' ∈ ["startup_tray"; "task"; "service"].
Proof.
  unfold load_agent. intros Hl Ha. destruct (section "agent" t); [|by injection Hl as <-].
  destruct (get_string "form" _); [|by injection Hl as <-].
  destruct (_ && _) eqn:E; [done|]. injection Hl as <-. cbn.
  rewrite !elem_of_cons. apply andb_false_iff in E as [E|E]; b2p; [|auto].
  apply andb_false_iff in E as [E|E]; b2p; auto.
Qed.

Lemma set_positive_u32 o old : is_u32 old → is_u32 (set_positive o old).
Proof. destruct o as [z|]; cbn; [|done]. destruct (0 <? z); [|done]. intros _. apply u32_range. Qed.

Lemma load_table_inv t s :
  load_table t = Success s →
  load_version t = Success (version s) ∧
  load_application t (application default_snapshot) = Success (application s) ∧
  load_memory t default_memory = Success (memory s) ∧
  load_policy t default_policy = Success (policy s) ∧
  load_ipc t (ipc default_snapshot) = Success (ipc s) ∧
  load_agent t (agent default_snapshot) = Success (agent s) ∧
  logging s = load_logging t (logging default_snapshot) ∧
  layers s = load_layers t (layers default_snapshot) ∧
  power s = load_power t default_power ∧
  games s = load_games t ∧ unknownKeys s = collect_unknown t.
Proof.
  unfold load_table.
  intros (v & Hv & (app & Happ & (mem & Hmem & (pol & Hpol & (i & Hi & (a & Ha & Hs)
    %bind_result_Success)%bind_result_Success)%bind_result_Success)%bind_result_Success)
    %bind_result_Success)%bind_result_Success.
  injection Hs as <-. cbn. split_and!; done.
Qed.

Lemma load_table_ok t s : load_table t = Success s → snapshot_ok s.
Proof.
  intros (Hv & _ & _ & Hpol & Hi & Ha & Hlog & _ & _ & Hg & _)%load_table_inv.
  apply load_policy_ok in Hpol as [Hrej Hcool]; [|cbn; lia].
  unfold policy_rejected, policy_in_order in Hrej. b2p.
  unfold load_ipc in Hi. destruct (safe_mode_in_range _) eqn:Hm; [|done].
  injection Hi as Hi. unfold safe_mode_in_range in Hm.
  change (load_safe_mode_values t _)
    with (safeMode (MkIpcConfig (load_safe_mode_values t default_safe_mode))) in Hm.
  rewrite Hi in Hm. b2p. split; try lia.
  - by apply load_version_ok in Hv.
  - rewrite Hlog. unfold load_logging. destruct (section "logging" t); cbn; [|done].
    split; by apply set_positive_u32.
  - rewrite Hg. apply load_games_ok.
  - eapply load_agent_ok; [exact Ha|]. cbn. apply elem_of_cons. by left.
Qed.

Lemma load_valid {W} `{TomlFiles W Node} path (w : W) s :
  LoadConfig path w = Success s → snapshot_ok s.
Proof.
  unfold LoadConfig. destruct (parse_file path w); [apply load_table_ok|done].
Qed.

(** C18. A configuration that is handed out is one the program can run with: a
    supported version, ordered margins up to 100, durations and counts within
    their documented ranges, games with ids, and a known form of the agent. *)
Theorem LoadConfig_valid {W} `{TomlFiles W Node} (path : string) (w : W) (s : ConfigSnapshot) :
  LoadConfig path w = Success s → snapshot_ok s.
Proof. apply load_valid. Qed.

Definition asks_for (sect key : string) t : Prop :=
  ∃ sec, section sect t = Some sec ∧ get_bool key sec = Some true.

(** The value of a switch that is off unless the document sets it. *)
Definition switch (sect key : string) t : bool :=
  from_option (λ sec, default false (get_bool key sec)) false (section sect t).

Lemma switch_asks sect key t : switch sect key t = true → asks_for sect key t.
Proof.
  unfold switch, asks_for. destruct (section sect t) as [sec|]; [|done]. cbn.
  intros Hd. exists sec. split; [done|]. by destruct (get_bool key sec) as [[]|].
Qed.

Lemma load_memory_switches t m :
  load_memory t default_memory = Success m →
  scheduledCleanEnabled m = switch "memory" "scheduled_clean_enabled" t ∧
  allowNativeWrite m = switch "memory" "allow_native_write" t.
Proof.
  unfold load_memory, switch. destruct (section "memory" t) as [sec|]; [|by intros [= <-]].
  destruct (get_string "max_clean_level" sec) as [name|]; [|by intros [= <-]].
  destruct (ParseCleanLevel name); [|done]. by intros [= <-].
Qed.

Lemma load_power_switch t :
  switchPowerScheme (load_power t default_power) = switch "power" "switch_power_scheme" t.
Proof. unfold load_power, switch. by destruct (section "power" t). Qed.

Lemma load_layers_switches t :
  maintenance (load_layers t (layers default_snapshot)) = switch "layers" "maintenance" t ∧
  emergency (load_layers t (layers default_snapshot)) = switch "layers" "emergency" t.
Proof. unfold load_layers, switch. by destruct (section "layers" t). Qed.

Lemma load_application_mode t a :
  load_application t (application default_snapshot) = Success a →
  app_mode a ≠ RunMode.Observe →
  ∃ sec name, section "application" t = Some sec ∧ get_string "mode" sec = Some name ∧
              ParseRunMode name = Success (app_mode a).
Proof.
  unfold load_application. destruct (section "application" t) as [sec|]; [|by intros [= <-]].
  destruct (get_string "mode" sec) as [name|] eqn:En; [|by intros [= <-]].
  destruct (ParseRunMode name) as [m|] eqn:Em; [|done]. intros [= <-] _. by exists sec, name.
Qed.

(** No dangerous switch is on unless the document turns it on in so many
    words: cleaning on a schedule, native writes, switching the power scheme,
    and the layers that allow more than watching; and no mode but the observing
    one unless the document names it. *)
Lemma LoadConfig_explicit {W} `{TomlFiles W Node} (path : string) (w : W) t
    (s : ConfigSnapshot) :
  parse_file path w = inl t →
  LoadConfig path w = Success s →
  (scheduledCleanEnabled (memory s) = true → asks_for "memory" "scheduled_clean_enabled" t) ∧
  (allowNativeWrite (memory s) = true → asks_for "memory" "allow_native_write" t) ∧
  (switchPowerScheme (power s) = true → asks_for "power" "switch_power_scheme" t) ∧
  (maintenance (layers s) = true → asks_for "layers" "maintenance" t) ∧
  (emergency (layers s) = true → asks_for "layers" "emergency" t) ∧
  (app_mode (application s) ≠ RunMode.Observe → ∃ sec name,
     section "application" t = Some sec ∧ get_string "mode" sec = Some name ∧
     ParseRunMode name = Success (app_mode (application s))).
Proof.
  intros Hp. unfold LoadConfig. rewrite Hp.
  intros (_ & Happ & Hmem & _ & _ & _ & _ & -> & -> & _ & _)%load_table_inv.
  apply load_memory_switches in Hmem as [-> ->]. rewrite load_power_switch.
  destruct (load_layers_switches t) as [-> ->].
  split_and!; [apply switch_asks..|by apply load_application_mode].
Qed.

(** *** Keys the program does not know *)

Lemma CollectUnknownKeys_iff t known prefix k :
  k ∈ CollectUnknownKeys t known prefix ↔
  ∃ name, name ∈ map fst t ∧ name ∉ known ∧
          k = (if string_empty prefix then name else prefix +:+ "." +:+ name).
Proof.
  unfold CollectUnknownKeys. rewrite list_elem_of_In, in_map_iff.
  assert (∀ name, negb (existsb (String.eqb name) known) = true ↔ name ∉ known) as Hk.
  { intros name. by rewrite negb_true_iff, <- not_true_iff_false, existsb_eqb_iff. }
  setoid_rewrite filter_In. setoid_rewrite Hk. setoid_rewrite <- list_elem_of_In.
  split; intros (name & H1 & H2); exists name; naive_solver.
Qed.

(** [name] is a key of the games array that no game has. *)
Definition unknown_in_games t (k : string) : Prop :=
  ∃ l i node g name, get "games" t ≫= as_array = Some l ∧ l !! i = Some node ∧
    as_table node = Some g ∧ name ∈ map fst g ∧ name ∉ game_keys ∧
    k = "games[" +:+ to_string (Z.of_nat i) +:+ "]" +:+ "." +:+ name.

Lemma collect_games_iff l k :
  k ∈ concat (imap collect_game l) ↔
  ∃ i node, l !! i = Some node ∧ k ∈ collect_game i node.
Proof.
  rewrite list_elem_of_In, in_concat. split.
  - intros (x & Hx & Hk). apply list_elem_of_In, elem_of_lookup_imap in Hx as (i & node & -> & Hl).
    exists i, node. by rewrite list_elem_of_In.
  - intros (i & node & Hl & Hk). exists (collect_game i node).
    rewrite <- !list_elem_of_In. split; [|done]. apply elem_of_lookup_imap. by exists i, node.
Qed.

(** Every key the program does not know is reported, under the dotted name
    of where it stands, and no other: at the top, in any section, and in any
    element of the array of games. *)
Lemma unknown_keys_reported {W} `{TomlFiles W Node} (path : string) (w : W) t
    (s : ConfigSnapshot) (k : string) :
  parse_file path w = inl t →
  LoadConfig path w = Success s →
  k ∈ unknownKeys s ↔
  (k ∈ map fst t ∧ k ∉ top_keys) ∨
  (∃ sect keys sub name, (sect, keys) ∈ section_keys ∧ section sect t = Some sub ∧
     name ∈ map fst sub ∧ name ∉ keys ∧ k = sect +:+ "." +:+ name) ∨
  unknown_in_games t k.
Proof.
  intros Hp. unfold LoadConfig. rewrite Hp.
  intros (_ & _ & _ & _ & _ & _ & _ & _ & _ & _ & ->)%load_table_inv.
  unfold collect_unknown. rewrite !elem_of_app. f_equiv; [|f_equiv].
  - rewrite CollectUnknownKeys_iff. cbn [string_empty]. naive_solver.
  - rewrite list_elem_of_In, in_flat_map. split.
    + intros ([sect keys] & Hin & Hk). unfold collectSection in Hk. cbn in Hk.
      destruct (section sect t) as [sub|] eqn:Hsec; [|done].
      apply list_elem_of_In, CollectUnknownKeys_iff in Hk as (name & H1 & H2 & ->).
      exists sect, keys, sub, name. rewrite list_elem_of_In. split_and!; [done..|].
      assert (string_empty sect = false) as -> by (cbn in Hin; naive_solver). done.
    + intros (sect & keys & sub & name & Hin & Hsec & H1 & H2 & ->).
      exists (sect, keys). rewrite <- !list_elem_of_In. split; [done|].
      unfold collectSection. cbn. rewrite Hsec. apply CollectUnknownKeys_iff.
      exists name. split_and!; [done..|].
      assert (string_empty sect = false) as ->; [|done].
      apply list_elem_of_In in Hin. cbn in Hin. naive_solver.
  - unfold unknown_in_games. destruct (get "games" t ≫= as_array) as [l|].
    + rewrite collect_games_iff. unfold collect_game. split.
      * intros (i & node & Hl & Hk). destruct (as_table node) as [g|] eqn:Hg; [|set_solver].
        apply CollectUnknownKeys_iff in Hk as (name & H1 & H2 & ->).
        exists l, i, node, g, name. split_and!; try done. by rewrite !string_app_assoc.
      * intros (l' & i & node & g & name & [= <-] & Hl & Hg & H1 & H2 & ->).
        exists i, node. split; [done|]. rewrite Hg. apply CollectUnknownKeys_iff.
        exists name. split_and!; [done..|]. by rewrite !string_app_assoc.
    + set_solver.
Qed.

(** Two documents that agree on all the program knows. *)
Definition same_keys (keys : list string) t1 t2 : Prop := ∀ k, k ∈ keys → get k t1 = get k t2.

Record same_view t1 t2 : Prop := MkSameView {
  sv_version : get "version" t1 = get "version" t2;
  sv_section : ∀ sect keys, (sect, keys) ∈ section_keys →
    option_Forall2 (same_keys keys) (section sect t1) (section sect t2);
  sv_games : get "games" t1 = get "games" t2
}.

Definition without_unknown (r : Result ConfigSnapshot) : Result ConfigSnapshot :=
  match r with
  | Failure e => Failure e
  | Success s => Success (MkSnapshot (version s) [] (application s) (logging s) (layers s)
      (power s) (priority s) (memory s) (gpuHeartbeat s) (scheduler s) (diskCache s) (policy s)
      (ipc s) (games s) (agent s))
  end.

(** Replaces what a section of one document says by what the other's does. *)
Ltac by_section Hsv sect :=
  let Hs := fresh in
  pose proof (sv_section _ _ Hsv sect _ ltac:(unfold section_keys; rewrite !elem_of_cons; eauto 20))
    as Hs;
  destruct Hs as [? ? Hs|]; [|done];
  unfold get_string, get_bool, get_int, get_double;
  rewrite ?Hs by (rewrite !elem_of_cons; eauto 20); try done.

Lemma same_view_load t1 t2 :
  same_view t1 t2 →
  load_version t1 = load_version t2 ∧
  (∀ d, load_application t1 d = load_application t2 d) ∧
  (∀ d, load_logging t1 d = load_logging t2 d) ∧
  (∀ d, load_memory t1 d = load_memory t2 d) ∧
  (∀ d, load_layers t1 d = load_layers t2 d) ∧
  (∀ d, load_power t1 d = load_power t2 d) ∧
  (∀ d, load_priority t1 d = load_priority t2 d) ∧
  (∀ d, load_gpu_heartbeat t1 d = load_gpu_heartbeat t2 d) ∧
  (∀ d, load_toggle "scheduler" t1 d = load_toggle "scheduler" t2 d) ∧
  (∀ d, load_toggle "disk_cache" t1 d = load_toggle "disk_cache" t2 d) ∧
  (∀ d, load_policy t1 d = load_policy t2 d) ∧
  (∀ d, load_ipc t1 d = load_ipc t2 d) ∧
  load_games t1 = load_games t2 ∧
  (∀ d, load_agent t1 d = load_agent t2 d).
Proof.
  intros Hsv. split_and!; try intros d.
  - unfold load_version. by rewrite (sv_version _ _ Hsv).
  - unfold load_application. by_section Hsv "application".
  - unfold load_logging. by_section Hsv "logging".
  - unfold load_memory. by_section Hsv "memory".
  - unfold load_layers. by_section Hsv "layers".
  - unfold load_power. by_section Hsv "power".
  - unfold load_priority. by_section Hsv "priority".
  - unfold load_gpu_heartbeat. by_section Hsv "gpu_heartbeat".
  - unfold load_toggle. by_section Hsv "scheduler".
  - unfold load_toggle. by_section Hsv "disk_cache".
  - unfold load_policy, load_policy_values. by_section Hsv "policy".
  - unfold load_ipc, load_safe_mode_values. by_section Hsv "ipc".
  - unfold load_games. by rewrite (sv_games _ _ Hsv).
  - unfold load_agent. by_section Hsv "agent".
Qed.

(** Keys the program does not know change nothing but the report of unknown
    keys: documents that agree on the known ones load alike, errors included. *)
Lemma unknown_keys_harmless {W} `{TomlFiles W Node} (p1 p2 : string) (w1 w2 : W) t1 t2 :
  parse_file p1 w1 = inl t1 → parse_file p2 w2 = inl t2 →
  same_view t1 t2 →
  without_unknown (LoadConfig p1 w1) = without_unknown (LoadConfig p2 w2).
Proof.
  intros H1 H2 Hsv. unfold LoadConfig. rewrite H1, H2. unfold load_table.
  destruct (same_view_load t1 t2 Hsv)
    as (-> & -> & -> & -> & -> & -> & -> & -> & -> & -> & -> & -> & -> & ->).
  destruct (load_version t2); [cbn|done].
  destruct (load_application t2 _); [cbn|done]. destruct (load_memory t2 _); [cbn|done].
  destruct (load_policy t2 _); [cbn|done]. destruct (load_ipc t2 _); [cbn|done].
  by destruct (load_agent t2 _).
Qed.

(** A policy value outside the 32-bit integers is not refused: it is passed
    over and the default stands, as if the key were missing. *)
Lemma policy_overflow_ignored {W} `{TomlFiles W Node} (path : string) (w : W) t sec (z : Z)
    (s : ConfigSnapshot) :
  parse_file path w = inl t →
  section "policy" t = Some sec →
  get_int "cooldown_ms" sec = Some z → ¬ (- 2 ^ 31 <= z < 2 ^ 31) →
  LoadConfig path w = Success s →
  pol_cooldownMs (policy s) = pol_cooldownMs default_policy.
Proof.
  intros Hp Hsec Hz Hrange. unfold LoadConfig. rewrite Hp.
  intros (_ & _ & _ & Hpol & _)%load_table_inv. unfold load_policy in Hpol.
  destruct (policy_rejected _); [done|]. injection Hpol as <-.
  unfold load_policy_values. rewrite Hsec, Hz. cbn. unfold in_int32.
  destruct (_ && _) eqn:E; [b2p; lia|done].
Qed.

(** A size limit of the log of 4096 TiB, a positive number of megabytes, is
    taken for a limit of 0. *)
Lemma max_file_mb_wraps {W} `{TomlFiles W Node} (path : string) (w : W) t sec
    (s : ConfigSnapshot) :
  parse_file path w = inl t →
  section "logging" t = Some sec →
  get_int "max_file_mb" sec = Some (2 ^ 32) →
  LoadConfig path w = Success s →
  maxFileMb (logging s) = 0.
Proof.
  intros Hp Hsec Hz. unfold LoadConfig. rewrite Hp.
  intros (_ & _ & _ & _ & _ & _ & -> & _)%load_table_inv.
  unfold load_logging. by rewrite Hsec, Hz.
Qed.
End LoadingTheorems.

(** Whatever allows the actions on the whole system also allows the local
    ones, and no mode and layers allow anything to a host that observes. *)
Lemma capability_order (mode : RunMode) (l : LayerConfig) :
  (AllowsSystemLevelActions mode l = true → AllowsLocalReversibleActions mode l = true) ∧
  (mode = RunMode.Observe →
   AllowsLocalReversibleActions mode l = false ∧ AllowsSystemLevelActions mode l = false) ∧
  (maintenance l = false → emergency l = false →
   AllowsLocalReversibleActions mode l = false ∧ AllowsSystemLevelActions mode l = false).
Proof.
  unfold AllowsSystemLevelActions, AllowsLocalReversibleActions.
  destruct l as [m1 m2 m3], mode; cbn; destruct m2, m3; naive_solver.
Qed.

(** ** Examples *)

(** Trees without conversions between types. *)
Inductive tree :=
  | TString (s : string)
  | TBool (b : bool)
  | TInt (z : Z)
  | TDouble (bits : Z)
  | TArray (l : list tree)
  | TTable (t : list (string * tree)).

#[export] Instance tree_toml : Toml tree := {|
  as_table n := match n with TTable t => Some t | _ => None end;
  as_array n := match n with TArray l => Some l | _ => None end;
  is_integer n := match n with TInt _ => true | _ => false end;
  is_string n := match n with TString _ => true | _ => false end;
  value_string n := match n with TString s => Some s | _ => None end;
  value_bool n := match n with TBool b => Some b | _ => None end;
  value_int n := match n with
                 | TInt z => if (- 2 ^ 63 <=? z) && (z <? 2 ^ 63) then Some z else Some 0
                 | _ => None
                 end;
  value_double n := match n with TDouble d => Some d | _ => None end
|}.

#[export] Instance tree_laws : TomlLaws tree.
Proof.
  split.
  - intros [| |n| | |] z; cbn; try done. destruct (_ && _) eqn:E; intros [= <-]; b2p; lia.
  - intros [| |z| | |]; cbn; intros E; try done; destruct (_ && _); by eexists.
  - intros [s| | | | |]; cbn; intros E; try done; by eexists.
Qed.

(** The world is one document. *)
#[local] Instance one_document : TomlFiles (list (string * tree)) tree := λ _ t, inl t.

Definition sample_document : list (string * tree) :=
  [("version", TString "1.2.0-beta.1");
   ("layers", TTable [("maintenance", TBool true); ("emergensy", TBool true)]);
   ("logging", TTable [("max_file_mb", TInt (2 ^ 32))]);
   ("policy", TTable [("cooldown_ms", TInt 3000000000); ("tight_margin_percent", TInt 7)]);
   ("games", TArray [TTable [("id", TString "g"); ("nmae", TString "x")]; TInt 3])].

Definition plain_document : list (string * tree) :=
  [("version", TString "1.2.0-beta.1");
   ("layers", TTable [("maintenance", TBool true)]);
   ("logging", TTable [("max_file_mb", TInt (2 ^ 32))]);
   ("policy", TTable [("tight_margin_percent", TInt 7); ("cooldown_ms", TInt 3000000000)]);
   ("games", TArray [TTable [("id", TString "g"); ("nmae", TString "x")]; TInt 3])].

Definition sample_snapshot : ConfigSnapshot :=
  match LoadConfig "" sample_document with Success s => s | Failure _ => default_snapshot end.

Lemma sample_loads : LoadConfig "" sample_document = Success sample_snapshot.
Proof. vm_compute. reflexivity. Qed.

Example LoadConfig_valid_witness : snapshot_ok sample_snapshot.
Proof. exact (LoadConfig_valid "" sample_document sample_snapshot sample_loads). Defined.

Example LoadConfig_explicit_witness :
  maintenance (layers sample_snapshot) = true ∧
  asks_for "layers" "maintenance" sample_document.
Proof.
  split; [vm_compute; reflexivity|].
  apply (LoadConfig_explicit "" sample_document sample_document sample_snapshot eq_refl
           sample_loads).
  vm_compute. reflexivity.
Defined.

Example unknown_keys_reported_witness :
  unknownKeys sample_snapshot = ["layers.emergensy"; "games[0].nmae"] ∧
  unknown_in_games sample_document "games[0].nmae".
Proof.
  split; [vm_compute; reflexivity|].
  assert ("games[0].nmae" ∈ unknownKeys sample_snapshot) as Hin.
  { vm_compute unknownKeys. apply elem_of_cons. right. apply elem_of_cons. by left. }
  apply (unknown_keys_reported "" sample_document sample_document sample_snapshot _ eq_refl
           sample_loads) in Hin as [[H _]|[(sect & keys & sub & name & H1 & _ & _ & _ & H2)|H]].
  - exfalso. revert H. apply (bool_decide_eq_false_1 _). vm_compute. reflexivity.
  - exfalso. unfold section_keys in H1. rewrite !elem_of_cons, elem_of_nil in H1. naive_solver.
  - exact H.
Defined.

Lemma sample_same_view : same_view sample_document plain_document.
Proof.
  split; [reflexivity| |reflexivity].
  intros sect keys Hin. unfold section_keys in Hin. rewrite !elem_of_cons, elem_of_nil in Hin.
  destruct_or! Hin; try done; injection Hin as -> ->;
    match goal with |- option_Forall2 _ ?a ?b =>
      let a' := eval vm_compute in a in let b' := eval vm_compute in b in
      change a with a'; change b with b'
    end; constructor;
    intros k Hk; rewrite !elem_of_cons, elem_of_nil in Hk; by destruct_or! Hk; subst.
Qed.

Example unknown_keys_harmless_witness :
  without_unknown (LoadConfig "" sample_document) = without_unknown (LoadConfig "" plain_document).
Proof.
  exact (unknown_keys_harmless "" "" sample_document plain_document sample_document plain_document
           eq_refl eq_refl sample_same_view).
Defined.

Example policy_overflow_ignored_witness : pol_cooldownMs (policy sample_snapshot) = 5000.
Proof.
  refine (policy_overflow_ignored "" sample_document sample_document
    [("cooldown_ms", TInt 3000000000); ("tight_margin_percent", TInt 7)] 3000000000
    sample_snapshot eq_refl eq_refl _ _ sample_loads).
  - vm_compute. reflexivity.
  - lia.
Defined.

Example max_file_mb_wraps_witness : maxFileMb (logging sample_snapshot) = 0.
Proof.
  refine (max_file_mb_wraps "" sample_document sample_document [("max_file_mb", TInt (2 ^ 32))]
    sample_snapshot eq_refl eq_refl _ sample_loads).
  vm_compute. reflexivity.
Defined.
