(* ===== verification/ConfigRules.v ===== *)
(** The user's own game rules ([config/config_manager]): how a rule is written
    as TOML text and appended to the local file, and how the local rules are
    merged over those of the main file. *)

From S2P Require Import Prelude CommonError Containers ConfigTypes Config.

Open Scope string_scope.
Open Scope list_scope.
Open Scope Z_scope.

(** ** Text *)

Definition DQ : ascii := "034"%char.
Definition BS : ascii := "\"%char.

(** ["\\u%04X"] of a control character. *)
Definition unicode_escape (v : Z) : string :=
  String BS ("u00" +:+ String (hex_char (v / 16)) (String (hex_char (v mod 16)) "")).

Definition toml_char (c : ascii) : string :=
  let v := code c in
  if v =? 34 then String BS (String DQ "")
  else if v =? 92 then String BS (String BS "")
  else if v =? 8 then String BS "b"
  else if v =? 9 then String BS "t"
  else if v =? 10 then String BS "n"
  else if v =? 12 then String BS "f"
  else if v =? 13 then String BS "r"
  else if v <? 32 then unicode_escape v
  else String c "".

Fixpoint toml_chars (text : string) : string :=
  match text with
  | EmptyString => EmptyString
  | String c t => toml_char c +:+ toml_chars t
  end.

Definition ToTomlString (text : string) : string :=
  String DQ (toml_chars text +:+ String DQ "").

Fixpoint toml_list (l : list string) : string :=
  match l with
  | [] => ""
  | [x] => ToTomlString x
  | x :: r => ToTomlString x +:+ ", " +:+ toml_list r
  end.

Definition FormatGameRule (game : GameConfig) : string :=
  "# 由 CppOptimizer --add-game 生成" +:+ String LF "" +:+
  "[[games]]" +:+ String LF "" +:+
  "id = " +:+ ToTomlString (cfg_id game) +:+ String LF "" +:+
  (if string_empty (displayName game) then ""
   else "display_name = " +:+ ToTomlString (displayName game) +:+ String LF "") +:+
  (match cfg_processNames game with
   | [] => ""
   | names => "process_names = [" +:+ toml_list names +:+ "]" +:+ String LF ""
   end) +:+
  "pause_when_background = " +:+ (if pauseWhenBackground game then "true" else "false") +:+
  String LF (String LF "").

Fixpoint FormatGameRulesToml (rules : list GameConfig) : string :=
  match rules with
  | [] => ""
  | game :: r => FormatGameRule game +:+ FormatGameRulesToml r
  end.

(** ** Files *)

Definition ERROR_FILE_NOT_FOUND : Z := 2.

Section Files.
Context {W : Type} `{SystemMessages} `{FileSystem W} `{FileSizes W}.

(** The present content; a file that is not found is empty. *)
Definition read_rules (path : string) (w : W) : Result string :=
  match open_read path w with
  | Some text =>
      if read_bad path w then Failure (FromWin32 (GetLastError w) "ReadFile") else Success text
  | None =>
      if negb (GetLastError w =? ERROR_FILE_NOT_FOUND)
      then Failure (FromWin32 (GetLastError w) "CreateFileW") else Success ""
  end.

Definition end_line (content : string) : string :=
  if negb (string_empty content) && negb (last_is LF content)
  then content +:+ String LF "" else content.

Definition replace_file (path text : string) : M W (Result unit) :=
  let tempPath := path +:+ ".tmp" in
  let failed op w := Failure (FromWin32 (GetLastError w) op) in
  via_temp tempPath path text
    (λ w, (failed "CreateFileW(tmp)" w, w))
    (λ w, (remove_file tempPath ;;; mret (failed "WriteFile" w)) w)
    (λ w, (remove_file tempPath ;;; mret (failed "MoveFileExW" w)) w)
    (Success tt).

Definition AppendGameRules (path : string) (rules : list GameConfig) : M W (Result unit) :=
  match rules with
  | [] => mret (Success tt)
  | _ => λ w,
      match read_rules path w with
      | Failure e => (Failure e, w)
      | Success content =>
          replace_file path (end_line content +:+ FormatGameRulesToml rules) w
      end
  end.
End Files.

(** ** Merging *)

(** The first rule with the id of [local] is replaced. *)
Fixpoint replace_rule (local : GameConfig) (merged : list GameConfig) : option (list GameConfig) :=
  match merged with
  | [] => None
  | item :: r =>
      if String.eqb (ToLower (cfg_id item)) (ToLower (cfg_id local)) then Some (local :: r)
      else match replace_rule local r with
           | Some r' => Some (item :: r')
           | None => None
           end
  end.

Definition merge_rule (merged : list GameConfig) (local : GameConfig) : list GameConfig :=
  match replace_rule local merged with
  | Some merged' => merged'
  | None => merged ++ [local]
  end.

Definition MergeGameRules (mainRules localRules : list GameConfig) : list GameConfig :=
  foldl merge_rule mainRules localRules.

Definition with_games (s : ConfigSnapshot) (g : list GameConfig) : ConfigSnapshot :=
  MkSnapshot (version s) (unknownKeys s) (application s) (logging s) (layers s) (power s)
    (priority s) (memory s) (gpuHeartbeat s) (scheduler s) (diskCache s) (policy s) (ipc s) g
    (agent s).

Definition LoadConfigWithLocal {W Node} `{Toml Node} `{TomlFiles W Node} `{FileSystem W}
    (mainPath localPath : string) (w : W) : Result ConfigSnapshot :=
  match LoadConfig mainPath w with
  | Failure e => Failure e
  | Success main =>
      if negb (exists_file localPath w).1 then Success main
      else
        match LoadConfig localPath w with
        | Failure e => Failure e
        | Success local => Success (with_games main (MergeGameRules (games main) (games local)))
        end
  end.

(** ** Reading TOML strings *)

Definition hex_value (c : ascii) : option Z :=
  let v := code c in
  if (48 <=? v) && (v <=? 57) then Some (v - 48)
  else if (65 <=? v) && (v <=? 70) then Some (v - 55)
  else if (97 <=? v) && (v <=? 102) then Some (v - 87)
  else None.

(** The basic strings of TOML 1.0 over single bytes: the text after the opening
    quote up to the closing one, and what follows it. Control characters other
    than tab must be escaped; an escape of a code point above 127 is left out. *)
Fixpoint read_basic (fuel : nat) (s : string) : option (string * string) :=
  match fuel with
  | O => None
  | S f =>
      let put c rest := match read_basic f rest with
                        | Some (a, r) => Some (String (ascii_of_N (Z.to_N c)) a, r)
                        | None => None
                        end in
      match s with
      | EmptyString => None
      | String c s1 =>
          if Ascii.eqb c DQ then Some ("", s1)
          else if Ascii.eqb c BS then
            match s1 with
            | String e s2 =>
                if Ascii.eqb e DQ then put 34 s2
                else if Ascii.eqb e BS then put 92 s2
                else if Ascii.eqb e "b" then put 8 s2
                else if Ascii.eqb e "t" then put 9 s2
                else if Ascii.eqb e "n" then put 10 s2
                else if Ascii.eqb e "f" then put 12 s2
                else if Ascii.eqb e "r" then put 13 s2
                else if Ascii.eqb e "u" then
                  match s2 with
                  | String h1 (String h2 (String h3 (String h4 s3))) =>
                      match hex_value h1, hex_value h2, hex_value h3, hex_value h4 with
                      | Some a, Some b, Some c', Some d =>
                          let v := 4096 * a + 256 * b + 16 * c' + d in
                          if v <? 128 then put v s3 else None
                      | _, _, _, _ => None
                      end
                  | _ => None
                  end
                else None
            | EmptyString => None
            end
          else if is_control c && negb (code c =? 9) then None
          else put (code c) s1
      end
  end.

Lemma code_inj c d : code c = code d → c = d.
Proof.
  unfold code. intros E. rewrite <- (ascii_N_embedding c), <- (ascii_N_embedding d). f_equal. lia.
Qed.

Lemma ascii_of_code c : ascii_of_N (Z.to_N (code c)) = c.
Proof. unfold code. rewrite N2Z.id. apply ascii_N_embedding. Qed.

(** One character of the text is read back from what it was written as. *)
Lemma read_toml_char c f rest :
  code c ≠ 127 →
  read_basic (S f) (toml_char c +:+ rest) =
  match read_basic f rest with Some (a, r) => Some (String c a, r) | None => None end.
Proof. by destruct c as [[] [] [] [] [] [] [] []]. Qed.

Lemma read_toml_chars f text rest :
  (String.length text < f)%nat → all_chars (λ c, negb (code c =? 127)) text = true →
  read_basic f (toml_chars text +:+ String DQ rest) = Some (text, rest).
Proof.
  revert f. induction text as [|c t IH]; intros f Hf; cbn [all_chars toml_chars String.length] in *.
  - intros _. by destruct f; [lia|].
  - intros [Hc Ht]%andb_true_iff. destruct f as [|f]; [lia|].
    rewrite string_app_assoc, read_toml_char by (apply negb_true_iff in Hc; b2p; done).
    rewrite IH; [done|lia|done].
Qed.

Lemma read_bare_del f text rest :
  all_chars (λ c, negb (code c =? 127)) text = false →
  read_basic f (toml_chars text +:+ rest) = None.
Proof.
  revert f. induction text as [|c t IH]; intros f; [done|]. cbn [all_chars toml_chars].
  rewrite string_app_assoc. destruct f as [|f]; [done|].
  destruct (Z.eqb_spec (code c) 127) as [Hc|Hc]; cbn [negb andb].
  - intros _. rewrite (code_inj c "127" Hc). done.
  - intros Ht. by rewrite read_toml_char, IH.
Qed.

(** Whatever text is put into the file as a TOML string is what a TOML
    reader takes out of it, quotes, backslashes and control characters
    included, and the reader stops where the string ends; with the exception of
    a text with the character DEL, which is written bare and at which the
    reader fails. *)
Lemma ToTomlString_reads_back (text rest : string) :
  ToTomlString text +:+ rest = String DQ (toml_chars text +:+ String DQ rest) ∧
  read_basic (S (String.length text)) (toml_chars text +:+ String DQ rest) =
    (if all_chars (λ c, negb (code c =? 127)) text then Some (text, rest) else None).
Proof.
  split.
  - unfold ToTomlString. change (String DQ ?x +:+ rest) with (String DQ (x +:+ rest)).
    by rewrite string_app_assoc.
  - destruct (all_chars _ text) eqn:E; [apply read_toml_chars; [lia|done]|].
    by apply read_bare_del.
Qed.

(** ** Appending: theorems *)

Section FileTheorems.
Context {W : Type} `{!SystemMessages} `{!FileSystem W} `{!FileSystemLaws W} `{!FileSizes W}.

Lemma replace_file_spec path text w r w' :
  replace_file path text w = (r, w') →
  (∀ q, q ≠ path → q ≠ path +:+ ".tmp" → file q w' = file q w) ∧
  match r with
  | Success _ => file path w' = Some text
  | Failure _ => file path w' = file path w
  end.
Proof.
  unfold replace_file. intros E.
  apply (via_temp_atomic (λ r, ∃ e, r = Failure e)) in E as [Hq Hr].
  - split; [done|]. by destruct Hr as [[-> ?]|[(e & ->) ?]].
  - by apply tmp_path_ne.
  - apply (only_touches_ret _ _ (λ w, Failure _)). intros. by eexists.
  - apply only_touches_remove. intros v. apply (only_touches_ret _ _ (λ _, _)). intros. by eexists.
  - apply only_touches_remove. intros v. apply (only_touches_ret _ _ (λ _, _)). intros. by eexists.
Qed.

Lemma getlines_nonempty c s : ∃ l ls, getlines (String c s) = l :: ls.
Proof.
  cbn [getlines]. destruct (Ascii.eqb LF c); [by eexists _, _|].
  destruct (getlines s); by eexists _, _.
Qed.

Lemma getlines_ended s t :
  string_empty s = true ∨ last_is LF s = true → getlines (s +:+ t) = getlines s ++ getlines t.
Proof.
  intros [Hs|Hs]; [by destruct s|]. revert Hs. induction s as [|c s IH]; [done|].
  destruct s as [|d s].
  - cbn [last_is]. intros ->%Ascii.eqb_eq. done.
  - intros Hs. specialize (IH Hs). destruct (getlines_nonempty d s) as (l & ls & E).
    change (String c (String d s) +:+ t) with (String c (String d s +:+ t)).
    cbn [getlines]. cbn [getlines] in IH, E. rewrite IH.
    destruct (Ascii.eqb LF c); [done|]. by rewrite E.
Qed.

Lemma getlines_end s :
  string_empty s = false → last_is LF s = false → getlines (s +:+ String LF "") = getlines s.
Proof.
  induction s as [|c s IH]; [done|]. intros _. destruct s as [|d s].
  - cbn [last_is]. intros Hc. cbn [getlines String.append].
    assert (Ascii.eqb LF c = false) as -> by (by rewrite Ascii.eqb_sym). done.
  - intros Hs. specialize (IH eq_refl Hs).
    change (String c (String d s) +:+ ?t) with (String c (String d s +:+ t)).
    cbn [getlines]. cbn [getlines] in IH. by rewrite IH.
Qed.

Lemma last_is_snoc c s : last_is c (s +:+ String c "") = true.
Proof.
  induction s as [|x s IH]; [cbn; apply Ascii.eqb_refl|].
  destruct s as [|y s]; [cbn; apply Ascii.eqb_refl|]. exact IH.
Qed.

Lemma getlines_end_line content text :
  getlines (end_line content +:+ text) = getlines content ++ getlines text.
Proof.
  unfold end_line. destruct (string_empty content) eqn:He; cbn [negb andb].
  { apply getlines_ended. by left. }
  destruct (last_is LF content) eqn:Hl; cbn [negb].
  - apply getlines_ended. by right.
  - rewrite getlines_ended by (right; apply last_is_snoc). by rewrite getlines_end.
Qed.

(** Appending rules keeps every line the local file had, and adds the text of
    the rules in lines of their own; when it fails, at whatever step, the file
    is as it was, and no other file but the temporary one is touched. *)
Lemma AppendGameRules_appends (path : string) (rules : list GameConfig) (w w' : W)
    (r : Result unit) :
  rules ≠ [] →
  AppendGameRules path rules w = (r, w') →
  (∀ q, q ≠ path → q ≠ path +:+ ".tmp" → file q w' = file q w) ∧
  match r with
  | Failure _ => file path w' = file path w
  | Success _ => ∃ old new,
      read_rules path w = Success old ∧ file path w' = Some new ∧
      getlines new = getlines old ++ getlines (FormatGameRulesToml rules)
  end.
Proof.
  intros Hne. unfold AppendGameRules. destruct rules as [|g rules]; [done|].
  destruct (read_rules path w) as [content|e] eqn:Hr; [|by intros [= <- <-]].
  intros [Hq Hrep]%replace_file_spec. split; [done|]. destruct r as [u|e]; [|done].
  eexists content, _. split_and!; [done|exact Hrep|]. apply getlines_end_line.
Qed.
End FileTheorems.

(** ** Merging: theorems *)

Definition same_rule (a b : GameConfig) : bool :=
  String.eqb (ToLower (cfg_id a)) (ToLower (cfg_id b)).

(** The rule that has the id of [g], whatever the case of its letters. *)
Definition find_rule (g : GameConfig) (l : list GameConfig) : option GameConfig :=
  List.find (same_rule g) l.

Definition rule_ids (l : list GameConfig) : list string := map (λ g, ToLower (cfg_id g)) l.

Lemma replace_rule_Some local merged merged' :
  replace_rule local merged = Some merged' →
  rule_ids merged' = rule_ids merged ∧ ToLower (cfg_id local) ∈ rule_ids merged ∧
  ∀ g, find_rule g merged' = if same_rule g local then Some local else find_rule g merged.
Proof.
  revert merged'. induction merged as [|item r IH]; intros merged'; cbn [replace_rule]; [done|].
  destruct (String.eqb_spec (ToLower (cfg_id item)) (ToLower (cfg_id local))) as [E|E].
  - intros [= <-]. cbn. rewrite E. split_and!; [done|by rewrite elem_of_cons; left|].
    intros g. unfold find_rule. cbn [List.find]. unfold same_rule. rewrite E.
    by destruct (String.eqb (ToLower (cfg_id g)) (ToLower (cfg_id local))).
  - destruct (replace_rule local r) as [r'|]; [|done]. intros [= <-].
    destruct (IH r' eq_refl) as (H1 & H2 & H3). unfold rule_ids in *. cbn [map]. rewrite H1.
    split_and!; [done|by rewrite elem_of_cons; right|]. intros g.
    unfold find_rule in *. cbn [List.find]. rewrite H3. unfold same_rule. destruct (String.eqb_spec (ToLower (cfg_id g)) (ToLower (cfg_id item)))
      as [Eg|]; [|done].
    rewrite (proj2 (String.eqb_neq _ _)); [done|congruence].
Qed.

Lemma replace_rule_None local merged :
  replace_rule local merged = None → ToLower (cfg_id local) ∉ rule_ids merged.
Proof.
  induction merged as [|item r IH]; cbn [replace_rule]; [intros _; apply not_elem_of_nil|].
  destruct (String.eqb_spec (ToLower (cfg_id item)) (ToLower (cfg_id local))) as [E|E]; [done|].
  destruct (replace_rule local r); [done|]. intros _. cbn. rewrite not_elem_of_cons.
  split; [congruence|by apply IH].
Qed.

Lemma find_app {A} (p : A → bool) l1 l2 :
  List.find p (l1 ++ l2) = match List.find p l1 with Some x => Some x | None => List.find p l2 end.
Proof. induction l1 as [|x l1 IH]; cbn; [done|]. by destruct (p x). Qed.

Lemma find_rule_None g l : ToLower (cfg_id g) ∉ rule_ids l → find_rule g l = None.
Proof.
  induction l as [|x l IH]; cbn; [done|]. rewrite not_elem_of_cons. intros [H1 H2].
  unfold find_rule in *. cbn [List.find]. unfold same_rule at 1.
  rewrite (proj2 (String.eqb_neq _ _)) by done. by apply IH.
Qed.

Lemma merge_rule_spec merged local :
  (∀ g, find_rule g (merge_rule merged local) =
        if same_rule g local then Some local else find_rule g merged) ∧
  rule_ids (merge_rule merged local) =
    (if bool_decide (ToLower (cfg_id local) ∈ rule_ids merged) then rule_ids merged
     else rule_ids merged ++ [ToLower (cfg_id local)]).
Proof.
  unfold merge_rule. destruct (replace_rule local merged) as [m|] eqn:E.
  - apply replace_rule_Some in E as (H1 & H2 & H3). split; [done|].
    by rewrite H1, bool_decide_eq_true_2.
  - apply replace_rule_None in E. split.
    + intros g. unfold find_rule. rewrite find_app. cbn.
      destruct (same_rule g local) eqn:Hs; [|by destruct (List.find _ merged)].
      unfold same_rule in Hs. b2p.
      pose proof (find_rule_None g merged) as Hn. unfold find_rule in Hn.
      by rewrite Hn by (by rewrite Hs).
    + rewrite bool_decide_eq_false_2 by done. unfold rule_ids. by rewrite map_app.
Qed.

(** Merging the local rules over the main ones: for every id, whatever the
    case of its letters, the rule in force is the last local one that has it,
    or else the main one; the main rules keep their places and new ones follow;
    and ids that were distinct stay so. *)
Lemma MergeGameRules_spec (mainRules localRules : list GameConfig) :
  (∀ g, find_rule g (MergeGameRules mainRules localRules) =
        match find_rule g (rev localRules) with
        | Some local => Some local
        | None => find_rule g mainRules
        end) ∧
  rule_ids mainRules `prefix_of` rule_ids (MergeGameRules mainRules localRules) ∧
  (∀ k, k ∈ rule_ids (MergeGameRules mainRules localRules) ↔
        k ∈ rule_ids mainRules ∨ k ∈ rule_ids localRules) ∧
  (NoDup (rule_ids mainRules) → NoDup (rule_ids (MergeGameRules mainRules localRules))).
Proof.
  induction localRules as [|local localRules IH] using rev_ind.
  { split_and!; try done. intros k. unfold MergeGameRules. cbn. set_solver. }
  destruct IH as (H1 & H2 & H3 & H4). unfold MergeGameRules in *. rewrite foldl_app. cbn [foldl].
  destruct (merge_rule_spec (foldl merge_rule mainRules localRules) local) as [M1 M2].
  split_and!.
  - intros g. rewrite M1, rev_app_distr. cbn. rewrite H1.
    by destruct (same_rule g local).
  - rewrite M2. case_bool_decide; [done|]. by apply prefix_app_r.
  - intros k. rewrite M2.
    assert (rule_ids (localRules ++ [local]) = rule_ids localRules ++ [ToLower (cfg_id local)])
      as -> by (unfold rule_ids; by rewrite map_app).
    specialize (H3 k). clear -H3. rewrite elem_of_app, list_elem_of_singleton.
    case_bool_decide as Hin; [|rewrite elem_of_app, list_elem_of_singleton]; naive_solver.
  - intros Hnd. specialize (H4 Hnd). rewrite M2. case_bool_decide as Hin; [done|].
    apply NoDup_app. split; [done|]. split; [|apply NoDup_singleton].
    intros x Hx ->%list_elem_of_singleton. done.
Qed.

(** The text of a rule does not carry its window title: rules that differ in
    nothing else are written alike, so the filter is lost. *)
Lemma FormatGameRule_drops_title (g : GameConfig) (title : string) :
  FormatGameRule g =
  FormatGameRule (MkGameConfig (cfg_id g) (displayName g) (cfg_processNames g) title
                    (pauseWhenBackground g)).
Proof. done. Qed.

Lemma merge_keeps_ids mainRules localRules :
  Forall (λ g, cfg_id g ≠ "") mainRules → Forall (λ g, cfg_id g ≠ "") localRules →
  Forall (λ g, cfg_id g ≠ "") (MergeGameRules mainRules localRules).
Proof.
  intros Hm Hl. unfold MergeGameRules. revert mainRules Hm.
  induction Hl as [|g l Hg _ IH]; intros m Hm; [done|]. cbn [foldl]. apply IH.
  unfold merge_rule. destruct (replace_rule g m) as [m'|] eqn:E.
  - revert m' E. induction Hm as [|x r Hx Hr IHr]; intros m'; cbn [replace_rule]; [done|].
    destruct (String.eqb _ _); [intros [= <-]; by constructor|].
    destruct (replace_rule g r) as [r'|]; [|done]. intros [= <-]. constructor; [done|].
    by apply IHr.
  - apply Forall_app. by repeat constructor.
Qed.

(** The local file decides about game rules and nothing else: the result is
    a valid configuration, equal to the main one but for its games, which are
    the main rules when there is no local file and the merged ones otherwise. *)
Lemma LoadConfigWithLocal_spec {W Node} `{Toml Node} `{!TomlLaws Node} `{TomlFiles W Node}
    `{FileSystem W} (mainPath localPath : string) (w : W) (s : ConfigSnapshot) :
  LoadConfigWithLocal mainPath localPath w = Success s →
  snapshot_ok s ∧
  ∃ main, LoadConfig mainPath w = Success main ∧ s = with_games main (games s) ∧
    (if (exists_file localPath w).1 then
       ∃ local, LoadConfig localPath w = Success local ∧
                games s = MergeGameRules (games main) (games local)
     else games s = games main).
Proof.
  unfold LoadConfigWithLocal. destruct (LoadConfig mainPath w) as [main|] eqn:Em; [|done].
  pose proof (load_valid _ _ _ Em) as [? ? ? ? ? ? ? Hg ?].
  destruct (exists_file localPath w).1; cbn [negb].
  - destruct (LoadConfig localPath w) as [local|] eqn:El; [|done]. intros [= <-].
    pose proof (so_games _ (load_valid _ _ _ El)) as Hl.
    split; [split; try done; by apply merge_keeps_ids|].
    exists main. split_and!; [done|done|]. by exists local.
  - intros [= <-]. split; [by split|]. exists main. split_and!; [done|by destruct main|done].
Qed.

(** ** Examples *)

#[local] Instance quiet : SystemMessages := no_messages.

Definition sample_rule (id : string) : GameConfig :=
  MkGameConfig id "A game" ["a.exe"; "b.exe"] "" true.

Example AppendGameRules_appends_witness :
  let w := MkMemFs {[ "local.toml" := "# mine" ]} [] in
  ∃ new, file "local.toml" (AppendGameRules "local.toml" [sample_rule "g"] w).2 = Some new ∧
         getlines new = "# mine" :: getlines (FormatGameRulesToml [sample_rule "g"]).
Proof.
  cbn zeta. destruct (AppendGameRules _ _ _) as [r w'] eqn:E.
  pose proof (AppendGameRules_appends "local.toml" [sample_rule "g"] _ w' r ltac:(done) E) as [_ H].
  assert (r = Success tt) as -> by (vm_compute in E; congruence).
  destruct H as (old & new & H1 & H2 & H3). exists new. split; [exact H2|].
  rewrite H3. vm_compute in H1. injection H1 as <-. reflexivity.
Defined.

(** A world of two documents, of which the second may be missing. *)
Record Docs := MkDocs { main_doc : list (string * tree); local_doc : option (list (string * tree)) }.

#[local] Instance docs_files : TomlFiles Docs tree := λ p w,
  if String.eqb p "main" then inl (main_doc w) else
  match local_doc w with Some t => inl t | None => inr "missing" end.

#[local] Instance docs_system : FileSystem Docs := {|
  is_directory _ _ := false;
  exists_file p w := (bool_decide (is_Some (local_doc w)), 0);
  open_read _ _ := None;
  GetLastError _ := 0;
  create_directories _ := mret 0;
  write_trunc _ _ := mret OpenFailed;
  append_text _ _ := mret OpenFailed;
  MoveFileExW _ _ := mret false;
  remove_file _ := mret tt
|}.

Example LoadConfigWithLocal_spec_witness :
  let g id := TTable [("id", TString id)] in
  let w := MkDocs [("games", TArray [g "a"; g "B"])]
             (Some [("games", TArray [g "b"; g "c"]); ("power", TTable [("switch_power_scheme", TBool true)])]) in
  ∃ s, LoadConfigWithLocal "main" "local" w = Success s ∧ snapshot_ok s ∧
       map cfg_id (games s) = ["a"; "b"; "c"] ∧ switchPowerScheme (power s) = false.
Proof.
  cbn zeta. destruct (LoadConfigWithLocal _ _ _) as [s|e] eqn:E; [|vm_compute in E; discriminate].
  exists s. destruct (LoadConfigWithLocal_spec "main" "local" _ s E) as [Hok _].
  split_and!; [done|exact Hok| |]; vm_compute in E; injection E as <-; reflexivity.
Defined.
