(* ===== verification/PowerLocker.v ===== *)
(** The reference-counted power requests ([power/power_locker.hpp],
    [source/power/power_locker.cpp]). The request backend is the class
    [PowerRequestBackend], the virtual interface of the source; what the system
    documents about requests is [PowerRequestLaws]. [PowerService] is what the
    locker promises to its client, the policy executor. *)

From S2P Require Import Prelude CommonError Containers.

Open Scope string_scope.
Open Scope list_scope.
Open Scope Z_scope.

(** ** Types *)

Module PowerLockType.
Inductive PowerLockType := ExecutionRequired | DisplayRequired.
End PowerLockType.
Abbreviation PowerLockType := PowerLockType.PowerLockType.

#[export] Instance PowerLockType_eq_dec : EqDecision PowerLockType.
Proof. solve_decision. Defined.

#[export] Instance PowerLockType_countable : Countable PowerLockType.
Proof.
  refine (inj_countable'
    (λ t, match t with PowerLockType.ExecutionRequired => true
                     | PowerLockType.DisplayRequired => false end)
    (λ b : bool, if b then PowerLockType.ExecutionRequired
                 else PowerLockType.DisplayRequired) _).
  by intros [].
Defined.

Definition PowerLockTypeToString (t : PowerLockType) : string :=
  match t with
  | PowerLockType.ExecutionRequired => "execution"
  | PowerLockType.DisplayRequired => "display"
  end.

Definition ParsePowerLockType (name : string) : Result PowerLockType :=
  let folded := map_chars ascii_lower name in
  if String.eqb folded "execution" then Success PowerLockType.ExecutionRequired
  else if String.eqb folded "display" then Success PowerLockType.DisplayRequired
  else Failure (Validation "ParsePowerLockType"
                  "unknown power lock type (expected execution/display)").

(** ** The backend *)

Class PowerRequestBackend (B : Type) := {
  CreateRequest : string → M B (Result Z);
  SetRequest : Z → PowerLockType → M B (Result unit);
  ClearRequest : Z → PowerLockType → M B (Result unit);
  CloseRequest : Z → M B unit
}.

(** The open request objects and the requests in force. Failed calls change
    neither; closing an object cancels the requests made through it. *)
Class PowerRequestLaws (B : Type) `{PowerRequestBackend B} := {
  objects : B → gset Z;
  in_force : B → gset (Z * PowerLockType);
  create_ok : ∀ reason b h b', CreateRequest reason b = (Success h, b') →
    h ≠ 0 ∧ h ∉ objects b ∧ objects b' = {[h]} ∪ objects b ∧ in_force b' = in_force b;
  create_fail : ∀ reason b e b', CreateRequest reason b = (Failure e, b') →
    objects b' = objects b ∧ in_force b' = in_force b;
  set_ok : ∀ h t b u b', SetRequest h t b = (Success u, b') →
    objects b' = objects b ∧ in_force b' = {[(h, t)]} ∪ in_force b;
  set_fail : ∀ h t b e b', SetRequest h t b = (Failure e, b') →
    objects b' = objects b ∧ in_force b' = in_force b;
  clear_ok : ∀ h t b u b', ClearRequest h t b = (Success u, b') →
    objects b' = objects b ∧ in_force b' = in_force b ∖ {[(h, t)]};
  clear_fail : ∀ h t b e b', ClearRequest h t b = (Failure e, b') →
    objects b' = objects b ∧ in_force b' = in_force b;
  close_request : ∀ h b,
    objects (CloseRequest h b).2 = objects b ∖ {[h]} ∧
    in_force (CloseRequest h b).2 = filter (λ r, r.1 ≠ h) (in_force b)
}.

(** ** The locker *)

Record LockState := MkLock { count : nat; handle : Z; lock_reason : string }.

Definition no_lock : LockState := MkLock 0 0 "".

(** [backend_] is null when [has_backend] is false; [states_] is the array
    indexed by the type. *)
Record PowerLocker := MkLocker {
  has_backend : bool;
  execution_lock : LockState;
  display_lock : LockState
}.

Definition NewPowerLocker (backend : bool) : PowerLocker := MkLocker backend no_lock no_lock.

Definition lock_state (t : PowerLockType) (p : PowerLocker) : LockState :=
  match t with
  | PowerLockType.ExecutionRequired => execution_lock p
  | PowerLockType.DisplayRequired => display_lock p
  end.

Definition set_lock (t : PowerLockType) (s : LockState) (p : PowerLocker) : PowerLocker :=
  match t with
  | PowerLockType.ExecutionRequired => MkLocker (has_backend p) s (display_lock p)
  | PowerLockType.DisplayRequired => MkLocker (has_backend p) (execution_lock p) s
  end.

Definition LockCount (t : PowerLockType) (p : PowerLocker) : nat := count (lock_state t p).
Definition IsLocked (t : PowerLockType) (p : PowerLocker) : bool :=
  (0 <? Z.of_nat (LockCount t p)).
Definition LockReason (t : PowerLockType) (p : PowerLocker) : string :=
  lock_reason (lock_state t p).

Section Operations.
Context {B : Type} `{PowerRequestBackend B}.

Definition AcquireLock (t : PowerLockType) (reason : string)
  : M (PowerLocker * B) (Result unit) := λ '(p, b),
  if negb (has_backend p) then
    (Failure (Validation "PowerLocker::AcquireLock" "no power request backend"), (p, b))
  else
    let s := lock_state t p in
    match count s with
    | O =>
        match CreateRequest reason b with
        | (Failure e, b1) => (Failure e, (p, b1))
        | (Success h, b1) =>
            match SetRequest h t b1 with
            | (Failure e, b2) =>
                let '(_, b3) := CloseRequest h b2 in (Failure e, (p, b3))
            | (Success _, b2) =>
                (Success tt, (set_lock t (MkLock 1 h reason) p, b2))
            end
        end
    | S n => (Success tt, (set_lock t (MkLock (S (S n)) (handle s) (lock_reason s)) p, b))
    end.

Definition ReleaseLock (t : PowerLockType) : M (PowerLocker * B) (Result unit) := λ '(p, b),
  let s := lock_state t p in
  match count s with
  | O => (Success tt, (p, b))
  | S O =>
      match ClearRequest (handle s) t b with
      | (Failure e, b1) => (Failure e, (p, b1))
      | (Success _, b1) =>
          let '(_, b2) := CloseRequest (handle s) b1 in
          (Success tt, (set_lock t no_lock p, b2))
      end
  | S n => (Success tt, (set_lock t (MkLock n (handle s) (lock_reason s)) p, b))
  end.

Definition release_type (t : PowerLockType) : M (PowerLocker * B) unit := λ '(p, b),
  let s := lock_state t p in
  match count s with
  | O => (tt, (p, b))
  | S _ =>
      let b' := if negb (handle s =? 0) && has_backend p then
                  let '(_, b1) := ClearRequest (handle s) t b in
                  (CloseRequest (handle s) b1).2
                else b in
      (tt, (set_lock t no_lock p, b'))
  end.

Definition ReleaseAll : M (PowerLocker * B) unit :=
  release_type PowerLockType.ExecutionRequired ;;;
  release_type PowerLockType.DisplayRequired.
End Operations.

(** ** Invariant *)

Definition held_by (t : PowerLockType) (p : PowerLocker) : gset (Z * PowerLockType) :=
  match count (lock_state t p) with O => ∅ | S _ => {[(handle (lock_state t p), t)]} end.

Definition held (p : PowerLocker) : gset (Z * PowerLockType) :=
  held_by PowerLockType.ExecutionRequired p ∪ held_by PowerLockType.DisplayRequired p.

Definition lock_wf (s : LockState) : Prop :=
  match count s with O => s = no_lock | S _ => handle s ≠ 0 end.

Section Theorems.
Context {B : Type} `{!PowerRequestBackend B} `{!PowerRequestLaws B}.

(** The requests in force are those of the types that are held, each through
    an object of its own, and no other object is open. *)
Definition locker_inv (p : PowerLocker) (b : B) : Prop :=
  (∀ t, lock_wf (lock_state t p)) ∧
  (has_backend p = false → ∀ t, count (lock_state t p) = 0%nat) ∧
  in_force b = held p ∧
  objects b = set_map fst (held p) ∧
  (∀ h t t', (h, t) ∈ held p → (h, t') ∈ held p → t = t').

Definition other (t : PowerLockType) : PowerLockType :=
  match t with
  | PowerLockType.ExecutionRequired => PowerLockType.DisplayRequired
  | PowerLockType.DisplayRequired => PowerLockType.ExecutionRequired
  end.

Lemma other_ne t : other t ≠ t.
Proof. by destruct t. Qed.
Lemma type_cases t t' : t' = t ∨ t' = other t.
Proof. destruct t, t'; auto. Qed.
Lemma held_split t p : held p = held_by t p ∪ held_by (other t) p.
Proof. unfold held. destruct t; cbn; set_solver. Qed.
Lemma lock_state_set t s p : lock_state t (set_lock t s p) = s.
Proof. by destruct t. Qed.
Lemma lock_state_set_other t s p : lock_state (other t) (set_lock t s p) = lock_state (other t) p.
Proof. by destruct t. Qed.
Lemma has_backend_set t s p : has_backend (set_lock t s p) = has_backend p.
Proof. by destruct t. Qed.
Lemma held_by_set t s p :
  held_by t (set_lock t s p) = match count s with O => ∅ | S _ => {[(handle s, t)]} end.
Proof. unfold held_by. by rewrite lock_state_set. Qed.
Lemma held_by_set_other t s p : held_by (other t) (set_lock t s p) = held_by (other t) p.
Proof. unfold held_by. by rewrite lock_state_set_other. Qed.
Lemma held_by_type t p h t' : (h, t') ∈ held_by t p → t' = t.
Proof. unfold held_by. destruct (count _); set_solver. Qed.

Lemma locker_inv_new b : in_force b = ∅ → objects b = ∅ → ∀ be, locker_inv (NewPowerLocker be) b.
Proof.
  intros Hf Ho be. assert (held (NewPowerLocker be) = ∅) as E by set_solver.
  unfold locker_inv. rewrite E, Hf, Ho, set_map_empty.
  split; [by intros []|]. split; [by intros _ []|]. set_solver.
Qed.

(** Changing the state of one type, the invariant of the other kept. *)
Lemma locker_inv_set t s p b :
  (∀ t, lock_wf (lock_state t p)) → lock_wf s → has_backend p = true →
  let new := match count s with O => ∅ | S _ => {[(handle s, t)]} end in
  (count s ≠ O → handle s ∉ (set_map fst (held_by (other t) p) : gset Z)) →
  in_force b = new ∪ held_by (other t) p →
  objects b = set_map fst (new ∪ held_by (other t) p) →
  locker_inv (set_lock t s p) b.
Proof.
  intros Hwf Hs Hb new Hfresh Hf Ho. unfold locker_inv.
  assert (held (set_lock t s p) = new ∪ held_by (other t) p) as E.
  { by rewrite (held_split t), held_by_set, held_by_set_other. }
  rewrite E, has_backend_set. split; [|split; [|split; [|split]]]; try done.
  - intros t'. destruct (type_cases t t') as [->| ->];
      by rewrite ?lock_state_set, ?lock_state_set_other.
  - by rewrite Hb.
  - subst new. destruct (count s) eqn:Hc.
    + intros h t1 t2. rewrite !elem_of_union.
      intros [?|H1%held_by_type] [?|H2%held_by_type]; set_solver.
    + specialize (Hfresh ltac:(done)). rewrite elem_of_map in Hfresh.
      intros h t1 t2. rewrite !elem_of_union, !elem_of_singleton.
      intros [H1|H1] [H2|H2]; simplify_eq; try done.
      * destruct Hfresh. by eexists (_, _).
      * destruct Hfresh. by eexists (_, _).
      * apply held_by_type in H1 as ->, H2 as ->. done.
Qed.

Lemma locker_inv_fresh t p b :
  locker_inv p b → count (lock_state t p) ≠ O →
  handle (lock_state t p) ∉ (set_map fst (held_by (other t) p) : gset Z).
Proof.
  intros (_ & _ & _ & _ & Hinj) Hc. rewrite elem_of_map.
  intros ([h t'] & E & Hin). cbn in E. subst h.
  pose proof (held_by_type _ _ _ _ Hin) as ->.
  apply (other_ne t), (Hinj (handle (lock_state t p))).
  - rewrite (held_split t). set_solver.
  - rewrite (held_split t). unfold held_by at 1. destruct (count _); [done|]. set_solver.
Qed.

Lemma locker_inv_same p b b' :
  in_force b' = in_force b → objects b' = objects b → locker_inv p b → locker_inv p b'.
Proof. unfold locker_inv. by intros -> ->. Qed.

(** The backend after the requests of one type were dropped. *)
Lemma locker_inv_drop t p b b1 :
  locker_inv p b → count (lock_state t p) ≠ O →
  objects b1 = objects b ∖ {[handle (lock_state t p)]} →
  in_force b1 = filter (λ r, r.1 ≠ handle (lock_state t p)) (in_force b) →
  locker_inv (set_lock t no_lock p) b1.
Proof.
  intros Hinv Hc Ho Hf. pose proof (locker_inv_fresh t p b Hinv Hc) as Hfresh.
  destruct Hinv as (Hwf & Hb & Hif & Hob & Hinj).
  assert (held_by t p = {[(handle (lock_state t p), t)]}) as Eh.
  { unfold held_by. by destruct (count _). }
  rewrite (held_split t), Eh in Hif, Hob.
  rewrite elem_of_map in Hfresh.
  apply locker_inv_set; [done|done| |done| |].
  - destruct (has_backend p); [done|]. by destruct Hc; apply Hb.
  - cbn. rewrite Hf, Hif. apply set_eq. intros [h t'].
    rewrite elem_of_filter, !elem_of_union, !elem_of_singleton. cbn. split.
    + intros [Hne [[= -> ->]|H]]; [done|by right].
    + intros [H|H]; [set_solver|]. split; [|by right]. intros ->.
      destruct Hfresh. by eexists (_, _).
  - cbn. rewrite Ho, Hob. apply set_eq. intros h.
    rewrite elem_of_difference, !elem_of_map, elem_of_singleton. setoid_rewrite elem_of_union.
    split.
    + intros [([h' t'] & -> & [H|H]) Hne]; cbn in *; [set_solver|].
      exists (h', t'). auto.
    + intros ([h' t'] & -> & [H|H]); [set_solver|]. split; [exists (h', t'); auto|].
      cbn. intros ->. destruct Hfresh. by eexists (_, _).
Qed.

Lemma AcquireLock_spec t reason p b r p' b' :
  locker_inv p b → AcquireLock t reason (p, b) = (r, (p', b')) →
  locker_inv p' b' ∧
  match r with
  | Success _ =>
      has_backend p = true ∧
      LockCount t p' = S (LockCount t p) ∧
      LockReason t p' = (if IsLocked t p then LockReason t p else reason) ∧
      lock_state (other t) p' = lock_state (other t) p
  | Failure _ => p' = p ∧ in_force b' = in_force b ∧ objects b' = objects b
  end.
Proof.
  intros Hinv E. pose proof Hinv as (Hwf & Hb & Hf & Ho & Hinj). unfold AcquireLock in E.
  destruct (has_backend p) eqn:Hbe; cbn [negb] in E; [|by injection E as <- <- <-].
  unfold LockCount, LockReason, IsLocked, LockCount.
  destruct (count (lock_state t p)) as [|n] eqn:Hc.
  - destruct (CreateRequest reason b) as [[h|e] b1] eqn:Hcr.
    2:{ injection E as <- <- <-. apply create_fail in Hcr as [H1 H2].
        split; [by apply (locker_inv_same p b)|done]. }
    apply create_ok in Hcr as (Hh & Hfresh & Hob1 & Hf1).
    destruct (SetRequest h t b1) as [[u|e] b2] eqn:Hse.
    + injection E as <- <- <-. apply set_ok in Hse as [Hob2 Hf2].
      assert (held p = held_by (other t) p) as Eh.
      { rewrite (held_split t). unfold held_by at 1. rewrite Hc. set_solver. }
      rewrite !lock_state_set, lock_state_set_other. split; [|done].
      apply locker_inv_set; try done; cbn [count handle].
      * intros _. by rewrite <- Eh, <- Ho.
      * by rewrite Hf2, Hf1, Hf, Eh.
      * rewrite Hob2, Hob1, Ho, Eh. set_solver.
    + pose proof (close_request h b2) as [Hob3 Hf3].
      destruct (CloseRequest h b2) as [[] b3]. injection E as <- <- <-.
      apply set_fail in Hse as [Hob2 Hf2]. cbn in Hob3, Hf3.
      assert (objects b3 = objects b) as Eo by (rewrite Hob3, Hob2, Hob1; set_solver).
      assert (in_force b3 = in_force b) as Ef.
      { rewrite Hf3, Hf2, Hf1, Hf. apply set_eq. intros [h' t'].
        rewrite elem_of_filter. split; [by intros [_ ?]|]. intros Hin. split; [|done].
        cbn. intros ->. apply Hfresh. rewrite Ho. apply elem_of_map. by eexists (_, _). }
      split; [by apply (locker_inv_same p b)|done].
  - injection E as <- <- <-. rewrite !lock_state_set, lock_state_set_other.
    split; [|done]. pose proof (locker_inv_fresh t p b Hinv) as Hfr.
    pose proof (Hwf t) as Hwt. unfold lock_wf in Hwt. rewrite Hc in Hfr, Hwt.
    assert (held p = {[(handle (lock_state t p), t)]} ∪ held_by (other t) p) as Eh.
    { rewrite (held_split t). unfold held_by at 1. by rewrite Hc. }
    apply locker_inv_set; try done; cbn [count handle].
    + intros _. by apply Hfr.
    + by rewrite Hf, Eh.
    + by rewrite Ho, Eh.
Qed.

Lemma ReleaseLock_spec t p b r p' b' :
  locker_inv p b → ReleaseLock t (p, b) = (r, (p', b')) →
  locker_inv p' b' ∧
  match r with
  | Success _ => LockCount t p' = pred (LockCount t p) ∧
                 lock_state (other t) p' = lock_state (other t) p
  | Failure _ => p' = p ∧ in_force b' = in_force b ∧ objects b' = objects b
  end.
Proof.
  intros Hinv E. pose proof Hinv as (Hwf & Hb & Hf & Ho & Hinj). unfold ReleaseLock in E.
  unfold LockCount. pose proof (locker_inv_fresh t p b Hinv) as Hfr.
  pose proof (Hwf t) as Hwt. unfold lock_wf in Hwt.
  destruct (count (lock_state t p)) as [|[|n]] eqn:Hc.
  - injection E as <- <- <-. by rewrite Hc.
  - destruct (ClearRequest _ t b) as [[u|e] b1] eqn:Hcl.
    + pose proof (close_request (handle (lock_state t p)) b1) as [Hob2 Hf2].
      destruct (CloseRequest _ b1) as [[] b2]. injection E as <- <- <-. cbn in Hob2, Hf2.
      apply clear_ok in Hcl as [Hob1 Hf1]. rewrite lock_state_set, lock_state_set_other.
      split; [|done]. apply (locker_inv_drop t p b); [done|by rewrite Hc| |].
      * by rewrite Hob2, Hob1.
      * rewrite Hf2, Hf1. apply set_eq. intros [h t'].
        rewrite !elem_of_filter, elem_of_difference, elem_of_singleton. cbn.
        split; [by intros (? & ? & ?)|]. intros [? ?]. repeat split; try done.
        by intros [= -> ->].
    + injection E as <- <- <-. apply clear_fail in Hcl as [H1 H2].
      split; [by apply (locker_inv_same p b)|done].
  - injection E as <- <- <-. rewrite lock_state_set, lock_state_set_other.
    split; [|done].
    assert (held p = {[(handle (lock_state t p), t)]} ∪ held_by (other t) p) as Eh.
    { rewrite (held_split t). unfold held_by at 1. by rewrite Hc. }
    apply locker_inv_set; try done; cbn [count handle].
    + destruct (has_backend p); [done|]. by rewrite Hb in Hc.
    + intros _. by apply Hfr.
    + by rewrite Hf, Eh.
    + by rewrite Ho, Eh.
Qed.

Lemma release_type_spec t p b :
  locker_inv p b →
  let '(_, (p', b')) := release_type t (p, b) in
  locker_inv p' b' ∧ LockCount t p' = O ∧
  lock_state (other t) p' = lock_state (other t) p.
Proof.
  intros Hinv. unfold release_type, LockCount.
  pose proof Hinv as (Hwf & Hb & Hf & Ho & Hinj).
  pose proof (Hwf t) as Hwt. unfold lock_wf in Hwt.
  destruct (count (lock_state t p)) as [|n] eqn:Hc; [done|].
  rewrite lock_state_set, lock_state_set_other. split; [|done].
  destruct (has_backend p) eqn:Hbe; [|by rewrite Hb in Hc].
  rewrite (proj2 (Z.eqb_neq _ _)) by done. cbn [negb andb].
  pose proof (close_request (handle (lock_state t p))) as Hclose.
  destruct (ClearRequest (handle (lock_state t p)) t b) as [[u|e] b1] eqn:Hcl.
  - apply clear_ok in Hcl as [Hob1 Hf1]. destruct (Hclose b1) as [Hob2 Hf2].
    apply (locker_inv_drop t p b); [done|by rewrite Hc| |].
    + by rewrite Hob2, Hob1.
    + rewrite Hf2, Hf1. apply set_eq. intros [h t'].
      rewrite !elem_of_filter, elem_of_difference, elem_of_singleton. cbn.
      split; [by intros (? & ? & ?)|]. intros [? ?]. repeat split; try done.
      by intros [= -> ->].
  - apply clear_fail in Hcl as [Hob1 Hf1]. destruct (Hclose b1) as [Hob2 Hf2].
    apply (locker_inv_drop t p b); [done|by rewrite Hc| |].
    + by rewrite Hob2, Hob1.
    + by rewrite Hf2, Hf1.
Qed.

Lemma ReleaseAll_spec p b :
  locker_inv p b →
  let '(_, (p', b')) := ReleaseAll (p, b) in
  locker_inv p' b' ∧ ∀ t, LockCount t p' = O.
Proof.
  intros Hinv. unfold ReleaseAll, mthen.
  pose proof (release_type_spec PowerLockType.ExecutionRequired p b Hinv) as H1.
  destruct (release_type _ (p, b)) as [_ [p1 b1]]. destruct H1 as (Hinv1 & Hc1 & _).
  pose proof (release_type_spec PowerLockType.DisplayRequired p1 b1 Hinv1) as H2.
  destruct (release_type _ (p1, b1)) as [_ [p2 b2]]. destruct H2 as (Hinv2 & Hc2 & Hex).
  split; [done|]. intros []; [|done]. unfold LockCount in *. cbn in *. by rewrite Hex.
Qed.

(** *** Runs *)

Inductive LockOp :=
  | OpAcquire (t : PowerLockType) (reason : string)
  | OpRelease (t : PowerLockType).

Definition lock_op (op : LockOp) : M (PowerLocker * B) (Result unit) :=
  match op with OpAcquire t reason => AcquireLock t reason | OpRelease t => ReleaseLock t end.

Fixpoint run_locker (ops : list LockOp) : M (PowerLocker * B) (list (LockOp * bool)) :=
  match ops with
  | [] => mret []
  | op :: rest =>
      r <-- lock_op op ;; rs <-- run_locker rest ;; mret ((op, HasValue r) :: rs)
  end.

(** What a client counts: successful acquisitions less successful releases,
    releases of a type not held excepted. *)
Definition balance_step (t : PowerLockType) (n : nat) (entry : LockOp * bool) : nat :=
  match entry with
  | (OpAcquire t' _, true) => if decide (t' = t) then S n else n
  | (OpRelease t', true) => if decide (t' = t) then pred n else n
  | (_, false) => n
  end.

Definition balance (t : PowerLockType) (log : list (LockOp * bool)) : nat :=
  foldl (balance_step t) 0%nat log.

Lemma lock_op_spec op p b r p' b' t :
  locker_inv p b → lock_op op (p, b) = (r, (p', b')) →
  locker_inv p' b' ∧ LockCount t p' = balance_step t (LockCount t p) (op, HasValue r).
Proof.
  intros Hinv E. destruct op as [t0 reason|t0]; cbn [lock_op] in E.
  - apply AcquireLock_spec in E as [? E]; [|done]. split; [done|].
    destruct r; cbn; [|by destruct E as (-> & _)].
    destruct E as (_ & E1 & _ & E2). destruct (decide (t0 = t)) as [->|Hne]; [done|].
    destruct (type_cases t0 t) as [->| ->]; [done|]. unfold LockCount. by rewrite E2.
  - apply ReleaseLock_spec in E as [? E]; [|done]. split; [done|].
    destruct r; cbn; [|by destruct E as (-> & _)].
    destruct E as (E1 & E2). destruct (decide (t0 = t)) as [->|Hne]; [done|].
    destruct (type_cases t0 t) as [->| ->]; [done|]. unfold LockCount. by rewrite E2.
Qed.

Lemma run_locker_spec ops p b :
  locker_inv p b →
  let '(log, (p', b')) := run_locker ops (p, b) in
  locker_inv p' b' ∧ ∀ t, LockCount t p' = foldl (balance_step t) (LockCount t p) log.
Proof.
  revert p b. induction ops as [|op rest IH]; intros p b Hinv; cbn; [done|].
  unfold mthen, mret. destruct (lock_op op (p, b)) as [r [p1 b1]] eqn:E.
  destruct (lock_op_spec op p b r p1 b1 PowerLockType.DisplayRequired Hinv E) as [Hinv1 _].
  specialize (IH p1 b1 Hinv1). destruct (run_locker rest (p1, b1)) as [log [p2 b2]].
  destruct IH as [Hinv2 Hc]. split; [done|]. intros t. rewrite Hc. cbn [foldl]. f_equal.
  by destruct (lock_op_spec op p b r p1 b1 t Hinv E) as [_ ->].
Qed.

(** C16. The locker implements a counter per type, whatever the backend
    answers: after any sequence of acquisitions and releases each count is the
    balance of the calls that succeeded, the requests in force in the system
    are exactly one for every type with a positive balance, each through an
    open object, and no other object is open. Releasing everything then leaves
    no request in force and no object open, even where a clear fails. *)
Theorem PowerLocker_refines_counters (be : bool) (ops : list LockOp) (b : B) :
  objects b = ∅ → in_force b = ∅ →
  let '(log, (p, b')) := run_locker ops (NewPowerLocker be, b) in
  (∀ t, LockCount t p = balance t log) ∧
  (∀ t, (∃ h, (h, t) ∈ in_force b') ↔ (0 < balance t log)%nat) ∧
  (∀ h h' t, (h, t) ∈ in_force b' → (h', t) ∈ in_force b' → h = h') ∧
  objects b' = set_map fst (in_force b') ∧
  let '(_, (p2, b2)) := ReleaseAll (p, b') in
  objects b2 = ∅ ∧ in_force b2 = ∅ ∧ ∀ t, LockCount t p2 = 0%nat.
Proof.
  intros Ho Hf. pose proof (locker_inv_new b Hf Ho be) as Hinv.
  pose proof (run_locker_spec ops _ _ Hinv) as H.
  destruct (run_locker ops _) as [log [p b']]. destruct H as [Hinv' Hc].
  pose proof (ReleaseAll_spec p b' Hinv') as Hr.
  destruct Hinv' as (_ & _ & Hf' & Ho' & _).
  assert (∀ t, LockCount t p = balance t log) as Hb by (intros t; rewrite Hc; by destruct t).
  assert (∀ h t, (h, t) ∈ held p ↔ (h, t) ∈ held_by t p) as Hheld.
  { intros h t. rewrite (held_split t), elem_of_union. split; [|by left].
    intros [?|Hin]; [done|]. apply held_by_type in Hin. by destruct (other_ne t). }
  split; [done|]. split; [|split; [|split]].
  - intros t. rewrite Hf', <- Hb. setoid_rewrite Hheld. unfold held_by, LockCount.
    destruct (count _); split; [set_solver|lia|lia|]. intros _.
    exists (handle (lock_state t p)). set_solver.
  - intros h h' t. rewrite Hf', !Hheld. unfold held_by. destruct (count _); set_solver.
  - by rewrite Ho', Hf'.
  - destruct (ReleaseAll (p, b')) as [_ [p2 b2]].
    destruct Hr as [(_ & _ & Hf2 & Ho2 & _) Hc2].
    assert (held p2 = ∅) as E.
    { unfold held, held_by. unfold LockCount in Hc2. rewrite !Hc2. set_solver. }
    by rewrite Hf2, Ho2, E, set_map_empty.
Qed.

(** No call of the locker pretends: a failed acquisition or release
    leaves every count, handle and reason as it was, and the system with the
    same requests in force and the same objects open; a successful acquisition
    of a type already held keeps the reason it was created with. *)
Lemma PowerLocker_failure_atomic
    (op : LockOp) (p : PowerLocker) (b : B) (r : Result unit) (p' : PowerLocker) (b' : B) :
  locker_inv p b → lock_op op (p, b) = (r, (p', b')) →
  (HasValue r = false →
     p' = p ∧ in_force b' = in_force b ∧ objects b' = objects b) ∧
  (∀ t reason, op = OpAcquire t reason → HasValue r = true →
     IsLocked t p' = true ∧
     LockReason t p' = if IsLocked t p then LockReason t p else reason).
Proof.
  intros Hinv E. destruct op as [t reason|t]; cbn [lock_op] in E.
  - apply AcquireLock_spec in E as [_ E]; [|done]. destruct r; cbn; [|by split].
    split; [done|]. intros ? ? [= <- <-] _. destruct E as (_ & Ec & Er & _).
    split; [|done]. unfold IsLocked. rewrite Ec. apply Z.ltb_lt. lia.
  - apply ReleaseLock_spec in E as [_ E]; [|done]. destruct r; cbn; by split.
Qed.
End Theorems.

(** ** The service a client relies on *)

Definition bump {T} (r : Result T) (up : nat → nat) (n : nat) : nat :=
  if HasValue r then up n else n.

(** A counter per type that only a successful call changes. *)
Class PowerService (S : Type) := {
  power_acquire : PowerLockType → string → M S (Result unit);
  power_release : PowerLockType → M S (Result unit);
  power_count : PowerLockType → S → nat;
  power_inv : S → Prop;
  power_acquire_spec : ∀ t reason s r s', power_inv s →
    power_acquire t reason s = (r, s') →
    power_inv s' ∧ ∀ t', power_count t' s' =
      if decide (t' = t) then bump r Nat.succ (power_count t' s) else power_count t' s;
  power_release_spec : ∀ t s r s', power_inv s → power_release t s = (r, s') →
    power_inv s' ∧ ∀ t', power_count t' s' =
      if decide (t' = t) then bump r Nat.pred (power_count t' s) else power_count t' s
}.

#[export] Program Instance locker_service {B} `{!PowerRequestBackend B}
  `{!PowerRequestLaws B} : PowerService (PowerLocker * B) := {|
  power_acquire := AcquireLock;
  power_release := ReleaseLock;
  power_count t s := LockCount t s.1;
  power_inv s := locker_inv s.1 s.2
|}.
Next Obligation.
  intros B ? ? t reason [p b] r [p' b'] Hinv E. cbn in *.
  split; [by eapply AcquireLock_spec|]. intros t'.
  destruct (lock_op_spec (OpAcquire t reason) p b r p' b' t' Hinv E) as [_ ->].
  cbn. unfold bump. destruct (HasValue r), (decide (t = t')), (decide (t' = t)); cbn; done || congruence.
Qed.
Next Obligation.
  intros B ? ? t [p b] r [p' b'] Hinv E. cbn in *.
  split; [by eapply ReleaseLock_spec|]. intros t'.
  destruct (lock_op_spec (OpRelease t) p b r p' b' t' Hinv E) as [_ ->].
  cbn. unfold bump. destruct (HasValue r), (decide (t = t')), (decide (t' = t)); cbn; done || congruence.
Qed.

(** ** A backend to evaluate the model *)

Record FakePower := MkFakePower {
  fp_next : Z;
  fp_objects : gset Z;
  fp_force : gset (Z * PowerLockType);
  fp_fail : list PowerLockType (* types whose set and clear fail *)
}.

Definition fp_fails (t : PowerLockType) (b : FakePower) : bool := bool_decide (t ∈ fp_fail b).

Definition fp_error : Error := MkError ErrorDomain.Win32 5 "fake" "".

(** Handles count up from 1 beyond every open one. *)
Definition fp_fresh (b : FakePower) : Z :=
  1 + Z.max (fp_next b) (set_max (fp_objects b)).

#[export] Instance fake_power : PowerRequestBackend FakePower := {|
  CreateRequest _ b :=
    (Success (fp_fresh b),
     MkFakePower (Z.max 0 (fp_fresh b)) ({[fp_fresh b]} ∪ fp_objects b) (fp_force b) (fp_fail b));
  SetRequest h t b :=
    if fp_fails t b then (Failure fp_error, b)
    else (Success tt,
          MkFakePower (fp_next b) (fp_objects b) ({[(h, t)]} ∪ fp_force b) (fp_fail b));
  ClearRequest h t b :=
    if fp_fails t b then (Failure fp_error, b)
    else (Success tt,
          MkFakePower (fp_next b) (fp_objects b) (fp_force b ∖ {[(h, t)]}) (fp_fail b));
  CloseRequest h b :=
    (tt, MkFakePower (fp_next b) (fp_objects b ∖ {[h]})
           (filter (λ r, r.1 ≠ h) (fp_force b)) (fp_fail b))
|}.

#[export] Program Instance fake_power_laws : PowerRequestLaws FakePower := {|
  objects := fp_objects;
  in_force := fp_force
|}.
Next Obligation.
  intros reason b h b'. cbn. intros [= <- <-]. cbn. unfold fp_fresh.
  pose proof (set_max_nonneg (fp_objects b)). repeat split; [lia|].
  intros Hin%set_max_ge. lia.
Qed.
Next Obligation. done. Qed.
Next Obligation. intros h t b u b'. cbn. destruct (fp_fails t b); by intros [= <- <-]. Qed.
Next Obligation. intros h t b u b'. cbn. destruct (fp_fails t b); by intros [= <- <-]. Qed.
Next Obligation. intros h t b u b'. cbn. destruct (fp_fails t b); by intros [= <- <-]. Qed.
Next Obligation. intros h t b u b'. cbn. destruct (fp_fails t b); by intros [= <- <-]. Qed.
Next Obligation. done. Qed.

Definition fake_backend (fail : list PowerLockType) : FakePower := MkFakePower 0 ∅ ∅ fail.

Example PowerLocker_refines_counters_witness :
  objects (fake_backend []) = ∅ ∧ in_force (fake_backend []) = ∅ ∧
  ∀ t, LockCount t (run_locker [OpAcquire PowerLockType.DisplayRequired "r"]
                      (NewPowerLocker true, fake_backend [])).2.1 =
    balance t (run_locker [OpAcquire PowerLockType.DisplayRequired "r"]
                 (NewPowerLocker true, fake_backend [])).1.
Proof.
  split; [reflexivity|]. split; [reflexivity|].
  pose proof (PowerLocker_refines_counters true
    [OpAcquire PowerLockType.DisplayRequired "r"] (fake_backend []) eq_refl eq_refl) as H.
  destruct (run_locker _ _) as [log [p b']]. exact (proj1 H).
Defined.

Example PowerLocker_failure_atomic_witness :
  let t := PowerLockType.DisplayRequired in
  let out := AcquireLock t "r" (NewPowerLocker true, fake_backend [t]) in
  HasValue out.1 = false ∧ out.2.1 = NewPowerLocker true ∧
  objects out.2.2 = objects (fake_backend [t]).
Proof.
  cbn zeta. set (t := PowerLockType.DisplayRequired).
  destruct (AcquireLock t "r" (NewPowerLocker true, fake_backend [t]))
    as [r [p' b']] eqn:E.
  assert (HasValue r = false) as Hr.
  { change r with (r, (p', b')).1. rewrite <- E. reflexivity. }
  assert (locker_inv (NewPowerLocker true) (fake_backend [t])) as Hinv
    by (apply locker_inv_new; reflexivity).
  destruct (PowerLocker_failure_atomic (OpAcquire t "r") (NewPowerLocker true)
    (fake_backend [t]) r p' b' Hinv E) as [H _].
  destruct (H Hr) as (-> & _ & Ho). cbn [fst snd]. auto.
Defined.
