(* ===== verification/PowerScheme.v ===== *)
(** The active power scheme ([power/power_scheme.hpp],
    [source/power/power_scheme.cpp]) and the command that switches it
    ([RunPowerScheme] in [main.cpp]): the GUID texts, the record saved before a
    switch, switching, restoring, and recovering after an interrupted switch.
    The system is the class [PowerSchemeBackend], the virtual interface of the
    source; [RealPowerSchemeBackend] implements it over [PowrProf]. *)

From S2P Require Import Prelude CommonError Containers Paths Crash.

Open Scope string_scope.
Open Scope list_scope.
Open Scope Z_scope.

(** ** GUID texts *)

Definition kSchemeBalanced : string := "381B4222-F694-41F0-9685-FF5BB260DF2E".
Definition kSchemeHighPerformance : string := "8C5E7FDA-E8BF-4A96-9A85-A6E23A8C635C".
Definition kSchemePowerSaver : string := "A1841308-3541-4FAB-BC81-F71556F20B4A".

Definition TAB : ascii := "009"%char.

(** [ch - 'a' + 'A'] on lower-case letters. *)
Definition ascii_upper (c : ascii) : ascii :=
  if is_lower c then ascii_of_N (Z.to_N (code c - 97 + 65)) else c.

Definition guid_skipped (c : ascii) : bool :=
  Ascii.eqb c "{" || Ascii.eqb c "}" || Ascii.eqb c " " || Ascii.eqb c TAB.

Fixpoint guid_cleaned (text : string) : string :=
  match text with
  | EmptyString => EmptyString
  | String c s => if guid_skipped c then guid_cleaned s else String (ascii_upper c) (guid_cleaned s)
  end.

Definition is_hex_upper (c : ascii) : bool :=
  is_digit c || ((65 <=? code c) && (code c <=? 70)).

Definition guid_char (i : Z) (c : ascii) : bool :=
  if (i =? 8) || (i =? 13) || (i =? 18) || (i =? 23) then Ascii.eqb c "-" else is_hex_upper c.

Fixpoint guid_chars (i : Z) (s : string) : bool :=
  match s with
  | EmptyString => true
  | String c s' => if guid_char i c then guid_chars (i + 1) s' else false
  end.

Definition NormalizeSchemeGuid (text : string) : option string :=
  let cleaned := guid_cleaned text in
  if negb (strlen cleaned =? 36) then None
  else if guid_chars 0 cleaned then Some cleaned else None.

Definition fold_scheme_char (c : ascii) : ascii :=
  let lower := ascii_lower c in if Ascii.eqb lower "_" then "-"%char else lower.

Definition ResolveSchemeArgument (text : string) : option string :=
  let folded := map_chars fold_scheme_char text in
  if String.eqb folded "balanced" then Some kSchemeBalanced
  else if String.eqb folded "high-performance" || String.eqb folded "highperformance" then
    Some kSchemeHighPerformance
  else if String.eqb folded "power-saver" || String.eqb folded "powersaver"
          || String.eqb folded "saver" then Some kSchemePowerSaver
  else NormalizeSchemeGuid text.

(** ** The saved record *)

Definition kSchemeSaveEnvelope : string := "CppOptimizerPowerSchemeSave/1".

Inductive SchemeSaveState := Pending | Applied | Restored.

#[export] Instance SchemeSaveState_eq_dec : EqDecision SchemeSaveState.
Proof. solve_decision. Defined.

Definition SchemeSaveStateToString (s : SchemeSaveState) : string :=
  match s with Pending => "pending" | Applied => "applied" | Restored => "restored" end.

Definition ParseSchemeSaveState (text : string) : option SchemeSaveState :=
  if String.eqb text "pending" then Some Pending
  else if String.eqb text "applied" then Some Applied
  else if String.eqb text "restored" then Some Restored
  else None.

Record SavedSchemeRecord := MkSaved {
  savedGuid : string;
  targetGuid : option string;
  save_state : SchemeSaveState
}.

(** What the loop has read: the state, the rollback target and the target. *)
Record SavedFields := MkFields {
  seen_state : option SchemeSaveState;
  seen_saved : option string;
  seen_target : option string
}.

Definition scheme_line (f : SavedFields) (line : string) : option SavedFields :=
  match strip "state=" line with
  | Some rest =>
      match ParseSchemeSaveState rest with
      | Some st => Some (MkFields (Some st) (seen_saved f) (seen_target f))
      | None => None
      end
  | None =>
  match strip "saved=" line with
  | Some rest =>
      match NormalizeSchemeGuid rest with
      | Some g => Some (MkFields (seen_state f) (Some g) (seen_target f))
      | None => None
      end
  | None =>
  match strip "target=" line with
  | Some rest =>
      match NormalizeSchemeGuid rest with
      | Some g => Some (MkFields (seen_state f) (seen_saved f) (Some g))
      | None => None
      end
  | None => Some f
  end end end.

Fixpoint scheme_lines (f : SavedFields) (ls : list string) : option SavedFields :=
  match ls with
  | [] => Some f
  | l :: ls' =>
      match scheme_line f (drop_cr l) with
      | Some f' => scheme_lines f' ls'
      | None => None
      end
  end.

Definition ParseSavedSchemeRecord (content : string) : option SavedSchemeRecord :=
  match split_lf content with
  | first :: ls =>
      if negb (String.eqb (drop_cr first) kSchemeSaveEnvelope) then None
      else
        match scheme_lines (MkFields None None None) ls with
        | Some (MkFields (Some st) (Some saved) target) => Some (MkSaved saved target st)
        | _ => None
        end
  | [] => None
  end.

(** ** The system *)

Class PowerSchemeBackend (W : Type) := {
  GetActive : M W (Result string);
  SetActive : string → M W (Result unit)
}.

Record SchemeSwitchOutcome := MkSwitch {
  sw_previous : string; sw_target : string; sw_active : string; sw_changed : bool
}.
Record SchemeRestoreOutcome := MkRestore {
  rs_saved : string; rs_active : string; rs_restored : bool
}.
Record SwitchFlowOutcome := MkSwitchFlow {
  sf_previous : string; sf_target : string; sf_active : string;
  sf_changed : bool; sf_recordMarkedApplied : bool
}.
Record RestoreFlowOutcome := MkRestoreFlow {
  rf_saved : string; rf_active : string; rf_restored : bool; rf_recordMarkedRestored : bool
}.

Inductive SchemeRecoveryAction := RecoverNone | RestoreToSaved | MarkNeverApplied.

Definition SchemeRecoveryActionToString (a : SchemeRecoveryAction) : string :=
  match a with
  | RecoverNone => "none"
  | RestoreToSaved => "restore_to_saved"
  | MarkNeverApplied => "mark_never_applied"
  end.

Record SchemeRecoveryOutcome := MkRecovery {
  rc_action : SchemeRecoveryAction;
  rc_saved : string; rc_target : string; rc_active : string; rc_restored : bool
}.

Definition DecideSchemeRecovery (record : option SavedSchemeRecord) (activeGuid : string) :
    SchemeRecoveryAction :=
  match record with
  | None => RecoverNone
  | Some r =>
      if negb (bool_decide (save_state r = Pending)) then RecoverNone
      else match NormalizeSchemeGuid activeGuid with
           | None => RecoverNone
           | Some active =>
               if String.eqb active (savedGuid r) then MarkNeverApplied else RestoreToSaved
           end
  end.

Section Switching.
Context {W : Type} `{SystemMessages, FileSystem W, PowerSchemeBackend W}.

(** The early return of the source: a failure ends the operation. *)
Definition try {A B} (m : M W (Result A)) (k : A → M W (Result B)) : M W (Result B) :=
  r <-- m ;;
  match r with
  | Success a => k a
  | Failure e => mret (Failure e)
  end.

Definition ApplyScheme (target : string) : M W (Result SchemeSwitchOutcome) :=
  match NormalizeSchemeGuid target with
  | None => mret (Failure (Validation "ApplyScheme" "目标 GUID 形式非法"))
  | Some normalized =>
      try GetActive (λ previous,
      try (SetActive normalized) (λ _,
      try GetActive (λ active,
      mret (Success (MkSwitch previous normalized active (String.eqb active normalized))))))
  end.

Definition RestoreScheme (saved : string) : M W (Result SchemeRestoreOutcome) :=
  match NormalizeSchemeGuid saved with
  | None => mret (Failure (Validation "RestoreScheme" "保存的 GUID 形式非法"))
  | Some normalized =>
      try (SetActive normalized) (λ _,
      try GetActive (λ active,
      mret (Success (MkRestore normalized active (String.eqb active normalized)))))
  end.

Definition format_saved (state : SchemeSaveState) (saved : string) (target : option string) : string :=
  kSchemeSaveEnvelope +:+ String LF "" +:+
  "state=" +:+ SchemeSaveStateToString state +:+ String LF "" +:+
  "saved=" +:+ saved +:+ String LF "" +:+
  match target with Some t => "target=" +:+ t +:+ String LF "" | None => "" end.

Definition save_text (path text : string) : M W (Result unit) :=
  let tempPath := path +:+ ".tmp" in
  ec <-- make_parent path ;;
  if negb (ec =? 0) then
    mret (Failure (FromWin32 (u32 ec) "create_directories(power scheme save)"))
  else
    via_temp tempPath path text
      (λ w, (Failure (FromWin32 (u32 (GetLastError w)) "open power scheme save temp file"), w))
      (remove_file tempPath ;;;
       λ w, (Failure (FromWin32 (u32 (GetLastError w)) "flush power scheme save temp file"), w))
      (λ w, let code := u32 (GetLastError w) in
            (remove_file tempPath ;;;
             mret (Failure (FromWin32 code "MoveFileExW(power scheme save)"))) w)
      (Success tt).

Definition SaveSchemeRecord (path : string) (record : SavedSchemeRecord) : M W (Result unit) :=
  if string_empty path then mret (Failure (Validation "SaveSchemeRecord" "路径不能为空"))
  else match NormalizeSchemeGuid (savedGuid record) with
  | None => mret (Failure (Validation "SaveSchemeRecord" "回滚目标 GUID 形式非法"))
  | Some saved =>
      match targetGuid record with
      | None => save_text path (format_saved (save_state record) saved None)
      | Some t =>
          match NormalizeSchemeGuid t with
          | None => mret (Failure (Validation "SaveSchemeRecord" "目标 GUID 形式非法"))
          | Some target => save_text path (format_saved (save_state record) saved (Some target))
          end
      end
  end.

Definition ReadSavedSchemeRecord (path : string) (w : W) : Result (option SavedSchemeRecord) :=
  if string_empty path then Failure (Validation "ReadSavedSchemeRecord" "路径不能为空")
  else if is_directory path w then
    Failure (Validation "ReadSavedSchemeRecord" "保存路径是目录，不是文件")
  else
    let '(present, ec) := exists_file path w in
    if negb present then
      if negb (ec =? 0) then Failure (FromWin32 (u32 ec) "exists(power scheme save)")
      else Success None
    else match open_read path w with
         | None => Failure (FromWin32 (u32 (GetLastError w)) "open power scheme save")
         | Some content => Success (ParseSavedSchemeRecord content)
         end.

(** Reading changes nothing. *)
Definition read_record (path : string) : M W (Result (option SavedSchemeRecord)) :=
  λ w, (ReadSavedSchemeRecord path w, w).

Definition with_state (r : SavedSchemeRecord) (s : SchemeSaveState) : SavedSchemeRecord :=
  MkSaved (savedGuid r) (targetGuid r) s.

Definition ApplySchemeWithRecord (savePath target : string) : M W (Result SwitchFlowOutcome) :=
  match NormalizeSchemeGuid target with
  | None => mret (Failure (Validation "ApplySchemeWithRecord" "目标 GUID 形式非法"))
  | Some normalized =>
      try GetActive (λ previous,
      let pending := MkSaved previous (Some normalized) Pending in
      try (SaveSchemeRecord savePath pending) (λ _,
      try (SetActive normalized) (λ _,
      try GetActive (λ active,
      if negb (String.eqb active normalized) then
        mret (Success (MkSwitchFlow previous normalized active false false))
      else
      try (SaveSchemeRecord savePath (with_state pending Applied)) (λ _,
      mret (Success (MkSwitchFlow previous normalized active true true)))))))
  end.

Definition RestoreSchemeWithRecord (savePath : string) : M W (Result RestoreFlowOutcome) :=
  try (read_record savePath) (λ record,
  match record with
  | None =>
      mret (Failure (Validation "RestoreSchemeWithRecord" "磁盘上没有恢复依据（无可回滚目标）"))
  | Some r =>
      try (RestoreScheme (savedGuid r)) (λ o,
      if negb (rs_restored o) then
        mret (Success (MkRestoreFlow (rs_saved o) (rs_active o) false false))
      else
      try (SaveSchemeRecord savePath (with_state r Restored)) (λ _,
      mret (Success (MkRestoreFlow (rs_saved o) (rs_active o) true true))))
  end).

Definition RecoverPendingScheme (savePath : string) : M W (Result SchemeRecoveryOutcome) :=
  try (read_record savePath) (λ record,
  try GetActive (λ active,
  let saved := match record with Some r => savedGuid r | None => "" end in
  let target := match record with Some r => default "" (targetGuid r) | None => "" end in
  let action := DecideSchemeRecovery record active in
  let outcome := MkRecovery action saved target in
  match action, record with
  | MarkNeverApplied, Some r =>
      try (SaveSchemeRecord savePath (with_state r Restored)) (λ _,
      mret (Success (outcome active false)))
  | RestoreToSaved, Some r =>
      try (RestoreScheme saved) (λ o,
      if rs_restored o then
        try (SaveSchemeRecord savePath (with_state r Restored)) (λ _,
        mret (Success (outcome (rs_active o) true)))
      else mret (Success (outcome (rs_active o) false)))
  | _, _ => mret (Success (outcome active false))
  end)).

(** The switch of [--power-scheme apply], past its gates: a switch that was
    never confirmed is recovered first, and a failure to do so refuses. *)
Definition apply_recovering (savePath target : string) : M W (Result SwitchFlowOutcome) := λ w,
  match ReadSavedSchemeRecord savePath w with
  | Success (Some r) =>
      if bool_decide (save_state r = Pending) then
        try (RecoverPendingScheme savePath) (λ _, ApplySchemeWithRecord savePath target) w
      else ApplySchemeWithRecord savePath target w
  | _ => ApplySchemeWithRecord savePath target w
  end.

End Switching.

(** ** The system's own interface *)

(** [powrprof.h]: the status of a call, and GUIDs with their texts. *)
Class PowrProf (W : Type) := {
  GUID : Type;
  StringFromGUID2 : GUID → wstring;
  CLSIDFromString : wstring → option GUID;
  PowerGetActiveScheme : M W (Z * option GUID);
  PowerSetActiveScheme : GUID → M W Z
}.

Section Real.
Context {W : Type} `{SystemMessages, PowrProf W}.

Definition narrow_unit (ch : Z) : ascii :=
  let upper := if (97 <=? ch) && (ch <=? 122) then ch - 97 + 65 else ch in
  if upper <=? 127 then ascii_of_N (Z.to_N upper) else "?"%char.

(** The text without braces, in upper case. *)
Fixpoint format_units (buffer : wstring) : string :=
  match buffer with
  | [] => EmptyString
  | ch :: rest =>
      if (ch =? 123) || (ch =? 125) then format_units rest
      else String (narrow_unit ch) (format_units rest)
  end.

Definition FormatGuid (g : GUID) : string := format_units (StringFromGUID2 g).

(** The braces go back on. *)
Definition ParseGuid (text : string) : option GUID :=
  CLSIDFromString (123 :: widen text ++ [125]).

#[export] Instance RealPowerSchemeBackend : PowerSchemeBackend W := {|
  GetActive :=
    p <-- PowerGetActiveScheme ;;
    match p with
    | (status, Some active) =>
        if negb (status =? 0) then mret (Failure (FromWin32 (u32 status) "PowerGetActiveScheme"))
        else
          let text := FormatGuid active in
          if string_empty text then
            mret (Failure (Unsupported "PowerGetActiveScheme" "活动电源计划 GUID 无法格式化"))
          else mret (Success text)
    | (status, None) => mret (Failure (FromWin32 (u32 status) "PowerGetActiveScheme"))
    end;
  SetActive guid :=
    match ParseGuid guid with
    | None => mret (Failure (Validation "PowerSetActiveScheme" "电源计划 GUID 形式非法"))
    | Some parsed =>
        status <-- PowerSetActiveScheme parsed ;;
        if negb (status =? 0) then mret (Failure (FromWin32 (u32 status) "PowerSetActiveScheme"))
        else mret (Success tt)
    end
|}.
End Real.

(** * Facts *)

(** ** GUID texts *)

(** A text in the form the record keeps. *)
Definition normal_guid (s : string) : Prop := NormalizeSchemeGuid s = Some s.

Lemma guid_char_kept i c :
  guid_char i c = true → guid_skipped c = false ∧ ascii_upper c = c ∧ c ≠ LF ∧ c ≠ CR.
Proof.
  assert (is_hex_upper c = true ∨ c = "-"%char →
          guid_skipped c = false ∧ ascii_upper c = c ∧ c ≠ LF ∧ c ≠ CR) as Hc.
  { destruct c as [[] [] [] [] [] [] [] []]; intros [H|H]; first [discriminate H|done]. }
  unfold guid_char. destruct (_ || _); [rewrite Ascii.eqb_eq|]; auto.
Qed.

Lemma guid_cleaned_chars i s : guid_chars i s = true → guid_cleaned s = s.
Proof.
  revert i. induction s as [|c s IH]; intros i; cbn; [done|].
  destruct (guid_char i c) eqn:E; [|done]. intros Hs.
  destruct (guid_char_kept i c E) as (-> & -> & _). by rewrite (IH _ Hs).
Qed.

Lemma guid_chars_lacks i s :
  guid_chars i s = true → no_lf s = true ∧ all_chars (λ c, negb (Ascii.eqb CR c)) s = true.
Proof.
  unfold no_lf. revert i. induction s as [|c s IH]; intros i; cbn [guid_chars all_chars]; [done|].
  destruct (guid_char i c) eqn:E; [|done]. intros Hs.
  destruct (guid_char_kept i c E) as (_ & _ & H1 & H2). destruct (IH _ Hs) as [I1 I2].
  split; apply andb_true_iff; (split; [apply negb_true_iff, Ascii.eqb_neq; congruence|done]).
Qed.

Lemma NormalizeSchemeGuid_inv t g :
  NormalizeSchemeGuid t = Some g → strlen g = 36 ∧ guid_chars 0 g = true.
Proof.
  unfold NormalizeSchemeGuid. destruct (negb _) eqn:E; [done|].
  destruct (guid_chars 0 _) eqn:Hc; [|done]. intros [= <-]. b2p. done.
Qed.

Lemma normal_guid_iff g : normal_guid g ↔ strlen g = 36 ∧ guid_chars 0 g = true.
Proof.
  split; [apply NormalizeSchemeGuid_inv|]. intros [Hl Hc].
  unfold normal_guid, NormalizeSchemeGuid. rewrite (guid_cleaned_chars _ _ Hc), Hc.
  by rewrite (proj2 (Z.eqb_eq _ _) Hl).
Qed.

(** Normalizing twice is normalizing once. *)
Lemma NormalizeSchemeGuid_normal t g : NormalizeSchemeGuid t = Some g → normal_guid g.
Proof. rewrite normal_guid_iff. apply NormalizeSchemeGuid_inv. Qed.

Lemma ResolveSchemeArgument_normal t g : ResolveSchemeArgument t = Some g → normal_guid g.
Proof.
  unfold ResolveSchemeArgument. repeat (destruct (_ : bool); [by intros [= <-]|]).
  apply NormalizeSchemeGuid_normal.
Qed.

(** ** The record's text *)

Lemma ParseSchemeSaveState_ToString s : ParseSchemeSaveState (SchemeSaveStateToString s) = Some s.
Proof. by destruct s. Qed.

Definition saved_lines (state : SchemeSaveState) (saved : string) (target : option string) :
    list string :=
  [kSchemeSaveEnvelope; "state=" +:+ SchemeSaveStateToString state; "saved=" +:+ saved] ++
  match target with Some t => ["target=" +:+ t] | None => [] end.

(** What is saved is read back: the state, the rollback target and the target. *)
Lemma ParseSavedSchemeRecord_format state saved target :
  normal_guid saved → (∀ t, target = Some t → normal_guid t) →
  ParseSavedSchemeRecord (format_saved state saved target) = Some (MkSaved saved target state).
Proof.
  intros Hs Ht.
  assert (format_saved state saved target = unlines (saved_lines state saved target)) as ->.
  { unfold format_saved, saved_lines. destruct target; cbn [unlines app];
      by rewrite ?string_app_assoc. }
  pose proof (proj2 (proj1 (normal_guid_iff _) Hs)) as Hgs.
  destruct (guid_chars_lacks _ _ Hgs) as [Ls1 Ls2].
  assert (∀ t, target = Some t → no_lf t = true ∧ all_chars (λ c, negb (Ascii.eqb CR c)) t = true) as Lt.
  { intros t E. eapply guid_chars_lacks, (proj1 (normal_guid_iff t)), Ht, E. }
  unfold ParseSavedSchemeRecord. rewrite split_lf_unlines.
  2: { unfold saved_lines, no_lf in *. destruct target as [t|]; cbn [app forallb];
       [destruct (Lt t eq_refl) as [Lt1 _]|]; rewrite !all_chars_app, Ls1, ?Lt1; by destruct state. }
  unfold saved_lines. cbn [app scheme_lines]. rewrite (drop_cr_id kSchemeSaveEnvelope) by done.
  rewrite String.eqb_refl. cbn [negb]. rewrite drop_cr_id by by destruct state.
  unfold scheme_line at 1. rewrite strip_app, ParseSchemeSaveState_ToString.
  rewrite drop_cr_id by done. unfold scheme_line at 1.
  change (strip "state=" ("saved=" +:+ saved)) with (@None string). cbn iota.
  rewrite strip_app, Hs. destruct target as [t|]; [|done]. cbn [app scheme_lines].
  destruct (Lt t eq_refl) as [_ Lt2]. rewrite drop_cr_id by done. unfold scheme_line at 1.
  change (strip "state=" ("target=" +:+ t)) with (@None string). cbn iota.
  change (strip "saved=" ("target=" +:+ t)) with (@None string). cbn iota.
  by rewrite strip_app, (Ht t eq_refl).
Qed.

(** Whatever is read is in normal form. *)
Definition fields_normal (f : SavedFields) : Prop :=
  (∀ g, seen_saved f = Some g → normal_guid g) ∧ (∀ g, seen_target f = Some g → normal_guid g).

Lemma scheme_line_normal f l f' : fields_normal f → scheme_line f l = Some f' → fields_normal f'.
Proof.
  unfold scheme_line, fields_normal. intros [H1 H2].
  destruct (strip "state=" l) as [rest|].
  { destruct (ParseSchemeSaveState rest); [by intros [= <-]|done]. }
  destruct (strip "saved=" l) as [rest|].
  { destruct (NormalizeSchemeGuid rest) eqn:E; [|done]. intros [= <-]. split; cbn; [|done].
    intros g [= <-]. by eapply NormalizeSchemeGuid_normal. }
  destruct (strip "target=" l) as [rest|]; [|by intros [= <-]].
  destruct (NormalizeSchemeGuid rest) eqn:E; [|done]. intros [= <-]. split; cbn; [done|].
  intros g [= <-]. by eapply NormalizeSchemeGuid_normal.
Qed.

Lemma scheme_lines_normal ls f f' :
  fields_normal f → scheme_lines f ls = Some f' → fields_normal f'.
Proof.
  revert f. induction ls as [|l ls IH]; intros f Hf; cbn; [by intros [= <-]|].
  destruct (scheme_line f (drop_cr l)) as [f1|] eqn:E; [|done].
  apply IH. by eapply scheme_line_normal.
Qed.

Lemma ParseSavedSchemeRecord_normal content r :
  ParseSavedSchemeRecord content = Some r →
  normal_guid (savedGuid r) ∧ ∀ t, targetGuid r = Some t → normal_guid t.
Proof.
  unfold ParseSavedSchemeRecord. destruct (split_lf content) as [|first ls]; [done|].
  destruct (negb _); [done|]. destruct (scheme_lines _ ls) as [f|] eqn:E; [|done].
  apply scheme_lines_normal in E; [|by split].
  destruct f as [[st|] [s|] t]; [|done..]. intros [= <-]. destruct E as [H1 H2]. cbn in *. auto.
Qed.

(** ** The system's laws *)

(** What the code relies on: the active scheme has a GUID in normal form, a
    query that answers answers it, a switch makes its argument active or leaves
    the active scheme alone, whatever it answers (the code reads back what it
    set), and neither touches files, nor do file operations touch the scheme. *)
Class PowerSchemeLaws (W : Type) `{FileSystemLaws W} `{!PowerSchemeBackend W} := {
  active : W → string;
  active_normal : ∀ w, normal_guid (active w);
  get_active : ∀ w g w', GetActive w = (Success g, w') → g = active w;
  get_active_same : ∀ w, active (GetActive w).2 = active w;
  get_active_file : ∀ p w, file p (GetActive w).2 = file p w;
  set_active : ∀ g w, normal_guid g →
    active (SetActive g w).2 = g ∨ active (SetActive g w).2 = active w;
  set_active_file : ∀ p g w, file p (SetActive g w).2 = file p w;
  active_create_directories : ∀ p w, active (create_directories p w).2 = active w;
  active_write_trunc : ∀ p t w, active (write_trunc p t w).2 = active w;
  active_move : ∀ p q w, active (MoveFileExW p q w).2 = active w;
  active_remove : ∀ p w, active (remove_file p w).2 = active w
}.

(** What stopping halfway must not lose: the scheme recovery would go to. *)
Section Safe.
Context {W : Type} `{SystemMessages} `{PowerSchemeLaws W}.
Variable path : string.

Definition saved_record (w : W) : option SavedSchemeRecord :=
  match file path w with Some text => ParseSavedSchemeRecord text | None => None end.

Definition is_pending (w : W) : bool :=
  match saved_record w with Some r => bool_decide (save_state r = Pending) | None => false end.

(** The scheme the user is owed: the saved one while a switch is unconfirmed. *)
Definition safe_scheme (w : W) : string :=
  match saved_record w with
  | Some r => if bool_decide (save_state r = Pending) then savedGuid r else active w
  | None => active w
  end.

Lemma safe_scheme_same w w' :
  file path w' = file path w → active w' = active w →
  safe_scheme w' = safe_scheme w ∧ is_pending w' = is_pending w.
Proof. intros Hf Ha. unfold safe_scheme, is_pending, saved_record. by rewrite Hf, Ha. Qed.

Lemma safe_not_pending w : is_pending w = false → safe_scheme w = active w.
Proof.
  unfold is_pending, safe_scheme. destruct (saved_record w) as [r|]; [|done].
  by destruct (bool_decide _).
Qed.

(** Saving: the record is there, or the file is as it was. *)
Lemma save_text_spec text w res w' :
  save_text path text w = (res, w') →
  active w' = active w ∧
  ((res = Success tt ∧ file path w' = Some text) ∨
   ((∃ e, res = Failure e) ∧ file path w' = file path w)).
Proof.
  unfold save_text, mthen at 1.
  assert (active (make_parent path w).2 = active w) as Ha.
  { unfold make_parent. destruct (string_empty _); [done|]. apply active_create_directories. }
  pose proof (make_parent_file path path w) as Hf.
  destruct (make_parent path w) as [ec w1]. cbn in Ha, Hf. intros E.
  destruct (negb (ec =? 0)); [injection E as <- <-; eauto|].
  split.
  - rewrite <- Ha. unfold via_temp, mthen, mret in E.
    pose proof (active_write_trunc (path +:+ ".tmp") text w1) as K1.
    destruct (write_trunc _ _ w1) as [[] w2]; cbn in K1.
    + pose proof (active_move (path +:+ ".tmp") path w2) as K2.
      destruct (MoveFileExW _ _ w2) as [[] w3]; cbn in K2; [simplify_eq/=; congruence|].
      cbn in E. pose proof (active_remove (path +:+ ".tmp") w3) as K3.
      destruct (remove_file _ w3) as [[] w4]; cbn in K3. simplify_eq. congruence.
    + simplify_eq/=. congruence.
    + pose proof (active_remove (path +:+ ".tmp") w2) as K3.
      destruct (remove_file _ w2) as [[] w4]; cbn in K3. simplify_eq. congruence.
  - eapply (via_temp_atomic (λ r, ∃ e, r = Failure e)) in E as [_ E];
      [by rewrite Hf in E|by apply tmp_path_ne|..].
    + apply only_touches_ret. eauto.
    + apply only_touches_remove. intros w2. apply only_touches_ret. eauto.
    + intros w2. apply (only_touches_remove _ _ (λ w3, mret (Failure _))).
      intros w3. apply (only_touches_ret _ _ (λ _, Failure _)). eauto.
Qed.

Lemma SaveSchemeRecord_spec r w res w' :
  normal_guid (savedGuid r) → (∀ t, targetGuid r = Some t → normal_guid t) →
  SaveSchemeRecord path r w = (res, w') →
  active w' = active w ∧
  ((res = Success tt ∧ saved_record w' = Some r) ∨
   ((∃ e, res = Failure e) ∧ file path w' = file path w)).
Proof.
  intros Hs Ht. unfold SaveSchemeRecord, saved_record.
  destruct (string_empty path); [intros [= <- <-]; eauto 6|]. rewrite Hs.
  destruct r as [saved [t|] st]; cbn [savedGuid targetGuid save_state] in *.
  - rewrite (Ht t eq_refl). intros E. destruct (save_text_spec _ _ _ _ E) as [Ha [[-> Hf]|Hf]];
      (split; [done|]); [left|by right]. rewrite Hf. split; [done|].
    by apply ParseSavedSchemeRecord_format.
  - intros E. destruct (save_text_spec _ _ _ _ E) as [Ha [[-> Hf]|Hf]];
      (split; [done|]); [left|by right]. rewrite Hf. split; [done|].
    by apply ParseSavedSchemeRecord_format.
Qed.

Lemma ReadSavedSchemeRecord_spec w r :
  ReadSavedSchemeRecord path w = Success r → saved_record w = r.
Proof.
  unfold ReadSavedSchemeRecord, saved_record. destruct (string_empty path); [done|].
  destruct (is_directory path w); [done|]. destruct (exists_file path w) as [[] ec] eqn:E; cbn [negb].
  - destruct (open_read path w) as [t|] eqn:Ho; [|done]. intros [= <-].
    by rewrite (open_read_file _ _ _ Ho).
  - destruct (Z.eqb_spec ec 0) as [->|]; [|done]. intros [= <-].
    by rewrite (exists_file_none _ _ E).
Qed.

Lemma GetActive_spec w res w' :
  GetActive w = (res, w') →
  active w' = active w ∧ file path w' = file path w ∧ ∀ g, res = Success g → g = active w.
Proof.
  intros E. pose proof (get_active_same w) as K1. pose proof (get_active_file path w) as K2.
  rewrite E in K1, K2. split_and!; [done..|]. intros g ->. by eapply get_active.
Qed.

Lemma SetActive_spec g w res w' :
  normal_guid g → SetActive g w = (res, w') →
  file path w' = file path w ∧ (active w' = g ∨ active w' = active w).
Proof.
  intros Hg E. pose proof (set_active_file path g w) as Hf. pose proof (set_active g w Hg) as Ha.
  by rewrite E in Hf, Ha.
Qed.

Lemma try_inv {A B} (m : M W (Result A)) (k : A → M W (Result B)) w r w' :
  try m k w = (r, w') →
  (∃ a w1, m w = (Success a, w1) ∧ k a w1 = (r, w')) ∨ (∃ e, m w = (Failure e, w') ∧ r = Failure e).
Proof.
  unfold try, mthen. destruct (m w) as [[a|e] w1]; [left; by eexists _, _|].
  intros [= <- <-]. right. by eexists.
Qed.

(** Restoring reports whether the saved scheme is the active one. *)
Lemma RestoreScheme_spec g w r w' :
  normal_guid g → RestoreScheme g w = (r, w') →
  file path w' = file path w ∧
  ∀ o, r = Success o → o = MkRestore g (active w') (String.eqb (active w') g).
Proof.
  intros Hg. unfold RestoreScheme. rewrite Hg.
  intros [([] & w1 & E1 & E)|(e & E1 & ->)]%try_inv;
    destruct (SetActive_spec _ _ _ _ Hg E1) as [Hf1 _]; [|done].
  apply try_inv in E as [(g' & w2 & E2 & E)|(e & E2 & ->)];
    destruct (GetActive_spec _ _ _ E2) as (Ha2 & Hf2 & Hg2); [|by rewrite Hf2].
  injection E as <- <-. rewrite Hf2. split; [done|]. intros o [= <-]. by rewrite (Hg2 _ eq_refl), Ha2.
Qed.

Lemma saved_record_normal w r :
  saved_record w = Some r → normal_guid (savedGuid r) ∧ ∀ t, targetGuid r = Some t → normal_guid t.
Proof.
  unfold saved_record. destruct (file path w); [|done]. apply ParseSavedSchemeRecord_normal.
Qed.

Lemma save_with_state r st w res w' :
  saved_record w = Some r → SaveSchemeRecord path (with_state r st) w = (res, w') →
  active w' = active w ∧
  ((res = Success tt ∧ saved_record w' = Some (with_state r st)) ∨
   ((∃ e, res = Failure e) ∧ file path w' = file path w)).
Proof. intros [H3 H4]%saved_record_normal. by apply SaveSchemeRecord_spec. Qed.

(** A rollback that was made but reads back as another scheme. *)
Definition unverified (r : Result SchemeRecoveryOutcome) : bool :=
  match r with
  | Success o => match rc_action o with RestoreToSaved => negb (rc_restored o) | _ => false end
  | Failure _ => false
  end.

(** Recovering reaches the scheme the user is owed and leaves no
    unconfirmed switch; when it fails, or says that the rollback reads back as
    another scheme, it can be tried again: what is owed has not changed. *)
Lemma RecoverPendingScheme_spec w r w' :
  RecoverPendingScheme path w = (r, w') →
  match r with
  | Success o =>
      if unverified r then safe_scheme w' = safe_scheme w
      else active w' = safe_scheme w ∧ is_pending w' = false
  | Failure _ => safe_scheme w' = safe_scheme w
  end.
Proof.
  unfold RecoverPendingScheme.
  intros [(record & w1 & E1 & E)|(e & E1 & ->)]%try_inv; unfold read_record in E1;
    injection E1 as Hr <-; [|done]. apply ReadSavedSchemeRecord_spec in Hr.
  apply try_inv in E as [(g & w2 & E2 & E)|(e & E2 & ->)];
    destruct (GetActive_spec _ _ _ E2) as (Ha2 & Hf2 & Hg2);
    destruct (safe_scheme_same _ _ Hf2 Ha2) as [Hs2 Hp2]; [|done].
  rewrite (Hg2 _ eq_refl) in E. clear Hg2.
  assert (saved_record w2 = record) as Hr2 by (unfold saved_record in *; by rewrite Hf2).
  destruct record as [rec|]; cbn [DecideSchemeRecovery] in E.
  2: { injection E as <- <-. unfold safe_scheme, is_pending. by rewrite Hr, Hr2. }
  assert (safe_scheme w = if bool_decide (save_state rec = Pending) then savedGuid rec else active w)
    as -> by (unfold safe_scheme; by rewrite Hr).
  destruct (decide (save_state rec = Pending)) as [Hp|Hp].
  2: { rewrite bool_decide_eq_false_2 in E |- * by done. injection E as <- <-.
       unfold is_pending. by rewrite Hr2, bool_decide_eq_false_2. }
  rewrite bool_decide_eq_true_2 in E |- * by done. cbn [negb] in E.
  rewrite (active_normal w) in E. destruct (saved_record_normal _ _ Hr) as [Hn _].
  assert (∀ w3, saved_record w3 = Some (with_state rec Restored) → is_pending w3 = false) as Hdone.
  { intros w3 H3. unfold is_pending. by rewrite H3. }
  assert (∀ w3, file path w3 = file path w2 → safe_scheme w3 = savedGuid rec) as Howed.
  { intros w3 H3. unfold safe_scheme, saved_record in *. by rewrite H3, Hr2, bool_decide_eq_true_2. }
  destruct (String.eqb_spec (active w) (savedGuid rec)) as [Heq|_].
  - apply try_inv in E as [([] & w3 & E3 & E)|(e & E3 & ->)];
      destruct (save_with_state _ _ _ _ _ Hr2 E3) as [Ha3 [[? H3]|[[? ?] H3]]];
      try discriminate; [|by apply Howed].
    injection E as <- <-. split; [congruence|auto].
  - apply try_inv in E as [(o & w3 & E3 & E)|(e & E3 & ->)];
      destruct (RestoreScheme_spec _ _ _ _ Hn E3) as [H3 H4]; [|by apply Howed].
    rewrite (H4 _ eq_refl) in E. cbn [rs_restored] in E.
    destruct (String.eqb_spec (active w3) (savedGuid rec)) as [Ha3|_]; [|injection E as <- <-; by apply Howed].
    assert (saved_record w3 = Some rec) as Hr3 by (unfold saved_record in *; by rewrite H3).
    apply try_inv in E as [([] & w4 & E4 & E)|(e & E4 & ->)];
      destruct (save_with_state _ _ _ _ _ Hr3 E4) as [Ha4 [[? H5]|[[? ?] H5]]]; try discriminate.
    + injection E as <- <-. split; [congruence|auto].
    + apply Howed. congruence.
Qed.

(** A switch: confirmed and recorded, or what was active is what is owed,
    also when the switch reads back as another scheme. *)
Lemma ApplySchemeWithRecord_outcome target t w r w' :
  NormalizeSchemeGuid target = Some t → ApplySchemeWithRecord path target w = (r, w') →
  match r with
  | Success o =>
      if sf_changed o then
        active w' = t ∧ saved_record w' = Some (MkSaved (active w) (Some t) Applied)
      else saved_record w' = Some (MkSaved (active w) (Some t) Pending)
  | Failure _ => safe_scheme w' = active w ∨ safe_scheme w' = safe_scheme w
  end.
Proof.
  intros Ht. pose proof (NormalizeSchemeGuid_normal _ _ Ht) as Hn.
  unfold ApplySchemeWithRecord. rewrite Ht.
  intros [(g & w1 & E1 & E)|(e & E1 & ->)]%try_inv;
    destruct (GetActive_spec _ _ _ E1) as (Ha1 & Hf1 & Hg1);
    [|right; by apply safe_scheme_same].
  rewrite (Hg1 _ eq_refl) in E. clear Hg1 E1.
  assert (∀ st w res w', SaveSchemeRecord path (MkSaved (active w1) (Some t) st) w = (res, w') →
    active w' = active w ∧
    ((res = Success tt ∧ saved_record w' = Some (MkSaved (active w1) (Some t) st)) ∨
     ((∃ e, res = Failure e) ∧ file path w' = file path w))) as Hsave.
  { intros. eapply SaveSchemeRecord_spec; [apply active_normal|by intros ? [= <-]|done]. }
  rewrite <- Ha1 in E |- *.
  apply try_inv in E as [([] & w2 & E2 & E)|(e & E2 & ->)];
    destruct (Hsave _ _ _ _ E2) as [Ha2 [[? Hr2]|[[? ?] Hf2]]]; try discriminate.
  2: { right. apply safe_scheme_same; congruence. }
  assert (∀ w3, file path w3 = file path w2 → safe_scheme w3 = active w1) as Howed.
  { intros w3 Hf. unfold safe_scheme, saved_record in *. by rewrite Hf, Hr2. }
  apply try_inv in E as [([] & w3 & E3 & E)|(e & E3 & ->)];
    destruct (SetActive_spec _ _ _ _ Hn E3) as [Hf3 _]; [|auto].
  apply try_inv in E as [(g4 & w4 & E4 & E)|(e & E4 & ->)];
    destruct (GetActive_spec _ _ _ E4) as (Ha4 & Hf4 & Hg4); [|left; apply Howed; congruence].
  rewrite (Hg4 _ eq_refl) in E. destruct (String.eqb_spec (active w3) t) as [Ha3|_]; cbn [negb] in E.
  2: { injection E as <- <-. cbn [sf_changed]. unfold saved_record in *. by rewrite Hf4, Hf3. }
  apply try_inv in E as [([] & w5 & E5 & E)|(e & E5 & ->)];
    destruct (Hsave _ _ _ _ E5) as [Ha5 [[? Hr5]|[[? ?] Hf5]]]; try discriminate.
  - injection E as <- <-. split_and!; congruence.
  - left. apply Howed. congruence.
Qed.

(** The apply command is a transaction: it ends with the target active
    and, on record, the scheme the user was owed before as the one to go back
    to; or it fails, wherever and for whatever reason, or reads back another
    scheme, and what is owed is what was owed before. This needs the old record
    to be readable and the rollback of an old switch to have taken effect. *)
Lemma apply_recovering_safe target t x w r w' :
  NormalizeSchemeGuid target = Some t → ReadSavedSchemeRecord path w = Success x →
  unverified (RecoverPendingScheme path w).1 = false →
  apply_recovering path target w = (r, w') →
  match r with
  | Success o =>
      if sf_changed o then
        active w' = t ∧ saved_record w' = Some (MkSaved (safe_scheme w) (Some t) Applied)
      else safe_scheme w' = safe_scheme w
  | Failure _ => safe_scheme w' = safe_scheme w
  end.
Proof.
  intros Ht Hx Hv. pose proof (ReadSavedSchemeRecord_spec _ _ Hx) as Hrec.
  assert (∀ w r w', safe_scheme w = active w → ApplySchemeWithRecord path target w = (r, w') →
    match r with
    | Success o =>
        if sf_changed o then
          active w' = t ∧ saved_record w' = Some (MkSaved (safe_scheme w) (Some t) Applied)
        else safe_scheme w' = safe_scheme w
    | Failure _ => safe_scheme w' = safe_scheme w
    end) as Happly.
  { intros w0 r0 w0' Hs E. pose proof (ApplySchemeWithRecord_outcome _ _ _ _ _ Ht E) as Ho.
    rewrite Hs. destruct r0 as [o|e]; [|destruct Ho; congruence].
    destruct (sf_changed o); [done|]. unfold safe_scheme. by rewrite Ho. }
  unfold apply_recovering. rewrite Hx.
  assert (is_pending w = false → safe_scheme w = active w) as Hnp by apply safe_not_pending.
  unfold is_pending in Hnp. rewrite Hrec in Hnp. destruct x as [rec|]; [|by apply Happly, Hnp].
  destruct (bool_decide _); [|by apply Happly, Hnp]. clear Hnp.
  intros [(o & w1 & E1 & E)|(e & E1 & ->)]%try_inv;
    pose proof (RecoverPendingScheme_spec _ _ _ E1) as Hs; [|done].
  rewrite E1 in Hv. cbn [fst] in Hv. rewrite Hv in Hs.
  destruct Hs as [Ha Hp]. apply safe_not_pending in Hp. rewrite <- Ha, <- Hp.
  by apply Happly.
Qed.

(** A record that cannot be read is not a pending one to the apply command: a
    switch that succeeds then forgets what was owed, keeping what is active. *)
Lemma apply_unreadable_forgets target t e w o w' :
  NormalizeSchemeGuid target = Some t → ReadSavedSchemeRecord path w = Failure e →
  apply_recovering path target w = (Success o, w') → sf_changed o = true →
  saved_record w' = Some (MkSaved (active w) (Some t) Applied).
Proof.
  intros Ht Hr. unfold apply_recovering. rewrite Hr. intros E Ho.
  pose proof (ApplySchemeWithRecord_outcome _ _ _ _ _ Ht E) as H3. cbn in H3.
  rewrite Ho in H3. apply H3.
Qed.

End Safe.

(** ** Dying in the middle of a switch *)

Section Interrupted.
Context {W : Type} `{SystemMessages} `{PowerSchemeLaws W}.

(** A dead machine answers no query and switches nothing. *)
Definition died : Error := Unsupported "" "".

#[export] Instance dying_scheme : PowerSchemeBackend (Dying W) := {|
  GetActive := unless_dead (Failure died) GetActive;
  SetActive g := unless_dead (Failure died) (SetActive g)
|}.

Lemma unless_dead_active {A} (dead : A) (m : M W A) d :
  active (m d.2).2 = active d.2 → active (unless_dead dead m d).2.2 = active d.2.
Proof. destruct d as [[|n] w]; cbn; [done|]. by destruct (m w). Qed.

#[export] Program Instance dying_scheme_laws : PowerSchemeLaws (Dying W) := {|
  active d := active d.2
|}.
Next Obligation. intros d. apply active_normal. Qed.
Next Obligation.
  intros [n w] g d' [(_ & ? & _)|(n' & w' & _ & E & ->)]%unless_dead_cases; [done|].
  by eapply get_active.
Qed.
Next Obligation. intros d. apply unless_dead_active, get_active_same. Qed.
Next Obligation. intros p d. apply unless_dead_file, get_active_file. Qed.
Next Obligation.
  intros g [[|n] w] Hg; cbn; [by right|]. pose proof (set_active g w Hg).
  by destruct (SetActive g w).
Qed.
Next Obligation. intros p g d. apply unless_dead_file, set_active_file. Qed.
Next Obligation. intros p d. apply unless_dead_active, active_create_directories. Qed.
Next Obligation. intros p t d. apply unless_dead_active, active_write_trunc. Qed.
Next Obligation. intros p q d. apply unless_dead_active, active_move. Qed.
Next Obligation. intros p d. apply unless_dead_active, active_remove. Qed.

(** C8. A switch survives a crash, when the record of the last switch could be
    read and the rollback of a switch that was still pending, if the command
    made one, read back as it should. Let the process or the machine die after
    any number of operations of the apply command, and let the setting of a
    scheme take effect or not whatever it answers; once a recovery in the world
    that is left answers and its own rollback, if it made one, read back, the
    active scheme is the one the user was owed before the switch, or the switch
    had been confirmed and recorded. *)
Theorem interrupted_switch_recovers path target t x n w r m w1 o w2 :
  NormalizeSchemeGuid target = Some t → ReadSavedSchemeRecord path w = Success x →
  unverified (RecoverPendingScheme path ((n, w) : Dying W)).1 = false →
  apply_recovering path target ((n, w) : Dying W) = (r, (m, w1)) →
  RecoverPendingScheme path w1 = (Success o, w2) → unverified (Success o) = false →
  active w2 = safe_scheme path w ∨
  (active w2 = t ∧ saved_record path w1 = Some (MkSaved (safe_scheme path w) (Some t) Applied)).
Proof.
  intros Ht Hx Hv Hrun Hrec Ho. pose proof (RecoverPendingScheme_spec path _ _ _ Hrec) as H3.
  cbn iota in H3. rewrite Ho in H3. destruct H3 as [-> _].
  pose proof (apply_recovering_safe path target t x ((n, w) : Dying W) r (m, w1) Ht Hx Hv Hrun) as Hs.
  destruct r as [flow|e]; [|left; exact Hs].
  destruct (sf_changed flow); [right|left; exact Hs].
  destruct Hs as [Ha Hr]. split; [|exact Hr].
  unfold safe_scheme. cbn in Hr. unfold saved_record in Hr |- *. cbn in Hr. rewrite Hr. exact Ha.
Qed.

End Interrupted.

(** ** The real backend keeps its promise *)

(** [StringFromGUID2] writes braces around a GUID in normal form, which
    [CLSIDFromString] reads back; setting a scheme makes it the active one or
    leaves the active one alone. *)
Class PowrProfLaws (W : Type) `{FileSystemLaws W} `{!PowrProf W} := {
  active_guid : W → GUID;
  guid_text : ∀ g, ∃ t, normal_guid t ∧ StringFromGUID2 g = 123 :: widen t ++ [125];
  guid_read : ∀ g t, normal_guid t → CLSIDFromString (123 :: widen t ++ [125]) = Some g →
    StringFromGUID2 g = 123 :: widen t ++ [125];
  get_scheme : ∀ w s g w', PowerGetActiveScheme w = ((s, Some g), w') → g = active_guid w;
  get_scheme_same : ∀ w, active_guid (PowerGetActiveScheme w).2 = active_guid w;
  get_scheme_file : ∀ p w, file p (PowerGetActiveScheme w).2 = file p w;
  set_scheme : ∀ g w, active_guid (PowerSetActiveScheme g w).2 = g ∨
    active_guid (PowerSetActiveScheme g w).2 = active_guid w;
  set_scheme_file : ∀ p g w, file p (PowerSetActiveScheme g w).2 = file p w;
  scheme_create_directories : ∀ p w, active_guid (create_directories p w).2 = active_guid w;
  scheme_write_trunc : ∀ p t w, active_guid (write_trunc p t w).2 = active_guid w;
  scheme_move : ∀ p q w, active_guid (MoveFileExW p q w).2 = active_guid w;
  scheme_remove : ∀ p w, active_guid (remove_file p w).2 = active_guid w
}.

Lemma guid_char_units i c :
  guid_char i c = true →
  (widen_char c =? 123) = false ∧ (widen_char c =? 125) = false ∧ narrow_unit (widen_char c) = c.
Proof.
  assert (is_hex_upper c = true ∨ c = "-"%char →
          (widen_char c =? 123) = false ∧ (widen_char c =? 125) = false ∧
          narrow_unit (widen_char c) = c) as Hc.
  { destruct c as [[] [] [] [] [] [] [] []]; intros [H|H]; first [discriminate H|done]. }
  unfold guid_char. destruct (_ || _); [rewrite Ascii.eqb_eq|]; auto.
Qed.

Lemma format_units_guid i t rest :
  guid_chars i t = true → format_units (widen t ++ rest) = t +:+ format_units rest.
Proof.
  revert i. induction t as [|c t IH]; intros i; [done|].
  cbn [guid_chars]. destruct (guid_char i c) eqn:E; [|done]. intros Ht.
  destruct (guid_char_units _ _ E) as (H1 & H2 & H3).
  change (widen (String c t) ++ rest) with (widen_char c :: (widen t ++ rest)).
  cbn [format_units]. rewrite H1, H2, H3. cbn. by rewrite (IH _ Ht).
Qed.

Lemma format_units_braces t : normal_guid t → format_units (123 :: widen t ++ [125]) = t.
Proof.
  intros [_ Ht]%normal_guid_iff. change (format_units (123 :: widen t ++ [125])) with
    (format_units (widen t ++ [125])).
  rewrite (format_units_guid _ _ _ Ht). apply string_app_nil_r.
Qed.

Section RealLaws.
Context {W : Type} `{SystemMessages} `{PowrProfLaws W}.

Lemma FormatGuid_normal g : normal_guid (FormatGuid g).
Proof.
  unfold FormatGuid. destruct (guid_text g) as (t & Ht & ->). by rewrite format_units_braces.
Qed.

(** Both texts of a GUID are one: setting what was read sets the same scheme. *)
Lemma ParseGuid_FormatGuid t g : normal_guid t → ParseGuid t = Some g → FormatGuid g = t.
Proof.
  unfold ParseGuid, FormatGuid. intros Ht Hg. rewrite (guid_read _ _ Ht Hg).
  by apply format_units_braces.
Qed.

#[export] Program Instance real_scheme_laws : PowerSchemeLaws W := {|
  active w := FormatGuid (active_guid w)
|}.
Next Obligation. intros w. apply FormatGuid_normal. Qed.
Next Obligation.
  intros w g w'. cbn. unfold mthen. destruct (PowerGetActiveScheme w) as [[s [a|]] w1] eqn:E; [|done].
  destruct (negb _); [done|]. destruct (string_empty _); [done|]. intros [= <- <-].
  by rewrite (get_scheme _ _ _ _ E).
Qed.
Next Obligation.
  intros w. cbn. unfold mthen. pose proof (get_scheme_same w) as Hs.
  destruct (PowerGetActiveScheme w) as [[s [a|]] w1]; [destruct (negb _); [|destruct (string_empty _)]|];
    cbn in *; by rewrite Hs.
Qed.
Next Obligation.
  intros p w. cbn. unfold mthen. pose proof (get_scheme_file p w) as Hs.
  destruct (PowerGetActiveScheme w) as [[s [a|]] w1]; [destruct (negb _); [|destruct (string_empty _)]|];
    cbn in *; by rewrite Hs.
Qed.
Next Obligation.
  intros g w Hg. cbn. destruct (ParseGuid g) as [parsed|] eqn:Ep; [|by right]. unfold mthen.
  pose proof (set_scheme parsed w) as Hs. destruct (PowerSetActiveScheme parsed w) as [s w1].
  apply (ParseGuid_FormatGuid _ _ Hg) in Ep.
  destruct (negb _); cbn in *; destruct Hs as [->| ->]; auto.
Qed.
Next Obligation.
  intros p g w. cbn. destruct (ParseGuid g) as [parsed|]; [|done]. unfold mthen.
  pose proof (set_scheme_file p parsed w) as Hs.
  destruct (PowerSetActiveScheme parsed w) as [s w1]. by destruct (negb _).
Qed.
Next Obligation. intros p w. cbn. by rewrite scheme_create_directories. Qed.
Next Obligation. intros p t w. cbn. by rewrite scheme_write_trunc. Qed.
Next Obligation. intros p q w. cbn. by rewrite scheme_move. Qed.
Next Obligation. intros p w. cbn. by rewrite scheme_remove. Qed.
End RealLaws.

(** ** A desk: files and an active scheme *)

Definition as_guid (s : string) : string := default kSchemeBalanced (NormalizeSchemeGuid s).

Lemma as_guid_normal s : normal_guid (as_guid s).
Proof.
  unfold as_guid. destruct (NormalizeSchemeGuid s) eqn:E; [|done].
  by eapply NormalizeSchemeGuid_normal.
Qed.

Definition Desk : Type := MemFs * string.

#[export] Instance desk_scheme : PowerSchemeBackend Desk := {|
  GetActive := λ d, (Success (as_guid d.2), d);
  SetActive g := λ d, (Success tt, (d.1, g))
|}.

#[export] Program Instance desk_scheme_laws : PowerSchemeLaws Desk := {|
  active d := as_guid d.2
|}.
Next Obligation. intros d. apply as_guid_normal. Qed.
Next Obligation. by intros d g d' [= <- _]. Qed.
Next Obligation. done. Qed.
Next Obligation. done. Qed.
Next Obligation. intros g d Hg. left. cbn. unfold as_guid. by rewrite Hg. Qed.
Next Obligation. done. Qed.
Next Obligation. by intros p [w x]. Qed.
Next Obligation. intros p t [w x]. cbn. by destruct (refuses p w). Qed.
Next Obligation.
  intros p q [w x]. cbn. destruct (files w !! p); [|done]. by destruct (refuses q w).
Qed.
Next Obligation. by intros p [w x]. Qed.

(** ** Witnesses *)

Section Desks.
#[local] Existing Instance no_messages.

Definition desk : Desk := (empty_fs, kSchemeBalanced).

(** Dying between the switch and its confirmation: seven operations happen. *)
Definition after_crash (n : nat) : Desk :=
  (apply_recovering "s.txt" kSchemeHighPerformance ((n, desk) : Dying Desk)).2.2.

Example crash_leaves_pending :
  saved_record "s.txt" (after_crash 4) =
    Some (MkSaved kSchemeBalanced (Some kSchemeHighPerformance) Pending) ∧
  active (after_crash 4) = kSchemeHighPerformance.
Proof. vm_compute. split; reflexivity. Qed.

Lemma interrupted_switch_recovers_witness :
  let w2 := (RecoverPendingScheme "s.txt" (after_crash 4)).2 in
  active w2 = kSchemeBalanced ∨
  (active w2 = kSchemeHighPerformance ∧
   saved_record "s.txt" (after_crash 4) =
     Some (MkSaved kSchemeBalanced (Some kSchemeHighPerformance) Applied)).
Proof.
  refine (interrupted_switch_recovers "s.txt" kSchemeHighPerformance kSchemeHighPerformance None 4
            desk _ _ (after_crash 4) _ _ _ _ _ _ _ _).
  - vm_compute. reflexivity.
  - vm_compute. reflexivity.
  - vm_compute. reflexivity.
  - vm_compute. reflexivity.
  - vm_compute. reflexivity.
  - vm_compute. reflexivity.
Defined.

Lemma apply_recovering_safe_witness :
  let w' := (apply_recovering "s.txt" kSchemeHighPerformance desk).2 in
  active w' = kSchemeHighPerformance ∧
  saved_record "s.txt" w' = Some (MkSaved kSchemeBalanced (Some kSchemeHighPerformance) Applied).
Proof.
  refine (let H := apply_recovering_safe "s.txt" kSchemeHighPerformance kSchemeHighPerformance None
                     desk (Success (MkSwitchFlow kSchemeBalanced kSchemeHighPerformance
                                      kSchemeHighPerformance true true)) _ _ _ _ _ in
          H); vm_compute; reflexivity.
Defined.

Lemma RecoverPendingScheme_spec_witness :
  let w' := (RecoverPendingScheme "s.txt" (after_crash 4)).2 in
  active w' = kSchemeBalanced ∧ is_pending "s.txt" w' = false.
Proof.
  refine (RecoverPendingScheme_spec "s.txt" (after_crash 4)
            (Success (MkRecovery RestoreToSaved kSchemeBalanced kSchemeHighPerformance
                        kSchemeBalanced true)) _ _).
  vm_compute. reflexivity.
Defined.

(** A desk on which setting one scheme answers success and does nothing. *)
Definition stubborn_scheme (stuck : string) : PowerSchemeBackend Desk := {|
  GetActive := λ d, (Success (as_guid d.2), d);
  SetActive g := λ d, (Success tt, if String.eqb g stuck then d else (d.1, g))
|}.

(** The command does not look whether its own rollback read back: it goes on,
    and its new record keeps the scheme that happens to be active instead of the
    one the user is owed. *)
Lemma unverified_rollback_is_forgotten :
  let _ := stubborn_scheme kSchemeBalanced in
  let r := RecoverPendingScheme (W:=Desk) "s.txt" (after_crash 4) in
  let a := apply_recovering (W:=Desk) "s.txt" kSchemePowerSaver (after_crash 4) in
  saved_record "s.txt" (after_crash 4) =
    Some (MkSaved kSchemeBalanced (Some kSchemeHighPerformance) Pending) ∧
  unverified r.1 = true ∧
  a.1 = Success (MkSwitchFlow kSchemeHighPerformance kSchemePowerSaver kSchemePowerSaver true true) ∧
  saved_record "s.txt" a.2 = Some (MkSaved kSchemeHighPerformance (Some kSchemePowerSaver) Applied).
Proof. vm_compute. repeat split. Qed.
End Desks.
