(* ===== verification/UserActivity.v ===== *)
(** Whether the user is there ([activity/user_activity.hpp],
    [source/activity/user_activity.cpp]): the wrap-around of the tick counter,
    the states, and the three observation loops. The probes are the virtual
    interfaces of the source; [Win32LastInputBackend], [Win32SessionProbe] and
    [Win32ForegroundProbe] implement them over the class [User32]. The callback
    of a loop is the list of the samples it is called with. *)

From S2P Require Import Prelude CommonError Timing.

Open Scope string_scope.
Open Scope list_scope.
Open Scope Z_scope.

(** ** States *)

Module ActivityState.
Inductive ActivityState := Unknown | Active | Idle | Locked | Disconnected.
End ActivityState.
Abbreviation ActivityState := ActivityState.ActivityState.

#[export] Instance ActivityState_eq_dec : EqDecision ActivityState.
Proof. solve_decision. Defined.

Definition ActivityStateToString (s : ActivityState) : string :=
  match s with
  | ActivityState.Unknown => "unknown"
  | ActivityState.Active => "active"
  | ActivityState.Idle => "idle"
  | ActivityState.Locked => "locked"
  | ActivityState.Disconnected => "disconnected"
  end.

Module SessionLinkState.
Inductive SessionLinkState := Unknown | Active | Connected | Disconnected | Idle | Listen.
End SessionLinkState.
Abbreviation SessionLinkState := SessionLinkState.SessionLinkState.

#[export] Instance SessionLinkState_eq_dec : EqDecision SessionLinkState.
Proof. solve_decision. Defined.

Definition SessionLinkStateToString (s : SessionLinkState) : string :=
  match s with
  | SessionLinkState.Unknown => "unknown"
  | SessionLinkState.Active => "active"
  | SessionLinkState.Connected => "connected"
  | SessionLinkState.Disconnected => "disconnected"
  | SessionLinkState.Idle => "idle"
  | SessionLinkState.Listen => "listen"
  end.

(** [WTS_CONNECTSTATE_CLASS]: WTSActive 0, WTSConnected 1, WTSConnectQuery 2,
    WTSShadow 3, WTSDisconnected 4, WTSIdle 5, WTSListen 6. *)
Definition LinkStateFromWtsValue (wtsConnectState : Z) : SessionLinkState :=
  if wtsConnectState =? 0 then SessionLinkState.Active
  else if wtsConnectState =? 1 then SessionLinkState.Connected
  else if wtsConnectState =? 4 then SessionLinkState.Disconnected
  else if wtsConnectState =? 5 then SessionLinkState.Idle
  else if wtsConnectState =? 6 then SessionLinkState.Listen
  else SessionLinkState.Unknown.

(** ** Ticks *)

Definition TickDeltaMs (fromTick toTick : Z) : Z :=
  let signedDelta := i32 (u32 (toTick - fromTick)) in
  if signedDelta <? 0 then 0 else signedDelta.

Definition IdleMilliseconds (nowTick lastInputTick : Z) : Z := TickDeltaMs lastInputTick nowTick.

Definition ClassifyActivity (nowTick lastInputTick idleThresholdMs : Z) : ActivityState :=
  let idleMs := IdleMilliseconds nowTick lastInputTick in
  if idleThresholdMs <? 0 then ActivityState.Active
  else if idleThresholdMs <=? idleMs then ActivityState.Idle else ActivityState.Active.

Record SessionContext := MkSessionContext {
  remoteSession : bool;
  locked : bool;
  link : SessionLinkState
}.

Definition ClassifyContextState (inputState : ActivityState) (context : SessionContext) :
    ActivityState :=
  if bool_decide (link context = SessionLinkState.Disconnected) then ActivityState.Disconnected
  else if locked context then ActivityState.Locked
  else inputState.

(** ** The probes *)

Record InputActivitySample := MkInputSample { nowTick : Z; lastInputTick : Z }.
Record ForegroundSample := MkForeground { hasWindow : bool; fg_pid : Z }.

Class LastInputBackend (B : Type) := QueryInput : M B (Result InputActivitySample).
Class SessionProbe (B : Type) := QuerySession : M B (Result SessionContext).
Class ForegroundProbe (B : Type) := QueryForeground : M B (Result ForegroundSample).

Module ForegroundAttribution.
Inductive ForegroundAttribution := NotApplicable | Unknown | NoWindow | Pid.
End ForegroundAttribution.
Abbreviation ForegroundAttribution := ForegroundAttribution.ForegroundAttribution.

#[export] Instance ForegroundAttribution_eq_dec : EqDecision ForegroundAttribution.
Proof. solve_decision. Defined.

Definition IsForegroundAttributable (s : ActivityState) : bool :=
  bool_decide (s = ActivityState.Active) || bool_decide (s = ActivityState.Idle).

Definition ClassifyForegroundAttribution (window : bool) : ForegroundAttribution :=
  if window then ForegroundAttribution.Pid else ForegroundAttribution.NoWindow.

Record ForegroundAttributionInfo := MkAttribution {
  attribution : ForegroundAttribution;
  attr_pid : Z
}.

(** ** The summaries *)

Record ActivityWindowSummary := MkWindowSummary {
  aw_samples : Z; aw_active : Z; aw_idle : Z; aw_unknown : Z
}.

Record ActivityContextSummary := MkContextSummary {
  ac_samples : Z; ac_active : Z; ac_idle : Z; ac_locked : Z; ac_disconnected : Z; ac_unknown : Z
}.

Record ActivityForegroundSummary := MkForegroundSummary {
  af_states : ActivityContextSummary;
  attributedPid : Z; noWindow : Z; foregroundUnknown : Z; notApplicable : Z
}.

(** One more sample of a state. *)
Definition count_window (s : ActivityState) (w : ActivityWindowSummary) : ActivityWindowSummary :=
  let '(MkWindowSummary n a i u) := w in
  match s with
  | ActivityState.Unknown => MkWindowSummary (u64 (n + 1)) a i (u64 (u + 1))
  | ActivityState.Idle => MkWindowSummary (u64 (n + 1)) a (u64 (i + 1)) u
  | _ => MkWindowSummary (u64 (n + 1)) (u64 (a + 1)) i u
  end.

Definition count_state (s : ActivityState) (c : ActivityContextSummary) : ActivityContextSummary :=
  let '(MkContextSummary n a i l d u) := c in
  match s with
  | ActivityState.Locked => MkContextSummary (u64 (n + 1)) a i (u64 (l + 1)) d u
  | ActivityState.Disconnected => MkContextSummary (u64 (n + 1)) a i l (u64 (d + 1)) u
  | ActivityState.Idle => MkContextSummary (u64 (n + 1)) a (u64 (i + 1)) l d u
  | ActivityState.Active => MkContextSummary (u64 (n + 1)) (u64 (a + 1)) i l d u
  | ActivityState.Unknown => MkContextSummary (u64 (n + 1)) a i l d (u64 (u + 1))
  end.

Definition count_foreground (s : ActivityState) (a : ForegroundAttribution)
    (f : ActivityForegroundSummary) : ActivityForegroundSummary :=
  let '(MkForegroundSummary states p n u x) := f in
  let states' := count_state s states in
  match a with
  | ForegroundAttribution.Pid => MkForegroundSummary states' (u64 (p + 1)) n u x
  | ForegroundAttribution.NoWindow => MkForegroundSummary states' p (u64 (n + 1)) u x
  | ForegroundAttribution.Unknown => MkForegroundSummary states' p n (u64 (u + 1)) x
  | ForegroundAttribution.NotApplicable => MkForegroundSummary states' p n u (u64 (x + 1))
  end.

(** ** The loops *)

Section Observing.
Context {B : Type} `{LastInputBackend B, SessionProbe B, ForegroundProbe B, Sleeping B}.

(** A loop of [n] more samples: the pause after each but the last, the summary
    so far and the samples reported so far. *)
Fixpoint observe {Sm Smp} (sample : M B Smp) (count : Smp → Sm → Sm) (sampleInterval : Z)
    (n : nat) (summary : Sm) (reported : list Smp) : M B (Sm * list Smp) :=
  match n with
  | O => mret (summary, reported)
  | S n' =>
      s <-- sample ;;
      (if (0 <? sampleInterval) && negb (Nat.eqb n' 0) then sleep_for sampleInterval else mret tt) ;;;
      observe sample count sampleInterval n' (count s summary) (reported ++ [s])
  end.

(** The state of a sample and its idle time; 0 when it is unknown. *)
Definition sample_input (idleThresholdMs : Z) : M B (ActivityState * Z) :=
  query <-- QueryInput ;;
  match query with
  | Failure _ => mret (ActivityState.Unknown, 0)
  | Success s =>
      mret (ClassifyActivity (nowTick s) (lastInputTick s) idleThresholdMs,
            IdleMilliseconds (nowTick s) (lastInputTick s))
  end.

Definition ObserveActivity (sampleCount : nat) (sampleInterval idleThresholdMs : Z) :
    M B (Result ActivityWindowSummary * list (ActivityState * Z)) :=
  if Nat.eqb sampleCount 0 then
    mret (Failure (Validation "ObserveActivity" "sampleCount 必须为正"), [])
  else
    r <-- observe (sample_input idleThresholdMs) (λ s, count_window s.1) sampleInterval sampleCount
            (MkWindowSummary 0 0 0 0) [] ;;
    mret (Success r.1, r.2).

Definition sample_context (idleThresholdMs : Z) : M B (ActivityState * Z) :=
  session <-- QuerySession ;;
  input <-- QueryInput ;;
  match session, input with
  | Success c, Success s =>
      mret (ClassifyContextState (ClassifyActivity (nowTick s) (lastInputTick s) idleThresholdMs) c,
            IdleMilliseconds (nowTick s) (lastInputTick s))
  | _, _ => mret (ActivityState.Unknown, 0)
  end.

Definition ObserveActivityContext (sampleCount : nat) (sampleInterval idleThresholdMs : Z) :
    M B (Result ActivityContextSummary * list (ActivityState * Z)) :=
  if Nat.eqb sampleCount 0 then
    mret (Failure (Validation "ObserveActivityContext" "sampleCount 必须为正"), [])
  else
    r <-- observe (sample_context idleThresholdMs) (λ s, count_state s.1) sampleInterval sampleCount
            (MkContextSummary 0 0 0 0 0 0) [] ;;
    mret (Success r.1, r.2).

(** The window in front, asked for only when someone may be using it. *)
Definition attribute (state : ActivityState) : M B ForegroundAttributionInfo :=
  if IsForegroundAttributable state then
    foreground <-- QueryForeground ;;
    match foreground with
    | Failure _ => mret (MkAttribution ForegroundAttribution.Unknown 0)
    | Success f =>
        if hasWindow f then mret (MkAttribution ForegroundAttribution.Pid (fg_pid f))
        else mret (MkAttribution ForegroundAttribution.NoWindow 0)
    end
  else mret (MkAttribution ForegroundAttribution.NotApplicable 0).

(** [with_session]: whether a session probe was given. *)
Definition sample_foreground (with_session : bool) (idleThresholdMs : Z) :
    M B (ActivityState * Z * ForegroundAttributionInfo) :=
  s <-- (if with_session then sample_context idleThresholdMs else sample_input idleThresholdMs) ;;
  info <-- attribute s.1 ;;
  mret (s.1, s.2, info).

Definition ObserveActivityForeground (with_session : bool) (sampleCount : nat)
    (sampleInterval idleThresholdMs : Z) :
    M B (Result ActivityForegroundSummary * list (ActivityState * Z * ForegroundAttributionInfo)) :=
  if Nat.eqb sampleCount 0 then
    mret (Failure (Validation "ObserveActivityForeground" "sampleCount 必须为正"), [])
  else
    r <-- observe (sample_foreground with_session idleThresholdMs)
            (λ s, count_foreground s.1.1 (attribution s.2)) sampleInterval sampleCount
            (MkForegroundSummary (MkContextSummary 0 0 0 0 0 0) 0 0 0 0) [] ;;
    mret (Success r.1, r.2).

End Observing.

(** ** The probes of the system *)

(** What the probes call: [None] is a call that failed, whose code
    [GetLastError] then gives. A query answers the bytes it returned with the
    fields the source reads. *)
Class User32 (B : Type) := {
  last_error : B → Z;
  GetLastInputInfo : M B (option Z);
  GetTickCount : M B Z;
  remote_session_metric : M B Z;
  WTSConnectState : M B (option (Z * Z));
  WTSSessionInfoEx : M B (option (Z * Z * Z));
  sizeof_WTSINFOEXW : Z;
  GetForegroundWindow : M B (option Z);
  GetWindowThreadProcessId : Z → M B (Z * Z)
}.

Definition WTS_SESSIONSTATE_LOCK : Z := 0.

Section Win32.
Context {B : Type} `{SystemMessages, User32 B}.

Definition fail_with {A} (op : string) : M B (Result A) :=
  λ b, (Failure (FromWin32 (u32 (last_error b)) op), b).

Definition Win32LastInputBackend : LastInputBackend B :=
  info <-- GetLastInputInfo ;;
  match info with
  | None => fail_with "GetLastInputInfo"
  | Some dwTime =>
      now <-- GetTickCount ;;
      mret (Success (MkInputSample now dwTime))
  end.

Definition Win32SessionProbe : SessionProbe B :=
  remote <-- remote_session_metric ;;
  connect <-- WTSConnectState ;;
  match connect with
  | None => fail_with "WTSQuerySessionInformationW(WTSConnectState)"
  | Some (bytes, state) =>
      if bytes <? 4 then mret (Failure (Validation "Win32SessionProbe" "WTSConnectState 返回过短"))
      else
        info <-- WTSSessionInfoEx ;;
        match info with
        | None => fail_with "WTSQuerySessionInformationW(WTSSessionInfoEx)"
        | Some (bytes, level, flags) =>
            if (bytes <? sizeof_WTSINFOEXW) || negb (level =? 1) then
              mret (Failure (Validation "Win32SessionProbe"
                               "WTSSessionInfoEx 结构不支持（非 Level 1）"))
            else
              mret (Success (MkSessionContext (negb (remote =? 0)) (flags =? WTS_SESSIONSTATE_LOCK)
                               (LinkStateFromWtsValue state)))
        end
  end.

Definition Win32ForegroundProbe : ForegroundProbe B :=
  foreground <-- GetForegroundWindow ;;
  match foreground with
  | None => mret (Success (MkForeground false 0))
  | Some window =>
      r <-- GetWindowThreadProcessId window ;;
      let '(threadId, pid) := r in
      if threadId =? 0 then fail_with "GetWindowThreadProcessId"
      else mret (Success (MkForeground true pid))
  end.

End Win32.

(** * Facts *)

(** ** Ticks *)

(** The idle time survives the wrap-around of the 32-bit tick counter: for
    ticks taken at any two moments less than 2^31 milliseconds apart it is the
    time between them, and from there to a full turn it reads as 0. *)
Lemma TickDeltaMs_elapsed t d :
  0 <= d < 2 ^ 32 →
  TickDeltaMs (u32 t) (u32 (t + d)) = if d <? 2 ^ 31 then d else 0.
Proof.
  intros Hd. unfold TickDeltaMs, u32, i32. rewrite <- Zminus_mod, Z.mod_mod by lia.
  replace (t + d - t) with d by lia. rewrite Z.mod_small by lia.
  destruct (Z.ltb_spec d (2 ^ 31)); [by rewrite (proj2 (Z.ltb_ge d 0)) by lia|].
  by rewrite (proj2 (Z.ltb_lt (d - 2 ^ 32) 0)) by lia.
Qed.

Lemma TickDeltaMs_range f t : 0 <= TickDeltaMs f t < 2 ^ 31.
Proof.
  unfold TickDeltaMs, i32. set (r := u32 (t - f) mod 2 ^ 32).
  pose proof (Z.mod_pos_bound (u32 (t - f)) (2 ^ 32) eq_refl) as Hr. fold r in Hr.
  destruct (Z.ltb_spec r (2 ^ 31)); cbv zeta; match goal with |- context [?a <? 0] => destruct (Z.ltb_spec a 0) end; lia.
Qed.

(** A state comes of the input alone, the session alone, or neither. *)
Lemma ClassifyActivity_cases n l th :
  ClassifyActivity n l th = ActivityState.Active ∨ ClassifyActivity n l th = ActivityState.Idle.
Proof. unfold ClassifyActivity. destruct (_ <? _); [auto|]. destruct (_ <=? _); auto. Qed.

(** ** The loops *)

Section Loops.
Context {B : Type} `{LastInputBackend B, SessionProbe B, ForegroundProbe B, Sleeping B}.

(** A loop reports as many samples as asked for, counts each once, in order. *)
Lemma observe_spec {Sm Smp} (sample : M B Smp) (count : Smp → Sm → Sm) (P : Smp → Prop) iv n s rep b :
  (∀ b, P (sample b).1) →
  ∃ new b',
    observe sample count iv n s rep b = ((foldl (λ s x, count x s) s new, rep ++ new), b') ∧
    length new = n ∧ Forall P new.
Proof.
  intros HP. revert s rep b. induction n as [|n IH]; intros s rep b.
  - exists [], b. by rewrite app_nil_r.
  - cbn [observe]. unfold mthen at 1. pose proof (HP b) as Hx. destruct (sample b) as [x b1].
    cbn in Hx. match goal with |- context [if ?c then sleep_for iv else mret tt] =>
      generalize (if c then sleep_for iv else mret tt : M B unit); intros pause end.
    unfold mthen. destruct (pause b1) as [[] b2].
    destruct (IH (count x s) (rep ++ [x]) b2) as (new & b' & -> & <- & Hnew).
    exists (x :: new), b'. rewrite <- (assoc_L (++)). split_and!; [done|done|by constructor].
Qed.

(** How many samples satisfy a test. *)
Definition tally {A} (p : A → bool) (l : list A) : Z := len (List.filter p l).

Lemma tally_cons {A} (p : A → bool) x l : tally p (x :: l) = Z.b2z (p x) + tally p l.
Proof. unfold tally. cbn. destruct (p x); cbn [length Z.b2z]; lia. Qed.

Lemma tally_le {A} (p : A → bool) l : 0 <= tally p l <= len l.
Proof.
  induction l as [|x l IH]; [unfold tally; cbn; lia|]. rewrite tally_cons. cbn [length].
  destruct (p x); cbn [Z.b2z]; lia.
Qed.

Definition in_state (s x : ActivityState) : bool := bool_decide (x = s).

Definition in_attr (s x : ForegroundAttribution) : bool := bool_decide (x = s).

(** Decides the tests on constructors. *)
Ltac decide_in :=
  repeat match goal with
  | |- context [Z.b2z ?t] => let v := eval vm_compute in (Z.b2z t) in change (Z.b2z t) with v
  end.

(** The counters against the list they count, while they do not wrap. *)
Definition counts_states (l : list ActivityState) (c : ActivityContextSummary) : Prop :=
  c = MkContextSummary (len l) (tally (in_state ActivityState.Active) l)
        (tally (in_state ActivityState.Idle) l) (tally (in_state ActivityState.Locked) l)
        (tally (in_state ActivityState.Disconnected) l) (tally (in_state ActivityState.Unknown) l).

Definition counts_foreground (l : list (ActivityState * ForegroundAttribution))
    (f : ActivityForegroundSummary) : Prop :=
  counts_states l.*1 (af_states f) ∧
  attributedPid f = tally (in_attr ForegroundAttribution.Pid) l.*2 ∧
  noWindow f = tally (in_attr ForegroundAttribution.NoWindow) l.*2 ∧
  foregroundUnknown f = tally (in_attr ForegroundAttribution.Unknown) l.*2 ∧
  notApplicable f = tally (in_attr ForegroundAttribution.NotApplicable) l.*2.

Lemma tally_app {A} (p : A → bool) l x : tally p (l ++ [x]) = tally p l + Z.b2z (p x).
Proof. unfold tally. rewrite List.filter_app, length_app. cbn. destruct (p x); cbn; lia. Qed.

Lemma count_state_snoc s l c :
  len l + 1 < 2 ^ 64 → counts_states l c → counts_states (l ++ [s]) (count_state s c).
Proof.
  unfold counts_states. intros Hl ->. rewrite !tally_app, length_app.
  pose proof (tally_le (in_state ActivityState.Active) l).
  pose proof (tally_le (in_state ActivityState.Idle) l).
  pose proof (tally_le (in_state ActivityState.Locked) l).
  pose proof (tally_le (in_state ActivityState.Disconnected) l).
  pose proof (tally_le (in_state ActivityState.Unknown) l).
  destruct s; cbn [count_state length]; decide_in; rewrite !u64_small by (unfold is_u64; lia); f_equal; lia.
Qed.

Lemma count_foreground_snoc s a l f :
  len l + 1 < 2 ^ 64 → counts_foreground l f → counts_foreground (l ++ [(s, a)]) (count_foreground s a f).
Proof.
  unfold counts_foreground. intros Hl (Hs & Hp & Hn & Hu & Hx). rewrite !fmap_app. cbn.
  destruct f as [states p n u x]. cbn in *. rewrite !tally_app.
  assert (len l.*2 = len l) as Hl2 by by rewrite length_fmap.
  pose proof (tally_le (in_attr ForegroundAttribution.Pid) l.*2).
  pose proof (tally_le (in_attr ForegroundAttribution.NoWindow) l.*2).
  pose proof (tally_le (in_attr ForegroundAttribution.Unknown) l.*2).
  pose proof (tally_le (in_attr ForegroundAttribution.NotApplicable) l.*2).
  split.
  - destruct a; cbn; (apply count_state_snoc; [by rewrite length_fmap|done]).
  - subst. destruct a; cbn [attributedPid noWindow foregroundUnknown notApplicable]; decide_in;
      rewrite !u64_small by (unfold is_u64; lia); split_and!; lia.
Qed.

(** Every state of a sample is counted once. *)
Lemma tally_states l :
  tally (in_state ActivityState.Active) l + tally (in_state ActivityState.Idle) l +
  tally (in_state ActivityState.Locked) l + tally (in_state ActivityState.Disconnected) l +
  tally (in_state ActivityState.Unknown) l = len l.
Proof. induction l as [|s l IH]; [done|]. rewrite !tally_cons. cbn [length]. destruct s; decide_in; lia. Qed.

Lemma tally_attrs l :
  tally (in_attr ForegroundAttribution.Pid) l + tally (in_attr ForegroundAttribution.NoWindow) l +
  tally (in_attr ForegroundAttribution.Unknown) l +
  tally (in_attr ForegroundAttribution.NotApplicable) l = len l.
Proof. induction l as [|s l IH]; [done|]. rewrite !tally_cons. cbn [length]. destruct s; decide_in; lia. Qed.

(** What a sample of the third loop may be. *)
Definition sample_ok (with_session : bool) (s : ActivityState * Z * ForegroundAttributionInfo) : Prop :=
  let '(state, idleMs, info) := s in
  (attribution info = ForegroundAttribution.NotApplicable ↔ IsForegroundAttributable state = false) ∧
  (attribution info ≠ ForegroundAttribution.Pid → attr_pid info = 0) ∧
  (state = ActivityState.Unknown → idleMs = 0) ∧ 0 <= idleMs < 2 ^ 31 ∧
  (with_session = false → state ≠ ActivityState.Locked ∧ state ≠ ActivityState.Disconnected).

Lemma attribute_spec state b :
  let info := (attribute state b).1 in
  (attribution info = ForegroundAttribution.NotApplicable ↔ IsForegroundAttributable state = false) ∧
  (attribution info ≠ ForegroundAttribution.Pid → attr_pid info = 0).
Proof.
  unfold attribute. destruct (IsForegroundAttributable state); [|done].
  unfold mthen. destruct (QueryForeground b) as [[f|e] b']; [destruct (hasWindow f)|]; done.
Qed.

Lemma sample_input_spec th b :
  let s := (sample_input th b).1 in
  (s.1 = ActivityState.Unknown → s.2 = 0) ∧ 0 <= s.2 < 2 ^ 31 ∧
  s.1 ≠ ActivityState.Locked ∧ s.1 ≠ ActivityState.Disconnected.
Proof.
  unfold sample_input, mthen. destruct (QueryInput b) as [[q|e] b']; cbn; [|done].
  pose proof (TickDeltaMs_range (lastInputTick q) (nowTick q)). unfold IdleMilliseconds.
  destruct (ClassifyActivity_cases (nowTick q) (lastInputTick q) th) as [->| ->]; done.
Qed.

Lemma sample_context_spec th b :
  let s := (sample_context th b).1 in
  (s.1 = ActivityState.Unknown → s.2 = 0) ∧ 0 <= s.2 < 2 ^ 31.
Proof.
  unfold sample_context, mthen. destruct (QuerySession b) as [[c|e] b1], (QueryInput _) as [[q|e'] b2];
    cbn; try done.
  pose proof (TickDeltaMs_range (lastInputTick q) (nowTick q)). unfold IdleMilliseconds.
  split; [|done]. unfold ClassifyContextState.
  destruct (bool_decide _); [done|]. destruct (locked c); [done|].
  by destruct (ClassifyActivity_cases (nowTick q) (lastInputTick q) th) as [->| ->].
Qed.

Lemma sample_foreground_ok ws th b : sample_ok ws (sample_foreground ws th b).1.
Proof.
  unfold sample_foreground. unfold mthen at 1.
  assert (let s := ((if ws then sample_context th else sample_input th) b).1 in
          (s.1 = ActivityState.Unknown → s.2 = 0) ∧ 0 <= s.2 < 2 ^ 31 ∧
          (ws = false → s.1 ≠ ActivityState.Locked ∧ s.1 ≠ ActivityState.Disconnected)) as Hs.
  { destruct ws; [pose proof (sample_context_spec th b)|pose proof (sample_input_spec th b)]; naive_solver. }
  destruct ((if ws then sample_context th else sample_input th) b) as [[st idle] b1]. cbn in Hs.
  unfold mthen. pose proof (attribute_spec st b1) as Ha. cbn [fst] in *.
  destruct (attribute st b1) as [info b2]. cbn in *. naive_solver.
Qed.

(** Watching with the window in front returns: it reports exactly the
    samples asked for; its counters are the numbers of those samples in each
    state and with each attribution, each kind adding up to the whole; and a
    window is attributed exactly when someone may be at the machine, with no
    process named unless there is one. *)
Lemma ObserveActivityForeground_spec ws n iv th b :
  0 < Z.of_nat n < 2 ^ 64 →
  ∃ f reported b',
    ObserveActivityForeground ws n iv th b = ((Success f, reported), b') ∧
    length reported = n ∧ Forall (sample_ok ws) reported ∧
    counts_foreground (map (λ s, (s.1.1, attribution s.2)) reported) f ∧
    ac_active (af_states f) + ac_idle (af_states f) + ac_locked (af_states f) +
      ac_disconnected (af_states f) + ac_unknown (af_states f) = Z.of_nat n ∧
    attributedPid f + noWindow f + foregroundUnknown f + notApplicable f = Z.of_nat n.
Proof.
  intros Hn. unfold ObserveActivityForeground. destruct n as [|n]; [lia|]. cbn [Nat.eqb].
  set (init := MkForegroundSummary _ 0 0 0 0).
  destruct (observe_spec (sample_foreground ws th) (λ s, count_foreground s.1.1 (attribution s.2))
              (sample_ok ws) iv (S n) init [] b (sample_foreground_ok ws th))
    as (new & b' & E & Hlen & Hok).
  unfold mthen. rewrite E. eexists _, _, _. split; [reflexivity|]. cbn [app fst snd].
  assert (counts_foreground (map (λ s, (s.1.1, attribution s.2)) new)
            (foldl (λ f s, count_foreground s.1.1 (attribution s.2) f) init new)) as Hc.
  { clear E Hok. assert (len new < 2 ^ 64) as Hl by lia. clear Hlen.
    induction new as [|x new IH] using rev_ind; [done|].
    rewrite length_app in Hl. cbn in Hl. rewrite foldl_app, map_app. cbn [foldl map].
    apply count_foreground_snoc; [rewrite length_map; lia|apply IH; lia]. }
  split_and!; [done|done|done| |].
  - destruct Hc as (Hs & _). unfold counts_states in Hs. rewrite Hs.
    cbn [ac_active ac_idle ac_locked ac_disconnected ac_unknown].
    by rewrite tally_states, length_fmap, length_map, Hlen.
  - destruct Hc as (_ & -> & -> & -> & ->). by rewrite tally_attrs, length_fmap, length_map, Hlen.
Qed.

End Loops.

(** ** Witnesses *)

(** A desk whose user went to lunch: the probes answer from a script. *)
Record Script := MkScript {
  inputs : list (Result InputActivitySample);
  sessions : list (Result SessionContext);
  windows : list (Result ForegroundSample)
}.

Definition nothing {A} : Result A := Failure (Unsupported "" "").

#[export] Instance script_input : LastInputBackend Script := λ s,
  (hd nothing (inputs s), MkScript (tl (inputs s)) (sessions s) (windows s)).
#[export] Instance script_session : SessionProbe Script := λ s,
  (hd nothing (sessions s), MkScript (inputs s) (tl (sessions s)) (windows s)).
#[export] Instance script_window : ForegroundProbe Script := λ s,
  (hd nothing (windows s), MkScript (inputs s) (sessions s) (tl (windows s))).
#[export] Instance script_sleep : Sleeping Script := λ _, mret tt.

Definition here : Result SessionContext := Success (MkSessionContext false false SessionLinkState.Active).
Definition lunch : Script :=
  MkScript [Success (MkInputSample 100 (2 ^ 32 - 400)); Success (MkInputSample 70000 100); nothing]
    [here; here; Success (MkSessionContext false true SessionLinkState.Active)]
    [Success (MkForeground true 42); nothing].

Example lunch_observed :
  (ObserveActivityForeground true 3 0 60000 lunch).1.2 =
  [(ActivityState.Active, 500, MkAttribution ForegroundAttribution.Pid 42);
   (ActivityState.Idle, 69900, MkAttribution ForegroundAttribution.Unknown 0);
   (ActivityState.Unknown, 0, MkAttribution ForegroundAttribution.NotApplicable 0)].
Proof. reflexivity. Qed.

Lemma TickDeltaMs_elapsed_witness : TickDeltaMs (u32 (2 ^ 32 - 400)) (u32 (2 ^ 32 - 400 + 500)) = 500.
Proof. apply (TickDeltaMs_elapsed (2 ^ 32 - 400) 500). lia. Defined.

Lemma ObserveActivityForeground_spec_witness :
  ∃ f reported b',
    ObserveActivityForeground true 3 0 60000 lunch = ((Success f, reported), b') ∧
    length reported = 3%nat ∧ Forall (sample_ok true) reported ∧
    counts_foreground (map (λ s, (s.1.1, attribution s.2)) reported) f ∧
    ac_active (af_states f) + ac_idle (af_states f) + ac_locked (af_states f) +
      ac_disconnected (af_states f) + ac_unknown (af_states f) = 3 ∧
    attributedPid f + noWindow f + foregroundUnknown f + notApplicable f = 3.
Proof. apply (ObserveActivityForeground_spec true 3 0 60000 lunch). lia. Defined.
