(* ===== verification/RawInput.v ===== *)
(** Event-driven input ([activity/raw_input]): a source that is bound to a
    window, registers keyboard and mouse for raw input and notes when the last
    message arrived. *)

From S2P Require Import Prelude Timing CommonError.

Open Scope string_scope.
Open Scope list_scope.
Open Scope Z_scope.

(** ** Data *)

Definition kRawInputMessage : Z := 0x00FF.
Definition kUsagePageGenericDesktop : Z := 0x01.
Definition kUsageMouse : Z := 0x02.
Definition kUsageKeyboard : Z := 0x06.
Definition RIDEV_REMOVE : Z := 0x1.
Definition RIDEV_INPUTSINK : Z := 0x100.

Record RAWINPUTDEVICE := MkRawDevice {
  usUsagePage : Z;
  usUsage : Z;
  dwFlags : Z;
  hwndTarget : Z
}.

(** Windows are integers, 0 the null pointer. *)
Definition BuildDevices (hwnd : Z) (keyboard mouse remove : bool) : list RAWINPUTDEVICE :=
  let baseFlags := if remove then RIDEV_REMOVE else RIDEV_INPUTSINK in
  (if keyboard then [MkRawDevice kUsagePageGenericDesktop kUsageKeyboard baseFlags hwnd] else []) ++
  (if mouse then [MkRawDevice kUsagePageGenericDesktop kUsageMouse baseFlags hwnd] else []).

(** [keyboard] and [mouse] are the options. *)
Record RawInputEventSource := MkRawInput {
  ri_keyboard : bool;
  ri_mouse : bool;
  attached_ : bool;
  hwnd_ : Z;
  eventCount_ : Z;
  lastEventEpochMs_ : Z
}.

Definition NewRawInput (keyboard mouse : bool) : RawInputEventSource :=
  MkRawInput keyboard mouse false 0 0 0.

(** [false] is a failing call, with [GetLastError]. *)
Class RawInputApi (B : Type) := {
  RegisterRawInputDevices : list RAWINPUTDEVICE → M B bool;
  raw_input_error : B → Z
}.

(** ** Operations *)

Section Operations.
Context {B : Type} `{SystemMessages} `{SteadyClock B} `{RawInputApi B}.
#[local] Abbreviation source := RawInputEventSource.

Definition NowEpochMs : M B Z := now <-- clock_now ;; mret (Z.quot now 1000000).

Definition bind_window (attached : bool) (hwnd last : Z) (r : source) : source :=
  MkRawInput (ri_keyboard r) (ri_mouse r) attached hwnd (eventCount_ r) last.

(** Without devices nothing is registered. *)
Definition register (devices : list RAWINPUTDEVICE) : M B bool :=
  match devices with [] => mret true | _ => RegisterRawInputDevices devices end.

Definition Attach (hwnd : Z) (r : source) : M B (Result unit * source) :=
  if hwnd =? 0 then
    mret (Failure (Validation "RawInputEventSource::Attach" "hwnd 不能为空"), r)
  else if attached_ r then
    mret (Failure (Validation "RawInputEventSource::Attach" "已绑定窗口（先 Detach）"), r)
  else
    ok <-- register (BuildDevices hwnd (ri_keyboard r) (ri_mouse r) false) ;;
    if negb ok then λ b,
      ((Failure (FromWin32 (u32 (raw_input_error b)) "RegisterRawInputDevices"),
        bind_window false 0 (lastEventEpochMs_ r) r), b)
    else mret (Success tt, bind_window true hwnd 0 r).

Definition Detach (r : source) : M B source :=
  if negb (attached_ r) then mret r
  else
    register (BuildDevices (hwnd_ r) (ri_keyboard r) (ri_mouse r) true) ;;;
    mret (bind_window false 0 0 r).

Definition IsAttached (r : source) : bool := attached_ r.

Definition OnWindowMessage (message : Z) (r : source) : M B (bool * source) :=
  if negb (message =? kRawInputMessage) then mret (false, r)
  else
    nowMs <-- NowEpochMs ;;
    mret (true, MkRawInput (ri_keyboard r) (ri_mouse r) (attached_ r) (hwnd_ r)
                  (u64 (eventCount_ r + 1)) nowMs).

Definition InputEventCount (r : source) : Z := eventCount_ r.

(** Milliseconds since the last event. *)
Definition IdleDuration (r : source) : M B (option Z) :=
  if lastEventEpochMs_ r =? 0 then mret None
  else
    nowMs <-- NowEpochMs ;;
    mret (Some (if lastEventEpochMs_ r <=? nowMs then nowMs - lastEventEpochMs_ r else 0)).
End Operations.

(** ** Theorems *)

Inductive RawInputOp :=
  | OpAttach (hwnd : Z)
  | OpDetach
  | OpMessage (message : Z).

Section Theorems.
Context {B : Type} `{SystemMessages} `{TimeLaws B} `{RawInputApi B}.

Definition raw_input_op (op : RawInputOp) (r : RawInputEventSource) : M B RawInputEventSource :=
  match op with
  | OpAttach hwnd => out <-- Attach hwnd r ;; mret out.2
  | OpDetach => Detach r
  | OpMessage m => out <-- OnWindowMessage m r ;; mret out.2
  end.

Fixpoint run_raw_input (ops : list RawInputOp) (r : RawInputEventSource) :
    M B RawInputEventSource :=
  match ops with
  | [] => mret r
  | op :: rest => r' <-- raw_input_op op r ;; run_raw_input rest r'
  end.

(** Registering and unregistering do not turn the clock back, which has been
    running for a millisecond at least. *)
Class RawInputLaws := {
  register_time ds : advances (RegisterRawInputDevices ds);
  clock_runs b : 1000000 <= time b
}.
Context `{!RawInputLaws}.
#[local] Hint Resolve register_time : advance.

(** A source is bound to a window exactly when it is attached, and its last
    event is over. *)
Definition source_ok (r : RawInputEventSource) (b : B) : Prop :=
  (attached_ r = true ↔ hwnd_ r ≠ 0) ∧ 0 <= lastEventEpochMs_ r <= Z.quot (time b) 1000000.

Lemma NowEpochMs_run b now b' :
  NowEpochMs b = (now, b') →
  Z.quot (time b) 1000000 <= now <= Z.quot (time b') 1000000 ∧ 1 <= now ∧ time b <= time b'.
Proof.
  unfold NowEpochMs, mthen, mret. destruct (clock_now b) as [t b1] eqn:E.
  apply clock_run in E. intros [= <- <-]. pose proof (clock_runs b).
  rewrite !Z.quot_div_nonneg by lia. split_and!; try lia; try (apply Z.div_le_mono; lia).
  apply (Z.div_le_mono 1000000 t 1000000); lia.
Qed.

Lemma register_advances ds : advances (register (B := B) ds).
Proof. unfold register. destruct ds; advance. Qed.

Lemma source_ok_later r b b' : source_ok r b → time b <= time b' → source_ok r b'.
Proof.
  intros [Ha Hl] Ht. split; [done|]. pose proof (clock_runs b).
  rewrite Z.quot_div_nonneg in Hl |- * by lia.
  pose proof (Z.div_le_mono (time b) (time b') 1000000). lia.
Qed.

Lemma raw_input_op_ok op r b r' b' :
  source_ok r b → raw_input_op op r b = (r', b') → source_ok r' b'.
Proof.
  intros Hok. unfold raw_input_op. destruct op as [hwnd| |m].
  - unfold Attach. unfold mthen, mret. destruct (Z.eqb_spec hwnd 0); [by intros [= <- <-]|].
    destruct (attached_ r) eqn:Ha; [by intros [= <- <-]|].
    destruct (register _ b) as [ok b1] eqn:E.
    apply (advances_run _ _ _ _ (register_advances _)) in E. pose proof (source_ok_later _ _ _ Hok E) as [_ Hl].
    destruct ok; cbn; intros [= <- <-]; split; cbn; try done; lia.
  - unfold Detach. unfold mthen, mret. destruct (attached_ r); cbn; [|by intros [= <- <-]].
    destruct (register _ b) as [ok b1] eqn:E.
    apply (advances_run _ _ _ _ (register_advances _)) in E. pose proof (source_ok_later _ _ _ Hok E) as [_ Hl].
    intros [= <- <-]. split; cbn; [done|lia].
  - unfold OnWindowMessage. unfold mthen, mret. destruct (negb _); [by intros [= <- <-]|].
    destruct (NowEpochMs b) as [now b1] eqn:E. apply NowEpochMs_run in E as (E1 & E2 & E3).
    destruct Hok as [Ha _]. intros [= <- <-]. split; cbn; [done|lia].
Qed.

Lemma run_raw_input_ok ops r b r' b' :
  source_ok r b → run_raw_input ops r b = (r', b') → source_ok r' b'.
Proof.
  revert r b. induction ops as [|op ops IH]; intros r b Hok; cbn [run_raw_input].
  - by intros [= <- <-].
  - unfold mthen. destruct (raw_input_op op r b) as [r1 b1] eqn:E. apply IH.
    by eapply raw_input_op_ok.
Qed.

(** Input is never made up: whatever the window does, a source that has not
    seen a message since it was last attached or detached answers nothing, and
    one that has answers the time since then, to the millisecond. *)
Lemma IdleDuration_spec ops kb ms b r b1 idle b2 :
  run_raw_input ops (NewRawInput kb ms) b = (r, b1) → IdleDuration r b1 = (idle, b2) →
  match idle with
  | None => lastEventEpochMs_ r = 0
  | Some d => 0 < lastEventEpochMs_ r ∧
              Z.quot (time b1) 1000000 <= lastEventEpochMs_ r + d <= Z.quot (time b2) 1000000
  end.
Proof.
  intros Hr. assert (source_ok (NewRawInput kb ms) b) as Hok.
  { split; [done|]. cbn. pose proof (clock_runs b). split; [lia|]. apply Z.quot_pos; lia. }
  destruct (run_raw_input_ok _ _ _ _ _ Hok Hr) as [_ Hl].
  unfold IdleDuration. unfold mthen, mret. destruct (Z.eqb_spec (lastEventEpochMs_ r) 0);
    [by intros [= <- <-]|].
  destruct (NowEpochMs b1) as [now b3] eqn:E. apply NowEpochMs_run in E as (E1 & _ & _).
  intros [= <- <-]. destruct (Z.leb_spec (lastEventEpochMs_ r) now); lia.
Qed.
End Theorems.
