(* ===== verification/ThreadTuner.v ===== *)
(** Thread priorities ([scheduler/thread_tuner.hpp],
    [source/scheduler/thread_tuner.cpp]): raising the threads of a process,
    restoring what nobody else has changed since, and the record that carries
    the adjustments from one run to the next. The system is the class
    [SchedulerBackend], the virtual interface of the source;
    [RealSchedulerBackend] implements it over [ThreadApi]. *)

From S2P Require Import Prelude CommonError Containers.

Open Scope string_scope.
Open Scope list_scope.
Open Scope Z_scope.

Record ThreadSnapshot := MkThread {
  ts_threadId : Z;
  ts_priority : Z;
  affinityMask : Z
}.

Class SchedulerBackend (B : Type) := {
  ListThreads : Z → M B (Result (list ThreadSnapshot));
  GetPriority : Z → M B (Result Z);
  SetPriority : Z → Z → M B (Result unit);
  GetAffinity : Z → M B (Result Z);
  SetAffinity : Z → Z → M B (Result unit)
}.

Definition IsValidPriority (priority : Z) : bool := (-15 <=? priority) && (priority <=? 15).
Definition ShouldRaisePriority (current target : Z) : bool := current <? target.

Record PriorityAdjustment := MkAdjustment {
  pa_threadId : Z;
  originalPriority : Z;
  appliedPriority : Z
}.

Record BoostReport := MkBoostReport { adjusted : list PriorityAdjustment; skipped : Z }.

(** ** The system's interface *)

(** One entry of the thread snapshot: its thread and the process that owns it. *)
Record ThreadEntry := MkEntry { th32ThreadID : Z; th32OwnerProcessID : Z }.

(** [CreateToolhelp32Snapshot] answers the entries it holds, which
    [Thread32First] and [Thread32Next] walk; [None] is a failed call, whose code
    [last_thread_error] gives. A handle is closed when it goes out of scope. *)
Class ThreadApi (B : Type) := {
  last_thread_error : B → Z;
  CreateToolhelp32Snapshot : M B (option (list ThreadEntry));
  first_error : M B (option Z);
  OpenThread : Z → Z → M B (option Z);
  GetThreadPriority : Z → M B Z;
  SetThreadPriority : Z → Z → M B bool;
  GetThreadGroupAffinity : Z → M B (option Z);
  SetThreadGroupAffinity : Z → Z → M B bool;
  CloseHandle : Z → M B unit
}.

Definition THREAD_QUERY_LIMITED_INFORMATION : Z := 0x0800.
Definition THREAD_SET_INFORMATION : Z := 0x0020.
Definition THREAD_PRIORITY_ERROR_RETURN : Z := 0x7FFFFFFF.
Definition ERROR_NO_MORE_FILES : Z := 18.

Section Real.
Context {B : Type} `{SystemMessages, ThreadApi B}.

Definition thread_failure {A} (op : string) : M B (Result A) :=
  λ b, (Failure (FromWin32 (u32 (last_thread_error b)) op), b).

(** The result of the body, after which the handle is closed. *)
Definition closing {A} (h : Z) (m : M B A) : M B A := a <-- m ;; CloseHandle h ;;; mret a.

Definition snapshot_thread (e : ThreadEntry) : M B (option ThreadSnapshot) :=
  handle <-- OpenThread (th32ThreadID e) THREAD_QUERY_LIMITED_INFORMATION ;;
  match handle with
  | None => mret None
  | Some h =>
      closing h
        (priority <-- GetThreadPriority h ;;
         group <-- GetThreadGroupAffinity h ;;
         mret (Some (MkThread (th32ThreadID e)
                       (if priority =? THREAD_PRIORITY_ERROR_RETURN then 0 else priority)
                       (default 0 group))))
  end.

Fixpoint snapshot_threads (processId : Z) (es : list ThreadEntry) : M B (list ThreadSnapshot) :=
  match es with
  | [] => mret []
  | e :: es' =>
      if negb (th32OwnerProcessID e =? processId) then snapshot_threads processId es'
      else
        item <-- snapshot_thread e ;;
        rest <-- snapshot_threads processId es' ;;
        mret (match item with Some t => t :: rest | None => rest end)
  end.

Definition with_thread {A} (threadId access : Z) (open_op : string) (body : Z → M B (Result A)) :
    M B (Result A) :=
  handle <-- OpenThread threadId access ;;
  match handle with
  | None => thread_failure open_op
  | Some h => closing h (body h)
  end.

#[export] Instance RealSchedulerBackend : SchedulerBackend B := {|
  ListThreads processId :=
    if processId =? 0 then mret (Failure (Validation "ListThreads" "进程 ID 不能为 0"))
    else
      snapshot <-- CreateToolhelp32Snapshot ;;
      match snapshot with
      | None => thread_failure "CreateToolhelp32Snapshot"
      | Some entries =>
          failed <-- first_error ;;
          match failed with
          | Some error =>
              if error =? ERROR_NO_MORE_FILES then mret (Success [])
              else mret (Failure (FromWin32 (u32 error) "Thread32First"))
          | None => threads <-- snapshot_threads processId entries ;; mret (Success threads)
          end
      end;
  GetPriority threadId :=
    with_thread threadId THREAD_QUERY_LIMITED_INFORMATION "OpenThread(query)" (λ h,
      priority <-- GetThreadPriority h ;;
      if priority =? THREAD_PRIORITY_ERROR_RETURN then thread_failure "GetThreadPriority"
      else mret (Success priority));
  SetPriority threadId priority :=
    with_thread threadId THREAD_SET_INFORMATION "OpenThread(set)" (λ h,
      ok <-- SetThreadPriority h priority ;;
      if negb ok then thread_failure "SetThreadPriority" else mret (Success tt));
  GetAffinity threadId :=
    with_thread threadId THREAD_QUERY_LIMITED_INFORMATION "OpenThread(query)" (λ h,
      group <-- GetThreadGroupAffinity h ;;
      match group with
      | None => thread_failure "GetThreadGroupAffinity"
      | Some mask => mret (Success mask)
      end);
  SetAffinity threadId mask :=
    with_thread threadId THREAD_SET_INFORMATION "OpenThread(set)" (λ h,
      ok <-- SetThreadGroupAffinity h mask ;;
      if negb ok then thread_failure "SetThreadGroupAffinity" else mret (Success tt))
|}.
End Real.

(** ** Raising and restoring *)

Section Tuning.
Context {B : Type} `{SystemMessages, SchedulerBackend B}.

(** The loop stops at the first thread it cannot raise; what it did stands. *)
Fixpoint boost_threads (targetPriority : Z) (threads : list ThreadSnapshot) (report : BoostReport) :
    M B (Result BoostReport) :=
  match threads with
  | [] => mret (Success report)
  | thread :: rest =>
      if negb (ShouldRaisePriority (ts_priority thread) targetPriority) then
        boost_threads targetPriority rest (MkBoostReport (adjusted report) (u64 (skipped report + 1)))
      else
        applied <-- SetPriority (ts_threadId thread) targetPriority ;;
        match applied with
        | Failure _ => mret (Success report)
        | Success _ =>
            boost_threads targetPriority rest
              (MkBoostReport
                 (adjusted report ++
                  [MkAdjustment (ts_threadId thread) (ts_priority thread) targetPriority])
                 (skipped report))
        end
  end.

Definition BoostProcessThreads (processId targetPriority : Z) : M B (Result BoostReport) :=
  if negb (IsValidPriority targetPriority) then
    mret (Failure (Validation "BoostProcessThreads" "目标优先级超出 -15..15"))
  else
    threads <-- ListThreads processId ;;
    match threads with
    | Failure e => mret (Failure e)
    | Success l => boost_threads targetPriority l (MkBoostReport [] 0)
    end.

(** [last] is the last Win32 error at the moment of a failure. *)
Context (last : B → Z).

Fixpoint restore_priorities (adjustments : list PriorityAdjustment) (restored : Z) :
    M B (Result Z) :=
  match adjustments with
  | [] => mret (Success restored)
  | a :: rest =>
      current <-- GetPriority (pa_threadId a) ;;
      match current with
      | Failure _ => restore_priorities rest restored
      | Success p =>
          if negb (p =? appliedPriority a) then restore_priorities rest restored
          else
            r <-- SetPriority (pa_threadId a) (originalPriority a) ;;
            match r with
            | Failure _ => λ b, (Failure (FromWin32 (u32 (last b)) "RestorePriorities"), b)
            | Success _ => restore_priorities rest (u64 (restored + 1))
            end
      end
  end.

Definition RestorePriorities (adjustments : list PriorityAdjustment) : M B (Result Z) :=
  restore_priorities adjustments 0.

End Tuning.

(** ** The record *)

Definition FormatAdjustmentRecord (processId : Z) (adjustments : list PriorityAdjustment) : string :=
  "CppOptimizerSchedulerRecord/1" +:+ String LF "" +:+
  "pid=" +:+ to_string processId +:+ " count=" +:+ to_string (len adjustments) +:+ String LF
    (foldr (λ a s, "tid=" +:+ to_string (pa_threadId a) +:+ " from=" +:+
                   to_string (originalPriority a) +:+ " to=" +:+ to_string (appliedPriority a)
                   +:+ String LF s) "" adjustments).

(** [std::from_chars] in base ten: the longest run of digits, after a minus
    sign for a signed type; [None] without digits or out of range. *)
Definition from_chars (signed : bool) (low high : Z) (s : string) : option Z :=
  let '(neg, s') :=
    match s with
    | String c s' => if signed && Ascii.eqb c "-" then (true, s') else (false, s)
    | EmptyString => (false, s)
    end in
  let d := take_digits s' in
  if string_empty d then None
  else
    let v := if neg : bool then - dec_acc 0 d else dec_acc 0 d in
    if (low <=? v) && (v <=? high) then Some v else None.

Definition from_chars_ulong : string → option Z := from_chars false 0 (2 ^ 32 - 1).
Definition from_chars_int : string → option Z := from_chars true (- 2 ^ 31) (2 ^ 31 - 1).

(** One line, between the texts it must have: [Some] of an adjustment. The
    source finds [" from="] and [" to="] separately; [" to="] before
    [" from="] is refused, so it is looked for after it. *)
Definition parse_adjustment (line : string) : Result PriorityAdjustment :=
  match strip "tid=" line with
  | None => Failure (Validation "ParseAdjustmentRecord" "行前缀不合法")
  | Some _ =>
      match cut " from=" line, cut " to=" line with
      | Some (before, after), Some (before_to, toText) =>
          if strlen before_to <? strlen before then
            Failure (Validation "ParseAdjustmentRecord" "缺字段")
          else
            let tidText := substring 4 (String.length before - 4) before in
            let fromText := substring 0 (String.length before_to - String.length before - 6) after in
            match from_chars_ulong tidText, from_chars_int fromText, from_chars_int toText with
            | Some tid, Some from, Some to => Success (MkAdjustment (u32 tid) from to)
            | _, _, _ => Failure (Validation "ParseAdjustmentRecord" "数值解析失败")
            end
      | _, _ => Failure (Validation "ParseAdjustmentRecord" "缺字段")
      end
  end.

(** The lines after the envelope; the head line of the counts and empty lines
    are passed over. *)
Fixpoint parse_adjustments (lines : list string) (acc : list PriorityAdjustment) :
    Result (list PriorityAdjustment) :=
  match lines with
  | [] => Success acc
  | l :: rest =>
      let line := drop_cr l in
      if string_empty line then parse_adjustments rest acc
      else
        match strip "pid=" line with
        | Some _ => parse_adjustments rest acc
        | None =>
            match parse_adjustment line with
            | Failure e => Failure e
            | Success a => parse_adjustments rest (acc ++ [a])
            end
        end
  end.

Definition ParseAdjustmentRecord (text : string) : Result (list PriorityAdjustment) :=
  match getlines text with
  | first :: rest =>
      if negb (String.eqb first "CppOptimizerSchedulerRecord/1") then
        Failure (Validation "ParseAdjustmentRecord" "信封行不符合契约")
      else parse_adjustments rest []
  | [] => Failure (Validation "ParseAdjustmentRecord" "信封行不符合契约")
  end.

(** * Facts *)

(** ** The record *)

Definition adjustment_ok (a : PriorityAdjustment) : Prop :=
  is_u32 (pa_threadId a) ∧ (- 2 ^ 31 <= originalPriority a < 2 ^ 31) ∧
  (- 2 ^ 31 <= appliedPriority a < 2 ^ 31).

Definition adjustment_line (a : PriorityAdjustment) : string :=
  "tid=" +:+ to_string (pa_threadId a) +:+ " from=" +:+ to_string (originalPriority a) +:+
  " to=" +:+ to_string (appliedPriority a).

(** The characters of a printed number: digits, after a minus sign at most. *)
Definition number_char (c : ascii) : bool := is_digit c || Ascii.eqb c "-".

Lemma to_string_chars n : all_chars number_char (to_string n) = true.
Proof.
  assert (∀ m, 0 <= m → all_chars number_char (to_string m) = true) as Hpos.
  { intros m Hm. apply (all_chars_impl is_digit); [|by apply to_string_digits].
    intros c Hc. unfold number_char. by rewrite Hc. }
  destruct (Z.ltb_spec n 0) as [Hn|Hn]; [|by apply Hpos].
  assert (to_string n = String "-" (to_string (- n))) as ->.
  { unfold to_string. by rewrite (proj2 (Z.ltb_lt n 0)), (proj2 (Z.ltb_ge (- n) 0)) by lia. }
  cbn [all_chars]. by rewrite Hpos by lia.
Qed.

Lemma number_chars_lack c n : number_char c = false → lacks c (to_string n) = true.
Proof.
  intros Hc. unfold lacks. eapply all_chars_impl; [|apply to_string_chars]. intros x Hx.
  apply negb_true_iff, Ascii.eqb_neq. congruence.
Qed.

Lemma from_chars_to_string signed low high n :
  low <= n <= high → (signed = false → 0 <= n) → from_chars signed low high (to_string n) = Some n.
Proof.
  intros Hr Hs. unfold from_chars. destruct (Z.ltb_spec n 0) as [Hn|Hn].
  - assert (to_string n = String "-" (to_string (- n))) as ->.
    { unfold to_string. by rewrite (proj2 (Z.ltb_lt n 0)), (proj2 (Z.ltb_ge (- n) 0)) by lia. }
    destruct signed; [|specialize (Hs eq_refl); lia].
    change (true && Ascii.eqb "-" "-") with true. cbn beta iota.
    destruct (to_string_spec (- n) ltac:(lia)) as [Hd Hv].
    rewrite take_digits_all by by apply is_decimal_digits.
    rewrite string_empty_false by (apply to_string_not_empty; lia). rewrite Hv.
    replace (- - n) with n by lia. by rewrite (proj2 (Z.leb_le _ _)), (proj2 (Z.leb_le _ _)) by lia.
  - destruct (to_string_spec n Hn) as [Hd Hv]. pose proof (is_decimal_digits _ Hd) as Hall.
    pose proof (to_string_not_empty n Hn) as Hne.
    destruct (to_string n) as [|c t]; [done|]. pose proof Hall as Hc. cbn in Hc.
    apply andb_true_iff in Hc as [Hc _]. destruct (digit_not_special c Hc) as (_ & -> & _).
    rewrite andb_false_r. cbn iota. rewrite take_digits_all by done. cbn [string_empty].
    rewrite Hv. by rewrite (proj2 (Z.leb_le _ _)), (proj2 (Z.leb_le _ _)) by lia.
Qed.

Lemma substring_skip a b : substring (String.length a) (String.length b) (a +:+ b) = b.
Proof.
  induction a as [|c a IH]; cbn; [|done]. induction b as [|c b IHb]; cbn; [done|]. by rewrite IHb.
Qed.

Lemma substring_take a b : substring 0 (String.length a) (a +:+ b) = a.
Proof. induction a as [|c a IH]; cbn; [by destruct b|]. by rewrite IH. Qed.

Lemma parse_adjustment_line a : adjustment_ok a → parse_adjustment (adjustment_line a) = Success a.
Proof.
  intros (Hi & Ho & Hp). destruct a as [tid from to]. cbn [pa_threadId originalPriority appliedPriority] in *.
  unfold parse_adjustment, adjustment_line. cbn [pa_threadId originalPriority appliedPriority].
  rewrite strip_app.
  assert (lacks " " ("tid=" +:+ to_string tid) = true) as L1
    by (unfold lacks; rewrite all_chars_app; apply andb_true_iff; split; [done|by apply number_chars_lack]).
  assert (lacks " " ("from=" +:+ to_string from) = true) as L2
    by (unfold lacks; rewrite all_chars_app; apply andb_true_iff; split; [done|by apply number_chars_lack]).
  set (X := to_string to).
  assert ("tid=" +:+ to_string tid +:+ " from=" +:+ to_string from +:+ " to=" +:+ X =
          ("tid=" +:+ to_string tid) +:+ " from=" +:+ (to_string from +:+ " to=" +:+ X)) as ->
    by by rewrite string_app_assoc.
  rewrite !(cut_skip " " _ ("tid=" +:+ to_string tid)) by done.
  rewrite (cut_here " " "from="). cbn iota beta.
  assert (cut " to=" (" from=" +:+ (to_string from +:+ " to=" +:+ X)) =
          Some (" from=" +:+ to_string from, X)) as ->.
  { change (" from=" +:+ (to_string from +:+ " to=" +:+ X)) with
      (String " " ("from=" +:+ (to_string from +:+ " to=" +:+ X))).
    rewrite <- (string_app_assoc "from="). change (" from=" +:+ to_string from) with
      (String " " ("from=" +:+ to_string from)).
    remember (("from=" +:+ to_string from) +:+ " to=" +:+ X) as S eqn:ES.
    assert (strip "to=" S = None) as Hs by by rewrite ES.
    assert (cut " to=" S = Some ("from=" +:+ to_string from, X)) as Hc.
    { rewrite ES, (cut_skip " " "to=" ("from=" +:+ to_string from)) by done.
      rewrite (cut_here " " "to="). by rewrite string_app_nil_r. }
    clear ES. rewrite cut_cons by exact Hs. by rewrite Hc. }
  cbn iota beta. rewrite string_app_nil_r.
  rewrite (proj2 (Z.ltb_ge _ _)) by (rewrite !strlen_app; lia).
  assert (String.length ("tid=" +:+ to_string tid) - 4 = String.length (to_string tid))%nat as ->
    by (rewrite strlen_app; cbn; lia).
  rewrite (substring_skip "tid=").
  assert (String.length (("tid=" +:+ to_string tid) +:+ " from=" +:+ to_string from) -
          String.length ("tid=" +:+ to_string tid) - 6 = String.length (to_string from))%nat as ->
    by (rewrite !strlen_app; cbn; lia).
  rewrite substring_take. unfold from_chars_ulong, from_chars_int, X, is_u32 in *.
  rewrite !from_chars_to_string by (done || lia). by rewrite u32_small.
Qed.

Lemma adjustment_line_plain a :
  no_lf (adjustment_line a) = true ∧ all_chars (λ c, negb (Ascii.eqb CR c)) (adjustment_line a) = true.
Proof.
  unfold adjustment_line, no_lf. rewrite !all_chars_app.
  split; repeat (apply andb_true_iff; split); try reflexivity; by apply number_chars_lack.
Qed.

Lemma parse_adjustments_lines l acc :
  Forall adjustment_ok l → parse_adjustments (map adjustment_line l) acc = Success (acc ++ l).
Proof.
  intros Hl. revert acc. induction Hl as [|a l Ha Hl IH]; intros acc; cbn [map parse_adjustments].
  - by rewrite app_nil_r.
  - rewrite drop_cr_id by apply adjustment_line_plain.
    change (string_empty (adjustment_line a)) with false. cbn iota.
    change (strip "pid=" (adjustment_line a)) with (@None string). cbn iota.
    rewrite parse_adjustment_line by done. rewrite IH. by rewrite <- (assoc_L (++)).
Qed.

(** The record of the adjustments reads back: what one run writes down the
    next one restores from. *)
Lemma ParseAdjustmentRecord_Format pid l :
  0 <= pid → Forall adjustment_ok l →
  ParseAdjustmentRecord (FormatAdjustmentRecord pid l) = Success l.
Proof.
  intros Hpid Hl. set (head := "pid=" +:+ to_string pid +:+ " count=" +:+ to_string (len l)).
  assert (FormatAdjustmentRecord pid l =
          unlines ("CppOptimizerSchedulerRecord/1" :: head :: map adjustment_line l)) as ->.
  { unfold FormatAdjustmentRecord, head. cbn [unlines]. rewrite !string_app_assoc. cbn [String.append].
    do 2 f_equal. repeat f_equal. clear Hl head.
    induction l as [|a l IH]; [done|]. cbn [foldr map unlines]. rewrite IH.
    unfold adjustment_line. by rewrite !string_app_assoc. }
  assert (no_lf head = true ∧ all_chars (λ c, negb (Ascii.eqb CR c)) head = true) as [Hh1 Hh2].
  { unfold head, no_lf. rewrite !all_chars_app.
    split; repeat (apply andb_true_iff; split); try reflexivity; by apply number_chars_lack. }
  unfold ParseAdjustmentRecord. rewrite getlines_unlines.
  - rewrite String.eqb_refl. cbn [negb parse_adjustments]. rewrite drop_cr_id by done.
    change (string_empty head) with false. cbn iota. unfold head. rewrite strip_app.
    by apply (parse_adjustments_lines l []).
  - cbn [forallb]. rewrite Hh1. cbn [andb]. apply forallb_forall. intros s (a & <- & _)%in_map_iff.
    apply adjustment_line_plain.
Qed.

(** ** Raising and restoring *)

(** A list of threads is what they are, each once; a set that succeeds sets one
    thread, one that fails sets none; reading changes nothing and is right. *)
Class SchedulerLaws (B : Type) `{SchedulerBackend B} := {
  prio : B → Z → Z;
  list_threads : ∀ pid b l b', ListThreads pid b = (Success l, b') →
    NoDup (map ts_threadId l) ∧ Forall (λ t, ts_priority t = prio b (ts_threadId t)) l;
  list_threads_same : ∀ pid b t, prio (ListThreads pid b).2 t = prio b t;
  get_priority : ∀ t b p b', GetPriority t b = (Success p, b') → p = prio b t;
  get_priority_same : ∀ t b u, prio (GetPriority t b).2 u = prio b u;
  set_priority : ∀ t p b r b' u, SetPriority t p b = (Success r, b') →
    prio b' u = if decide (u = t) then p else prio b u;
  set_priority_fail : ∀ t p b e b' u, SetPriority t p b = (Failure e, b') → prio b' u = prio b u
}.

Section Laws.
Context {B : Type} `{SystemMessages} `{SchedulerLaws B}.

Definition adjusted_ids (l : list PriorityAdjustment) : list Z := map pa_threadId l.

(** What a boost has done so far: every thread it adjusted was below the target,
    its priority is on record and it now has the target; no other changed. *)
Definition boosted (target : Z) (b0 b : B) (l : list PriorityAdjustment) : Prop :=
  NoDup (adjusted_ids l) ∧
  Forall (λ a, originalPriority a = prio b0 (pa_threadId a) ∧ originalPriority a < target ∧
               appliedPriority a = target) l ∧
  ∀ t, prio b t = if bool_decide (t ∈ adjusted_ids l) then target else prio b0 t.

Lemma boosted_snoc target b0 b b' l t p r :
  boosted target b0 b l → t ∉ adjusted_ids l → p = prio b0 t → p < target →
  SetPriority t target b = (Success r, b') →
  boosted target b0 b' (l ++ [MkAdjustment t p target]).
Proof.
  intros (Hn & Hf & Hp) Ht Hpt Hlt Hset. unfold boosted, adjusted_ids in *. rewrite map_app. cbn [map].
  split_and!.
  - apply NoDup_app. split_and!; [done| |apply NoDup_singleton].
    intros x Hx ->%list_elem_of_singleton. done.
  - apply Forall_app. split; [done|]. by constructor.
  - intros u. rewrite (set_priority _ _ _ _ _ u Hset), Hp.
    destruct (decide (u = t)) as [->|Hu].
    + rewrite bool_decide_eq_true_2; [done|]. apply elem_of_app. right. by apply list_elem_of_singleton.
    + erewrite bool_decide_ext; [reflexivity|]. rewrite elem_of_app, list_elem_of_singleton. naive_solver.
Qed.

Lemma boost_threads_spec target b0 ts rep b r b' :
  NoDup (map ts_threadId ts) → Forall (λ t, ts_priority t = prio b0 (ts_threadId t)) ts →
  (∀ t, t ∈ map ts_threadId ts → t ∉ adjusted_ids (adjusted rep)) →
  boosted target b0 b (adjusted rep) →
  boost_threads target ts rep b = (r, b') →
  ∃ rep', r = Success rep' ∧ boosted target b0 b' (adjusted rep').
Proof.
  revert rep b. induction ts as [|t ts IH]; intros rep b Hn Hf Hd Hb; cbn [boost_threads].
  - intros [= <- <-]. by exists rep.
  - cbn [map] in Hn. apply NoDup_cons in Hn as [Ht Hn]. apply Forall_cons in Hf as [Hp Hf].
    assert (∀ u, u ∈ map ts_threadId ts → u ∉ adjusted_ids (adjusted rep)) as Hd'.
    { intros u Hu. apply Hd. cbn. apply elem_of_cons. by right. }
    unfold ShouldRaisePriority. destruct (Z.ltb_spec (ts_priority t) target) as [Hlt|Hge]; cbn [negb].
    2: by apply IH.
    unfold mthen. destruct (SetPriority (ts_threadId t) target b) as [[u|e] b1] eqn:Hset.
    + apply IH; [done|done| |].
      * cbn [adjusted]. intros x Hx. unfold adjusted_ids. rewrite map_app, elem_of_app. cbn.
        rewrite list_elem_of_singleton. intros [Hin| ->]; [by apply (Hd' x)|done].
      * cbn [adjusted]. eapply boosted_snoc; [done| |done|done|done].
        apply Hd. cbn. apply elem_of_cons. by left.
    + intros [= <- <-]. exists rep. split; [done|]. destruct Hb as (K1 & K2 & K3). split_and!; [done|done|].
      intros x. by rewrite (set_priority_fail _ _ _ _ _ x Hset).
Qed.

(** What restoring may do to a thread. *)
Lemma restore_priorities_spec (last : B → Z) l n b m b' :
  NoDup (adjusted_ids l) →
  restore_priorities last l n b = (Success m, b') →
  0 <= n → n + len l < 2 ^ 64 →
  ∃ done : list PriorityAdjustment,
    done ⊆+ l ∧ m = n + len done ∧
    Forall (λ a, prio b (pa_threadId a) = appliedPriority a ∧
                 prio b' (pa_threadId a) = originalPriority a) done ∧
    ∀ t, t ∉ adjusted_ids done → prio b' t = prio b t.
Proof.
  revert n b. induction l as [|a l IH]; intros n b Hn; cbn [restore_priorities].
  - intros [= <- <-] _ _. exists []. split_and!; [done|cbn; lia|done|done].
  - cbn [adjusted_ids map] in Hn. apply NoDup_cons in Hn as [Ha Hn]. cbn [length].
    intros E Hn0 Hlen. unfold mthen in E.
    assert (∀ u, prio (GetPriority (pa_threadId a) b).2 u = prio b u) as Hg by apply get_priority_same.
    destruct (GetPriority (pa_threadId a) b) as [[p|e] b1] eqn:Hget; cbn in Hg.
    2: { destruct (IH n b1 Hn E ltac:(lia) ltac:(lia)) as (dn & Hs & Hm & Hf & Hu). exists dn.
         split_and!; [by apply submseteq_cons|done| |].
         - eapply Forall_impl; [exact Hf|]. intros x [Hx1 Hx2]. by rewrite Hg in Hx1.
         - intros t Ht. by rewrite Hu, Hg. }
    apply get_priority in Hget as ->.
    destruct (Z.eqb_spec (prio b (pa_threadId a)) (appliedPriority a)) as [Heq|Hne]; cbn [negb] in E.
    2: { destruct (IH n b1 Hn E ltac:(lia) ltac:(lia)) as (dn & Hs & Hm & Hf & Hu). exists dn.
         split_and!; [by apply submseteq_cons|done| |].
         - eapply Forall_impl; [exact Hf|]. intros x [Hx1 Hx2]. by rewrite Hg in Hx1.
         - intros t Ht. by rewrite Hu, Hg. }
    destruct (SetPriority (pa_threadId a) (originalPriority a) b1) as [[u|e] b2] eqn:Hset; [|done].
    rewrite u64_small in E by (unfold is_u64; lia).
    destruct (IH (n + 1) b2 Hn E ltac:(lia) ltac:(lia)) as (dn & Hs & Hm & Hf & Hu).
    assert (pa_threadId a ∉ adjusted_ids dn) as Hda.
    { intros Hin. apply Ha. unfold adjusted_ids in *. eapply elem_of_submseteq; [exact Hin|].
      by apply (fmap_submseteq pa_threadId). }
    exists (a :: dn). split_and!.
    + by apply submseteq_skip.
    + cbn [length]. lia.
    + constructor.
      * split; [done|]. rewrite Hu by done. rewrite (set_priority _ _ _ _ _ _ Hset). by rewrite decide_True.
      * rewrite Forall_forall in Hf |- *. intros x Hx. destruct (Hf x Hx) as [Hx1 Hx2]. split; [|done].
        rewrite <- Hx1, (set_priority _ _ _ _ _ _ Hset), decide_False, Hg; [done|].
        intros E'. apply Hda. unfold adjusted_ids. rewrite <- E'. apply list_elem_of_In, in_map, list_elem_of_In, Hx.
    + intros t Ht. cbn in Ht. apply not_elem_of_cons in Ht as [Hta Htd].
      rewrite Hu by done. rewrite (set_priority _ _ _ _ _ _ Hset), decide_False by done. apply Hg.
Qed.

Lemma BoostProcessThreads_boosted pid target b r b' :
  BoostProcessThreads pid target b = (Success r, b') → boosted target b b' (adjusted r).
Proof.
  unfold BoostProcessThreads, mthen. destruct (negb _); [done|].
  destruct (ListThreads pid b) as [[l|e] b1] eqn:Hl; [|done]. intros E.
  destruct (list_threads _ _ _ _ Hl) as [Hn Hf].
  pose proof (list_threads_same pid b) as Hs. rewrite Hl in Hs. cbn in Hs.
  destruct (boost_threads_spec target b l (MkBoostReport [] 0) b1 (Success r) b' Hn Hf)
    as (rep & [= <-] & Hb); [|split_and!; [apply NoDup_nil_2|constructor|exact Hs]|exact E|exact Hb].
  intros t _. apply not_elem_of_nil.
Qed.

(** Raising the threads of a process and taking it back. Raising touches
    only threads below the target and reports exactly those, with what they had.
    Whatever happens in between, restoring then gives threads back exactly what
    they had, only such as still have the target, and touches nothing else; if
    nothing happened in between and it restored all, everything is as it was. *)
Lemma boost_then_restore (last : B → Z) pid target b0 rep b1 b2 n b3 :
  BoostProcessThreads pid target b0 = (Success rep, b1) → len (adjusted rep) < 2 ^ 64 →
  RestorePriorities last (adjusted rep) b2 = (Success n, b3) →
  boosted target b0 b1 (adjusted rep) ∧
  (∃ done : list PriorityAdjustment,
     done ⊆+ adjusted rep ∧ n = len done ∧
     (∀ a, a ∈ done → prio b2 (pa_threadId a) = target ∧
                      prio b3 (pa_threadId a) = prio b0 (pa_threadId a)) ∧
     ∀ t, t ∉ adjusted_ids done → prio b3 t = prio b2 t) ∧
  (b2 = b1 → n = len (adjusted rep) → ∀ t, prio b3 t = prio b0 t).
Proof.
  intros Hb%BoostProcessThreads_boosted Hl Hr. split; [done|].
  pose proof Hb as (Hn & Hf & Hp).
  destruct (restore_priorities_spec last _ 0 b2 n b3 Hn Hr ltac:(lia) ltac:(lia))
    as (dn & Hs & Hm & Hd & Hu). rewrite Z.add_0_l in Hm.
  assert (∀ a, a ∈ dn → prio b2 (pa_threadId a) = target ∧
                        prio b3 (pa_threadId a) = prio b0 (pa_threadId a)) as Hdn.
  { intros a Ha. rewrite Forall_forall in Hd, Hf.
    destruct (Hf a (elem_of_submseteq _ _ _ Ha Hs)) as (Ho & _ & Happ).
    destruct (Hd a Ha) as [Ha1 Ha2]. by rewrite Ha1, Ha2, Ho, Happ. }
  split; [by exists dn|]. intros -> Hall t.
  assert (dn ≡ₚ adjusted rep) as Hperm.
  { apply submseteq_length_Permutation; [done|]. lia. }
  destruct (decide (t ∈ adjusted_ids dn)) as [Hin|Hout].
  - unfold adjusted_ids in Hin. apply list_elem_of_In, in_map_iff in Hin as (a & <- & Ha).
    apply Hdn. by apply list_elem_of_In.
  - rewrite Hu by done. rewrite Hp, bool_decide_eq_false_2; [done|].
    intros Hin. apply Hout. unfold adjusted_ids in *. by rewrite Hperm.
Qed.

End Laws.

(** ** What the real backend makes up *)

(** A thread whose priority cannot be read is listed with priority 0, although
    the listing means to skip what it cannot read; raising then puts that 0 on
    record as what the thread had. *)
Lemma unread_priority_listed {B} `{SystemMessages, ThreadApi B} tid b h b1 b2 b3 mask :
  OpenThread tid THREAD_QUERY_LIMITED_INFORMATION b = (Some h, b1) →
  GetThreadPriority h b1 = (THREAD_PRIORITY_ERROR_RETURN, b2) →
  GetThreadGroupAffinity h b2 = (mask, b3) →
  ∀ pid, (snapshot_thread (MkEntry tid pid) b).1 = Some (MkThread tid 0 (default 0 mask)).
Proof.
  intros H1 H2 H3 pid. unfold snapshot_thread, closing, mthen. cbn [th32ThreadID].
  rewrite H1, H2, H3. cbn. by destruct (CloseHandle h b3).
Qed.

(** ** Witnesses *)

(** A process of three threads. *)
Abbreviation Threads := (gmap Z Z).

#[export] Instance threads_backend : SchedulerBackend Threads := {|
  ListThreads _ b := (Success (map (λ p, MkThread p.1 p.2 1) (map_to_list b)), b);
  GetPriority t b := (match b !! t with Some p => Success p | None => Failure (Validation "" "") end, b);
  SetPriority t p b := (Success tt, <[t := p]> b);
  GetAffinity _ b := (Success 1, b);
  SetAffinity _ _ b := (Success tt, b)
|}.

#[export] Program Instance threads_laws : SchedulerLaws Threads := {| prio b t := default 0 (b !! t) |}.
Next Obligation.
  intros pid b l b' [= <- <-]. rewrite map_map. split; [apply NoDup_fst_map_to_list|].
  apply Forall_forall. intros t Ht. apply list_elem_of_In, in_map_iff in Ht as ([k p] & <- & Hin).
  apply list_elem_of_In, elem_of_map_to_list in Hin.
  exact (f_equal (default 0) (eq_sym Hin)).
Qed.
Next Obligation. done. Qed.
Next Obligation. intros t b p b'. cbn. by destruct (b !! t) as [q|]; intros [= <- <-]. Qed.
Next Obligation. done. Qed.
Next Obligation.
  intros t p b r b' u. cbn. intros [= _ <-]. destruct (decide (u = t)) as [->|Hu].
  - by rewrite lookup_insert_eq.
  - by rewrite lookup_insert_ne.
Qed.
Next Obligation. done. Qed.

Definition three : Threads := <[1 := 0]> (<[2 := 2]> (<[3 := -1]> ∅)).

Section Three.
#[local] Existing Instance no_messages.

Definition three_raised : Threads := (BoostProcessThreads 7 1 three).2.
Definition three_report : BoostReport :=
  match (BoostProcessThreads 7 1 three).1 with Success r => r | Failure _ => MkBoostReport [] 0 end.

Lemma boost_then_restore_witness :
  map (prio three_raised) [1; 2; 3] = [1; 2; 1] ∧
  map (prio (RestorePriorities (λ _, 5) (adjusted three_report) three_raised).2) [1; 2; 3] =
  map (prio three) [1; 2; 3].
Proof.
  split; [vm_compute; reflexivity|]. apply map_ext.
  refine (proj2 (proj2 (boost_then_restore (λ _, 5) 7 1 three three_report three_raised three_raised 2
            (RestorePriorities (λ _, 5) (adjusted three_report) three_raised).2 _ _ _)) eq_refl _);
    vm_compute; reflexivity.
Defined.

Lemma ParseAdjustmentRecord_Format_witness :
  ParseAdjustmentRecord (FormatAdjustmentRecord 7 [MkAdjustment 1 0 1; MkAdjustment 3 (-1) 1]) =
  Success [MkAdjustment 1 0 1; MkAdjustment 3 (-1) 1].
Proof.
  apply ParseAdjustmentRecord_Format; [lia|].
  repeat constructor; cbn; unfold is_u32; lia.
Defined.
End Three.
