(* ===== verification/Recovery.v ===== *)
(** The marker of a session that has not ended ([service/recovery_marker]) and
    its use when the host starts and ends ([RunServiceConsoleCommand] in
    [main.cpp], under [--ipc-facts]): written when a session begins, removed
    when it ends normally, so that a session which dies leaves it behind. *)

From S2P Require Import Prelude CommonError Containers Paths Crash.

Open Scope string_scope.
Open Scope list_scope.
Open Scope Z_scope.

Definition kRecoveryMarkerEnvelope : string := "CppOptimizerRecovery/1".

(** [std::filesystem::remove] with its error code: 0 also when there was
    nothing to remove. *)
Class FileRemoval (W : Type) := remove_ec : string → M W Z.

Class FileRemovalLaws (W : Type) `{FileSystemLaws W} `{!FileRemoval W} := {
  remove_ec_file : ∀ p w w', remove_ec p w = (0, w') → file p w' = None;
  remove_ec_fail : ∀ p w e w', remove_ec p w = (e, w') → e ≠ 0 → file p w' = file p w;
  remove_ec_other : ∀ p w q, q ≠ p → file q (remove_ec p w).2 = file q w
}.

Inductive RecoveryAnomalyAction := AnomalyNone | Latch | NoteOnly.

Definition DecideRecoveryAnomalyAction (markerSet confirmRecovery latchEnabled : bool) :
    RecoveryAnomalyAction :=
  if negb markerSet || confirmRecovery then AnomalyNone
  else if latchEnabled then Latch else NoteOnly.

Definition marker_text : string := kRecoveryMarkerEnvelope +:+ String LF ("unclean" +:+ String LF "").

(** What [std::getline] reads first. *)
Definition first_line (text : string) : string :=
  match getlines text with l :: _ => l | [] => "" end.

Section Marker.
Context {W : Type} `{SystemMessages} `{FileSystem W, !FileRemoval W}.

Definition WriteRecoveryMarker (path : string) : M W (Result unit) :=
  ec <-- make_parent path ;;
  if negb (ec =? 0) then mret (Failure (FromWin32 (u32 ec) "create_directories(recovery marker)"))
  else
    out <-- write_trunc path marker_text ;;
    match out with
    | OpenFailed => λ w, (Failure (FromWin32 (u32 (GetLastError w)) "open recovery marker for write"), w)
    | FlushFailed => λ w, (Failure (FromWin32 (u32 (GetLastError w)) "flush recovery marker"), w)
    | Written => mret (Success tt)
    end.

Definition ClearRecoveryMarker (path : string) : M W (Result unit) :=
  ec <-- remove_ec path ;;
  if negb (ec =? 0) then mret (Failure (FromWin32 (u32 ec) "remove recovery marker"))
  else mret (Success tt).

Definition IsRecoveryMarkerSet (path : string) (w : W) : Result bool :=
  match open_read path w with
  | None =>
      let '(present, ec) := exists_file path w in
      if negb present && (ec =? 0) then Success false
      else Failure (FromWin32 (u32 (GetLastError w)) "open recovery marker for read")
  | Some text => Success (String.eqb (drop_cr (first_line text)) kRecoveryMarkerEnvelope)
  end.

(** What the host finds and does when a session begins: the marker of the last
    session, unless it is confirmed away; a marker that cannot be read counts as
    none; results of writing and clearing are ignored. *)
Definition session_begin (path : string) (confirmRecovery latchEnabled : bool) :
    M W RecoveryAnomalyAction :=
  (if confirmRecovery then ClearRecoveryMarker path ;;; mret tt else mret tt) ;;;
  λ w,
    let markerSet := match IsRecoveryMarkerSet path w with Success b => b | Failure _ => false end in
    let action := DecideRecoveryAnomalyAction markerSet confirmRecovery latchEnabled in
    (WriteRecoveryMarker path ;;; mret action) w.

(** When it ends: the marker goes only if the host returned normally. *)
Definition session_end (path : string) (ok : bool) : M W unit :=
  if ok then ClearRecoveryMarker path ;;; mret tt else mret tt.

End Marker.

(** * Facts *)

Section Theorems.
Context {W : Type} `{SystemMessages} `{FileRemovalLaws W}.
Variable path : string.

Definition marker_set (w : W) : bool :=
  match file path w with
  | Some text => String.eqb (drop_cr (first_line text)) kRecoveryMarkerEnvelope
  | None => false
  end.

Lemma IsRecoveryMarkerSet_spec w b : IsRecoveryMarkerSet path w = Success b → b = marker_set w.
Proof.
  unfold IsRecoveryMarkerSet, marker_set. destruct (open_read path w) as [t|] eqn:Ho.
  - intros [= <-]. by rewrite (open_read_file _ _ _ Ho).
  - destruct (exists_file path w) as [[] ec] eqn:E; cbn [negb andb]; [done|].
    destruct (Z.eqb_spec ec 0) as [->|]; [|done]. intros [= <-]. by rewrite (exists_file_none _ _ E).
Qed.

Lemma WriteRecoveryMarker_spec w r w' :
  WriteRecoveryMarker path w = (r, w') → r = Success tt → marker_set w' = true.
Proof.
  unfold WriteRecoveryMarker, mthen.
  destruct (make_parent path w) as [ec w1]. destruct (negb _); [by intros [= <- <-]|].
  destruct (write_trunc path marker_text w1) as [[] w2] eqn:E; intros [= <- <-]; [|done|done].
  intros _. unfold marker_set. by rewrite (write_trunc_file _ _ _ _ E).
Qed.

Lemma ClearRecoveryMarker_spec w r w' :
  ClearRecoveryMarker path w = (r, w') →
  match r with Success _ => marker_set w' = false | Failure _ => marker_set w' = marker_set w end.
Proof.
  unfold ClearRecoveryMarker, mthen, marker_set. destruct (remove_ec path w) as [ec w1] eqn:E.
  destruct (Z.eqb_spec ec 0) as [->|Hne]; cbn [negb]; intros [= <- <-].
  - by rewrite (remove_ec_file _ _ _ E).
  - by rewrite (remove_ec_fail _ _ _ _ E Hne).
Qed.

(** One session: how it begins, whether it ends normally, and what else happens
    to the world while it lasts, which leaves the marker alone. *)
Record Session := MkSession { confirms : bool; latches : bool; ends : bool }.

(** The marker after a session whose file operations succeed. *)
Inductive session_run (s : Session) (w : W) : RecoveryAnomalyAction → W → Prop :=
  | session_runs action w1 w2 w3 b wc :
      session_begin path (confirms s) (latches s) w = (action, w1) →
      (if confirms s then ClearRecoveryMarker path w = (Success tt, wc) else wc = w) →
      IsRecoveryMarkerSet path wc = Success b →
      (WriteRecoveryMarker path wc).1 = Success tt →
      file path w2 = file path w1 →
      session_end path (ends s) w2 = (tt, w3) →
      (ends s = true → (ClearRecoveryMarker path w2).1 = Success tt) →
      session_run s w action w3.

(** The marker tells, exactly, of the last session: one that ended normally
    leaves none, one that died leaves it, and a session reports an anomaly
    exactly when it finds one it was not told to confirm. Hence an anomaly is
    reported once: a session that latched on it and then ends normally, without
    any confirmation, leaves nothing to confirm. *)
Lemma session_marker s w action w' :
  session_run s w action w' →
  marker_set w' = negb (ends s) ∧
  action = DecideRecoveryAnomalyAction (marker_set w) (confirms s) (latches s).
Proof.
  intros [act w1 w2 w3 b wc Hb Hc Hi Hw Hf He Hend].
  apply IsRecoveryMarkerSet_spec in Hi as Hbs.
  assert (marker_set w1 = true ∧ act = DecideRecoveryAnomalyAction b (confirms s) (latches s)) as [Hm Ha].
  { unfold session_begin, mthen in Hb. destruct (confirms s).
    - rewrite Hc in Hb. cbn in Hb. rewrite Hi in Hb.
      destruct (WriteRecoveryMarker path wc) as [r w4] eqn:Ew. injection Hb as <- <-.
      split; [|done]. by eapply WriteRecoveryMarker_spec.
    - subst wc. cbn in Hb. rewrite Hi in Hb.
      destruct (WriteRecoveryMarker path w) as [r w4] eqn:Ew. injection Hb as <- <-.
      split; [|done]. by eapply WriteRecoveryMarker_spec. }
  split.
  - assert (marker_set w2 = true) as Hm2 by (unfold marker_set in *; by rewrite Hf).
    unfold session_end in He. destruct (ends s); cbn [negb].
    + specialize (Hend eq_refl). unfold mthen in He.
      destruct (ClearRecoveryMarker path w2) as [r w4] eqn:Ec. cbn in Hend. subst r.
      injection He as <-. apply (ClearRecoveryMarker_spec _ _ _ Ec).
    + injection He as <-. done.
  - rewrite Ha. destruct (confirms s).
    + unfold DecideRecoveryAnomalyAction. by rewrite !orb_true_r.
    + subst wc. by rewrite Hbs.
Qed.

(** The reports of a list of sessions, one after the other. *)
Inductive sessions_run : list Session → W → list RecoveryAnomalyAction → W → Prop :=
  | no_sessions w : sessions_run [] w [] w
  | more_sessions s ss w a w1 as_ w2 :
      session_run s w a w1 → sessions_run ss w1 as_ w2 → sessions_run (s :: ss) w (a :: as_) w2.

Fixpoint expected_reports (died : bool) (ss : list Session) : list RecoveryAnomalyAction :=
  match ss with
  | [] => []
  | s :: ss' =>
      DecideRecoveryAnomalyAction died (confirms s) (latches s) :: expected_reports (negb (ends s)) ss'
  end.

(** Over any sequence of sessions, each reports an anomaly exactly when the
    session right before it died and it was not told to confirm. *)
Lemma sessions_report ss w reports w' :
  sessions_run ss w reports w' → reports = expected_reports (marker_set w) ss.
Proof.
  induction 1 as [|s ss w a w1 as_ w2 Hs _ IH]; [done|]. cbn.
  destruct (session_marker _ _ _ _ Hs) as [Hm ->]. by rewrite IH, Hm.
Qed.

End Theorems.

(** ** Witness *)

#[export] Instance mem_removal : FileRemoval MemFs := λ p w,
  (0, MkMemFs (delete p (files w)) (read_only w)).

#[export] Program Instance mem_removal_laws : FileRemovalLaws MemFs.
Next Obligation. intros p w w' [= <-]. cbn. apply lookup_delete_eq. Qed.
Next Obligation. by intros p w e w' [= <- <-]. Qed.
Next Obligation. intros p w q Hne. cbn. by apply lookup_delete_ne. Qed.

Section Nights.
#[local] Existing Instance no_messages.

(** A session dies; the next one latches and is closed by hand; the one after
    it, never confirmed, starts as if nothing had happened. Sessions in memory
    all succeed. *)
Definition night_begin (s : Session) (w : MemFs) : MemFs :=
  (session_begin "m" (confirms s) (latches s) w).2.
Definition night (s : Session) (w : MemFs) : MemFs := (session_end "m" (ends s) (night_begin s w)).2.

Ltac run_night :=
  match goal with
  | |- session_run _ ?s ?w _ _ =>
      apply (session_runs "m" s w _ (night_begin s w) (night_begin s w) _ (marker_set "m" w) w);
      vm_compute; first [reflexivity | intros; reflexivity]
  end.

Lemma sessions_report_witness :
  let s1 := MkSession false true false in
  let s2 := MkSession false true true in
  [AnomalyNone; Latch; AnomalyNone] = expected_reports false [s1; s2; s2].
Proof.
  intros s1 s2.
  refine (sessions_report "m" [s1; s2; s2] empty_fs _ (night s2 (night s2 (night s1 empty_fs))) _).
  apply (more_sessions _ _ _ _ _ (night s1 empty_fs)); [run_night|].
  apply (more_sessions _ _ _ _ _ (night s2 (night s1 empty_fs))); [run_night|].
  apply (more_sessions _ _ _ _ _ (night s2 (night s2 (night s1 empty_fs)))); [run_night|].
  apply no_sessions.
Defined.

Lemma session_marker_witness :
  let s := MkSession false true false in
  marker_set "m" (night s empty_fs) = true ∧ AnomalyNone = AnomalyNone.
Proof.
  intros s. refine (session_marker "m" s empty_fs AnomalyNone (night s empty_fs) _). run_night.
Defined.
End Nights.
