(* ===== verification/AgentForms.v ===== *)
(** The three ways the host can be resident ([service/agent_form]), the entry
    in the registry's Run key ([service/startup_entry]) and the guard that only
    one host runs ([service/host_instance]). The registry and the named mutexes
    are the classes [Registry] and [InstanceApi]. *)

From S2P Require Import Prelude CommonError.

Open Scope string_scope.
Open Scope list_scope.
Open Scope Z_scope.

(** ** Forms *)

Module AgentForm.
Inductive AgentForm := StartupTray | ScheduledTask | Service.
End AgentForm.
Abbreviation AgentForm := AgentForm.AgentForm.

#[export] Instance AgentForm_eq_dec : EqDecision AgentForm.
Proof. solve_decision. Defined.

Definition DefaultAgentForm : AgentForm := AgentForm.StartupTray.

Definition AgentFormToString (form : AgentForm) : string :=
  match form with
  | AgentForm.StartupTray => "startup_tray"
  | AgentForm.ScheduledTask => "task"
  | AgentForm.Service => "service"
  end.

(** Lower case, hyphens as underscores; the empty string for a text that is
    not ASCII. *)
Fixpoint NormalizeAscii_go (text : wstring) (normalized : string) : string :=
  match text with
  | [] => normalized
  | ch :: rest =>
      if 127 <? ch then EmptyString
      else
        let narrow := ascii_of_N (Z.to_N ch) in
        let narrow := if Ascii.eqb narrow "-" then "_"%char else narrow in
        NormalizeAscii_go rest (normalized +:+ String (ascii_lower narrow) EmptyString)
  end.

Definition NormalizeAscii (text : wstring) : string := NormalizeAscii_go text "".

Definition ParseAgentForm (text : wstring) : option AgentForm :=
  let normalized := NormalizeAscii text in
  if String.eqb normalized "startup_tray" then Some AgentForm.StartupTray
  else if String.eqb normalized "task" then Some AgentForm.ScheduledTask
  else if String.eqb normalized "service" then Some AgentForm.Service
  else None.

Definition AgentFormRequiresElevation (form : AgentForm) : bool :=
  negb (bool_decide (form = AgentForm.StartupTray)).

Definition IsDefaultAgentForm (form : AgentForm) : bool := bool_decide (form = DefaultAgentForm).

Definition ConflictingAgentForms (target : AgentForm)
    (startupInstalled taskInstalled serviceInstalled : bool) : list AgentForm :=
  (if negb (bool_decide (target = AgentForm.StartupTray)) && startupInstalled
   then [AgentForm.StartupTray] else []) ++
  (if negb (bool_decide (target = AgentForm.ScheduledTask)) && taskInstalled
   then [AgentForm.ScheduledTask] else []) ++
  (if negb (bool_decide (target = AgentForm.Service)) && serviceInstalled
   then [AgentForm.Service] else []).

Record AgentFormAction := MkAction { action_form : AgentForm; action_install : bool }.

Definition ResolveFormApplyActions (declared : AgentForm)
    (startupInstalled taskInstalled serviceInstalled : bool) : list AgentFormAction :=
  let declaredInstalled :=
    match declared with
    | AgentForm.StartupTray => startupInstalled
    | AgentForm.ScheduledTask => taskInstalled
    | AgentForm.Service => serviceInstalled
    end in
  (if negb declaredInstalled then [MkAction declared true] else []) ++
  map (λ other, MkAction other false)
    (ConflictingAgentForms declared startupInstalled taskInstalled serviceInstalled).

(** ** The startup entry *)

Class StartupEntryBackend (B : Type) := {
  startup_read : M B (Result wstring);
  startup_write : wstring → M B (Result unit);
  startup_remove : M B (Result unit)
}.

Section Startup.
Context {B : Type} `{StartupEntryBackend B}.

Definition InstallStartupEntry (exePath : wstring) : M B (Result unit) :=
  if bool_decide (exePath = []) then
    mret (Failure (Validation "InstallStartupEntry" "可执行文件路径不能为空"))
  else startup_write ([34] ++ exePath ++ [34]).

Definition RemoveStartupEntry : M B (Result unit) := startup_remove.
Definition QueryStartupEntry : M B (Result wstring) := startup_read.
End Startup.

Definition kRunKeyPath : string := "Software\Microsoft\Windows\CurrentVersion\Run".
Definition kStartupValueName : string := "CppOptimizer".
Definition KEY_QUERY_VALUE : Z := 1.
Definition KEY_SET_VALUE : Z := 2.
Definition REG_SZ : Z := 1.
Definition ERROR_FILE_NOT_FOUND : Z := 2.

(** Statuses are those of [winreg.h], 0 for success; a query of a value answers
    its type and its bytes, then its units. Keys are closed when they go out of
    scope, on the current user's hive. *)
Class Registry (B : Type) := {
  RegOpenKeyExW : string → Z → M B (Z * Z);
  RegCreateKeyExW : string → Z → M B (Z * Z);
  RegQueryValueSize : Z → string → M B (Z * Z * Z);
  RegQueryValueData : Z → string → Z → M B (Z * wstring);
  RegSetValueExW : Z → string → Z → wstring → M B Z;
  RegDeleteValueW : Z → string → M B Z;
  RegCloseKey : Z → M B unit
}.

Section Win32.
Context {B : Type} `{SystemMessages, Registry B}.

Definition with_key {A} (key : Z) (m : M B A) : M B A := a <-- m ;; RegCloseKey key ;;; mret a.

Definition win32_failure {A} (status : Z) (op : string) : M B (Result A) :=
  mret (Failure (FromWin32 (u32 status) op)).

(** A text without the NUL that may end it. *)
Definition drop_nul (value : wstring) : wstring :=
  match rev value with
  | 0 :: r => rev r
  | _ => value
  end.

(** [n] units of a buffer of zeros the data was copied to. *)
Definition filled (n : Z) (data : wstring) : wstring :=
  take (Z.to_nat n) (data ++ replicate (Z.to_nat n) 0).

Definition read_run_value (key : Z) : M B (Result wstring) :=
  size <-- RegQueryValueSize key kStartupValueName ;;
  let '(queried, type, bytes) := size in
  if queried =? ERROR_FILE_NOT_FOUND then mret (Success [])
  else if negb (queried =? 0) then win32_failure queried "RegQueryValueExW(size)"
  else if negb (type =? REG_SZ) || (bytes <? 2) then
    mret (Failure (Validation "QueryStartupEntry" "自启动值类型不是 REG_SZ"))
  else
    data <-- RegQueryValueData key kStartupValueName bytes ;;
    let '(queried, units) := data in
    if negb (queried =? 0) then win32_failure queried "RegQueryValueExW(value)"
    else mret (Success (drop_nul (filled (bytes / 2) units))).

#[export] Instance Win32StartupEntryBackend : StartupEntryBackend B := {|
  startup_read :=
    o <-- RegOpenKeyExW kRunKeyPath KEY_QUERY_VALUE ;;
    let '(opened, key) := o in
    if opened =? ERROR_FILE_NOT_FOUND then mret (Success [])
    else if negb (opened =? 0) then win32_failure opened "RegOpenKeyExW(startup run key)"
    else with_key key (read_run_value key);
  startup_write quotedCommand :=
    o <-- RegCreateKeyExW kRunKeyPath KEY_SET_VALUE ;;
    let '(opened, key) := o in
    if negb (opened =? 0) then win32_failure opened "RegCreateKeyExW(startup run key)"
    else
      with_key key
        (written <-- RegSetValueExW key kStartupValueName REG_SZ (quotedCommand ++ [0]) ;;
         if negb (written =? 0) then win32_failure written "RegSetValueExW(startup entry)"
         else mret (Success tt));
  startup_remove :=
    o <-- RegOpenKeyExW kRunKeyPath KEY_SET_VALUE ;;
    let '(opened, key) := o in
    if opened =? ERROR_FILE_NOT_FOUND then mret (Success tt)
    else if negb (opened =? 0) then win32_failure opened "RegOpenKeyExW(startup run key)"
    else
      with_key key
        (deleted <-- RegDeleteValueW key kStartupValueName ;;
         if (deleted =? 0) || (deleted =? ERROR_FILE_NOT_FOUND) then mret (Success tt)
         else win32_failure deleted "RegDeleteValueW(startup entry)")
|}.
End Win32.

(** ** One host *)

Class InstanceApi (B : Type) := {
  CreateMutexW : wstring → M B (option Z);
  mutex_error : B → Z;
  close_mutex : Z → M B unit;
  GetUserNameW : Z → M B (bool * Z * wstring)
}.

Definition ERROR_ALREADY_EXISTS : Z := 183.
Definition ERROR_INSUFFICIENT_BUFFER : Z := 122.

Section Instance_.
Context {B : Type} `{InstanceApi B}.

(** The handle that holds the lock. *)
Definition TryAcquireHostInstance (name : wstring) : M B (option Z) :=
  if bool_decide (name = []) then mret None
  else
    handle <-- CreateMutexW name ;;
    match handle with
    | None => mret None
    | Some h => λ b,
        if mutex_error b =? ERROR_ALREADY_EXISTS then (close_mutex h ;;; mret None) b
        else (Some h, b)
    end.

Definition kHostInstanceBase : wstring := widen "Local\CppOptimizerHost".

(** The loop of [DefaultHostInstanceName], with the size of its buffer; [None]
    when the fuel runs out. *)
Fixpoint host_name (fuel : nat) (size : Z) : M B (option wstring) :=
  match fuel with
  | O => mret None
  | S fuel' =>
      r <-- GetUserNameW size ;;
      let '(ok, written, units) := r in
      if ok : bool then
        mret (Some (kHostInstanceBase ++ widen "_" ++
                    take (if 0 <? written then Z.to_nat (written - 1) else O) units))
      else λ b,
        if negb (mutex_error b =? ERROR_INSUFFICIENT_BUFFER) then (Some kHostInstanceBase, b)
        else
          let required := if size <? written then written else size * 2 in
          if 1024 <? required then (Some kHostInstanceBase, b)
          else host_name fuel' required b
  end.

(** The buffer grows from 64 to at most 1024 units. *)
Definition DefaultHostInstanceName : M B (option wstring) := host_name 962 64.
End Instance_.

(** * Facts *)

(** ** Forms *)

(** Which forms are installed, and an action on them that succeeds. *)
Definition Installed : Type := bool * bool * bool.

Definition is_installed (i : Installed) (f : AgentForm) : bool :=
  let '(s, t, v) := i in
  match f with
  | AgentForm.StartupTray => s
  | AgentForm.ScheduledTask => t
  | AgentForm.Service => v
  end.

Definition act (i : Installed) (a : AgentFormAction) : Installed :=
  let '(s, t, v) := i in
  match action_form a with
  | AgentForm.StartupTray => (action_install a, t, v)
  | AgentForm.ScheduledTask => (s, action_install a, v)
  | AgentForm.Service => (s, t, action_install a)
  end.

Definition only (f : AgentForm) : Installed :=
  (bool_decide (f = AgentForm.StartupTray), bool_decide (f = AgentForm.ScheduledTask),
   bool_decide (f = AgentForm.Service)).

Lemma ParseAgentForm_ToString f : ParseAgentForm (widen (AgentFormToString f)) = Some f.
Proof. by destruct f. Qed.

(** The plan leads to the declared form alone; it is empty exactly when that is
    so already; and the declared form is installed after its first action and
    throughout what follows, so that there is never a moment without a form. *)
Lemma ResolveFormApplyActions_plan declared s t v :
  let plan := ResolveFormApplyActions declared s t v in
  foldl act (s, t, v) plan = only declared ∧
  (plan = [] ↔ (s, t, v) = only declared) ∧
  ∀ n, (n < length plan)%nat → is_installed (foldl act (s, t, v) (take (S n) plan)) declared = true.
Proof.
  destruct declared, s, t, v; cbn; (split; [done|]); (split; [by split|]);
    intros [|[|[|n]]] Hn; cbn; first [lia | reflexivity].
Qed.

(** ** The startup entry *)

(** The value under the Run key, with documented behaviour of the registry: a
    query answers the value's size and units when there is one, setting and
    deleting do what they say, opening and closing keys change no value. *)
Class RegistryLaws (B : Type) `{Registry B} := {
  run_value : B → option wstring;
  reg_open : ∀ p a b, run_value (RegOpenKeyExW p a b).2 = run_value b;
  reg_open_missing : ∀ a b, (RegOpenKeyExW kRunKeyPath a b).1.1 = ERROR_FILE_NOT_FOUND →
    run_value b = None;
  reg_create : ∀ p a b, run_value (RegCreateKeyExW p a b).2 = run_value b;
  reg_close : ∀ k b, run_value (RegCloseKey k b).2 = run_value b;
  reg_size : ∀ k b, run_value (RegQueryValueSize k kStartupValueName b).2 = run_value b;
  reg_size_ok : ∀ k b t n, (RegQueryValueSize k kStartupValueName b).1 = (0, t, n) →
    ∃ v, run_value b = Some v ∧ n = 2 * len v;
  reg_size_missing : ∀ k b t n,
    (RegQueryValueSize k kStartupValueName b).1 = (ERROR_FILE_NOT_FOUND, t, n) → run_value b = None;
  reg_data : ∀ k n b, run_value (RegQueryValueData k kStartupValueName n b).2 = run_value b;
  reg_data_ok : ∀ k n b u, (RegQueryValueData k kStartupValueName n b).1 = (0, u) →
    run_value b = Some u;
  reg_set : ∀ k t v b b', RegSetValueExW k kStartupValueName t v b = (0, b') → run_value b' = Some v;
  reg_set_fail : ∀ k t v b s b', RegSetValueExW k kStartupValueName t v b = (s, b') → s ≠ 0 →
    run_value b' = run_value b;
  reg_delete : ∀ k b s b', RegDeleteValueW k kStartupValueName b = (s, b') →
    s = 0 ∨ s = ERROR_FILE_NOT_FOUND → run_value b' = None;
  reg_delete_fail : ∀ k b s b', RegDeleteValueW k kStartupValueName b = (s, b') →
    s ≠ 0 → s ≠ ERROR_FILE_NOT_FOUND → run_value b' = run_value b
}.

(** What a client of the entry may rely on: reading answers the command, or
    nothing; what is written is read; a failure changes nothing. *)
Class StartupEntryLaws (B : Type) `{StartupEntryBackend B} := {
  entry : B → wstring;
  read_entry : ∀ b v b', startup_read b = (Success v, b') → v = entry b;
  read_entry_same : ∀ b, entry (startup_read b).2 = entry b;
  write_entry : ∀ c b u b', startup_write c b = (Success u, b') → entry b' = c;
  write_entry_fail : ∀ c b e b', startup_write c b = (Failure e, b') → entry b' = entry b;
  remove_entry : ∀ b u b', startup_remove b = (Success u, b') → entry b' = [];
  remove_entry_fail : ∀ b e b', startup_remove b = (Failure e, b') → entry b' = entry b
}.

Section RealEntry.
Context {B : Type} `{SystemMessages} `{RegistryLaws B}.

(** The command in the value: its units up to the NUL that ends it. *)
Definition run_entry (b : B) : wstring := default [] (drop_nul <$> run_value b).

Lemma filled_exact v : filled (len v) v = v.
Proof. unfold filled. rewrite Nat2Z.id. apply take_app_length. Qed.

Lemma with_key_inv {A} key (m : M B A) b a b' :
  with_key key m b = (a, b') → ∃ b1, m b = (a, b1) ∧ run_value b' = run_value b1.
Proof.
  unfold with_key, mthen, mret. destruct (m b) as [a1 b1]. pose proof (reg_close key b1) as Hc.
  destruct (RegCloseKey key b1) as [[] b2]. intros [= <- <-]. by exists b1.
Qed.

Lemma drop_nul_snoc c : drop_nul (c ++ [0]) = c.
Proof. unfold drop_nul. rewrite rev_app_distr. cbn. apply rev_involutive. Qed.

Lemma run_entry_same b b' : run_value b' = run_value b → run_entry b' = run_entry b.
Proof. unfold run_entry. by intros ->. Qed.

Lemma read_run_value_spec k b r b' :
  read_run_value k b = (r, b') →
  run_value b' = run_value b ∧ ∀ v, r = Success v → v = run_entry b.
Proof.
  unfold read_run_value, mthen. intros E.
  destruct (RegQueryValueSize k kStartupValueName b) as [[[st ty] n] b1] eqn:Hs.
  pose proof (reg_size k b) as Hs1. rewrite Hs in Hs1. cbn in Hs1.
  destruct (Z.eqb_spec st ERROR_FILE_NOT_FOUND) as [->|_].
  { injection E as <- <-. split; [done|]. intros v [= <-]. unfold run_entry.
    rewrite (reg_size_missing k b ty n); [done|]. by rewrite Hs. }
  destruct (Z.eqb_spec st 0) as [->|_]; cbn [negb] in E; [|by injection E as <- <-].
  destruct (_ || _); [by injection E as <- <-|].
  destruct (RegQueryValueData k kStartupValueName n b1) as [[st u] b2] eqn:Hd.
  pose proof (reg_data k n b1) as Hd1. rewrite Hd in Hd1. cbn in Hd1.
  destruct (Z.eqb_spec st 0) as [->|_]; cbn [negb] in E; injection E as <- <-;
    (split; [congruence|]); [|done].
  intros v [= <-]. destruct (reg_size_ok k b ty n) as (u' & Hu & ->); [by rewrite Hs|].
  pose proof (reg_data_ok k (2 * len u') b1 u) as Hu'. rewrite Hd in Hu'.
  specialize (Hu' eq_refl). rewrite Hs1, Hu in Hu'. injection Hu' as <-.
  unfold run_entry. rewrite Hu. cbn. rewrite Z.mul_comm, Z.div_mul by lia. by rewrite filled_exact.
Qed.

#[export] Program Instance Win32StartupEntryBackend_laws : StartupEntryLaws B := {|
  entry := run_entry
|}.
Next Obligation.
  intros b v b'. cbn. unfold mthen. pose proof (reg_open kRunKeyPath KEY_QUERY_VALUE b) as Ho.
  destruct (RegOpenKeyExW _ _ b) as [[st k] b1] eqn:E. cbn in Ho.
  destruct (Z.eqb_spec st ERROR_FILE_NOT_FOUND) as [->|_].
  { intros [= <- <-]. unfold run_entry. rewrite (reg_open_missing KEY_QUERY_VALUE b); [done|].
    by rewrite E. }
  destruct (negb _); [done|]. intros (b2 & Hr & _)%with_key_inv.
  destruct (read_run_value_spec _ _ _ _ Hr) as [_ Hv]. rewrite (Hv v eq_refl).
  by apply run_entry_same.
Qed.
Next Obligation.
  intros b. cbn. unfold mthen. pose proof (reg_open kRunKeyPath KEY_QUERY_VALUE b) as Ho.
  destruct (RegOpenKeyExW _ _ b) as [[st k] b1]. cbn in Ho.
  destruct (_ =? _); [by apply run_entry_same|]. destruct (negb _); [by apply run_entry_same|].
  destruct (with_key k _ b1) as [r b3] eqn:E. apply with_key_inv in E as (b2 & Hr & Hc). cbn.
  destruct (read_run_value_spec _ _ _ _ Hr) as [Hv _]. apply run_entry_same. congruence.
Qed.
Next Obligation.
  intros c b u b'. cbn. unfold mthen. destruct (RegCreateKeyExW _ _ b) as [[st k] b1].
  destruct (negb _); [done|]. intros (b2 & Hr & Hc)%with_key_inv.
  destruct (RegSetValueExW k _ _ _ b1) as [w b3] eqn:E.
  destruct (Z.eqb_spec w 0) as [->|_]; cbn [negb] in Hr; [|done]. injection Hr as _ <-.
  unfold run_entry. rewrite Hc, (reg_set _ _ _ _ _ E). cbn. apply drop_nul_snoc.
Qed.
Next Obligation.
  intros c b e b'. cbn. unfold mthen. pose proof (reg_create kRunKeyPath KEY_SET_VALUE b) as Ho.
  destruct (RegCreateKeyExW _ _ b) as [[st k] b1]. cbn in Ho.
  destruct (negb _); [intros [= _ <-]; by apply run_entry_same|].
  intros (b2 & Hr & Hc)%with_key_inv. destruct (RegSetValueExW k _ _ _ b1) as [w b3] eqn:E.
  destruct (Z.eqb_spec w 0) as [->|Hw]; cbn [negb] in Hr; [done|]. injection Hr as _ <-.
  apply run_entry_same. rewrite Hc, (reg_set_fail _ _ _ _ _ _ E Hw). done.
Qed.
Next Obligation.
  intros b u b'. cbn. unfold mthen. pose proof (reg_open kRunKeyPath KEY_SET_VALUE b) as Ho.
  destruct (RegOpenKeyExW _ _ b) as [[st k] b1] eqn:Eo. cbn in Ho.
  destruct (Z.eqb_spec st ERROR_FILE_NOT_FOUND) as [->|_].
  { intros [= _ <-]. unfold run_entry. rewrite Ho, (reg_open_missing KEY_SET_VALUE b); [done|].
    by rewrite Eo. }
  destruct (negb _); [done|]. intros (b2 & Hr & Hc)%with_key_inv.
  destruct (RegDeleteValueW k _ b1) as [d b3] eqn:E. unfold run_entry. rewrite Hc.
  destruct (Z.eqb_spec d 0) as [->|_]; [|destruct (Z.eqb_spec d ERROR_FILE_NOT_FOUND) as [->|_]];
    cbn [orb] in Hr; [..|done]; injection Hr as _ <-; rewrite (reg_delete _ _ _ _ E); auto.
Qed.
Next Obligation.
  intros b e b'. cbn. unfold mthen. pose proof (reg_open kRunKeyPath KEY_SET_VALUE b) as Ho.
  destruct (RegOpenKeyExW _ _ b) as [[st k] b1]. cbn in Ho.
  destruct (_ =? _); [done|]. destruct (negb _); [intros [= _ <-]; by apply run_entry_same|].
  intros (b2 & Hr & Hc)%with_key_inv. destruct (RegDeleteValueW k _ b1) as [d b3] eqn:E.
  destruct (Z.eqb_spec d 0) as [->|Hd0]; [done|].
  destruct (Z.eqb_spec d ERROR_FILE_NOT_FOUND) as [->|Hd1]; [done|]. cbn [orb] in Hr.
  injection Hr as _ <-. apply run_entry_same. rewrite Hc, (reg_delete_fail _ _ _ _ E Hd0 Hd1). done.
Qed.
End RealEntry.

(** ** One host *)

Section Instances.
Context {B : Type} `{InstanceApi B}.

Lemma host_name_total fuel size b :
  64 <= size <= 1024 → 1025 - size <= Z.of_nat fuel →
  ∃ name, (host_name fuel size b).1 = Some name ∧ kHostInstanceBase `prefix_of` name.
Proof.
  revert size b. induction fuel as [|fuel IH]; intros size b Hs Hf; [lia|].
  cbn [host_name]. unfold mthen. destruct (GetUserNameW size b) as [[[ok written] units] b1].
  destruct ok; [eexists; split; [reflexivity|]; by apply prefix_app_r|].
  destruct (negb _); [by eexists|].
  set (required := if size <? written then written else size * 2).
  assert (size < required) by (unfold required; destruct (Z.ltb_spec size written); lia).
  destruct (Z.ltb_spec 1024 required); [by eexists|]. apply IH; lia.
Qed.

(** Finding the name of the lock always ends, whatever the system answers
    about the size of the user's name, and every name it finds is one of the
    session's namespace: a mutex under [Local\] is not seen by another session
    of the same user, against what the guard is meant to exclude. *)
Lemma DefaultHostInstanceName_total b :
  ∃ name, (DefaultHostInstanceName b).1 = Some name ∧ widen "Local\" `prefix_of` name.
Proof.
  destruct (host_name_total 962 64 b ltac:(lia) ltac:(lia)) as (name & E & Hp).
  exists name. split; [exact E|]. etransitivity; [|exact Hp]. by exists (widen "CppOptimizerHost").
Qed.
End Instances.

(** What is registered to start is what a query answers: after an
    installation that succeeds, the quoted path; after a removal that succeeds,
    nothing, as often as it is repeated. Proved of any backend that keeps the
    promise of the interface, which the one on the registry does. *)
Lemma startup_entry_round_trip {B} `{StartupEntryLaws B} exe b u b1 v b2 :
  InstallStartupEntry exe b = (Success u, b1) →
  QueryStartupEntry b1 = (Success v, b2) →
  v = [34] ++ exe ++ [34] ∧
  ∀ u' b3 v' b4, RemoveStartupEntry b2 = (Success u', b3) →
                 QueryStartupEntry b3 = (Success v', b4) → v' = [].
Proof.
  unfold InstallStartupEntry, QueryStartupEntry, RemoveStartupEntry. intros Hi Hq.
  destruct (bool_decide _); [done|]. split.
  - rewrite (read_entry _ _ _ Hq). by eapply write_entry.
  - intros u' b3 v' b4 Hr Hq'. rewrite (read_entry _ _ _ Hq'). by eapply remove_entry.
Qed.

(** ** Witness: a registry of one value *)

Abbreviation OneValue := (option wstring).

#[export] Instance one_value : Registry OneValue := {|
  RegOpenKeyExW _ _ := mret (0, 1);
  RegCreateKeyExW _ _ := mret (0, 1);
  RegQueryValueSize _ _ b :=
    (match b with Some v => (0, REG_SZ, 2 * len v) | None => (ERROR_FILE_NOT_FOUND, 0, 0) end, b);
  RegQueryValueData _ _ _ b := (match b with Some v => (0, v) | None => (ERROR_FILE_NOT_FOUND, []) end, b);
  RegSetValueExW _ _ _ v _ := (0, Some v);
  RegDeleteValueW _ _ b := (match b with Some _ => 0 | None => ERROR_FILE_NOT_FOUND end, None);
  RegCloseKey _ := mret tt
|}.

#[export] Program Instance one_value_laws : RegistryLaws OneValue := {| run_value b := b |}.
Next Obligation. done. Qed.
Next Obligation. done. Qed.
Next Obligation. done. Qed.
Next Obligation. done. Qed.
Next Obligation. done. Qed.
Next Obligation. intros k [v|] t n; cbn; [|done]. intros [= <- <-]. by exists v. Qed.
Next Obligation. by intros k [v|] t n. Qed.
Next Obligation. done. Qed.
Next Obligation. intros k n [v|] u; cbn; [|done]. by intros [= <-]. Qed.
Next Obligation. by intros k t v b b' [= <-]. Qed.
Next Obligation. by intros k t v b s b' [= <- _]. Qed.
Next Obligation. by intros k b s b' [= _ <-]. Qed.
Next Obligation. intros k [v|] s b' [= <- <-]; done. Qed.

Section OneEntry.
#[local] Existing Instance no_messages.

Lemma startup_entry_round_trip_witness :
  let b1 := (InstallStartupEntry (widen "C:\a b.exe") (None : OneValue)).2 in
  (QueryStartupEntry b1).1 = Success ([34] ++ widen "C:\a b.exe" ++ [34]).
Proof.
  cbv zeta.
  set (b1 := (InstallStartupEntry (widen "C:\a b.exe") (None : OneValue)).2).
  refine (f_equal Success (proj1 (startup_entry_round_trip (widen "C:\a b.exe") None tt b1
            (match (QueryStartupEntry b1).1 with Success v => v | Failure _ => [] end)
            (QueryStartupEntry b1).2 _ _))); vm_compute; reflexivity.
Defined.
End OneEntry.
