(* ===== verification/ScheduledTask.v ===== *)
(** The scheduled task that starts the host at logon ([service/scheduled_task]):
    the checks of the three operations, the backend on Task Scheduler, and the
    definition it registers. The COM interfaces are the class [TaskApi]: a call
    answers its HRESULT and whether it delivered the object it is asked for. *)

From S2P Require Import Prelude CommonError.

Open Scope string_scope.
Open Scope list_scope.
Open Scope Z_scope.

Definition kScheduledTaskName : wstring := widen "CppOptimizer".

Inductive TaskTrigger := OnLogon | OnBoot.

#[export] Instance TaskTrigger_eq_dec : EqDecision TaskTrigger.
Proof. solve_decision. Defined.

Record ScheduledTaskSpec := MkTaskSpec {
  taskName : wstring;
  commandLine : wstring;
  trigger : TaskTrigger
}.

Record ScheduledTaskStatus := MkTaskStatus {
  task_installed : bool;
  task_commandLine : wstring;
  task_trigger : wstring
}.

Class ScheduledTaskBackend (B : Type) := {
  task_read : wstring → M B (Result ScheduledTaskStatus);
  task_create : ScheduledTaskSpec → M B (Result unit);
  task_remove : wstring → M B (Result unit)
}.

Definition has_backslash (s : wstring) : bool := existsb (Z.eqb 92) s.

Section Operations.
Context {B : Type} `{ScheduledTaskBackend B}.

Definition InstallScheduledTask (spec : ScheduledTaskSpec) : M B (Result unit) :=
  if bool_decide (taskName spec = []) then
    mret (Failure (Validation "InstallScheduledTask" "任务名不能为空"))
  else if has_backslash (taskName spec) then
    mret (Failure (Validation "InstallScheduledTask" "任务名不能包含路径分隔符"))
  else if bool_decide (commandLine spec = []) then
    mret (Failure (Validation "InstallScheduledTask" "命令行不能为空"))
  else if negb (bool_decide (trigger spec = OnLogon)) then
    mret (Failure (Validation "InstallScheduledTask"
      "当前仅支持登录触发；开机触发需以 SYSTEM 运行，与“托盘与 Agent 进程永不提权”的分界冲突"))
  else task_create spec.

Definition RemoveScheduledTask (name : wstring) : M B (Result unit) :=
  if bool_decide (name = []) then mret (Failure (Validation "RemoveScheduledTask" "任务名不能为空"))
  else if has_backslash name then
    mret (Failure (Validation "RemoveScheduledTask" "任务名不能包含路径分隔符"))
  else task_remove name.

Definition QueryScheduledTask (name : wstring) : M B (Result ScheduledTaskStatus) :=
  if bool_decide (name = []) then mret (Failure (Validation "QueryScheduledTask" "任务名不能为空"))
  else if has_backslash name then
    mret (Failure (Validation "QueryScheduledTask" "任务名不能包含路径分隔符"))
  else task_read name.
End Operations.

(** ** Task Scheduler *)

(** What an existing task's definition shows, [None] where reading fails: the
    number of actions, whether the first runs a program, its path and arguments,
    the number of triggers and the type of the first. *)
Record TaskView := MkView {
  view_actions : option Z;
  view_exec : bool;
  view_path : option wstring;
  view_arguments : option wstring;
  view_triggers : option Z;
  view_type : option Z
}.

Inductive TaskCall :=
  | CoCreateInstance | Connect | GetFolder (path : string) | NewTask
  | get_RegistrationInfo | put_Author (author : string) | get_Settings
  | put_StartWhenAvailable (on : bool) | put_DisallowStartIfOnBatteries (on : bool)
  | put_StopIfGoingOnBatteries (on : bool) | put_ExecutionTimeLimit (limit : string)
  | get_Triggers | CreateTrigger (type : Z) | get_Actions | CreateAction (type : Z)
  | QueryExecAction | put_Path (path : wstring) | put_Arguments (arguments : wstring)
  | RegisterTaskDefinition (name : wstring) (flags logon : Z) | DeleteTask (name : wstring).

Class TaskApi (B : Type) := {
  CoInitializeEx : M B Z;
  CoUninitialize : M B unit;
  SysAllocString : wstring → B → bool;
  com : TaskCall → M B (Z * bool);
  GetTask : wstring → M B (Z * option TaskView)
}.

Definition S_FALSE : Z := 1.
Definition RPC_E_CHANGED_MODE : Z := 0x80010106 - 2 ^ 32.
Definition CO_E_NOTINITIALIZED : Z := 0x800401F0 - 2 ^ 32.
Definition HRESULT_FILE_NOT_FOUND : Z := 0x80070002 - 2 ^ 32.
Definition TASK_TRIGGER_BOOT : Z := 8.
Definition TASK_TRIGGER_LOGON : Z := 9.
Definition TASK_ACTION_EXEC : Z := 0.
Definition TASK_CREATE_OR_UPDATE : Z := 6.
Definition TASK_LOGON_INTERACTIVE_TOKEN : Z := 3.

Definition FAILED (hr : Z) : bool := hr <? 0.

Definition InternalError (op msg : string) : Error := MkError ErrorDomain.Internal 0 op msg.

Definition TriggerTextFromType (type : Z) : wstring :=
  if type =? TASK_TRIGGER_LOGON then widen "logon"
  else if type =? TASK_TRIGGER_BOOT then widen "boot"
  else [].

Definition ReadCommandLine (v : TaskView) : wstring :=
  match view_actions v with
  | None => []
  | Some count =>
      if (count <=? 0) || negb (view_exec v) then []
      else
        let path := default [] (view_path v) in
        match view_arguments v with
        | None => path
        | Some arguments => path ++ (if bool_decide (path = []) then [] else [32]) ++ arguments
        end
  end.

Definition ReadTrigger (v : TaskView) : wstring :=
  match view_triggers v with
  | None => []
  | Some count =>
      if count <=? 0 then []
      else match view_type v with Some type => TriggerTextFromType type | None => [] end
  end.

Fixpoint drop_spaces (s : wstring) : wstring :=
  match s with
  | c :: rest => if c =? 32 then drop_spaces rest else s
  | [] => s
  end.

(** The text up to a double quote and after it, [None] without one. *)
Fixpoint find_quote (s : wstring) : option (wstring * wstring) :=
  match s with
  | [] => None
  | c :: rest =>
      if c =? 34 then Some ([], rest)
      else match find_quote rest with
           | Some (a, b) => Some (c :: a, b)
           | None => None
           end
  end.

(** The program and its arguments: the first quoted part and the rest, or the
    whole line as the program. *)
Definition split_command (line : wstring) : wstring * wstring :=
  match line with
  | c :: rest =>
      if negb (c =? 34) then (line, [])
      else
        match find_quote rest with
        | Some (executable, arguments) =>
            if bool_decide (executable = []) then (line, [])
            else (executable, drop_spaces arguments)
        | None => (line, [])
        end
  | [] => (line, [])
  end.

Section Backend.
Context {B : Type} `{SystemMessages, TaskApi B}.

Definition hresult (hr : Z) (op : string) : Error := FromHResult (i32 hr) op.

(** COM is initialized for the call, and uninitialized if this call did it. *)
Definition with_com {A} (m : M B (Result A)) : M B (Result A) :=
  hr <-- CoInitializeEx ;;
  if negb (FAILED hr) then
    r <-- m ;;
    (if negb (hr =? S_FALSE) then CoUninitialize else mret tt) ;;;
    mret r
  else if hr =? RPC_E_CHANGED_MODE then m
  else mret (Failure (hresult CO_E_NOTINITIALIZED "CoInitializeEx(task scheduler)")).

(** A call that must succeed; [object]: and deliver an object. *)
Definition checked {A} (object : bool) (c : TaskCall) (op : string) (k : M B (Result A)) :
    M B (Result A) :=
  r <-- com c ;;
  let '(hr, delivered) := r in
  if FAILED hr || (object && negb delivered) then mret (Failure (hresult hr op)) else k.

Definition allocated {A} (texts : list wstring) (op msg : string) (k : M B (Result A)) :
    M B (Result A) := λ b,
  if negb (forallb (λ t, SysAllocString t b) texts) then (Failure (InternalError op msg), b) else k b.

Definition ConnectRootFolder {A} (k : M B (Result A)) : M B (Result A) :=
  checked false CoCreateInstance "CoCreateInstance(TaskScheduler)"
  (checked false Connect "ITaskService::Connect"
  (allocated [widen "\"] "ConnectRootFolder" "分配任务计划服务路径失败"
  (checked false (GetFolder "\") "ITaskService::GetFolder" k))).

Definition ReadFromFolder (name : wstring) : M B (Result ScheduledTaskStatus) :=
  allocated [name] "Read" "分配任务路径失败"
  (r <-- GetTask name ;;
   let '(hr, view) := r in
   if hr =? HRESULT_FILE_NOT_FOUND then mret (Success (MkTaskStatus false [] []))
   else if FAILED hr then mret (Failure (hresult hr "ITaskFolder::GetTask"))
   else mret (Success
     match view with
     | Some v => MkTaskStatus true (ReadCommandLine v) (ReadTrigger v)
     | None => MkTaskStatus true [] []
     end)).

Definition put_registration {A} (k : M B (Result A)) : M B (Result A) :=
  r <-- com get_RegistrationInfo ;;
  let '(hr, delivered) := r in
  if negb (FAILED hr) && delivered then
    allocated [widen "CppOptimizer"] "PrepareDefinition" "分配作者字段失败"
    (checked false (put_Author "CppOptimizer") "IRegistrationInfo::put_Author" k)
  else k.

Definition PrepareDefinition {A} (spec : ScheduledTaskSpec) (k : M B (Result A)) : M B (Result A) :=
  put_registration
  (checked true get_Settings "ITaskDefinition::get_Settings"
  (allocated [widen "PT0S"] "PrepareDefinition" "分配时限字段失败"
  (checked false (put_StartWhenAvailable true) "ITaskSettings::put_StartWhenAvailable"
  (checked false (put_DisallowStartIfOnBatteries false)
     "ITaskSettings::put_DisallowStartIfOnBatteries"
  (checked false (put_StopIfGoingOnBatteries false) "ITaskSettings::put_StopIfGoingOnBatteries"
  (checked false (put_ExecutionTimeLimit "PT0S") "ITaskSettings::put_ExecutionTimeLimit"
  (checked true get_Triggers "ITaskDefinition::get_Triggers"
  (checked true (CreateTrigger TASK_TRIGGER_LOGON) "ITriggerCollection::Create(logon)"
  (checked true get_Actions "ITaskDefinition::get_Actions"
  (checked true (CreateAction TASK_ACTION_EXEC) "IActionCollection::Create(exec)"
  (checked true QueryExecAction "IAction::QueryInterface(IExecAction)"
  (let '(executable, arguments) := split_command (commandLine spec) in
   allocated [executable; arguments] "PrepareDefinition" "分配执行动作参数失败"
  (checked false (put_Path executable) "IExecAction::put_Path"
  (checked false (put_Arguments arguments) "IExecAction::put_Arguments" k)))))))))))))).

Definition create_task (spec : ScheduledTaskSpec) : M B (Result unit) :=
  checked false CoCreateInstance "CoCreateInstance(TaskScheduler)"
  (checked false Connect "ITaskService::Connect"
  (checked true NewTask "ITaskService::NewTask"
  (PrepareDefinition spec
  (allocated [widen "\"; taskName spec] "Create" "分配任务路径失败"
  (checked false (GetFolder "\") "ITaskService::GetFolder"
  (checked false (RegisterTaskDefinition (taskName spec) TASK_CREATE_OR_UPDATE
                    TASK_LOGON_INTERACTIVE_TOKEN) "ITaskFolder::RegisterTaskDefinition"
  (mret (Success tt)))))))).

Definition remove_task (name : wstring) : M B (Result unit) :=
  ConnectRootFolder
  (allocated [name] "Remove" "分配任务路径失败"
  (r <-- com (DeleteTask name) ;;
   let '(hr, _) := r in
   if hr =? HRESULT_FILE_NOT_FOUND then mret (Success tt)
   else if FAILED hr then mret (Failure (hresult hr "ITaskFolder::DeleteTask"))
   else mret (Success tt))).

#[export] Instance Win32ScheduledTaskBackend : ScheduledTaskBackend B := {|
  task_read name := with_com (ConnectRootFolder (ReadFromFolder name));
  task_create spec := with_com (create_task spec);
  task_remove name := with_com (remove_task name)
|}.
End Backend.

(** * Facts *)

(** ** Command lines *)

Lemma find_quote_app a b : forallb (λ c, negb (c =? 34)) a = true → find_quote (a ++ 34 :: b) = Some (a, b).
Proof.
  induction a as [|c a IH]; cbn; [done|]. intros [Hc Ha]%andb_true_iff.
  apply negb_true_iff in Hc. by rewrite Hc, IH.
Qed.

(** A quoted program and its arguments are taken apart as they were put
    together. *)
Lemma split_command_quoted exe args :
  exe ≠ [] → forallb (λ c, negb (c =? 34)) exe = true → hd 0 args ≠ 32 →
  split_command (34 :: exe ++ 34 :: 32 :: args) = (exe, args).
Proof.
  intros Hne Hq Hh. unfold split_command. cbn [Z.eqb Pos.eqb negb]. rewrite find_quote_app by done.
  rewrite bool_decide_eq_false_2 by done. cbn [drop_spaces Z.eqb Pos.eqb]. f_equal.
  destruct args as [|c args]; [done|]. cbn in Hh |- *. by rewrite (proj2 (Z.eqb_neq c 32)).
Qed.

(** ** The scheduler *)

(** What a definition says of when and how to run. *)
Record Draft := MkDraft {
  d_start : bool; d_batteries : bool; d_stop : bool; d_limit : string;
  d_triggers : list Z; d_actions : list (wstring * wstring)
}.

Definition new_draft : Draft := MkDraft false true true "PT72H" [] [].

(** The effect of a call on the definition being made. *)
Definition on_draft (c : TaskCall) (d : Draft) : Draft :=
  let '(MkDraft s b p l t a) := d in
  match c with
  | NewTask => new_draft
  | put_StartWhenAvailable on => MkDraft on b p l t a
  | put_DisallowStartIfOnBatteries on => MkDraft s on p l t a
  | put_StopIfGoingOnBatteries on => MkDraft s b on l t a
  | put_ExecutionTimeLimit limit => MkDraft s b p limit t a
  | CreateTrigger type => MkDraft s b p l (t ++ [type]) a
  | CreateAction _ => MkDraft s b p l t (a ++ [([], [])])
  | put_Path path =>
      MkDraft s b p l t
        (match rev a with (_, args) :: r => rev r ++ [(path, args)] | [] => [] end)
  | put_Arguments args =>
      MkDraft s b p l t
        (match rev a with (path, _) :: r => rev r ++ [(path, args)] | [] => [] end)
  | _ => d
  end.

(** The tasks, each with its definition and its logon type. *)
Definition Tasks : Type := wstring → option (Draft * Z).

Definition on_tasks (c : TaskCall) (d : Draft) (t : Tasks) : Tasks :=
  match c with
  | RegisterTaskDefinition name _ logon => λ n, if decide (n = name) then Some (d, logon) else t n
  | DeleteTask name => λ n, if decide (n = name) then None else t n
  | _ => t
  end.

(** The view of a definition of one action and one trigger. *)
Definition view_of (d : Draft) : TaskView :=
  MkView (Some (len (d_actions d))) (negb (len (d_actions d) =? 0))
    (fst <$> head (d_actions d)) (snd <$> head (d_actions d))
    (Some (len (d_triggers d))) (head (d_triggers d)).

(** Documented behaviour: a call that succeeds has its effect, one that fails
    has none; a task that is not there is reported so. *)
Class TaskLaws (B : Type) `{TaskApi B} := {
  draft : B → Draft;
  tasks : B → Tasks;
  com_ok : ∀ c b hr o b', com c b = ((hr, o), b') → FAILED hr = false →
    draft b' = on_draft c (draft b) ∧ ∀ n, tasks b' n = on_tasks c (draft b) (tasks b) n;
  com_fail : ∀ c b hr o b', com c b = ((hr, o), b') → FAILED hr = true →
    draft b' = draft b ∧ ∀ n, tasks b' n = tasks b n;
  delete_missing : ∀ n b o b', com (DeleteTask n) b = ((HRESULT_FILE_NOT_FOUND, o), b') →
    tasks b n = None;
  get_task : ∀ n b hr v b', GetTask n b = ((hr, v), b') →
    (∀ m, tasks b' m = tasks b m) ∧
    (hr = HRESULT_FILE_NOT_FOUND → tasks b n = None) ∧
    (FAILED hr = false → ∃ d logon, tasks b n = Some (d, logon) ∧ v = Some (view_of d));
  init_tasks : ∀ b n, tasks (CoInitializeEx b).2 n = tasks b n;
  uninit_tasks : ∀ b n, tasks (CoUninitialize b).2 n = tasks b n
}.

Section Laws.
Context {B : Type} `{SystemMessages} `{TaskLaws B}.

(** From a definition [D] and tasks [T], an operation fails and leaves the tasks
    alone, or answers what [Q] says of the tasks after it. *)
Definition ends_in {A} (D : Draft) (T : Tasks) (m : M B (Result A)) (Q : A → Tasks → Prop) : Prop :=
  ∀ b r b', draft b = D → (∀ n, tasks b n = T n) → m b = (r, b') →
  match r with
  | Success a => ∃ T', (∀ n, tasks b' n = T' n) ∧ Q a T'
  | Failure _ => ∀ n, tasks b' n = T n
  end.

(** Calls that leave the registered tasks alone. *)
Definition drafting (c : TaskCall) : bool :=
  match c with RegisterTaskDefinition _ _ _ | DeleteTask _ => false | _ => true end.

Lemma checked_ends {A} o c op (k : M B (Result A)) D T Q :
  drafting c = true → ends_in (on_draft c D) T k Q → ends_in D T (checked o c op k) Q.
Proof.
  intros Hc Hk b r b' Hd Ht. unfold checked, mthen.
  destruct (com c b) as [[hr dl] b1] eqn:E. destruct (FAILED hr) eqn:Hf; cbn [orb].
  - intros [= <- <-] n. destruct (com_fail _ _ _ _ _ E Hf) as [_ ->]. apply Ht.
  - destruct (com_ok _ _ _ _ _ E Hf) as [Hd1 Ht1].
    assert (∀ n, tasks b1 n = T n) as HT by (intros n; rewrite Ht1; destruct c; solve [done | apply Ht]).
    destruct (o && negb dl); [by intros [= <- <-]|]. apply Hk; [congruence|done].
Qed.

Lemma allocated_ends {A} ts op msg (k : M B (Result A)) D T Q :
  ends_in D T k Q → ends_in D T (allocated ts op msg k) Q.
Proof.
  intros Hk b r b' Hd Ht. unfold allocated. destruct (negb _); [by intros [= <- <-]|]. by apply Hk.
Qed.

Lemma put_registration_ends {A} (k : M B (Result A)) D T Q :
  ends_in D T k Q → ends_in D T (put_registration k) Q.
Proof.
  intros Hk b r b' Hd Ht. unfold put_registration, mthen.
  destruct (com get_RegistrationInfo b) as [[hr dl] b1] eqn:E.
  assert (draft b1 = D ∧ ∀ n, tasks b1 n = T n) as [Hd1 Ht1].
  { destruct (FAILED hr) eqn:Hf.
    - destruct (com_fail _ _ _ _ _ E Hf) as [-> Hx]. split; [done|]. intros n. by rewrite Hx.
    - destruct (com_ok _ _ _ _ _ E Hf) as [-> Hx]. rewrite Hd. split; [by destruct D|].
      intros n. rewrite Hx. apply Ht. }
  destruct (negb (FAILED hr) && dl); [|by apply Hk].
  apply (allocated_ends _ _ _ _ D T Q); [|done|done]. apply checked_ends; [done|]. by destruct D.
Qed.

(** The definition every installation registers. *)
Definition task_draft (command : wstring) : Draft :=
  MkDraft true false false "PT0S" [TASK_TRIGGER_LOGON] [split_command command].

Lemma create_task_ends spec D T :
  ends_in D T (create_task spec) (λ _ T',
    ∀ n, T' n = if decide (n = taskName spec)
                then Some (task_draft (commandLine spec), TASK_LOGON_INTERACTIVE_TOKEN) else T n).
Proof.
  unfold create_task, PrepareDefinition. destruct D.
  do 3 (apply checked_ends; [done|]). apply put_registration_ends. cbn [on_draft new_draft].
  apply checked_ends; [done|]. apply allocated_ends.
  do 9 (apply checked_ends; [done|]; cbn [on_draft app]).
  destruct (split_command (commandLine spec)) as [exe args] eqn:Es.
  apply allocated_ends. do 2 (apply checked_ends; [done|]; cbn [on_draft rev app]).
  apply allocated_ends. apply checked_ends; [done|]. cbn [on_draft].
  intros b r b' Hd Ht. unfold checked, mthen.
  destruct (com _ b) as [[hr dl] b1] eqn:E. rewrite andb_false_l, orb_false_r.
  destruct (FAILED hr) eqn:Hf; intros [= <- <-].
  - intros n. destruct (com_fail _ _ _ _ _ E Hf) as [_ ->]. apply Ht.
  - exists (tasks b1). split; [done|]. intros n.
    destruct (com_ok _ _ _ _ _ E Hf) as [_ ->]. cbn [on_tasks]. rewrite Hd.
    unfold task_draft. rewrite Es. destruct (decide _); [done|apply Ht].
Qed.

Lemma with_com_ends {A} (m : M B (Result A)) T Q :
  (∀ D, ends_in D T m Q) → ∀ D, ends_in D T (with_com m) Q.
Proof.
  intros Hm D b r b' _ Ht. unfold with_com, mthen. pose proof (init_tasks b) as Hi.
  destruct (CoInitializeEx b) as [hr b1]. cbn in Hi.
  assert (∀ n, tasks b1 n = T n) as Ht1 by (intros n; by rewrite Hi).
  destruct (FAILED hr); cbn [negb].
  - destruct (hr =? RPC_E_CHANGED_MODE); [by apply (Hm (draft b1))|by intros [= <- <-]].
  - destruct (m b1) as [r1 b2] eqn:E. pose proof (Hm (draft b1) b1 r1 b2 eq_refl Ht1 E) as Hr.
    assert (∀ b3 (u : unit), ((if negb (hr =? S_FALSE) then CoUninitialize else mret tt) b2) = (u, b3) →
            ∀ n, tasks b3 n = tasks b2 n) as Hu.
    { intros b3 u Hc n. destruct (negb _); [|by injection Hc as _ <-].
      pose proof (uninit_tasks b2 n) as Hx. by rewrite Hc in Hx. }
    destruct ((if negb (hr =? S_FALSE) then CoUninitialize else mret tt) b2) as [u b3] eqn:Ec.
    specialize (Hu b3 u eq_refl). intros [= <- <-]. destruct r1 as [a|e].
    + destruct Hr as (T' & HT & HQ). exists T'. split; [|done]. intros n. by rewrite Hu.
    + intros n. by rewrite Hu.
Qed.

Lemma connect_ends {A} (k : M B (Result A)) D T Q :
  ends_in D T k Q → ends_in D T (ConnectRootFolder k) Q.
Proof.
  intros Hk. unfold ConnectRootFolder. destruct D. do 2 (apply checked_ends; [done|]).
  apply allocated_ends. by apply checked_ends.
Qed.

Lemma remove_task_ends name D T :
  ends_in D T (remove_task name) (λ _ T', ∀ n, T' n = if decide (n = name) then None else T n).
Proof.
  unfold remove_task. apply connect_ends, allocated_ends. intros b r b' Hd Ht. unfold mthen.
  destruct (com (DeleteTask name) b) as [[hr o] b1] eqn:E.
  destruct (Z.eqb_spec hr HRESULT_FILE_NOT_FOUND) as [->|_].
  - intros [= <- <-]. exists T. destruct (com_fail _ _ _ _ _ E eq_refl) as [_ Hs].
    split; [intros n; rewrite Hs; apply Ht|]. intros n. destruct (decide (n = name)) as [->|]; [|done].
    rewrite <- Ht. by apply (delete_missing name b o b1).
  - destruct (FAILED hr) eqn:Hf; intros [= <- <-].
    + intros n. destruct (com_fail _ _ _ _ _ E Hf) as [_ ->]. apply Ht.
    + exists (tasks b1). split; [done|]. intros n. destruct (com_ok _ _ _ _ _ E Hf) as [_ ->].
      cbn. destruct (decide _); [done|apply Ht].
Qed.

Lemma read_task_ends name D T :
  ends_in D T (ConnectRootFolder (ReadFromFolder name)) (λ st T',
    (∀ n, T' n = T n) ∧
    st = match T name with
         | Some (d, _) => MkTaskStatus true (ReadCommandLine (view_of d)) (ReadTrigger (view_of d))
         | None => MkTaskStatus false [] []
         end).
Proof.
  apply connect_ends. unfold ReadFromFolder. apply allocated_ends.
  intros b r b' Hd Ht. unfold mthen. destruct (GetTask name b) as [[hr v] b1] eqn:E.
  destruct (get_task _ _ _ _ _ E) as (Hs & Hmiss & Hok).
  assert (∀ n, tasks b1 n = T n) as Ht1 by (intros n; rewrite Hs; apply Ht).
  destruct (Z.eqb_spec hr HRESULT_FILE_NOT_FOUND) as [->|_].
  - intros [= <- <-]. exists T. split; [done|]. rewrite <- (Ht name), Hmiss by done. done.
  - destruct (FAILED hr) eqn:Hf; intros [= <- <-]; [done|]. exists T. split; [done|].
    destruct (Hok eq_refl) as (d & logon & Hd1 & ->). by rewrite <- (Ht name), Hd1.
Qed.

Definition task_name_ok (name : wstring) : Prop := name ≠ [] ∧ has_backslash name = false.

(** Installing the task registers, under its name and nowhere else, one
    definition: the program and arguments of the command line, started by a
    logon with the user's own token, without time limit, on batteries too, and
    caught up when missed. Only a valid request for a logon trigger gets there,
    and when it fails, at whatever call, no task has changed. *)
Lemma InstallScheduledTask_spec spec b r b' :
  InstallScheduledTask spec b = (r, b') →
  match r with
  | Success _ =>
      task_name_ok (taskName spec) ∧ commandLine spec ≠ [] ∧ trigger spec = OnLogon ∧
      ∀ n, tasks b' n = if decide (n = taskName spec)
                        then Some (task_draft (commandLine spec), TASK_LOGON_INTERACTIVE_TOKEN)
                        else tasks b n
  | Failure _ => ∀ n, tasks b' n = tasks b n
  end.
Proof.
  unfold InstallScheduledTask, task_name_ok.
  destruct (bool_decide_reflect (taskName spec = [])); [by intros [= <- <-]|].
  destruct (has_backslash (taskName spec)); [by intros [= <- <-]|].
  destruct (bool_decide_reflect (commandLine spec = [])); [by intros [= <- <-]|].
  destruct (bool_decide_reflect (trigger spec = OnLogon)) as [Htr|]; cbn [negb]; [|by intros [= <- <-]].
  intros E. pose proof (with_com_ends (create_task spec) (tasks b) _
    (λ D, create_task_ends spec D (tasks b)) (draft b) b r b' eq_refl (λ n, eq_refl) E) as Hr.
  destruct r; [|done]. destruct Hr as (T' & HT & HQ). split_and!; [done..|]. intros m. by rewrite HT.
Qed.

Lemma RemoveScheduledTask_spec name b r b' :
  RemoveScheduledTask name b = (r, b') →
  match r with
  | Success _ => ∀ n, tasks b' n = if decide (n = name) then None else tasks b n
  | Failure _ => ∀ n, tasks b' n = tasks b n
  end.
Proof.
  unfold RemoveScheduledTask. destruct (bool_decide _); [by intros [= <- <-]|].
  destruct (has_backslash name); [by intros [= <- <-]|]. intros E.
  pose proof (with_com_ends (remove_task name) (tasks b) _
    (λ D, remove_task_ends name D (tasks b)) (draft b) b r b' eq_refl (λ n, eq_refl) E) as Hr.
  destruct r; [|done]. destruct Hr as (T' & HT & HQ). intros n. by rewrite HT.
Qed.

Lemma QueryScheduledTask_spec name b r b' :
  QueryScheduledTask name b = (r, b') →
  (∀ n, tasks b' n = tasks b n) ∧
  ∀ st, r = Success st →
    st = match tasks b name with
         | Some (d, _) => MkTaskStatus true (ReadCommandLine (view_of d)) (ReadTrigger (view_of d))
         | None => MkTaskStatus false [] []
         end.
Proof.
  unfold QueryScheduledTask. destruct (bool_decide _); [by intros [= <- <-]|].
  destruct (has_backslash name); [by intros [= <- <-]|]. intros E.
  pose proof (with_com_ends _ (tasks b) _
    (λ D, read_task_ends name D (tasks b)) (draft b) b r b' eq_refl (λ n, eq_refl) E) as Hr.
  destruct r as [st|e]; [|by split]. destruct Hr as (T' & HT & HQ & ->). split; [|by intros ? [= <-]].
  intros n. by rewrite HT, HQ.
Qed.

(** The life of a task: after an installation a query that succeeds shows
    it installed, triggered by a logon, running the program with its arguments
    (without the quotes the program was given in); after a removal it shows
    nothing, and removing again succeeds in removing nothing. *)
Lemma scheduled_task_life name exe args b u1 b1 st b2 u2 b3 st' b4 :
  exe ≠ [] → forallb (λ c, negb (c =? 34)) exe = true → hd 0 args ≠ 32 →
  InstallScheduledTask (MkTaskSpec name (34 :: exe ++ 34 :: 32 :: args) OnLogon) b = (Success u1, b1) →
  QueryScheduledTask name b1 = (Success st, b2) →
  RemoveScheduledTask name b2 = (Success u2, b3) →
  QueryScheduledTask name b3 = (Success st', b4) →
  st = MkTaskStatus true (exe ++ 32 :: args) (widen "logon") ∧
  st' = MkTaskStatus false [] [] ∧
  ∀ n, n ≠ name → tasks b4 n = tasks b n.
Proof.
  intros Hne Hq Hh K1 K2 K3 K4. apply InstallScheduledTask_spec in K1 as (_ & _ & _ & T1). cbn in T1.
  apply QueryScheduledTask_spec in K2 as [T2 S2]. apply RemoveScheduledTask_spec in K3 as T3.
  apply QueryScheduledTask_spec in K4 as [T4 S4].
  specialize (S2 st eq_refl). specialize (S4 st' eq_refl).
  rewrite T1, decide_True in S2 by done. rewrite T3, decide_True in S4 by done. split_and!.
  - rewrite S2. unfold task_draft. rewrite split_command_quoted by done.
    unfold ReadCommandLine, ReadTrigger. cbn. by rewrite bool_decide_eq_false_2.
  - done.
  - intros n Hn. by rewrite T4, T3, decide_False, T2, T1, decide_False.
Qed.

End Laws.

(** A call on a thread that has COM already answers [S_FALSE], which counts as
    an initialization to be undone; the operation runs and does not undo it. *)
Lemma s_false_not_undone {A B} `{SystemMessages, TaskApi B} (m : M B (Result A)) b b1 :
  CoInitializeEx b = (S_FALSE, b1) → with_com m b = m b1.
Proof.
  unfold with_com, mthen. intros ->. cbn. by destruct (m b1).
Qed.

(** ** Witness: a scheduler in memory *)

Record MemTasks := MkMemTasks { mt_draft : Draft; mt_tasks : list (wstring * (Draft * Z)) }.

Fixpoint find_task (l : list (wstring * (Draft * Z))) (n : wstring) : option (Draft * Z) :=
  match l with
  | [] => None
  | (m, t) :: l' => if decide (n = m) then Some t else find_task l' n
  end.

Fixpoint drop_task (l : list (wstring * (Draft * Z))) (n : wstring) : list (wstring * (Draft * Z)) :=
  match l with
  | [] => []
  | (m, t) :: l' => if decide (n = m) then drop_task l' n else (m, t) :: drop_task l' n
  end.

#[export] Instance mem_tasks : TaskApi MemTasks := {|
  CoInitializeEx := mret 0;
  CoUninitialize := mret tt;
  SysAllocString _ _ := true;
  com c b :=
    ((0, true),
     MkMemTasks (on_draft c (mt_draft b))
       (match c with
        | RegisterTaskDefinition name _ logon => (name, (mt_draft b, logon)) :: mt_tasks b
        | DeleteTask name => drop_task (mt_tasks b) name
        | _ => mt_tasks b
        end));
  GetTask n b :=
    (match find_task (mt_tasks b) n with
     | Some (d, _) => (0, Some (view_of d))
     | None => (HRESULT_FILE_NOT_FOUND, None)
     end, b)
|}.

Lemma find_drop l n m : find_task (drop_task l n) m = if decide (m = n) then None else find_task l m.
Proof.
  induction l as [|[k t] l IH]; cbn; [by destruct (decide _)|].
  destruct (decide (n = k)) as [->|Hn].
  - rewrite IH. by destruct (decide (m = k)).
  - cbn. rewrite IH. destruct (decide (m = k)) as [->|]; [|done]. by destruct (decide (k = n)) as [->|].
Qed.

#[export] Program Instance mem_task_laws : TaskLaws MemTasks := {|
  draft b := mt_draft b; tasks b := find_task (mt_tasks b)
|}.
Next Obligation.
  intros c b hr o b' [= <- <- <-] _. split; [done|]. intros n. cbn.
  destruct c; cbn; try done. apply find_drop.
Qed.
Next Obligation. by intros c b hr o b' [= <- <- <-]. Qed.
Next Obligation. done. Qed.
Next Obligation.
  intros n b hr v b'. cbn. destruct (find_task (mt_tasks b) n) as [[d lg]|] eqn:E; intros [= <- <- <-].
  - split_and!; [done|done|]. intros _. by eexists _, _.
  - split_and!; [done|done|]. done.
Qed.
Next Obligation. done. Qed.
Next Obligation. done. Qed.

Section OneTask.
#[local] Existing Instance no_messages.

Definition no_tasks : MemTasks := MkMemTasks new_draft [].
Definition host_task : ScheduledTaskSpec :=
  MkTaskSpec kScheduledTaskName (34 :: widen "C: b.exe" ++ 34 :: 32 :: widen "--tray") OnLogon.

Lemma scheduled_task_life_witness :
  let b1 := (InstallScheduledTask host_task no_tasks).2 in
  let b3 := (RemoveScheduledTask kScheduledTaskName b1).2 in
  MkTaskStatus true (widen "C: b.exe --tray") (widen "logon") =
    MkTaskStatus true (widen "C: b.exe" ++ 32 :: widen "--tray") (widen "logon") ∧
  MkTaskStatus false [] [] = MkTaskStatus false [] [] ∧
  ∀ n, n ≠ kScheduledTaskName → tasks b3 n = tasks no_tasks n.
Proof.
  intros b1 b3.
  refine (scheduled_task_life kScheduledTaskName (widen "C: b.exe") (widen "--tray") no_tasks
            tt b1 _ b1 tt b3 _ b3 _ _ _ _ _ _ _); vm_compute; congruence.
Defined.

Lemma InstallScheduledTask_spec_witness :
  let b1 := (InstallScheduledTask host_task no_tasks).2 in
  task_name_ok kScheduledTaskName ∧ commandLine host_task ≠ [] ∧ trigger host_task = OnLogon ∧
  ∀ n, tasks b1 n = if decide (n = kScheduledTaskName)
                    then Some (task_draft (commandLine host_task), TASK_LOGON_INTERACTIVE_TOKEN)
                    else tasks no_tasks n.
Proof.
  refine (InstallScheduledTask_spec host_task no_tasks (Success tt)
            (InstallScheduledTask host_task no_tasks).2 _).
  vm_compute. reflexivity.
Defined.
End OneTask.
