(* ===== verification/PriorityBooster.v ===== *)
(** The priority leases ([priority/priority_booster.hpp],
    [source/priority/priority_booster.cpp]): one per game, counted, restored
    conditionally. The process interface is the class [PriorityBackend], the
    virtual interface of the source; what the system documents about process
    handles and priority classes is [PriorityLaws]. *)

From S2P Require Import Prelude CommonError Containers ConfigTypes.

Open Scope string_scope.
Open Scope list_scope.
Open Scope Z_scope.

(** ** Levels *)

Definition level_value (l : PriorityLevel) : Z :=
  match l with
  | PriorityLevel.None => 0
  | PriorityLevel.AboveNormal => 1
  | PriorityLevel.High => 2
  end.

Definition LevelExceeds (level maxLevel : PriorityLevel) : bool :=
  level_value maxLevel <? level_value level.

Definition PriorityLevelToWin32Class (l : PriorityLevel) : Result Z :=
  match l with
  | PriorityLevel.AboveNormal => Success 0x8000
  | PriorityLevel.High => Success 0x80
  | PriorityLevel.None =>
      Failure (Validation "PriorityLevelToWin32Class" "no boost level (none)")
  end.

(** ** The backend *)

Class PriorityBackend (B : Type) := {
  OpenProcess : Z → M B (Result Z);
  QueryCreationTime : Z → M B Z;
  QueryPriorityClass : Z → M B Z;
  SetPriorityClass : Z → Z → M B (Result unit);
  CloseProcess : Z → M B unit
}.

(** Open handles, the process each is for, and the class of each process; the
    creation time of a process never changes. A query answers 0 when it fails;
    queries and failed calls change nothing. *)
Class PriorityLaws (B : Type) `{PriorityBackend B} := {
  handles : B → gset Z;
  process : Z → B → Z;
  class_of : Z → B → Z;
  created : Z → Z;
  quiet (b b' : B) : Prop :=
    handles b' = handles b ∧ (∀ h, h ∈ handles b → process h b' = process h b) ∧
    ∀ p, class_of p b' = class_of p b;
  open_ok : ∀ pid b h b', OpenProcess pid b = (Success h, b') →
    h ≠ 0 ∧ h ∉ handles b ∧ handles b' = {[h]} ∪ handles b ∧
    (∀ h, h ∈ handles b → process h b' = process h b) ∧
    ∀ p, class_of p b' = class_of p b;
  open_fail : ∀ pid b e b', OpenProcess pid b = (Failure e, b') → quiet b b';
  query_time : ∀ h b t b', h ∈ handles b → QueryCreationTime h b = (t, b') →
    (t = 0 ∨ t = created (process h b)) ∧ quiet b b';
  query_class : ∀ h b c b', h ∈ handles b → QueryPriorityClass h b = (c, b') →
    (c = 0 ∨ c = class_of (process h b) b) ∧ quiet b b';
  set_class_ok : ∀ h c b u b', h ∈ handles b → SetPriorityClass h c b = (Success u, b') →
    handles b' = handles b ∧ (∀ h, h ∈ handles b → process h b' = process h b) ∧
    ∀ p, class_of p b' = if decide (p = process h b) then c else class_of p b;
  set_class_fail : ∀ h c b e b', SetPriorityClass h c b = (Failure e, b') → quiet b b';
  close_process : ∀ h b,
    handles (CloseProcess h b).2 = handles b ∖ {[h]} ∧
    (∀ h', h' ∈ handles b → h' ≠ h → process h' (CloseProcess h b).2 = process h' b) ∧
    ∀ p, class_of p (CloseProcess h b).2 = class_of p b
}.

(** ** The booster *)

Record LeaseState := MkLease {
  lease_pid : Z;
  lease_creationTime : Z;
  lease_handle : Z;
  originalClass : Z;
  targetClass : Z;
  lease_level : PriorityLevel;
  lease_count : nat
}.

Record PriorityBooster := MkBooster {
  maxLevel : PriorityLevel;
  leases : smap LeaseState
}.

Definition set_count (n : nat) (st : LeaseState) : LeaseState :=
  MkLease (lease_pid st) (lease_creationTime st) (lease_handle st) (originalClass st)
    (targetClass st) (lease_level st) n.

Definition IsBoosted (g : string) (s : PriorityBooster) : bool :=
  match smap_find g (leases s) with
  | Some st => (0 <? Z.of_nat (lease_count st))
  | None => false
  end.

Definition BoostCount (g : string) (s : PriorityBooster) : nat :=
  match smap_find g (leases s) with Some st => lease_count st | None => 0 end.

Record BoostState := MkBoostState {
  bs_gameId : string;
  bs_pid : Z;
  bs_level : PriorityLevel;
  bs_count : nat;
  bs_creationTime : Z
}.

Definition GetStates (s : PriorityBooster) : list BoostState :=
  map (λ e, MkBoostState e.1 (lease_pid e.2) (lease_level e.2) (lease_count e.2)
              (lease_creationTime e.2)) (leases s).

Section Operations.
Context {B : Type} `{PriorityBackend B}.

(** [None]: the lease may be cleaned up. [Some e]: restoring failed, and the
    lease stays as it was, with a count of 1. *)
Definition RestoreLastLease (st : LeaseState) : M B (option Error) :=
  t <-- QueryCreationTime (lease_handle st) ;;
  if negb (lease_creationTime st =? 0) && negb (t =? lease_creationTime st) then
    CloseProcess (lease_handle st) ;;; mret None
  else
    c <-- QueryPriorityClass (lease_handle st) ;;
    if c =? 0 then CloseProcess (lease_handle st) ;;; mret None
    else if negb (c =? targetClass st) then
      CloseProcess (lease_handle st) ;;; mret None
    else
      r <-- SetPriorityClass (lease_handle st) (originalClass st) ;;
      match r with
      | Failure e => mret (Some e)
      | Success _ => CloseProcess (lease_handle st) ;;; mret None
      end.

Definition ReleaseBoost (g : string) (pid : Z) : M (PriorityBooster * B) (Result unit) :=
  λ '(s, b),
  match smap_find g (leases s) with
  | None => (Success tt, (s, b))
  | Some st =>
      if negb (lease_pid st =? pid) then
        (Failure (Validation "PriorityBooster::ReleaseBoost"
                    "release pid does not match the boosted process"), (s, b))
      else if (1 <? Z.of_nat (lease_count st)) then
        (Success tt,
         (MkBooster (maxLevel s)
            (smap_set g (set_count (pred (lease_count st)) st) (leases s)), b))
      else
        match RestoreLastLease st b with
        | (Some e, b') =>
            (Failure e, (MkBooster (maxLevel s) (smap_set g (set_count 1 st) (leases s)), b'))
        | (None, b') =>
            (Success tt, (MkBooster (maxLevel s) (smap_erase g (leases s)), b'))
        end
  end.

(** The part of [AcquireBoost] after the old lease is out of the way. *)
Definition acquire_new (g : string) (pid expected : Z) (level : PriorityLevel)
  : M (PriorityBooster * B) (Result unit) := λ '(s, b),
  match PriorityLevelToWin32Class level with
  | Failure e => (Failure e, (s, b))
  | Success target =>
      match OpenProcess pid b with
      | (Failure e, b1) => (Failure e, (s, b1))
      | (Success h, b1) =>
          let '(actual, b2) := QueryCreationTime h b1 in
          if negb (expected =? 0) && ((actual =? 0) || negb (actual =? expected)) then
            let '(_, b3) := CloseProcess h b2 in
            (Failure (Validation "PriorityBooster::AcquireBoost"
                        "process identity mismatch (pid reused or unverifiable)"), (s, b3))
          else
            let '(original, b3) := QueryPriorityClass h b2 in
            if original =? 0 then
              let '(_, b4) := CloseProcess h b3 in
              (Failure (MkError ErrorDomain.Internal 0 "PriorityBooster::AcquireBoost"
                          "failed to query current priority class"), (s, b4))
            else
              match SetPriorityClass h target b3 with
              | (Failure e, b4) =>
                  let '(_, b5) := CloseProcess h b4 in (Failure e, (s, b5))
              | (Success _, b4) =>
                  let st := MkLease pid (if negb (actual =? 0) then actual else expected)
                              h original target level 1 in
                  (Success tt, (MkBooster (maxLevel s) (smap_set g st (leases s)), b4))
              end
      end
  end.

Definition AcquireBoost (g : string) (pid expected : Z) (level : PriorityLevel)
  : M (PriorityBooster * B) (Result unit) := λ '(s, b),
  if bool_decide (level = PriorityLevel.None) then
    (Failure (Validation "PriorityBooster::AcquireBoost" "no boost level (none)"), (s, b))
  else if LevelExceeds level (maxLevel s) then
    (Failure (Validation "PriorityBooster::AcquireBoost"
                "priority level exceeds configured maximum"), (s, b))
  else match smap_find g (leases s) with
  | Some st =>
      if lease_pid st =? pid then
        (Success tt,
         (MkBooster (maxLevel s)
            (smap_set g (set_count (S (lease_count st)) st) (leases s)), b))
      else
        match ReleaseBoost g (lease_pid st) (s, b) with
        | (Failure e, sb) => (Failure e, sb)
        | (Success _, sb) => acquire_new g pid expected level sb
        end
  | None => acquire_new g pid expected level (s, b)
  end.

Definition ForceCleanLease (st : LeaseState) : M B unit :=
  if negb (lease_handle st =? 0) then
    c <-- QueryPriorityClass (lease_handle st) ;;
    (if negb (c =? 0) && (c =? targetClass st) then
       SetPriorityClass (lease_handle st) (originalClass st) ;;; mret tt
     else mret tt) ;;;
    CloseProcess (lease_handle st)
  else mret tt.

Fixpoint clean_leases (ls : smap LeaseState) : M B unit :=
  match ls with
  | [] => mret tt
  | (_, st) :: rest => ForceCleanLease st ;;; clean_leases rest
  end.

Definition ReleaseAllBoosts : M (PriorityBooster * B) unit := λ '(s, b),
  let '(_, b') := clean_leases (leases s) b in (tt, (MkBooster (maxLevel s) [], b')).
End Operations.

Section Theorems.
Context {B : Type} `{!PriorityBackend B} `{!PriorityLaws B}.
#[local] Notation find := smap_find.

Lemma quiet_trans b1 b2 b3 : quiet b1 b2 → quiet b2 b3 → quiet b1 b3.
Proof.
  intros (H1 & P1 & C1) (H2 & P2 & C2). unfold quiet. split; [congruence|]. split.
  - intros h Hh. rewrite P2, P1; [done|done|by rewrite H1].
  - intros p. by rewrite C2, C1.
Qed.

(** ** Restoring *)

(** Whether the last lease's restore conditions hold, by the system's answers:
    the process is still the observed one and its class is still the one the
    lease set. *)
Definition restorable (st : LeaseState) (b : B) : bool :=
  let '(t, b1) := QueryCreationTime (lease_handle st) b in
  let '(c, _) := QueryPriorityClass (lease_handle st) b1 in
  ((lease_creationTime st =? 0) || (t =? lease_creationTime st)) &&
  negb (c =? 0) && (c =? targetClass st).

Lemma RestoreLastLease_spec st b o b' :
  lease_handle st ∈ handles b → RestoreLastLease st b = (o, b') →
  let pr := process (lease_handle st) b in
  match o with
  | None =>
      handles b' = handles b ∖ {[lease_handle st]} ∧
      (∀ p, class_of p b' = if decide (p = pr) then
                              if restorable st b then originalClass st else class_of p b
                            else class_of p b)
  | Some _ => quiet b b' ∧ restorable st b = true
  end ∧
  (restorable st b = true → class_of pr b = targetClass st ∧
     (lease_creationTime st = 0 ∨ created pr = lease_creationTime st)).
Proof.
  intros Hh E. cbn zeta. unfold RestoreLastLease, mthen, mret in E. unfold restorable.
  destruct (QueryCreationTime (lease_handle st) b) as [t b1] eqn:Et.
  destruct (query_time _ _ _ _ Hh Et) as [Ht Q1].
  assert (lease_handle st ∈ handles b1) as Hh1 by (by destruct Q1 as (-> & _)).
  destruct (QueryPriorityClass (lease_handle st) b1) as [c b2] eqn:Ec.
  destruct (query_class _ _ _ _ Hh1 Ec) as [Hc Q2].
  assert (process (lease_handle st) b1 = process (lease_handle st) b) as Ep
    by (destruct Q1 as (_ & HP & _); by apply HP).
  assert (class_of (process (lease_handle st) b) b1 =
          class_of (process (lease_handle st) b) b) as Eq by (by destruct Q1 as (_ & _ & HC)).
  rewrite Ep, Eq in Hc.
  assert (∀ b0, quiet b b0 → ∀ h,
    handles (CloseProcess h b0).2 = handles b ∖ {[h]} ∧
    ∀ p, class_of p (CloseProcess h b0).2 = class_of p b) as Hclose.
  { intros b0 (Hq & _ & Hqc) h. destruct (close_process h b0) as (-> & _ & Hcc).
    rewrite Hq. split; [done|]. intros p. by rewrite Hcc. }
  destruct (negb (lease_creationTime st =? 0) && negb (t =? lease_creationTime st)) eqn:E1.
  { destruct (Hclose b1 Q1 (lease_handle st)) as [A1 A2].
    lazy beta iota zeta in E. destruct (CloseProcess _ b1) as [[] b3]. injection E as <- <-. cbn in A1, A2.
    assert (((lease_creationTime st =? 0) || (t =? lease_creationTime st)) = false) as ->
      by (destruct (lease_creationTime st =? 0), (t =? lease_creationTime st); done).
    split; [|done]. split; [done|]. intros p. rewrite A2. by case_decide. }
  assert (((lease_creationTime st =? 0) || (t =? lease_creationTime st)) = true) as ->
    by (destruct (lease_creationTime st =? 0), (t =? lease_creationTime st); done).
  pose proof (quiet_trans _ _ _ Q1 Q2) as Q12. cbn [andb].
  lazy beta iota zeta in E. rewrite Ec in E.
  destruct (c =? 0) eqn:Hc0; cbn [negb andb].
  { destruct (Hclose b2 Q12 (lease_handle st)) as [A1 A2].
    lazy beta iota zeta in E. destruct (CloseProcess _ b2) as [[] b3]. injection E as <- <-. cbn in A1, A2.
    split; [|done]. split; [done|]. intros p. rewrite A2. by case_decide. }
  destruct (c =? targetClass st) eqn:Hct; cbn [negb] in E.
  2:{ destruct (Hclose b2 Q12 (lease_handle st)) as [A1 A2].
      lazy beta iota zeta in E. destruct (CloseProcess _ b2) as [[] b3]. injection E as <- <-. cbn in A1, A2.
      split; [|done]. split; [done|]. intros p. rewrite A2. by case_decide. }
  assert (lease_handle st ∈ handles b2) as Hh2 by (by destruct Q12 as (-> & _)).
  split.
  - lazy beta iota zeta in E. destruct (SetPriorityClass _ _ b2) as [[u|e] b3] eqn:Es.
    + destruct (set_class_ok _ _ _ _ _ Hh2 Es) as (S1 & S2 & S3).
      destruct (close_process (lease_handle st) b3) as (A1 & _ & A2).
      lazy beta iota zeta in E. destruct (CloseProcess _ b3) as [[] b4]. injection E as <- <-. cbn in A1, A2.
      destruct Q12 as (Q12h & Q12p & Q12c). split; [by rewrite A1, S1, Q12h|].
      intros p. rewrite A2, S3, Q12p by done. by rewrite Q12c.
    + lazy beta iota zeta in E. injection E as <- <-. split; [|done]. eapply quiet_trans; [done|].
      by eapply set_class_fail.
  - intros _. b2p. subst c. split; [by destruct Hc as [Hc| <-]|].
    apply andb_false_iff in E1 as [E1|E1]; b2p; [by left|]. subst t.
    destruct Ht as [Ht|Ht]; [left|right]; congruence.
Qed.

(** ** Invariant *)

(** Every lease is counted and owns one open handle; no other is open. *)
Definition leases_inv (m : smap LeaseState) (hs : gset Z) : Prop :=
  smap_sorted m ∧
  (∀ g st, find g m = Some st →
     lease_handle st ∈ hs ∧ lease_handle st ≠ 0 ∧ (0 < lease_count st)%nat) ∧
  (∀ h, h ∈ hs → ∃ g st, find g m = Some st ∧ lease_handle st = h) ∧
  (∀ g g' st st', find g m = Some st → find g' m = Some st' →
     lease_handle st = lease_handle st' → g = g').

Definition booster_inv (s : PriorityBooster) (b : B) : Prop :=
  leases_inv (leases s) (handles b).

Lemma leases_inv_nil : leases_inv [] ∅.
Proof. repeat split; try done; try constructor; set_solver. Qed.

Lemma leases_inv_recount m hs g st n :
  leases_inv m hs → find g m = Some st → (0 < n)%nat →
  leases_inv (smap_set g (set_count n st) m) hs.
Proof.
  intros (Hs & Hl & Hh & Hi) Hg Hn. unfold leases_inv.
  assert (∀ g' st', find g' (smap_set g (set_count n st) m) = Some st' →
    ∃ st0, find g' m = Some st0 ∧ lease_handle st' = lease_handle st0 ∧
           (0 < lease_count st')%nat) as Hf.
  { intros g' st'. rewrite smap_find_set. destruct (String.eqb_spec g g') as [<-|].
    - intros [= <-]. by exists st.
    - intros H. exists st'. split; [done|]. split; [done|]. by apply (Hl g'). }
  split; [by apply smap_set_sorted|]. split; [|split].
  - intros g' st' (st0 & H0 & -> & Hc)%Hf. by destruct (Hl _ _ H0) as (? & ? & _).
  - intros h (g' & st' & H' & <-)%Hh. destruct (String.eqb_spec g g') as [<-|Hne].
    + exists g, (set_count n st). rewrite smap_find_set, String.eqb_refl.
      assert (st' = st) as -> by congruence. done.
    + exists g', st'. by rewrite smap_find_set, (proj2 (String.eqb_neq _ _)).
  - intros g1 g2 s1 s2 (a1 & H1 & -> & _)%Hf (a2 & H2 & -> & _)%Hf. by apply Hi.
Qed.

Lemma leases_inv_erase m hs g st :
  leases_inv m hs → find g m = Some st →
  leases_inv (smap_erase g m) (hs ∖ {[lease_handle st]}).
Proof.
  intros (Hs & Hl & Hh & Hi) Hg. unfold leases_inv.
  setoid_rewrite smap_find_erase.
  split; [by apply smap_erase_sorted|]. split; [|split].
  - intros g' st'. destruct (String.eqb_spec g g') as [|Hne]; [done|].
    intros H'. destruct (Hl _ _ H') as (? & ? & ?). split; [|done].
    apply elem_of_difference. split; [done|]. rewrite elem_of_singleton.
    intros E. by apply Hne, (Hi g g' st st').
  - intros h [(g' & st' & H' & <-)%Hh Hne]%elem_of_difference.
    exists g', st'. destruct (String.eqb_spec g g') as [<-|]; [|done]. set_solver.
  - intros g1 g2 s1 s2.
    destruct (String.eqb_spec g g1); [done|]. destruct (String.eqb_spec g g2); [done|].
    apply Hi.
Qed.

Lemma leases_inv_add m hs g st :
  leases_inv m hs → find g m = None → lease_handle st ∉ hs → lease_handle st ≠ 0 →
  (0 < lease_count st)%nat →
  leases_inv (smap_set g st m) ({[lease_handle st]} ∪ hs).
Proof.
  intros (Hs & Hl & Hh & Hi) Hg Hfresh H0 Hc. unfold leases_inv.
  setoid_rewrite smap_find_set.
  split; [by apply smap_set_sorted|]. split; [|split].
  - intros g' st'. destruct (String.eqb_spec g g') as [<-|Hne]; [intros [= <-]; set_solver|].
    intros H'. destruct (Hl _ _ H') as (? & ? & ?). set_solver.
  - intros h [->%elem_of_singleton|(g' & st' & H' & <-)%Hh]%elem_of_union.
    + exists g, st. by rewrite String.eqb_refl.
    + exists g', st'. destruct (String.eqb_spec g g') as [<-|]; [congruence|done].
  - intros g1 g2 s1 s2.
    destruct (String.eqb_spec g g1) as [<-|], (String.eqb_spec g g2) as [<-|]; try done.
    + intros [= <-] H2 E. destruct Hfresh. rewrite E. by apply (Hl _ _ H2).
    + intros H1 [= <-] E. destruct Hfresh. rewrite <- E. by apply (Hl _ _ H1).
    + apply Hi.
Qed.

(** A release on every branch. Nothing is touched for a game that holds no
    lease or another process's pid, and an inner release only counts down. The
    last release puts the saved class back exactly when the process is still
    the observed one and still has the class the lease set, so an outside
    change is never overwritten and no other process is touched; it closes the
    handle and drops the lease, unless restoring fails, when the lease stays as
    it was, to be retried. *)
Lemma ReleaseBoost_spec
    (g : string) (pid : Z) (s : PriorityBooster) (b : B)
    (r : Result unit) (s' : PriorityBooster) (b' : B) :
  booster_inv s b → ReleaseBoost g pid (s, b) = (r, (s', b')) →
  booster_inv s' b' ∧
  (∀ g', g' ≠ g → find g' (leases s') = find g' (leases s)) ∧
  match find g (leases s) with
  | None => r = Success tt ∧ s' = s ∧ b' = b
  | Some st =>
      if decide (lease_pid st ≠ pid) then HasValue r = false ∧ s' = s ∧ b' = b
      else if decide (1 < lease_count st)%nat then
        r = Success tt ∧ b' = b ∧
        find g (leases s') = Some (set_count (pred (lease_count st)) st)
      else
        let pr := process (lease_handle st) b in
        (∀ p, class_of p b' =
           if decide (p = pr ∧ restorable st b = true ∧ HasValue r = true)
           then originalClass st else class_of p b) ∧
        (restorable st b = true → class_of pr b = targetClass st ∧
           (lease_creationTime st = 0 ∨ created pr = lease_creationTime st)) ∧
        (if HasValue r
         then find g (leases s') = None ∧ handles b' = handles b ∖ {[lease_handle st]}
         else find g (leases s') = Some st ∧ handles b' = handles b)
  end.
Proof.
  intros Hinv E. unfold ReleaseBoost in E.
  destruct (find g (leases s)) as [st|] eqn:Hg; [|by injection E as <- <- <-].
  pose proof Hinv as (_ & Hl & _). destruct (Hl _ _ Hg) as (Hh & H0 & Hc).
  destruct (Z.eqb_spec (lease_pid st) pid) as [Hp|Hp]; cbn [negb] in E.
  2:{ injection E as <- <- <-. by rewrite decide_True. }
  rewrite decide_False by (intros H; by apply H).
  destruct (Z.ltb_spec 1 (Z.of_nat (lease_count st))) as [H1|H1].
  { rewrite decide_True by lia. injection E as <- <- <-. cbn [leases].
    split; [apply leases_inv_recount; [done|done|lia]|].
    setoid_rewrite smap_find_set. rewrite String.eqb_refl. split; [|done].
    intros g' Hne. by rewrite (proj2 (String.eqb_neq _ _)). }
  rewrite decide_False by lia.
  destruct (RestoreLastLease st b) as [o b1] eqn:Er.
  destruct (RestoreLastLease_spec st b o b1 Hh Er) as [Ho Hr]. cbn zeta.
  destruct o as [e|].
  - destruct Ho as [(Hqh & _ & Hqc) Hres]. injection E as <- <- <-. cbn [leases HasValue].
    assert (set_count 1 st = st) as -> by (destruct st; cbn in *; unfold set_count; cbn;
      f_equal; lia).
    setoid_rewrite smap_find_set. rewrite String.eqb_refl.
    split; [|split; [|split; [|split; [done|done]]]].
    + unfold booster_inv. cbn. rewrite Hqh.
      pose proof (leases_inv_recount _ _ g st 1 Hinv Hg ltac:(lia)) as H.
      assert (set_count 1 st = st) as Es by (destruct st; cbn in *; unfold set_count; cbn;
        f_equal; lia).
      by rewrite Es in H.
    + intros g' Hne. by rewrite (proj2 (String.eqb_neq _ _)).
    + intros p. rewrite decide_False by naive_solver. apply Hqc.
  - destruct Ho as [Hhs Hcl]. injection E as <- <- <-. cbn [leases HasValue].
    setoid_rewrite smap_find_erase. rewrite String.eqb_refl.
    split; [|split; [|split; [|split; [done|done]]]].
    + unfold booster_inv. cbn. rewrite Hhs. by apply leases_inv_erase.
    + intros g' Hne. by rewrite (proj2 (String.eqb_neq _ _)).
    + intros p. rewrite Hcl. destruct (restorable st b); repeat case_decide; naive_solver.
Qed.

(** ** Acquiring *)

(** A newly leased process: its identity was checked, its class saved. *)
Definition new_lease (g : string) (pid expected : Z) (level : PriorityLevel)
    (s : PriorityBooster) (b : B) (s' : PriorityBooster) (b' : B) : Prop :=
  ∃ st, find g (leases s') = Some st ∧
    lease_pid st = pid ∧ lease_level st = level ∧ lease_count st = 1%nat ∧
    PriorityLevelToWin32Class level = Success (targetClass st) ∧
    lease_handle st ∉ handles b ∧ handles b' = {[lease_handle st]} ∪ handles b ∧
    (∀ p, class_of p b' =
       if decide (p = process (lease_handle st) b') then targetClass st else class_of p b) ∧
    originalClass st = class_of (process (lease_handle st) b') b ∧ originalClass st ≠ 0 ∧
    (expected ≠ 0 → created (process (lease_handle st) b') = expected) ∧
    (∀ g', g' ≠ g → find g' (leases s') = find g' (leases s)).

Lemma acquire_new_spec g pid expected level s b r s' b' :
  booster_inv s b → find g (leases s) = None →
  acquire_new g pid expected level (s, b) = (r, (s', b')) →
  booster_inv s' b' ∧
  match r with
  | Failure _ => s' = s ∧ handles b' = handles b ∧ ∀ p, class_of p b' = class_of p b
  | Success _ => new_lease g pid expected level s b s' b'
  end.
Proof.
  intros Hinv Hg E. unfold acquire_new in E.
  destruct (PriorityLevelToWin32Class level) as [target|] eqn:Hlv;
    [|by injection E as <- <- <-].
  destruct (OpenProcess pid b) as [[h|e] b1] eqn:Ho.
  2:{ injection E as <- <- <-. apply open_fail in Ho as (Hh & _ & Hcl).
      split; [|done]. unfold booster_inv. by rewrite Hh. }
  destruct (open_ok _ _ _ _ Ho) as (H0 & Hfresh & Hhs & Hpr & Hcl).
  assert (h ∈ handles b1) as Hh1 by set_solver.
  destruct (QueryCreationTime h b1) as [actual b2] eqn:Et.
  destruct (query_time _ _ _ _ Hh1 Et) as [Hact (T1 & T2 & T3)].
  assert (∀ b0, handles b0 = handles b1 → (∀ p, class_of p b0 = class_of p b) →
    handles (CloseProcess h b0).2 = handles b ∧
    ∀ p, class_of p (CloseProcess h b0).2 = class_of p b) as Hclose.
  { intros b0 Q1 Q2. destruct (close_process h b0) as (-> & _ & Hcc).
    split; [rewrite Q1, Hhs; set_solver|]. intros p. by rewrite Hcc. }
  assert (∀ b0, handles b0 = handles b → booster_inv s b0) as Hinv0
    by (intros b0; unfold booster_inv; by intros ->).
  destruct (negb (expected =? 0) && _) eqn:Eid.
  { destruct (Hclose b2 T1 ltac:(intros; by rewrite T3, Hcl)) as [A1 A2].
    destruct (CloseProcess h b2) as [[] b3]. injection E as <- <- <-. auto. }
  assert (h ∈ handles b2) as Hh2 by (by rewrite T1).
  destruct (QueryPriorityClass h b2) as [original b3] eqn:Ec.
  destruct (query_class _ _ _ _ Hh2 Ec) as [Hor (C1 & C2 & C3)].
  destruct (Z.eqb_spec original 0) as [->|Hor0].
  { destruct (Hclose b3 ltac:(congruence) ltac:(intros; by rewrite C3, T3, Hcl)) as [A1 A2].
    destruct (CloseProcess h b3) as [[] b4]. injection E as <- <- <-. auto. }
  destruct Hor as [?|Hor]; [done|].
  assert (h ∈ handles b3) as Hh3 by (by rewrite C1).
  destruct (SetPriorityClass h target b3) as [[u|e] b4] eqn:Es.
  - destruct (set_class_ok _ _ _ _ _ Hh3 Es) as (S1 & S2 & S3).
    injection E as <- <- <-.
    assert (handles b4 = {[h]} ∪ handles b) as Hh4 by congruence.
    assert (process h b4 = process h b1) as Hp4
      by (rewrite S2, C2, T2 by done; done).
    assert (process h b3 = process h b1) as Hp3 by (rewrite C2, T2 by done; done).
    split.
    { unfold booster_inv. cbn [leases]. rewrite Hh4.
      by apply (leases_inv_add (leases s) (handles b) g (MkLease pid
        (if negb (actual =? 0) then actual else expected) h original target level 1));
        cbn; try lia. }
    unfold new_lease. cbn [leases]. eexists. rewrite smap_find_set, String.eqb_refl.
    split; [done|]. cbn. rewrite Hp4. repeat (split; [done|]). split; [|split; [|split]].
    + intros p. by rewrite S3, C3, T3, Hcl, Hp3.
    + by rewrite Hor, T2, T3, Hcl.
    + done.
    + split; [|intros g' Hne; by rewrite smap_find_set, (proj2 (String.eqb_neq _ _))].
      intros Hexp. rewrite (proj2 (Z.eqb_neq _ _) Hexp) in Eid. cbn in Eid.
      apply orb_false_iff in Eid as [E1 E2]. b2p. destruct Hact; congruence.
  - destruct (set_class_fail _ _ _ _ _ Es) as (S1 & S2 & S3).
    destruct (Hclose b4 ltac:(congruence) ltac:(intros; by rewrite S3, C3, T3, Hcl))
      as [A1 A2].
    destruct (CloseProcess h b4) as [[] b5]. injection E as <- <- <-. auto.
Qed.

(** Acquiring for a game that holds no lease: it succeeds only for a level
    that is not [None] and within the configured maximum and, where a creation
    time was observed, only on the process created then; it then sets the class
    of that process alone, with the class it had saved in the lease. On any
    failure no lease, no class and no handle is left behind. *)
Lemma AcquireBoost_fresh
    (g : string) (pid expected : Z) (level : PriorityLevel) (s : PriorityBooster) (b : B)
    (r : Result unit) (s' : PriorityBooster) (b' : B) :
  booster_inv s b → find g (leases s) = None →
  AcquireBoost g pid expected level (s, b) = (r, (s', b')) →
  booster_inv s' b' ∧
  match r with
  | Failure _ => s' = s ∧ handles b' = handles b ∧ ∀ p, class_of p b' = class_of p b
  | Success _ =>
      level ≠ PriorityLevel.None ∧ level_value level <= level_value (maxLevel s) ∧
      new_lease g pid expected level s b s' b'
  end.
Proof.
  intros Hinv Hg E. unfold AcquireBoost in E.
  case_bool_decide as Hn; [by injection E as <- <- <-|].
  unfold LevelExceeds in E.
  destruct (Z.ltb_spec (level_value (maxLevel s)) (level_value level)) as [Hx|Hx];
    [by injection E as <- <- <-|].
  rewrite Hg in E. apply acquire_new_spec in E as [Hi E]; [|done|done].
  split; [done|]. by destruct r.
Qed.

Lemma ReleaseBoost_inv g pid s b r s' b' :
  booster_inv s b → ReleaseBoost g pid (s, b) = (r, (s', b')) →
  booster_inv s' b' ∧
  ((BoostCount g s <= 1)%nat → pid = match find g (leases s) with
                                     | Some st => lease_pid st | None => pid end →
   HasValue r = true → find g (leases s') = None).
Proof.
  intros Hinv E. unfold ReleaseBoost, BoostCount in *.
  destruct (find g (leases s)) as [st|] eqn:Hg; [|by injection E as <- <- <-].
  pose proof Hinv as (_ & Hl & _). destruct (Hl _ _ Hg) as (Hh & H0 & Hc).
  destruct (Z.eqb_spec (lease_pid st) pid) as [Hp|Hp]; cbn [negb] in E;
    [|by injection E as <- <- <-].
  destruct (Z.ltb_spec 1 (Z.of_nat (lease_count st))) as [H1|H1].
  { injection E as <- <- <-. split; [apply leases_inv_recount; [done|done|lia]|lia]. }
  destruct (RestoreLastLease st b) as [o b1] eqn:Er.
  destruct (RestoreLastLease_spec st b o b1 Hh Er) as [Ho Hr].
  destruct o as [e|].
  - destruct Ho as [(Hqh & _ & _) _]. injection E as <- <- <-. split; [|done].
    unfold booster_inv. cbn. rewrite Hqh. apply leases_inv_recount; [done|done|lia].
  - destruct Ho as [Hhs _]. injection E as <- <- <-. cbn [leases].
    split; [|intros; by rewrite smap_find_erase, String.eqb_refl].
    unfold booster_inv. cbn. rewrite Hhs. by apply leases_inv_erase.
Qed.

(** Acquiring keeps the invariant unless a restarted game's lease is counted
    more than once. *)
Lemma AcquireBoost_inv g pid expected level s b r s' b' :
  booster_inv s b →
  (∀ st, find g (leases s) = Some st → lease_pid st = pid ∨ (lease_count st <= 1)%nat) →
  AcquireBoost g pid expected level (s, b) = (r, (s', b')) →
  booster_inv s' b'.
Proof.
  intros Hinv Hone E. unfold AcquireBoost in E.
  case_bool_decide; [by injection E as <- <- <-|].
  destruct (LevelExceeds _ _); [by injection E as <- <- <-|].
  destruct (find g (leases s)) as [st|] eqn:Hg.
  2:{ by apply acquire_new_spec in E as [? _]. }
  destruct (Z.eqb_spec (lease_pid st) pid) as [Hp|Hp].
  { injection E as <- <- <-. unfold booster_inv. cbn. apply leases_inv_recount; [done|done|lia]. }
  destruct (ReleaseBoost g (lease_pid st) (s, b)) as [r1 [s1 b1]] eqn:Er.
  destruct (ReleaseBoost_inv _ _ _ _ _ _ _ Hinv Er) as [Hinv1 Hnone].
  unfold BoostCount in Hnone. rewrite Hg in Hnone.
  destruct r1; [|by injection E as <- <- <-].
  apply acquire_new_spec in E as [? _]; [done|done|].
  apply Hnone; [|done|done]. by destruct (Hone _ eq_refl).
Qed.

(** ** Releasing everything *)

Lemma ForceCleanLease_spec st b :
  lease_handle st ∈ handles b → lease_handle st ≠ 0 →
  let b' := (ForceCleanLease st b).2 in
  handles b' = handles b ∖ {[lease_handle st]} ∧
  ∀ p, class_of p b' = class_of p b ∨
       p = process (lease_handle st) b ∧ class_of p b = targetClass st ∧
       class_of p b' = originalClass st.
Proof.
  intros Hh H0. cbn zeta. unfold ForceCleanLease, mthen, mret.
  rewrite (proj2 (Z.eqb_neq _ _)) by done. cbn [negb].
  destruct (QueryPriorityClass (lease_handle st) b) as [c b1] eqn:Ec.
  destruct (query_class _ _ _ _ Hh Ec) as [Hc (C1 & C2 & C3)].
  destruct (negb (c =? 0) && (c =? targetClass st)) eqn:Et.
  - assert (lease_handle st ∈ handles b1) as Hh1 by (by rewrite C1).
    destruct (SetPriorityClass (lease_handle st) (originalClass st) b1) as [[u|e] b2] eqn:Es.
    + destruct (set_class_ok _ _ _ _ _ Hh1 Es) as (S1 & S2 & S3).
      destruct (close_process (lease_handle st) b2) as (-> & _ & Hcc).
      split; [congruence|]. intros p. rewrite Hcc, S3, C2 by done.
      destruct (decide (p = process (lease_handle st) b)) as [->|]; [right|left; by rewrite C3].
      b2p. repeat split; try done. destruct Hc; congruence.
    + destruct (set_class_fail _ _ _ _ _ Es) as (S1 & S2 & S3).
      destruct (close_process (lease_handle st) b2) as (-> & _ & Hcc).
      split; [congruence|]. intros p. left. by rewrite Hcc, S3, C3.
  - destruct (close_process (lease_handle st) b1) as (-> & _ & Hcc).
    split; [congruence|]. intros p. left. by rewrite Hcc, C3.
Qed.

Lemma clean_leases_handles m b :
  Forall (λ e, lease_handle e.2 ∈ handles b ∧ lease_handle e.2 ≠ 0) m →
  NoDup (map (λ e, lease_handle e.2) m) →
  handles (clean_leases m b).2 = handles b ∖ list_to_set (map (λ e, lease_handle e.2) m).
Proof.
  revert b. induction m as [|[g st] m IH]; intros b; cbn; [set_solver|].
  rewrite Forall_cons, NoDup_cons. intros [[Hh H0] Hall] [Hnin Hnd]. cbn in *.
  destruct (ForceCleanLease_spec st b Hh H0) as [Hc _]. unfold mthen.
  destruct (ForceCleanLease st b) as [[] b1]. cbn in Hc.
  rewrite IH; [set_solver| |done]. rewrite Hc.
  rewrite list.Forall_forall in Hall |- *. intros e He. destruct (Hall e He). split; [|done].
  apply elem_of_difference. split; [done|]. rewrite elem_of_singleton. intros E. apply Hnin.
  rewrite <- E. by apply (list_elem_of_fmap_2 (λ e, lease_handle e.2)).
Qed.

(** [ReleaseAll] closes every handle the booster opened and drops every
    lease, whatever the system answers. *)
Lemma ReleaseAllBoosts_closes (s : PriorityBooster) (b : B) :
  booster_inv s b →
  let '(_, (s', b')) := ReleaseAllBoosts (s, b) in leases s' = [] ∧ handles b' = ∅.
Proof.
  intros (Hs & Hl & Hh & Hi). unfold ReleaseAllBoosts.
  pose proof (clean_leases_handles (leases s) b) as Hc.
  destruct (clean_leases (leases s) b) as [[] b']. cbn in *. split; [done|].
  rewrite Hc.
  - apply set_eq. intros h. rewrite elem_of_difference, elem_of_list_to_set.
    split; [|set_solver]. intros [(g & st & Hg & <-)%Hh Hn]. destruct Hn.
    apply smap_find_In in Hg. by apply (list_elem_of_fmap_2 (λ e, lease_handle e.2) _ _ Hg).
  - rewrite list.Forall_forall. intros [g st] Hin%smap_In_find; [|done].
    by destruct (Hl _ _ Hin) as (? & ? & _).
  - clear Hc Hl Hh. induction Hs as [|[g st] m Hs IH Hall]; cbn; [constructor|].
    assert (smap_sorted ((g, st) :: m)) as Hs' by by constructor.
    apply NoDup_cons. split.
    + intros ([g' st'] & E & Hin)%list_elem_of_fmap_1.
      assert (g = g') as <-.
      { apply (Hi g g' st st'); [cbn; by rewrite String.eqb_refl| |done].
        apply smap_In_find; [done|]. by right. }
      rewrite list.Forall_forall in Hall. specialize (Hall _ Hin).
      unfold str_lt in Hall. cbn in Hall. by rewrite str_compare_refl in Hall.
    + apply IH. intros g1 g2 s1 s2 H1 H2. apply (Hi g1 g2);
        (apply smap_In_find; [done|]; right; by apply smap_find_In).
Qed.
End Theorems.

(** ** The service a client relies on *)

(** A lease per game: the leased process and the count. Acquiring where there
    is no lease and releasing the last one change that lease alone, and only
    when they succeed. *)
Class BoostService (S : Type) := {
  boost_acquire : string → Z → Z → PriorityLevel → M S (Result unit);
  boost_release : string → Z → M S (Result unit);
  boosted : string → S → option (Z * nat);
  boost_inv : S → Prop;
  boost_acquire_spec : ∀ g pid t lv s r s',
    boost_inv s → boosted g s = None → boost_acquire g pid t lv s = (r, s') →
    boost_inv s' ∧ boosted g s' = (if HasValue r then Some (pid, 1%nat) else None) ∧
    ∀ g', g' ≠ g → boosted g' s' = boosted g' s;
  boost_release_spec : ∀ g pid s r s',
    boost_inv s → boosted g s = Some (pid, 1%nat) → boost_release g pid s = (r, s') →
    boost_inv s' ∧ boosted g s' = (if HasValue r then None else Some (pid, 1%nat)) ∧
    ∀ g', g' ≠ g → boosted g' s' = boosted g' s
}.

Definition lease_of (g : string) (s : PriorityBooster) : option (Z * nat) :=
  (λ st, (lease_pid st, lease_count st)) <$> smap_find g (leases s).

#[export] Program Instance booster_service {B} `{!PriorityBackend B}
  `{!PriorityLaws B} : BoostService (PriorityBooster * B) := {|
  boost_acquire := AcquireBoost;
  boost_release := ReleaseBoost;
  boosted g s := lease_of g s.1;
  boost_inv s := booster_inv s.1 s.2
|}.
Next Obligation.
  intros B ? ? g pid t lv [s b] r [s' b'] Hinv Hg E. cbn in *. unfold lease_of in *.
  apply fmap_None in Hg. unfold AcquireBoost in E.
  case_bool_decide; [injection E as <- <- <-; by rewrite Hg|].
  destruct (LevelExceeds _ _); [injection E as <- <- <-; by rewrite Hg|].
  rewrite Hg in E. apply acquire_new_spec in E as [Hi E]; [|done|done].
  split; [done|]. destruct r; cbn.
  - destruct E as (st & -> & <- & _ & Hc & _ & _ & _ & _ & _ & _ & _ & Ho). cbn.
    rewrite Hc. split; [done|]. intros g' Hne. by rewrite Ho.
  - destruct E as (-> & _). by rewrite Hg.
Qed.
Next Obligation.
  intros B ? ? g pid [s b] r [s' b'] Hinv Hg E. cbn in *. unfold lease_of in *.
  destruct (ReleaseBoost_inv _ _ _ _ _ _ _ Hinv E) as [Hinv' _]. split; [done|].
  unfold ReleaseBoost in E.
  destruct (smap_find g (leases s)) as [st|] eqn:Hf; [|done]. cbn in Hg.
  injection Hg as Hp Hc. rewrite (proj2 (Z.eqb_eq _ _)), Hc in E by done. cbn in E.
  destruct (RestoreLastLease st b) as [[e|] b1]; injection E as <- <- <-; cbn.
  - rewrite smap_find_set, String.eqb_refl. cbn. rewrite Hp. split; [done|].
    intros g' Hne. by rewrite smap_find_set, (proj2 (String.eqb_neq _ _)).
  - rewrite smap_find_erase, String.eqb_refl. split; [done|].
    intros g' Hne. by rewrite smap_find_erase, (proj2 (String.eqb_neq _ _)).
Qed.

(** ** A backend to evaluate the model *)

Record FakeProcesses := MkFakeProcesses {
  fk_handles : gset Z;
  fk_process : gmap Z Z;  (* handle to pid *)
  fk_class : gmap Z Z     (* running processes *)
}.

Definition fk_created (pid : Z) : Z := 1000 + pid.
Definition fk_process_of (h : Z) (b : FakeProcesses) : Z := default 0 (fk_process b !! h).
Definition fk_class_of (p : Z) (b : FakeProcesses) : Z := default 0 (fk_class b !! p).
Definition fk_fresh (b : FakeProcesses) : Z := 1 + set_max (fk_handles b).
Definition fk_error : Error := MkError ErrorDomain.Win32 87 "fake" "".

#[export] Instance fake_processes : PriorityBackend FakeProcesses := {|
  OpenProcess pid b :=
    if bool_decide (is_Some (fk_class b !! pid)) then
      (Success (fk_fresh b),
       MkFakeProcesses ({[fk_fresh b]} ∪ fk_handles b) (<[fk_fresh b := pid]> (fk_process b))
         (fk_class b))
    else (Failure fk_error, b);
  QueryCreationTime h b := (fk_created (fk_process_of h b), b);
  QueryPriorityClass h b := (fk_class_of (fk_process_of h b) b, b);
  SetPriorityClass h c b :=
    (Success tt, MkFakeProcesses (fk_handles b) (fk_process b)
                   (<[fk_process_of h b := c]> (fk_class b)));
  CloseProcess h b := (tt, MkFakeProcesses (fk_handles b ∖ {[h]}) (fk_process b) (fk_class b))
|}.

#[export] Program Instance fake_process_laws : PriorityLaws FakeProcesses := {|
  handles := fk_handles;
  process := fk_process_of;
  class_of := fk_class_of;
  created := fk_created
|}.
Next Obligation.
  intros pid b h b'. cbn. case_bool_decide; [|done]. intros [= <- <-]. cbn.
  unfold fk_fresh. pose proof (set_max_nonneg (fk_handles b)).
  split; [lia|]. split; [intros Hin%set_max_ge; lia|]. split; [done|]. split; [|done].
  intros h Hin%set_max_ge. unfold fk_process_of. cbn. by rewrite lookup_insert_ne by lia.
Qed.
Next Obligation. intros pid b e b'. cbn. case_bool_decide; [done|]. by intros [= <- <-]. Qed.
Next Obligation. intros h b t b' Hin. cbn. intros [= <- <-]. auto. Qed.
Next Obligation. intros h b c b' Hin. cbn. intros [= <- <-]. auto. Qed.
Next Obligation.
  intros h c b u b' Hin. cbn. intros [= <- <-]. repeat split; try done.
  intros p. unfold fk_class_of, fk_process_of. cbn.
  destruct (decide (p = default 0 (fk_process b !! h))) as [->|].
  - by rewrite lookup_insert_eq.
  - by rewrite lookup_insert_ne.
Qed.
Next Obligation. done. Qed.
Next Obligation. done. Qed.

(** Two running processes of normal priority. *)
Definition two_processes : FakeProcesses :=
  MkFakeProcesses ∅ ∅ (<[10 := 0x20]> (<[20 := 0x20]> ∅)).

Definition new_booster : PriorityBooster := MkBooster PriorityLevel.AboveNormal [].

Lemma new_booster_inv : booster_inv new_booster two_processes.
Proof. exact leases_inv_nil. Qed.

(** A game is leased twice on one process, then on another. *)
Definition restart_counted : M (PriorityBooster * FakeProcesses) (Result unit) :=
  AcquireBoost "game" 10 1010 PriorityLevel.AboveNormal ;;;
  AcquireBoost "game" 10 1010 PriorityLevel.AboveNormal ;;;
  AcquireBoost "game" 20 1020 PriorityLevel.AboveNormal.

(** A restarted game whose old lease is counted more than once is not
    restored: [AcquireBoost] for the new process succeeds, the old process keeps
    its boosted class, no lease accounts for its handle any more, and even
    releasing everything leaves it boosted and its handle open. *)
Lemma AcquireBoost_restart_leaks :
  let '(r, (s, b)) := restart_counted (new_booster, two_processes) in
  let '(_, (s', b')) := ReleaseAllBoosts (s, b) in
  r = Success tt ∧ class_of 10 b = 0x8000 ∧
  (∃ h, h ∈ handles b ∧ ∀ g st, smap_find g (leases s) = Some st → lease_handle st ≠ h) ∧
  leases s' = [] ∧ class_of 10 b' = 0x8000 ∧ handles b' ≠ ∅.
Proof.
  destruct (restart_counted (new_booster, two_processes)) as [r [s b]] eqn:E.
  vm_compute in E. injection E as <- <- <-.
  destruct (ReleaseAllBoosts _) as [[] [s' b']] eqn:E. vm_compute in E.
  injection E as <- <-. split; [done|]. split; [done|]. split; [|split; [done|split]].
  - exists 1. split; [by apply (bool_decide_unpack _)|].
    intros g st. cbn [leases smap_find].
    destruct (String.eqb "game" g); [by intros [= <-]|done].
  - done.
  - intros H. apply (f_equal elements) in H. by vm_compute in H.
Qed.

Definition boosted_once : PriorityBooster * FakeProcesses :=
  (AcquireBoost "game" 10 1010 PriorityLevel.AboveNormal (new_booster, two_processes)).2.

Lemma boosted_once_inv : booster_inv boosted_once.1 boosted_once.2.
Proof.
  destruct (AcquireBoost "game" 10 1010 PriorityLevel.AboveNormal
    (new_booster, two_processes)) as [r [s b]] eqn:E.
  assert (boosted_once = (s, b)) as -> by (unfold boosted_once; by rewrite E).
  eapply AcquireBoost_inv; [exact new_booster_inv| |exact E]. done.
Qed.

Example ReleaseBoost_spec_witness :
  let '(r, (s', b')) := ReleaseBoost "game" 10 boosted_once in
  r = Success tt ∧ smap_find "game" (leases s') = None ∧ booster_inv s' b'.
Proof.
  pose proof boosted_once_inv as Hinv. destruct boosted_once as [s b] eqn:Eb.
  destruct (ReleaseBoost "game" 10 (s, b)) as [r [s' b']] eqn:E.
  pose proof (ReleaseBoost_spec "game" 10 s b r s' b' Hinv E) as [Hi _].
  rewrite <- Eb in E. vm_compute in E. injection E as <- <- <-. auto.
Defined.

Example AcquireBoost_fresh_witness :
  let '(r, (s', b')) := AcquireBoost "game" 10 1010 PriorityLevel.AboveNormal
                          (new_booster, two_processes) in
  r = Success tt ∧ new_lease "game" 10 1010 PriorityLevel.AboveNormal
                     new_booster two_processes s' b'.
Proof.
  destruct (AcquireBoost "game" 10 1010 PriorityLevel.AboveNormal
    (new_booster, two_processes)) as [r [s' b']] eqn:E.
  pose proof (AcquireBoost_fresh "game" 10 1010 PriorityLevel.AboveNormal new_booster
    two_processes r s' b' new_booster_inv eq_refl E) as [_ H].
  assert (r = Success tt) as Hr.
  { change r with (r, (s', b')).1. rewrite <- E. by vm_compute. }
  rewrite Hr in H. split; [exact Hr|]. exact (proj2 (proj2 H)).
Defined.

Example ReleaseAllBoosts_closes_witness :
  handles (ReleaseAllBoosts boosted_once).2.2 = ∅.
Proof.
  pose proof boosted_once_inv as Hinv. destruct boosted_once as [s b].
  pose proof (ReleaseAllBoosts_closes s b Hinv) as H.
  destruct (ReleaseAllBoosts (s, b)) as [[] [s' b']]. exact (proj2 H).
Defined.
