(* ===== verification/PolicyExecutor.v ===== *)
(** The executor of policy decisions ([policy/policy_executor.hpp],
    [source/policy/policy_executor.cpp]): each round reconciles what is held
    with what the decision and the configuration want, and stops touching the
    system after too many failures in a row. It is a client of the classes
    [PowerService] and [BoostService], which the power locker and the priority
    booster implement. *)

From S2P Require Import Prelude CommonError Containers ConfigTypes.
From S2P Require Import PolicyEngine PowerLocker PriorityBooster.

Open Scope string_scope.
Open Scope list_scope.
Open Scope Z_scope.

(** ** Data *)

Record ExecutorActionEvent := MkActionEvent {
  operationId : string;
  ev_target : string;
  ev_detail : string;
  ev_ok : bool
}.

(** [hasObserver]: [actionObserver] is set. What it does with an event is not
    the executor's concern; the model keeps the events it is given. *)
Record ExecutorConfig := MkExecutorConfig {
  priorityEnabled : bool;
  priorityMaxLevel : PriorityLevel;
  powerExecutionRequired : bool;
  powerDisplayRequired : bool;
  powerReason : string;
  consecutiveActionFailuresToHalt : nat;
  hasObserver : bool
}.

Record ExecutorTarget := MkTarget {
  tgt_gameId : string;
  tgt_pid : Z;
  tgt_creationTime : Z;
  tgt_running : bool
}.

Record ExecutorEffect := MkEffect {
  priorityBoosted : bool;
  priorityReleased : bool;
  eff_powerHeld : bool;
  eff_powerReleased : bool;
  eff_displayHeld : bool;
  eff_displayReleased : bool;
  skipped : string
}.

Definition no_effect : ExecutorEffect := MkEffect false false false false false false "".

Record PolicyExecutor := MkExecutor {
  config_ : ExecutorConfig;
  powerHeld_ : bool;
  displayHeld_ : bool;
  priorityGameId_ : string;
  priorityPid_ : Z;
  consecutiveActionFailures_ : nat;
  halted_ : bool
}.

Definition NewPolicyExecutor (c : ExecutorConfig) : PolicyExecutor :=
  MkExecutor c false false "" 0 0 false.

Definition IsPriorityHeld (e : PolicyExecutor) : bool :=
  negb (string_empty (priorityGameId_ e)).
Definition IsPowerHeld (e : PolicyExecutor) : bool := powerHeld_ e.
Definition IsDisplayHeld (e : PolicyExecutor) : bool := displayHeld_ e.
Definition IsHalted (e : PolicyExecutor) : bool := halted_ e.

Definition set_priority (g : string) (pid : Z) (e : PolicyExecutor) : PolicyExecutor :=
  MkExecutor (config_ e) (powerHeld_ e) (displayHeld_ e) g pid
    (consecutiveActionFailures_ e) (halted_ e).
Definition clear_priority (e : PolicyExecutor) : PolicyExecutor :=
  set_priority "" (priorityPid_ e) e.
Definition set_held (t : PowerLockType) (h : bool) (e : PolicyExecutor) : PolicyExecutor :=
  match t with
  | PowerLockType.ExecutionRequired =>
      MkExecutor (config_ e) h (displayHeld_ e) (priorityGameId_ e) (priorityPid_ e)
        (consecutiveActionFailures_ e) (halted_ e)
  | PowerLockType.DisplayRequired =>
      MkExecutor (config_ e) (powerHeld_ e) h (priorityGameId_ e) (priorityPid_ e)
        (consecutiveActionFailures_ e) (halted_ e)
  end.
Definition held_flag (t : PowerLockType) (e : PolicyExecutor) : bool :=
  match t with
  | PowerLockType.ExecutionRequired => powerHeld_ e
  | PowerLockType.DisplayRequired => displayHeld_ e
  end.
Definition set_failures (n : nat) (h : bool) (e : PolicyExecutor) : PolicyExecutor :=
  MkExecutor (config_ e) (powerHeld_ e) (displayHeld_ e) (priorityGameId_ e)
    (priorityPid_ e) n h.

Definition ResetHalt (e : PolicyExecutor) : PolicyExecutor := set_failures 0 false e.

(** The flags of an effect that one power request sets. *)
Definition effect_held (t : PowerLockType) (f : ExecutorEffect) : ExecutorEffect :=
  match t with
  | PowerLockType.ExecutionRequired =>
      MkEffect (priorityBoosted f) (priorityReleased f) true (eff_powerReleased f)
        (eff_displayHeld f) (eff_displayReleased f) (skipped f)
  | PowerLockType.DisplayRequired =>
      MkEffect (priorityBoosted f) (priorityReleased f) (eff_powerHeld f)
        (eff_powerReleased f) true (eff_displayReleased f) (skipped f)
  end.
Definition effect_released (t : PowerLockType) (f : ExecutorEffect) : ExecutorEffect :=
  match t with
  | PowerLockType.ExecutionRequired =>
      MkEffect (priorityBoosted f) (priorityReleased f) (eff_powerHeld f) true
        (eff_displayHeld f) (eff_displayReleased f) (skipped f)
  | PowerLockType.DisplayRequired =>
      MkEffect (priorityBoosted f) (priorityReleased f) (eff_powerHeld f)
        (eff_powerReleased f) (eff_displayHeld f) true (skipped f)
  end.
Definition effect_boosted (f : ExecutorEffect) : ExecutorEffect :=
  MkEffect true (priorityReleased f) (eff_powerHeld f) (eff_powerReleased f)
    (eff_displayHeld f) (eff_displayReleased f) (skipped f).
Definition effect_unboosted (f : ExecutorEffect) : ExecutorEffect :=
  MkEffect (priorityBoosted f) true (eff_powerHeld f) (eff_powerReleased f)
    (eff_displayHeld f) (eff_displayReleased f) (skipped f).
Definition effect_skipped (text : string) (f : ExecutorEffect) : ExecutorEffect :=
  MkEffect (priorityBoosted f) (priorityReleased f) (eff_powerHeld f) (eff_powerReleased f)
    (eff_displayHeld f) (eff_displayReleased f) text.

(** ** Operations *)

Section Operations.
Context {P Q : Type} `{PowerService P} `{BoostService Q}.

(** The executor with the two services it owns and the events observed. *)
Record World := MkWorld {
  executor : PolicyExecutor;
  power : P;
  priority : Q;
  observed : list ExecutorActionEvent
}.

Definition on_executor (f : PolicyExecutor → PolicyExecutor) (w : World) : World :=
  MkWorld (f (executor w)) (power w) (priority w) (observed w).

Definition EmitAction (op target detail : string) (ok : bool) (w : World) : World :=
  if negb (hasObserver (config_ (executor w))) then w
  else MkWorld (executor w) (power w) (priority w)
         (observed w ++ [MkActionEvent op target detail ok]).

Definition call_release_boost (w : World) : Result unit * World :=
  let e := executor w in
  let '(r, q) := boost_release (priorityGameId_ e) (priorityPid_ e) (priority w) in
  (r, MkWorld e (power w) q (observed w)).

Definition unboost (detail : string) (w : World) : Result unit * World :=
  let e := executor w in
  let '(r, w1) := call_release_boost w in
  (r, EmitAction "priority.unboost"
        (priorityGameId_ e +:+ " pid " +:+ to_string (priorityPid_ e)) detail
        (HasValue r) w1).

Definition boost (t : ExecutorTarget) (w : World) : Result unit * World :=
  let c := config_ (executor w) in
  let '(r, q) := boost_acquire (tgt_gameId t) (tgt_pid t) (tgt_creationTime t)
                   (priorityMaxLevel c) (priority w) in
  (r, EmitAction "priority.boost" (tgt_gameId t +:+ " pid " +:+ to_string (tgt_pid t))
        ("level=" +:+ to_string (level_value (priorityMaxLevel c))) (HasValue r)
        (MkWorld (executor w) (power w) q (observed w))).

Definition priority_desired (d : PolicyDecision) (t : ExecutorTarget)
    (c : ExecutorConfig) : bool :=
  priorityEnabled c && tgt_running t &&
  bool_decide (action d = PolicyAction.SuggestPriorityBoost).

(** The last step of the desired branch: acquire for the target. *)
Definition acquire_target (t : ExecutorTarget) (f : ExecutorEffect) (w : World)
  : Result unit * ExecutorEffect * World :=
  match boost t w with
  | (Failure e, w1) => (Failure e, f, w1)
  | (Success _, w1) =>
      (Success tt, effect_boosted f,
       on_executor (set_priority (tgt_gameId t) (tgt_pid t)) w1)
  end.

Definition ReconcilePriority (d : PolicyDecision) (t : ExecutorTarget)
    (f : ExecutorEffect) (w : World) : Result unit * ExecutorEffect * World :=
  let e := executor w in
  if priority_desired d t (config_ e) then
    if tgt_pid t =? 0 then
      (Success tt,
       effect_skipped "priority boost skipped: no valid process identity" f, w)
    else if String.eqb (priorityGameId_ e) (tgt_gameId t) &&
            (priorityPid_ e =? tgt_pid t) then (Success tt, f, w)
    else if negb (string_empty (priorityGameId_ e)) then
      match unboost "target change pre-release" w with
      | (Failure err, w1) => (Failure err, f, w1)
      | (Success _, w1) =>
          acquire_target t (effect_unboosted f) (on_executor clear_priority w1)
      end
    else acquire_target t f w
  else if negb (string_empty (priorityGameId_ e)) then
    match unboost "game exit or no longer desired" w with
    | (Failure err, w1) => (Failure err, f, w1)
    | (Success _, w1) =>
        (Success tt, effect_unboosted f, on_executor clear_priority w1)
    end
  else (Success tt, f, w).

Definition ReconcilePowerLock (t : PowerLockType) (desired : bool) (detail : string)
    (f : ExecutorEffect) (w : World) : Result unit * ExecutorEffect * World :=
  let e := executor w in
  if desired && negb (held_flag t e) then
    let '(r, p) := power_acquire t (powerReason (config_ e)) (power w) in
    let w1 := EmitAction "power.hold" "policy (game running)" detail (HasValue r)
                (MkWorld e p (priority w) (observed w)) in
    match r with
    | Failure err => (Failure err, f, w1)
    | Success _ => (Success tt, effect_held t f, on_executor (set_held t true) w1)
    end
  else if negb desired && held_flag t e then
    let '(r, p) := power_release t (power w) in
    let w1 := EmitAction "power.release" "policy"
                (detail +:+ " (game exit or no longer desired)") (HasValue r)
                (MkWorld e p (priority w) (observed w)) in
    match r with
    | Failure err => (Failure err, f, w1)
    | Success _ => (Success tt, effect_released t f, on_executor (set_held t false) w1)
    end
  else (Success tt, f, w).

Definition ReconcilePower (t : ExecutorTarget) (f : ExecutorEffect) (w : World)
  : Result unit * ExecutorEffect * World :=
  let c := config_ (executor w) in
  match ReconcilePowerLock PowerLockType.ExecutionRequired
          (powerExecutionRequired c && tgt_running t) "execution power request" f w with
  | (Failure e, f1, w1) => (Failure e, f1, w1)
  | (Success _, f1, w1) =>
      ReconcilePowerLock PowerLockType.DisplayRequired
        (powerDisplayRequired c && tgt_running t) "display power request" f1 w1
  end.

(** Counting a failed round. *)
Definition count_failure (e : PolicyExecutor) : PolicyExecutor :=
  let limit := consecutiveActionFailuresToHalt (config_ e) in
  if (0 <? Z.of_nat limit) then
    let n := S (consecutiveActionFailures_ e) in
    set_failures n (halted_ e || (Z.of_nat limit <=? Z.of_nat n)) e
  else e.

Definition ApplyDecision (d : PolicyDecision) (t : ExecutorTarget) (w : World)
  : Result ExecutorEffect * World :=
  let e := executor w in
  if halted_ e then
    (Success (effect_skipped
       ("execution halted: " +:+
        to_string (Z.of_nat (consecutiveActionFailuresToHalt (config_ e))) +:+
        " consecutive R1 action failures (Safe Mode-like; advisory only)") no_effect), w)
  else match ReconcilePriority d t no_effect w with
  | (Failure err, _, w1) => (Failure err, on_executor count_failure w1)
  | (Success _, f1, w1) =>
      match ReconcilePower t f1 w1 with
      | (Failure err, _, w2) => (Failure err, on_executor count_failure w2)
      | (Success _, f2, w2) =>
          (Success f2, on_executor (λ e, set_failures 0 (halted_ e) e) w2)
      end
  end.

Definition release_on_exit (t : PowerLockType) (detail : string) (w : World) : World :=
  if held_flag t (executor w) then
    let '(r, p) := power_release t (power w) in
    on_executor (set_held t false)
      (EmitAction "power.release" "policy" detail (HasValue r)
         (MkWorld (executor w) p (priority w) (observed w)))
  else w.

Definition unboost_on_exit (w : World) : World :=
  if negb (string_empty (priorityGameId_ (executor w)))
  then on_executor clear_priority (unboost "release-all on exit" w).2
  else w.

Definition ExecutorReleaseAll (w : World) : World :=
  release_on_exit PowerLockType.DisplayRequired "release-all on exit (display)"
    (release_on_exit PowerLockType.ExecutionRequired "release-all on exit"
       (unboost_on_exit w)).
End Operations.

Arguments World P Q : clear implicits.

(** ** Theorems *)

Section Theorems.
Context {P Q : Type} `{!PowerService P} `{!BoostService Q}.
#[local] Notation world := (World P Q).

(** The executor's records agree with the services: as many requests and
    leases are held on its behalf as it believes. *)
Definition agrees (e : PolicyExecutor) (p : P) (q : Q) : Prop :=
  power_inv p ∧ boost_inv q ∧
  (∀ t, power_count t p = if held_flag t e then 1%nat else 0%nat) ∧
  (∀ g, boosted g q = if decide (g = priorityGameId_ e ∧ g ≠ "")
                      then Some (priorityPid_ e, 1%nat) else None).

Definition exec_inv (w : world) : Prop := agrees (executor w) (power w) (priority w).

Lemma EmitAction_executor op t d ok (w : world) :
  executor (EmitAction op t d ok w) = executor w ∧ power (EmitAction op t d ok w) = power w ∧
  priority (EmitAction op t d ok w) = priority w.
Proof. unfold EmitAction. by destruct (negb _). Qed.

(** What a step on the priority lease keeps. *)
Definition same_but_priority (w w' : world) : Prop :=
  config_ (executor w') = config_ (executor w) ∧ power w' = power w ∧
  (∀ t, held_flag t (executor w') = held_flag t (executor w)) ∧
  consecutiveActionFailures_ (executor w') = consecutiveActionFailures_ (executor w) ∧
  halted_ (executor w') = halted_ (executor w).

Lemma unboost_spec detail (w : world) r w' :
  exec_inv w → priorityGameId_ (executor w) ≠ "" → unboost detail w = (r, w') →
  executor w' = executor w ∧ power w' = power w ∧
  if HasValue r then exec_inv (on_executor clear_priority w') else exec_inv w'.
Proof.
  intros (Hp & Hq & Hc & Hb) Hne E. unfold unboost, call_release_boost in E.
  destruct (boost_release _ _ (priority w)) as [r1 q] eqn:Er.
  lazy beta iota zeta in E.
  match type of E with context [EmitAction ?a ?b ?c ?d ?x] =>
    destruct (EmitAction_executor a b c d x) as (E1 & E2 & E3);
    set (w1 := EmitAction a b c d x) in * end.
  cbn [executor power priority] in E1, E2, E3. injection E as <- <-.
  rewrite E1, E2. split; [done|]. split; [done|].
  pose proof (Hb (priorityGameId_ (executor w))) as Hb0. rewrite decide_True in Hb0 by done.
  destruct (boost_release_spec _ _ _ _ _ Hq Hb0 Er) as (Hq' & Hg & Ho).
  unfold exec_inv, agrees. destruct (HasValue r1); cbn [on_executor executor power priority];
    rewrite ?E1, E2, E3; cbn [power priority executor].
  - split; [done|]. split; [done|]. split; [by intros []; apply Hc|]. intros g. cbn.
    rewrite decide_False by naive_solver.
    destruct (decide (g = priorityGameId_ (executor w))) as [->|Hg']; [done|].
    rewrite Ho, Hb by done. by rewrite decide_False by naive_solver.
  - split; [done|]. split; [done|]. split; [done|]. intros g.
    destruct (decide (g = priorityGameId_ (executor w))) as [->|Hg'].
    + rewrite Hg. by rewrite decide_True.
    + by rewrite Ho, Hb.
Qed.

Lemma acquire_target_spec t f (w : world) r f' w' :
  exec_inv w → priorityGameId_ (executor w) = "" → tgt_gameId t ≠ "" →
  acquire_target t f w = (r, f', w') →
  exec_inv w' ∧ same_but_priority w w' ∧
  (HasValue r = true → priorityGameId_ (executor w') = tgt_gameId t ∧
                       priorityPid_ (executor w') = tgt_pid t).
Proof.
  intros (Hp & Hq & Hc & Hb) He Hne E. unfold acquire_target, boost in E.
  destruct (boost_acquire _ _ _ _ (priority w)) as [r1 q] eqn:Er.
  pose proof (Hb (tgt_gameId t)) as Hb0.
  rewrite decide_False in Hb0 by (rewrite He; naive_solver).
  destruct (boost_acquire_spec _ _ _ _ _ _ _ Hq Hb0 Er) as (Hq' & Hg & Ho).
  match type of E with context [EmitAction ?a ?b ?c ?d ?x] =>
    destruct (EmitAction_executor a b c d x) as (E1 & E2 & E3);
    set (w1 := EmitAction a b c d x) in * end.
  cbn in E1, E2, E3. clearbody w1. unfold exec_inv, agrees, same_but_priority.
  destruct r1; injection E as <- <- <-; cbn [on_executor executor power priority HasValue] in *;
    rewrite E1, E2, E3.
  - split.
    + split; [done|]. split; [done|]. split; [by intros []; apply Hc|]. intros g. cbn.
      destruct (decide (g = tgt_gameId t)) as [->|Hg'].
      * rewrite Hg. by rewrite decide_True.
      * rewrite Ho, Hb by done. rewrite He. by rewrite !decide_False by naive_solver.
    + split; [|done]. repeat split; by intros [].
  - split; [|done]. split; [done|]. split; [done|]. split; [done|]. intros g.
    destruct (decide (g = tgt_gameId t)) as [->|Hg'].
    + rewrite Hg, He. by rewrite decide_False by naive_solver.
    + by rewrite Ho, Hb.
Qed.

(** What is wanted of the lease, against what is held. *)
Definition priority_settled (d : PolicyDecision) (t : ExecutorTarget)
    (old new : PolicyExecutor) : Prop :=
  if priority_desired d t (config_ old) then
    if tgt_pid t =? 0
    then priorityGameId_ new = priorityGameId_ old ∧ priorityPid_ new = priorityPid_ old
    else priorityGameId_ new = tgt_gameId t ∧ priorityPid_ new = tgt_pid t
  else priorityGameId_ new = "".

Lemma same_but_priority_refl (w : world) : same_but_priority w w.
Proof. by repeat split. Qed.

Lemma ReconcilePriority_spec d t f (w : world) r f' w' :
  exec_inv w →
  (priority_desired d t (config_ (executor w)) = true → tgt_gameId t ≠ "") →
  ReconcilePriority d t f w = (r, f', w') →
  exec_inv w' ∧ same_but_priority w w' ∧
  (HasValue r = true → priority_settled d t (executor w) (executor w')).
Proof.
  intros Hinv Hid E. unfold ReconcilePriority in E. unfold priority_settled.
  assert (∀ (w0 : world), executor w0 = executor w → power w0 = power w →
    same_but_priority w w0 ∧ same_but_priority w (on_executor clear_priority w0)) as Hsame.
  { intros w0 E1 E2. unfold same_but_priority. cbn. rewrite E1, E2.
    repeat split; try done; by intros []. }
  assert (string_empty (priorityGameId_ (executor w)) = false →
          priorityGameId_ (executor w) ≠ "") as Hne
    by (destruct (priorityGameId_ (executor w)); done).
  destruct (priority_desired d t _) eqn:Hd.
  - specialize (Hid eq_refl). destruct (tgt_pid t =? 0).
    { injection E as <- <- <-. split; [done|]. split; [by apply same_but_priority_refl|done]. }
    destruct (String.eqb _ _ && _) eqn:Hsm.
    { injection E as <- <- <-. b2p. split; [done|].
      split; [by apply same_but_priority_refl|done]. }
    destruct (string_empty (priorityGameId_ (executor w))) eqn:Hem; cbn [negb] in E.
    + apply string_empty_iff in Hem. by apply acquire_target_spec in E.
    + destruct (unboost _ w) as [[u|e] w1] eqn:Eu;
        destruct (unboost_spec _ w _ _ Hinv (Hne eq_refl) Eu) as (E1 & E2 & Hi);
        cbn [HasValue] in Hi; destruct (Hsame w1 E1 E2) as [S1 S2].
      * apply acquire_target_spec in E as (H1 & H2 & H3); [|done|done|done].
        split; [done|]. split; [|done].
        destruct S2 as (A1 & A2 & A3 & A4 & A5), H2 as (B1 & B2 & B3 & B4 & B5).
        repeat split; try congruence; intros t0; by rewrite B3, A3.
      * by injection E as <- <- <-.
  - destruct (string_empty (priorityGameId_ (executor w))) eqn:Hem; cbn [negb] in E.
    + injection E as <- <- <-. apply string_empty_iff in Hem.
      split; [done|]. split; [by apply same_but_priority_refl|done].
    + destruct (unboost _ w) as [[u|e] w1] eqn:Eu;
        destruct (unboost_spec _ w _ _ Hinv (Hne eq_refl) Eu) as (E1 & E2 & Hi);
        cbn [HasValue] in Hi; destruct (Hsame w1 E1 E2) as [S1 S2];
        by injection E as <- <- <-.
Qed.

(** What a step on one power request keeps. *)
Definition same_but_power (t : PowerLockType) (w w' : world) : Prop :=
  config_ (executor w') = config_ (executor w) ∧ priority w' = priority w ∧
  priorityGameId_ (executor w') = priorityGameId_ (executor w) ∧
  priorityPid_ (executor w') = priorityPid_ (executor w) ∧
  (∀ t', t' ≠ t → held_flag t' (executor w') = held_flag t' (executor w)) ∧
  consecutiveActionFailures_ (executor w') = consecutiveActionFailures_ (executor w) ∧
  halted_ (executor w') = halted_ (executor w).

Lemma held_flag_set t t' h e :
  held_flag t' (set_held t h e) = if decide (t' = t) then h else held_flag t' e.
Proof. by destruct t, t'. Qed.

Lemma set_held_keeps t h e :
  config_ (set_held t h e) = config_ e ∧
  priorityGameId_ (set_held t h e) = priorityGameId_ e ∧
  priorityPid_ (set_held t h e) = priorityPid_ e ∧
  consecutiveActionFailures_ (set_held t h e) = consecutiveActionFailures_ e ∧
  halted_ (set_held t h e) = halted_ e.
Proof. by destruct t. Qed.

(** A request was acquired ([up]) or released for one type. *)
Lemma agrees_power t (h : bool) e p p' q :
  agrees e p q → power_inv p' →
  (∀ t', power_count t' p' =
     if decide (t' = t) then (if h then 1%nat else 0%nat) else power_count t' p) →
  agrees (set_held t h e) p' q.
Proof.
  intros (Hp & Hq & Hc & Hb) Hp' Hc'. destruct (set_held_keeps t h e) as (_ & E1 & E2 & _).
  split; [done|]. split; [done|]. split.
  - intros t'. rewrite Hc', held_flag_set. by case_decide.
  - intros g. by rewrite E1, E2.
Qed.

Lemma agrees_power_fail t e p p' q :
  agrees e p q → power_inv p' →
  (∀ t', power_count t' p' = if decide (t' = t) then power_count t' p else power_count t' p) →
  agrees e p' q.
Proof.
  intros (Hp & Hq & Hc & Hb) Hp' Hc'. split; [done|]. split; [done|]. split; [|done].
  intros t'. rewrite Hc', <- Hc. by case_decide.
Qed.

Lemma ReconcilePowerLock_spec t desired detail f (w : world) r f' w' :
  exec_inv w → ReconcilePowerLock t desired detail f w = (r, f', w') →
  exec_inv w' ∧ same_but_power t w w' ∧
  (HasValue r = true → held_flag t (executor w') = desired).
Proof.
  intros Hinv E. unfold ReconcilePowerLock in E.
  assert (∀ (w0 : world) h, executor w0 = executor w → priority w0 = priority w →
    same_but_power t w w0 ∧ same_but_power t w (on_executor (set_held t h) w0)) as Hsame.
  { intros w0 h E1 E2. unfold same_but_power. cbn. rewrite E1, E2.
    destruct (set_held_keeps t h (executor w)) as (-> & -> & -> & -> & ->).
    repeat split; try done. intros t' Hne. rewrite held_flag_set. by rewrite decide_False. }
  pose proof Hinv as (Hp & Hq & Hc & Hb). pose proof (Hc t) as Hct.
  destruct (desired && negb (held_flag t (executor w))) eqn:Eup.
  { b2p. rewrite H0 in Hct. destruct (power_acquire _ _ (power w)) as [r1 p] eqn:Er.
    destruct (power_acquire_spec _ _ _ _ _ Hp Er) as [Hp' Hc'].
    match type of E with context [EmitAction ?a ?b ?c ?d ?x] =>
      destruct (EmitAction_executor a b c d x) as (E1 & E2 & E3);
      set (w1 := EmitAction a b c d x) in * end.
    cbn in E1, E2, E3. clearbody w1. destruct (Hsame w1 true E1 E3) as [S1 S2].
    unfold exec_inv. destruct r1; injection E as <- <- <-; cbn [on_executor executor power
      priority HasValue]; rewrite E1, E2, E3; unfold bump in Hc'; cbn in Hc'.
    - split; [|split; [done|]]. + eapply agrees_power; [exact Hinv|done|].
        intros t'. rewrite Hc'. case_decide; [|done]. subst. by rewrite Hct.
      + intros _. rewrite held_flag_set, decide_True by done. done.
    - split; [|by split]. by eapply agrees_power_fail; [exact Hinv|..]. }
  destruct (negb desired && held_flag t (executor w)) eqn:Edown.
  { b2p. rewrite H0 in Hct. destruct (power_release _ (power w)) as [r1 p] eqn:Er.
    destruct (power_release_spec _ _ _ _ Hp Er) as [Hp' Hc'].
    match type of E with context [EmitAction ?a ?b ?c ?d ?x] =>
      destruct (EmitAction_executor a b c d x) as (E1 & E2 & E3);
      set (w1 := EmitAction a b c d x) in * end.
    cbn in E1, E2, E3. clearbody w1. destruct (Hsame w1 false E1 E3) as [S1 S2].
    unfold exec_inv. destruct r1; injection E as <- <- <-; cbn [on_executor executor power
      priority HasValue]; rewrite E1, E2, E3; unfold bump in Hc'; cbn in Hc'.
    - split; [|split; [done|]]. + eapply agrees_power; [exact Hinv|done|].
        intros t'. rewrite Hc'. case_decide; [|done]. subst. by rewrite Hct.
      + intros _. rewrite held_flag_set, decide_True by done. done.
    - split; [|by split]. by eapply agrees_power_fail; [exact Hinv|..]. }
  injection E as <- <- <-. split; [done|]. split; [by repeat split|].
  intros _. by destruct desired, (held_flag t (executor w)).
Qed.

Lemma ReconcilePower_spec t f (w : world) r f' w' :
  exec_inv w → ReconcilePower t f w = (r, f', w') →
  exec_inv w' ∧
  config_ (executor w') = config_ (executor w) ∧ priority w' = priority w ∧
  priorityGameId_ (executor w') = priorityGameId_ (executor w) ∧
  priorityPid_ (executor w') = priorityPid_ (executor w) ∧
  consecutiveActionFailures_ (executor w') = consecutiveActionFailures_ (executor w) ∧
  halted_ (executor w') = halted_ (executor w) ∧
  (HasValue r = true →
     powerHeld_ (executor w') = powerExecutionRequired (config_ (executor w)) && tgt_running t ∧
     displayHeld_ (executor w') = powerDisplayRequired (config_ (executor w)) && tgt_running t).
Proof.
  intros Hinv E. unfold ReconcilePower in E.
  destruct (ReconcilePowerLock PowerLockType.ExecutionRequired _ _ f w) as [[r1 f1] w1] eqn:E1.
  destruct (ReconcilePowerLock_spec _ _ _ _ _ _ _ _ Hinv E1) as (Hi1 & S1 & H1).
  destruct S1 as (A1 & A2 & A3 & A4 & A5 & A6 & A7).
  destruct r1 as [u|e]; [|by injection E as <- <- <-].
  destruct (ReconcilePowerLock_spec _ _ _ _ _ _ _ _ Hi1 E) as (Hi2 & S2 & H2).
  destruct S2 as (B1 & B2 & B3 & B4 & B5 & B6 & B7).
  split; [done|]. repeat (split; [congruence|]). intros Hr. specialize (H2 Hr).
  specialize (H1 eq_refl). specialize (B5 PowerLockType.ExecutionRequired ltac:(done)).
  cbn in B5, H1, H2. split; congruence.
Qed.

Lemma on_executor_agrees (f : PolicyExecutor → PolicyExecutor) (w : world) :
  (∀ e, priorityGameId_ (f e) = priorityGameId_ e ∧ priorityPid_ (f e) = priorityPid_ e ∧
        ∀ t, held_flag t (f e) = held_flag t e) →
  exec_inv w → exec_inv (on_executor f w).
Proof.
  intros Hf (Hp & Hq & Hc & Hb). destruct (Hf (executor w)) as (E1 & E2 & E3).
  unfold exec_inv, agrees. cbn. rewrite E1, E2. setoid_rewrite E3. done.
Qed.

Lemma set_failures_keeps n h e :
  priorityGameId_ (set_failures n h e) = priorityGameId_ e ∧
  priorityPid_ (set_failures n h e) = priorityPid_ e ∧
  ∀ t, held_flag t (set_failures n h e) = held_flag t e.
Proof. repeat split; by intros []. Qed.

Lemma count_failure_keeps e :
  priorityGameId_ (count_failure e) = priorityGameId_ e ∧
  priorityPid_ (count_failure e) = priorityPid_ e ∧
  ∀ t, held_flag t (count_failure e) = held_flag t e.
Proof.
  unfold count_failure. destruct (0 <? _); [apply set_failures_keeps|done].
Qed.

(** The outcome of one round that is not halted. *)
Lemma ApplyDecision_cases d t (w : world) r w' :
  exec_inv w → halted_ (executor w) = false →
  (priority_desired d t (config_ (executor w)) = true → tgt_gameId t ≠ "") →
  ApplyDecision d t w = (r, w') →
  exec_inv w' ∧ config_ (executor w') = config_ (executor w) ∧
  match r with
  | Success _ =>
      priority_settled d t (executor w) (executor w') ∧
      powerHeld_ (executor w') =
        powerExecutionRequired (config_ (executor w)) && tgt_running t ∧
      displayHeld_ (executor w') =
        powerDisplayRequired (config_ (executor w)) && tgt_running t ∧
      consecutiveActionFailures_ (executor w') = 0%nat ∧ halted_ (executor w') = false
  | Failure _ =>
      let limit := consecutiveActionFailuresToHalt (config_ (executor w)) in
      let n := consecutiveActionFailures_ (executor w) in
      consecutiveActionFailures_ (executor w') = (if 0 <? Z.of_nat limit then S n else n) ∧
      halted_ (executor w') = (0 <? Z.of_nat limit) && (Z.of_nat limit <=? Z.of_nat (S n))
  end.
Proof.
  intros Hinv Hh Hid E. unfold ApplyDecision in E. rewrite Hh in E.
  assert (∀ w1 : world, exec_inv w1 → config_ (executor w1) = config_ (executor w) →
    consecutiveActionFailures_ (executor w1) = consecutiveActionFailures_ (executor w) →
    halted_ (executor w1) = halted_ (executor w) →
    let w' := on_executor count_failure w1 in
    let limit := consecutiveActionFailuresToHalt (config_ (executor w)) in
    let n := consecutiveActionFailures_ (executor w) in
    exec_inv w' ∧ config_ (executor w') = config_ (executor w) ∧
    consecutiveActionFailures_ (executor w') = (if 0 <? Z.of_nat limit then S n else n) ∧
    halted_ (executor w') = (0 <? Z.of_nat limit) && (Z.of_nat limit <=? Z.of_nat (S n)))
    as Hfail.
  { intros w1 Hi E1 E2 E3. cbn zeta.
    split; [apply on_executor_agrees; [apply count_failure_keeps|done]|].
    cbn. unfold count_failure. rewrite E1, E2, E3, Hh. destruct (0 <? _); cbn; auto.
    by rewrite E2, E3, Hh. }
  destruct (ReconcilePriority d t no_effect w) as [[r1 f1] w1] eqn:E1.
  destruct (ReconcilePriority_spec _ _ _ _ _ _ _ Hinv Hid E1) as (Hi1 & S1 & H1).
  destruct S1 as (A1 & A2 & A3 & A4 & A5).
  destruct r1 as [u|e]; [|injection E as <- <-; by apply Hfail].
  destruct (ReconcilePower t f1 w1) as [[r2 f2] w2] eqn:E2.
  destruct (ReconcilePower_spec _ _ _ _ _ _ Hi1 E2)
    as (Hi2 & B1 & B2 & B3 & B4 & B5 & B6 & H2).
  destruct r2 as [u2|e]; injection E as <- <-; [|apply Hfail; [done|congruence..]].
  split; [apply on_executor_agrees; [intros ?; apply set_failures_keeps|done]|].
  split; [cbn; congruence|]. specialize (H1 eq_refl). destruct (H2 eq_refl) as [H3 H4].
  unfold priority_settled in *. cbn. rewrite A1 in H3, H4. rewrite B3, B4.
  repeat split; congruence.
Qed.

(** C1. Where the target of a boost that is wanted has a game id, a round leaves
    the executor's records in agreement with what the services hold. A round of an
    executor that is not halted reaches, when it succeeds, the desired state, in the
    records and at the services: each power request is held once exactly when it
    is configured and the game runs; the boost is held, once and for the target
    process alone, exactly when it is enabled, advised and the game runs (a
    target without a pid leaves it as it was); and nothing else is held. When it
    fails, the executor is halted exactly if this is the configured number of failures
    in a row, so that otherwise a later round can make up for it. A halted executor
    answers success and changes nothing: what is held stays held, whatever is desired. *)
Theorem ApplyDecision_reconciles
    (d : PolicyDecision) (t : ExecutorTarget) (w : world)
    (r : Result ExecutorEffect) (w' : world) :
  exec_inv w →
  (priority_desired d t (config_ (executor w)) = true → tgt_gameId t ≠ "") →
  ApplyDecision d t w = (r, w') →
  let c := config_ (executor w) in
  let limit := consecutiveActionFailuresToHalt c in
  exec_inv w' ∧
  if halted_ (executor w) then HasValue r = true ∧ w' = w
  else if HasValue r then
    consecutiveActionFailures_ (executor w') = 0%nat ∧ halted_ (executor w') = false ∧
    power_count PowerLockType.ExecutionRequired (power w') =
      (if powerExecutionRequired c && tgt_running t then 1%nat else 0%nat) ∧
    power_count PowerLockType.DisplayRequired (power w') =
      (if powerDisplayRequired c && tgt_running t then 1%nat else 0%nat) ∧
    ∀ g, boosted g (priority w') =
      if priority_desired d t c then
        if tgt_pid t =? 0 then boosted g (priority w)
        else if decide (g = tgt_gameId t) then Some (tgt_pid t, 1%nat) else None
      else None
  else
    halted_ (executor w') = true ↔
      (0 < limit)%nat ∧ (limit <= S (consecutiveActionFailures_ (executor w)))%nat.
Proof.
  intros Hinv Hid E. cbn zeta. destruct (halted_ (executor w)) eqn:Hh.
  { unfold ApplyDecision in E. rewrite Hh in E. by injection E as <- <-. }
  destruct (ApplyDecision_cases _ _ _ _ _ Hinv Hh Hid E) as (Hi & _ & H).
  split; [done|]. destruct r; cbn [HasValue]; [|destruct H as [_ ->]; rewrite andb_true_iff, Z.ltb_lt, Z.leb_le; lia].
  destruct H as (Hs & Hpw & Hds & Hn & Hha).
  destruct Hi as (_ & _ & Hc & Hb). destruct Hinv as (_ & _ & _ & Hb0).
  rewrite !Hc. cbn [held_flag]. rewrite Hpw, Hds. split_and!; [done..|].
  intros g. rewrite Hb. unfold priority_settled in Hs.
  destruct (priority_desired d t _) eqn:Hd.
  - destruct (tgt_pid t =? 0); destruct Hs as [-> ->]; [by rewrite Hb0|].
    specialize (Hid eq_refl).
    destruct (decide (g = tgt_gameId t)) as [->|Hne].
    + by rewrite decide_True.
    + by rewrite decide_False by naive_solver.
  - rewrite Hs. by rewrite decide_False by naive_solver.
Qed.

(** *** Halting *)

Fixpoint run_executor (rounds : list (PolicyDecision * ExecutorTarget)) (w : world)
  : list bool * world :=
  match rounds with
  | [] => ([], w)
  | (d, t) :: rest =>
      let '(r, w1) := ApplyDecision d t w in
      let '(rs, w2) := run_executor rest w1 in (HasValue r :: rs, w2)
  end.

(** The length of the failures in a row at the end, and the longest streak. *)
Definition streak_step (s : nat * nat) (ok : bool) : nat * nat :=
  if ok then (0%nat, s.2) else (S s.1, Nat.max s.2 (S s.1)).

Definition streaks (results : list bool) : nat * nat := foldl streak_step (0, 0)%nat results.

(** The executor's counter against the streaks of the results so far. *)
Definition halting_inv (limit : nat) (s : nat * nat) (e : PolicyExecutor) : Prop :=
  consecutiveActionFailuresToHalt (config_ e) = limit ∧
  if halted_ e then (0 < limit)%nat ∧ (limit <= s.2)%nat
  else (0 < limit)%nat → consecutiveActionFailures_ e = s.1 ∧ (s.2 < limit)%nat.

Definition well_identified (c : ExecutorConfig)
    (rounds : list (PolicyDecision * ExecutorTarget)) : Prop :=
  Forall (λ p, priority_desired p.1 p.2 c = true → tgt_gameId p.2 ≠ "") rounds.

Lemma run_executor_halting limit c rounds (w : world) s :
  exec_inv w → config_ (executor w) = c → well_identified c rounds →
  halting_inv limit s (executor w) →
  let '(rs, w') := run_executor rounds w in
  exec_inv w' ∧ halting_inv limit (foldl streak_step s rs) (executor w').
Proof.
  revert w s. induction rounds as [|[d t] rest IH]; intros w s Hinv Hcfg Hid Hh; cbn; [done|].
  apply Forall_cons in Hid as [Hid0 Hid]. cbn in Hid0.
  destruct (ApplyDecision d t w) as [r w1] eqn:E.
  assert (exec_inv w1 ∧ config_ (executor w1) = c ∧
          halting_inv limit (streak_step s (HasValue r)) (executor w1)) as (Hi1 & Hc1 & Hh1).
  { destruct (halted_ (executor w)) eqn:Hha.
    - unfold ApplyDecision in E. rewrite Hha in E. injection E as <- <-. cbn [HasValue].
      split; [done|]. split; [done|]. unfold halting_inv in *. rewrite Hha in *.
      by unfold streak_step.
    - rewrite <- Hcfg in Hid0.
      destruct (ApplyDecision_cases _ _ _ _ _ Hinv Hha Hid0 E) as (Hi & Hc & H).
      split; [done|]. split; [congruence|]. unfold halting_inv in *.
      rewrite Hha in Hh. destruct Hh as [Hlim Hh]. rewrite Hc. split; [done|].
      destruct r; cbn [HasValue]; unfold streak_step; cbn [fst snd].
      + destruct H as (_ & _ & _ & -> & ->). intros Hl. split; [done|]. by apply Hh.
      + rewrite Hlim in H. destruct H as [-> ->].
        destruct (Z.ltb_spec 0 (Z.of_nat limit)) as [Hl|Hl]; cbn [andb]; [|lia].
        destruct (Hh ltac:(lia)) as [-> Hlt].
        destruct (Z.leb_spec (Z.of_nat limit) (Z.of_nat (S s.1))); lia. }
  specialize (IH w1 _ Hi1 Hc1 Hid Hh1).
  destruct (run_executor rest w1) as [rs w2]. exact IH.
Qed.

(** The executor halts exactly when the limit is set and that many rounds
    in a row have failed; it never fails more than that in a row, and once
    halted a round succeeds without touching either service, its own records or
    the audit, until [ResetHalt]. *)
Lemma run_executor_halts
    (c : ExecutorConfig) (rounds : list (PolicyDecision * ExecutorTarget)) (p : P) (q : Q) :
  let w := MkWorld (NewPolicyExecutor c) p q [] in
  exec_inv w → well_identified c rounds →
  let '(rs, w') := run_executor rounds w in
  let limit := consecutiveActionFailuresToHalt c in
  (halted_ (executor w') = true ↔ (0 < limit)%nat ∧ (limit <= (streaks rs).2)%nat) ∧
  (halted_ (executor w') = true →
     ∀ d t, ∃ f, ApplyDecision d t w' = (Success f, w') ∧ skipped f ≠ "") ∧
  halted_ (ResetHalt (executor w')) = false.
Proof.
  cbn zeta. intros Hinv Hid.
  pose proof (run_executor_halting (consecutiveActionFailuresToHalt c) c rounds
    (MkWorld (NewPolicyExecutor c) p q []) (0, 0)%nat Hinv eq_refl Hid) as H.
  destruct (run_executor _ _) as [rs w']. destruct H as [_ [Hlim H]].
  { split; [done|]. cbn. lia. }
  unfold streaks. split; [|split; [|done]].
  - destruct (halted_ (executor w')); [done|]. split; [done|]. intros [H1 H2].
    specialize (H H1). lia.
  - intros Hh d t. unfold ApplyDecision. rewrite Hh. by eexists.
Qed.

(** *** Leaving *)

Lemma unboost_on_exit_spec (w : world) :
  exec_inv w → hasObserver (config_ (executor w)) = true →
  let w1 := unboost_on_exit w in
  priorityGameId_ (executor w1) = "" ∧ config_ (executor w1) = config_ (executor w) ∧
  (∀ t, held_flag t (executor w1) = held_flag t (executor w)) ∧
  ∃ ev, observed w1 = observed w ++ ev ∧ (length ev <= 1)%nat ∧
    (forallb ev_ok ev = true → exec_inv w1).
Proof.
  intros Hinv Hobs. cbn zeta. unfold unboost_on_exit.
  destruct (string_empty _) eqn:He; cbn [negb].
  - apply string_empty_iff in He. repeat split; try done. exists []. rewrite app_nil_r. cbn. by split_and!; [|lia|].
  - destruct (unboost "release-all on exit" w) as [r w0] eqn:Eu.
    destruct (unboost_spec "release-all on exit" w r w0 Hinv) as (E1 & E2 & E3);
      [by destruct (priorityGameId_ (executor w))|done|].
    cbn. rewrite E1. repeat split; try done; try (by intros []).
    unfold unboost, call_release_boost in Eu. destruct (boost_release _ _ _) as [r1 q1].
    lazy beta iota zeta in Eu. injection Eu as <- <-. cbn in *.
    unfold EmitAction in *. cbn in *. rewrite Hobs in *. cbn in *.
    eexists. split_and!; [done|done|]. cbn. rewrite andb_true_r. intros Hok. by rewrite Hok in E3.
Qed.

Lemma release_on_exit_spec (w : world) t detail :
  priorityGameId_ (executor w) = "" → hasObserver (config_ (executor w)) = true →
  let w' := release_on_exit t detail w in
  priorityGameId_ (executor w') = "" ∧ hasObserver (config_ (executor w')) = true ∧
  held_flag t (executor w') = false ∧
  (∀ t', t' ≠ t → held_flag t' (executor w') = held_flag t' (executor w)) ∧
  ∃ ev, observed w' = observed w ++ ev ∧ (length ev <= 1)%nat ∧
    (exec_inv w → forallb ev_ok ev = true → exec_inv w').
Proof.
  intros Hg Hobs. cbn zeta. unfold release_on_exit.
  destruct (held_flag t (executor w)) eqn:Hh.
  2:{ repeat split; try done. exists []. rewrite app_nil_r. cbn. by split_and!; [|lia|]. }
  destruct (power_release t (power w)) as [r p] eqn:Er.
  unfold EmitAction. cbn. rewrite Hobs. cbn.
  destruct (set_held_keeps t false (executor w)) as (-> & -> & _).
  rewrite held_flag_set, decide_True by done. repeat split; try done.
  { intros t' Hne. by rewrite held_flag_set, decide_False. }
  eexists. split_and!; [done|done|]. cbn. rewrite andb_true_r. intros Hi Hok.
  pose proof Hi as (Hp & Hq & Hc & Hb).
  destruct (power_release_spec _ _ _ _ Hp Er) as [Hp' Hc']. unfold bump in Hc'.
  rewrite Hok in Hc'. unfold exec_inv. cbn. eapply agrees_power; [exact Hi|done|].
  intros t'. rewrite Hc'. case_decide; [|done]. subst. by rewrite Hc, Hh.
Qed.

(** *** Gates that are closed, and what is observed *)

(** Whether the configuration lets the executor touch the two services. *)
Definition power_enabled (c : ExecutorConfig) : bool :=
  powerExecutionRequired c || powerDisplayRequired c.

(** What is not enabled is not held. *)
Definition unheld (w : world) : Prop :=
  let c := config_ (executor w) in
  (priorityEnabled c = false → priorityGameId_ (executor w) = "") ∧
  (power_enabled c = false → ∀ t, held_flag t (executor w) = false).

(** A step of the executor: what is observed only grows, and if what is not
    enabled was not held, that stays so, its service is left alone, and there is
    nothing to observe. *)
Definition moved (w w' : world) : Prop :=
  let c := config_ (executor w) in
  config_ (executor w') = c ∧ observed w `prefix_of` observed w' ∧
  (unheld w → unheld w' ∧
     (priorityEnabled c = false → priority w' = priority w) ∧
     (power_enabled c = false → power w' = power w) ∧
     (priorityEnabled c = false → power_enabled c = false → observed w' = observed w)).

#[export] Instance moved_preorder : PreOrder moved.
Proof.
  split; [by intros w; split_and!|]. intros w1 w2 w3 (E1 & P1 & U1) (E2 & P2 & U2).
  unfold moved in *. rewrite E1 in *. split_and!; [done|by etrans|].
  intros (H2 & A1 & B1 & C1)%U1. destruct (U2 H2) as (H3 & A2 & B2 & C2).
  split_and!; [done|intros..]; [rewrite A2, A1|rewrite B2, B1|rewrite C2, C1]; done.
Qed.

(** A service is called: one that was enabled, or something of it was held. *)
Lemma moved_call op t d ok p q (w : world) :
  (unheld w → priorityEnabled (config_ (executor w)) = false → q = priority w) →
  (unheld w → power_enabled (config_ (executor w)) = false → p = power w) →
  (unheld w → priorityEnabled (config_ (executor w)) = false →
   power_enabled (config_ (executor w)) = false → False) →
  moved w (EmitAction op t d ok (MkWorld (executor w) p q (observed w))).
Proof.
  intros Hq Hp Hx. unfold moved, EmitAction. cbn.
  destruct (negb _); cbn; (split_and!; [done| |]); try (by apply prefix_app_r); try done;
    intros H; (split_and!; [done|by apply Hq|by apply Hp|]); intros H1 H2; by destruct (Hx H H1 H2).
Qed.

Lemma moved_on_executor f (w : world) :
  config_ (f (executor w)) = config_ (executor w) →
  (unheld w → unheld (on_executor f w)) → moved w (on_executor f w).
Proof. intros Hc Hu. unfold moved. cbn. rewrite Hc. naive_solver. Qed.

Lemma moved_unboost detail (w : world) :
  priorityGameId_ (executor w) ≠ "" → moved w (unboost detail w).2.
Proof.
  intros Hne. unfold unboost, call_release_boost. destruct (boost_release _ _ _) as [r q]. cbn.
  apply moved_call; unfold unheld; naive_solver.
Qed.

Lemma moved_clear (w : world) : moved w (on_executor clear_priority w).
Proof. apply moved_on_executor; unfold unheld; cbn; [done|]. intros [? ?]. by split. Qed.

Lemma moved_acquire t f (w : world) :
  priorityEnabled (config_ (executor w)) = true → moved w (acquire_target t f w).2.
Proof.
  intros He. unfold acquire_target, boost. destruct (boost_acquire _ _ _ _ _) as [r q]. cbn.
  set (w1 := EmitAction _ _ _ _ _).
  assert (moved w w1) as Hm by (apply moved_call; congruence).
  destruct r; cbn; [|done]. etrans; [exact Hm|]. destruct Hm as [Hc _].
  apply moved_on_executor; [done|]. unfold unheld. cbn. rewrite Hc, He. by intros [_ ?].
Qed.

Lemma moved_ReconcilePriority d t f (w : world) : moved w (ReconcilePriority d t f w).2.
Proof.
  unfold ReconcilePriority.
  assert (∀ k (w0 : world), string_empty (priorityGameId_ (executor w0)) = false →
            moved w0 (unboost k w0).2 ∧ moved w0 (on_executor clear_priority (unboost k w0).2))
    as Hun.
  { intros k w0 He. assert (moved w0 (unboost k w0).2) as Hm
      by (apply moved_unboost; by destruct (priorityGameId_ _)).
    split; [done|]. etrans; [exact Hm|apply moved_clear]. }
  destruct (priority_desired d t _) eqn:Hd.
  - unfold priority_desired in Hd. b2p. destruct (_ =? 0); [done|]. destruct (_ && _); [done|].
    destruct (string_empty _) eqn:He; cbn [negb]; [by apply moved_acquire|].
    destruct (Hun "target change pre-release" w He) as [Hm1 Hm2].
    destruct (unboost _ w) as [[[]|e] w1]; [|done]. cbn in *.
    etrans; [exact Hm2|]. apply moved_acquire. destruct Hm2 as [Hc _]. by rewrite Hc.
  - destruct (string_empty _) eqn:He; cbn [negb]; [done|].
    destruct (Hun "game exit or no longer desired" w He) as [Hm1 Hm2].
    by destruct (unboost _ w) as [[[]|e] w1].
Qed.

Lemma moved_set_held t h (w : world) :
  (h = true → power_enabled (config_ (executor w)) = true) →
  moved w (on_executor (set_held t h) w).
Proof.
  intros Hh. destruct (set_held_keeps t h (executor w)) as (Hc & Hg & _).
  apply moved_on_executor; [done|]. unfold unheld. cbn. rewrite Hc, Hg. intros [H1 H2].
  split; [done|]. intros He t'. rewrite held_flag_set. case_decide; [|by apply H2].
  destruct h; [|done]. rewrite Hh in He; done.
Qed.

Lemma moved_ReconcilePowerLock t desired detail f (w : world) :
  (desired = true → power_enabled (config_ (executor w)) = true) →
  moved w (ReconcilePowerLock t desired detail f w).2.
Proof.
  intros Hd. unfold ReconcilePowerLock.
  destruct (desired && negb _) eqn:E1.
  - b2p. specialize (Hd ltac:(done)). destruct (power_acquire _ _ _) as [r p]. cbn.
    set (w1 := EmitAction _ _ _ _ _).
    assert (moved w w1) as Hm by (apply moved_call; congruence).
    destruct r; cbn; [|done]. etrans; [exact Hm|]. apply moved_set_held.
    destruct Hm as [Hc _]. by rewrite Hc.
  - destruct (negb desired && _) eqn:E2; [|done]. b2p.
    destruct (power_release _ _) as [r p]. cbn. set (w1 := EmitAction _ _ _ _ _).
    assert (moved w w1) as Hm.
    { apply moved_call; [done|..]; intros [_ Hu].
      - intros He. by rewrite Hu in H0.
      - intros _ He. by rewrite Hu in H0. }
    destruct r; cbn; [|done]. etrans; [exact Hm|]. by apply moved_set_held.
Qed.

Lemma moved_counters f (w : world) :
  (∀ e, config_ (f e) = config_ e) →
  (∀ e, priorityGameId_ (f e) = priorityGameId_ e ∧ priorityPid_ (f e) = priorityPid_ e ∧
        ∀ t, held_flag t (f e) = held_flag t e) →
  moved w (on_executor f w).
Proof.
  intros Hc Hf. apply moved_on_executor; [apply Hc|]. unfold unheld. cbn.
  destruct (Hf (executor w)) as (-> & _ & Hh). rewrite Hc. setoid_rewrite Hh. done.
Qed.

Lemma moved_count_failure (w : world) : moved w (on_executor count_failure w).
Proof.
  apply moved_counters; [|apply count_failure_keeps]. intros e. unfold count_failure.
  by destruct (0 <? _).
Qed.

Lemma moved_ApplyDecision d t (w : world) : moved w (ApplyDecision d t w).2.
Proof.
  unfold ApplyDecision. destruct (halted_ _); [done|].
  pose proof (moved_ReconcilePriority d t no_effect w) as H1.
  destruct (ReconcilePriority d t no_effect w) as [[r1 f1] w1]. cbn in H1.
  assert (∀ w0 : world, moved w w0 → moved w (on_executor count_failure w0)) as Hcf
    by (intros w0 H; etrans; [exact H|apply moved_count_failure]).
  destruct r1 as [u|e]; cbn; [|by apply Hcf].
  unfold ReconcilePower.
  pose proof (moved_ReconcilePowerLock PowerLockType.ExecutionRequired
    (powerExecutionRequired (config_ (executor w1)) && tgt_running t) "execution power request" f1 w1) as H2.
  destruct (ReconcilePowerLock PowerLockType.ExecutionRequired _ _ f1 w1) as [[r2 f2] w2].
  cbn in H2. assert (moved w w2) as H02.
  { etrans; [exact H1|]. apply H2. intros E. b2p. unfold power_enabled. by rewrite H. }
  destruct r2 as [u2|e2]; cbn; [|by apply Hcf].
  pose proof (moved_ReconcilePowerLock PowerLockType.DisplayRequired
    (powerDisplayRequired (config_ (executor w1)) && tgt_running t) "display power request" f2 w2) as H3.
  destruct (ReconcilePowerLock PowerLockType.DisplayRequired _ _ f2 w2) as [[r3 f3] w3].
  cbn in H3. assert (moved w w3) as H03.
  { etrans; [exact H02|]. apply H3. intros E. b2p. unfold power_enabled.
    destruct H02 as [-> _], H1 as [<- _]. by rewrite H, orb_true_r. }
  destruct r3; cbn; [|by apply Hcf]. etrans; [exact H03|].
  apply moved_counters; [done|]. intros e. apply set_failures_keeps.
Qed.

Lemma moved_release_on_exit t detail (w : world) : moved w (release_on_exit t detail w).
Proof.
  unfold release_on_exit. destruct (held_flag t (executor w)) eqn:Hh; [|done].
  destruct (power_release _ _) as [r p]. etrans; [|by apply moved_set_held].
  apply moved_call; [done|..]; intros [_ Hu]; intros; by rewrite Hu in Hh.
Qed.

Lemma moved_ExecutorReleaseAll (w : world) : moved w (ExecutorReleaseAll w).
Proof.
  unfold ExecutorReleaseAll. do 2 (etrans; [|apply moved_release_on_exit]).
  unfold unboost_on_exit. destruct (string_empty _) eqn:He; cbn [negb]; [done|].
  etrans; [|apply moved_clear]. apply moved_unboost. by destruct (priorityGameId_ _).
Qed.

(** On exit everything is let go of: the executor believes nothing held,
    and if every release was reported successful to the observer, the services
    hold no request and no lease on its behalf. *)
Lemma ExecutorReleaseAll_spec (w : world) :
  exec_inv w → hasObserver (config_ (executor w)) = true →
  let w' := ExecutorReleaseAll w in
  IsPriorityHeld (executor w') = false ∧ IsPowerHeld (executor w') = false ∧
  IsDisplayHeld (executor w') = false ∧
  ∃ events, observed w' = observed w ++ events ∧ (length events <= 3)%nat ∧
    (forallb ev_ok events = true →
       (∀ t, power_count t (power w') = 0%nat) ∧ ∀ g, boosted g (priority w') = None).
Proof.
  intros Hinv Hobs. cbn zeta. unfold ExecutorReleaseAll.
  destruct (unboost_on_exit_spec w Hinv Hobs) as (Hg1 & Hc1 & Hf1 & ev1 & Ho1 & Hl1 & Hi1).
  set (w1 := unboost_on_exit w) in *. rewrite <- Hc1 in Hobs.
  destruct (release_on_exit_spec w1 PowerLockType.ExecutionRequired "release-all on exit"
              Hg1 Hobs) as (Hg2 & Hobs2 & Hf2 & Hfo2 & ev2 & Ho2 & Hl2 & Hi2).
  set (w2 := release_on_exit PowerLockType.ExecutionRequired _ w1) in *.
  destruct (release_on_exit_spec w2 PowerLockType.DisplayRequired
              "release-all on exit (display)" Hg2 Hobs2)
    as (Hg3 & Hobs3 & Hf3 & Hfo3 & ev3 & Ho3 & Hl3 & Hi3).
  set (w3 := release_on_exit PowerLockType.DisplayRequired _ w2) in *.
  specialize (Hfo3 PowerLockType.ExecutionRequired ltac:(done)). cbn in Hf2, Hf3, Hfo3.
  unfold IsPriorityHeld, IsPowerHeld, IsDisplayHeld.
  rewrite Hg3, Hf3, Hfo3, Hf2. repeat split; try done.
  exists ((ev1 ++ ev2) ++ ev3).
  split_and!; [by rewrite Ho3, Ho2, Ho1, !app_assoc|rewrite !length_app; lia|].
  rewrite !forallb_app. intros Hok. b2p.
  destruct (Hi3 (Hi2 (Hi1 ltac:(done)) ltac:(done)) ltac:(done)) as (_ & _ & Hc & Hb).
  split.
  - intros []; rewrite Hc; cbn; by rewrite ?Hf3, ?Hfo3, ?Hf2.
  - intros g. rewrite Hb, Hg3. by rewrite decide_False by naive_solver.
Qed.
End Theorems.

(** ** The executor on the locker and the booster *)

Abbreviation system := (World (PowerLocker * FakePower) (PriorityBooster * FakeProcesses)).

Definition sample_config : ExecutorConfig :=
  MkExecutorConfig true PriorityLevel.AboveNormal true false "game running" 2 true.

Definition boost_decision : PolicyDecision := EvaluatePolicy (sample_input true).
Definition game_target (r : bool) : ExecutorTarget := MkTarget "game" 10 1010 r.

(** A system whose display or execution requests fail as given. *)
Definition sample_world (fail : list PowerLockType) : system :=
  MkWorld (NewPolicyExecutor sample_config) (NewPowerLocker true, fake_backend fail)
    (new_booster, two_processes) [].

Lemma sample_world_inv fail : exec_inv (sample_world fail).
Proof.
  split; [apply locker_inv_new; reflexivity|]. split; [exact new_booster_inv|].
  split; [by intros []|]. intros g. by rewrite decide_False by naive_solver.
Qed.

Example ApplyDecision_reconciles_witness :
  let w' := (ApplyDecision boost_decision (game_target true) (sample_world [])).2 in
  power_count PowerLockType.ExecutionRequired (power w') = 1%nat ∧
  boosted "game" (priority w') = Some (10, 1%nat) ∧
  boosted "other" (priority w') = None.
Proof.
  cbn zeta.
  destruct (ApplyDecision boost_decision (game_target true) (sample_world []))
    as [r w'] eqn:E.
  destruct (ApplyDecision_reconciles boost_decision (game_target true) (sample_world [])
    r w' (sample_world_inv []) ltac:(done) E) as [_ H].
  assert (HasValue r = true) as Hr.
  { change r with (r, w').1. rewrite <- E. by vm_compute. }
  cbn [halted_ executor sample_world NewPolicyExecutor] in H. rewrite Hr in H.
  destruct H as (_ & _ & Hp & _ & Hb). cbn [snd].
  split; [exact Hp|]. split; [exact (Hb "game")|exact (Hb "other")].
Defined.

Example run_executor_halts_witness :
  let rounds := [(boost_decision, game_target true); (boost_decision, game_target true);
                 (boost_decision, game_target true)] in
  let w := sample_world [PowerLockType.ExecutionRequired] in
  halted_ (executor (run_executor rounds w).2) = true ↔
  (0 < 2)%nat ∧ (2 <= (streaks (run_executor rounds w).1).2)%nat.
Proof.
  cbn zeta.
  set (rounds := [(boost_decision, game_target true); (boost_decision, game_target true);
                  (boost_decision, game_target true)]).
  pose proof (run_executor_halts sample_config rounds
    (NewPowerLocker true, fake_backend [PowerLockType.ExecutionRequired])
    (new_booster, two_processes)
    (sample_world_inv [PowerLockType.ExecutionRequired])) as H.
  cbn zeta in H. unfold sample_world.
  assert (well_identified sample_config rounds) as Hid by (repeat constructor; done).
  specialize (H Hid). destruct (run_executor rounds _) as [rs w']. exact (proj1 H).
Defined.

Example ExecutorReleaseAll_spec_witness :
  IsPowerHeld (executor (ExecutorReleaseAll (sample_world []))) = false.
Proof.
  exact (proj1 (proj2 (ExecutorReleaseAll_spec (sample_world []) (sample_world_inv [])
    eq_refl))).
Defined.
