(* ===== verification/ServiceCalls.v ===== *)
(** Services that keep a record of the calls they get, and what the executor of
    [PolicyExecutor] reports of them: to every call belongs one event, and to
    every event one call. *)

From S2P Require Import Prelude CommonError PowerLocker PriorityBooster PolicyExecutor.

Open Scope string_scope.
Open Scope list_scope.
Open Scope Z_scope.

(** ** The calls *)

Inductive ServiceCall :=
| PowerAcquire (t : PowerLockType)
| PowerRelease (t : PowerLockType)
| BoostAcquire (g : string) (pid : Z)
| BoostRelease (g : string) (pid : Z).

(** A call and whether it succeeded. *)
Definition CallMade : Type := ServiceCall * bool.

(** A service beside the calls it has had. *)
Section Logged.
Context {S : Type}.

Definition logging {A} (c : ServiceCall) (m : M S (Result A)) : M (S * list CallMade) (Result A) :=
  λ '(s, l), let '(r, s') := m s in (r, (s', l ++ [(c, HasValue r)])).

#[export] Program Instance logged_power `{PowerService S} : PowerService (S * list CallMade) := {|
  power_acquire t reason := logging (PowerAcquire t) (power_acquire t reason);
  power_release t := logging (PowerRelease t) (power_release t);
  power_count t s := power_count t s.1;
  power_inv s := power_inv s.1
|}.
Next Obligation.
  intros ? t reason [s l] r [s' l'] Hi. unfold logging. destruct (power_acquire t reason s) as [r1 s1] eqn:E.
  intros [= <- <- _]. by apply (power_acquire_spec t reason s).
Qed.
Next Obligation.
  intros ? t [s l] r [s' l'] Hi. unfold logging. destruct (power_release t s) as [r1 s1] eqn:E.
  intros [= <- <- _]. by apply (power_release_spec t s).
Qed.

#[export] Program Instance logged_boost `{BoostService S} : BoostService (S * list CallMade) := {|
  boost_acquire g pid created level := logging (BoostAcquire g pid) (boost_acquire g pid created level);
  boost_release g pid := logging (BoostRelease g pid) (boost_release g pid);
  boosted g s := boosted g s.1;
  boost_inv s := boost_inv s.1
|}.
Next Obligation.
  intros ? g pid t lv [s l] r [s' l'] Hi Hg. unfold logging.
  destruct (boost_acquire g pid t lv s) as [r1 s1] eqn:E.
  intros [= <- <- _]. by apply (boost_acquire_spec g pid t lv s).
Qed.
Next Obligation.
  intros ? g pid [s l] r [s' l'] Hi Hg. unfold logging. destruct (boost_release g pid s) as [r1 s1] eqn:E.
  intros [= <- <- _]. by apply (boost_release_spec g pid s).
Qed.
End Logged.

(** ** What an event says of a call *)

Definition power_word (t : PowerLockType) : string :=
  match t with
  | PowerLockType.ExecutionRequired => "execution power request"
  | PowerLockType.DisplayRequired => "display power request"
  end.
Definition exit_word (t : PowerLockType) : string :=
  match t with
  | PowerLockType.ExecutionRequired => "release-all on exit"
  | PowerLockType.DisplayRequired => "release-all on exit (display)"
  end.

Definition of_process (g : string) (pid : Z) : string := g +:+ " pid " +:+ to_string pid.

Definition tells (c : CallMade) (e : ExecutorActionEvent) : Prop :=
  ev_ok e = c.2 ∧
  match c.1 with
  | PowerAcquire t => operationId e = "power.hold" ∧ ev_detail e = power_word t
  | PowerRelease t => operationId e = "power.release" ∧
      (ev_detail e = power_word t +:+ " (game exit or no longer desired)" ∨ ev_detail e = exit_word t)
  | BoostAcquire g pid => operationId e = "priority.boost" ∧ ev_target e = of_process g pid
  | BoostRelease g pid => operationId e = "priority.unboost" ∧ ev_target e = of_process g pid
  end.

(** The events about power requests; the others are about priorities. *)
Definition about_power (e : ExecutorActionEvent) : bool :=
  String.eqb (operationId e) "power.hold" || String.eqb (operationId e) "power.release".

Section Reported.
Context {P Q : Type} `{!PowerService P} `{!BoostService Q}.
Abbreviation logged_world := (World (P * list CallMade) (Q * list CallMade)).

(** Every call of the two services is told by one event and every event tells
    one, in the order of the calls at each. *)
Definition reported (w : logged_world) : Prop :=
  Forall2 tells (power w).2 (List.filter about_power (observed w)) ∧
  Forall2 tells (priority w).2 (List.filter (λ e, negb (about_power e)) (observed w)).

(** What the executor does keeps that up, where it has an observer. *)
Definition reporting (w w' : logged_world) : Prop :=
  config_ (executor w') = config_ (executor w) ∧
  (hasObserver (config_ (executor w)) = true → reported w → reported w').

#[export] Instance reporting_preorder : PreOrder reporting.
Proof.
  split; [by split|]. intros w1 w2 w3 [E1 H1] [E2 H2]. split; [congruence|].
  intros Ho Hr. apply H2; [congruence|auto].
Qed.

Lemma reporting_executor f (w : logged_world) :
  config_ (f (executor w)) = config_ (executor w) → reporting w (on_executor f w).
Proof. intros Hc. by split. Qed.

(** A call of the power service with its event. *)
Lemma reporting_power op t d (c : ServiceCall) ok p (w : logged_world) :
  about_power (MkActionEvent op t d ok) = true → tells (c, ok) (MkActionEvent op t d ok) →
  reporting w (EmitAction op t d ok
    (MkWorld (executor w) (p, (power w).2 ++ [(c, ok)]) (priority w) (observed w))).
Proof.
  intros Ha Ht. unfold reporting, EmitAction. cbn. destruct (hasObserver _) eqn:Ho; cbn; [|by split].
  split; [done|]. intros _ [Hp Hq]. unfold reported. cbn. rewrite !List.filter_app. cbn. rewrite Ha. cbn.
  rewrite app_nil_r. split; [|done]. apply Forall2_app; [done|by constructor].
Qed.

Lemma reporting_priority op t d (c : ServiceCall) ok q (w : logged_world) :
  about_power (MkActionEvent op t d ok) = false → tells (c, ok) (MkActionEvent op t d ok) →
  reporting w (EmitAction op t d ok
    (MkWorld (executor w) (power w) (q, (priority w).2 ++ [(c, ok)]) (observed w))).
Proof.
  intros Ha Ht. unfold reporting, EmitAction. cbn. destruct (hasObserver _) eqn:Ho; cbn; [|by split].
  split; [done|]. intros _ [Hp Hq]. unfold reported. cbn. rewrite !List.filter_app. cbn. rewrite Ha. cbn.
  rewrite app_nil_r. split; [done|]. apply Forall2_app; [done|by constructor].
Qed.

Lemma reporting_unboost detail (w : logged_world) : reporting w (unboost detail w).2.
Proof.
  unfold unboost, call_release_boost. destruct (priority w) as [q l] eqn:Eq. cbn. unfold logging.
  destruct (boost_release _ _ q) as [r q']. cbn.
  replace l with (priority w).2 by by rewrite Eq. by apply reporting_priority.
Qed.

Lemma reporting_boost t (w : logged_world) : reporting w (boost t w).2.
Proof.
  unfold boost. destruct (priority w) as [q l] eqn:Eq. cbn. unfold logging.
  destruct (boost_acquire _ _ _ _ q) as [r q']. cbn.
  replace l with (priority w).2 by by rewrite Eq. by apply reporting_priority.
Qed.

Lemma reporting_acquire t f (w : logged_world) : reporting w (acquire_target t f w).2.
Proof.
  unfold acquire_target. pose proof (reporting_boost t w) as Hb.
  destruct (boost t w) as [[[]|e] w1]; cbn in *; [|done]. etrans; [exact Hb|]. by apply reporting_executor.
Qed.

Lemma reporting_ReconcilePriority d t f (w : logged_world) : reporting w (ReconcilePriority d t f w).2.
Proof.
  unfold ReconcilePriority. assert (∀ detail r w1, unboost detail w = (r, w1) →
    reporting w (on_executor clear_priority w1) ∧ reporting w w1) as Hu.
  { intros detail r w1 E. pose proof (reporting_unboost detail w) as H1. rewrite E in H1. cbn in H1.
    split; [|done]. etrans; [exact H1|by apply reporting_executor]. }
  destruct (priority_desired _ _ _).
  - destruct (_ =? 0); [done|]. destruct (_ && _); [done|].
    destruct (negb _); [|apply reporting_acquire].
    destruct (unboost _ w) as [[[]|e] w1] eqn:E; apply Hu in E as [E1 E2]; [|done].
    etrans; [exact E1|apply reporting_acquire].
  - destruct (negb _); [|done]. by destruct (unboost _ w) as [[[]|e] w1] eqn:E; apply Hu in E as [E1 E2].
Qed.

Lemma reporting_set_held t h (w : logged_world) : reporting w (on_executor (set_held t h) w).
Proof. apply reporting_executor. by destruct t. Qed.

Lemma reporting_ReconcilePowerLock t desired f (w : logged_world) :
  reporting w (ReconcilePowerLock t desired (power_word t) f w).2.
Proof.
  unfold ReconcilePowerLock. destruct (power w) as [p l] eqn:Ep.
  destruct (desired && _); [|destruct (negb desired && _); [|done]]; cbn; unfold logging.
  - destruct (power_acquire _ _ p) as [r p'].
    assert (reporting w (EmitAction "power.hold" "policy (game running)" (power_word t) (HasValue r)
      (MkWorld (executor w) (p', l ++ [(PowerAcquire t, HasValue r)]) (priority w) (observed w)))) as Hr.
    { replace l with (power w).2 by by rewrite Ep. by apply reporting_power. }
    destruct r; cbn; [|done]. etrans; [exact Hr|apply reporting_set_held].
  - destruct (power_release _ p) as [r p'].
    assert (reporting w (EmitAction "power.release" "policy"
      (power_word t +:+ " (game exit or no longer desired)") (HasValue r)
      (MkWorld (executor w) (p', l ++ [(PowerRelease t, HasValue r)]) (priority w) (observed w)))) as Hr.
    { replace l with (power w).2 by by rewrite Ep. apply reporting_power; [done|].
      split; [done|]. split; [done|]. by left. }
    destruct r; cbn; [|done]. etrans; [exact Hr|apply reporting_set_held].
Qed.

Lemma reporting_ReconcilePower t f (w : logged_world) : reporting w (ReconcilePower t f w).2.
Proof.
  unfold ReconcilePower.
  pose proof (reporting_ReconcilePowerLock PowerLockType.ExecutionRequired
    (powerExecutionRequired (config_ (executor w)) && tgt_running t) f w) as H1.
  change (power_word PowerLockType.ExecutionRequired) with "execution power request" in H1.
  destruct (ReconcilePowerLock _ _ _ f w) as [[[[]|e] f1] w1]; cbn in H1; [|done].
  etrans; [exact H1|]. apply (reporting_ReconcilePowerLock PowerLockType.DisplayRequired).
Qed.

Lemma reporting_ApplyDecision d t (w : logged_world) : reporting w (ApplyDecision d t w).2.
Proof.
  unfold ApplyDecision. destruct (halted_ _); [done|].
  assert (∀ w1, reporting w1 (on_executor count_failure w1)) as Hc.
  { intros w1. apply reporting_executor. unfold count_failure. by destruct (0 <? _). }
  pose proof (reporting_ReconcilePriority d t no_effect w) as H1.
  destruct (ReconcilePriority d t no_effect w) as [[[[]|e] f1] w1]; cbn in *; [|etrans; [exact H1|apply Hc]].
  pose proof (reporting_ReconcilePower t f1 w1) as H2.
  destruct (ReconcilePower t f1 w1) as [[[[]|e] f2] w2]; cbn in *;
    (etrans; [exact H1|]; etrans; [exact H2|]); [by apply reporting_executor|apply Hc].
Qed.

Lemma reporting_release_on_exit t (w : logged_world) :
  reporting w (release_on_exit t (exit_word t) w).
Proof.
  unfold release_on_exit. destruct (held_flag t _); [|done].
  destruct (power w) as [p l] eqn:Ep. cbn. unfold logging. destruct (power_release t p) as [r p'].
  etrans; [|apply reporting_set_held]. replace l with (power w).2 by by rewrite Ep.
  apply reporting_power; [done|]. split; [done|]. split; [done|]. by right.
Qed.

Lemma reporting_ExecutorReleaseAll (w : logged_world) : reporting w (ExecutorReleaseAll w).
Proof.
  unfold ExecutorReleaseAll.
  etrans; [|apply (reporting_release_on_exit PowerLockType.DisplayRequired)].
  etrans; [|apply (reporting_release_on_exit PowerLockType.ExecutionRequired)].
  unfold unboost_on_exit. destruct (negb _); [|done].
  etrans; [apply reporting_unboost|by apply reporting_executor].
Qed.
End Reported.
