(* ===== verification/Presence.v ===== *)
(** The host's presence ledger ([service/presence.hpp],
    [source/service/presence.cpp]): the last report of each client, classified,
    forgotten after a while, and summarised with an event per change. A clock
    reading is an argument of the operation that makes it. *)

From S2P Require Import Prelude CommonError Containers Paths.

Open Scope string_scope.
Open Scope list_scope.
Open Scope Z_scope.

(** ** Data *)

Module PresenceState.
Inductive PresenceState := Unknown | Present | Away.
End PresenceState.
Abbreviation PresenceState := PresenceState.PresenceState.

#[export] Instance PresenceState_eq_dec : EqDecision PresenceState.
Proof. solve_decision. Defined.

Definition PresenceStateToString (s : PresenceState) : string :=
  match s with
  | PresenceState.Unknown => "Unknown"
  | PresenceState.Present => "Present"
  | PresenceState.Away => "Away"
  end.

Definition ClassifyPresence (idleSeconds : option Z) (awayAfterSeconds : Z) : PresenceState :=
  match idleSeconds with
  | None => PresenceState.Unknown
  | Some idle =>
      if awayAfterSeconds =? 0 then PresenceState.Present
      else if idle <? awayAfterSeconds then PresenceState.Present
      else PresenceState.Away
  end.

Definition EffectivePresenceAwaySeconds (policyAwayIdleSeconds fallback : Z) : Z :=
  if 0 <? policyAwayIdleSeconds then policyAwayIdleSeconds else fallback.

Record ClientPresence := MkClient {
  client_key : string;
  client_state : PresenceState;
  client_idle : option Z
}.

Record Entry := MkEntry {
  entry_state : PresenceState;
  entry_idle : option Z;
  lastSeen : Z
}.

(** [changes] records the calls of the [onChange_] callback. *)
Record HostPresenceTracker := MkTracker {
  awayAfterSeconds : Z;
  forgetAfter : Z;
  lastSummary : PresenceState;
  presence_entries : smap Entry;
  changes : list (PresenceState * PresenceState)
}.

Definition NewHostPresenceTracker (away forget : Z) : HostPresenceTracker :=
  MkTracker away forget PresenceState.Unknown [] [].

(** ** Operations *)

(** Seconds against the nanoseconds of the steady clock. *)
Definition ns_of_s (s : Z) : Z := s * 1000000000.

Definition set_entries (m : smap Entry) (t : HostPresenceTracker) : HostPresenceTracker :=
  MkTracker (awayAfterSeconds t) (forgetAfter t) (lastSummary t) m (changes t).

Definition PrunePresence (now : Z) (t : HostPresenceTracker) : HostPresenceTracker :=
  if forgetAfter t <=? 0 then t
  else
    let cutoff := now - ns_of_s (forgetAfter t) in
    set_entries (List.filter (λ e, negb (lastSeen e.2 <? cutoff)) (presence_entries t)) t.

(** [now1] is read for pruning, [now2] for the entry. *)
Definition RecordPresence (clientKey : string) (idle : option Z) (now1 now2 : Z)
    (t : HostPresenceTracker) : PresenceState * HostPresenceTracker :=
  if string_empty clientKey then (PresenceState.Unknown, t)
  else
    let t1 := PrunePresence now1 t in
    let state := ClassifyPresence idle (awayAfterSeconds t1) in
    (state, set_entries (smap_set clientKey (MkEntry state idle now2) (presence_entries t1)) t1).

(** One iteration: [anyKnown], [anyPresent]. *)
Definition summary_step (acc : bool * bool) (e : string * Entry) : bool * bool :=
  if bool_decide (entry_state e.2 = PresenceState.Unknown) then acc
  else (true, acc.2 || bool_decide (entry_state e.2 = PresenceState.Present)).

Definition ComputeSummary (m : smap Entry) : PresenceState :=
  let '(anyKnown, anyPresent) := foldl summary_step (false, false) m in
  if negb anyKnown then PresenceState.Unknown
  else if anyPresent : bool then PresenceState.Present else PresenceState.Away.

Definition PresenceSummary (now : Z) (t : HostPresenceTracker)
  : PresenceState * HostPresenceTracker :=
  let t1 := PrunePresence now t in
  let current := ComputeSummary (presence_entries t1) in
  if bool_decide (current = lastSummary t1) then (current, t1)
  else (current, MkTracker (awayAfterSeconds t1) (forgetAfter t1) current
                   (presence_entries t1) (changes t1 ++ [(lastSummary t1, current)])).

Definition PresenceClients (now : Z) (t : HostPresenceTracker)
  : list ClientPresence * HostPresenceTracker :=
  let t1 := PrunePresence now t in
  (map (λ e, MkClient e.1 (entry_state e.2) (entry_idle e.2)) (presence_entries t1), t1).

Definition ClientCount (now : Z) (t : HostPresenceTracker) : nat * HostPresenceTracker :=
  let t1 := PrunePresence now t in (length (presence_entries t1), t1).

Section Timeline.
Context {W : Type} `{SystemMessages} `{FileSystem W}.

(** [timestamp] is the library's local time, possibly empty. *)
Definition AppendPresenceTransitionLine (path : string) (from to : PresenceState)
    (timestamp : string) : M W (Result unit) :=
  if string_empty path then
    mret (Failure (Validation "AppendPresenceTransitionLine" "路径不能为空"))
  else
    let parent := parent_path path in
    ec <-- (if string_empty parent then mret 0 else create_directories parent) ;;
    if negb (ec =? 0) then
      mret (Failure (FromWin32 (u32 ec) "create_directories(presence timeline)"))
    else
      out <-- append_text path
                (timestamp +:+ " " +:+ PresenceStateToString from +:+ " -> " +:+
                 PresenceStateToString to +:+ String LF "") ;;
      match out with
      | OpenFailed => λ w,
          (Failure (FromWin32 (u32 (GetLastError w)) "open presence timeline for append"), w)
      | FlushFailed => λ w,
          (Failure (FromWin32 (u32 (GetLastError w)) "flush presence timeline"), w)
      | Written => mret (Success tt)
      end.
End Timeline.

(** ** Theorems *)

Lemma summary_fold m acc :
  foldl summary_step acc m =
  (acc.1 || existsb (λ e, negb (bool_decide (entry_state e.2 = PresenceState.Unknown))) m,
   acc.2 || existsb (λ e, bool_decide (entry_state e.2 = PresenceState.Present)) m).
Proof.
  revert acc. induction m as [|[k e] m IH]; intros [a p]; cbn; [by rewrite !orb_false_r|].
  rewrite IH. unfold summary_step. cbn.
  destruct (entry_state e); cbn; rewrite ?orb_true_r, ?orb_false_r; try done.
  all: destruct a, p; done.
Qed.

(** An entry that still counts at [now]. *)
Definition remembered (t : HostPresenceTracker) (now : Z) (k : string) (e : Entry) : Prop :=
  smap_find k (presence_entries t) = Some e ∧
  (0 < forgetAfter t → now - ns_of_s (forgetAfter t) <= lastSeen e).

Definition tracker_ok (t : HostPresenceTracker) : Prop := smap_sorted (presence_entries t).

Lemma filter_sorted {V} (f : string * V → bool) (m : smap V) :
  smap_sorted m → smap_sorted (List.filter f m).
Proof.
  unfold smap_sorted. induction 1 as [|p r Hr IH Hall]; cbn; [constructor|].
  destruct (f p); [|done]. constructor; [done|].
  rewrite list.Forall_forall in Hall |- *. intros q Hq. apply Hall.
  apply list_elem_of_In, filter_In in Hq as [Hq _]. by apply list_elem_of_In.
Qed.

Lemma PrunePresence_ok now t : tracker_ok t → tracker_ok (PrunePresence now t).
Proof.
  unfold PrunePresence. destruct (forgetAfter t <=? 0); [done|]. apply filter_sorted.
Qed.

Lemma PrunePresence_In now t k e :
  tracker_ok t → (k, e) ∈ presence_entries (PrunePresence now t) ↔ remembered t now k e.
Proof.
  intros Hok. unfold remembered, PrunePresence.
  assert ((k, e) ∈ presence_entries t ↔ smap_find k (presence_entries t) = Some e) as E
    by (split; [by apply smap_In_find|apply smap_find_In]).
  destruct (Z.leb_spec (forgetAfter t) 0).
  - rewrite E. split; [intros; split; [done|lia]|by intros [? _]].
  - cbn. rewrite <- E, list_elem_of_In, filter_In, <- list_elem_of_In. cbn.
    rewrite negb_true_iff, Z.ltb_ge. split; intros [? ?]; split; auto with lia.
Qed.

(** The summary at a time: present exactly if the last report of some
    client that is not forgotten by then was of a user present, away exactly if
    there are known reports and none is, unknown if none is known. It fires one
    event when it differs from the last summary, and none otherwise. *)
Lemma PresenceSummary_spec (now : Z) (t : HostPresenceTracker) :
  tracker_ok t →
  let '(s, t') := PresenceSummary now t in
  (s = PresenceState.Present ↔
     ∃ k e, remembered t now k e ∧ entry_state e = PresenceState.Present) ∧
  (s = PresenceState.Unknown ↔
     ∀ k e, remembered t now k e → entry_state e = PresenceState.Unknown) ∧
  lastSummary t' = s ∧
  changes t' = changes t ++
    (if decide (s = lastSummary t) then [] else [(lastSummary t, s)]) ∧
  tracker_ok t'.
Proof.
  intros Hok. unfold PresenceSummary.
  pose proof (PrunePresence_ok now t Hok) as Hok'.
  pose proof (λ k e, PrunePresence_In now t k e Hok) as Hin.
  assert (lastSummary (PrunePresence now t) = lastSummary t ∧
          changes (PrunePresence now t) = changes t) as [El Ec]
    by (unfold PrunePresence; by destruct (forgetAfter t <=? 0)).
  set (t1 := PrunePresence now t) in *. clearbody t1.
  assert (let s := ComputeSummary (presence_entries t1) in
    (s = PresenceState.Present ↔
       ∃ k e, remembered t now k e ∧ entry_state e = PresenceState.Present) ∧
    (s = PresenceState.Unknown ↔
       ∀ k e, remembered t now k e → entry_state e = PresenceState.Unknown)) as [H1 H2].
  { cbn zeta. setoid_rewrite <- Hin. unfold ComputeSummary. rewrite summary_fold. cbn.
    set (known := existsb _ (presence_entries t1)).
    assert (known = false ↔
      ∀ k e, (k, e) ∈ presence_entries t1 → entry_state e = PresenceState.Unknown) as Hk.
    { rewrite <- not_true_iff_false. subst known. rewrite existsb_exists. split.
      - intros Hn k e Hke. destruct (decide (entry_state e = PresenceState.Unknown)); [done|].
        destruct Hn. exists (k, e). split; [by apply list_elem_of_In|].
        cbn. by rewrite bool_decide_false.
      - intros Ha ([k e] & Hke%list_elem_of_In & Hb). cbn in Hb.
        rewrite (Ha _ _ Hke) in Hb. by rewrite bool_decide_true in Hb. }
    set (pres := existsb _ (presence_entries t1)).
    assert (pres = true ↔
      ∃ k e, (k, e) ∈ presence_entries t1 ∧ entry_state e = PresenceState.Present) as Hp.
    { subst pres. rewrite existsb_exists. split.
      - intros ([k e] & Hke%list_elem_of_In & Hb). b2p. by exists k, e.
      - intros (k & e & Hke & He). exists (k, e). split; [by apply list_elem_of_In|].
        by rewrite bool_decide_true. }
    clearbody known pres. destruct known; cbn.
    - rewrite <- Hp, <- Hk. destruct pres; repeat split; try done.
    - split; [|split; [by intros _; apply Hk|done]].
      split; [done|]. intros (k & e & Hke & He).
      pose proof (proj1 Hk eq_refl k e Hke). congruence. }
  cbn zeta in H1, H2. rewrite <- El, <- Ec.
  destruct (bool_decide _) eqn:Eb; b2p.
  - rewrite decide_True by done. cbn. by rewrite app_nil_r.
  - rewrite decide_False by done. cbn. auto 10.
Qed.

Definition sample_tracker : HostPresenceTracker :=
  (RecordPresence "1:1" (Some 3) 0 0 (NewHostPresenceTracker 15 60)).2.

Example PresenceSummary_spec_witness :
  (PresenceSummary (ns_of_s 60) sample_tracker).1 = PresenceState.Present ∧
  tracker_ok (PresenceSummary (ns_of_s 61) sample_tracker).2.
Proof.
  assert (tracker_ok sample_tracker) as Hok by (by repeat constructor).
  pose proof (PresenceSummary_spec (ns_of_s 60) sample_tracker Hok) as H.
  pose proof (PresenceSummary_spec (ns_of_s 61) sample_tracker Hok) as H'.
  destruct (PresenceSummary (ns_of_s 60) sample_tracker) as [s t].
  destruct (PresenceSummary (ns_of_s 61) sample_tracker) as [s' t'].
  split; [|exact (proj2 (proj2 (proj2 (proj2 H'))))].
  apply (proj1 H). exists "1:1", (MkEntry PresenceState.Present (Some 3) 0).
  split; [split; [reflexivity|by vm_compute]|reflexivity].
Defined.

(** *** Runs *)

Inductive PresenceOp :=
  | OpRecord (key : string) (idle : option Z) (now1 now2 : Z)
  | OpSummary (now : Z)
  | OpClients (now : Z).

Definition presence_op (op : PresenceOp) (t : HostPresenceTracker) : HostPresenceTracker :=
  match op with
  | OpRecord key idle now1 now2 => (RecordPresence key idle now1 now2 t).2
  | OpSummary now => (PresenceSummary now t).2
  | OpClients now => (PresenceClients now t).2
  end.

(** Successive events of a timeline: each starts where the last ended. *)
Fixpoint timeline (start : PresenceState) (evs : list (PresenceState * PresenceState))
    (final : PresenceState) : Prop :=
  match evs with
  | [] => final = start
  | (p, c) :: rest => p = start ∧ c ≠ p ∧ timeline c rest final
  end.

Lemma timeline_snoc start evs mid c :
  timeline start evs mid → c ≠ mid → timeline start (evs ++ [(mid, c)]) c.
Proof.
  revert start. induction evs as [|[p q] evs IH]; intros start; cbn.
  - intros ->. done.
  - intros (-> & Hne & Hr) Hc. auto.
Qed.

Lemma PrunePresence_keeps now t :
  lastSummary (PrunePresence now t) = lastSummary t ∧ changes (PrunePresence now t) = changes t.
Proof. unfold PrunePresence. by destruct (forgetAfter t <=? 0). Qed.

(** However reports, queries and the passing of time interleave, the
    change events form one timeline: it starts from unknown, every event leaves
    the state the one before it reached for another one, and it ends in the last
    summary given. The ledger keeps one entry per client. *)
Lemma presence_timeline (away forget : Z) (ops : list PresenceOp) :
  let t := foldl (λ t op, presence_op op t) (NewHostPresenceTracker away forget) ops in
  timeline PresenceState.Unknown (changes t) (lastSummary t) ∧ tracker_ok t.
Proof.
  cbn zeta.
  assert (∀ t, timeline PresenceState.Unknown (changes t) (lastSummary t) ∧ tracker_ok t →
    let t' := foldl (λ t op, presence_op op t) t ops in
    timeline PresenceState.Unknown (changes t') (lastSummary t') ∧ tracker_ok t') as H.
  { induction ops as [|op ops IH]; intros t [Ht Hok]; cbn; [done|]. apply IH.
    destruct op as [key idle n1 n2|n|n]; cbn.
    - unfold RecordPresence. destruct (string_empty key); [done|]. cbn.
      destruct (PrunePresence_keeps n1 t) as [-> ->]. split; [done|].
      by apply smap_set_sorted, PrunePresence_ok.
    - destruct (PrunePresence_keeps n t) as [E1 E2]. unfold PresenceSummary.
      destruct (bool_decide _) eqn:Eb; b2p; cbn.
      + rewrite E1, E2. split; [done|]. by apply PrunePresence_ok.
      + rewrite E1, E2 in *. split; [by apply timeline_snoc|]. by apply PrunePresence_ok.
    - destruct (PrunePresence_keeps n t) as [-> ->]. split; [done|].
      by apply PrunePresence_ok. }
  apply H. split; [done|constructor].
Qed.
