(* ===== verification/ServiceHost.v ===== *)
(** The service host and the Safe Mode guard ([service/service_host.hpp],
    [source/service/service_host.cpp]): run modes, the state machine reported to
    the service control manager, the service main function and its concurrent
    control handler, and the guard that pauses accepting clients. The control
    manager is the classes [ScmBackend] and [ScmInstallBackend], the virtual
    interfaces of the source. *)

From Stdlib Require Import Sorted.
From S2P Require Import Prelude CommonError Containers PowerLocker.

Open Scope string_scope.
Open Scope list_scope.
Open Scope Z_scope.

(** ** Modes and states *)

Module RunMode.
Inductive RunMode := Console | Service | Install | Uninstall | Status.
End RunMode.
Abbreviation RunMode := RunMode.RunMode.

Definition RunModeToString (m : RunMode) : string :=
  match m with
  | RunMode.Console => "console"
  | RunMode.Service => "service"
  | RunMode.Install => "install"
  | RunMode.Uninstall => "uninstall"
  | RunMode.Status => "status"
  end.

Definition ParseRunMode (text : string) : option RunMode :=
  let eq a b := String.eqb (map_chars ascii_lower a) (map_chars ascii_lower b) in
  if eq text "console" then Some RunMode.Console
  else if eq text "service" then Some RunMode.Service
  else if eq text "install" then Some RunMode.Install
  else if eq text "uninstall" then Some RunMode.Uninstall
  else if eq text "status" then Some RunMode.Status
  else None.

Module ServiceState.
Inductive ServiceState := Unknown | StartPending | Running | StopPending | Stopped.
End ServiceState.
Abbreviation ServiceState := ServiceState.ServiceState.

#[export] Instance ServiceState_eq_dec : EqDecision ServiceState.
Proof. solve_decision. Defined.

Definition StateToString (s : ServiceState) : string :=
  match s with
  | ServiceState.Unknown => "unknown"
  | ServiceState.StartPending => "start_pending"
  | ServiceState.Running => "running"
  | ServiceState.StopPending => "stop_pending"
  | ServiceState.Stopped => "stopped"
  end.

Definition StartTypeToString (autoStart startTypeKnown : bool) : string :=
  if negb startTypeKnown then "unknown" else if autoStart then "auto" else "demand".

(** SERVICE_ACCEPT_STOP | SERVICE_ACCEPT_SHUTDOWN *)
Definition kServiceControlsAccepted : Z := Z.lor 1 4.

Record ServiceStatusReport := MkReport {
  rpt_state : ServiceState;
  controlsAccepted : Z;
  win32ExitCode : Z;
  checkPoint : Z;
  waitHintMs : Z
}.

Definition MakeStatusReport (s : ServiceState) (exit cp hint : Z) : ServiceStatusReport :=
  MkReport s
    (if bool_decide (s = ServiceState.Running) then kServiceControlsAccepted else 0)
    exit cp hint.

Definition ValidateStateTransition (from to : ServiceState) : Result unit :=
  let to_ s := bool_decide (to = s) in
  let legal :=
    match from with
    | ServiceState.Unknown => to_ ServiceState.StartPending
    | ServiceState.StartPending =>
        to_ ServiceState.Running || to_ ServiceState.StopPending || to_ ServiceState.Stopped
    | ServiceState.Running => to_ ServiceState.StopPending || to_ ServiceState.Stopped
    | ServiceState.StopPending => to_ ServiceState.Stopped
    | ServiceState.Stopped => false
    end in
  if legal then Success tt
  else Failure (Validation "ValidateStateTransition"
                  ("非法服务状态转移: " +:+ StateToString from +:+ " -> " +:+
                   StateToString to)).

(** ** Installation *)

Record ServiceIdentity := MkIdentity {
  svc_name : string;
  displayName : string;
  description : string;
  executablePath : string
}.

Record ServiceInstallStatus := MkInstallStatus {
  installed : bool;
  inst_state : ServiceState;
  autoStart : bool;
  startTypeKnown : bool
}.

Class ScmInstallBackend (C : Type) := {
  scm_create : ServiceIdentity → M C (Result unit);
  scm_delete : string → M C (Result unit);
  scm_query : string → M C (Result ServiceInstallStatus)
}.

Section Install.
Context {C : Type} `{ScmInstallBackend C}.

Definition InstallService (identity : ServiceIdentity) : M C (Result unit) :=
  if string_empty (svc_name identity) || string_empty (displayName identity) then
    mret (Failure (Validation "InstallService" "服务名与显示名不能为空"))
  else scm_create identity.

Definition UninstallService (name : string) : M C (Result unit) :=
  if string_empty name then
    mret (Failure (Validation "UninstallService" "服务名不能为空"))
  else scm_delete name.

Definition QueryService (name : string) : M C (Result ServiceInstallStatus) :=
  if string_empty name then
    mret (Failure (Validation "QueryService" "服务名不能为空"))
  else scm_query name.
End Install.

(** ** The host *)

Class ScmBackend (C : Type) := {
  RegisterControlHandler : string → M C (Result unit);
  ReportStatus : ServiceStatusReport → M C (Result unit)
}.

(** The reports the control manager was sent, failed ones included, from when the
    control handler is registered; a report is of a state the manager knows. *)
Class ScmLaws (C : Type) `{ScmBackend C} := {
  sent_reports : C → list ServiceStatusReport;
  scm_ready : C → Prop;
  register_sends : ∀ n s, sent_reports (RegisterControlHandler n s).2 = sent_reports s;
  register_ready : ∀ n s u s', RegisterControlHandler n s = (Success u, s') → scm_ready s';
  report_sends : ∀ r s, scm_ready s → rpt_state r ≠ ServiceState.Unknown →
    scm_ready (ReportStatus r s).2 ∧ sent_reports (ReportStatus r s).2 = sent_reports s ++ [r]
}.

Definition kWaitHintMs : Z := 3000.

(** What one turn of the loop observes: whether a stop was requested, whether
    the deadline has passed, and what the workload returns. *)
Record Tick := MkTick { stopSeen : bool; deadlinePassed : bool; work : Result unit }.

(** [None]: still running after these turns. *)
Fixpoint RunLoop (ticks : list Tick) : option (Result unit) :=
  match ticks with
  | [] => None
  | t :: rest =>
      if stopSeen t then Some (Success tt)
      else if deadlinePassed t then Some (Success tt)
      else match work t with
           | Failure e => Some (Failure e)
           | Success _ => RunLoop rest
           end
  end.

Section Host.
Context {C : Type} `{ScmBackend C}.

(** [currentState_] beside the backend's state. *)
Definition Transit (next : ServiceState) (exit cp hint : Z)
  : M (ServiceState * C) (Result unit) := λ '(cur, s),
  match ValidateStateTransition cur next with
  | Failure e => (Failure e, (cur, s))
  | Success _ =>
      let '(r, s') := ReportStatus (MakeStatusReport next exit cp hint) s in
      (r, (next, s'))
  end.

Definition ReReportCurrentStatus : M (ServiceState * C) (Result unit) := λ '(cur, s),
  if bool_decide (cur = ServiceState.Unknown) || bool_decide (cur = ServiceState.Stopped)
  then (Success tt, (cur, s))
  else let '(r, s') := ReportStatus (MakeStatusReport cur 0 0 0) s in (r, (cur, s')).

(** After the loop has ended with [loop]. *)
Definition leave_service (loop : Result unit) : M (ServiceState * C) (Result unit) :=
  let exitCode := if HasValue loop then 0 else 1 in
  r <-- Transit ServiceState.StopPending 0 2 kWaitHintMs ;;
  if negb (HasValue r) then mret r
  else
    r' <-- Transit ServiceState.Stopped exitCode 0 0 ;;
    if negb (HasValue r') then mret r' else mret loop.

(** [None]: the loop is still running. *)
Definition RunServiceMain (name : string) (ticks : list Tick)
  : M (ServiceState * C) (option (Result unit)) := λ '(cur, s),
  let '(registered, s0) := RegisterControlHandler name s in
  if negb (HasValue registered) then (Some registered, (cur, s0))
  else
    (r1 <-- Transit ServiceState.StartPending 0 1 kWaitHintMs ;;
     if negb (HasValue r1) then mret (Some r1)
     else
       r2 <-- Transit ServiceState.Running 0 0 0 ;;
       if negb (HasValue r2) then mret (Some r2)
       else match RunLoop ticks with
            | None => mret None
            | Some loop => r <-- leave_service loop ;; mret (Some r)
            end) (cur, s0).
End Host.

(** The four reports of a full run. *)
Definition service_reports (loop : Result unit) : list ServiceStatusReport :=
  [MakeStatusReport ServiceState.StartPending 0 1 kWaitHintMs;
   MakeStatusReport ServiceState.Running 0 0 0;
   MakeStatusReport ServiceState.StopPending 0 2 kWaitHintMs;
   MakeStatusReport ServiceState.Stopped (if HasValue loop then 0 else 1) 0 0].

Section HostTheorems.
Context {C : Type} `{!ScmBackend C} `{!ScmLaws C}.

(** The transitions of the service main function are legal. *)
#[local] Ltac host_step :=
  cbn -[MakeStatusReport service_reports ValidateStateTransition];
  repeat match goal with
  | |- context [ValidateStateTransition ?a ?b] =>
      change (ValidateStateTransition a b) with (Success tt)
  end;
  cbn -[MakeStatusReport service_reports ValidateStateTransition].

(** What the service main function tells the control manager by itself: a
    prefix of start pending, running, stop pending, stopped, in this order; all
    four when it returns without error, and then the exit code is 0; an error of
    the workload is passed on, with exit code 1. It ends as soon as a report
    fails, and for want of a stop or an error it keeps running. *)
Lemma RunServiceMain_reports (name : string) (ticks : list Tick) (s : C) :
  let '(out, (cur, s')) := RunServiceMain name ticks (ServiceState.Unknown, s) in
  let loop := default (Success tt) (RunLoop ticks) in
  (∃ sent, sent_reports s' = sent_reports s ++ sent ∧
           sent `prefix_of` service_reports loop ∧
           (out = None → sent = take 2 (service_reports loop)) ∧
           (out = Some (Success tt) → sent = service_reports loop ∧ cur = ServiceState.Stopped)) ∧
  (out = None → RunLoop ticks = None) ∧
  (out = Some (Success tt) → RunLoop ticks = Some (Success tt)).
Proof.
  unfold RunServiceMain, leave_service, mthen, mret, Transit.
  pose proof (register_sends name s) as H0.
  pose proof (register_ready name s) as R0.
  destruct (RegisterControlHandler name s) as [r0 s0]. cbn in H0.
  destruct r0 as [[]|e0]; host_step.
  2:{ split; [|done]. exists []. rewrite app_nil_r. split; [done|].
      split; [apply prefix_nil|done]. }
  destruct (report_sends (MakeStatusReport ServiceState.StartPending 0 1 kWaitHintMs) s0 (R0 _ _ eq_refl))
    as [R1 H1]; [done|]. destruct (ReportStatus _ s0) as [[[]|e1] s1]; cbn [snd] in R1, H1; host_step.
  2:{ split; [|done]. exists (take 1 (service_reports (Success tt))).
      rewrite H1, H0. split; [done|]. split; [by eexists|done]. }
  destruct (report_sends (MakeStatusReport ServiceState.Running 0 0 0) s1 R1)
    as [R2 H2]; [done|]. destruct (ReportStatus _ s1) as [[[]|e2] s2]; cbn [snd] in R2, H2; host_step.
  2:{ split; [|done]. exists (take 2 (service_reports (Success tt))).
      rewrite H2, H1, H0, <- app_assoc. split; [done|]. split; [by eexists|done]. }
  destruct (RunLoop ticks) as [loop|] eqn:Hl; host_step.
  2:{ split; [|done]. exists (take 2 (service_reports (Success tt))).
      rewrite H2, H1, H0, <- app_assoc. split; [done|]. split; [by eexists|done]. }
  destruct (report_sends (MakeStatusReport ServiceState.StopPending 0 2 kWaitHintMs) s2 R2)
    as [R3 H3]; [done|]. destruct (ReportStatus _ s2) as [[[]|e3] s3]; cbn [snd] in R3, H3; host_step.
  2:{ split; [|done]. exists (take 3 (service_reports loop)).
      rewrite H3, H2, H1, H0, <- !app_assoc. split; [done|]. split; [by eexists|done]. }
  destruct (report_sends
    (MakeStatusReport ServiceState.Stopped (if HasValue loop then 0 else 1) 0 0) s3 R3) as [_ H4]; [done|].
  destruct (ReportStatus _ s3) as [[[]|e4] s4]; cbn [snd] in H4; host_step;
    (split; [|split; [done|congruence]]); exists (service_reports loop);
    rewrite H4, H3, H2, H1, H0, <- !app_assoc;
    (split; [done|]); (split; [by exists []; rewrite app_nil_r|done]).
Qed.
End HostTheorems.

(** ** The host with its control handler *)

(** The service main thread stores a state and then reports it; the control
    handler, on its own thread, sets the stop flag, or loads the state and then
    reports it again. Each load, store and report is one step. Reports succeed
    here: one that fails ends the main thread, as in [RunServiceMain]. *)
Module Concurrent.

Inductive MainAction :=
  | Store (next : ServiceState)
  | Report (report : ServiceStatusReport)
  | Loop. (* left once a stop is requested or the workload fails *)

Definition transit_actions (next : ServiceState) (exit cp hint : Z) : list MainAction :=
  [Store next; Report (MakeStatusReport next exit cp hint)].

Definition main_actions (exit : Z) : list MainAction :=
  transit_actions ServiceState.StartPending 0 1 kWaitHintMs ++
  transit_actions ServiceState.Running 0 0 0 ++ [Loop] ++
  transit_actions ServiceState.StopPending 0 2 kWaitHintMs ++
  transit_actions ServiceState.Stopped exit 0 0.

Record Host := MkHost {
  current : ServiceState;
  stopRequested : bool;
  todo : list MainAction;
  handler : option ServiceState; (* the state an answer under way has loaded *)
  sent : list ServiceStatusReport
}.

Definition initial (exit : Z) : Host :=
  MkHost ServiceState.Unknown false (main_actions exit) None [].

Inductive step (exit : Z) : Host → Host → Prop :=
  | step_store cur next stop rest h out :
      ValidateStateTransition cur next = Success tt →
      step exit (MkHost cur stop (Store next :: rest) h out) (MkHost next stop rest h out)
  | step_report cur stop r rest h out :
      step exit (MkHost cur stop (Report r :: rest) h out) (MkHost cur stop rest h (out ++ [r]))
  | step_loop_stop cur rest h out :
      step exit (MkHost cur true (Loop :: rest) h out) (MkHost cur true rest h out)
  | step_loop_failed cur stop rest h out :
      exit = 1 →
      step exit (MkHost cur stop (Loop :: rest) h out) (MkHost cur stop rest h out)
  | step_control_stop cur stop t out :
      step exit (MkHost cur stop t None out) (MkHost cur true t None out)
  | step_interrogate cur stop t out :
      cur ≠ ServiceState.Unknown → cur ≠ ServiceState.Stopped →
      step exit (MkHost cur stop t None out) (MkHost cur stop t (Some cur) out)
  | step_answer cur stop t s out :
      step exit (MkHost cur stop t (Some s) out)
        (MkHost cur stop t None (out ++ [MakeStatusReport s 0 0 0])).

Definition reachable (exit : Z) : Host → Prop := rtc (step exit) (initial exit).

Definition rank (s : ServiceState) : Z :=
  match s with
  | ServiceState.Unknown => 0
  | ServiceState.StartPending => 1
  | ServiceState.Running => 2
  | ServiceState.StopPending => 3
  | ServiceState.Stopped => 4
  end.

(** The reports still to come from the main thread. *)
Definition pending_reports (t : list MainAction) : list ServiceStatusReport :=
  omap (λ a, match a with Report r => Some r | _ => None end) t.

(** The main thread's own reports among those sent. *)
Inductive interleaves : list ServiceStatusReport → list ServiceStatusReport → Prop :=
  | il_nil : interleaves [] []
  | il_main r l o : interleaves l o → interleaves (l ++ [r]) (o ++ [r])
  | il_answer s l o : s ≠ ServiceState.Unknown → s ≠ ServiceState.Stopped →
      interleaves l o → interleaves l (o ++ [MakeStatusReport s 0 0 0]).

Definition inv (exit : Z) (h : Host) : Prop :=
  (∃ past, main_actions exit = past ++ todo h ∧
     interleaves (pending_reports past) (sent h) ∧
     current h = List.last (omap (λ a, match a with Store s => Some s | _ => None end) past)
                   ServiceState.Unknown) ∧
  (∀ r, r ∈ sent h → rank (rpt_state r) <= rank (current h)) ∧
  (∀ s, handler h = Some s →
     s ≠ ServiceState.Unknown ∧ s ≠ ServiceState.Stopped ∧ rank s <= rank (current h)) ∧
  (∀ r, r ∈ sent h → controlsAccepted r <> 0 → rpt_state r = ServiceState.Running).

Lemma inv_initial exit : inv exit (initial exit).
Proof.
  split; [|split; [set_solver|split; [done|set_solver]]].
  exists []. split; [done|]. split; [constructor|done].
Qed.

Lemma MakeStatusReport_accepts s e c h :
  controlsAccepted (MakeStatusReport s e c h) <> 0 → s = ServiceState.Running.
Proof. cbn. by case_bool_decide. Qed.

Lemma legal_rank a b : ValidateStateTransition a b = Success tt → rank a < rank b.
Proof. by destruct a, b. Qed.

(** Every report of the main thread is of the state stored just before. *)
Lemma main_report_current exit past r rest :
  main_actions exit = past ++ Report r :: rest →
  (∃ s e c h, r = MakeStatusReport s e c h ∧
   s = List.last (omap (λ a, match a with Store s => Some s | _ => None end) past)
         ServiceState.Unknown).
Proof.
  unfold main_actions, transit_actions. cbn [app].
  intros E. do 9 (destruct past as [|? past]; cbn [app] in E; [
    first [discriminate E | injection E as <- _; do 4 eexists; split; [reflexivity|reflexivity]]
    | injection E as <- E]).
  by destruct past.
Qed.

Lemma inv_step exit h h' : inv exit h → step exit h h' → inv exit h'.
Proof.
  intros ((past & Hm & Hil & Hcur) & Hr & Hh & Hc) Hs.
  destruct Hs as [cur next stop rest hd out Hv|cur stop r rest hd out|cur rest hd out
    |cur stop rest hd out He|cur stop t out|cur stop t out H1 H2|cur stop t s out];
    cbn in *.
  - apply legal_rank in Hv. split; [|split; [|split; [|done]]]; cbn.
    + exists (past ++ [Store next]). rewrite Hm, <- app_assoc. split; [done|].
      unfold pending_reports in *. rewrite !omap_app. cbn. rewrite app_nil_r. split; [done|].
      by rewrite last_last.
    + intros r Hin. specialize (Hr r Hin). lia.
    + intros s E. destruct (Hh s E) as (? & ? & ?). repeat split; try done. lia.
  - destruct (main_report_current exit past r rest Hm) as (s & e & c & w & -> & Es).
    rewrite <- Hcur in Es. subst s. split; [|split; [|split; [done|]]]; cbn.
    + exists (past ++ [Report (MakeStatusReport cur e c w)]).
      rewrite Hm, <- app_assoc. split; [done|].
      unfold pending_reports in *. rewrite !omap_app. cbn. rewrite app_nil_r.
      split; [by constructor|done].
    + intros r [Hin| ->%list_elem_of_singleton]%elem_of_app; [by apply Hr|cbn; lia].
    + intros r [Hin| ->%list_elem_of_singleton]%elem_of_app; [by apply Hc|].
      apply MakeStatusReport_accepts.
  - split; [|split; [done|split; done]]; cbn. exists (past ++ [Loop]).
    rewrite Hm, <- app_assoc. split; [done|]. unfold pending_reports in *.
    rewrite !omap_app. cbn. by rewrite !app_nil_r.
  - split; [|split; [done|split; done]]; cbn. exists (past ++ [Loop]).
    rewrite Hm, <- app_assoc. split; [done|]. unfold pending_reports in *.
    rewrite !omap_app. cbn. by rewrite !app_nil_r.
  - split; [by exists past|]. repeat split; done.
  - split; [by exists past|]. split; [done|]. split; [|done]. cbn. intros s [= <-].
    repeat split; try done.
  - destruct (Hh s eq_refl) as (H1 & H2 & H3).
    split; [exists past; split; [done|split; [by constructor|done]]|].
    split; [|split; [done|]]; cbn.
    + intros r [Hin| ->%list_elem_of_singleton]%elem_of_app; [by apply Hr|cbn; lia].
    + intros r [Hin| ->%list_elem_of_singleton]%elem_of_app; [by apply Hc|].
      apply MakeStatusReport_accepts.
Qed.

Lemma reachable_inv exit h : reachable exit h → inv exit h.
Proof.
  intros Hr. pose proof (inv_initial exit) as Hi. revert Hi. unfold reachable in Hr.
  induction Hr as [|x y z Hxy _ IH]; [done|]. intros Hx. apply IH. by eapply inv_step.
Qed.

(** C38. However control requests interleave with the service main thread, the
    main thread's own reports are sent in the order of the state machine, each
    report answering a request repeats a state already entered and not yet
    final, no report runs ahead of the state, and controls are accepted only by
    reports of the running state. *)
Theorem reachable_reports (exit : Z) (h : Host) :
  reachable exit h →
  (∃ main, interleaves main (sent h) ∧
     main `prefix_of` pending_reports (main_actions exit)) ∧
  (∀ r, r ∈ sent h → rank (rpt_state r) <= rank (current h)) ∧
  (∀ r, r ∈ sent h → controlsAccepted r <> 0 → rpt_state r = ServiceState.Running).
Proof.
  intros ((past & Hm & Hil & _) & Hr & _ & Hc)%reachable_inv.
  split; [|done]. exists (pending_reports past). split; [done|].
  rewrite Hm. unfold pending_reports. rewrite omap_app. by eexists.
Qed.

(** The load and the report of an answer are not one step: an
    interrogation answered while the service stops can be the last report the
    control manager receives, saying that a stopped service is stopping. *)
Lemma answer_after_stopped :
  ∃ h, reachable 0 h ∧ todo h = [] ∧ current h = ServiceState.Stopped ∧
       List.last (sent h) (MakeStatusReport ServiceState.Unknown 0 0 0) =
       MakeStatusReport ServiceState.StopPending 0 0 0.
Proof.
  eexists. split; [|split; [|split]].
  - unfold reachable, initial, main_actions, transit_actions. cbn [app].
    eapply rtc_l; [by apply step_store|]. eapply rtc_l; [apply step_report|].
    eapply rtc_l; [by apply step_store|]. eapply rtc_l; [apply step_report|].
    eapply rtc_l; [apply step_control_stop|]. eapply rtc_l; [apply step_loop_stop|].
    eapply rtc_l; [by apply step_store|]. eapply rtc_l; [apply step_report|].
    eapply rtc_l; [by apply step_interrogate|].
    eapply rtc_l; [by apply step_store|]. eapply rtc_l; [apply step_report|].
    eapply rtc_l; [apply step_answer|]. apply rtc_refl.
  - reflexivity.
  - reflexivity.
  - reflexivity.
Qed.

(** The service while it starts, interrogated and answered. *)
Definition starting : Host :=
  MkHost ServiceState.StartPending false (drop 2 (main_actions 0)) None
    [MakeStatusReport ServiceState.StartPending 0 1 kWaitHintMs;
     MakeStatusReport ServiceState.StartPending 0 0 0].

Lemma starting_reachable : reachable 0 starting.
Proof.
  unfold reachable, initial, starting, main_actions, transit_actions. cbn [app drop].
  eapply rtc_l; [by apply step_store|]. eapply rtc_l; [apply step_report|].
  eapply rtc_l; [by apply step_interrogate|]. eapply rtc_l; [apply step_answer|].
  apply rtc_refl.
Qed.

Example reachable_reports_witness :
  reachable 0 starting ∧
  (∀ r, r ∈ sent starting → rank (rpt_state r) <= rank (current starting)).
Proof.
  split; [exact starting_reachable|].
  exact (proj1 (proj2 (reachable_reports 0 starting starting_reachable))).
Defined.

End Concurrent.

(** ** Safe Mode *)

Module SafeMode.

Inductive SafeModeState := Normal | InSafeMode.

(** Options and state; times are nanoseconds, options milliseconds. Each clock
    reading of an operation is an argument, in the order they are made. *)
Record SafeModeGuard := MkGuard {
  failuresToEnter : nat;
  countingWindow : Z;
  guard_cooldown : Z;
  enabled : bool;
  safeMode : bool;
  anomalyLatched : bool;
  cooldownUntil : Z;
  failureTimes : list Z
}.

Definition NewSafeModeGuard (n : nat) (window cool : Z) (en : bool) : SafeModeGuard :=
  MkGuard n window cool en false false 0 [].

Definition set_guard (safe latched : bool) (until : Z) (times : list Z) (g : SafeModeGuard)
  : SafeModeGuard :=
  MkGuard (failuresToEnter g) (countingWindow g) (guard_cooldown g) (enabled g)
    safe latched until times.

Definition ns (ms : Z) : Z := ms * 1000000.

Fixpoint drop_expired (cutoff : Z) (times : list Z) : list Z :=
  match times with
  | [] => []
  | t :: rest => if t <=? cutoff then drop_expired cutoff rest else times
  end.

Definition PruneExpired (now : Z) (g : SafeModeGuard) : SafeModeGuard :=
  set_guard (safeMode g) (anomalyLatched g) (cooldownUntil g)
    (drop_expired (now - ns (countingWindow g)) (failureTimes g)) g.

Definition Refresh (now : Z) (g : SafeModeGuard) : SafeModeGuard :=
  if anomalyLatched g then g
  else if safeMode g then
    if cooldownUntil g <=? now
    then set_guard false (anomalyLatched g) (cooldownUntil g) [] g
    else g
  else PruneExpired now g.

Definition State (now : Z) (g : SafeModeGuard) : SafeModeState * SafeModeGuard :=
  let g := Refresh now g in
  (if anomalyLatched g then InSafeMode else if safeMode g then InSafeMode else Normal, g).

Definition ShouldAcceptClients (now : Z) (g : SafeModeGuard) : bool * SafeModeGuard :=
  let g := Refresh now g in
  (negb (enabled g) || (negb (safeMode g) && negb (anomalyLatched g)), g).

(** Milliseconds, truncated toward zero. *)
Definition CooldownRemaining (now1 now2 : Z) (g : SafeModeGuard) : Z * SafeModeGuard :=
  let g := Refresh now1 g in
  if anomalyLatched g || negb (safeMode g) then (0, g)
  else
    let remaining := Z.quot (cooldownUntil g - now2) 1000000 in
    ((if 0 <? remaining then remaining else 0), g).

Definition OnClientRejected (now1 now2 now3 now4 : Z) (g : SafeModeGuard) : SafeModeGuard :=
  if negb (enabled g) then g
  else
    let g := Refresh now1 g in
    if safeMode g || anomalyLatched g then g
    else
      let g := set_guard (safeMode g) (anomalyLatched g) (cooldownUntil g)
                 (failureTimes g ++ [now2]) g in
      let g := PruneExpired now3 g in
      if (failuresToEnter g <=? length (failureTimes g))%nat
      then set_guard true (anomalyLatched g) (now4 + ns (guard_cooldown g)) (failureTimes g) g
      else g.

Definition OnAnomalyDetected (g : SafeModeGuard) : SafeModeGuard :=
  if negb (enabled g) then g
  else set_guard (safeMode g) true (cooldownUntil g) (failureTimes g) g.

Definition ClearAnomaly (g : SafeModeGuard) : SafeModeGuard :=
  set_guard (safeMode g) false (cooldownUntil g) (failureTimes g) g.

Definition IsAnomalyLatched (g : SafeModeGuard) : bool := anomalyLatched g.

(** *** Theorems *)

(** Failures are kept in the order of a clock that does not run back. *)
Definition times_ok (now : Z) (g : SafeModeGuard) : Prop :=
  Sorted Z.le (failureTimes g) ∧ Forall (λ t, t <= now) (failureTimes g).

Lemma drop_expired_filter cutoff l :
  Sorted Z.le l → drop_expired cutoff l = List.filter (λ t, cutoff <? t) l.
Proof.
  intros H. apply Sorted_StronglySorted in H; [|intros ???; lia].
  induction H as [|t l Hl IH Hall]; cbn; [done|].
  destruct (Z.leb_spec t cutoff), (Z.ltb_spec cutoff t); try lia; [done|].
  f_equal. clear IH Hl. symmetry. induction Hall as [|u l Hu _ IH]; cbn; [done|].
  destruct (Z.ltb_spec cutoff u); [by rewrite IH|lia].
Qed.

Lemma filter_Sorted (f : Z → bool) l : Sorted Z.le l → Sorted Z.le (List.filter f l).
Proof.
  intros H. apply Sorted_StronglySorted in H; [|intros ???; lia].
  apply StronglySorted_Sorted.
  induction H as [|t l Hl IH Hall]; cbn; [constructor|].
  destruct (f t); [|done]. constructor; [done|].
  rewrite list.Forall_forall in Hall |- *. intros u Hu. apply Hall.
  apply list_elem_of_In, filter_In in Hu as [Hu _]. by apply list_elem_of_In.
Qed.

Lemma filter_filter_later a b l :
  a <= b →
  List.filter (λ t, b <? t) (List.filter (λ t, a <? t) l) = List.filter (λ t, b <? t) l.
Proof.
  intros Hab. induction l as [|t l IH]; cbn; [done|].
  destruct (Z.ltb_spec a t); cbn; rewrite IH; [done|].
  destruct (Z.ltb_spec b t); [lia|done].
Qed.

(** The failures within the window that ends at [now]. *)
Definition recent (g : SafeModeGuard) (now : Z) (times : list Z) : list Z :=
  List.filter (λ t, now - ns (countingWindow g) <? t) times.

(** Counting one more rejection, at [t2], and pruning at [t3]. *)
Lemma count_window (g : SafeModeGuard) (t1 t2 t3 t4 : Z) (base : list Z) :
  t1 <= t2 → t2 <= t3 <= t4 → Sorted Z.le base → Forall (λ t, t <= t1) base →
  let times := drop_expired (t3 - ns (countingWindow g)) (base ++ [t2]) in
  times = recent g t3 (base ++ [t2]) ∧ Sorted Z.le times ∧ Forall (λ t, t <= t4) times.
Proof.
  intros H1 H2 Hbs Hbf. cbn zeta.
  assert (Sorted Z.le (base ++ [t2])) as Hs2.
  { clear -Hbs Hbf H1. induction Hbs as [|a l Hl IH Hd]; cbn; [by repeat constructor|].
    apply Forall_cons in Hbf as [Ha Hf]. constructor; [by apply IH|].
    inversion Hd; subst; cbn; constructor; lia. }
  rewrite drop_expired_filter by done. split; [done|]. split; [by apply filter_Sorted|].
  apply list.Forall_forall. intros u Hu.
  apply list_elem_of_In, filter_In in Hu as [Hu _].
  apply list_elem_of_In, elem_of_app in Hu as [Hu|Hu].
  - rewrite list.Forall_forall in Hbf. specialize (Hbf _ Hu). lia.
  - apply list_elem_of_singleton in Hu. lia.
Qed.

(** A rejection while clients are accepted, on a clock that does not run
    back, is counted with exactly the earlier failures within the sliding
    window; Safe Mode is entered, for the cooldown, exactly when their number
    reaches the threshold. A guard that is off, latched or cooling down counts
    nothing. *)
Lemma OnClientRejected_spec (t1 t2 t3 t4 now : Z) (g : SafeModeGuard) :
  times_ok now g → now <= t1 <= t2 → t2 <= t3 <= t4 → 0 <= countingWindow g →
  let g' := OnClientRejected t1 t2 t3 t4 g in
  let cooling := safeMode g && (t1 <? cooldownUntil g) in
  let before := if safeMode g then [] else failureTimes g in
  let window := recent g t3 (before ++ [t2]) in
  times_ok t4 g' ∧
  if negb (enabled g) || anomalyLatched g || cooling then g' = g
  else failureTimes g' = window ∧
       safeMode g' = (failuresToEnter g <=? length window)%nat ∧
       anomalyLatched g' = false ∧
       (safeMode g' = true → cooldownUntil g' = t4 + ns (guard_cooldown g)).
Proof.
  intros [Hs Hle] H1 H2 Hw. cbn zeta. unfold OnClientRejected, Refresh, times_ok.
  assert (times_ok t4 g) as Hok.
  { split; [done|]. eapply Forall_impl; [exact Hle|]. cbn. lia. }
  destruct (enabled g) eqn:Hen; cbn [negb orb]; [|done].
  destruct (anomalyLatched g) eqn:Hl; cbn [orb].
  { by rewrite ?Hl, orb_true_r. }
  pose proof (count_window g t1 t2 t3 t4) as Hcount.
  destruct (safeMode g) eqn:Hsm; cbn [andb].
  - destruct (Z.ltb_spec t1 (cooldownUntil g)), (Z.leb_spec (cooldownUntil g) t1); try lia.
    { by rewrite ?Hsm, ?Hl. }
    cbn -[Nat.leb length drop_expired].
    destruct (Hcount [] ltac:(lia) ltac:(lia) ltac:(constructor) ltac:(constructor))
      as (E & F1 & F2).
    cbn [app] in E, F1, F2. rewrite ?Hl. cbn -[Nat.leb length drop_expired].
    rewrite E in F1, F2 |- *. destruct (_ <=? _)%nat eqn:En;
      cbn -[Nat.leb length drop_expired]; rewrite ?E, ?En; split_and!; done.
  - cbn -[Nat.leb length drop_expired]. rewrite Hsm, Hl. cbn -[Nat.leb length drop_expired].
    rewrite (drop_expired_filter (t1 - ns (countingWindow g))) by done.
    set (base := List.filter _ (failureTimes g)).
    destruct (Hcount base) as (E & F1 & F2); [lia|lia| | |].
    { by apply filter_Sorted. }
    { apply list.Forall_forall. intros u Hu.
      apply list_elem_of_In, filter_In in Hu as [Hu _]. apply list_elem_of_In in Hu.
      rewrite list.Forall_forall in Hle. specialize (Hle _ Hu). lia. }
    assert (recent g t3 (base ++ [t2]) = recent g t3 (failureTimes g ++ [t2])) as Er.
    { unfold recent. rewrite !List.filter_app. f_equal. apply filter_filter_later. lia. }
    rewrite Er in E. rewrite E in F1, F2 |- *. destruct (_ <=? _)%nat eqn:En;
      cbn -[Nat.leb length drop_expired]; rewrite ?E, ?En; split_and!; done.
Qed.

Definition sample_guard : SafeModeGuard := NewSafeModeGuard 3 5000 2000 true.

Example OnClientRejected_spec_witness :
  let g2 := OnClientRejected 2 2 2 2 (OnClientRejected 1 1 1 1 sample_guard) in
  safeMode (OnClientRejected 3 3 3 3 g2) = true.
Proof.
  cbn zeta. set (g2 := OnClientRejected 2 2 2 2 (OnClientRejected 1 1 1 1 sample_guard)).
  assert (times_ok 2 g2) as Hok.
  { vm_compute. repeat constructor; discriminate. }
  pose proof (OnClientRejected_spec 3 3 3 3 2 g2 Hok ltac:(lia) ltac:(lia)
    ltac:(vm_compute; discriminate)) as [_ H].
  vm_compute in H |- *. reflexivity.
Defined.

Lemma drop_expired_length cutoff l : (length (drop_expired cutoff l) <= length l)%nat.
Proof. induction l as [|t l IH]; cbn; [lia|]. destruct (t <=? cutoff); cbn; lia. Qed.

Definition reject (g : SafeModeGuard) (times : Z * Z * Z * Z) : SafeModeGuard :=
  let '(t1, t2, t3, t4) := times in OnClientRejected t1 t2 t3 t4 g.

Lemma few_rejections rejections g :
  safeMode g = false →
  (length (failureTimes g) + length rejections < failuresToEnter g)%nat →
  safeMode (foldl reject g rejections) = false.
Proof.
  revert g. induction rejections as [|[[[t1 t2] t3] t4] rest IH]; intros g Hs Hlen; [done|].
  cbn [foldl length reject] in *.
  assert (safeMode (OnClientRejected t1 t2 t3 t4 g) = false ∧
    failuresToEnter (OnClientRejected t1 t2 t3 t4 g) = failuresToEnter g ∧
    (length (failureTimes (OnClientRejected t1 t2 t3 t4 g)) <= S (length (failureTimes g)))%nat)
    as (A1 & A2 & A3); [|apply IH; [done|lia]].
  unfold OnClientRejected, Refresh. destruct (enabled g); cbn [negb]; [|auto with lia].
  destruct (anomalyLatched g) eqn:Hl; [rewrite Hl, orb_true_r; auto with lia|].
  rewrite Hs. unfold PruneExpired. cbn -[Nat.leb length drop_expired]. rewrite Hs, Hl.
  cbn -[Nat.leb length drop_expired].
  set (l := drop_expired _ (_ ++ _)).
  assert (length l <= S (length (failureTimes g)))%nat as Hll.
  { subst l. etrans; [apply drop_expired_length|]. rewrite length_app. cbn.
    pose proof (drop_expired_length (t1 - ns (countingWindow g)) (failureTimes g)). lia. }
  rewrite (proj2 (Nat.leb_gt (failuresToEnter g) (length l))) by lia. auto.
Qed.

(** Accepting clients. While it is on, the guard refuses exactly as long as
    an anomaly is latched or a cooldown runs; a latched anomaly never expires
    and a cleared one leaves the cooldown as it was. A cooldown that has run out
    forgets the failures that caused it, so that as many new rejections as the
    threshold are needed before clients are refused again, at whatever times. *)
Lemma ShouldAcceptClients_spec (now : Z) (g : SafeModeGuard) :
  let '(ok, g') := ShouldAcceptClients now g in
  (ok = true ↔ enabled g = false ∨
     anomalyLatched g = false ∧ (safeMode g = true → cooldownUntil g <= now)) ∧
  (enabled g = true → safeMode g = true → ok = true →
   ∀ rejections,
     (length rejections < failuresToEnter g)%nat →
     safeMode (foldl reject g' rejections) = false) ∧
  (enabled g = true → (ShouldAcceptClients now (OnAnomalyDetected g)).1 = false) ∧
  (anomalyLatched g = false → ClearAnomaly (OnAnomalyDetected g) = g).
Proof.
  unfold ShouldAcceptClients, Refresh.
  split; [|split; [|split]].
  - destruct (enabled g) eqn:He, (anomalyLatched g) eqn:Hl, (safeMode g) eqn:Hs;
      cbn; rewrite ?He, ?Hl, ?Hs; cbn;
      try (destruct (Z.leb_spec (cooldownUntil g) now)); cbn; rewrite ?He, ?Hl, ?Hs; cbn;
      split; try done; try naive_solver lia.
  - intros He Hs. destruct (anomalyLatched g) eqn:Hl.
    { rewrite He, Hl, Hs. done. }
    rewrite Hs. destruct (Z.leb_spec (cooldownUntil g) now);
      [|rewrite He, Hs; done].
    intros _ rejections Hlen. by apply few_rejections.
  - intros He. unfold OnAnomalyDetected. rewrite He. cbn. by rewrite He, andb_false_r.
  - intros Hl. unfold ClearAnomaly, OnAnomalyDetected.
    destruct (enabled g) eqn:He; cbn; destruct g; cbn in *; by subst.
Qed.
End SafeMode.
