(* ===== verification/ServiceControl.v ===== *)
(** Registering the service ([Win32ScmInstallBackend] of
    [source/service/service_host.cpp]): creating, deleting and querying it at
    the service control manager, which is the class [ScmApi]. *)

From stdpp Require Import gmultiset.
From S2P Require Import Prelude CommonError ServiceHost.

Open Scope string_scope.
Open Scope list_scope.
Open Scope Z_scope.

(** ** The control manager *)

(** How a service is registered. *)
Record ServiceEntry := MkServiceEntry {
  ent_name : string;
  ent_displayName : string;
  ent_access : Z;
  ent_type : Z;
  ent_start : Z;
  ent_errorControl : Z;
  ent_image : wstring
}.

(** The path of the running program; [GetModuleFileNameW] answers the number of
    units it copied, at most the size it is given, and the text. *)
Class ModulePath (B : Type) := GetModuleFileNameW : Z → M B (Z * wstring).

(** [None] and [false] are failed calls, whose code [scm_error] gives. *)
Class ScmApi (B : Type) := {
  scm_error : B → Z;
  OpenSCManagerW : Z → M B (option Z);
  CreateServiceW : Z → ServiceEntry → M B (option Z);
  ChangeServiceDescription : Z → string → M B bool;
  OpenServiceW : Z → string → Z → M B (option Z);
  DeleteService : Z → M B bool;
  QueryServiceStatusEx : Z → M B (option Z);
  QueryServiceConfigSize : Z → M B Z;
  QueryServiceConfigW : Z → Z → M B (option Z); (* [dwStartType] *)
  CloseServiceHandle : Z → M B unit
}.

Definition MAX_PATH : Z := 260.
Definition SC_MANAGER_CONNECT : Z := 1.
Definition SC_MANAGER_CREATE_SERVICE : Z := 2.
Definition SERVICE_QUERY_CONFIG : Z := 1.
Definition SERVICE_CHANGE_CONFIG : Z := 2.
Definition SERVICE_QUERY_STATUS : Z := 4.
Definition DELETE : Z := 0x10000.
Definition SERVICE_WIN32_OWN_PROCESS : Z := 0x10.
Definition SERVICE_AUTO_START : Z := 2.
Definition SERVICE_DEMAND_START : Z := 3.
Definition SERVICE_ERROR_NORMAL : Z := 1.
Definition ERROR_SERVICE_DOES_NOT_EXIST : Z := 1060.

Definition FromScmState (state : Z) : ServiceState :=
  if state =? 2 then ServiceState.StartPending
  else if state =? 4 then ServiceState.Running
  else if state =? 3 then ServiceState.StopPending
  else if state =? 1 then ServiceState.Stopped
  else ServiceState.Unknown.

Definition not_installed : ServiceInstallStatus :=
  MkInstallStatus false ServiceState.Unknown false false.

Section Backend.
Context {B : Type} `{SystemMessages} `{!ModulePath B} `{!ScmApi B}.

Definition scm_failure {A} (op : string) : M B (Result A) :=
  λ b, (Failure (FromWin32 (u32 (scm_error b)) op), b).

(** The loop that doubles the buffer; [None] when the fuel runs out. *)
Fixpoint module_path (fuel : nat) (size : Z) : M B (option (Result wstring)) :=
  match fuel with
  | O => mret None
  | S fuel' =>
      r <-- GetModuleFileNameW size ;;
      let '(copied, text) := r in
      if copied =? 0 then e <-- scm_failure "GetModuleFileNameW" ;; mret (Some e)
      else if copied <? size then mret (Some (Success (take (Z.to_nat copied) text)))
      else module_path fuel' (size * 2)
  end.

(** Paths have at most 32767 units, which the eighth buffer holds. *)
Definition ResolveImagePath (executablePath : string) : M B (option (Result wstring)) :=
  if negb (string_empty executablePath) then mret (Some (Success (widen executablePath)))
  else module_path 8 MAX_PATH.

(** [UniqueServiceHandle]. *)
Definition with_service {A} (opening : M B (option Z)) (failed : M B A) (body : Z → M B A) : M B A :=
  opened <-- opening ;;
  match opened with
  | None => failed
  | Some h => r <-- body h ;; CloseServiceHandle h ;;; mret r
  end.

Definition service_entry (identity : ServiceIdentity) (imagePath : wstring) : ServiceEntry :=
  MkServiceEntry (svc_name identity) (displayName identity) SERVICE_CHANGE_CONFIG
    SERVICE_WIN32_OWN_PROCESS SERVICE_DEMAND_START SERVICE_ERROR_NORMAL
    ([34] ++ imagePath ++ [34]).

Definition create_service (identity : ServiceIdentity) (imagePath : wstring) : M B (Result unit) :=
  with_service (OpenSCManagerW SC_MANAGER_CREATE_SERVICE) (scm_failure "OpenSCManagerW") (λ scm,
    with_service (CreateServiceW scm (service_entry identity imagePath))
      (scm_failure "CreateServiceW") (λ svc,
      (if negb (string_empty (description identity)) then
         ChangeServiceDescription svc (description identity) ;;; mret tt
       else mret tt) ;;;
      mret (Success tt))).

(** The running out of the fuel stands for no behaviour of the code. *)
Definition Create (identity : ServiceIdentity) : M B (Result unit) :=
  imagePath <-- ResolveImagePath (executablePath identity) ;;
  match imagePath with
  | None => mret (Failure (Validation "ResolveImagePath" ""))
  | Some (Failure e) => mret (Failure e)
  | Some (Success path) => create_service identity path
  end.

Definition Delete (name : string) : M B (Result unit) :=
  with_service (OpenSCManagerW SC_MANAGER_CONNECT) (scm_failure "OpenSCManagerW") (λ scm,
    with_service (OpenServiceW scm name DELETE) (scm_failure "OpenServiceW") (λ svc,
      deleted <-- DeleteService svc ;;
      if negb deleted then scm_failure "DeleteService" else mret (Success tt))).

(** The start type is unknown when it cannot be read. *)
Definition query_start_type (svc : Z) : M B (bool * bool) :=
  bytes <-- QueryServiceConfigSize svc ;;
  if 0 <? bytes then
    config <-- QueryServiceConfigW svc bytes ;;
    mret (match config with
          | Some start => (start =? SERVICE_AUTO_START, true)
          | None => (false, false)
          end)
  else mret (false, false).

Definition Query (name : string) : M B (Result ServiceInstallStatus) :=
  with_service (OpenSCManagerW SC_MANAGER_CONNECT) (scm_failure "OpenSCManagerW") (λ scm,
    with_service (OpenServiceW scm name (Z.lor SERVICE_QUERY_STATUS SERVICE_QUERY_CONFIG))
      (λ b,
        let code := u32 (scm_error b) in
        if code =? ERROR_SERVICE_DOES_NOT_EXIST then (Success not_installed, b)
        else (Failure (FromWin32 code "OpenServiceW(query)"), b))
      (λ svc,
        status <-- QueryServiceStatusEx svc ;;
        start <-- query_start_type svc ;;
        mret (Success
          (MkInstallStatus true
             (match status with Some s => FromScmState s | None => ServiceState.Unknown end)
             start.1 start.2)))).

#[export] Instance Win32ScmInstallBackend : ScmInstallBackend B := {|
  scm_create := Create;
  scm_delete := Delete;
  scm_query := Query
|}.
End Backend.

(** ** Facts *)

(** The registered services, and the one a handle was just opened for. Creating
    registers what was asked for, if there was none of the name; nothing but
    creating and deleting changes them. *)
Class ScmApiLaws (B : Type) `{!ModulePath B} `{!ScmApi B} := {
  services : B → gmap string ServiceEntry;
  opened_service : B → Z → option string;
  path_bound n b : 0 <= (GetModuleFileNameW n b).1.1 <= 32767;
  path_services n : preserves services (GetModuleFileNameW n);
  manager_services a : preserves services (OpenSCManagerW a);
  create_services h e b r b' : CreateServiceW h e b = (r, b') →
    services b' = match r with Some _ => <[ent_name e := e]> (services b) | None => services b end;
  describe_services h d : preserves services (ChangeServiceDescription h d);
  open_services h n a b r b' : OpenServiceW h n a b = (r, b') →
    services b' = services b ∧
    match r with
    | Some s => is_Some (services b !! n) ∧ opened_service b' s = Some n
    | None => u32 (scm_error b') = ERROR_SERVICE_DOES_NOT_EXIST → services b !! n = None
    end;
  delete_services s n b r b' : opened_service b s = Some n → DeleteService s b = (r, b') →
    services b' = if r then delete n (services b) else services b;
  status_services s : preserves services (QueryServiceStatusEx s);
  size_services s : preserves services (QueryServiceConfigSize s);
  config_services s n : preserves services (QueryServiceConfigW s n);
  close_services s : preserves services (CloseServiceHandle s)
}.

(** What a client of the registration may rely on. *)
Class ScmInstallLaws (B : Type) `{ScmInstallBackend B} := {
  registered : B → string → bool;
  create_registered i b r b' : scm_create i b = (r, b') →
    ∀ n, registered b' n = (HasValue r && bool_decide (n = svc_name i)) || registered b n;
  delete_registered n b r b' : scm_delete n b = (r, b') →
    ∀ m, registered b' m = negb (HasValue r && bool_decide (m = n)) && registered b m;
  query_registered n b r b' : scm_query n b = (r, b') →
    (∀ m, registered b' m = registered b m) ∧
    ∀ s, r = Success s → installed s = registered b n
}.

Section BackendTheorems.
Context {B : Type} `{SystemMessages} `{ScmApiLaws B}.

#[local] Hint Resolve path_services manager_services describe_services status_services
  size_services config_services close_services : frame.

Lemma module_path_step fuel size (b : B) :
  module_path (S fuel) size b =
  let '((copied, text), b1) := GetModuleFileNameW size b in
  if copied =? 0 then (Some (Failure (FromWin32 (u32 (scm_error b1)) "GetModuleFileNameW")), b1)
  else if copied <? size then (Some (Success (take (Z.to_nat copied) text)), b1)
  else module_path fuel (size * 2) b1.
Proof.
  cbn [module_path]. unfold mthen at 1.
  destruct (GetModuleFileNameW size b) as [[copied text] b1].
  destruct (copied =? 0); [done|]. by destruct (copied <? size).
Qed.

(** The path is found before the buffers run out. *)
Lemma module_path_found n size (b : B) :
  0 < size → 32767 < size * 2 ^ Z.of_nat n → (module_path (S n) size b).1 ≠ None.
Proof.
  revert size b. induction n as [|n IH]; intros size b Hs Hn; rewrite module_path_step;
    pose proof (path_bound size b) as Hp;
    destruct (GetModuleFileNameW size b) as [[copied text] b1]; cbn [fst] in Hp;
    (destruct (copied =? 0); [done|]); destruct (Z.ltb_spec copied size); try done; [lia|].
  apply IH; [lia|]. rewrite Nat2Z.inj_succ, Z.pow_succ_r in Hn by lia. lia.
Qed.

Lemma module_path_services fuel size : preserves services (module_path fuel size).
Proof.
  revert size. induction fuel as [|n IH]; intros size b; [done|]. rewrite module_path_step.
  pose proof (path_services size b) as Hp.
  destruct (GetModuleFileNameW size b) as [[copied text] b1]. cbn in Hp. rewrite <- Hp.
  destruct (copied =? 0); [done|]. destruct (copied <? size); [done|]. apply IH.
Qed.

Lemma ResolveImagePath_total path (b : B) :
  ∃ r b', ResolveImagePath path b = (Some r, b') ∧ services b' = services b.
Proof.
  assert (Hp : preserves services (ResolveImagePath path)).
  { unfold ResolveImagePath. destruct (negb _); [frame|]. apply module_path_services. }
  specialize (Hp b). destruct (ResolveImagePath path b) as [[r|] b'] eqn:E; [by exists r, b'|].
  exfalso. revert E. unfold ResolveImagePath. destruct (negb _); [done|]. intros E.
  apply (module_path_found 7 MAX_PATH b); [done..|]. by rewrite E.
Qed.

(** The handle of [with_service] is closed on both ways; what is registered is
    what the body leaves. *)
Lemma with_service_inv {A} opening (failed : M B A) body (b b' : B) r :
  with_service opening failed body b = (r, b') →
  ∃ o b1, opening b = (o, b1) ∧
  match o with
  | None => failed b1 = (r, b')
  | Some h => ∃ b2, body h b1 = (r, b2) ∧ services b' = services b2
  end.
Proof.
  unfold with_service, mthen, mret. destruct (opening b) as [[h|] b1]; [|by eexists _, _].
  destruct (body h b1) as [r2 b2] eqn:E. pose proof (close_services h b2) as Hc.
  destruct (CloseServiceHandle h b2) as [u b3]. intros [= <- <-]. eexists _, _. split; [done|].
  by exists b2.
Qed.

Lemma create_service_spec i path (b b' : B) r :
  create_service i path b = (r, b') →
  services b' = if HasValue r then <[svc_name i := service_entry i path]> (services b)
                else services b.
Proof.
  unfold create_service. intros (o & b1 & Eo & E)%with_service_inv.
  pose proof (preserves_run _ _ _ _ _ (manager_services _) Eo) as <-.
  destruct o as [scm|]; [|by injection E as <- <-].
  destruct E as (b2 & (o & b3 & Ec & E)%with_service_inv & ->).
  apply create_services in Ec. destruct o as [svc|]; [|by injection E as <- <-].
  destruct E as (b4 & E & ->). revert E. unfold mthen, mret. destruct (negb _).
  - pose proof (describe_services svc (description i) b3) as Hd.
    destruct (ChangeServiceDescription _ _ b3) as [ok b5]. intros [= <- <-].
    exact (eq_trans Hd Ec).
  - by intros [= <- <-].
Qed.

#[export] Program Instance Win32Scm_laws : ScmInstallLaws B := {|
  registered b n := bool_decide (is_Some (services b !! n))
|}.
Next Obligation.
  intros i b r b'. cbn [scm_create Win32ScmInstallBackend]. unfold Create, mthen.
  destruct (ResolveImagePath_total (executablePath i) b) as (p & b1 & -> & <-).
  destruct p as [path|e]; [|by intros [= <- <-]]. intros E n.
  apply create_service_spec in E as ->. destruct (HasValue r); cbn [andb orb]; [|done].
  destruct (decide (n = svc_name i)) as [->|Hne].
  - rewrite lookup_insert_eq, (bool_decide_eq_true_2 (svc_name i = _)) by done. done.
  - by rewrite lookup_insert_ne, (bool_decide_eq_false_2 (n = _)) by done.
Qed.
Next Obligation.
  intros n b r b'. cbn [scm_delete Win32ScmInstallBackend]. unfold Delete.
  intros (o & b1 & Eo & E)%with_service_inv m.
  pose proof (preserves_run _ _ _ _ _ (manager_services _) Eo) as <-.
  destruct o as [scm|]; [|by injection E as <- <-].
  destruct E as (b2 & (o & b3 & Ec & E)%with_service_inv & ->).
  apply open_services in Ec as [<- Ho]. destruct o as [svc|]; [|by injection E as <- <-].
  destruct Ho as [_ Ho]. destruct E as (b4 & E & ->). revert E. unfold mthen, mret.
  destruct (DeleteService svc b3) as [ok b5] eqn:Ed. apply (delete_services _ n) in Ed; [|done].
  destruct ok; cbn [negb]; intros [= <- <-]; cbn [HasValue andb]; rewrite Ed; [|done].
  destruct (decide (m = n)) as [->|Hne].
  - rewrite lookup_delete_eq, (bool_decide_eq_true_2 (n = n)) by done. done.
  - by rewrite lookup_delete_ne, (bool_decide_eq_false_2 (m = n)) by done.
Qed.
Next Obligation.
  intros n b r b'. cbn [scm_query Win32ScmInstallBackend]. unfold Query.
  intros (o & b1 & Eo & E)%with_service_inv.
  pose proof (preserves_run _ _ _ _ _ (manager_services _) Eo) as <-.
  destruct o as [scm|]; [|by injection E as <- <-].
  destruct E as (b2 & (o & b3 & Ec & E)%with_service_inv & ->).
  apply open_services in Ec as [<- Ho]. destruct o as [svc|].
  - destruct Ho as [Ho _]. destruct E as (b4 & E & ->). revert E. unfold query_start_type, mthen, mret.
    pose proof (status_services svc b3) as H1. destruct (QueryServiceStatusEx svc b3) as [st b5].
    pose proof (size_services svc b5) as H2. destruct (QueryServiceConfigSize svc b5) as [n1 b6].
    cbn in H1, H2. rewrite <- H1, <- H2 in *. destruct (0 <? n1).
    + pose proof (config_services svc n1 b6) as H3.
      destruct (QueryServiceConfigW svc n1 b6) as [c b7]. intros [= <- <-]. cbn in H3.
      rewrite H3. split; [done|]. intros s [= <-]. cbn. by rewrite bool_decide_eq_true_2.
    + intros [= <- <-]. split; [done|]. intros s [= <-]. cbn. by rewrite bool_decide_eq_true_2.
  - destruct (_ =? ERROR_SERVICE_DOES_NOT_EXIST) eqn:Ee; injection E as <- <-; (split; [done|]);
      [|done]. intros s [= <-]. cbn. apply Z.eqb_eq, Ho in Ee. rewrite Ee.
    by rewrite bool_decide_eq_false_2 by (by intros [? ?]).
Qed.

(** What a successful installation registers: the program in quotes, nothing
    after it, to be started on demand. *)
Lemma installed_image i path (b b' : B) u :
  create_service i path b = (Success u, b') →
  services b' !! svc_name i = Some (service_entry i path) ∧
  ent_image (service_entry i path) = [34] ++ path ++ [34].
Proof. intros ->%create_service_spec. cbn [HasValue]. by rewrite lookup_insert_eq. Qed.
End BackendTheorems.
