(* ===== verification/ServiceDispatcher.v ===== *)
(** The service under the service control manager ([source/service/service_host.cpp],
    [Win32ScmBackend] and [ServiceHost::RunService]): the dispatcher that calls the
    service main function, the control handler, the status the manager is told, and
    the handler of console signals. *)

From S2P Require Import Prelude CommonError ServiceHost ServiceControl.

Open Scope string_scope.
Open Scope list_scope.
Open Scope Z_scope.

(** ** Console signals *)

Definition CTRL_C_EVENT : Z := 0.
Definition CTRL_BREAK_EVENT : Z := 1.
Definition CTRL_CLOSE_EVENT : Z := 2.
Definition CTRL_SHUTDOWN_EVENT : Z := 6.

(** [active] is the stop flag of the host that runs in the console, if one does;
    the answer says whether the signal is swallowed. *)
Definition ConsoleSignalHandler (eventType : Z) (active : option bool) : bool * option bool :=
  if (eventType =? CTRL_C_EVENT) || (eventType =? CTRL_BREAK_EVENT) ||
     (eventType =? CTRL_CLOSE_EVENT) || (eventType =? CTRL_SHUTDOWN_EVENT)
  then (true, (λ _, true) <$> active)
  else (false, active).

(** ** The status *)

Definition SERVICE_STOPPED : Z := 1.
Definition SERVICE_START_PENDING : Z := 2.
Definition SERVICE_STOP_PENDING : Z := 3.
Definition SERVICE_RUNNING : Z := 4.
Definition SERVICE_WIN32_OWN_PROCESS : Z := 0x10.

Definition ToScmState (s : ServiceState) : Z :=
  match s with
  | ServiceState.StartPending => SERVICE_START_PENDING
  | ServiceState.Running => SERVICE_RUNNING
  | ServiceState.StopPending => SERVICE_STOP_PENDING
  | ServiceState.Stopped => SERVICE_STOPPED
  | ServiceState.Unknown => SERVICE_STOPPED
  end.

(** [SERVICE_STATUS], as far as it is set. *)
Record ServiceStatus := MkServiceStatus {
  dwServiceType : Z;
  dwCurrentState : Z;
  dwControlsAccepted : Z;
  dwWin32ExitCode : Z;
  dwCheckPoint : Z;
  dwWaitHint : Z
}.

Definition scm_status (r : ServiceStatusReport) : ServiceStatus :=
  MkServiceStatus SERVICE_WIN32_OWN_PROCESS (ToScmState (rpt_state r)) (controlsAccepted r)
    (win32ExitCode r) (checkPoint r) (waitHintMs r).

(** ** The backend *)

(** The dispatcher calls the service main function, an action on what the program
    keeps and the system, on a thread of its own, and returns when the service has
    stopped. *)
Class DispatchApi (C : Type) := {
  scm_error : C → Z;
  RegisterServiceCtrlHandlerExW : string → M C (option Z);
  SetServiceStatus : Z → ServiceStatus → M C bool;
  StartServiceCtrlDispatcherW : ∀ {X : Type}, string → M (X * C) unit → M (X * C) bool
}.

(** [statusHandle_] *)
Definition ScmHandle : Type := option Z.

Section Backend.
Context {C : Type} `{SystemMessages, DispatchApi C}.

Definition scm_failed {A} (op : string) (c : C) : Result A := Failure (FromWin32 (u32 (scm_error c)) op).

Definition register_handler (name : string) : M (ScmHandle * C) (Result unit) := λ '(_, c),
  let '(h, c) := RegisterServiceCtrlHandlerExW name c in
  (match h with
   | None => scm_failed "RegisterServiceCtrlHandlerExW" c
   | Some _ => Success tt
   end, (h, c)).

Definition report_status (r : ServiceStatusReport) : M (ScmHandle * C) (Result unit) := λ '(h, c),
  match h with
  | None => (Failure (Validation "ReportStatus" "未注册控制回调，无法上报状态"), (h, c))
  | Some handle =>
      let '(ok, c) := SetServiceStatus handle (scm_status r) c in
      (if ok : bool then Success tt else scm_failed "SetServiceStatus" c, (h, c))
  end.

#[export] Instance Win32ScmBackend : ScmBackend (ScmHandle * C) := {|
  RegisterControlHandler := register_handler;
  ReportStatus := report_status
|}.

(** What the trampoline calls: its answer is dropped. *)
Definition service_trampoline {A} (serviceMain : M (ServiceState * (ScmHandle * C)) A) :
    M (ServiceState * ScmHandle * C) unit := λ '(cur, h, c),
  let '(_, (cur, (h, c))) := serviceMain (cur, (h, c)) in (tt, (cur, h, c)).

Definition RunServiceDispatcher {A} (name : string) (serviceMain : M (ServiceState * (ScmHandle * C)) A) :
    M (ServiceState * ScmHandle * C) (Result unit) := λ s,
  let '(dispatched, s) := StartServiceCtrlDispatcherW name (service_trampoline serviceMain) s in
  (if dispatched : bool then Success tt else scm_failed "StartServiceCtrlDispatcherW" s.2, s).

(** [ticks] is what the loop of the service meets, to its end. *)
Definition RunService (name : string) (ticks : list Tick) :
    M (ServiceState * ScmHandle * C) (Result unit) :=
  RunServiceDispatcher name (RunServiceMain name ticks).
End Backend.

(** ** What the manager is told *)

(** Every status that is set is told, failed calls included; the main function is
    called once, and not at all when the dispatcher cannot be started. *)
Class DispatchApiLaws (C : Type) `{DispatchApi C} := {
  statuses : C → list ServiceStatus;
  register_statuses name : preserves statuses (RegisterServiceCtrlHandlerExW name);
  set_statuses h st c : statuses (SetServiceStatus h st c).2 = statuses c ++ [st];
  dispatch_runs {X} name (main : M (X * C) unit) x c ok x' c' :
    StartServiceCtrlDispatcherW name main (x, c) = (ok, (x', c')) →
    if ok : bool then
      ∃ c1 c2, statuses c1 = statuses c ∧ main (x, c1) = (tt, (x', c2)) ∧ statuses c' = statuses c2
    else x' = x ∧ statuses c' = statuses c
}.

Definition report_of (s : ServiceStatus) : ServiceStatusReport :=
  MkReport (FromScmState (dwCurrentState s)) (dwControlsAccepted s) (dwWin32ExitCode s)
    (dwCheckPoint s) (dwWaitHint s).

(** The manager's states are read back as they were told. *)
Lemma FromScmState_ToScmState s : s ≠ ServiceState.Unknown → FromScmState (ToScmState s) = s.
Proof. by destruct s. Qed.

Lemma report_of_status r : rpt_state r ≠ ServiceState.Unknown → report_of (scm_status r) = r.
Proof. destruct r. intros Hn. unfold report_of. cbn. by rewrite FromScmState_ToScmState. Qed.

Section Told.
Context {C : Type} `{SystemMessages} `{DispatchApiLaws C}.

(** The backend keeps the laws the host is proved against. *)
#[export] Instance scm_backend_laws : ScmLaws (ScmHandle * C).
Proof.
  refine {| sent_reports s := map report_of (statuses s.2); scm_ready s := is_Some s.1 |}.
  - intros n [h c]. cbn. pose proof (register_statuses n c) as Hr.
    destruct (RegisterServiceCtrlHandlerExW n c) as [h' c']. cbn in *. by rewrite Hr.
  - intros n [h c] u s'. cbn. destruct (RegisterServiceCtrlHandlerExW n c) as [[h'|] c']; [|done].
    intros [= _ <-]. by eexists.
  - intros r [h c] [handle Hh] Hn. cbn in Hh. subst h. cbn. pose proof (set_statuses handle (scm_status r) c) as Hs.
    destruct (SetServiceStatus _ _ c) as [ok c']. cbn in *. split; [by eexists|].
    rewrite Hs, map_app. cbn. by rewrite report_of_status.
Defined.

(** What the service control manager is told of a run: in this order a prefix
    of start pending, running, stop pending, stopped, and nothing else; nothing at
    all when the dispatcher cannot be started, which alone is an error of
    [RunService]. *)
Lemma RunService_tells name ticks loop (c : C) r s' :
  RunLoop ticks = Some loop →
  RunService name ticks (ServiceState.Unknown, None, c) = (r, s') →
  ∃ sent, map report_of (statuses s'.2) = map report_of (statuses c) ++ sent ∧
    sent `prefix_of` service_reports loop ∧ (HasValue r = false → sent = []).
Proof.
  intros Hl. unfold RunService, RunServiceDispatcher.
  destruct (StartServiceCtrlDispatcherW _ _ _) as [ok [x' c']] eqn:E.
  apply dispatch_runs in E. destruct ok; intros [= <- <-]; cbn.
  - destruct E as (c1 & c2 & E1 & Em & E2). unfold service_trampoline in Em.
    pose proof (RunServiceMain_reports (C := ScmHandle * C) name ticks (None, c1)) as Hr.
    destruct (RunServiceMain name ticks _) as [out [cur [h c3]]]. injection Em as <- <-.
    rewrite Hl in Hr. destruct Hr as [(sent & Hs & Hp & _) _]. cbn in Hs.
    exists sent. rewrite E2, Hs, E1. by split_and!.
  - destruct E as [_ E]. exists []. rewrite E, app_nil_r. split_and!; [done|apply prefix_nil|done].
Qed.
End Told.

(** ** Examples *)

(** A manager that answers as it is told to. *)
Module Manager.
Record Manager := MkManager { registers : bool; dispatches : bool; told : list ServiceStatus }.

#[export] Instance manager : DispatchApi Manager := {|
  scm_error _ := 1063;
  RegisterServiceCtrlHandlerExW _ m := (if registers m then Some 1 else None, m);
  SetServiceStatus _ st m := (true, MkManager (registers m) (dispatches m) (told m ++ [st]));
  StartServiceCtrlDispatcherW X name main s :=
    if dispatches s.2 then let '(_, s') := main s in (true, s') else (false, s)
|}.

#[export] Instance manager_laws : DispatchApiLaws Manager.
Proof.
  refine {| statuses := told |}; [done|done|].
  intros X name main x c ok x' c'. cbn. destruct (dispatches c); [|by intros [= <- <- <-]].
  destruct (main (x, c)) as [[] [x2 c2]] eqn:E. intros [= <- <- <-]. by exists c, c2.
Defined.
End Manager.

Section Witnesses.
Import Manager.
#[local] Instance plain : SystemMessages := no_messages.

Definition stopped_at_once : list Tick := [MkTick true false (Success tt)].

Lemma RunService_tells_witness :
  RunLoop stopped_at_once = Some (Success tt) ∧
  ∃ sent, map report_of
      (told (RunService "host" stopped_at_once (ServiceState.Unknown, None, MkManager true true [])).2.2) =
    [] ++ sent ∧ sent `prefix_of` service_reports (Success tt) ∧ length sent = 4%nat.
Proof.
  assert (Hl : RunLoop stopped_at_once = Some (Success tt)) by reflexivity. split; [exact Hl|].
  destruct (RunService_tells "host" stopped_at_once (Success tt) (MkManager true true []) _ _ Hl
    (surjective_pairing _)) as (sent & Hs & Hp & _).
  exists sent. split; [exact Hs|]. split; [exact Hp|].
  assert (He : sent = service_reports (Success tt)) by (rewrite <- (app_nil_l sent); symmetry; exact Hs).
  rewrite He. reflexivity.
Defined.

(** A service whose control handler cannot be registered ends without having told
    the manager anything, and [RunService] calls that a success. *)
Lemma unregistered_service_succeeds :
  let '(r, s') := RunService "host" stopped_at_once (ServiceState.Unknown, None, MkManager false true []) in
  r = Success tt ∧ told s'.2 = [].
Proof. vm_compute. done. Qed.
End Witnesses.
