(* ===== verification/TrayHost.v ===== *)
(** The icon in the notification area ([service/tray_host.hpp],
    [source/service/tray_host.cpp]): the backend of the icon, the hidden window
    and its procedure, and [TrayHost], whose own thread runs the window while
    [Start] and [Stop] are called from others, as the steps of an interleaving.
    A step is what a thread does between two points where another may come in. *)

From S2P Require Import Prelude CommonError.

Open Scope string_scope.
Open Scope list_scope.
Open Scope Z_scope.

(** ** The icon *)

(** [AddIcon] and [RemoveIcon]; the icon belongs to a window. *)
Class TrayIconBackend (B : Type) := {
  AddIcon : Z → wstring → M B (Result unit);
  RemoveIcon : Z → M B unit
}.

Inductive NotifyMessage := NIM_ADD | NIM_DELETE.

(** The fields of [NOTIFYICONDATAW] that the code sets, after the handle and the
    size. *)
Record NotifyData := MkNotifyData {
  nid_hWnd : Z;
  nid_uID : Z;
  nid_uCallbackMessage : Z;
  nid_szTip : wstring
}.

Class ShellApi (B : Type) := {
  Shell_NotifyIconW : NotifyMessage → NotifyData → M B bool;
  shell_error : B → Z
}.

Definition WM_APP : Z := 32768.
Definition kTrayCallbackMessage : Z := WM_APP + 1.
Definition kTrayIconId : Z := 1.
Definition kTrayExitCommandId : Z := 1.

(** [szTip] holds 128 characters with the terminator. *)
Definition kTipLength : nat := 128.

#[export] Instance Win32TrayIconBackend {B} `{SystemMessages} `{ShellApi B} : TrayIconBackend B := {|
  AddIcon hwnd tooltip :=
    added <-- Shell_NotifyIconW NIM_ADD
                (MkNotifyData hwnd kTrayIconId kTrayCallbackMessage (take (kTipLength - 1) tooltip)) ;;
    if negb added then λ b, (Failure (FromWin32 (u32 (shell_error b)) "Shell_NotifyIconW(NIM_ADD)"), b)
    else mret (Success tt);
  RemoveIcon hwnd := Shell_NotifyIconW NIM_DELETE (MkNotifyData hwnd kTrayIconId 0 []) ;;; mret tt
|}.

(** ** The window *)

(** What reaches the window procedure: the shell's message with the event of the
    mouse, a command, the two messages that end the window, and the others. *)
Inductive TrayMessage :=
| TrayCallback (event : Z)
| WmCommand (id : Z)
| WmClose
| WmDestroy
| WmOther (message : Z).

#[export] Instance TrayMessage_eq_dec : EqDecision TrayMessage.
Proof. solve_decision. Defined.

Definition WM_NULL : TrayMessage := WmOther 0.
Definition WM_RBUTTONUP : Z := 517.
Definition ERROR_CLASS_ALREADY_EXISTS : Z := 1410.

(** The window class is named by the host's options, which are left out.
    [RegisterClassExW] answers the code of its failure, [GetMessageW] nothing for
    [WM_QUIT]; [TrackPopupMenu] shows the menu with the one command and answers
    what was chosen; [has_message] says that [GetMessageW] would not wait. *)
Class TrayCalls (B : Type) := {
  RegisterClassExW : M B (option Z);
  CreateWindowExW : M B (option Z);
  window_error : B → Z;
  DestroyWindow : Z → M B unit;
  PostMessageW : Z → TrayMessage → M B bool;
  PostQuitMessage : M B unit;
  has_message : B → bool;
  GetMessageW : M B (option TrayMessage);
  UnregisterClassW : M B unit;
  GetCursorPos : M B bool;
  CreatePopupMenu : M B bool;
  TrackPopupMenu : Z → M B Z;
  start_thread : M B unit
}.

(** ** State *)

Inductive TrayState := Idle | Starting | Running.

#[export] Instance TrayState_eq_dec : EqDecision TrayState.
Proof. solve_decision. Defined.

(** The members under the mutex and the two flags; [exits] counts the calls of
    [onExit] since the last start. A null handle is zero. *)
Record Tray := MkTray {
  state_ : TrayState;
  hwnd_ : Z;
  iconAdded_ : bool;
  stopRequested_ : bool;
  exitRequested_ : bool;
  startError_ : option Error;
  exits : nat
}.

Definition GetState (t : Tray) : TrayState := state_ t.
Definition IsIconAdded (t : Tray) : bool := iconAdded_ t.
Definition WindowHandle (t : Tray) : Z := hwnd_ t.

Definition set_icon (added : bool) (t : Tray) : Tray :=
  MkTray (state_ t) (hwnd_ t) added (stopRequested_ t) (exitRequested_ t) (startError_ t) (exits t).
Definition set_stop (stop : bool) (t : Tray) : Tray :=
  MkTray (state_ t) (hwnd_ t) (iconAdded_ t) stop (exitRequested_ t) (startError_ t) (exits t).

(** Where the thread is: it creates its window, is about to tell, has told and
    looks at the flag, runs the window, has taken the icon away, has taken the mark
    of the icon back, has failed, has left the loop, is over. *)
Inductive WorkerPoint :=
| NoThread
| Creating
| Telling (e : option Error) (hwnd : Z) (icon : bool)
| Checking (hwnd : Z)
| Looping
| Unmarking (hwnd : Z)
| Destroying (hwnd : Z)
| Failing
| Leaving
| Over.

Section Tray.
Context {B : Type} `{SystemMessages} `{TrayIconBackend B} `{TrayCalls B}.
Context (tooltip : wstring) (onExit : option (M B unit)).
(** The observer says whether it has handled the message. *)
Context (messageObserver : option (TrayMessage → M B bool)).

Definition on_desk {A} (m : M B A) : M (Tray * B) A := λ '(t, b), let '(a, b') := m b in (a, (t, b')).

(** ** The window procedure *)

(** [WM_DESTROY] is sent to the window procedure before [DestroyWindow] returns. *)
Definition destroy_window (hwnd : Z) : M B unit := DestroyWindow hwnd ;;; PostQuitMessage.

(** Up to the lock under which the mark is taken back, which is a step of its own
    like the end of the window after it. *)
Definition CloseFromUiThread : M (Tray * B) WorkerPoint := λ '(t, b),
  if hwnd_ t =? 0 then (Looping, (t, b))
  else
    ((if iconAdded_ t then on_desk (RemoveIcon (hwnd_ t)) else mret tt) ;;;
     mret (Unmarking (hwnd_ t))) (t, b).

Definition RequestExitFromUiThread : M (Tray * B) unit := λ '(t, b),
  let first := negb (exitRequested_ t) in
  let called := first && (if onExit then true else false) in
  let t' := MkTray (state_ t) (hwnd_ t) (iconAdded_ t) (stopRequested_ t) true (startError_ t)
              (if called then S (exits t) else exits t) in
  ((match onExit with Some call => if first then on_desk call else mret tt | None => mret tt end) ;;;
   (if hwnd_ t =? 0 then mret tt else on_desk (PostMessageW (hwnd_ t) WmClose) ;;; mret tt)) (t', b).

(** Choosing nothing answers 0. *)
Definition ShowTrayMenu (hwnd : Z) : M (Tray * B) unit :=
  cursor <-- on_desk GetCursorPos ;;
  if negb cursor then mret tt
  else
    menu <-- on_desk CreatePopupMenu ;;
    if negb menu then mret tt
    else
      command <-- on_desk (TrackPopupMenu hwnd) ;;
      on_desk (PostMessageW hwnd WM_NULL) ;;;
      if command =? kTrayExitCommandId then RequestExitFromUiThread else mret tt.

(** What is not handled goes to the observer, then to [DefWindowProcW]. *)
Definition to_observer (message : TrayMessage) : M (Tray * B) unit :=
  match messageObserver with
  | Some f => on_desk (f message) ;;; mret tt
  | None => mret tt
  end.

Definition WindowProc (hwnd : Z) (message : TrayMessage) : M (Tray * B) WorkerPoint :=
  match message with
  | TrayCallback event =>
      (if event =? WM_RBUTTONUP then ShowTrayMenu hwnd else to_observer message) ;;; mret Looping
  | WmCommand id =>
      (if id =? kTrayExitCommandId then RequestExitFromUiThread else to_observer message) ;;;
      mret Looping
  | WmClose => CloseFromUiThread
  | WmDestroy => on_desk PostQuitMessage ;;; mret Looping
  | WmOther _ => to_observer message ;;; mret Looping
  end.

(** ** The thread of the window *)

(** The first part of [Worker]: the error, the window and whether the icon is
    there. *)
Definition create_tray : M B (option Error * Z * bool) :=
  registered <-- RegisterClassExW ;;
  match (match registered with
         | Some code => if code =? ERROR_CLASS_ALREADY_EXISTS then None else Some code
         | None => None
         end) with
  | Some code => mret (Some (FromWin32 (u32 code) "RegisterClassExW(tray window)"), 0, false)
  | None =>
      window <-- CreateWindowExW ;;
      match window with
      | None => λ b, ((Some (FromWin32 (u32 (window_error b)) "CreateWindowExW(tray window)"), 0, false), b)
      | Some hwnd =>
          added <-- AddIcon hwnd tooltip ;;
          match added with
          | Failure e => destroy_window hwnd ;;; mret (Some e, 0, false)
          | Success _ => mret (None, hwnd, true)
          end
      end
  end.

Definition publish (e : option Error) (hwnd : Z) (icon : bool) (t : Tray) : Tray :=
  MkTray (match e with Some _ => Idle | None => Running end) hwnd icon (stopRequested_ t)
    (exitRequested_ t) e (exits t).

(** Where a client is inside [Start] and inside [Stop]. *)
Inductive StartPoint :=
| Outside (answer : option (Result unit))
| Resetting
| Spawning
| Waiting
| Judging
| JoiningStart (e : Error).

Inductive StopPoint := NotStopping | Reading | Posting (hwnd : Z) | Taking | Joining.

(** [joinable]: [worker_] holds the thread; [terminated]: [std::terminate] was called. *)
Record TrayHost := MkHost {
  tray : Tray;
  desk : B;
  worker : WorkerPoint;
  joinable : bool;
  starter : StartPoint;
  stopper : StopPoint;
  terminated : bool
}.

Definition NewTrayHost (b : B) : TrayHost :=
  MkHost (MkTray Idle 0 false false false None 0) b NoThread false (Outside None) NotStopping false.

Definition with_ui (x : TrayHost) (m : M (Tray * B) WorkerPoint) : TrayHost :=
  let '(pc, (t, b)) := m (tray x, desk x) in
  MkHost t b pc (joinable x) (starter x) (stopper x) (terminated x).

Definition UiThreadStep (x : TrayHost) : option TrayHost :=
  match worker x with
  | NoThread | Over => None
  | Creating =>
      let '((e, hwnd, icon), b) := create_tray (desk x) in
      Some (MkHost (tray x) b (Telling e hwnd icon) (joinable x) (starter x) (stopper x) (terminated x))
  | Telling e hwnd icon =>
      Some (MkHost (publish e hwnd icon (tray x)) (desk x)
              (match e with Some _ => Failing | None => Checking hwnd end) (joinable x)
              (starter x) (stopper x) (terminated x))
  | Checking hwnd =>
      Some (with_ui x ((if stopRequested_ (tray x) then on_desk (PostMessageW hwnd WmClose) ;;; mret tt
                        else mret tt) ;;; mret Looping))
  | Looping =>
      if has_message (desk x) then
        let '(message, b) := GetMessageW (desk x) in
        let y := MkHost (tray x) b (worker x) (joinable x) (starter x) (stopper x) (terminated x) in
        match message with
        | None => Some (with_ui y (mret Leaving))
        | Some m => Some (with_ui y (WindowProc (hwnd_ (tray x)) m))
        end
      else None
  | Unmarking hwnd => Some (with_ui x (λ '(t, b), (Destroying hwnd, (set_icon false t, b))))
  | Destroying hwnd => Some (with_ui x (on_desk (destroy_window hwnd) ;;; mret Looping))
  | Failing => Some (with_ui x (on_desk UnregisterClassW ;;; mret Over))
  | Leaving =>
      let y := with_ui x (on_desk UnregisterClassW ;;; mret Over) in
      Some (MkHost (MkTray Idle 0 false (stopRequested_ (tray y)) (exitRequested_ (tray y))
                      (startError_ (tray y)) (exits (tray y)))
              (desk y) Over (joinable y) (starter y) (stopper y) (terminated y))
  end.

(** ** [Start] *)

Definition at_start (x : TrayHost) (t : Tray) (s : StartPoint) : TrayHost :=
  MkHost t (desk x) (worker x) (joinable x) s (stopper x) (terminated x).

Definition running_error : Error := Validation "TrayHost::Start" "托盘宿主已在运行或启动中".
Definition thread_error : Error := Validation "TrayHost::Start" "无法创建托盘 UI 线程".
Definition timeout_error : Error := Validation "TrayHost::Start" "托盘启动超时".

(** The locked part at its beginning. *)
Definition StartCall (x : TrayHost) : option TrayHost :=
  match starter x with
  | Outside _ =>
      let t := tray x in
      if negb (bool_decide (state_ t = Idle)) then Some (at_start x t (Outside (Some (Failure running_error))))
      else Some (at_start x (MkTray Starting 0 false (stopRequested_ t) (exitRequested_ t) None (exits t)) Resetting)
  | _ => None
  end.

Definition StartReset (x : TrayHost) : option TrayHost :=
  match starter x with
  | Resetting =>
      let t := tray x in
      Some (at_start x (MkTray (state_ t) (hwnd_ t) (iconAdded_ t) false false (startError_ t) 0) Spawning)
  | _ => None
  end.

(** [worker_ = std::thread(...)]: to assign to a thread that is joinable is
    [std::terminate]. [created]: whether the system can create the thread. *)
Definition StartSpawn (created : bool) (x : TrayHost) : option TrayHost :=
  match starter x, worker x with
  | Spawning, (NoThread | Over) =>
      if negb created then
        let t := tray x in
        Some (at_start x (MkTray Idle (hwnd_ t) (iconAdded_ t) (stopRequested_ t) (exitRequested_ t)
                            (startError_ t) (exits t)) (Outside (Some (Failure thread_error))))
      else if joinable x then
        Some (MkHost (tray x) (desk x) (worker x) (joinable x) (starter x) (stopper x) true)
      else
        Some (MkHost (tray x) (start_thread (desk x)).2 Creating true Waiting (stopper x) (terminated x))
  | _, _ => None
  end.

(** The wait ends when it is told that the start is over, or after five seconds. *)
Definition StartWake (timeout : bool) (x : TrayHost) : option TrayHost :=
  match starter x with
  | Waiting =>
      if timeout || negb (bool_decide (state_ (tray x) = Starting)) then Some (at_start x (tray x) Judging)
      else None
  | _ => None
  end.

Definition StartJudge (x : TrayHost) : option TrayHost :=
  match starter x with
  | Judging =>
      if bool_decide (state_ (tray x) = Running) then Some (at_start x (tray x) (Outside (Some (Success tt))))
      else
        let e := default timeout_error (startError_ (tray x)) in
        Some (at_start x (tray x) (if joinable x then JoiningStart e else Outside (Some (Failure e))))
  | _ => None
  end.

Definition StartJoin (x : TrayHost) : option TrayHost :=
  match starter x, worker x with
  | JoiningStart e, Over =>
      Some (MkHost (tray x) (desk x) (worker x) false (Outside (Some (Failure e))) (stopper x) (terminated x))
  | _, _ => None
  end.

(** ** [Stop] *)

Definition at_stop (x : TrayHost) (t : Tray) (s : StopPoint) : TrayHost :=
  MkHost t (desk x) (worker x) (joinable x) (starter x) s (terminated x).

Definition StopStep (x : TrayHost) : option TrayHost :=
  match stopper x with
  | NotStopping => None
  | Reading =>
      Some (at_stop x (tray x) (if hwnd_ (tray x) =? 0 then Taking else Posting (hwnd_ (tray x))))
  | Posting hwnd =>
      Some (MkHost (tray x) (PostMessageW hwnd WmClose (desk x)).2 (worker x) (joinable x) (starter x)
              Taking (terminated x))
  | Taking =>
      Some (if joinable x
            then MkHost (tray x) (desk x) (worker x) false (starter x) Joining (terminated x)
            else at_stop x (tray x) NotStopping)
  | Joining => match worker x with Over => Some (at_stop x (tray x) NotStopping) | _ => None end
  end.

Definition StopCall (x : TrayHost) : option TrayHost :=
  match stopper x with
  | NotStopping => Some (at_stop x (set_stop true (tray x)) Reading)
  | _ => None
  end.

(** ** Interleaving *)

(** [AMessage]: the shell, the user or another window posts a message. *)
Inductive Action :=
| AStart | AReset | ASpawn (created : bool) | AWake (timeout : bool) | AJudge | AJoinStart
| AStop | AStopStep
| AWorker
| AMessage (m : TrayMessage).

(** [WM_DESTROY] is sent by the system alone. *)
Definition act (a : Action) (x : TrayHost) : option TrayHost :=
  if terminated x then None
  else match a with
  | AStart => StartCall x
  | AReset => StartReset x
  | ASpawn created => StartSpawn created x
  | AWake timeout => StartWake timeout x
  | AJudge => StartJudge x
  | AJoinStart => StartJoin x
  | AStop => StopCall x
  | AStopStep => StopStep x
  | AWorker => UiThreadStep x
  | AMessage m =>
      match m with
      | WmDestroy => None
      | _ =>
          if hwnd_ (tray x) =? 0 then None
          else Some (MkHost (tray x) (PostMessageW (hwnd_ (tray x)) m (desk x)).2 (worker x) (joinable x)
                       (starter x) (stopper x) (terminated x))
      end
  end.

Fixpoint acts (l : list Action) (x : TrayHost) : option TrayHost :=
  match l with
  | [] => Some x
  | a :: l' => match act a x with None => None | Some x' => acts l' x' end
  end.

Lemma host_acts_app l1 l2 x :
  acts (l1 ++ l2) x = match acts l1 x with None => None | Some y => acts l2 y end.
Proof. revert x. induction l1 as [|a l1 IH]; intros x; cbn; [done|]. by destruct (act a x). Qed.
End Tray.

(** ** What the code relies on *)

(** The host's part of the desktop: its window, its icon, the messages posted to
    its window and [WM_QUIT] pending in its thread. *)
Record Desktop := MkDesktop {
  dk_window : option Z;
  dk_icon : option Z;
  dk_posted : list TrayMessage;
  dk_quit : bool
}.

Definition post_to (hwnd : Z) (m : TrayMessage) (d : Desktop) : Desktop :=
  if bool_decide (dk_window d = Some hwnd)
  then MkDesktop (dk_window d) (dk_icon d) (dk_posted d ++ [m]) (dk_quit d) else d.

(** A window that is destroyed takes the messages posted to it with it. *)
Definition destroyed (hwnd : Z) (d : Desktop) : Desktop :=
  if bool_decide (dk_window d = Some hwnd)
  then MkDesktop None (dk_icon d) [] (dk_quit d) else d.

Definition quitting (d : Desktop) : Desktop := MkDesktop (dk_window d) (dk_icon d) (dk_posted d) true.

(** A new thread has no messages. *)
Definition fresh_thread (d : Desktop) : Desktop := MkDesktop (dk_window d) (dk_icon d) [] false.

Class TrayLaws (B : Type) `{TrayIconBackend B} `{TrayCalls B} := {
  view : B → Desktop;
  add_view h t b : view (AddIcon h t b).2 =
    match (AddIcon h t b).1 with
    | Success _ => MkDesktop (dk_window (view b)) (Some h) (dk_posted (view b)) (dk_quit (view b))
    | Failure _ => view b
    end;
  remove_view h b : view (RemoveIcon h b).2 =
    MkDesktop (dk_window (view b)) (if bool_decide (dk_icon (view b) = Some h) then None else dk_icon (view b))
      (dk_posted (view b)) (dk_quit (view b));
  register_view : preserves view RegisterClassExW;
  create_view b : dk_window (view b) = None →
    match (CreateWindowExW b).1 with
    | Some h => h ≠ 0 ∧ view (CreateWindowExW b).2 =
                  MkDesktop (Some h) (dk_icon (view b)) (dk_posted (view b)) (dk_quit (view b))
    | None => view (CreateWindowExW b).2 = view b
    end;
  destroy_view h b : view (DestroyWindow h b).2 = destroyed h (view b);
  post_view h m b : view (PostMessageW h m b).2 = post_to h m (view b);
  quit_view b : view (PostQuitMessage b).2 = quitting (view b);
  message_view b : has_message b = negb (bool_decide (dk_posted (view b) = [])) || dk_quit (view b);
  get_view b : match dk_posted (view b) with
    | m :: rest => (GetMessageW b).1 = Some m ∧
        view (GetMessageW b).2 = MkDesktop (dk_window (view b)) (dk_icon (view b)) rest (dk_quit (view b))
    | [] => dk_quit (view b) = true → (GetMessageW b).1 = None ∧
        view (GetMessageW b).2 = MkDesktop (dk_window (view b)) (dk_icon (view b)) [] false
    end;
  unregister_view : preserves view UnregisterClassW;
  cursor_view : preserves view GetCursorPos;
  menu_view : preserves view CreatePopupMenu;
  track_view h : preserves view (TrackPopupMenu h);
  thread_view b : view (start_thread b).2 = fresh_thread (view b)
}.

(** ** The window procedure on an open window *)

Section Laws.
Context {B : Type} `{SystemMessages} `{TrayLaws B}.
Context (tooltip : wstring) (onExit : option (M B unit)) (messageObserver : option (TrayMessage → M B bool)).
(** The callbacks do not reach for the host's window. *)
Context (onExit_view : ∀ call, onExit = Some call → preserves view call).
Context (observer_view : ∀ f m, messageObserver = Some f → preserves view (f m)).

Notation WindowProc := (WindowProc onExit messageObserver).
Notation act := (act tooltip onExit messageObserver).
Notation acts := (acts tooltip onExit messageObserver).
Notation TrayHost := (TrayHost (B := B)).
Notation UiThreadStep := (UiThreadStep tooltip onExit messageObserver).

(** The window and the icon are there, with these messages waiting. *)
Definition opened (h : Z) (q : list TrayMessage) (t : Tray) (b : B) : Prop :=
  h ≠ 0 ∧ hwnd_ t = h ∧ iconAdded_ t = true ∧ state_ t = Running ∧
  WmDestroy ∉ q ∧ view b = MkDesktop (Some h) (Some h) q false.

(** The icon is gone and its mark, perhaps, not yet; the window is still there. *)
Definition closing (marked : bool) (h : Z) (t : Tray) (b : B) : Prop :=
  h ≠ 0 ∧ hwnd_ t = h ∧ iconAdded_ t = marked ∧ state_ t = Running ∧
  ∃ q, WmDestroy ∉ q ∧ view b = MkDesktop (Some h) None q false.

(** They are gone, and the thread is told to leave. *)
Definition closed (t : Tray) (b : B) : Prop :=
  hwnd_ t ≠ 0 ∧ iconAdded_ t = false ∧ state_ t = Running ∧ view b = MkDesktop None None [] true.

(** [onExit] is called once at most. *)
Definition exits_ok (t : Tray) : Prop := (exits t <= if exitRequested_ t then 1 else 0)%nat.

(** What the thread of the window leaves alone or keeps. *)
Definition kept (t t' : Tray) : Prop :=
  stopRequested_ t' = stopRequested_ t ∧ startError_ t' = startError_ t ∧ (exits_ok t → exits_ok t').

Lemma kept_refl t : kept t t.
Proof. done. Qed.

(** More messages may have come in behind. *)
Definition still_open (h : Z) (q : list TrayMessage) (t : Tray) (s : Tray * B) : Prop :=
  kept t s.1 ∧ ∃ more, opened h (q ++ more) s.1 s.2.

Lemma opened_post h q t b m b' ok :
  opened h q t b → m ≠ WmDestroy → PostMessageW h m b = (ok, b') → opened h (q ++ [m]) t b'.
Proof.
  intros (? & ? & ? & ? & Hq & Hv) Hm E. pose proof (post_view h m b) as Hp. rewrite E, Hv in Hp. cbn in Hp.
  unfold post_to in Hp. cbn in Hp. rewrite bool_decide_true in Hp by done.
  split_and!; try done. rewrite not_elem_of_app. split; [done|]. by intros ?%list_elem_of_singleton.
Qed.

Lemma opened_keep {A} h q t b (m : M B A) a b' :
  preserves view m → opened h q t b → m b = (a, b') → opened h q t b'.
Proof.
  intros Hm Ho E. pose proof (preserves_run view _ _ _ _ Hm E) as Hv.
  destruct Ho as (? & ? & ? & ? & ? & Ho). split_and!; try done. congruence.
Qed.

Lemma RequestExit_opened h q t b :
  opened h q t b → still_open h q t (RequestExitFromUiThread onExit (t, b)).2.
Proof.
  intros Ho. pose proof Ho as (Hh & Eh & _). unfold RequestExitFromUiThread.
  set (t' := MkTray _ _ _ _ _ _ _).
  assert (Hk : kept t t').
  { split_and!; [done|done|]. unfold exits_ok, t'. cbn. destruct (exitRequested_ t); cbn; [done|].
    destruct onExit; lia. }
  assert (Ho' : opened h q t' b) by (subst t'; exact Ho). clearbody t'. unfold mthen, mret.
  set (first := match onExit with Some call => _ | None => _ end).
  assert (Hf : ∃ b1, first (t', b) = (tt, (t', b1)) ∧ opened h q t' b1).
  { subst first. destruct onExit as [call|] eqn:Ec; [|by exists b].
    destruct (negb (exitRequested_ t)); [|by exists b].
    cbn. destruct (call b) as [[] b1] eqn:E. exists b1. split; [done|].
    by eapply opened_keep; [apply onExit_view| |exact E]. }
  destruct Hf as (b1 & -> & Ho1). rewrite Eh. destruct (Z.eqb_spec h 0); [done|].
  cbn. destruct (PostMessageW h WmClose b1) as [ok b2] eqn:E. cbn. split; [done|].
  exists [WmClose]. by eapply opened_post.
Qed.

Lemma observed_opened h q t b m :
  opened h q t b → still_open h q t (to_observer messageObserver m (t, b)).2.
Proof.
  intros Ho. unfold to_observer, mthen, mret. assert (Hn : opened h (q ++ []) t b) by by rewrite app_nil_r.
  destruct messageObserver as [f|] eqn:Ef; [|split; [apply kept_refl|by exists []]].
  cbn. destruct (f m b) as [ok b1] eqn:E. cbn. split; [apply kept_refl|]. exists [].
  by eapply opened_keep; [by apply observer_view| |exact E].
Qed.

Lemma ShowTrayMenu_opened h q t b :
  opened h q t b → still_open h q t (ShowTrayMenu onExit h (t, b)).2.
Proof.
  intros Ho. assert (Hstay : ∀ b', opened h q t b' → still_open h q t (t, b')).
  { intros b' Ho'. split; [apply kept_refl|]. exists []. by rewrite app_nil_r. }
  unfold ShowTrayMenu, mthen, mret. cbn.
  destruct (GetCursorPos b) as [cursor b1] eqn:E1. apply (opened_keep h q t) in E1; [|apply cursor_view|done].
  destruct cursor; cbn [negb]; [|by apply Hstay]. cbn.
  destruct (CreatePopupMenu b1) as [menu b2] eqn:E2. apply (opened_keep h q t) in E2; [|apply menu_view|done].
  destruct menu; cbn [negb]; [|by apply Hstay]. cbn.
  destruct (TrackPopupMenu h b2) as [command b3] eqn:E3. apply (opened_keep h q t) in E3; [|apply track_view|done].
  unfold on_desk at 1. destruct (PostMessageW h WM_NULL b3) as [ok b4] eqn:E4. apply (opened_post h q t) in E4; [|done|done].
  assert (Hlast : still_open h q t (t, b4)) by (split; [apply kept_refl|by exists [WM_NULL]]).
  destruct (command =? kTrayExitCommandId); [|exact Hlast].
  apply RequestExit_opened in E4 as [Hk [more Hm]]. split; [done|]. exists ([WM_NULL] ++ more).
  by rewrite app_assoc.
Qed.

Lemma destroy_window_view h b : view (destroy_window h b).2 = quitting (destroyed h (view b)).
Proof.
  unfold destroy_window, mthen. pose proof (destroy_view h b) as Hd.
  destruct (DestroyWindow h b) as [[] b1]. cbn in Hd. by rewrite quit_view, Hd.
Qed.

Lemma CloseFromUiThread_closes h q t b :
  opened h q t b → ∃ b', CloseFromUiThread (t, b) = (Unmarking h, (t, b')) ∧ closing true h t b'.
Proof.
  intros (Hh & Eh & Ei & Es & Hq & Hv). unfold CloseFromUiThread. rewrite Eh.
  destruct (Z.eqb_spec h 0); [done|]. rewrite Ei. unfold mthen, mret. cbn.
  pose proof (remove_view h b) as Hr. destruct (RemoveIcon h b) as [[] b1]. cbn in Hr.
  rewrite Hv in Hr. cbn in Hr. rewrite bool_decide_true in Hr by done.
  exists b1. split; [done|]. split_and!; try done. by exists q.
Qed.

(** A message is dealt with: the window stays, or it is [WM_CLOSE] that begins to
    close it. *)
Lemma WindowProc_opened h q m t b :
  opened h q t b → m ≠ WmDestroy →
  let r := WindowProc h m (t, b) in
  kept t r.2.1 ∧ (m ≠ WmClose ∧ r.1 = Looping ∧ (∃ more, opened h (q ++ more) r.2.1 r.2.2) ∨
                  m = WmClose ∧ r.1 = Unmarking h ∧ closing true h r.2.1 r.2.2).
Proof.
  intros Ho Hm. cbv zeta.
  assert (Hloop : ∀ n : M (Tray * B) unit, m ≠ WmClose → still_open h q t (n (t, b)).2 →
    kept t ((n ;;; mret Looping) (t, b)).2.1 ∧
    (m ≠ WmClose ∧ ((n ;;; mret Looping) (t, b)).1 = Looping ∧
      (∃ more, opened h (q ++ more) ((n ;;; mret Looping) (t, b)).2.1 ((n ;;; mret Looping) (t, b)).2.2) ∨
     m = WmClose ∧ ((n ;;; mret Looping) (t, b)).1 = Unmarking h ∧
      closing true h ((n ;;; mret Looping) (t, b)).2.1 ((n ;;; mret Looping) (t, b)).2.2)).
  { intros n Hne [? ?]. unfold mthen, mret. destruct (n (t, b)) as [? [? ?]]. by auto. }
  destruct m; cbn [TrayHost.WindowProc].
  - destruct (_ =? _); (apply Hloop; [done|]); [by apply ShowTrayMenu_opened|by apply observed_opened].
  - destruct (_ =? _); (apply Hloop; [done|]); [by apply RequestExit_opened|by apply observed_opened].
  - destruct (CloseFromUiThread_closes _ _ _ _ Ho) as (b' & -> & Hc). cbn. split; [done|]. by right.
  - done.
  - apply Hloop; [done|]. by apply observed_opened.
Qed.

(** ** The invariant *)

Definition nothing (b : B) : Prop := dk_window (view b) = None ∧ dk_icon (view b) = None.
Definition blank (t : Tray) : Prop := hwnd_ t = 0 ∧ iconAdded_ t = false.
Definition preparing (s : StartPoint) : Prop := s = Resetting ∨ s = Spawning.

(** No window: not yet, or no longer. *)
Definition at_rest (x : TrayHost) : Prop :=
  nothing (desk x) ∧ blank (tray x) ∧
  (state_ (tray x) = Idle ∨ state_ (tray x) = Starting ∧ preparing (starter x)).

Definition phase (x : TrayHost) : Prop :=
  let t := tray x in
  let b := desk x in
  match worker x with
  | NoThread => at_rest x ∧ joinable x = false
  | Over | Failing => at_rest x
  | Creating => view b = MkDesktop None None [] false ∧ blank t ∧ state_ t = Starting
  | Telling (Some _) h icon => h = 0 ∧ icon = false ∧ nothing b ∧ blank t ∧ state_ t = Starting
  | Telling None h icon =>
      h ≠ 0 ∧ icon = true ∧ blank t ∧ state_ t = Starting ∧
      ∃ q, WmDestroy ∉ q ∧ view b = MkDesktop (Some h) (Some h) q false
  | Checking h => ∃ q, opened h q t b
  | Looping => (∃ q, opened (hwnd_ t) q t b) ∨ closed t b
  | Unmarking h => closing true h t b
  | Destroying h => closing false h t b
  | Leaving => nothing b ∧ iconAdded_ t = false ∧ state_ t = Running
  end.

(** A request of [Stop] that no [Start] has taken back reaches the window. *)
Definition heard (x : TrayHost) : Prop :=
  stopRequested_ (tray x) = true →
  match worker x with
  | Creating | Telling _ _ _ => ∀ h, stopper x ≠ Posting h
  | Checking h => ∀ h', stopper x = Posting h' → h' = h
  | Looping => ∀ q, opened (hwnd_ (tray x)) q (tray x) (desk x) →
      (∀ h', stopper x = Posting h' → h' = hwnd_ (tray x)) ∧
      (WmClose ∈ q ∨ stopper x = Reading ∨ ∃ h', stopper x = Posting h')
  | Unmarking _ | Destroying _ => True
  | NoThread | Over | Failing | Leaving => starter x = Spawning → ∀ h, stopper x ≠ Posting h
  end.

(** The client in [Start] and the thread. *)
Definition in_step (x : TrayHost) : Prop :=
  (preparing (starter x) → state_ (tray x) = Starting ∧
     match worker x with NoThread | Over | Failing => True | _ => False end) ∧
  (stopper x = Joining → worker x ≠ NoThread).

Record sound (x : TrayHost) : Prop := MkSound {
  sound_phase : phase x;
  sound_heard : heard x;
  sound_step : in_step x;
  sound_exits : exits_ok (tray x)
}.

Lemma sound_new b : nothing b → sound (NewTrayHost b).
Proof.
  intros Hb. constructor; [|by intros ?|split; [by intros [?|?]|done]|cbn; unfold exits_ok; cbn; lia].
  split; [|done]. split; [done|]. by split; [|left].
Qed.

Lemma create_tray_spec b e h icon b' :
  view b = MkDesktop None None [] false → create_tray tooltip b = ((e, h, icon), b') →
  match e with
  | Some _ => h = 0 ∧ icon = false ∧ nothing b'
  | None => h ≠ 0 ∧ icon = true ∧ view b' = MkDesktop (Some h) (Some h) [] false
  end.
Proof.
  intros Hv. unfold create_tray, mthen, mret, nothing.
  pose proof (register_view b) as Hr. destruct (RegisterClassExW b) as [r b1]. cbn in Hr.
  destruct (match r with Some code => _ | None => None end) as [code|].
  { intros [= <- <- <- <-]. by rewrite Hr, Hv. }
  rewrite Hv in Hr. pose proof (create_view b1) as Hc. rewrite Hr in Hc. cbn in Hc. specialize (Hc eq_refl).
  destruct (CreateWindowExW b1) as [[hwnd|] b2]; cbn in Hc; [|intros [= <- <- <- <-]; by rewrite Hc].
  destruct Hc as [Hne Hc]. pose proof (add_view hwnd tooltip b2) as Ha.
  destruct (AddIcon hwnd tooltip b2) as [[u|err] b3]; cbn in Ha; rewrite Hc in Ha.
  - intros [= <- <- <- <-]. done.
  - pose proof (destroy_window_view hwnd b3) as Hd. destruct (destroy_window hwnd b3) as [[] b4]. cbn in Hd.
    rewrite Ha in Hd. unfold destroyed in Hd. cbn in Hd. rewrite bool_decide_true in Hd by done.
    intros [= <- <- <- <-]. by rewrite Hd.
Qed.

(** A turn of the loop on an open window, and on a closed one. *)
Lemma turn_opened (x : TrayHost) q :
  worker x = Looping → opened (hwnd_ (tray x)) q (tray x) (desk x) →
  match q with
  | [] => UiThreadStep x = None
  | m :: q' => ∃ t b pc, UiThreadStep x =
        Some (MkHost t b pc (joinable x) (starter x) (stopper x) (terminated x)) ∧
      kept (tray x) t ∧
      (m ≠ WmClose ∧ pc = Looping ∧ (∃ more, opened (hwnd_ (tray x)) (q' ++ more) t b) ∨
       m = WmClose ∧ pc = Unmarking (hwnd_ (tray x)) ∧ closing true (hwnd_ (tray x)) t b)
  end.
Proof.
  intros Ew Ho. pose proof Ho as (Hh & _ & Hi & Hs & Hq & Hv). unfold TrayHost.UiThreadStep. rewrite Ew.
  pose proof (message_view (desk x)) as Hm. rewrite Hv in Hm. cbn in Hm. rewrite Hm.
  pose proof (get_view (desk x)) as Hg. rewrite Hv in Hg. cbn in Hg.
  destruct q as [|m q']; [done|]. cbn [negb orb]. rewrite bool_decide_false by done. cbn [negb orb].
  destruct (GetMessageW (desk x)) as [r b1]. cbn in Hg. destruct Hg as [-> Hg].
  apply not_elem_of_cons in Hq as [Hmd Hq].
  assert (Ho1 : opened (hwnd_ (tray x)) q' (tray x) b1) by by split_and!.
  destruct (WindowProc_opened _ q' m (tray x) b1 Ho1 ltac:(done)) as [Hk Hr].
  unfold with_ui. cbn [tray desk joinable starter stopper terminated].
  destruct (TrayHost.WindowProc _ _ _ _ (tray x, b1)) as [pc [t b2]]. cbn [fst snd] in *.
  by exists t, b2, pc.
Qed.

Lemma turn_closed (x : TrayHost) :
  worker x = Looping → closed (tray x) (desk x) →
  ∃ b, UiThreadStep x =
      Some (MkHost (tray x) b Leaving (joinable x) (starter x) (stopper x) (terminated x)) ∧ nothing b.
Proof.
  intros Ew (_ & _ & _ & Hv). unfold TrayHost.UiThreadStep. rewrite Ew.
  pose proof (message_view (desk x)) as Hm. rewrite Hv in Hm. cbn in Hm. rewrite Hm.
  pose proof (get_view (desk x)) as Hg. rewrite Hv in Hg. cbn in Hg.
  destruct (GetMessageW (desk x)) as [r b1]. cbn in Hg. destruct (Hg eq_refl) as [-> Hg'].
  exists b1. split; [done|]. unfold nothing. by rewrite Hg'.
Qed.

Lemma opened_unique h q h' q' t b : opened h q t b → opened h' q' t b → q' = q.
Proof. intros (_ & _ & _ & _ & _ & E) (_ & _ & _ & _ & _ & E'). congruence. Qed.

Lemma opened_not_closed h q t b : opened h q t b → ¬ closed t b.
Proof. intros (_ & _ & _ & _ & _ & E) (_ & _ & _ & E'). congruence. Qed.

(** The client in [Start] is in none of the places where there is no thread. *)
Lemma not_preparing (x : TrayHost) :
  in_step x → (state_ (tray x) = Running ∨ match worker x with NoThread | Over | Failing => False | _ => True end) →
  ¬ preparing (starter x).
Proof. intros [Hp _] Hs Hpr. destruct (Hp Hpr) as [E Hw]. destruct Hs as [Hs|Hs]; [congruence|]. by destruct (worker x). Qed.

Lemma sound_turn (x x' : TrayHost) : sound x → worker x = Looping → UiThreadStep x = Some x' → sound x'.
Proof.
  intros [Hph Hhd Hst Hex] Ew. unfold phase in Hph. rewrite Ew in Hph.
  assert (Hs : state_ (tray x) = Running).
  { destruct Hph as [[q Ho]|Hc]; [apply Ho|apply Hc]. }
  pose proof (not_preparing x Hst ltac:(by left)) as Hnp.
  destruct Hph as [[q Ho]|Hc].
  - pose proof (turn_opened x q Ew Ho) as Hturn. destruct q as [|m q']; [by rewrite Hturn|].
    destruct Hturn as (t & b & pc & -> & (Hks & _ & Hke) & Hr). intros [= <-].
    constructor; unfold phase, heard, in_step; cbn [tray desk worker starter stopper joinable].
    + destruct Hr as [(_ & -> & more & Hm)|(_ & -> & Hr)]; [left|done].
      pose proof (proj1 (proj2 Hm)) as ->. eauto.
    + rewrite Hks. intros Hstop. destruct Hr as [(Hne & -> & more & Hm)|(_ & -> & Hr)]; [|done].
      intros q2 Ho2. unfold heard in Hhd. rewrite Ew in Hhd.
      destruct (Hhd Hstop _ Ho) as [Hpost Hreq].
      pose proof (proj1 (proj2 Hm)) as Eh. rewrite Eh in Ho2 |- *.
      rewrite (opened_unique _ _ _ _ _ _ Hm Ho2). split; [done|].
      destruct Hreq as [Hin|Hreq]; [left|by right]. apply elem_of_cons in Hin as [<-|Hin]; [done|]. set_solver.
    + split; [done|]. by destruct Hr as [(_ & -> & _)|(_ & -> & _)].
    + by apply Hke.
  - destruct (turn_closed x Ew Hc) as (b & -> & Hn). intros [= <-]. destruct Hc as (_ & Hi & _ & _).
    constructor; unfold phase, heard, in_step; cbn [tray desk worker starter stopper joinable].
    + done.
    + intros _ E. destruct Hnp. by right.
    + by split.
    + done.
Qed.

Lemma at_rest_same (x y : TrayHost) :
  at_rest x → view (desk y) = view (desk x) → tray y = tray x → starter y = starter x → at_rest y.
Proof. unfold at_rest, nothing. by intros H' -> -> ->. Qed.

Lemma sound_worker (x x' : TrayHost) : sound x → UiThreadStep x = Some x' → sound x'.
Proof.
  intros Hx. destruct (worker x) as [| |e h icon|h| |h|h| | |] eqn:Ew.
  5: by apply sound_turn.
  all: destruct Hx as [Hph Hhd Hst Hex]; pose proof (not_preparing x Hst) as Hnp;
    unfold TrayHost.UiThreadStep, phase, heard, in_step in *; rewrite Ew in *.
  - done.
  - destruct Hph as (Hv & Hb & Hs). destruct (create_tray tooltip (desk x)) as [[[e h] icon] b] eqn:E.
    apply create_tray_spec in E; [|done]. intros [= <-].
    constructor; unfold phase, heard, in_step; cbn [tray desk worker starter stopper joinable].
    + destruct e as [e|]; [naive_solver|]. destruct E as (? & ? & Hd). split_and!; try done; try apply Hb.
      exists []. split; [apply not_elem_of_nil|done].
    + done.
    + split; [|done]. intros Hp. by destruct (Hnp ltac:(by right)).
    + done.
  - intros [= <-].
    constructor; unfold phase, heard, in_step, publish; cbn [tray desk worker starter stopper joinable].
    + destruct e.
      * destruct Hph as (-> & -> & Hn & _ & _). split; [done|]. by split; [|left].
      * destruct Hph as (Hh & -> & _ & _ & q & Hq & Hv). exists q. by split_and!.
    + cbn. intros Hstop. specialize (Hhd Hstop). destruct e; [done|]. intros h' E. by destruct (Hhd h').
    + split; [|by destruct e]. intros Hp. by destruct (Hnp ltac:(by right)).
    + done.
  - destruct Hph as [q Ho]. unfold with_ui.
    assert (Hrun : ∃ b q', ((if stopRequested_ (tray x) then on_desk (PostMessageW h WmClose) ;;; mret tt
                             else mret tt) ;;; mret Looping) (tray x, desk x) = (Looping, (tray x, b)) ∧
              opened h q' (tray x) b ∧ (stopRequested_ (tray x) = true → WmClose ∈ q')).
    { destruct (stopRequested_ (tray x)); [|by exists (desk x), q].
      unfold mthen, mret. cbn. destruct (PostMessageW h WmClose (desk x)) as [ok b] eqn:E.
      exists b, (q ++ [WmClose]). split; [done|]. split; [by eapply opened_post|set_solver]. }
    destruct Hrun as (b & q' & -> & Ho' & Hin). intros [= <-].
    pose proof (proj1 (proj2 Ho')) as Eh.
    constructor; unfold phase, heard, in_step; cbn [tray desk worker starter stopper joinable].
    + left. rewrite Eh. by exists q'.
    + rewrite Eh. intros Hstop q2 Ho2. rewrite (opened_unique _ _ _ _ _ _ Ho' Ho2). auto.
    + split; [|done]. intros Hp. by destruct (Hnp ltac:(by right)).
    + done.
  - unfold with_ui. intros [= <-]. destruct Hph as (Hh & Eh & _ & Hs & Hq).
    constructor; unfold phase, heard, in_step; cbn [tray desk worker starter stopper joinable]; try done.
    split; [|done]. intros Hp. by destruct (Hnp ltac:(by left)).
  - unfold with_ui, mthen, mret. cbn. destruct Hph as (Hh & Eh & Hi & Hs & q & Hq & Hv).
    pose proof (destroy_window_view h (desk x)) as Hd. destruct (destroy_window h (desk x)) as [[] b].
    cbn in Hd |- *. rewrite Hv in Hd. unfold destroyed in Hd. cbn in Hd.
    rewrite bool_decide_true in Hd by done. intros [= <-].
    assert (Hcl : closed (tray x) b) by (split_and!; [by rewrite Eh|done..]).
    constructor; unfold phase, heard, in_step; cbn [tray desk worker starter stopper joinable].
    + by right.
    + intros _ q2 Ho2. by apply opened_not_closed in Ho2.
    + split; [|done]. intros Hp. by destruct (Hnp ltac:(by left)).
    + done.
  - unfold with_ui, mthen, mret. cbn. pose proof (unregister_view (desk x)) as Hu.
    destruct (UnregisterClassW (desk x)) as [[] b]. cbn in Hu. cbn. intros [= <-].
    constructor; unfold phase, heard, in_step; cbn [tray desk worker starter stopper joinable]; try done.
    + by eapply at_rest_same.
    + destruct Hst as [Hst _]. by split.
  - unfold with_ui, mthen, mret. cbn. pose proof (unregister_view (desk x)) as Hu.
    destruct (UnregisterClassW (desk x)) as [[] b]. cbn in Hu. cbn. intros [= <-].
    destruct Hph as ([Hn1 Hn2] & Hi & Hs). specialize (Hnp ltac:(by left)).
    constructor; unfold phase, heard, in_step; cbn [tray desk worker starter stopper joinable]; try done.
    + split; [unfold nothing; cbn; by rewrite Hu|]. by split; [|left].
  - done.
Qed.

(** A client that moves on outside the places where there is no thread. *)
Lemma sound_move (x : TrayHost) j s tm :
  sound x → ¬ preparing (starter x) → ¬ preparing s → (worker x = NoThread → j = false) →
  sound (MkHost (tray x) (desk x) (worker x) j s (stopper x) tm).
Proof.
  intros [Hph Hhd Hst Hex] Hn Hs Hj.
  assert (Hrest : at_rest x → at_rest (MkHost (tray x) (desk x) (worker x) j s (stopper x) tm)).
  { intros (? & ? & [?|[_ ?]]); [|done]. split; [done|]. split; [done|]. by left. }
  constructor; unfold phase, heard, in_step in *; cbn [tray desk worker starter stopper joinable]; try done.
  - destruct (worker x); naive_solver.
  - intros Hstop. specialize (Hhd Hstop).
    destruct (worker x); try done; intros ->; destruct Hs; by right.
  - split; [by intros ?|apply Hst].
Qed.

Lemma at_rest_worker (x : TrayHost) :
  phase x → match worker x with NoThread | Over | Failing => True | _ => False end → at_rest x.
Proof. unfold phase. destruct (worker x); naive_solver. Qed.

Lemma sound_StartCall (x x' : TrayHost) : sound x → StartCall x = Some x' → sound x'.
Proof.
  intros Hx. unfold StartCall. destruct (starter x) as [answer| | | | |] eqn:Es; try done.
  assert (Hn : ¬ preparing (starter x)) by (rewrite Es; by intros [?|?]).
  case_bool_decide as Hi; cbn [negb].
  2:{ intros [= <-]. apply sound_move; [done|done|by intros [?|?]|]. intros Ew.
      pose proof (sound_phase _ Hx) as Hph. unfold phase in Hph. rewrite Ew in Hph. apply Hph. }
  intros [= <-]. destruct Hx as [Hph Hhd Hst Hex].
  assert (Hw : match worker x with NoThread | Over | Failing => True | _ => False end).
  { unfold phase in Hph. destruct (worker x) as [| |[]| | |h|h| | |]; try done; destruct_and?; try congruence.
    - destruct Hph as [q (_ & _ & _ & ? & _)]. congruence.
    - destruct Hph as [[q (_ & _ & _ & ? & _)]|(_ & _ & ? & _)]; congruence.
    - destruct Hph as (_ & _ & _ & ? & _). congruence.
    - destruct Hph as (_ & _ & _ & ? & _). congruence. }
  assert (Hrest : at_rest (at_start x (MkTray Starting 0 false (stopRequested_ (tray x))
            (exitRequested_ (tray x)) None (exits (tray x))) Resetting)).
  { apply at_rest_worker in Hph as [? _]; [|done]. split; [done|]. split; [done|]. right.
    split; [done|]. by left. }
  constructor; unfold phase, heard, in_step, at_start in *; cbn [tray desk worker starter stopper joinable] in *.
  - destruct (worker x); naive_solver.
  - intros _. by destruct (worker x).
  - split; [done|apply Hst].
  - done.
Qed.

Lemma sound_StartReset (x x' : TrayHost) : sound x → StartReset x = Some x' → sound x'.
Proof.
  intros [Hph Hhd Hst Hex]. unfold StartReset. destruct (starter x) eqn:Es; try done. intros [= <-].
  assert (Hp : preparing (starter x)) by (rewrite Es; by left).
  destruct (proj1 Hst Hp) as [Hs Hw].
  constructor; unfold phase, heard, in_step, at_start in *; cbn [tray desk worker starter stopper joinable] in *.
  - assert (Hr : at_rest x) by by apply at_rest_worker. destruct Hr as (? & ? & _).
    assert (∀ j, at_rest (MkHost (MkTray (state_ (tray x)) (hwnd_ (tray x)) (iconAdded_ (tray x)) false false
      (startError_ (tray x)) 0) (desk x) (worker x) j Spawning (stopper x) (terminated x))) as Hr.
    { intros j. split; [done|]. split; [done|]. right. split; [done|]. by right. }
    destruct (worker x); naive_solver.
  - done.
  - split; [done|apply Hst].
  - unfold exits_ok. cbn. lia.
Qed.

Lemma sound_StartSpawn c (x x' : TrayHost) : sound x → StartSpawn c x = Some x' → sound x'.
Proof.
  intros Hx. pose proof Hx as [Hph Hhd Hst Hex]. unfold StartSpawn.
  destruct (starter x) eqn:Es; try done.
  assert (Hp : preparing (starter x)) by (rewrite Es; by right).
  destruct (proj1 Hst Hp) as [Hs Hw].
  assert (Hr : at_rest x) by by apply at_rest_worker. destruct Hr as (Hn & Hb & _).
  intros E. assert (Hnt : ∀ h, stopRequested_ (tray x) = true → stopper x ≠ Posting h).
  { intros h Hstop. unfold heard in Hhd. specialize (Hhd Hstop). by destruct (worker x); auto. }
  assert (E' : match worker x with NoThread | Over => True | _ => False end ∧
    (if negb c then Some (at_start x (MkTray Idle (hwnd_ (tray x)) (iconAdded_ (tray x))
        (stopRequested_ (tray x)) (exitRequested_ (tray x)) (startError_ (tray x)) (exits (tray x)))
        (Outside (Some (Failure thread_error))))
     else if joinable x then Some (MkHost (tray x) (desk x) (worker x) (joinable x) (starter x) (stopper x) true)
     else Some (MkHost (tray x) (start_thread (desk x)).2 Creating true Waiting (stopper x) (terminated x)))
    = Some x').
  { rewrite Es. by destruct (worker x). }
  clear E. destruct E' as [Hw' E]. destruct c; cbn [negb] in E; [destruct (joinable x) eqn:Ej|]; injection E as <-.
  - rewrite <- Ej at 1. constructor; [exact Hph|exact Hhd|exact Hst|exact Hex].
  - constructor; unfold phase, heard, in_step in *; cbn [tray desk worker starter stopper joinable] in *; try done.
    + rewrite thread_view. destruct Hn as [Hn1 Hn2]. unfold fresh_thread. by rewrite Hn1, Hn2.
    + auto.
    + split; [by intros [?|?]|done].
  - constructor; unfold phase, heard, in_step, at_start in *; cbn [tray desk worker starter stopper joinable] in *; try done.
    + assert (∀ j tm, at_rest (MkHost (MkTray Idle (hwnd_ (tray x)) (iconAdded_ (tray x))
        (stopRequested_ (tray x)) (exitRequested_ (tray x)) (startError_ (tray x)) (exits (tray x)))
        (desk x) (worker x) j (Outside (Some (Failure thread_error))) (stopper x) tm)) as Hr.
      { intros j tm. split; [done|]. split; [done|]. by left. }
      destruct (worker x); naive_solver.
    + intros _. by destruct (worker x).
    + split; [by intros [?|?]|apply Hst].
Qed.

(** [Stop]'s steps change the flag, what waits at the window, and where its client is. *)
Lemma sound_StopCall (x x' : TrayHost) : sound x → StopCall x = Some x' → sound x'.
Proof.
  intros [Hph Hhd Hst Hex]. unfold StopCall. destruct (stopper x) eqn:Es; try done. intros [= <-].
  constructor; unfold phase, heard, in_step, at_stop in *; cbn [tray desk worker starter stopper joinable] in *; try done.
  - intros _. destruct (worker x); try done. intros q _. split; [done|]. right. by left.
  - split; [apply Hst|done].
Qed.

Lemma posted_phase h (x : TrayHost) m b' ok :
  phase x → m ≠ WmDestroy → PostMessageW h m (desk x) = (ok, b') →
  phase (MkHost (tray x) b' (worker x) (joinable x) (starter x) (stopper x) (terminated x)) ∧
  (∀ q, opened (hwnd_ (tray x)) q (tray x) b' → ∃ q0, opened (hwnd_ (tray x)) q0 (tray x) (desk x) ∧
     q = if bool_decide (hwnd_ (tray x) = h) then q0 ++ [m] else q0).
Proof.
  intros Hph Hm E. pose proof (post_view h m (desk x)) as Hv. rewrite E in Hv. cbn in Hv.
  assert (Hnone : dk_window (view (desk x)) = None → view b' = view (desk x)).
  { intros Hn. rewrite Hv. unfold post_to. by rewrite Hn. }
  assert (Hopen : ∀ h' q, opened h' q (tray x) (desk x) →
    opened h' (if bool_decide (h' = h) then q ++ [m] else q) (tray x) b').
  { intros h' q (? & ? & ? & ? & Hq & Hd). rewrite Hd in Hv. unfold post_to in Hv. cbn in Hv.
    destruct (decide (h' = h)) as [->|Hne].
    - rewrite bool_decide_true in Hv |- * by done. split_and!; try done.
      rewrite not_elem_of_app. split; [done|]. by intros ?%list_elem_of_singleton.
    - rewrite bool_decide_false in Hv |- * by congruence. by split_and!. }
  assert (Hclosing : ∀ marked h', closing marked h' (tray x) (desk x) → closing marked h' (tray x) b').
  { intros marked h' (? & ? & ? & ? & q & Hq & Hd). rewrite Hd in Hv. unfold post_to in Hv. cbn in Hv.
    split_and!; try done. case_bool_decide; [|by exists q]. exists (q ++ [m]). split; [|done].
    rewrite not_elem_of_app. split; [done|]. by intros ?%list_elem_of_singleton. }
  split.
  - unfold phase in *. cbn [tray desk worker starter stopper joinable].
    assert (Hrest : at_rest x → at_rest (MkHost (tray x) b' (worker x) (joinable x) (starter x) (stopper x) (terminated x))).
    { intros [[Hn1 Hn2] ?]. split; [|done]. unfold nothing. cbn. by rewrite (Hnone Hn1). }
    destruct (worker x) as [| |[e|] h' icon|h'| |h'|h'| | |] eqn:Ew.
    + naive_solver.
    + destruct Hph as (Hd & ?). rewrite Hnone, Hd by by rewrite Hd. done.
    + destruct Hph as (? & ? & [Hn1 Hn2] & ?). unfold nothing. by rewrite (Hnone Hn1).
    + destruct Hph as (? & ? & [? ?] & ? & q & Hq & Hd). split_and!; [done..|].
      rewrite Hd in Hv. unfold post_to in Hv. cbn in Hv. case_bool_decide; [|by exists q].
      exists (q ++ [m]). split; [|done]. rewrite not_elem_of_app. split; [done|]. by intros ?%list_elem_of_singleton.
    + destruct Hph as [q Ho]. eexists. by apply Hopen.
    + destruct Hph as [[q Ho]|(? & ? & ? & Hd)]; [left; eexists; by apply Hopen|right].
      split_and!; [done..|]. rewrite Hnone, Hd by by rewrite Hd. done.
    + by apply Hclosing.
    + by apply Hclosing.
    + by apply Hrest.
    + destruct Hph as ([Hn1 Hn2] & ?). unfold nothing. by rewrite (Hnone Hn1).
    + by apply Hrest.
  - intros q (Hh & _ & Hi & Hs & Hq & Hd). rewrite Hd in Hv. unfold post_to in Hv.
    destruct (view (desk x)) as [w icon q0 quit] eqn:Ed. cbn in Hv.
    exists q0. revert Hv. case_bool_decide as Hw; intros [= <- <- -> <-].
    + rewrite bool_decide_true by congruence. split; [|done]. apply not_elem_of_app in Hq as [? _]. by split_and!.
    + rewrite bool_decide_false by congruence. split; [|done]. by split_and!.
Qed.

Lemma sound_StopStep (x x' : TrayHost) : sound x → StopStep x = Some x' → sound x'.
Proof.
  intros [Hph Hhd Hst Hex]. unfold StopStep. destruct (stopper x) as [| |h| |] eqn:Es; try done.
  - intros [= <-].
    constructor; unfold phase, heard, in_step, at_stop in *; cbn [tray desk worker starter stopper joinable] in *; try done.
    + intros Hstop. specialize (Hhd Hstop). destruct (Z.eqb_spec (hwnd_ (tray x)) 0) as [Hz|Hz].
      * destruct (worker x) eqn:Ew; try done. intros q Ho. by destruct (proj1 Ho).
      * destruct (worker x) as [| |[e|]| | |h|h| | |] eqn:Ew.
        -- by destruct Hph as [(_ & [? _] & _) _].
        -- by destruct Hph as (_ & [? _] & _).
        -- by destruct Hph as (_ & _ & _ & [? _] & _).
        -- by destruct Hph as (_ & _ & [? _] & _).
        -- destruct Hph as [q (_ & <- & _)]. by intros h' [= <-].
        -- intros q Ho. split; [by intros h' [= <-]|]. right. right. eauto.
        -- done.
        -- done.
        -- by destruct Hph as (_ & [? _] & _).
        -- intros E. assert (Hp : preparing (starter x)) by by right. by destruct (proj1 Hst Hp).
        -- by destruct Hph as (_ & [? _] & _).
    + split; [apply Hst|]. by destruct (_ =? _).
  - destruct (PostMessageW h WmClose (desk x)) as [ok b'] eqn:E. cbn [snd]. intros [= <-].
    destruct (posted_phase h x WmClose b' ok Hph ltac:(done) E) as [Hph' Hq'].
    constructor; [exact Hph'| |split; [apply Hst|done]|done].
    unfold heard in *. cbn [tray desk worker starter stopper]. intros Hstop. specialize (Hhd Hstop).
    destruct (worker x); try done. intros q Ho. split; [done|]. left.
    destruct (Hq' q Ho) as (q0 & Ho0 & ->). destruct (Hhd q0 Ho0) as [Hh _].
    rewrite (bool_decide_true (hwnd_ (tray x) = h)) by by rewrite (Hh h). set_solver.
  - intros [= <-]. destruct (joinable x) eqn:Ej.
    + assert (Hw : worker x ≠ NoThread).
      { unfold phase in Hph. intros Ew. rewrite Ew in Hph. destruct Hph. congruence. }
      constructor; unfold phase, heard, in_step, at_stop in *; cbn [tray desk worker starter stopper joinable] in *; try done.
      * destruct (worker x); try done.
      * intros Hstop. specialize (Hhd Hstop). destruct (worker x); try done. intros q Ho.
        destruct (Hhd q Ho) as [_ [?|[?|[? ?]]]]; [|congruence..]. split; [done|]. by left.
      * split; [apply Hst|done].
    + constructor; unfold phase, heard, in_step, at_stop in *; cbn [tray desk worker starter stopper joinable] in *; try done.
      * intros Hstop. specialize (Hhd Hstop). destruct (worker x); try done. intros q Ho.
        destruct (Hhd q Ho) as [_ [?|[?|[? ?]]]]; [|congruence..]. split; [done|]. by left.
      * split; [apply Hst|done].
  - destruct (worker x) eqn:Ew; try done. intros [= <-].
    constructor; unfold phase, heard, in_step, at_stop in *; cbn [tray desk worker starter stopper joinable] in *;
      rewrite ?Ew in *; try done. split; [apply Hst|done].
Qed.

Lemma sound_message m (x x' : TrayHost) : sound x → act (AMessage m) x = Some x' → sound x'.
Proof.
  intros [Hph Hhd Hst Hex]. unfold TrayHost.act. destruct (terminated x) eqn:Et; [done|].
  destruct (decide (m = WmDestroy)) as [->|Hm]; [done|].
  intros E. assert (E' : (if hwnd_ (tray x) =? 0 then None
     else Some (MkHost (tray x) (PostMessageW (hwnd_ (tray x)) m (desk x)).2 (worker x) (joinable x)
            (starter x) (stopper x) false)) = Some x').
  { destruct m; try exact E. done. }
  clear E. destruct (_ =? _); [done|]. destruct (PostMessageW (hwnd_ (tray x)) m (desk x)) as [ok b'] eqn:E.
  injection E' as <-. destruct (posted_phase _ x m b' ok Hph Hm E) as [Hph' Hq'].
  constructor; [exact Hph'| |exact Hst|exact Hex].
  unfold heard in *. cbn [tray desk worker starter stopper]. intros Hstop. specialize (Hhd Hstop).
  destruct (worker x); try done. intros q Ho. destruct (Hq' q Ho) as (q0 & Ho0 & ->).
  destruct (Hhd q0 Ho0) as [Hh Hr]. split; [done|]. destruct Hr as [Hr|Hr]; [left|by right].
  case_bool_decide; set_solver.
Qed.

Lemma sound_act a (x x' : TrayHost) : sound x → act a x = Some x' → sound x'.
Proof.
  intros Hx E. destruct a as [| |c|tm| | | | | |m]; [..|by eapply sound_message];
    revert E; unfold TrayHost.act; destruct (terminated x); try done.
  - by apply sound_StartCall.
  - by apply sound_StartReset.
  - by apply sound_StartSpawn.
  - unfold StartWake. destruct (starter x) eqn:Es; try done. destruct (_ || _); [|done]. intros [= <-].
    apply sound_move; [done|rewrite Es; by intros [?|?]|by intros [?|?]|].
    intros Ew. pose proof (sound_phase _ Hx) as Hph. unfold phase in Hph. rewrite Ew in Hph. apply Hph.
  - unfold StartJudge. destruct (starter x) eqn:Es; try done.
    assert (Hj : worker x = NoThread → joinable x = false).
    { intros Ew. pose proof (sound_phase _ Hx) as Hph. unfold phase in Hph. rewrite Ew in Hph. apply Hph. }
    case_bool_decide; intros [= <-]; (apply sound_move; [done|rewrite Es; by intros [?|?]| |done]);
      [by intros [?|?]|]. by destruct (joinable x); intros [?|?].
  - unfold StartJoin. destruct (starter x) eqn:Es; try done. destruct (worker x) eqn:Ew; try done. intros [= <-].
    rewrite <- Ew. apply sound_move; [done|rewrite Es; by intros [?|?]|by intros [?|?]|done].
  - by apply sound_StopCall.
  - by apply sound_StopStep.
  - by apply sound_worker.
Qed.

Lemma sound_acts l (x x' : TrayHost) : sound x → acts l x = Some x' → sound x'.
Proof.
  revert x. induction l as [|a l IH]; intros x Hx; cbn; [by intros [= <-]|].
  destruct (act a x) as [y|] eqn:E; [|done]. apply IH. by eapply sound_act.
Qed.

(** C19. The icon is tidied away, whatever the interleaving of [Start], [Stop], the thread
    of the window, and the messages of the shell, and whether or not the class, the window,
    the icon and the thread can be made; it is taken that an icon that is removed, a window
    that is destroyed and the messages of the loop do as they are told. A host that
    says it is idle has no window and no icon left, and says so; while it says that the icon is
    there, its window is, and the icon too, but for the moment in which the thread of the
    window has just removed it and not yet said so; a thread that is over has left nothing;
    and the exit chosen in the menu is passed on once at most. *)
Theorem TrayHost_tidy l b0 (x : TrayHost) :
  nothing b0 → acts l (NewTrayHost b0) = Some x →
  (GetState (tray x) = Idle →
     nothing (desk x) ∧ WindowHandle (tray x) = 0 ∧ IsIconAdded (tray x) = false) ∧
  (IsIconAdded (tray x) = true → GetState (tray x) = Running ∧
     dk_window (view (desk x)) = Some (WindowHandle (tray x)) ∧
     (dk_icon (view (desk x)) = Some (WindowHandle (tray x)) ∨
      worker x = Unmarking (WindowHandle (tray x)))) ∧
  (worker x = Over → nothing (desk x)) ∧
  (exits (tray x) <= 1)%nat.
Proof.
  intros Hb E. pose proof (sound_acts _ _ _ (sound_new _ Hb) E) as [Hph _ _ Hex].
  unfold GetState, WindowHandle, IsIconAdded. split_and!.
  - intros Hs. unfold phase in Hph. destruct (worker x) as [| |[e|] ? ?| | |h|h| | |].
    all: try (destruct Hph as [(? & [? ?] & _) _]; by split).
    all: try (destruct Hph as (? & [? ?] & _); by split).
    all: try (destruct Hph as (_ & _ & _ & ? & _); congruence).
    all: destruct_and?; try congruence; try (destruct Hph as [? Ho]; destruct Ho as (_ & _ & _ & ? & _); congruence).
    destruct Hph as [[? (_ & _ & _ & ? & _)]|(_ & _ & ? & _)]; congruence.
  - intros Hi. assert ((∃ h q, opened h q (tray x) (desk x)) ∨
      ∃ h, worker x = Unmarking h ∧ closing true h (tray x) (desk x))
      as [(h & q & _ & <- & _ & Hs & _ & Hv)|(h & -> & _ & <- & _ & Hs & q & _ & Hv)].
    { unfold phase in Hph. destruct (worker x) as [| |[e|] ? ?| | |h|h| | |]; try (by destruct Hph as [(_ & [_ ?] & _) _]; congruence).
      all: try (destruct Hph as (_ & [_ ?] & _); congruence).
      all: try (destruct Hph as (_ & _ & _ & [_ ?] & _); congruence).
      all: try (destruct Hph as (_ & _ & [_ ?] & _); congruence).
      - left. destruct Hph as [q Ho]. eauto.
      - left. destruct Hph as [[q Ho]|(_ & ? & _)]; [eauto|congruence].
      - right. by exists h.
      - destruct Hph as (_ & _ & ? & _). congruence.
      - destruct Hph as (_ & ? & _). congruence. }
    + rewrite Hv. cbn. auto.
    + rewrite Hv. cbn. auto.
  - intros Ew. unfold phase in Hph. rewrite Ew in Hph. apply Hph.
  - unfold exits_ok in Hex. destruct (exitRequested_ _); lia.
Qed.

(** ** [Stop] returns *)

(** The thread alone is over after [n] steps at most. *)
Definition ends (n : nat) (x : TrayHost) : Prop :=
  ∃ k y, (k <= n)%nat ∧ acts (repeat AWorker k) x = Some y ∧ worker y = Over ∧
    stopper y = stopper x ∧ terminated y = false.

Lemma ends_now (x : TrayHost) : worker x = Over → terminated x = false → ends 0 x.
Proof. intros. by exists 0%nat, x. Qed.

Lemma ends_step n (x y : TrayHost) :
  terminated x = false → UiThreadStep x = Some y → stopper y = stopper x → ends n y → ends (S n) x.
Proof.
  intros Ht E Hs (k & z & Hk & Ez & Hw & Hst & Htz). exists (S k), z.
  split; [lia|]. cbn [repeat TrayHost.acts]. unfold TrayHost.act at 1. rewrite Ht, E.
  split_and!; [done|done|congruence|done].
Qed.

Lemma ends_le n m (x : TrayHost) : (n <= m)%nat → ends n x → ends m x.
Proof. intros Hn (k & y & Hk & ?). exists k, y. split; [lia|done]. Qed.

Lemma ends_last (x : TrayHost) : terminated x = false → worker x = Leaving ∨ worker x = Failing → ends 1 x.
Proof.
  intros Ht Hw. destruct (UiThreadStep x) as [y|] eqn:E;
    [|unfold TrayHost.UiThreadStep in E; destruct Hw as [Hw|Hw]; by rewrite Hw in E].
  assert (worker y = Over ∧ stopper y = stopper x ∧ terminated y = false) as (Hy & Hs & Hty).
  { revert E. unfold TrayHost.UiThreadStep, with_ui.
    unfold mthen, mret. destruct Hw as [Hw|Hw]; rewrite Hw; cbn; destruct (UnregisterClassW (desk x)) as [[] b]; cbn;
      by intros [= <-]. }
  by eapply ends_step, ends_now.
Qed.

Lemma ends_closed (x : TrayHost) :
  terminated x = false → worker x = Looping → closed (tray x) (desk x) → ends 2 x.
Proof.
  intros Ht Ew Hc. destruct (turn_closed x Ew Hc) as (b & E & _).
  eapply ends_step; [done|exact E|done|]. apply ends_last; [done|by left].
Qed.

Lemma ends_unmarking h (x : TrayHost) :
  terminated x = false → worker x = Unmarking h → closing true h (tray x) (desk x) → ends 4 x.
Proof.
  intros Ht Ew (Hh & Eh & _ & Hs & q & Hq & Hv).
  set (y := MkHost (set_icon false (tray x)) (desk x) (Destroying h) (joinable x) (starter x) (stopper x) (terminated x)).
  assert (E : UiThreadStep x = Some y) by (unfold TrayHost.UiThreadStep; by rewrite Ew).
  eapply ends_step; [done|exact E|done|].
  pose proof (destroy_window_view h (desk x)) as Hd. destruct (destroy_window h (desk x)) as [[] b] eqn:Ed.
  cbn in Hd. rewrite Hv in Hd. unfold destroyed in Hd. cbn in Hd. rewrite bool_decide_true in Hd by done.
  assert (E2 : UiThreadStep y = Some (MkHost (tray y) b Looping (joinable x) (starter x) (stopper x) (terminated x))).
  { unfold TrayHost.UiThreadStep, with_ui, mthen, mret. cbn. by rewrite Ed. }
  eapply ends_step; [done|exact E2|done|]. apply ends_closed; [done|done|].
  split_and!; [by cbn; rewrite Eh|done..].
Qed.

Lemma ends_destroying h (x : TrayHost) :
  terminated x = false → worker x = Destroying h → closing false h (tray x) (desk x) → ends 3 x.
Proof.
  intros Ht Ew (Hh & Eh & Hi & Hs & q & Hq & Hv).
  pose proof (destroy_window_view h (desk x)) as Hd. destruct (destroy_window h (desk x)) as [[] b] eqn:Ed.
  cbn in Hd. rewrite Hv in Hd. unfold destroyed in Hd. cbn in Hd. rewrite bool_decide_true in Hd by done.
  assert (E : UiThreadStep x = Some (MkHost (tray x) b Looping (joinable x) (starter x) (stopper x) (terminated x))).
  { unfold TrayHost.UiThreadStep, with_ui, mthen, mret. rewrite Ew. cbn. by rewrite Ed. }
  eapply ends_step; [done|exact E|done|]. apply ends_closed; [done|done|].
  split_and!; [by cbn; rewrite Eh|done..].
Qed.

Lemma ends_open pre post (x : TrayHost) :
  terminated x = false → worker x = Looping →
  opened (hwnd_ (tray x)) (pre ++ WmClose :: post) (tray x) (desk x) → ends (length pre + 5) x.
Proof.
  intros Ht. revert post x Ht. induction pre as [|m pre IH]; intros post x Ht Ew Ho;
    pose proof (turn_opened x _ Ew Ho) as Hturn; cbn [app] in Hturn;
    destruct Hturn as (t & b & pc & E & _ & Hr); cbn [length Nat.add]; (eapply ends_step; [done|exact E|done|]).
  - destruct Hr as [[? _]|(_ & -> & Hc)]; [done|]. by eapply ends_unmarking.
  - destruct Hr as [(_ & -> & more & Hm)|(_ & -> & Hc)]; [|eapply ends_le; [|by eapply ends_unmarking]; lia].
    rewrite <- app_assoc in Hm. cbn in Hm. pose proof (proj1 (proj2 Hm)) as Eh.
    apply (IH (post ++ more)); cbn; [done|done|by rewrite Eh].
Qed.

Definition waiting (x : TrayHost) : nat := length (dk_posted (view (desk x))).

Lemma ends_looping (x : TrayHost) :
  sound x → terminated x = false → stopRequested_ (tray x) = true → stopper x = Joining →
  worker x = Looping → ends (waiting x + 4) x.
Proof.
  intros [Hph Hhd _ _] Ht Hstop Hj Ew. unfold phase, heard in *. rewrite Ew in *.
  destruct Hph as [[q Ho]|Hc]; [|eapply ends_le; [|by apply ends_closed]; lia].
  destruct (Hhd Hstop q Ho) as [_ [Hin|[?|[? ?]]]]; [|congruence..].
  apply list_elem_of_split in Hin as (pre & post & ->).
  eapply ends_le; [|by apply (ends_open pre post)].
  unfold waiting. rewrite (proj2 (proj2 (proj2 (proj2 (proj2 Ho))))). cbn. rewrite length_app. cbn. lia.
Qed.

Lemma ends_checking h (x : TrayHost) :
  sound x → terminated x = false → stopRequested_ (tray x) = true → stopper x = Joining →
  worker x = Checking h → ends (waiting x + 6) x.
Proof.
  intros Hx Ht Hstop Hj Ew. pose proof (sound_phase _ Hx) as Hph. unfold phase in Hph. rewrite Ew in Hph.
  destruct Hph as [q Ho]. destruct (PostMessageW h WmClose (desk x)) as [ok b] eqn:Ep.
  pose proof (opened_post h q _ _ WmClose _ _ Ho ltac:(done) Ep) as Ho'.
  assert (E : UiThreadStep x = Some (MkHost (tray x) b Looping (joinable x) (starter x) (stopper x) (terminated x))).
  { unfold TrayHost.UiThreadStep, with_ui. rewrite Ew, Hstop. unfold mthen, mret. cbn. by rewrite Ep. }
  pose proof (sound_worker _ _ Hx E) as Hy.
  eapply ends_le; [|eapply ends_step; [done|exact E|done|by apply ends_looping]].
  unfold waiting. cbn [desk]. rewrite (proj2 (proj2 (proj2 (proj2 (proj2 Ho'))))),
    (proj2 (proj2 (proj2 (proj2 (proj2 Ho))))). cbn. rewrite length_app. cbn. lia.
Qed.

Lemma ends_telling e h icon (x : TrayHost) :
  sound x → terminated x = false → stopRequested_ (tray x) = true → stopper x = Joining →
  worker x = Telling e h icon → ends (waiting x + 7) x.
Proof.
  intros Hx Ht Hstop Hj Ew. destruct (UiThreadStep x) as [y|] eqn:E; unfold TrayHost.UiThreadStep in E;
    rewrite Ew in E; [|done].
  assert (Es : UiThreadStep x = Some y) by (unfold TrayHost.UiThreadStep; by rewrite Ew).
  pose proof (sound_worker _ _ Hx Es) as Hy. injection E as <-. destruct e as [e|].
  - eapply ends_le; [|eapply ends_step; [done|exact Es|done|apply ends_last; [done|by right]]]. lia.
  - eapply ends_le; [|eapply ends_step; [done|exact Es|done|by eapply ends_checking]].
    unfold waiting. cbn [desk]. lia.
Qed.

Lemma ends_creating (x : TrayHost) :
  sound x → terminated x = false → stopRequested_ (tray x) = true → stopper x = Joining →
  worker x = Creating → ends 8 x.
Proof.
  intros Hx Ht Hstop Hj Ew. pose proof (sound_phase _ Hx) as Hph. unfold phase in Hph. rewrite Ew in Hph.
  destruct Hph as (Hv & _). destruct (create_tray tooltip (desk x)) as [[[e h] icon] b] eqn:Ec.
  assert (E : UiThreadStep x = Some (MkHost (tray x) b (Telling e h icon) (joinable x) (starter x) (stopper x) (terminated x))).
  { unfold TrayHost.UiThreadStep. by rewrite Ew, Ec. }
  pose proof (sound_worker _ _ Hx E) as Hy. apply create_tray_spec in Ec; [|done]. destruct e as [e|].
  - assert (E2 : UiThreadStep (MkHost (tray x) b (Telling (Some e) h icon) (joinable x) (starter x) (stopper x) (terminated x)) =
      Some (MkHost (publish (Some e) h icon (tray x)) b Failing (joinable x) (starter x) (stopper x) (terminated x))) by done.
    eapply ends_le; [|eapply ends_step; [done|exact E|done|]; eapply ends_step; [done|exact E2|done|];
      apply ends_last; [done|by right]]. lia.
  - destruct Ec as (_ & _ & Hd). eapply ends_le; [|eapply ends_step; [done|exact E|done|by eapply ends_telling]].
    unfold waiting. cbn [desk]. rewrite Hd. cbn. lia.
Qed.

(** C13. [Stop] returns. When it waits for the thread, and no [Start] has taken its request
    back, the thread has at most one step to make for every message that waits at the
    window and eight of its own, is never stuck before, and then [Stop] returns;
    it leaves no window and no icon. *)
Theorem TrayHost_Stop_returns l b0 (x : TrayHost) :
  nothing b0 → acts l (NewTrayHost b0) = Some x → terminated x = false →
  stopper x = Joining → stopRequested_ (tray x) = true →
  ∃ n y, (n <= waiting x + 8)%nat ∧ acts (repeat AWorker n ++ [AStopStep]) x = Some y ∧
    stopper y = NotStopping ∧ worker y = Over ∧ nothing (desk y) ∧
    WindowHandle (tray y) = 0 ∧ IsIconAdded (tray y) = false.
Proof.
  intros Hb E0 Ht Hj Hstop. pose proof (sound_acts _ _ _ (sound_new _ Hb) E0) as Hx.
  assert (ends (waiting x + 8) x) as (n & y & Hn & E & Hw & Hs & Hty).
  { pose proof (sound_phase _ Hx) as Hph. unfold phase in Hph.
    destruct (worker x) as [| |e h icon|h| |h|h| | |] eqn:Ew.
    - destruct (sound_step _ Hx) as [_ Hnt]. by destruct (Hnt Hj).
    - eapply ends_le; [|by apply ends_creating]. lia.
    - eapply ends_le; [|by eapply ends_telling]. lia.
    - eapply ends_le; [|by eapply ends_checking]. lia.
    - eapply ends_le; [|by apply ends_looping]. lia.
    - eapply ends_le; [|by eapply ends_unmarking]. lia.
    - eapply ends_le; [|by eapply ends_destroying]. lia.
    - eapply ends_le; [|apply ends_last; [done|by right]]. lia.
    - eapply ends_le; [|apply ends_last; [done|by left]]. lia.
    - eapply ends_le; [|by apply ends_now]. lia. }
  pose proof (sound_acts _ _ _ Hx E) as [Hph _ _ _]. unfold phase in Hph. rewrite Hw in Hph.
  destruct Hph as (Hno & [Hh Hi] & _).
  exists n, (at_stop y (tray y) NotStopping). split; [done|].
  rewrite host_acts_app, E. cbn [TrayHost.acts]. unfold TrayHost.act. rewrite Hty. unfold StopStep.
  rewrite Hs, Hj, Hw. split_and!; done.
Qed.
End Laws.

(** ** Examples *)

(** A desktop on which every call succeeds, and the user of the menu always
    chooses to exit. *)
Section Witnesses.
#[local] Instance quiet : SystemMessages := no_messages.

#[local] Instance desk_shell : ShellApi Desktop := {|
  Shell_NotifyIconW m n d :=
    (true, MkDesktop (dk_window d)
       (match m with
        | NIM_ADD => Some (nid_hWnd n)
        | NIM_DELETE => if bool_decide (dk_icon d = Some (nid_hWnd n)) then None else dk_icon d
        end) (dk_posted d) (dk_quit d));
  shell_error _ := 0
|}.

#[local] Instance desk_calls : TrayCalls Desktop := {|
  RegisterClassExW := mret None;
  CreateWindowExW d := (Some 7, MkDesktop (Some 7) (dk_icon d) (dk_posted d) (dk_quit d));
  window_error _ := 0;
  DestroyWindow h d := (tt, destroyed h d);
  PostMessageW h m d := (bool_decide (dk_window d = Some h), post_to h m d);
  PostQuitMessage d := (tt, quitting d);
  has_message d := negb (bool_decide (dk_posted d = [])) || dk_quit d;
  GetMessageW d :=
    match dk_posted d with
    | m :: rest => (Some m, MkDesktop (dk_window d) (dk_icon d) rest (dk_quit d))
    | [] => (None, MkDesktop (dk_window d) (dk_icon d) [] false)
    end;
  UnregisterClassW := mret tt;
  GetCursorPos := mret true;
  CreatePopupMenu := mret true;
  TrackPopupMenu _ := mret kTrayExitCommandId;
  start_thread d := (tt, fresh_thread d)
|}.

#[local] Instance desk_laws : TrayLaws Desktop.
Proof.
  refine {| view d := d |}; try done.
  - intros b. cbn. destruct (dk_posted b); [done|done].
Defined.

Definition no_desktop : Desktop := MkDesktop None None [] false.
Notation run l := (acts (widen "host") (Some (mret tt)) None l (NewTrayHost no_desktop)).

Definition started : list Action :=
  [AStart; AReset; ASpawn true; AWorker; AWorker; AWorker; AWake false; AJudge].

(** A right click, the exit chosen, and [Stop] from outside. *)
Definition clicked : list Action := started ++ [AMessage (TrayCallback WM_RBUTTONUP); AStop; AStopStep; AStopStep; AStopStep].

Lemma TrayHost_tidy_witness :
  ∃ x, run started = Some x ∧ starter x = Outside (Some (Success tt)) ∧
    GetState (tray x) = Running ∧ dk_icon (desk x) = Some (WindowHandle (tray x)).
Proof.
  destruct (run started) as [x|] eqn:E; [|vm_compute in E; discriminate E].
  assert (Hb : nothing no_desktop) by (split; reflexivity).
  destruct (TrayHost_tidy (widen "host") (Some (mret tt)) None ltac:(by intros ? [= <-]) ltac:(done)
    started no_desktop x Hb E) as (_ & Hi & _).
  exists x. split; [reflexivity|]. vm_compute in E. injection E as <-.
  split; [reflexivity|]. destruct (Hi eq_refl) as (Hs & _ & [Hd|Hd]); [|discriminate Hd].
  split; [exact Hs|exact Hd].
Defined.

(** What the end of [clicked] looks like: the thread is waited for. *)
Definition awaited (x : TrayHost (B := Desktop)) : bool :=
  negb (terminated x) && stopRequested_ (tray x) &&
  match stopper x with Joining => true | _ => false end.

Lemma awaited_facts (x : TrayHost (B := Desktop)) :
  awaited x = true → terminated x = false ∧ stopper x = Joining ∧ stopRequested_ (tray x) = true.
Proof. unfold awaited. destruct (terminated x), (stopRequested_ (tray x)), (stopper x); try done. Qed.

Lemma clicked_reached : match run clicked with Some x => awaited x | None => false end = true.
Proof. by vm_compute. Qed.

Lemma no_call_preserves (call : M Desktop unit) :
  Some (mret tt) = Some call → preserves view call.
Proof. intros H. injection H as H. rewrite <- H. intros w. reflexivity. Qed.

Lemma no_handler_preserves (f : TrayMessage → M Desktop bool) m : None = Some f → preserves view (f m).
Proof. done. Qed.

Lemma no_desktop_nothing : nothing no_desktop.
Proof. by split. Qed.

Lemma TrayHost_Stop_returns_witness :
  ∃ x n y, run clicked = Some x ∧ (n <= waiting x + 8)%nat ∧
    acts (widen "host") (Some (mret tt)) None (repeat AWorker n ++ [AStopStep]) x = Some y ∧
    stopper y = NotStopping ∧ nothing (desk y).
Proof.
  pose proof clicked_reached as Hc. destruct (run clicked) as [x|] eqn:E; [|discriminate Hc].
  destruct (awaited_facts x Hc) as (Ht & Hj & Hs).
  destruct (TrayHost_Stop_returns (widen "host") (Some (mret tt)) None no_call_preserves no_handler_preserves
    clicked no_desktop x no_desktop_nothing E Ht Hj Hs) as (n & y & Hn & Ey & Hy & _ & Hno & _).
  exists x, n, y. split; [reflexivity|]. split; [exact Hn|]. split; [exact Ey|]. split; [exact Hy|exact Hno].
Defined.

(** The actions of clients and of the thread that do not need anybody else. *)
Definition own_actions : list Action :=
  [AStart; AReset; ASpawn true; AWake false; AWake true; AJudge; AJoinStart; AStopStep; AWorker].

(** Nothing goes on by itself. *)
Definition stuck (x : TrayHost (B := Desktop)) : bool :=
  forallb (λ a, match act (widen "host") (Some (mret tt)) None a x with None => true | Some _ => false end) own_actions.

(** A start that takes longer than five seconds and then succeeds never returns:
    it waits for a thread that runs its window. *)
Lemma late_start_hangs :
  ∃ x, run [AStart; AReset; ASpawn true; AWake true; AJudge; AWorker; AWorker; AWorker] = Some x ∧
    starter x = JoiningStart timeout_error ∧ GetState (tray x) = Running ∧ stuck x = true.
Proof. eexists. split; [vm_compute; reflexivity|]. by vm_compute. Qed.

(** After the exit of the menu the host is idle, and the next [Start] brings the
    process down: the thread that is over has not been joined. *)
Lemma restart_terminates :
  ∃ x y, run (started ++ [AMessage (WmCommand kTrayExitCommandId); AWorker; AWorker; AWorker; AWorker; AWorker; AWorker]) = Some x ∧
    GetState (tray x) = Idle ∧
    acts (widen "host") (Some (mret tt)) None [AStart; AReset; ASpawn true] x = Some y ∧ terminated y = true.
Proof. eexists _, _. split; [vm_compute; reflexivity|]. split; [done|]. split; [vm_compute; reflexivity|done]. Qed.

(** A [Stop] that comes while another thread is in [Start] may wait for ever: its
    request is taken back, and its message had no window to go to. *)
Lemma stop_during_start_hangs :
  ∃ x, run [AStart; AStop; AReset; ASpawn true; AStopStep; AStopStep; AWorker; AWorker; AWorker;
            AWake false; AJudge] = Some x ∧
    starter x = Outside (Some (Success tt)) ∧ stopper x = Joining ∧
    acts (widen "host") (Some (mret tt)) None [AWorker] x = None ∧
    acts (widen "host") (Some (mret tt)) None [AStopStep] x = None.
Proof. eexists. split; [vm_compute; reflexivity|]. by vm_compute. Qed.
End Witnesses.
