(* ===== verification/IpcSession.v ===== *)
(** Sessions over the named pipe ([ipc/ipc_session.hpp],
    [source/ipc/ipc_session.cpp]): the server loop with its gates, default
    handler and verdicts, the client's round trips, and the pacing of periodic
    reports. The pipe is the classes [IpcServerBackend] and [IpcClientBackend],
    the virtual interfaces of the source; wide strings are lists of code units,
    and [towlower] is the C library's. *)

From S2P Require Import Prelude CommonError Timing IpcProtocol IpcFacts.

Open Scope string_scope.
Open Scope list_scope.
Open Scope Z_scope.

(** ** Data *)

Module IpcErrorCode.
Inductive IpcErrorCode :=
  | InvalidHeader | UnsupportedType | HandlerFailed | Internal | InvalidFacts
  | UnauthorizedClient | AuthFailed.
End IpcErrorCode.
Abbreviation IpcErrorCode := IpcErrorCode.IpcErrorCode.

Definition error_code_value (c : IpcErrorCode) : Z :=
  match c with
  | IpcErrorCode.InvalidHeader => 0x01
  | IpcErrorCode.UnsupportedType => 0x03
  | IpcErrorCode.HandlerFailed => 0x04
  | IpcErrorCode.Internal => 0x05
  | IpcErrorCode.InvalidFacts => 0x06
  | IpcErrorCode.UnauthorizedClient => 0x07
  | IpcErrorCode.AuthFailed => 0x08
  end.

(** The name of a code on the wire. *)
Definition IpcErrorCodeToString (code : Z) : string :=
  if code =? 0x01 then "invalid header"
  else if code =? 0x03 then "unsupported message type"
  else if code =? 0x04 then "handler failed"
  else if code =? 0x05 then "internal error"
  else if code =? 0x06 then "invalid facts payload"
  else if code =? 0x07 then "unauthorized client"
  else if code =? 0x08 then "authentication failed"
  else "unknown error".

Record IpcRequest := MkRequest {
  req_type : IpcMessageType;
  req_id : Z;
  req_payload : list byte;
  req_clientPid : Z;
  req_clientSessionId : Z
}.

Record IpcReply := MkReply { rep_type : IpcMessageType; rep_payload : list byte }.

Module IpcSessionEndReason.
Inductive IpcSessionEndReason := ClientClosed | IdleTimeout | SessionBudget.
End IpcSessionEndReason.
Abbreviation IpcSessionEndReason := IpcSessionEndReason.IpcSessionEndReason.

Definition IpcSessionEndReasonToString (r : IpcSessionEndReason) : string :=
  match r with
  | IpcSessionEndReason.ClientClosed => "client closed"
  | IpcSessionEndReason.IdleTimeout => "idle timeout"
  | IpcSessionEndReason.SessionBudget => "session budget"
  end.

Module IpcClientVerdict.
Inductive IpcClientVerdict := Accepted | UnauthorizedClient | AuthFailed.
End IpcClientVerdict.
Abbreviation IpcClientVerdict := IpcClientVerdict.IpcClientVerdict.

Record IpcServeResult := MkServeResult {
  requestType : IpcMessageType;
  replyType : IpcMessageType;
  res_requestId : Z;
  res_clientPid : Z;
  res_clientSessionId : Z;
  res_clientUserSid : wstring;
  payloadBytes : Z;
  framesServed : Z;
  endReason : IpcSessionEndReason
}.

Record IpcClientIdentity := MkIdentity {
  id_pid : Z;
  id_sessionId : Z;
  id_userSid : wstring
}.

Definition DefaultClientGate (c : IpcClientIdentity) : Result unit :=
  if id_pid c =? 0 then
    Failure (Validation "DefaultClientGate" "客户端 PID 不可识别（0），拒绝受理")
  else if id_sessionId c =? 0 then
    Failure (Validation "DefaultClientGate" "客户端位于会话 0（非交互），拒绝受理")
  else Success tt.

Definition AllowAllClientGate (c : IpcClientIdentity) : Result unit := Success tt.

(** [clientGate] is empty when [None]. *)
Record SessionOptions := MkOptions {
  ioTimeout : Z;
  clientGate : option (IpcClientIdentity → Result unit);
  persistentAccept : bool;
  allowedClientSids : list wstring;
  expectedToken : wstring
}.

(** What [Options] starts as. *)
Definition session_defaults : SessionOptions := MkOptions 3000 (Some DefaultClientGate) false [] [].

(** ** Helpers *)

Definition MakeFrame (t : IpcMessageType) (id : Z) (payload : list byte) : list byte :=
  SerializeHeader (MakeIpcHeader t (u32 (len payload)) id) ++ payload.

Fixpoint token_loop (token : string) (expected : wstring) : bool :=
  match token, expected with
  | String c token', e :: expected' =>
      if 0x7F <? e then false
      else if negb (code c =? e) then false
      else token_loop token' expected'
  | _, _ => true
  end.

Definition TokenMatches (token : string) (expected : wstring) : bool :=
  if negb (strlen token =? len expected) then false else token_loop token expected.

Class WideLibrary := towlower : Z → Z.

Fixpoint sid_loop `{WideLibrary} (a b : wstring) : bool :=
  match a, b with
  | x :: a', y :: b' => if negb (towlower x =? towlower y) then false else sid_loop a' b'
  | _, _ => true
  end.

Definition SidEqualsIgnoreCase `{WideLibrary} (a b : wstring) : bool :=
  if negb (len a =? len b) then false else sid_loop a b.

Definition error_reply (c : IpcErrorCode) : IpcReply :=
  MkReply IpcMessageType.Error [byte_of_Z (error_code_value c)].

Definition DefaultHandler (request : IpcRequest) (expected : wstring) : Result IpcReply :=
  match req_type request with
  | IpcMessageType.Ping => Success (MkReply IpcMessageType.Ack [])
  | IpcMessageType.FactsSnapshot =>
      match ParseFactsV1 (req_payload request) with
      | Failure _ => Success (error_reply IpcErrorCode.InvalidFacts)
      | Success facts =>
          if negb (HasValue (ValidateFactsV1Schema facts)) then
            Success (error_reply IpcErrorCode.InvalidFacts)
          else
            let matched := existsb (λ f, String.eqb (key f) kFactsTokenKey &&
                                         TokenMatches (value f) expected) facts in
            if negb (len expected =? 0) && negb matched then
              Success (error_reply IpcErrorCode.AuthFailed)
            else Success (MkReply IpcMessageType.Ack
                            (BytesFromText (FormatFactsSummary facts)))
      end
  | _ => Failure (Validation "DefaultHandler" "不支持的消息类型")
  end.

(** ** The server *)

(** The pipe server with the steady clock, in nanoseconds. *)
Class IpcServerBackend (S : Type) := {
  CreateAndListen : M S (Result unit);
  AcceptClient : Z → M S (Result unit);
  ReadAll : nat → Z → M S (Result (list byte));
  WriteAll : list byte → Z → M S (Result unit);
  DisconnectClient : M S (Result unit);
  CloseServer : M S unit;
  ClientPid : S → Z;
  ClientSessionId : S → Z;
  ClientUserSid : S → wstring;
  steady_now : M S Z
}.

(** A handler may have effects of its own. *)
Definition Handler (S : Type) : Type := IpcRequest → M S (Result IpcReply).

(** What the session did, for the theorems: the verdicts given to the observer,
    and the requests handed to the handler with the client they came from and
    what the handler said. *)
Record Log := MkLog {
  verdicts : list IpcClientVerdict;
  handled : list (IpcClientIdentity * IpcRequest * Result IpcReply)
}.

Section Server.
Context {S : Type} `{IpcServerBackend S} `{WideLibrary} `{SystemMessages}.

Definition io {A} (m : M S A) : M (S * Log) A := λ '(s, l),
  let '(a, s') := m s in (a, (s', l)).

Definition emitVerdict (v : IpcClientVerdict) : M (S * Log) unit := λ '(s, l),
  (tt, (s, MkLog (verdicts l ++ [v]) (handled l))).

Definition log_handled (c : IpcClientIdentity) (r : IpcRequest) (p : Result IpcReply)
  : M (S * Log) unit := λ '(s, l),
  (tt, (s, MkLog (verdicts l) (handled l ++ [(c, r, p)]))).

Definition SendErrorReply (id : Z) (c : IpcErrorCode) (timeout : Z) : M (S * Log) unit :=
  io (WriteAll (MakeFrame IpcMessageType.Error id [byte_of_Z (error_code_value c)]) timeout) ;;;
  mret tt.

Definition drainAndDisconnect (o : SessionOptions) : M (S * Log) unit :=
  io (ReadAll 1 (ioTimeout o)) ;;; io DisconnectClient ;;; mret tt.

Definition closeUnlessPersistent (o : SessionOptions) : M (S * Log) unit :=
  if negb (persistentAccept o) then io CloseServer else mret tt.

(** [DisconnectClient]; [closeUnlessPersistent]; [return Failure(e)]. *)
Definition abandon {A} (o : SessionOptions) (e : Error) : M (S * Log) (Result A) :=
  io DisconnectClient ;;; closeUnlessPersistent o ;;; mret (Failure e).

(** The same after an error reply, which the client is given time to read. *)
Definition refuse {A} (o : SessionOptions) (id : Z) (c : IpcErrorCode)
    (v : option IpcClientVerdict) (e : Error) : M (S * Log) (Result A) :=
  SendErrorReply id c (ioTimeout o) ;;;
  (match v with Some v => emitVerdict v | None => mret tt end) ;;;
  drainAndDisconnect o ;;; closeUnlessPersistent o ;;; mret (Failure e).

Definition sid_allowed (o : SessionOptions) (c : IpcClientIdentity) : bool :=
  match allowedClientSids o with
  | [] => true
  | sids => existsb (λ sid, SidEqualsIgnoreCase (id_userSid c) sid) sids
  end.

Definition gate_verdict (o : SessionOptions) (c : IpcClientIdentity) : Result unit :=
  match clientGate o with Some gate => gate c | None => Success tt end.

(** One frame ends the session for a reason, fails, or is answered. *)
Inductive FrameOutcome :=
  | FrameEnd (reason : IpcSessionEndReason)
  | FrameServed (last : IpcServeResult) (authRejected : bool).

Definition auth_failed_reply (r : IpcReply) : bool :=
  bool_decide (rep_type r = IpcMessageType.Error) &&
  match rep_payload r with
  | [b] => Z_of_byte b =? error_code_value IpcErrorCode.AuthFailed
  | _ => false
  end.

(** From a request of an identified client to the written reply. *)
Definition answer_request (o : SessionOptions) (handler : option (Handler S))
    (identity : IpcClientIdentity) (request : IpcRequest)
  : M (S * Log) (Result FrameOutcome) :=
  match gate_verdict o identity with
  | Failure e =>
      refuse o (req_id request) IpcErrorCode.UnauthorizedClient
        (Some IpcClientVerdict.UnauthorizedClient) e
  | Success _ =>
      if negb (sid_allowed o identity) then
        refuse o (req_id request) IpcErrorCode.UnauthorizedClient
          (Some IpcClientVerdict.UnauthorizedClient)
          (Validation "SessionSidGate" "客户端用户不在授权白名单")
      else
        out <-- (match handler with
                 | Some h => io (h request)
                 | None => mret (DefaultHandler request (expectedToken o))
                 end) ;;
        log_handled identity request out ;;;
        match out with
        | Failure e =>
            refuse o (req_id request)
              (match handler with
               | Some _ => IpcErrorCode.HandlerFailed
               | None => IpcErrorCode.UnsupportedType
               end) None e
        | Success reply =>
            match ValidateIpcHeader (MakeIpcHeader (rep_type reply)
                    (u32 (len (rep_payload reply))) (req_id request)) with
            | Failure e => abandon o e
            | Success _ =>
                written <-- io (WriteAll (MakeFrame (rep_type reply) (req_id request)
                                            (rep_payload reply)) (ioTimeout o)) ;;
                match written with
                | Failure e => abandon o e
                | Success _ =>
                    mret (Success (FrameServed
                      (MkServeResult (req_type request) (rep_type reply) (req_id request)
                         (req_clientPid request) (req_clientSessionId request)
                         (id_userSid identity) (u32 (len (req_payload request)))
                         1 IpcSessionEndReason.ClientClosed)
                      (auth_failed_reply reply)))
                end
            end
        end
  end.

(** After the header bytes: the payload, the request and its client. *)
Definition serve_header (o : SessionOptions) (handler : option (Handler S))
    (headerBytes : list byte) : M (S * Log) (Result FrameOutcome) :=
  match ParseHeader headerBytes with
  | Failure e => refuse o 0 IpcErrorCode.InvalidHeader None e
  | Success header =>
      payload <-- (if 0 <? payloadLength header
                   then io (ReadAll (Z.to_nat (payloadLength header)) (ioTimeout o))
                   else mret (Success [])) ;;
      match payload, ParseMessageType (type header) with
      | Failure e, _ => abandon o e
      | Success _, None => mret (Failure (Validation "ServeLoop" "bad_optional_access"))
      | Success bytes, Some t => λ '(s, l),
          let request := MkRequest t (requestId header) bytes (ClientPid s)
                           (ClientSessionId s) in
          let identity := MkIdentity (req_clientPid request)
                            (req_clientSessionId request) (ClientUserSid s) in
          answer_request o handler identity request (s, l)
      end
  end.

(** One turn of the loop; [frames] have been served before. *)
Definition serve_frame (o : SessionOptions) (handler : option (Handler S))
    (idleTimeout sessionDeadline : Z) (limitedFrames : bool) (frames : Z)
  : M (S * Log) (Result FrameOutcome) :=
  remaining <-- (if limitedFrames then mret 1
                 else now <-- io steady_now ;;
                      mret (Z.quot (sessionDeadline - now) 1000000)) ;;
  if negb limitedFrames && (remaining <=? 0) then
    if frames =? 0 then abandon o (FromWin32 ERROR_TIMEOUT "ServeSession")
    else mret (Success (FrameEnd IpcSessionEndReason.SessionBudget))
  else
    let headerTimeout := if limitedFrames then ioTimeout o else Z.min idleTimeout remaining in
    readHeader <-- io (ReadAll kIpcHeaderSize headerTimeout) ;;
    match readHeader with
    | Failure error =>
        let clientClosed := is_win32 error ERROR_BROKEN_PIPE || is_win32 error ERROR_NO_DATA in
        if clientClosed && (0 <? frames) then
          mret (Success (FrameEnd IpcSessionEndReason.ClientClosed))
        else if is_win32 error ERROR_TIMEOUT && (0 <? frames) then
          mret (Success (FrameEnd (if headerTimeout =? idleTimeout
                                   then IpcSessionEndReason.IdleTimeout
                                   else IpcSessionEndReason.SessionBudget)))
        else abandon o error
    | Success bytes => serve_header o handler bytes
    end.

(** The end of a session that served its frames. *)
Definition finish_session (o : SessionOptions) (last : IpcServeResult) (frames : Z)
    (reason : IpcSessionEndReason) (authRejected : bool)
  : M (S * Log) (Result IpcServeResult) :=
  drainAndDisconnect o ;;; closeUnlessPersistent o ;;;
  emitVerdict (if authRejected then IpcClientVerdict.AuthFailed
               else IpcClientVerdict.Accepted) ;;;
  mret (Success (MkServeResult (requestType last) (replyType last) (res_requestId last)
    (res_clientPid last) (res_clientSessionId last) (res_clientUserSid last)
    (payloadBytes last) frames reason)).

Definition default_result : IpcServeResult :=
  MkServeResult IpcMessageType.Ping IpcMessageType.Ack 0 0 0 [] 0 1
    IpcSessionEndReason.ClientClosed.

(** [None]: still serving after [fuel] turns. *)
Fixpoint serve_frames (fuel : nat) (o : SessionOptions) (handler : option (Handler S))
    (idleTimeout sessionDeadline maxFrames : Z) (frames : Z) (last : IpcServeResult)
    (authRejected : bool) : M (S * Log) (option (Result IpcServeResult)) :=
  match fuel with
  | O => mret None
  | Datatypes.S fuel' =>
      let limitedFrames := negb (maxFrames =? 0) in
      out <-- serve_frame o handler idleTimeout sessionDeadline limitedFrames frames ;;
      match out with
      | Failure e => mret (Some (Failure e))
      | Success (FrameEnd reason) =>
          r <-- finish_session o last frames reason authRejected ;; mret (Some r)
      | Success (FrameServed last' rejected) =>
          let frames' := u32 (frames + 1) in
          let authRejected' := authRejected || rejected in
          if limitedFrames && (maxFrames <=? frames') then
            r <-- finish_session o last' frames' IpcSessionEndReason.ClientClosed
                    authRejected' ;; mret (Some r)
          else serve_frames fuel' o handler idleTimeout sessionDeadline maxFrames frames'
                 last' authRejected'
      end
  end.

Definition ServeLoop (fuel : nat) (o : SessionOptions) (handler : option (Handler S))
    (acceptTimeout idleTimeout sessionBudget maxFrames : Z)
  : M (S * Log) (option (Result IpcServeResult)) :=
  now <-- io steady_now ;;
  let sessionDeadline := now + ns_of_millis sessionBudget in
  created <-- io CreateAndListen ;;
  match created with
  | Failure e => mret (Some (Failure e))
  | Success _ =>
      accepted <-- io (AcceptClient acceptTimeout) ;;
      match accepted with
      | Failure e => closeUnlessPersistent o ;;; mret (Some (Failure e))
      | Success _ =>
          serve_frames fuel o handler idleTimeout sessionDeadline maxFrames 0
            default_result false
      end
  end.

Definition ServeOne (fuel : nat) (o : SessionOptions) (handler : option (Handler S))
    (acceptTimeout : Z) : M (S * Log) (option (Result IpcServeResult)) :=
  ServeLoop fuel o handler acceptTimeout (ioTimeout o) (ioTimeout o) 1.

Definition ServeSession (fuel : nat) (o : SessionOptions) (handler : option (Handler S))
    (acceptTimeout idleTimeout sessionBudget : Z)
  : M (S * Log) (option (Result IpcServeResult)) :=
  if (idleTimeout <=? 0) || (sessionBudget <=? 0) then
    mret (Some (Failure (Validation "ServeSession" "idleTimeout 与 sessionBudget 必须为正")))
  else ServeLoop fuel o handler acceptTimeout idleTimeout sessionBudget 0.
End Server.

(** ** The client *)

Class IpcClientBackend (S : Type) := {
  Connect : string → Z → M S (Result unit);
  ClientWriteAll : list byte → Z → M S (Result unit);
  ClientReadAll : nat → Z → M S (Result (list byte));
  CloseClient : M S unit
}.

Record IpcFrameRequest := MkFrameRequest {
  fr_type : IpcMessageType;
  fr_payload : list byte;
  fr_requestId : Z
}.

(** [static_cast<IpcErrorCode>(replyPayload[0])], [Internal] when empty. *)
Definition reply_code (replyPayload : list byte) : Z :=
  match replyPayload with
  | [] => error_code_value IpcErrorCode.Internal
  | b :: _ => Z_of_byte b
  end.

Section Client.
Context {S : Type} `{IpcClientBackend S} `{SystemMessages}.

(** The request is written and the bytes of the reply are read; the callers
    close the connection on every failure. *)
Definition exchange (frame : IpcFrameRequest) (timeout : Z)
  : M S (Result (IpcHeader * list byte)) :=
  written <-- ClientWriteAll (MakeFrame (fr_type frame) (fr_requestId frame)
                                (fr_payload frame)) timeout ;;
  match written with
  | Failure e => mret (Failure e)
  | Success _ =>
      readHeader <-- ClientReadAll kIpcHeaderSize timeout ;;
      match readHeader with
      | Failure e => mret (Failure e)
      | Success headerBytes =>
          match ParseHeader headerBytes with
          | Failure e => mret (Failure e)
          | Success header =>
              if 0 <? payloadLength header then
                readPayload <-- ClientReadAll (Z.to_nat (payloadLength header)) timeout ;;
                match readPayload with
                | Failure e => mret (Failure e)
                | Success payload => mret (Success (header, payload))
                end
              else mret (Success (header, []))
          end
      end
  end.

(** The reply must carry the request's id and must not be an error. *)
Definition check_reply (op : string) (requestId0 : Z) (header : IpcHeader)
    (replyPayload : list byte) : Result IpcReply :=
  if negb (requestId header =? requestId0) then
    Failure (Validation op "应答 requestId 与请求不匹配")
  else
    match ParseMessageType (type header) with
    | None => Failure (Validation op "bad_optional_access")
    | Some IpcMessageType.Error =>
        Failure (Validation op ("服务端返回错误: " +:+
                                IpcErrorCodeToString (reply_code replyPayload)))
    | Some t => Success (MkReply t replyPayload)
    end.

Definition IpcRoundTrip (pipePath : string) (t : IpcMessageType) (payload : list byte)
    (requestId0 timeout : Z) : M S (Result IpcReply) :=
  connected <-- Connect pipePath timeout ;;
  match connected with
  | Failure e => mret (Failure e)
  | Success _ =>
      out <-- exchange (MkFrameRequest t payload requestId0) timeout ;;
      CloseClient ;;;
      match out with
      | Failure e => mret (Failure e)
      | Success (header, replyPayload) =>
          mret (check_reply "IpcRoundTrip" requestId0 header replyPayload)
      end
  end.

Fixpoint round_trips (requests : list IpcFrameRequest) (timeout : Z)
    (replies : list IpcReply) : M S (Result (list IpcReply)) :=
  match requests with
  | [] => CloseClient ;;; mret (Success replies)
  | frame :: rest =>
      out <-- exchange frame timeout ;;
      match out with
      | Failure e => CloseClient ;;; mret (Failure e)
      | Success (header, replyPayload) =>
          match check_reply "IpcRoundTripSession" (fr_requestId frame) header replyPayload with
          | Failure e => CloseClient ;;; mret (Failure e)
          | Success reply => round_trips rest timeout (replies ++ [reply])
          end
      end
  end.

Definition IpcRoundTripSession (pipePath : string) (requests : list IpcFrameRequest)
    (timeout : Z) : M S (Result (list IpcReply)) :=
  match requests with
  | [] => mret (Success [])
  | _ =>
      connected <-- Connect pipePath timeout ;;
      match connected with
      | Failure e => mret (Failure e)
      | Success _ => round_trips requests timeout []
      end
  end.
End Client.

(** ** The pace of periodic reports *)

(** At most [n] doublings, up to [cap]. *)
Fixpoint double_gap (n : nat) (gap cap : Z) : Z :=
  match n with
  | O => gap
  | Datatypes.S n' =>
      if gap <? cap then
        if Z.quot cap 2 <? gap then cap
        else double_gap n' (if cap <? gap * 2 then cap else gap * 2) cap
      else gap
  end.

Definition IpcReportGapAfterFailures (consecutiveFailures : nat) (base cap : Z) : Z :=
  if cap <=? 0 then base
  else double_gap consecutiveFailures (if cap <? base then cap else base) cap.

Definition IpcReportGapAfterUserIdle
    (idleSeconds base awayAfterSeconds awayStepSeconds awayCap : Z) : Z :=
  if (awayCap <=? 0) || (awayAfterSeconds <=? 0) || (idleSeconds <? awayAfterSeconds)
  then base
  else
    let awayStepSeconds := if awayStepSeconds <=? 0 then 1 else awayStepSeconds in
    if awayCap <? base then awayCap
    else
      let steps := 1 + Z.quot (idleSeconds - awayAfterSeconds) awayStepSeconds in
      double_gap (Z.to_nat steps) base awayCap.

Definition IpcReportNextGap (consecutiveFailures : nat) (base failureCap : Z)
    (idleSeconds : option Z) (awayAfterSeconds awayStepSeconds awayCap : Z) : Z :=
  let failureGapEnabled :=
    (0 <? failureCap) && (base <? failureCap) && (0 <? Z.of_nat consecutiveFailures) in
  let failureGap :=
    if failureGapEnabled then IpcReportGapAfterFailures consecutiveFailures base failureCap
    else base in
  let awayGap :=
    match idleSeconds with
    | Some idle =>
        if (0 <? awayCap) && (0 <? awayAfterSeconds) then
          IpcReportGapAfterUserIdle idle base awayAfterSeconds awayStepSeconds awayCap
        else base
    | None => base
    end in
  if awayGap <? failureGap then failureGap else awayGap.

(** ** The server: theorems *)

Section ServerTheorems.
Context {S : Type} `{!IpcServerBackend S} `{!WideLibrary} `{!SystemMessages}.

Definition entry : Type := IpcClientIdentity * IpcRequest * Result IpcReply.

(** What a piece of the session appends to the log. *)
Definition logs {A} (m : M (S * Log) A) (P : A → list entry → list IpcClientVerdict → Prop)
  : Prop :=
  ∀ s l, ∃ hs vs, (m (s, l)).2.2 = MkLog (verdicts l ++ vs) (handled l ++ hs) ∧
                  P (m (s, l)).1 hs vs.

Definition silent {A} (m : M (S * Log) A) : Prop := logs m (λ _ hs vs, hs = [] ∧ vs = []).

Lemma logs_ret {A} (a : A) (P : A → list entry → list IpcClientVerdict → Prop) :
  P a [] [] → logs (mret a) P.
Proof. intros HP s [v h]. exists [], []. cbn. by rewrite !app_nil_r. Qed.

Lemma logs_bind {A C} (m : M (S * Log) A) (k : A → M (S * Log) C) P Q :
  logs m P →
  (∀ a hs vs, P a hs vs → logs (k a) (λ r hs' vs', Q r (hs ++ hs') (vs ++ vs'))) →
  logs (mthen m k) Q.
Proof.
  intros Hm Hk s l. unfold mthen. destruct (Hm s l) as (hs & vs & El & HP).
  destruct (m (s, l)) as [a [s1 l1]]. cbn in El, HP. subst l1.
  destruct (Hk a hs vs HP s1 (MkLog (verdicts l ++ vs) (handled l ++ hs)))
    as (hs' & vs' & E' & HQ).
  exists (hs ++ hs'), (vs ++ vs'). rewrite E'. cbn. by rewrite !app_assoc.
Qed.

Lemma logs_silent {A C} (m : M (S * Log) A) (k : A → M (S * Log) C) Q :
  silent m → (∀ a, logs (k a) Q) → logs (mthen m k) Q.
Proof.
  intros Hm Hk. eapply logs_bind; [exact Hm|]. intros a hs vs [-> ->]. apply Hk.
Qed.

Lemma io_silent {A} (m : M S A) : silent (io m).
Proof.
  intros s [v h]. exists [], []. unfold io. destruct (m s). cbn. by rewrite !app_nil_r.
Qed.

Lemma ret_silent {A} (a : A) : silent (mret a).
Proof. by apply logs_ret. Qed.

Lemma close_silent o : silent (closeUnlessPersistent o).
Proof. unfold closeUnlessPersistent. destruct (negb _); [apply io_silent|apply ret_silent]. Qed.

Lemma drain_silent o : silent (drainAndDisconnect o).
Proof. do 2 (eapply logs_silent; [apply io_silent|intros ?]). apply ret_silent. Qed.

Lemma error_reply_silent id c t : silent (SendErrorReply id c t).
Proof. eapply logs_silent; [apply io_silent|intros ?]. apply ret_silent. Qed.

Lemma emit_logs v : logs (emitVerdict v) (λ _ hs vs, hs = [] ∧ vs = [v]).
Proof. intros s l. exists [], [v]. cbn. by rewrite app_nil_r. Qed.

Lemma abandon_logs {A} o e : logs (@abandon S _ A o e)
  (λ r hs vs, r = Failure e ∧ hs = [] ∧ vs = []).
Proof.
  eapply logs_silent; [apply io_silent|intros ?].
  eapply logs_silent; [apply close_silent|intros ?]. by apply logs_ret.
Qed.

Lemma refuse_logs {A} o id c v e : logs (@refuse S _ A o id c v e)
  (λ r hs vs, r = Failure e ∧ hs = [] ∧ vs = match v with Some v => [v] | None => [] end).
Proof.
  eapply logs_silent; [apply error_reply_silent|intros ?]. destruct v as [v|].
  - eapply logs_bind; [apply emit_logs|]. intros _ hs vs [-> ->].
    eapply logs_silent; [apply drain_silent|intros ?].
    eapply logs_silent; [apply close_silent|intros ?]. by apply logs_ret.
  - eapply logs_silent; [apply ret_silent|intros ?].
    eapply logs_silent; [apply drain_silent|intros ?].
    eapply logs_silent; [apply close_silent|intros ?]. by apply logs_ret.
Qed.

Lemma logs_impl {A} (m : M (S * Log) A) (P Q : A → list entry → list IpcClientVerdict → Prop) :
  logs m P → (∀ a hs vs, P a hs vs → Q a hs vs) → logs m Q.
Proof. intros Hm HPQ s l. destruct (Hm s l) as (hs & vs & E & HP). eauto 10. Qed.

(** A request reaches the handler only from a client both gates let pass. *)
Definition authorized (o : SessionOptions) (e : entry) : Prop :=
  (∀ gate, clientGate o = Some gate → gate e.1.1 = Success tt) ∧
  (allowedClientSids o = [] ∨
   ∃ sid, sid ∈ allowedClientSids o ∧
          map towlower (id_userSid e.1.1) = map towlower sid).

Lemma sid_loop_iff a b :
  length a = length b → sid_loop a b = true ↔ map towlower a = map towlower b.
Proof.
  revert b. induction a as [|x a IH]; intros [|y b] Hl; try done.
  cbn. injection Hl as Hl. destruct (Z.eqb_spec (towlower x) (towlower y)) as [->|]; cbn [negb].
  - rewrite IH by done. split; [by intros ->|by intros [= ->]].
  - split; [done|by intros [= ? _]].
Qed.

(** SIDs are compared up to case. *)
Lemma SidEqualsIgnoreCase_iff a b :
  SidEqualsIgnoreCase a b = true ↔ map towlower a = map towlower b.
Proof.
  unfold SidEqualsIgnoreCase. destruct (Z.eqb_spec (len a) (len b)) as [E|Hne]; cbn [negb].
  - apply sid_loop_iff. lia.
  - split; [done|]. intros E. apply (f_equal length) in E. rewrite !length_map in E. lia.
Qed.

Lemma authorized_intro o c req out :
  gate_verdict o c = Success tt → sid_allowed o c = true → authorized o (c, req, out).
Proof.
  unfold gate_verdict, sid_allowed, authorized. cbn [fst snd]. intros Hg Hs. split.
  - intros gate E. by rewrite E in Hg.
  - destruct (allowedClientSids o) as [|sid0 sids]; [by left|]. right.
    apply existsb_exists in Hs as (sid & Hin & E%SidEqualsIgnoreCase_iff).
    exists sid. by rewrite list_elem_of_In.
Qed.

(** What one turn may do; it ends the session in order only where [mayEnd]. *)
Definition frame_effect (o : SessionOptions) (mayEnd : bool) (r : Result FrameOutcome)
    (hs : list entry) (vs : list IpcClientVerdict) : Prop :=
  Forall (authorized o) hs ∧
  match r with
  | Success (FrameServed res rejected) =>
      vs = [] ∧ ∃ c req rep, hs = [(c, req, Success rep)] ∧ rejected = auth_failed_reply rep
  | Success (FrameEnd _) => mayEnd = true ∧ hs = [] ∧ vs = []
  | Failure _ => (length hs <= 1)%nat ∧ (vs = [] ∨ vs = [IpcClientVerdict.UnauthorizedClient] ∧ hs = [])
  end.

Lemma answer_request_logs o mayEnd handler c req :
  logs (answer_request o handler c req) (frame_effect o mayEnd).
Proof.
  unfold answer_request.
  destruct (gate_verdict o c) as [[]|e] eqn:Hg.
  2:{ eapply logs_impl; [apply refuse_logs|]. intros a hs vs (-> & -> & ->).
      split; [constructor|]. cbn. auto. }
  destruct (sid_allowed o c) eqn:Hsid; cbn [negb].
  2:{ eapply logs_impl; [apply refuse_logs|]. intros a hs vs (-> & -> & ->).
      split; [constructor|]. cbn. auto. }
  eapply logs_silent.
  { destruct handler; [apply io_silent|apply ret_silent]. }
  intros out.
  apply (logs_bind _ _ (λ _ hs vs, hs = [(c, req, out)] ∧ vs = [])).
  { intros s l. exists [(c, req, out)], []. cbn. by rewrite app_nil_r. }
  intros _ hs vs [-> ->].
  assert (Forall (authorized o) [(c, req, out)]) as Hauth
    by (apply Forall_singleton, authorized_intro; done).
  assert (∀ e, frame_effect o mayEnd (Failure e) ([(c, req, out)] ++ []) ([] ++ [])) as Hfail.
  { intros e. split; [by rewrite app_nil_r|]. cbn. auto. }
  destruct out as [reply|e].
  2:{ eapply logs_impl; [apply refuse_logs|]. intros a hs vs (-> & -> & ->). apply Hfail. }
  destruct (ValidateIpcHeader _) as [[]|e].
  2:{ eapply logs_impl; [apply abandon_logs|]. intros a hs vs (-> & -> & ->). apply Hfail. }
  eapply logs_silent; [apply io_silent|]. intros [[]|e].
  - apply logs_ret. split; [done|]. split; [done|]. by eexists _, _, _.
  - eapply logs_impl; [apply abandon_logs|]. intros a hs vs (-> & -> & ->). apply Hfail.
Qed.

Lemma serve_frame_logs o handler idle deadline limited frames :
  logs (serve_frame o handler idle deadline limited frames)
    (frame_effect o (negb limited || (0 <? frames))).
Proof.
  set (mayEnd := negb limited || (0 <? frames)).
  assert (∀ e, frame_effect o mayEnd (Failure e) [] []) as Hfail
    by (intros e; split; [constructor|cbn; auto]).
  assert (∀ e, logs (abandon o e) (frame_effect o mayEnd)) as Habandon.
  { intros e. eapply logs_impl; [apply abandon_logs|]. intros a hs vs (-> & -> & ->).
    apply Hfail. }
  assert (∀ reason, mayEnd = true → frame_effect o mayEnd (Success (FrameEnd reason)) [] [])
    as Hend by (intros r ?; by split; [constructor|]).
  unfold serve_frame. eapply logs_silent.
  { destruct limited; [apply ret_silent|].
    eapply logs_silent; [apply io_silent|intros ?]. apply ret_silent. }
  intros remaining. destruct (negb limited && _) eqn:Hbudget.
  { apply andb_true_iff in Hbudget as [Hl _].
    destruct (frames =? 0); [apply Habandon|]. apply logs_ret, Hend.
    unfold mayEnd. by rewrite Hl. }
  eapply logs_silent; [apply io_silent|]. intros [bytes|error].
  2:{ assert ((0 <? frames) = true → mayEnd = true) as Hend0
        by (intros Hf; unfold mayEnd; by rewrite Hf, orb_true_r).
      cbv zeta. destruct (_ && (0 <? frames)) eqn:Hclosed.
      { apply andb_true_iff in Hclosed as [_ Hf]. by apply logs_ret, Hend, Hend0. }
      destruct (is_win32 error ERROR_TIMEOUT && _) eqn:Hidle; [|apply Habandon].
      apply andb_true_iff in Hidle as [_ Hf]. by apply logs_ret, Hend, Hend0. }
  unfold serve_header. destruct (ParseHeader bytes) as [header|e].
  2:{ eapply logs_impl; [apply refuse_logs|]. intros a hs vs (-> & -> & ->). apply Hfail. }
  eapply logs_silent.
  { destruct (0 <? payloadLength header); [apply io_silent|apply ret_silent]. }
  intros [payload|e]; [|apply Habandon].
  destruct (ParseMessageType _) as [t|]; [|by apply logs_ret].
  intros s l.
  apply (answer_request_logs o mayEnd handler
    (MkIdentity (ClientPid s) (ClientSessionId s) (ClientUserSid s))
    (MkRequest t (requestId header) payload (ClientPid s) (ClientSessionId s)) s l).
Qed.

(** What a whole session may do: [rejected] is whether a credential was refused
    before. *)
Definition session_effect (o : SessionOptions) (rejected : bool)
    (r : option (Result IpcServeResult)) (hs : list entry) (vs : list IpcClientVerdict)
  : Prop :=
  Forall (authorized o) hs ∧
  match r with
  | Some (Success _) =>
      vs = [if rejected || existsb (λ e, match e.2 with Success p => auth_failed_reply p
                                                     | Failure _ => false end) hs
            then IpcClientVerdict.AuthFailed else IpcClientVerdict.Accepted]
  | Some (Failure _) => vs = [] ∨ vs = [IpcClientVerdict.UnauthorizedClient]
  | None => vs = []
  end.

Lemma finish_session_logs o last frames reason rejected :
  logs (finish_session o last frames reason rejected)
    (λ r hs vs, HasValue r = true ∧ hs = [] ∧
       vs = [if rejected then IpcClientVerdict.AuthFailed else IpcClientVerdict.Accepted]).
Proof.
  eapply logs_silent; [apply drain_silent|intros ?].
  eapply logs_silent; [apply close_silent|intros ?].
  eapply logs_bind; [apply emit_logs|]. intros _ hs vs [-> ->]. by apply logs_ret.
Qed.

Lemma finished_logs o last frames reason rejected rejected0 hs0 :
  Forall (authorized o) hs0 →
  rejected = rejected0 || existsb (λ e, match e.2 with Success p => auth_failed_reply p
                                                   | Failure _ => false end) hs0 →
  logs (r <-- finish_session o last frames reason rejected ;; mret (Some r))
    (λ r hs vs, session_effect o rejected0 r (hs0 ++ hs) ([] ++ vs)).
Proof.
  intros Ha ->. eapply logs_bind; [apply finish_session_logs|].
  intros r hs vs (Hr & -> & ->). apply logs_ret. destruct r; [|done].
  split; [by rewrite !app_nil_r|]. by rewrite !app_nil_r.
Qed.

Lemma serve_frames_logs fuel o handler idle deadline maxFrames frames last rejected :
  logs (serve_frames fuel o handler idle deadline maxFrames frames last rejected)
    (session_effect o rejected).
Proof.
  revert frames last rejected.
  induction fuel as [|fuel IH]; intros frames last rejected; cbn [serve_frames].
  { apply logs_ret. split; [constructor|done]. }
  eapply logs_bind; [apply serve_frame_logs|].
  intros [[reason|last' rej]|e] hs vs [Ha Hr].
  - destruct Hr as (_ & -> & ->). apply (finished_logs o last frames reason rejected rejected []);
      [done|by rewrite orb_false_r].
  - destruct Hr as (-> & c & req & rep & -> & ->).
    destruct (_ && _).
    + apply finished_logs; [done|]. cbn. by rewrite orb_false_r.
    + eapply logs_impl; [apply IH|]. intros r hs' vs' [Ha' Hr'].
      split; [by apply Forall_app|]. destruct r as [[]|]; cbn; [|done|done].
      by rewrite Hr', <- orb_assoc.
  - apply logs_ret. rewrite !app_nil_r. split; [done|].
    destruct Hr as [_ [->|[-> _]]]; auto.
Qed.

Lemma ServeLoop_logs fuel o handler accept idle budget maxFrames :
  logs (ServeLoop fuel o handler accept idle budget maxFrames) (session_effect o false).
Proof.
  unfold ServeLoop. eapply logs_silent; [apply io_silent|intros now].
  assert (∀ e, session_effect o false (Some (Failure e)) [] []) as Hfail
    by (intros e; split; [constructor|by left]).
  eapply logs_silent; [apply io_silent|intros [[]|e]]; [|by apply logs_ret].
  eapply logs_silent; [apply io_silent|intros [[]|e]].
  - apply serve_frames_logs.
  - eapply logs_silent; [apply close_silent|intros ?]. by apply logs_ret.
Qed.

(** C2. A whole session, of one frame or many, and whatever the pipe, the
    client and the handler do. Only requests of a client that passes the
    identity gate and the SID allow-list reach the handler. The observer is
    given at most one verdict; it is "accepted" or "authentication failed"
    exactly when the session succeeds, the latter exactly when some reply
    refused a credential, and a session that fails is either silent or
    "unauthorized". *)
Theorem ServeLoop_verdicts (fuel : nat) (o : SessionOptions) (handler : option (Handler S))
    (accept idle budget maxFrames : Z) (s : S) :
  let '(r, (_, l)) := ServeLoop fuel o handler accept idle budget maxFrames
                        (s, MkLog [] []) in
  Forall (authorized o) (handled l) ∧ (length (verdicts l) <= 1)%nat ∧
  match r with
  | Some (Success _) =>
      verdicts l =
        [if existsb (λ e, match e.2 with Success p => auth_failed_reply p
                                      | Failure _ => false end) (handled l)
         then IpcClientVerdict.AuthFailed else IpcClientVerdict.Accepted]
  | Some (Failure _) => verdicts l = [] ∨ verdicts l = [IpcClientVerdict.UnauthorizedClient]
  | None => verdicts l = []
  end.
Proof.
  pose proof (ServeLoop_logs fuel o handler accept idle budget maxFrames) as Hlogs.
  destruct (Hlogs s (MkLog [] [])) as (hs & vs & El & Ha & Hr).
  destruct (ServeLoop _ _ _ _ _ _ _ (s, MkLog [] [])) as [r [s' l]].
  cbn in El, Hr. subst l. cbn [verdicts handled app]. split; [done|].
  destruct r as [[]|]; [|destruct Hr as [->| ->]|]; subst; cbn; auto.
Qed.

(** Serving one frame always comes to an end within one turn of the loop,
    whatever the pipe does, and a success has served exactly one frame. *)
Lemma ServeOne_total (fuel : nat) (o : SessionOptions) (handler : option (Handler S))
    (accept : Z) (s : S) (l : Log) :
  ∃ r, (ServeOne (Datatypes.S fuel) o handler accept (s, l)).1 = Some r ∧
       match r with
       | Success res => framesServed res = 1 ∧ endReason res = IpcSessionEndReason.ClientClosed
       | Failure _ => True
       end.
Proof.
  unfold ServeOne, ServeLoop, mthen, mret, io.
  destruct (steady_now s) as [now s0].
  destruct (CreateAndListen s0) as [[[]|e] s1]; cbn; [|by exists (Failure e)].
  destruct (AcceptClient accept s1) as [[[]|e] s2]; cbn.
  2:{ destruct (closeUnlessPersistent o (s2, l)) as [u sl]. by exists (Failure e). }
  unfold mthen.
  destruct (serve_frame_logs o handler (ioTimeout o)
              (now + ns_of_millis (ioTimeout o)) true 0 s2 l) as (hs & vs & _ & _ & He).
  destruct (serve_frame _ _ _ _ _ _ _) as [[[reason|last rej]|e] [s3 l3]]; cbn in *.
  - by destruct He.
  - change (1 <=? u32 (0 + 1)) with true. change (u32 (0 + 1)) with 1. cbv iota.
    unfold finish_session, mthen, mret.
    destruct (drainAndDisconnect o (s3, l3)) as [? sl].
    destruct (closeUnlessPersistent o sl) as [? [s5 l5]]. cbn.
    by exists (Success (MkServeResult (requestType last) (replyType last)
      (res_requestId last) (res_clientPid last) (res_clientSessionId last)
      (res_clientUserSid last) (payloadBytes last) 1 IpcSessionEndReason.ClientClosed)).
  - by exists (Failure e).
Qed.
End ServerTheorems.

(** ** The default handler *)

Lemma token_loop_spec token expected :
  strlen token = len expected →
  token_loop token expected = true ↔
  map code (list_ascii_of_string token) = expected ∧ Forall (λ e, e <= 0x7F) expected.
Proof.
  revert expected. induction token as [|c token IH]; intros [|e expected] Hl;
    cbn in Hl |- *; try lia; [done|].
  rewrite Forall_cons. destruct (Z.ltb_spec 127 e) as [He|He].
  { split; [done|]. intros (_ & ? & _). lia. }
  destruct (Z.eqb_spec (code c) e) as [->|Hne]; cbn [negb].
  - rewrite IH by (cbn in Hl; lia). split; [intros [-> ?]; auto|].
    intros ([= ->] & _ & ?). auto.
  - split; [done|]. intros ([= E _] & _). done.
Qed.

(** The token is the expected text, all of it ASCII. *)
Lemma TokenMatches_iff token expected :
  TokenMatches token expected = true ↔
  map code (list_ascii_of_string token) = expected ∧ Forall (λ e, e <= 0x7F) expected.
Proof.
  assert (∀ s, length (list_ascii_of_string s) = String.length s) as Hlen
    by (intros s; induction s; cbn; congruence).
  unfold TokenMatches. destruct (Z.eqb_spec (strlen token) (len expected)) as [E|Hne]; cbn [negb].
  - by apply token_loop_spec.
  - split; [done|]. intros [E _]. apply (f_equal length) in E.
    rewrite length_map, Hlen in E. lia.
Qed.

(** What a list of facts must carry when a credential is configured. *)
Definition credential (facts : list IpcFact) (expected : wstring) : Prop :=
  expected = [] ∨
  Forall (λ e, e <= 0x7F) expected ∧
  ∃ f, f ∈ facts ∧ key f = kFactsTokenKey ∧
       map code (list_ascii_of_string (value f)) = expected.

Lemma credential_spec facts expected :
  negb (len expected =? 0) &&
  negb (existsb (λ f, String.eqb (key f) kFactsTokenKey && TokenMatches (value f) expected)
          facts) = false ↔ credential facts expected.
Proof.
  unfold credential. rewrite andb_false_iff, !negb_false_iff, Z.eqb_eq, existsb_exists.
  assert (len expected = 0 ↔ expected = []) as ->
    by (destruct expected; split; intros; cbn in *; (done || lia)).
  apply or_iff_compat_l. split.
  - intros (f & Hf & [Hk%String.eqb_eq Ht%TokenMatches_iff]%andb_true_iff).
    destruct Ht as [Ht ?]. split; [done|]. exists f. by apply list_elem_of_In in Hf.
  - intros (Ha & f & Hf & Hk & Ht). exists f. split; [by apply list_elem_of_In|].
    apply andb_true_iff. by rewrite String.eqb_eq, TokenMatches_iff.
Qed.

(** The default handler acknowledges exactly: a ping, with an empty
    payload; and a facts snapshot that parses, satisfies the schema and, where a
    credential is configured, carries an [agent_token] equal to it byte for byte
    (never so for a credential outside ASCII), with the summary as its payload. *)
Lemma DefaultHandler_acks (request : IpcRequest) (expected : wstring) (p : list byte) :
  DefaultHandler request expected = Success (MkReply IpcMessageType.Ack p) ↔
  (req_type request = IpcMessageType.Ping ∧ p = []) ∨
  (req_type request = IpcMessageType.FactsSnapshot ∧
   ∃ facts, ParseFactsV1 (req_payload request) = Success facts ∧
     ValidateFactsV1Schema facts = Success tt ∧ credential facts expected ∧
     p = BytesFromText (FormatFactsSummary facts)).
Proof.
  unfold DefaultHandler.
  destruct (req_type request); try (split; [done|by intros [[? _]|[? _]]]).
  - split; [intros [= <-]; by left|]. by intros [[_ ->]|[? _]].
  - destruct (ParseFactsV1 _) as [facts|e];
      [|by split; [|intros [[? _]|(_ & ? & ? & _)]]].
    destruct (ValidateFactsV1Schema facts) as [[]|e] eqn:Hs; cbn [HasValue negb];
      [|split; [done|intros [[? _]|(_ & ? & [= <-] & ? & _)]; congruence]].
    destruct (negb (len expected =? 0) && _) eqn:Hc.
    + split; [done|]. intros [[? _]|(_ & facts' & [= <-] & _ & Hcr & _)]; [done|].
      apply credential_spec in Hcr. congruence.
    + apply credential_spec in Hc. split.
      * intros [= <-]. right. split; [done|]. by exists facts.
      * by intros [[? _]|(_ & facts' & [= <-] & _ & _ & ->)].
Qed.

(** ** The pace of reports *)

Lemma double_gap_spec n gap cap :
  0 < gap <= cap → double_gap n gap cap = Z.min cap (gap * 2 ^ Z.of_nat n).
Proof.
  revert gap. induction n as [|n IH]; intros gap Hg; cbn [double_gap].
  { change (2 ^ Z.of_nat 0) with 1. lia. }
  rewrite Nat2Z.inj_succ, Z.pow_succ_r by lia.
  pose proof (Z.pow_pos_nonneg 2 (Z.of_nat n) ltac:(lia) ltac:(lia)) as Hp.
  destruct (Z.ltb_spec gap cap); [|nia].
  rewrite Z.quot_div_nonneg by lia.
  destruct (Z.ltb_spec (cap / 2) gap) as [Hh|Hh].
  - assert (cap < 2 * gap) by (Z.div_mod_to_equations; lia). nia.
  - assert (gap * 2 <= cap) by (Z.div_mod_to_equations; lia).
    rewrite (proj2 (Z.ltb_ge cap (gap * 2))), IH by lia. f_equal. lia.
Qed.

(** The doublings an idle user causes, none while the user is not away. *)
Definition away_steps (idle : option Z) (after step : Z) : Z :=
  match idle with
  | Some i => if (0 <? after) && (after <=? i) then 1 + (i - after) / Z.max 1 step else 0
  | None => 0
  end.

(** For a positive base interval, the pause before the next report is the
    base doubled once per consecutive failure, up to the failure cap, or doubled
    once per away step of an idle user, up to the away cap, whichever is longer,
    and never shorter than the base; a cap at or below the base switches its
    half off, and so does an unknown idle time. *)
Lemma IpcReportNextGap_spec (failures : nat) (base failureCap : Z) (idle : option Z)
    (after step awayCap : Z) :
  0 < base →
  IpcReportNextGap failures base failureCap idle after step awayCap =
  Z.max base (Z.max (Z.min failureCap (base * 2 ^ Z.of_nat failures))
                    (Z.min awayCap (base * 2 ^ away_steps idle after step))).
Proof.
  intros Hb. unfold IpcReportNextGap, IpcReportGapAfterFailures, away_steps.
  pose proof (Z.pow_pos_nonneg 2 (Z.of_nat failures) ltac:(lia) ltac:(lia)) as Hpf.
  set (failureGap := if _ && _ && _ then _ else base).
  assert (failureGap = Z.max base (Z.min failureCap (base * 2 ^ Z.of_nat failures))) as ->.
  { subst failureGap. destruct (Z.ltb_spec 0 failureCap), (Z.ltb_spec base failureCap);
      cbn [andb]; try nia.
    destruct failures as [|n].
    { change (2 ^ Z.of_nat 0) with 1. change (0 <? Z.of_nat 0) with false. cbv iota. lia. }
    rewrite (proj2 (Z.ltb_lt 0 (Z.of_nat (Datatypes.S n)))), (proj2 (Z.leb_gt failureCap 0)) by lia.
    rewrite (proj2 (Z.ltb_ge failureCap base)), double_gap_spec by lia.
    rewrite Nat2Z.inj_succ, Z.pow_succ_r in * by lia. nia. }
  set (awayGap := match idle with Some _ => _ | None => base end).
  set (steps := match idle with Some _ => _ | None => 0 end).
  assert (Z.max base awayGap = Z.max base (Z.min awayCap (base * 2 ^ steps))) as Haway.
  { subst awayGap steps. destruct idle as [i|]; [|rewrite Z.pow_0_r; lia].
    destruct (Z.ltb_spec 0 after); cbn [andb]; [|rewrite andb_false_r, Z.pow_0_r; lia].
    destruct (Z.ltb_spec 0 awayCap); cbn [andb].
    2:{ assert (0 <= 2 ^ (if after <=? i then 1 + (i - after) / Z.max 1 step else 0))
          by (apply Z.pow_nonneg; lia). nia. }
    unfold IpcReportGapAfterUserIdle.
    rewrite (proj2 (Z.leb_gt awayCap 0)), (proj2 (Z.leb_gt after 0)) by lia. cbn [orb].
    destruct (Z.ltb_spec i after) as [Hi|Hi], (Z.leb_spec after i); try lia.
    assert ((if step <=? 0 then 1 else step) = Z.max 1 step) as ->
      by (destruct (Z.leb_spec step 0); lia).
    destruct (Z.ltb_spec awayCap base); [lia|].
    rewrite Z.quot_div_nonneg by lia.
    assert (0 <= (i - after) / Z.max 1 step) by (apply Z.div_pos; lia).
    by rewrite double_gap_spec, Z2Nat.id by lia. }
  destruct (Z.ltb_spec awayGap (Z.max base (Z.min failureCap (base * 2 ^ Z.of_nat failures))));
    lia.
Qed.

Example IpcReportNextGap_spec_witness :
  IpcReportNextGap 3 1000 60000 (Some 1300) 600 600 4000 = 8000.
Proof. rewrite (IpcReportNextGap_spec 3 1000 60000 (Some 1300) 600 600 4000); reflexivity. Defined.

(** ** The client over a byte stream *)

(** A connection whose two directions are byte streams; reading past the end of
    what the peer sent fails like a broken pipe. *)
Module Stream.
Record Stream := MkStream { inbound : list byte; outbound : list byte; closed : nat }.

Section Backend.
Context `{!SystemMessages}.

#[export] Instance backend : IpcClientBackend Stream := {
  Connect _ _ := λ s, (Success tt, s);
  ClientWriteAll bytes _ := λ s,
    (Success tt, MkStream (inbound s) (outbound s ++ bytes) (closed s));
  ClientReadAll n _ := λ s,
    if (length (inbound s) <? n)%nat then (Failure (FromWin32 ERROR_BROKEN_PIPE "ReadFile"), s)
    else (Success (take n (inbound s)), MkStream (drop n (inbound s)) (outbound s) (closed s));
  CloseClient := λ s, (tt, MkStream (inbound s) (outbound s) (Datatypes.S (closed s)))
}.

(** What a server that answers with [id] and [reply] puts on the pipe. *)
Definition reply_frame (p : Z * IpcReply) : list byte :=
  MakeFrame (rep_type p.2) p.1 (rep_payload p.2).

Definition request_frame (q : IpcFrameRequest) : list byte :=
  MakeFrame (fr_type q) (fr_requestId q) (fr_payload q).

Definition well_formed (p : Z * IpcReply) : Prop :=
  is_u32 p.1 ∧ len (rep_payload p.2) <= kMaxPayloadLength.

Definition paired (q : IpcFrameRequest) (p : Z * IpcReply) : Prop :=
  p.1 = fr_requestId q ∧ rep_type p.2 ≠ IpcMessageType.Error.

(** One exchange takes one frame from the stream. *)
Lemma exchange_stream q p timeout rest out c :
  well_formed p →
  exchange q timeout (MkStream (reply_frame p ++ rest) out c) =
  (Success (MakeIpcHeader (rep_type p.2) (len (rep_payload p.2)) p.1, rep_payload p.2),
   MkStream rest (out ++ request_frame q) c).
Proof.
  destruct p as [id [t payload]]. cbn [fst snd rep_type rep_payload].
  intros [Hid Hl]. cbn [fst snd rep_payload] in Hid, Hl. unfold kMaxPayloadLength in Hl.
  unfold exchange, mthen, mret, reply_frame, MakeFrame. cbn [fst snd rep_type rep_payload].
  assert (u32 (len payload) = len payload) as -> by (apply u32_small; unfold is_u32; lia).
  set (header := MakeIpcHeader t (len payload) id).
  cbn [ClientWriteAll ClientReadAll backend inbound outbound closed].
  rewrite <- app_assoc, length_app, SerializeHeader_length.
  rewrite (proj2 (Nat.ltb_ge _ _)) by lia.
  rewrite <- (SerializeHeader_length header).
  rewrite take_app_length, drop_app_length.
  unfold header at 1. rewrite MakeIpcHeader_valid by (unfold kMaxPayloadLength; auto with lia).
  fold header. change (payloadLength header) with (len payload).
  destruct (Z.ltb_spec 0 (len payload)).
  - cbn [ClientWriteAll ClientReadAll backend inbound outbound closed].
    rewrite Nat2Z.id, length_app, (proj2 (Nat.ltb_ge _ _)) by lia.
    by rewrite take_app_length, drop_app_length.
  - by destruct payload; [|cbn in *; lia].
Qed.

Lemma check_reply_Success op id t n i payload r :
  check_reply op id (MakeIpcHeader t n i) payload = Success r ↔
  i = id ∧ t ≠ IpcMessageType.Error ∧ r = MkReply t payload.
Proof.
  unfold check_reply. cbn [requestId type MakeIpcHeader].
  assert (ParseMessageType (type_value t) = Some t) as -> by (by apply ParseMessageType_Some).
  destruct (Z.eqb_spec i id); cbn [negb]; [|naive_solver].
  destruct t; split; try (by intros [= <-]); naive_solver.
Qed.

Lemma round_trips_stream requests timeout answers rest acc out c :
  length answers = length requests → Forall well_formed answers →
  let '(r, s) := round_trips requests timeout acc
                   (MkStream (concat (map reply_frame answers) ++ rest) out c) in
  closed s = Datatypes.S c ∧
  ∀ replies, r = Success replies ↔
    replies = acc ++ map snd answers ∧ Forall2 paired requests answers ∧
    outbound s = out ++ concat (map request_frame requests) ∧ inbound s = rest.
Proof.
  revert answers acc out. induction requests as [|q requests IH];
    intros [|p answers] acc out Hl Hw; try done.
  { cbn. split; [done|]. intros replies. rewrite !app_nil_r. naive_solver. }
  apply Forall_cons in Hw as [Hp Hw]. cbn [round_trips map concat]. unfold mthen, mret.
  rewrite <- app_assoc, exchange_stream by done.
  destruct (check_reply _ _ _ _) as [reply|e] eqn:E.
  - destruct p as [id [t payload]]. cbn [fst snd rep_type rep_payload] in *.
    apply check_reply_Success in E as (-> & Ht & ->).
    specialize (IH answers (acc ++ [MkReply t payload]) (out ++ request_frame q)
                  ltac:(cbn in Hl; lia) Hw).
    destruct (round_trips _ _ _ _) as [r s]. destruct IH as [Hc IH]. split; [done|].
    intros replies. rewrite IH, <- !app_assoc, Forall2_cons. cbn. unfold paired at 2.
    naive_solver.
  - cbn. split; [done|]. intros replies. split; [done|].
    intros (_ & [[Hid Ht] _]%Forall2_cons & _).
    destruct p as [id [t payload]]. cbn in *.
    pose proof (proj2 (check_reply_Success "IpcRoundTripSession" (fr_requestId q) t
                  (len payload) id payload (MkReply t payload)) ltac:(auto)). congruence.
Qed.

(** The client's frames over one connection, against any peer that answers
    every request with one well-formed frame: the session succeeds exactly when
    every answer carries the id of its own request and none is an error, and the
    replies are then the answers in order and unchanged, with exactly the
    requests' frames written and nothing beyond the answers read. The
    connection is closed once, whatever the outcome. *)
Lemma IpcRoundTripSession_stream (path : string) (q : IpcFrameRequest)
    (requests : list IpcFrameRequest) (answers : list (Z * IpcReply)) (timeout : Z)
    (rest : list byte) :
  length answers = length (q :: requests) → Forall well_formed answers →
  let '(r, s) := IpcRoundTripSession path (q :: requests) timeout
                   (MkStream (concat (map reply_frame answers) ++ rest) [] 0) in
  closed s = 1%nat ∧
  ∀ replies, r = Success replies ↔
    replies = map snd answers ∧ Forall2 paired (q :: requests) answers ∧
    outbound s = concat (map request_frame (q :: requests)) ∧ inbound s = rest.
Proof.
  intros Hl Hw.
  exact (round_trips_stream (q :: requests) timeout answers rest [] [] 0 Hl Hw).
Qed.
End Backend.

Example IpcRoundTripSession_stream_witness :
  let ping := MkFrameRequest IpcMessageType.Ping [] 7 in
  let ack := (7, MkReply IpcMessageType.Ack [byte_of_Z 65]) in
  closed (@IpcRoundTripSession _ (@backend no_messages) "p" [ping] 100
            (MkStream (concat (map reply_frame [ack])) [] 0)).2 = 1%nat.
Proof.
  cbn zeta. set (ping := MkFrameRequest _ _ _). set (ack := (7, _)).
  pose proof (@IpcRoundTripSession_stream no_messages "p" ping [] [ack] 100 [] eq_refl) as H.
  assert (Forall well_formed [ack]) as Hw
    by (constructor; [split; [by split|done]|done]).
  specialize (H Hw). rewrite app_nil_r in H.
  destruct (IpcRoundTripSession _ _ _ _) as [r s]. exact (proj1 H).
Defined.
End Stream.

(** ** A refused credential that is not counted *)

Module Unreported.
(** A server whose client has sent [input] and stays connected. *)
#[export] Instance backend : IpcServerBackend (list byte) := {
  CreateAndListen := mret (Success tt);
  AcceptClient _ := mret (Success tt);
  ReadAll n _ := λ input,
    if (length input <? n)%nat
    then (Failure (MkError ErrorDomain.Win32 ERROR_TIMEOUT "ReadFile" ""), input)
    else (Success (take n input), drop n input);
  WriteAll _ _ := mret (Success tt);
  DisconnectClient := mret (Success tt);
  CloseServer := mret tt;
  ClientPid _ := 4242;
  ClientSessionId _ := 1;
  ClientUserSid _ := [];
  steady_now := mret 0
}.

#[export] Instance lower : WideLibrary := λ c, c.
#[export] Instance messages : SystemMessages := no_messages.

(** The defaults, with the credential [key]. *)
Definition options : SessionOptions :=
  MkOptions 3000 (Some DefaultClientGate) false [] [107; 101; 121].

(** A snapshot without [agent_token], and a header of zeros. *)
Definition snapshot : list byte :=
  MakeFrame IpcMessageType.FactsSnapshot 1
    (BytesFromText (kFactsEnvelopeV1 +:+ String LF "observer=agent")).
Definition malformed : list byte := repeat (byte_of_Z 0) 16.

Definition session (input : list byte) :=
  let '(r, (_, l)) := ServeSession 3 options None 1000 1000 5000 (input, MkLog [] []) in
  (match r with Some (Success _) => true | _ => false end, verdicts l,
   map (λ e, match e.2 with Success p => auth_failed_reply p | Failure _ => false end)
     (handled l)).
End Unreported.

(** The header says the observer hears of every refused credential. A client
    whose snapshot lacks the credential is refused, and reported when it then
    falls silent; but when it follows the refused frame with a malformed one,
    the session fails and nothing is reported, so the attempt never counts
    towards Safe Mode. *)
Lemma AuthFailed_unreported :
  Unreported.session Unreported.snapshot =
    (true, [IpcClientVerdict.AuthFailed], [true]) ∧
  Unreported.session (Unreported.snapshot ++ Unreported.malformed) = (false, [], [true]).
Proof. split; vm_compute; reflexivity. Qed.
