(* ===== verification/ProcessWatcher.v ===== *)
(** The process watcher ([process/process_watcher.hpp],
    [source/process/process_watcher.cpp]): matching processes to game rules,
    the difference of two rounds that drives each game's lifecycle, one poll of
    the system, and the ids of new rules. Wide strings are lists of code units;
    the Toolhelp, window and code-page functions of the system are the classes
    [ProcessSystem] and [CodePages]. *)

From S2P Require Import Prelude CommonError ConfigTypes.

Open Scope string_scope.
Open Scope list_scope.
Open Scope Z_scope.

(** ** Data *)

Module ProcessState.
Inductive ProcessState := NotRunning | Starting | Running | Suspended | Exiting.
End ProcessState.
Abbreviation ProcessState := ProcessState.ProcessState.

#[export] Instance ProcessState_eq_dec : EqDecision ProcessState.
Proof. solve_decision. Defined.

Definition ProcessStateToString (s : ProcessState) : string :=
  match s with
  | ProcessState.NotRunning => "NotRunning"
  | ProcessState.Starting => "Starting"
  | ProcessState.Running => "Running"
  | ProcessState.Suspended => "Suspended"
  | ProcessState.Exiting => "Exiting"
  end.

Record ProcessInfo := MkInfo {
  gameId : string;
  pid : Z;
  processName : wstring;
  windowTitle : wstring;
  state : ProcessState;
  isForeground : bool;
  isFullscreen : bool;
  generation : Z;
  creationTime100ns : Z
}.

Record ProcessTransition := MkTransition {
  tr_gameId : string;
  previous : ProcessState;
  current : ProcessState;
  info : ProcessInfo
}.

Record ProcessEntry := MkEntry {
  en_pid : Z;
  en_name : wstring;
  en_windowTitle : wstring;
  windowTitleKnown : bool
}.

Record GameRule := MkRule {
  rule_id : string;
  processNames : list wstring;
  windowTitleContains : wstring
}.

Record RuleMatch := MkMatch { match_gameId : string; match_entry : ProcessEntry }.

Record GamePresence := MkPresence {
  pr_gameId : string;
  pr_pid : Z;
  pr_processName : wstring;
  pr_creationTime100ns : Z;
  pr_windowTitle : wstring;
  pr_isForeground : bool;
  pr_isFullscreen : bool
}.

(** The tables a round fills and the generation counter, passed in and out. *)
Record DiffResult := MkDiff {
  tracked : list ProcessInfo;
  transitions : list ProcessTransition;
  nextGeneration : Z
}.

Record WindowInfo := MkWindow {
  win_title : wstring;
  hasVisibleWindow : bool;
  win_isForeground : bool;
  win_isFullscreen : bool
}.

Record ProcessDetails := MkDetails {
  det_pid : Z;
  det_name : wstring;
  executablePath : wstring;
  det_windowTitle : wstring;
  det_hasVisibleWindow : bool;
  det_isForeground : bool;
  det_isFullscreen : bool;
  workingSetBytes : Z
}.

(** ** Comparing text *)

(** ['A'..'Z'] to ['a'..'z']. *)
Definition FoldAscii (ch : Z) : Z :=
  if (65 <=? ch) && (ch <=? 90) then ch - 65 + 97 else ch.

Definition FoldAsciiChar (ch : ascii) : ascii :=
  if is_upper ch then ascii_of_N (Z.to_N (code ch - 65 + 97)) else ch.

Fixpoint AsciiEquals_loop (a b : string) : bool :=
  match a, b with
  | String x a', String y b' =>
      if negb (Ascii.eqb (FoldAsciiChar x) (FoldAsciiChar y)) then false
      else AsciiEquals_loop a' b'
  | _, _ => true
  end.

Definition AsciiEquals (a b : string) : bool :=
  if negb (strlen a =? strlen b) then false else AsciiEquals_loop a b.

(** The first [length needle] units of [text] are [needle], up to case. *)
Fixpoint FoldPrefix (needle text : wstring) : bool :=
  match needle, text with
  | [], _ => true
  | n :: needle', t :: text' =>
      if negb (FoldAscii t =? FoldAscii n) then false else FoldPrefix needle' text'
  | _ :: _, [] => false
  end.

Definition ProcessNameMatches (ruleName name : wstring) : bool :=
  if (len ruleName =? 0) || negb (len ruleName =? len name) then false
  else FoldPrefix ruleName name.

(** The positions of [text], from the left. *)
Fixpoint Contains_loop (text needle : wstring) : bool :=
  if FoldPrefix needle text then true
  else match text with
       | [] => false
       | _ :: text' => Contains_loop text' needle
       end.

Definition ContainsAscii (text needle : wstring) : bool :=
  if len needle =? 0 then true
  else if len text <? len needle then false
  else Contains_loop text needle.

Definition ProcessMatchesFilter (d : ProcessDetails) (filter : wstring) : bool :=
  if len filter =? 0 then true
  else ContainsAscii (det_name d) filter || ContainsAscii (executablePath d) filter ||
       ContainsAscii (det_windowTitle d) filter.

(** ** Rules and entries *)

(** The body of the inner loop: does the entry satisfy the rule? *)
Definition rule_accepts (rule : GameRule) (entry : ProcessEntry) : bool :=
  let hasTitleFilter := negb (len (windowTitleContains rule) =? 0) in
  let hit := existsb (λ ruleName, ProcessNameMatches ruleName (en_name entry))
               (processNames rule) in
  if negb hit then false
  else if hasTitleFilter then
    windowTitleKnown entry && ContainsAscii (en_windowTitle entry) (windowTitleContains rule)
  else true.

Fixpoint MatchRulesToEntries (rules : list GameRule) (entries : list ProcessEntry)
  : list RuleMatch :=
  match rules with
  | [] => []
  | rule :: rules' =>
      match List.find (rule_accepts rule) entries with
      | Some entry => MkMatch (rule_id rule) entry :: MatchRulesToEntries rules' entries
      | None => MatchRulesToEntries rules' entries
      end
  end.

(** ** The difference of two rounds *)

Definition FindTracked (l : list ProcessInfo) (g : string) (p : Z) : option ProcessInfo :=
  List.find (λ i, String.eqb (gameId i) g && (pid i =? p)) l.

Definition PresenceHas (presence : list GamePresence) (g : string) (p : Z) : bool :=
  existsb (λ i, String.eqb (pr_gameId i) g && (pr_pid i =? p)) presence.

Definition ToProcessInfo (p : GamePresence) (s : ProcessState) (gen : Z) : ProcessInfo :=
  MkInfo (pr_gameId p) (pr_pid p) (pr_processName p) (pr_windowTitle p) s
    (pr_isForeground p) (pr_isFullscreen p) gen (pr_creationTime100ns p).

Definition set_state (s : ProcessState) (i : ProcessInfo) : ProcessInfo :=
  MkInfo (gameId i) (pid i) (processName i) (windowTitle i) s (isForeground i)
    (isFullscreen i) (generation i) (creationTime100ns i).

(** Same pid, both creation times known and different. *)
Definition is_restart (prev : ProcessInfo) (item : GamePresence) : bool :=
  negb (creationTime100ns prev =? 0) && negb (pr_creationTime100ns item =? 0) &&
  negb (creationTime100ns prev =? pr_creationTime100ns item).

(** The first loop: a process that is present. *)
Definition present_step (prev : list ProcessInfo) (r : DiffResult) (item : GamePresence)
  : DiffResult :=
  if pr_pid item =? 0 then r
  else
    let fresh := ToProcessInfo item ProcessState.Starting (nextGeneration r) in
    let started := MkTransition (pr_gameId item) ProcessState.NotRunning
                     ProcessState.Starting fresh in
    match FindTracked prev (pr_gameId item) (pr_pid item) with
    | None =>
        MkDiff (tracked r ++ [fresh]) (transitions r ++ [started]) (u64 (nextGeneration r + 1))
    | Some q =>
        if is_restart q item then
          MkDiff (tracked r ++ [fresh])
            (transitions r ++
               [MkTransition (pr_gameId item) (state q) ProcessState.Exiting q; started])
            (u64 (nextGeneration r + 1))
        else
          let same := ToProcessInfo item ProcessState.Running (generation q) in
          MkDiff (tracked r ++ [same])
            (transitions r ++
               (if decide (state q = ProcessState.Running) then []
                else [MkTransition (pr_gameId item) (state q) ProcessState.Running same]))
            (nextGeneration r)
    end.

(** The second loop: a tracked process that is absent. *)
Definition absent_step (presence : list GamePresence) (r : DiffResult) (q : ProcessInfo)
  : DiffResult :=
  if PresenceHas presence (gameId q) (pid q) then r
  else
    match state q with
    | ProcessState.Starting | ProcessState.Running | ProcessState.Suspended =>
        let leaving := set_state ProcessState.Exiting q in
        MkDiff (tracked r ++ [leaving])
          (transitions r ++ [MkTransition (gameId q) (state q) ProcessState.Exiting leaving])
          (nextGeneration r)
    | ProcessState.Exiting =>
        MkDiff (tracked r)
          (transitions r ++ [MkTransition (gameId q) (state q) ProcessState.NotRunning q])
          (nextGeneration r)
    | ProcessState.NotRunning => r
    end.

Definition DiffProcessPresence (prev : list ProcessInfo) (presence : list GamePresence)
    (next : Z) : DiffResult :=
  foldl (absent_step presence) (foldl (present_step prev) (MkDiff [] [] next) presence) prev.

(** ** One poll *)

(** The read-only queries of the system. *)
Class ProcessSystem (S : Type) := {
  EnumerateProcesses : M S (Result (list ProcessEntry));
  QueryProcessCreationTime : Z → M S Z;
  QueryWindowInfo : Z → M S (Result WindowInfo)
}.

(** The members a poll reads or writes; [detectWindows] is the option. *)
Record ProcessWatcher := MkWatcher {
  detectWindows : bool;
  rules_ : list GameRule;
  tracked_ : list ProcessInfo;
  nextGeneration_ : Z
}.

Definition NewProcessWatcher (detect : bool) : ProcessWatcher := MkWatcher detect [] [] 1.

(** [Start] tracks anew; the generations go on. *)
Definition ClearTracked (w : ProcessWatcher) : ProcessWatcher :=
  MkWatcher (detectWindows w) (rules_ w) [] (nextGeneration_ w).

Section Poll.
Context {S : Type} `{!ProcessSystem S}.

Fixpoint mfold {A B} (f : B → A → M S B) (l : list A) (b : B) : M S B :=
  match l with
  | [] => mret b
  | x :: l' => b' <-- f b x ;; mfold f l' b'
  end.

(** [WindowInfo] by pid. *)
Definition WindowCache : Type := gmap Z WindowInfo.

Definition prefetch_entry (ruleName : wstring) (cache : WindowCache) (entry : ProcessEntry)
  : M S WindowCache :=
  if ProcessNameMatches ruleName (en_name entry) then
    match cache !! en_pid entry with
    | Some _ => mret cache
    | None =>
        info <-- QueryWindowInfo (en_pid entry) ;;
        match info with
        | Success w => mret (<[en_pid entry := w]> cache)
        | Failure _ => mret cache
        end
    end
  else mret cache.

Definition prefetch_rule (entries : list ProcessEntry) (cache : WindowCache) (rule : GameRule)
  : M S WindowCache :=
  if len (windowTitleContains rule) =? 0 then mret cache
  else mfold (λ cache ruleName, mfold (prefetch_entry ruleName) entries cache)
         (processNames rule) cache.

Definition with_title (cache : WindowCache) (entry : ProcessEntry) : ProcessEntry :=
  match cache !! en_pid entry with
  | Some w => MkEntry (en_pid entry) (en_name entry) (win_title w) true
  | None => entry
  end.

Definition presence_of (detect : bool) (cache : WindowCache) (m : RuleMatch)
  : M S GamePresence :=
  let entry := match_entry m in
  created <-- QueryProcessCreationTime (en_pid entry) ;;
  let item title fg fs :=
    MkPresence (match_gameId m) (en_pid entry) (en_name entry) created title fg fs in
  if detect then
    match cache !! en_pid entry with
    | Some w => mret (item (win_title w) (win_isForeground w) (win_isFullscreen w))
    | None =>
        window <-- QueryWindowInfo (en_pid entry) ;;
        match window with
        | Success w => mret (item (win_title w) (win_isForeground w) (win_isFullscreen w))
        | Failure _ => mret (item [] false false)
        end
    end
  else mret (item [] false false).

Definition PollOnce : M (ProcessWatcher * S) (Result (list ProcessTransition)) := λ '(w, s),
  match EnumerateProcesses s with
  | (Failure e, s1) => (Failure e, (w, s1))
  | (Success entries, s1) =>
      let hasTitleRule :=
        existsb (λ rule, negb (len (windowTitleContains rule) =? 0)) (rules_ w) in
      let '(cache, s2) :=
        if hasTitleRule then mfold (prefetch_rule entries) (rules_ w) ∅ s1 else (∅, s1) in
      let entries := if hasTitleRule then map (with_title cache) entries else entries in
      let '(presence, s3) :=
        mfold (λ acc m, item <-- presence_of (detectWindows w) cache m ;; mret (acc ++ [item]))
          (MatchRulesToEntries (rules_ w) entries) [] s2 in
      let diff := DiffProcessPresence (tracked_ w) presence (nextGeneration_ w) in
      (Success (transitions diff),
       (MkWatcher (detectWindows w) (rules_ w) (tracked diff) (nextGeneration diff), s3))
  end.
End Poll.

(** ** New rules *)

(** The conversions between UTF-8 and UTF-16, or the error code. *)
Class CodePages := {
  MultiByteToWideChar : string → wstring + Z;
  WideCharToMultiByte : wstring → string + Z
}.

Section NewRules.
Context `{!CodePages} `{!SystemMessages}.

Definition Utf8ToWide (text : string) : Result wstring :=
  if string_empty text then Success []
  else match MultiByteToWideChar text with
       | inl wide => Success wide
       | inr e => Failure (FromWin32 e "MultiByteToWideChar")
       end.

Definition WideToUtf8 (text : wstring) : Result string :=
  if len text =? 0 then Success ""
  else match WideCharToMultiByte text with
       | inl utf8 => Success utf8
       | inr e => Failure (FromWin32 e "WideCharToMultiByte")
       end.

Fixpoint wide_names (names : list string) : Result (list wstring) :=
  match names with
  | [] => Success []
  | name :: names' =>
      match Utf8ToWide name with
      | Failure e => Failure e
      | Success wide =>
          match wide_names names' with
          | Failure e => Failure e
          | Success wides => Success (wide :: wides)
          end
      end
  end.

Fixpoint BuildGameRules (games : list GameConfig) : Result (list GameRule) :=
  match games with
  | [] => Success []
  | game :: games' =>
      match wide_names (cfg_processNames game) with
      | Failure e => Failure e
      | Success names =>
          match Utf8ToWide (cfg_windowTitleContains game) with
          | Failure e => Failure e
          | Success title =>
              match BuildGameRules games' with
              | Failure e => Failure e
              | Success rules => Success (MkRule (cfg_id game) names title :: rules)
              end
          end
      end
  end.

Definition SetRules (games : list GameConfig) (w : ProcessWatcher)
  : Result unit * ProcessWatcher :=
  match BuildGameRules games with
  | Failure e => (Failure e, w)
  | Success rules => (Success tt, MkWatcher (detectWindows w) rules [] 1)
  end.

(** The index of the last ['.']. *)
Fixpoint last_dot (text : wstring) : option nat :=
  match text with
  | [] => None
  | c :: text' =>
      match last_dot text' with
      | Some i => Some (Datatypes.S i)
      | None => if c =? 46 then Some O else None
      end
  end.

Fixpoint lower_ascii (s : string) : string :=
  match s with
  | EmptyString => EmptyString
  | String c s' => String (FoldAsciiChar c) (lower_ascii s')
  end.

Definition DeriveGameId (name : wstring) : Result string :=
  let base := match last_dot name with
              | Some (Datatypes.S i) => take (Datatypes.S i) name
              | _ => name
              end in
  match WideToUtf8 base with
  | Failure _ => Failure (Validation "DeriveGameId" "Process name is not valid UTF-16")
  | Success id => Success (lower_ascii id)
  end.

Definition conflict (existing : list GameConfig) (candidate : string) : bool :=
  existsb (λ game, AsciiEquals (cfg_id game) candidate) existing.

Fixpoint unique_loop (fuel : nat) (baseId : string) (existing : list GameConfig) (suffix : Z)
  : option string :=
  match fuel with
  | O => None
  | Datatypes.S fuel' =>
      let candidate := baseId +:+ "-" +:+ to_string suffix in
      if negb (conflict existing candidate) then Some candidate
      else unique_loop fuel' baseId existing (i32 (suffix + 1))
  end.

(** [None]: no candidate was free within [fuel] attempts. *)
Definition MakeUniqueGameId (fuel : nat) (baseId : string) (existing : list GameConfig)
  : option string :=
  if negb (conflict existing baseId) then Some baseId
  else unique_loop fuel baseId existing 2.

Definition hinted (hint : wstring) (current : string) : string :=
  if string_empty current && negb (len hint =? 0) then
    match WideToUtf8 hint with Success name => name | Failure _ => current end
  else current.

Definition BuildGameRuleFromProcess (fuel : nat) (details : ProcessDetails)
    (existing : list GameConfig) (displayNameHint : wstring)
  : option (Result GameConfig) :=
  if len (det_name details) =? 0 then
    Some (Failure (Validation "BuildGameRuleFromProcess.name" "Process name is empty"))
  else
    let no_id := Some (Failure (Validation "BuildGameRuleFromProcess.id"
                   "Cannot derive a stable id from the process name")) in
    match DeriveGameId (det_name details) with
    | Failure _ => no_id
    | Success baseId =>
        if string_empty baseId then no_id
        else
          match MakeUniqueGameId fuel baseId existing with
          | None => None
          | Some id =>
              let shown :=
                hinted (det_name details)
                  (hinted (det_windowTitle details) (hinted displayNameHint "")) in
              match WideToUtf8 (det_name details) with
              | Failure e => Some (Failure e)
              | Success name => Some (Success (MkGameConfig id shown [name] "" true))
              end
          end
    end.
End NewRules.

(** ** The lifecycle of one game's process *)

Definition key_of (i : ProcessInfo) : string * Z := (gameId i, pid i).
Definition presence_key (i : GamePresence) : string * Z := (pr_gameId i, pr_pid i).

Definition FindPresence (l : list GamePresence) (g : string) (p : Z) : option GamePresence :=
  List.find (λ i, String.eqb (pr_gameId i) g && (pr_pid i =? p)) l.

Definition events_of (g : string) (p : Z) (l : list ProcessTransition) : list ProcessTransition :=
  filter (λ t, tr_gameId t = g ∧ pid (info t) = p) l.

(** One round for one rule and pid: what was tracked and what is present give
    what is tracked next and the events, a new lifecycle taking [gen]. *)
Definition key_round (prev : option ProcessInfo) (item : option GamePresence) (gen : Z)
  : option ProcessInfo * list ProcessTransition :=
  match item, prev with
  | None, None => (None, [])
  | Some i, None =>
      let fresh := ToProcessInfo i ProcessState.Starting gen in
      (Some fresh, [MkTransition (pr_gameId i) ProcessState.NotRunning ProcessState.Starting fresh])
  | Some i, Some q =>
      if is_restart q i then
        let fresh := ToProcessInfo i ProcessState.Starting gen in
        (Some fresh,
         [MkTransition (pr_gameId i) (state q) ProcessState.Exiting q;
          MkTransition (pr_gameId i) ProcessState.NotRunning ProcessState.Starting fresh])
      else
        let same := ToProcessInfo i ProcessState.Running (generation q) in
        (Some same,
         if decide (state q = ProcessState.Running) then []
         else [MkTransition (pr_gameId i) (state q) ProcessState.Running same])
  | None, Some q =>
      match state q with
      | ProcessState.Exiting =>
          (None, [MkTransition (gameId q) (state q) ProcessState.NotRunning q])
      | ProcessState.NotRunning => (None, [])
      | _ =>
          let leaving := set_state ProcessState.Exiting q in
          (Some leaving, [MkTransition (gameId q) (state q) ProcessState.Exiting leaving])
      end
  end.

Lemma mfold_preserves {T C B X} (obs : B → X) (f : C → T → M B C) l c :
  (∀ c x, preserves obs (f c x)) → preserves obs (mfold f l c).
Proof. intros Hf. revert c. induction l as [|x l IH]; intros c; cbn [mfold]; frame. Qed.

Lemma same_key g p g' p' : String.eqb g' g && (p' =? p) = true ↔ (g', p') = (g, p).
Proof. rewrite andb_true_iff, String.eqb_eq, Z.eqb_eq. naive_solver. Qed.

Lemma other_key g p g' p' : String.eqb g' g && (p' =? p) = false ↔ (g', p') ≠ (g, p).
Proof. rewrite <- same_key. by destruct (_ && _). Qed.

Lemma FindTracked_Some l g p q :
  FindTracked l g p = Some q → q ∈ l ∧ key_of q = (g, p).
Proof. intros [H1 H2]%List.find_some. split; [by apply list_elem_of_In|]. by apply same_key. Qed.

Lemma FindTracked_app a b g p :
  FindTracked (a ++ b) g p =
  match FindTracked a g p with Some q => Some q | None => FindTracked b g p end.
Proof. induction a as [|x a IH]; cbn; [done|]. by destruct (_ && _). Qed.

Lemma FindTracked_one q g p :
  FindTracked [q] g p = if decide (key_of q = (g, p)) then Some q else None.
Proof.
  cbn. case_decide as H.
  - by rewrite (proj2 (same_key _ _ _ _)).
  - by rewrite (proj2 (other_key _ _ _ _)).
Qed.

Lemma FindTracked_None l g p : (g, p) ∉ map key_of l → FindTracked l g p = None.
Proof.
  intros H. destruct (FindTracked l g p) as [q|] eqn:E; [|done].
  apply FindTracked_Some in E as [Hq E]. destruct H. rewrite <- E.
  by apply list_elem_of_fmap_2.
Qed.

Lemma FindPresence_None l g p : (g, p) ∉ map presence_key l → FindPresence l g p = None.
Proof.
  intros H. destruct (FindPresence l g p) as [q|] eqn:E; [|done].
  apply List.find_some in E as [Hq%list_elem_of_In E%same_key]. destruct H.
  change (g, p) with (g, p). rewrite <- E.
  by apply (list_elem_of_fmap_2 presence_key).
Qed.

Lemma PresenceHas_spec l g p :
  PresenceHas l g p = match FindPresence l g p with Some _ => true | None => false end.
Proof. unfold PresenceHas, FindPresence. induction l; cbn; [done|]. by destruct (_ && _). Qed.

Lemma events_of_app g p a b : events_of g p (a ++ b) = events_of g p a ++ events_of g p b.
Proof. apply filter_app. Qed.

Lemma events_of_same g p l :
  Forall (λ t, tr_gameId t = g ∧ pid (info t) = p) l → events_of g p l = l.
Proof.
  unfold events_of. induction 1 as [|t l Ht _ IH]; [done|]. by rewrite filter_cons_True, IH.
Qed.

Lemma events_of_other g p g' p' l :
  (g', p') ≠ (g, p) → Forall (λ t, tr_gameId t = g' ∧ pid (info t) = p') l →
  events_of g p l = [].
Proof.
  intros Hne. unfold events_of. induction 1 as [|t l [Hg Hp] _ IH]; [done|].
  rewrite filter_cons_False; [done|]. naive_solver.
Qed.

(** What a step of either loop adds, if it concerns the key. *)
Definition adds (r r' : DiffResult) (g : string) (p : Z)
    (out : option ProcessInfo * list ProcessTransition) : Prop :=
  tracked r' = tracked r ++ option_list out.1 ∧
  transitions r' = transitions r ++ out.2 ∧
  Forall (λ i, key_of i = (g, p)) (option_list out.1) ∧
  Forall (λ t, tr_gameId t = g ∧ pid (info t) = p) out.2.

Lemma present_step_adds prev r item :
  pr_pid item ≠ 0 →
  adds r (present_step prev r item) (pr_gameId item) (pr_pid item)
    (key_round (FindTracked prev (pr_gameId item) (pr_pid item)) (Some item)
       (nextGeneration r)).
Proof.
  intros Hp. unfold adds, present_step. rewrite (proj2 (Z.eqb_neq _ _)) by done.
  destruct (FindTracked _ _ _) as [q|] eqn:E; cbn.
  - apply FindTracked_Some in E as [_ [= Hg Hq]].
    destruct (is_restart q item); [|case_decide]; cbn; repeat split; repeat constructor;
      cbn; auto; by rewrite app_nil_r.
  - repeat split; repeat constructor.
Qed.

Lemma absent_step_adds presence r q :
  PresenceHas presence (gameId q) (pid q) = false →
  adds r (absent_step presence r q) (gameId q) (pid q) (key_round (Some q) None 0).
Proof.
  intros Hp. unfold adds, absent_step, key_round. rewrite Hp.
  destruct (state q); cbn; rewrite ?app_nil_r; repeat split; repeat constructor.
Qed.

Lemma adds_at r r' g p out :
  adds r r' g p out → FindTracked (tracked r) g p = None →
  FindTracked (tracked r') g p = out.1 ∧
  events_of g p (transitions r') = events_of g p (transitions r) ++ out.2.
Proof.
  intros (-> & -> & Hi & Ht) Hn. rewrite FindTracked_app, Hn, events_of_app.
  rewrite (events_of_same _ _ out.2) by done. split; [|done].
  destruct out.1 as [i|]; [|done]. change (option_list (Some i)) with [i] in *.
  apply Forall_inv in Hi.
  rewrite FindTracked_one. by case_decide.
Qed.

Lemma adds_other r r' g p out g' p' :
  adds r r' g' p' out → (g', p') ≠ (g, p) →
  FindTracked (tracked r') g p = FindTracked (tracked r) g p ∧
  events_of g p (transitions r') = events_of g p (transitions r).
Proof.
  intros (-> & -> & Hi & Ht) Hne. rewrite FindTracked_app, events_of_app.
  rewrite (events_of_other _ _ g' p' out.2), app_nil_r by done. split; [|done].
  destruct (FindTracked (tracked r) g p); [done|].
  destruct out.1 as [i|]; [|done]. change (option_list (Some i)) with [i] in *.
  apply Forall_inv in Hi.
  rewrite FindTracked_one, decide_False; [done|congruence].
Qed.

Lemma present_fold_other prev presence r g p :
  (g, p) ∉ map presence_key presence →
  let r' := foldl (present_step prev) r presence in
  FindTracked (tracked r') g p = FindTracked (tracked r) g p ∧
  events_of g p (transitions r') = events_of g p (transitions r).
Proof.
  cbv zeta. revert r. induction presence as [|item presence IH]; intros r Hk; [done|].
  cbn [map] in Hk. apply not_elem_of_cons in Hk as [Hne Hk]. cbn [foldl].
  destruct (IH (present_step prev r item) Hk) as [-> ->].
  destruct (Z.eq_dec (pr_pid item) 0) as [Hz|Hz].
  { unfold present_step. by rewrite (proj2 (Z.eqb_eq _ _) Hz). }
  eapply adds_other; [by apply present_step_adds|]. unfold presence_key in Hne. congruence.
Qed.

Lemma absent_fold_other presence prev r g p :
  (g, p) ∉ map key_of prev →
  let r' := foldl (absent_step presence) r prev in
  FindTracked (tracked r') g p = FindTracked (tracked r) g p ∧
  events_of g p (transitions r') = events_of g p (transitions r).
Proof.
  cbv zeta. revert r. induction prev as [|q prev IH]; intros r Hk; [done|].
  cbn [map] in Hk. apply not_elem_of_cons in Hk as [Hne Hk]. cbn [foldl].
  destruct (IH (absent_step presence r q) Hk) as [-> ->].
  destruct (PresenceHas presence (gameId q) (pid q)) eqn:Hp.
  { unfold absent_step. by rewrite Hp. }
  eapply adds_other; [by apply absent_step_adds|]. unfold key_of in Hne. congruence.
Qed.

Lemma present_fold prev presence r g p :
  p ≠ 0 → NoDup (map presence_key presence) → FindTracked (tracked r) g p = None →
  ∃ gen,
    let r' := foldl (present_step prev) r presence in
    let out := match FindPresence presence g p with
               | Some i => key_round (FindTracked prev g p) (Some i) gen
               | None => (None, [])
               end in
    FindTracked (tracked r') g p = out.1 ∧
    events_of g p (transitions r') = events_of g p (transitions r) ++ out.2.
Proof.
  intros Hp. revert r. induction presence as [|item presence IH]; intros r Hnd Hn.
  { exists 0. cbn. by rewrite app_nil_r. }
  cbn [map] in Hnd. apply NoDup_cons in Hnd as [Hk Hnd].
  cbn [foldl FindPresence List.find]. fold (FindPresence presence g p).
  destruct (Z.eq_dec (pr_pid item) 0) as [Hz|Hz].
  { unfold present_step at 2 4. rewrite (proj2 (Z.eqb_eq _ _) Hz).
    rewrite (proj2 (other_key _ _ _ _)) by congruence. by apply IH. }
  pose proof (present_step_adds prev r item Hz) as Hadd.
  set (r1 := present_step prev r item) in *.
  destruct (decide ((pr_gameId item, pr_pid item) = (g, p))) as [E|E].
  - rewrite (proj2 (same_key _ _ _ _) E). injection E as <- <-.
    exists (nextGeneration r). destruct (adds_at _ _ _ _ _ Hadd Hn) as [Ht He].
    cbv zeta. rewrite <- Ht, <- He. by apply present_fold_other.
  - rewrite (proj2 (other_key _ _ _ _) E).
    destruct (adds_other _ _ g p _ _ _ Hadd E) as [Ht He].
    rewrite <- He. apply IH; [done|congruence].
Qed.

Lemma absent_fold presence prev r g p :
  NoDup (map key_of prev) →
  let r' := foldl (absent_step presence) r prev in
  let out := match FindPresence presence g p with
             | Some _ => (None, [])
             | None => key_round (FindTracked prev g p) None 0
             end in
  (FindPresence presence g p = None → FindTracked (tracked r) g p = None) →
  FindTracked (tracked r') g p =
    match FindPresence presence g p with Some _ => FindTracked (tracked r) g p | None => out.1 end ∧
  events_of g p (transitions r') = events_of g p (transitions r) ++ out.2.
Proof.
  cbv zeta. revert r. induction prev as [|q prev IH]; intros r Hnd Hn.
  { cbn. destruct (FindPresence presence g p); cbn; rewrite app_nil_r; auto. }
  cbn [map] in Hnd. apply NoDup_cons in Hnd as [Hk Hnd].
  cbn [foldl FindTracked List.find]. fold (FindTracked prev g p).
  destruct (PresenceHas presence (gameId q) (pid q)) eqn:Hpres.
  - unfold absent_step at 2 4. rewrite Hpres. destruct (IH r Hnd Hn) as [-> ->].
    destruct (_ && _) eqn:E; [|done]. apply same_key in E as [= <- <-].
    rewrite PresenceHas_spec in Hpres. by destruct (FindPresence _ _ _).
  - pose proof (absent_step_adds presence r q Hpres) as Hadd.
    set (r1 := absent_step presence r q) in *.
    destruct (String.eqb (gameId q) g && _) eqn:E.
    + apply same_key in E as [= <- <-]. rewrite PresenceHas_spec in Hpres.
      destruct (FindPresence _ _ _) eqn:Hf; [done|].
      destruct (adds_at _ _ _ _ _ Hadd (Hn eq_refl)) as [Ht He]. rewrite <- Ht, <- He.
      by apply absent_fold_other.
    + apply other_key in E. destruct (adds_other _ _ g p _ _ _ Hadd E) as [Ht He].
      rewrite <- He, <- Ht. apply IH; [done|]. intros Hf. rewrite Ht. by apply Hn.
Qed.

(** The two loops together. *)
Lemma DiffProcessPresence_spec (prev : list ProcessInfo) (presence : list GamePresence)
    (next : Z) (g : string) (p : Z) :
  NoDup (map key_of prev) → NoDup (map presence_key presence) → p ≠ 0 →
  ∃ gen,
    let r := DiffProcessPresence prev presence next in
    let out := key_round (FindTracked prev g p) (FindPresence presence g p) gen in
    FindTracked (tracked r) g p = out.1 ∧ events_of g p (transitions r) = out.2.
Proof.
  intros Hprev Hpres Hp. unfold DiffProcessPresence.
  destruct (present_fold prev presence (MkDiff [] [] next) g p Hp Hpres eq_refl)
    as (gen & Ht & He).
  set (r := foldl (present_step prev) _ _) in *. cbv zeta in *.
  destruct (absent_fold presence prev r g p Hprev) as [Ht' He'].
  { intros Hf. by rewrite Hf in Ht. }
  exists gen. rewrite Ht', He', He. destruct (FindPresence presence g p); cbn.
  - by rewrite Ht, app_nil_r.
  - destruct (FindTracked prev g p) as [q|]; [|done]. by destruct (state q).
Qed.

(** The difference of two rounds is a state machine per rule and pid: what is
    tracked of it afterwards, and the events it gives rise to with their order,
    depend only on what was tracked of it and on its own presence, as
    [key_round] says, whatever other games do. *)
Lemma DiffProcessPresence_pointwise (prev : list ProcessInfo) (presence : list GamePresence)
    (next : Z) (g : string) (p : Z) :
  NoDup (map key_of prev) → NoDup (map presence_key presence) → p ≠ 0 →
  ∃ gen,
    let r := DiffProcessPresence prev presence next in
    let out := key_round (FindTracked prev g p) (FindPresence presence g p) gen in
    FindTracked (tracked r) g p = out.1 ∧ events_of g p (transitions r) = out.2.
Proof. apply DiffProcessPresence_spec. Qed.

(** ** Whole histories *)

Definition live (s : ProcessState) : Prop :=
  s = ProcessState.Starting ∨ s = ProcessState.Running ∨ s = ProcessState.Exiting.

(** The generations given to lifecycles that start. *)
Definition starts (l : list ProcessTransition) : list Z :=
  map (λ t, generation (info t)) (filter (λ t, current t = ProcessState.Starting) l).

(** What a tracking table satisfies with its counter. *)
Definition watch_inv (l : list ProcessInfo) (next : Z) : Prop :=
  NoDup (map key_of l) ∧
  Forall (λ i, pid i ≠ 0 ∧ live (state i) ∧ generation i < next) l ∧
  ∀ i j, i ∈ l → j ∈ l → generation i = generation j → key_of i = key_of j.

(** The same inside a round that began at [next] with the table [prev]. *)
Definition round_inv (prev : list ProcessInfo) (next : Z) (r : DiffResult) : Prop :=
  next <= nextGeneration r ∧
  Forall (λ i, pid i ≠ 0 ∧ live (state i) ∧ generation i < nextGeneration r ∧
               (next <= generation i ∨
                ∃ q, q ∈ prev ∧ key_of q = key_of i ∧ generation q = generation i)) (tracked r) ∧
  (∀ i j, i ∈ tracked r → j ∈ tracked r → generation i = generation j → key_of i = key_of j) ∧
  Forall (λ g, next <= g < nextGeneration r) (starts (transitions r)) ∧
  NoDup (starts (transitions r)).

Lemma starts_app a b : starts (a ++ b) = starts a ++ starts b.
Proof. unfold starts. by rewrite filter_app, map_app. Qed.

(** A step may add a fresh lifecycle, or one that continues an entry of [prev]. *)
Lemma round_inv_fresh prev next r i ts :
  watch_inv prev next → round_inv prev next r → pid i ≠ 0 → live (state i) →
  generation i = nextGeneration r → starts ts = [nextGeneration r] →
  round_inv prev next (MkDiff (tracked r ++ [i]) (transitions r ++ ts) (nextGeneration r + 1)).
Proof.
  intros Hw (Hn & Hi & Hu & Hs & Hd) Hp Hl Hg Ht. unfold round_inv.
  cbn [tracked transitions nextGeneration].
  rewrite starts_app, Ht. rewrite list.Forall_forall in Hi. rewrite list.Forall_forall in Hs.
  split; [lia|]. split; [|split; [|split]].
  - apply Forall_app. split; [|apply Forall_singleton; split_and!; [done..|lia|left; lia]].
    apply list.Forall_forall. intros j Hj. destruct (Hi j Hj) as (? & ? & ? & ?).
    repeat split; [done..|lia|done].
  - intros j k [Hj| ->%list_elem_of_singleton]%elem_of_app
      [Hk| ->%list_elem_of_singleton]%elem_of_app E; auto.
    + destruct (Hi j Hj) as (_ & _ & ? & _). lia.
    + destruct (Hi k Hk) as (_ & _ & ? & _). lia.
  - apply Forall_app. split; [|apply Forall_singleton; lia].
    apply list.Forall_forall. intros g Hg'. specialize (Hs g Hg'). lia.
  - apply NoDup_app. split; [done|]. split; [|apply NoDup_singleton].
    intros g Hg' ->%list_elem_of_singleton. specialize (Hs _ Hg'). lia.
Qed.

Lemma round_inv_same prev next r i ts q :
  watch_inv prev next → round_inv prev next r → live (state i) →
  q ∈ prev → key_of q = key_of i → generation q = generation i → starts ts = [] →
  round_inv prev next (MkDiff (tracked r ++ [i]) (transitions r ++ ts) (nextGeneration r)).
Proof.
  intros (_ & Hw & Hwu) (Hn & Hi & Hu & Hs & Hd) Hl Hq Ek Eg Ht. unfold round_inv.
  cbn [tracked transitions nextGeneration].
  rewrite starts_app, Ht, app_nil_r. rewrite list.Forall_forall in Hw.
  destruct (Hw q Hq) as (Hp & _ & Hlt).
  assert (pid i ≠ 0) as Hpi by (injection Ek; congruence).
  assert (∀ j, j ∈ tracked r → generation i = generation j → key_of i = key_of j) as Hnew.
  { intros j Hj E. rewrite list.Forall_forall in Hi.
    destruct (Hi j Hj) as (_ & _ & _ & [Hge|(q' & Hq' & Ek' & Eg')]); [lia|].
    rewrite <- Ek, <- Ek'. apply Hwu; [done..|congruence]. }
  split; [done|]. split; [|split; [|done]].
  - apply Forall_app. split; [done|]. apply Forall_singleton.
    split_and!; [done..|lia|]. right. by exists q.
  - intros j k [Hj| ->%list_elem_of_singleton]%elem_of_app
      [Hk| ->%list_elem_of_singleton]%elem_of_app E; auto.
    symmetry. by apply Hnew.
Qed.

Lemma round_inv_events prev next r ts :
  round_inv prev next r → starts ts = [] →
  round_inv prev next (MkDiff (tracked r) (transitions r ++ ts) (nextGeneration r)).
Proof.
  intros (Hn & Hi & Hu & Hs & Hd) Ht. unfold round_inv.
  cbn [tracked transitions nextGeneration]. by rewrite starts_app, Ht, app_nil_r.
Qed.

Lemma present_step_inv prev next r item :
  watch_inv prev next → round_inv prev next r → 0 <= nextGeneration r < 2 ^ 64 - 1 →
  round_inv prev next (present_step prev r item) ∧
  nextGeneration r <= nextGeneration (present_step prev r item) <= nextGeneration r + 1.
Proof.
  intros Hw Hr Hb. unfold present_step.
  destruct (Z.eqb_spec (pr_pid item) 0) as [|Hp]; [split; [done|lia]|].
  rewrite u64_small by (unfold is_u64; lia).
  destruct (FindTracked _ _ _) as [q|] eqn:E; cbn [nextGeneration].
  - apply FindTracked_Some in E as [Hq Ek]. destruct (is_restart q item); cbn [nextGeneration].
    + split; [|lia]. apply round_inv_fresh; try done. by left.
    + split; [|lia]. apply (round_inv_same _ _ _ _ _ q); try done; [by right; left|].
      by case_decide.
  - split; [|lia]. apply round_inv_fresh; try done. by left.
Qed.

Lemma absent_step_inv presence prev next r q :
  watch_inv prev next → round_inv prev next r → q ∈ prev →
  round_inv prev next (absent_step presence r q) ∧
  nextGeneration (absent_step presence r q) = nextGeneration r.
Proof.
  intros Hw Hr Hq. unfold absent_step. destruct (PresenceHas _ _ _); [done|].
  destruct (state q) eqn:E; try done; (split; [|done]).
  1-3: apply (round_inv_same _ _ _ _ _ q); try done; by right; right.
  by apply round_inv_events.
Qed.

Lemma present_fold_inv prev next presence r :
  watch_inv prev next → round_inv prev next r →
  0 <= nextGeneration r → nextGeneration r + len presence < 2 ^ 64 ->
  let r' := foldl (present_step prev) r presence in
  round_inv prev next r' ∧
  nextGeneration r <= nextGeneration r' <= nextGeneration r + len presence.
Proof.
  cbv zeta. intros Hw. revert r. induction presence as [|item presence IH]; intros r Hr H0 Hb;
    cbn [foldl length] in *; [split; [done|lia]|].
  destruct (present_step_inv prev next r item Hw Hr ltac:(lia)) as [Hr1 Hn].
  destruct (IH _ Hr1 ltac:(lia) ltac:(lia)). split; [done|lia].
Qed.

Lemma absent_fold_inv presence prev next r l :
  watch_inv prev next → round_inv prev next r → (∀ q, q ∈ l → q ∈ prev) →
  let r' := foldl (absent_step presence) r l in
  round_inv prev next r' ∧ nextGeneration r' = nextGeneration r.
Proof.
  cbv zeta. intros Hw. revert r. induction l as [|q l IH]; intros r Hr Hl; [done|].
  cbn [foldl]. destruct (absent_step_inv presence prev next r q Hw Hr) as [Hr1 <-].
  { apply Hl. by left. }
  apply IH; [done|]. intros q' Hq'. apply Hl. by right.
Qed.

Lemma present_fold_keys prev presence r :
  map key_of (tracked (foldl (present_step prev) r presence)) =
  map key_of (tracked r) ++ map presence_key (filter (λ i, pr_pid i ≠ 0) presence).
Proof.
  revert r. induction presence as [|item presence IH]; intros r; cbn [foldl].
  { by rewrite app_nil_r. }
  rewrite IH. destruct (Z.eq_dec (pr_pid item) 0) as [Hz|Hz].
  - rewrite filter_cons_False by congruence. unfold present_step.
    by rewrite (proj2 (Z.eqb_eq _ _) Hz).
  - rewrite filter_cons_True by done. cbn [map].
    destruct (present_step_adds prev r item Hz) as (-> & _ & Hk & _).
    rewrite map_app, <- app_assoc. f_equal.
    assert (map key_of (option_list (key_round (FindTracked prev (pr_gameId item) (pr_pid item))
              (Some item) (nextGeneration r)).1) = [presence_key item]) as ->; [|done].
    unfold key_round. destruct (FindTracked _ _ _); [destruct (is_restart _ _)|]; done.
Qed.

Lemma absent_fold_keys presence l r :
  ∃ ks, map key_of (tracked (foldl (absent_step presence) r l)) =
        map key_of (tracked r) ++ ks ∧
        ks `sublist_of` map key_of (filter (λ q, PresenceHas presence (gameId q) (pid q) = false) l).
Proof.
  revert r. induction l as [|q l IH]; intros r; cbn [foldl].
  { exists []. by rewrite app_nil_r. }
  destruct (IH (absent_step presence r q)) as (ks & -> & Hks).
  destruct (PresenceHas presence (gameId q) (pid q)) eqn:Hp.
  - exists ks. rewrite filter_cons_False by congruence. unfold absent_step. by rewrite Hp.
  - rewrite filter_cons_True by done. unfold absent_step. rewrite Hp.
    destruct (state q); cbn [tracked map];
      try (exists ks; split; [done|by constructor]);
      (exists (key_of q :: ks); rewrite map_app, <- app_assoc; split; [done|by constructor]).
Qed.

Lemma PresenceHas_key presence q :
  PresenceHas presence (gameId q) (pid q) = false → key_of q ∉ map presence_key presence.
Proof.
  intros Hp (i & E & Hi)%list_elem_of_fmap. unfold PresenceHas in Hp.
  apply not_true_iff_false in Hp. destruct Hp. apply existsb_exists.
  exists i. split; [by apply list_elem_of_In|]. by apply same_key.
Qed.

(** One round keeps the invariant, and numbers the lifecycles that start with
    new generations. *)
Lemma Diff_inv prev next presence :
  watch_inv prev next → NoDup (map presence_key presence) →
  0 <= next → next + len presence < 2 ^ 64 →
  let r := DiffProcessPresence prev presence next in
  watch_inv (tracked r) (nextGeneration r) ∧
  next <= nextGeneration r <= next + len presence ∧
  Forall (λ g, next <= g < nextGeneration r) (starts (transitions r)) ∧
  NoDup (starts (transitions r)).
Proof.
  intros Hw Hnd H0 Hb. cbv zeta. unfold DiffProcessPresence.
  assert (round_inv prev next (MkDiff [] [] next)) as Hr0.
  { unfold round_inv. cbn. split; [lia|]. split; [constructor|].
    split; [by intros ?? ?%elem_of_nil|]. split; constructor. }
  destruct (present_fold_inv prev next presence _ Hw Hr0) as [Hr1 Hn1]; [done..|].
  cbn [nextGeneration] in Hn1.
  set (r1 := foldl (present_step prev) _ _) in *.
  destruct (absent_fold_inv presence prev next r1 prev Hw Hr1) as [Hr2 Hn2]; [done|].
  pose proof (present_fold_keys prev presence (MkDiff [] [] next)) as Hk1. fold r1 in Hk1.
  destruct (absent_fold_keys presence prev r1) as (ks & Hk2 & Hks).
  set (r2 := foldl _ r1 prev) in *.
  destruct Hr2 as (_ & Hi & Hu & Hs & Hd). split_and!; [|lia|lia|done|done].
  split; [|split; [|done]].
  - rewrite Hk2, Hk1. cbn [tracked map app]. apply NoDup_app. split_and!.
    + eapply sublist_NoDup; [exact Hnd|]. apply (fmap_sublist presence_key), sublist_filter.
    + intros k Hk Hk'. eapply elem_of_sublist in Hk'; [|exact Hks].
      apply list_elem_of_fmap in Hk' as (q & -> & [Hq _]%list_elem_of_filter).
      apply (PresenceHas_key presence q Hq).
      apply list_elem_of_fmap in Hk as (i & -> & [_ Hi']%list_elem_of_filter).
      by apply list_elem_of_fmap_2.
    + eapply sublist_NoDup; [|exact Hks]. eapply sublist_NoDup; [exact (proj1 Hw)|].
      apply (fmap_sublist key_of), sublist_filter.
  - eapply Forall_impl; [exact Hi|]. cbn. naive_solver.
Qed.

(** Rounds one after the other. *)
Fixpoint run_watch (rounds : list (list GamePresence)) (l : list ProcessInfo) (next : Z)
  : list ProcessTransition * (list ProcessInfo * Z) :=
  match rounds with
  | [] => ([], (l, next))
  | presence :: rounds' =>
      let r := DiffProcessPresence l presence next in
      let '(evs, final) := run_watch rounds' (tracked r) (nextGeneration r) in
      (transitions r ++ evs, final)
  end.

(** An event that may follow when the state is [s], in the lifecycle [g]: a start
    opens a new lifecycle, when none is open or the last is leaving; any other
    event belongs to the open lifecycle and continues from its state. *)
Definition legal (s : ProcessState) (g : Z) (t : ProcessTransition) : Prop :=
  let continues := previous t = s ∧ live s ∧ generation (info t) = g in
  match current t with
  | ProcessState.Starting =>
      previous t = ProcessState.NotRunning ∧
      (s = ProcessState.NotRunning ∨ s = ProcessState.Exiting)
  | ProcessState.Running => continues ∧ s ≠ ProcessState.Running
  | ProcessState.Exiting => continues
  | ProcessState.NotRunning => continues ∧ s = ProcessState.Exiting
  | ProcessState.Suspended => False
  end.

Fixpoint follows (s : ProcessState) (g : Z) (l : list ProcessTransition)
    (s' : ProcessState) (g' : Z) : Prop :=
  match l with
  | [] => s = s' ∧ g = g'
  | t :: l' => legal s g t ∧ follows (current t) (generation (info t)) l' s' g'
  end.

(** Where a key stands: as tracked, or not running. *)
Definition stands (q : option ProcessInfo) (s : ProcessState) (g : Z) : Prop :=
  match q with
  | Some q => s = state q ∧ g = generation q
  | None => s = ProcessState.NotRunning
  end.

Lemma follows_app s g a s1 g1 b s2 g2 :
  follows s g a s1 g1 → follows s1 g1 b s2 g2 → follows s g (a ++ b) s2 g2.
Proof.
  revert s g. induction a as [|t a IH]; cbn; [by intros s g [-> ->]|].
  intros s g [Ht Ha] Hb. split; [done|]. by apply IH.
Qed.

Lemma key_round_follows q item gen s g :
  stands q s g → (∀ i, q = Some i → live (state i)) →
  ∃ s' g', follows s g (key_round q item gen).2 s' g' ∧ stands (key_round q item gen).1 s' g'.
Proof.
  intros Hs Hl. destruct q as [q|], item as [i|]; cbn [key_round stands] in *.
  - destruct Hs as [-> ->]. specialize (Hl q eq_refl).
    destruct (is_restart q i); cbn; unfold legal; cbn.
    + do 2 eexists. split_and!; try done. by right.
    + do 2 eexists. split; [|done]. destruct (decide _) as [E|E]; [by split|]. by cbn.
  - destruct Hs as [-> ->]. specialize (Hl q eq_refl).
    destruct (state q) eqn:E; cbn; unfold legal; cbn; do 2 eexists; (split_and!; try done).
  - subst s. cbn. unfold legal. cbn. do 2 eexists. split_and!; try done. by left.
  - exists s, g. by cbn.
Qed.

(** What the events [evs] since the generation [n0] amount to, for the table and
    counter they lead to: one history per rule and pid, ending at what is
    tracked, every start with a generation of its own. *)
Definition history (n0 : Z) (evs : list ProcessTransition) (l : list ProcessInfo) (next : Z)
  : Prop :=
  watch_inv l next ∧ n0 <= next ∧ NoDup (starts evs) ∧
  Forall (λ g, n0 <= g < next) (starts evs) ∧
  ∀ g p, p ≠ 0 →
    ∃ s gen, follows ProcessState.NotRunning 0 (events_of g p evs) s gen ∧
             stands (FindTracked l g p) s gen.

Lemma history_nil n0 : history n0 [] [] n0.
Proof.
  split; [|split; [done|split; [by apply NoDup_nil|split; [by apply Forall_nil|]]]].
  - split; [constructor|]. split; [constructor|]. by intros ?? ?%elem_of_nil.
  - intros g p _. by exists ProcessState.NotRunning, 0.
Qed.

(** A round extends the history. *)
Lemma history_round n0 evs l next presence :
  history n0 evs l next → NoDup (map presence_key presence) →
  0 <= n0 → next + len presence < 2 ^ 64 →
  let r := DiffProcessPresence l presence next in
  history n0 (evs ++ transitions r) (tracked r) (nextGeneration r) ∧
  nextGeneration r <= next + len presence.
Proof.
  intros (Hw & Hn & Hd & Hs & Hh) Hpres H0 Hb. cbv zeta.
  destruct (Diff_inv l next presence Hw Hpres ltac:(lia) Hb) as (Hw1 & Hn1 & Hs1 & Hd1).
  split; [|lia]. rewrite list.Forall_forall in Hs. rewrite list.Forall_forall in Hs1.
  split; [done|]. split; [lia|]. rewrite starts_app. split_and!.
  - apply NoDup_app. split_and!; [done| |done]. intros x Hx Hx'.
    specialize (Hs x Hx). specialize (Hs1 x Hx'). lia.
  - apply list.Forall_forall. intros x [Hx|Hx]%elem_of_app;
      [specialize (Hs x Hx)|specialize (Hs1 x Hx)]; lia.
  - intros g p Hp. destruct (Hh g p Hp) as (s & gen & Hf & Hst).
    destruct (DiffProcessPresence_spec l presence next g p (proj1 Hw) Hpres Hp)
      as (gen1 & -> & He).
    destruct (key_round_follows (FindTracked l g p) (FindPresence presence g p) gen1 s gen Hst)
      as (s1 & g1 & Hf1 & Hst1).
    { intros i [Hi _]%FindTracked_Some. destruct Hw as (_ & Hw & _).
      rewrite list.Forall_forall in Hw. by apply Hw. }
    exists s1, g1. rewrite events_of_app, He. split; [|done]. by eapply follows_app.
Qed.

(** Over any number of rounds from an empty table, for every rule and pid the
    events form one history: lifecycles that open with a start, go on from the
    state the event before left, end in leaving or not running, and lead to what
    is tracked at the end. Every start gets a generation no other start had, so
    a generation names one lifecycle; and the table holds a rule and pid at most
    once, each generation under one of them. *)
Lemma run_watch_history (rounds : list (list GamePresence)) (g : string) (p : Z) :
  Forall (λ presence, NoDup (map presence_key presence)) rounds → p ≠ 0 →
  1 + len (concat rounds) < 2 ^ 64 →
  let '(evs, (l, next)) := run_watch rounds [] 1 in
  (∃ s gen, follows ProcessState.NotRunning 0 (events_of g p evs) s gen ∧
            stands (FindTracked l g p) s gen) ∧
  NoDup (starts evs) ∧ watch_inv l next.
Proof.
  intros Hnd Hp Hb.
  assert (∀ evs0 l0 n0,
    history 1 evs0 l0 n0 → n0 + len (concat rounds) < 2 ^ 64 →
    let '(evs, (l, next)) := run_watch rounds l0 n0 in history 1 (evs0 ++ evs) l next) as Hgen.
  { clear Hb. induction Hnd as [|presence rounds Hpres _ IH]; intros evs0 l0 n0 Hh Hb.
    { cbn. by rewrite app_nil_r. }
    cbn [concat run_watch] in *. rewrite length_app in Hb.
    destruct (history_round 1 evs0 l0 n0 presence Hh Hpres) as [Hh1 Hn1]; [lia..|].
    set (r := DiffProcessPresence l0 presence n0) in *.
    specialize (IH _ _ _ Hh1 ltac:(lia)).
    destruct (run_watch rounds (tracked r) (nextGeneration r)) as [evs [l next]].
    by rewrite app_assoc. }
  specialize (Hgen [] [] 1 (history_nil 1) Hb).
  destruct (run_watch rounds [] 1) as [evs [l next]].
  destruct Hgen as (Hw & _ & Hd & _ & Hh). split_and!; [by apply Hh|done|done].
Qed.

(** ** Ids of new rules *)

Lemma strlen_lower s : String.length (lower_ascii s) = String.length s.
Proof. induction s; cbn; congruence. Qed.

Lemma lower_app a b : lower_ascii (a +:+ b) = lower_ascii a +:+ lower_ascii b.
Proof. induction a as [|c a IH]; cbn; congruence. Qed.

Lemma lower_digits s : all_chars is_digit s = true → lower_ascii s = s.
Proof.
  induction s as [|c s IH]; cbn [all_chars lower_ascii]; [done|].
  rewrite andb_true_iff. intros [Hc Hs]. rewrite IH by done. f_equal.
  unfold FoldAsciiChar, is_upper, is_digit in *.
  destruct (Z.leb_spec 65 (code c)); [|done]. lia.
Qed.

Lemma AsciiEquals_loop_iff a b :
  String.length a = String.length b →
  AsciiEquals_loop a b = true ↔ lower_ascii a = lower_ascii b.
Proof.
  revert b. induction a as [|x a IH]; intros [|y b] Hl; try done.
  cbn. injection Hl as Hl. destruct (Ascii.eqb_spec (FoldAsciiChar x) (FoldAsciiChar y)) as [E|Hne];
    cbn [negb].
  - rewrite E, IH by done. split; [by intros ->|by intros [= ->]].
  - split; [done|by intros [= ? _]].
Qed.

(** Ids are compared up to ASCII case. *)
Lemma AsciiEquals_iff a b : AsciiEquals a b = true ↔ lower_ascii a = lower_ascii b.
Proof.
  unfold AsciiEquals. destruct (Z.eqb_spec (strlen a) (strlen b)) as [E|Hne]; cbn [negb].
  - apply AsciiEquals_loop_iff. lia.
  - split; [done|]. intros E. apply (f_equal String.length) in E.
    rewrite !strlen_lower in E. lia.
Qed.

Definition taken (existing : list GameConfig) : list string :=
  map (λ g, lower_ascii (cfg_id g)) existing.

Lemma conflict_iff existing c : conflict existing c = true ↔ lower_ascii c ∈ taken existing.
Proof.
  unfold conflict, taken. rewrite existsb_exists, list_elem_of_fmap. split.
  - intros (g & Hg%list_elem_of_In & E%AsciiEquals_iff). by exists g.
  - intros (g & E & Hg%list_elem_of_In). exists g. split; [done|]. by apply AsciiEquals_iff.
Qed.

Definition numbered (baseId : string) (k : Z) : string := baseId +:+ "-" +:+ to_string k.

Lemma numbered_inj baseId j k :
  0 <= j → 0 <= k →
  lower_ascii (numbered baseId j) = lower_ascii (numbered baseId k) → j = k.
Proof.
  intros Hj Hk. unfold numbered. rewrite !lower_app.
  rewrite !(lower_digits (to_string _)) by auto using to_string_digits.
  intros E%string_app_inj_l%string_app_inj_l.
  by rewrite <- (proj2 (to_string_spec j Hj)), E, (proj2 (to_string_spec k Hk)).
Qed.

(** Among as many candidates as there are rules, and one more, one is free. *)
Lemma taken_bound existing baseId n :
  conflict existing baseId = true →
  (∀ k, 2 <= k < 2 + Z.of_nat n → conflict existing (numbered baseId k) = true) →
  (n < length existing)%nat.
Proof.
  intros Hb Hk.
  set (cands := lower_ascii baseId ::
                map (λ i, lower_ascii (numbered baseId (2 + Z.of_nat i))) (seq 0 n)).
  assert (NoDup cands) as Hnd.
  { apply NoDup_cons. split.
    - intros (i & E & _)%list_elem_of_fmap. unfold numbered in E.
      apply (f_equal String.length) in E. rewrite !strlen_lower, !strlen_app in E.
      cbn [String.length] in E. lia.
    - apply (NoDup_fmap_2_strong (λ i, lower_ascii (numbered baseId (2 + Z.of_nat i))));
        [|apply NoDup_seq].
      intros i j _ _ E%numbered_inj; lia. }
  assert (length cands <= length (taken existing))%nat as Hl.
  { apply NoDup_incl_length; [by apply NoDup_ListNoDup|].
    intros c Hc%list_elem_of_In. apply list_elem_of_In.
    apply elem_of_cons in Hc as [->|(i & -> & Hi%list_elem_of_In%in_seq)%list_elem_of_fmap].
    - by apply conflict_iff.
    - apply conflict_iff, Hk. lia. }
  unfold cands, taken in Hl. cbn [length] in Hl. rewrite !length_map, length_seq in Hl. lia.
Qed.

Lemma unique_loop_spec fuel baseId existing suffix :
  conflict existing baseId = true →
  2 <= suffix → len existing < 2 ^ 31 - 4 →
  suffix + Z.of_nat fuel = 2 + len existing →
  (∀ k, 2 <= k < suffix → conflict existing (numbered baseId k) = true) →
  ∃ k, unique_loop fuel baseId existing suffix = Some (numbered baseId k) ∧
       2 <= k < 2 + len existing ∧ conflict existing (numbered baseId k) = false ∧
       ∀ j, 2 <= j < k → conflict existing (numbered baseId j) = true.
Proof.
  intros Hb. revert suffix. induction fuel as [|fuel IH]; intros suffix H2 Hl Hf Hk.
  - enough (length existing < length existing)%nat by lia.
    apply (taken_bound existing baseId _ Hb). intros k Hr. apply Hk. lia.
  - cbn [unique_loop]. fold (numbered baseId suffix).
    destruct (conflict existing (numbered baseId suffix)) eqn:Hs; cbn [negb].
    + assert (i32 (suffix + 1) = suffix + 1) as ->.
      { unfold i32. rewrite Z.mod_small by lia.
        by rewrite (proj2 (Z.ltb_lt _ _)) by lia. }
      apply IH; [lia|done|lia|]. intros k Hr.
      destruct (Z.eq_dec k suffix) as [->|]; [done|]. apply Hk. lia.
    + exists suffix. split_and!; [done|lia|lia|done|done].
Qed.

(** A new rule's id is found within as many attempts as there are rules
    already, for any number of rules below 2^31 - 4: the loop without a bound
    terminates, and its counter does not overflow. The id differs, up to ASCII
    case, from every id in use; it is the base where that is free, and otherwise
    the base with the least number from 2 on that makes it free. *)
Lemma MakeUniqueGameId_fresh (baseId : string) (existing : list GameConfig) :
  len existing < 2 ^ 31 - 4 →
  ∃ id, MakeUniqueGameId (length existing) baseId existing = Some id ∧
        (∀ game, game ∈ existing → lower_ascii (cfg_id game) ≠ lower_ascii id) ∧
        (conflict existing baseId = false ∧ id = baseId ∨
         conflict existing baseId = true ∧ ∃ k, 2 <= k < 2 + len existing ∧
           id = numbered baseId k ∧
           ∀ j, 2 <= j < k → conflict existing (numbered baseId j) = true).
Proof.
  intros Hl. unfold MakeUniqueGameId.
  assert (∀ id, conflict existing id = false →
    ∀ game, game ∈ existing → lower_ascii (cfg_id game) ≠ lower_ascii id) as Hfree.
  { intros id Hc game Hg E. apply not_true_iff_false in Hc. apply Hc, conflict_iff.
    rewrite <- E. by apply (list_elem_of_fmap_2 (λ g, lower_ascii (cfg_id g))). }
  destruct (conflict existing baseId) eqn:Hb; cbn [negb].
  - destruct (unique_loop_spec (length existing) baseId existing 2 Hb)
      as (k & -> & Hk & Hc & Hj); [lia|done|lia|lia|].
    exists (numbered baseId k). split; [done|]. split; [by apply Hfree|]. right. eauto.
  - exists baseId. split; [done|]. split; [by apply Hfree|]. by left.
Qed.

(** ** One poll *)

Section PollTheorems.
Context {S : Type} `{!ProcessSystem S}.

Lemma MatchRules_ids rules entries :
  map match_gameId (MatchRulesToEntries rules entries) `sublist_of` map rule_id rules.
Proof.
  induction rules as [|rule rules IH]; cbn; [done|].
  destruct (List.find _ _); cbn; by constructor.
Qed.

Lemma presence_of_id detect cache m s :
  pr_gameId (presence_of detect cache m s).1 = match_gameId m ∧
  pr_pid (presence_of detect cache m s).1 = en_pid (match_entry m) ∧
  pr_processName (presence_of detect cache m s).1 = en_name (match_entry m).
Proof.
  unfold presence_of, mthen, mret. destruct (QueryProcessCreationTime _ s) as [c s1].
  destruct detect; [|done]. destruct (cache !! _); [done|].
  by destruct (QueryWindowInfo _ s1) as [[w|e] s2].
Qed.

Lemma presences_of detect cache ms acc s :
  map pr_gameId (mfold (λ acc m, item <-- presence_of detect cache m ;; mret (acc ++ [item]))
                   ms acc s).1 = map pr_gameId acc ++ map match_gameId ms.
Proof.
  revert acc s. induction ms as [|m ms IH]; intros acc s; cbn [mfold].
  { cbn. by rewrite app_nil_r. }
  unfold mthen, mret at 1. pose proof (presence_of_id detect cache m s) as [Hid _].
  destruct (presence_of detect cache m s) as [item s1]. cbn in Hid.
  rewrite IH, map_app. cbn [map]. by rewrite Hid, <- app_assoc.
Qed.

(** A poll that cannot enumerate changes nothing. Otherwise, for rules with
    distinct ids, it is one round of the state machine: the rules stay, at most
    one process is present per rule, in the order of the rules, and the table,
    the counter and the events are those of the difference. *)
Lemma PollOnce_spec (w : ProcessWatcher) (s : S) :
  NoDup (map rule_id (rules_ w)) →
  let '(r, (w', s')) := PollOnce (w, s) in
  match r with
  | Failure _ => w' = w
  | Success evs =>
      detectWindows w' = detectWindows w ∧ rules_ w' = rules_ w ∧
      ∃ presence,
        map pr_gameId presence `sublist_of` map rule_id (rules_ w) ∧
        NoDup (map presence_key presence) ∧
        let d := DiffProcessPresence (tracked_ w) presence (nextGeneration_ w) in
        evs = transitions d ∧ tracked_ w' = tracked d ∧ nextGeneration_ w' = nextGeneration d
  end.
Proof.
  intros Hnd. unfold PollOnce. destruct (EnumerateProcesses s) as [[entries|e] s1]; [|done].
  set (titled := existsb _ _).
  destruct (if titled then _ else _) as [cache s2].
  set (entries' := if titled then _ else _).
  pose proof (presences_of (detectWindows w) cache
                (MatchRulesToEntries (rules_ w) entries') [] s2) as Hids.
  destruct (mfold _ _ _ s2) as [presence s3]. cbn in Hids. cbn.
  split_and!; [done..|]. exists presence.
  assert (map pr_gameId presence `sublist_of` map rule_id (rules_ w)) as Hsub
    by (rewrite Hids; apply MatchRules_ids).
  split_and!; [done| |done..].
  apply (NoDup_fmap_1 fst). change (fst <$> map presence_key presence)
    with (map fst (map presence_key presence)). rewrite map_map.
  eapply sublist_NoDup; [exact Hnd|exact Hsub].
Qed.
(** What is tracked comes from the rules or was tracked before. *)
Definition watches (X : string → Prop) (w : ProcessWatcher) : Prop :=
  Forall (λ r, X (rule_id r)) (rules_ w) ∧ Forall (λ i, X (gameId i)) (tracked_ w).

Lemma present_step_ids (X : string → Prop) prev r item :
  Forall (λ i, X (gameId i)) prev → X (pr_gameId item) →
  Forall (λ i, X (gameId i)) (tracked r) →
  Forall (λ i, X (gameId i)) (tracked (present_step prev r item)).
Proof.
  intros Hp Hi Hr. unfold present_step. destruct (_ =? 0); [done|].
  destruct (FindTracked _ _ _) as [q|] eqn:E; [destruct (is_restart q item)|];
    cbn [tracked]; apply Forall_app_2; try done; by apply Forall_singleton.
Qed.

Lemma absent_step_ids (X : string → Prop) presence r q :
  X (gameId q) → Forall (λ i, X (gameId i)) (tracked r) →
  Forall (λ i, X (gameId i)) (tracked (absent_step presence r q)).
Proof.
  intros Hq Hr. unfold absent_step. destruct (PresenceHas _ _ _); [done|].
  destruct (state q); cbn [tracked]; try done; apply Forall_app_2; try done; by apply Forall_singleton.
Qed.

Lemma PollOnce_watches X (w : ProcessWatcher) (s : S) :
  watches X w → watches X (PollOnce (w, s)).2.1.
Proof.
  intros [Hr Ht]. unfold PollOnce. destruct (EnumerateProcesses s) as [[entries|e] s1]; [|done].
  set (titled := existsb _ _).
  destruct (if titled then _ else _) as [cache s2]. set (entries' := if titled then _ else _).
  pose proof (presences_of (detectWindows w) cache
                (MatchRulesToEntries (rules_ w) entries') [] s2) as Hids.
  destruct (mfold _ _ _ s2) as [presence s3]. cbn in Hids. cbn. split; [done|]. cbn.
  assert (Forall (λ p, X (pr_gameId p)) presence) as Hp.
  { rewrite <- Forall_map, Hids. apply Forall_map in Hr. rewrite Forall_forall in Hr |- *.
    intros g Hg. apply Hr. eapply elem_of_submseteq; [exact Hg|].
    apply sublist_submseteq, MatchRules_ids. }
  unfold DiffProcessPresence. eapply foldl_keeps; [exact Ht|intros; by apply absent_step_ids|].
  eapply foldl_keeps; [exact Hp|intros; by apply present_step_ids|constructor].
Qed.

End PollTheorems.

Lemma SetRules_watches `{!CodePages} `{!SystemMessages} X games w u w' :
  Forall (λ g, X (cfg_id g)) games → SetRules games w = (Success u, w') → watches X w'.
Proof.
  intros Hg. unfold SetRules. destruct (BuildGameRules games) as [rules|] eqn:E; [|done].
  intros [= <- <-]. split; [|constructor]. cbn. revert rules E.
  induction Hg as [|g games Hx _ IH]; intros rules; cbn [BuildGameRules]; [by intros [= <-]|].
  destruct (wide_names _); [|done]. destruct (Utf8ToWide _); [|done].
  destruct (BuildGameRules games); [|done]. intros [= <-]. constructor; [done|by apply IH].
Qed.

(** ** A reused pid that is not noticed *)

Definition seen (p created : Z) : list GamePresence :=
  [MkPresence "game" p [103] created [] false false].

(** The header says generation and pid together keep a reused pid from
    being taken for the process before. A round in which the creation time
    cannot be read forgets the known one, so that a process with another
    creation time then counts as the same lifecycle; without that round the
    restart is noticed. *)
Lemma unreadable_time_hides_restart :
  let changes rounds :=
    map (λ t, (previous t, current t, generation (info t))) (run_watch rounds [] 1).1 in
  changes [seen 7 100; seen 7 200] =
    [(ProcessState.NotRunning, ProcessState.Starting, 1);
     (ProcessState.Starting, ProcessState.Exiting, 1);
     (ProcessState.NotRunning, ProcessState.Starting, 2)] ∧
  changes [seen 7 100; seen 7 0; seen 7 200] =
    [(ProcessState.NotRunning, ProcessState.Starting, 1);
     (ProcessState.Starting, ProcessState.Running, 1)].
Proof. split; vm_compute; reflexivity. Qed.

(** ** Witnesses *)

Example DiffProcessPresence_pointwise_witness :
  ∃ gen,
    FindTracked (tracked (DiffProcessPresence [] (seen 7 100) 1)) "game" 7 =
    (key_round None (FindPresence (seen 7 100) "game" 7) gen).1.
Proof.
  destruct (DiffProcessPresence_pointwise [] (seen 7 100) 1 "game" 7) as (gen & H & _);
    [constructor|repeat constructor; set_solver|done|].
  by exists gen.
Defined.

Example run_watch_history_witness :
  let '(evs, (l, next)) := run_watch [seen 7 100; seen 7 200; []; []] [] 1 in
  NoDup (starts evs) ∧ watch_inv l next.
Proof.
  pose proof (run_watch_history [seen 7 100; seen 7 200; []; []] "game" 7) as H.
  assert (Forall (λ presence, NoDup (map presence_key presence))
            [seen 7 100; seen 7 200; []; []]) as Hnd
    by (repeat constructor; set_solver).
  specialize (H Hnd ltac:(done) ltac:(reflexivity)).
  destruct (run_watch _ [] 1) as [evs [l next]]. exact (proj2 H).
Defined.

Example MakeUniqueGameId_fresh_witness :
  let rule id := MkGameConfig id "" [] "" true in
  ∃ id, MakeUniqueGameId 2 "game" [rule "Game"; rule "game-2"] = Some id ∧ id = "game-3".
Proof.
  cbn zeta.
  destruct (MakeUniqueGameId_fresh "game"
    [MkGameConfig "Game" "" [] "" true; MkGameConfig "game-2" "" [] "" true])
    as (id & H & _); [reflexivity|].
  exists id. split; [exact H|]. cbn [length] in H. vm_compute in H. by injection H.
Defined.

(** A system with one process, its window and its creation time. *)
#[local] Instance one_process : ProcessSystem unit := {
  EnumerateProcesses := mret (Success [MkEntry 7 [103; 46; 101] [] false]);
  QueryProcessCreationTime _ := mret 100;
  QueryWindowInfo _ := mret (Success (MkWindow [71] true true false))
}.

Example PollOnce_spec_witness :
  let w := MkWatcher true [MkRule "game" [[71; 46; 69]] [103]] [] 1 in
  NoDup (map rule_id (rules_ w)) ∧ map gameId (tracked_ (PollOnce (w, tt)).2.1) = ["game"] ∧
  detectWindows (PollOnce (w, tt)).2.1 = true.
Proof.
  cbn zeta. set (w := MkWatcher _ _ _ _).
  assert (NoDup (map rule_id (rules_ w))) as Hnd by (repeat constructor; set_solver).
  split; [exact Hnd|]. split; [vm_compute; reflexivity|].
  pose proof (PollOnce_spec w tt Hnd) as H.
  assert (HasValue (PollOnce (w, tt)).1 = true) as Hv by (vm_compute; reflexivity).
  destruct (PollOnce (w, tt)) as [[evs|e] [w' s']]; [exact (proj1 H)|discriminate].
Defined.
