(* ===== verification/WatchThread.v ===== *)
(** The polling thread of the process watcher ([ProcessWatcher] of
    [source/process/process_watcher.cpp]): its members under the mutex, [Start],
    [Stop], [Subscribe] and [WorkerLoop] as the steps of an interleaving. A
    step is what a thread does between two points where another may come in: a
    poll holds the mutex throughout, callbacks are called without it. What the
    subscribers hear is logged with the position of each callback. *)

From S2P Require Import Prelude CommonError ConfigTypes ProcessWatcher.

Open Scope string_scope.
Open Scope list_scope.
Open Scope Z_scope.

Section Watching.
Context {S : Type} `{!ProcessSystem S} `{!CodePages} `{!SystemMessages}.

(** ** State *)

(** A callback's effects; what it throws is caught and dropped. *)
Definition ProcessEventCallback : Type := ProcessTransition → M S unit.

(** A call still to make: the callback's position, the callback, the event. *)
Definition Call : Type := nat * ProcessEventCallback * ProcessTransition.

(** Where the loop of the polling thread is. *)
Inductive Point :=
  | Polling
  | Deciding (polled : list ProcessTransition) (* about to lock and look at the flag *)
  | Calling (calls : list Call)
  | Waiting
  | Left.

(** The members of the watcher, whether a client is inside [Stop]'s join, the
    rest of the system, and the log of the calls. *)
Record Watch := MkWatch {
  core : ProcessWatcher;
  callbacks_ : list ProcessEventCallback;
  stopRequested_ : bool;
  running_ : bool;
  worker_ : option Point; (* [None]: not joinable *)
  joining : bool;
  system : S;
  heard : list (nat * ProcessTransition)
}.

Definition NewWatch (detect : bool) (s : S) : Watch :=
  MkWatch (NewProcessWatcher detect) [] false false None false s [].

(** ** The client's operations *)

Definition Subscribe (callback : option ProcessEventCallback) (x : Watch) : Watch :=
  match callback with
  | None => x
  | Some cb =>
      MkWatch (core x) (callbacks_ x ++ [cb]) (stopRequested_ x) (running_ x) (worker_ x)
        (joining x) (system x) (heard x)
  end.

Definition SetWatchRules (games : list GameConfig) (x : Watch) : Result unit * Watch :=
  let '(r, w) := SetRules games (core x) in
  (r, MkWatch w (callbacks_ x) (stopRequested_ x) (running_ x) (worker_ x) (joining x)
        (system x) (heard x)).

(** [thread]: whether the system can create the thread. *)
Definition Start (thread : bool) (x : Watch) : Result unit * Watch :=
  match worker_ x with
  | Some _ => (Success tt, x)
  | None =>
      let started running worker :=
        MkWatch (ClearTracked (core x)) (callbacks_ x) false running worker (joining x)
          (system x) (heard x) in
      if thread then (Success tt, started true (Some Polling))
      else (Failure (Validation "ProcessWatcher::Start" "Failed to create the polling thread"),
            started false None)
  end.

(** The locked part of [Stop]. A call from a callback leaves without joining. *)
Definition RequestStop (from_callback : bool) (x : Watch) : Watch :=
  match worker_ x with
  | None =>
      MkWatch (core x) (callbacks_ x) (stopRequested_ x) false None (joining x)
        (system x) (heard x)
  | Some pc =>
      MkWatch (core x) (callbacks_ x) true false (Some pc) (joining x || negb from_callback)
        (system x) (heard x)
  end.

(** The join of [Stop], once the thread has left. *)
Definition Join (x : Watch) : option Watch :=
  match worker_ x, joining x with
  | Some Left, true =>
      Some (MkWatch (core x) (callbacks_ x) (stopRequested_ x) (running_ x) None false
              (system x) (heard x))
  | _, _ => None
  end.

Definition IsRunning (x : Watch) : bool := running_ x.
Definition GetTrackedProcesses (x : Watch) : list ProcessInfo := tracked_ (core x).

(** A poll made by a client. *)
Definition PollByHand (x : Watch) : Result (list ProcessTransition) * Watch :=
  let '(r, (w, s)) := PollOnce (core x, system x) in
  (r, MkWatch w (callbacks_ x) (stopRequested_ x) (running_ x) (worker_ x) (joining x)
        s (heard x)).

(** ** The polling thread *)

Definition moved (x : Watch) (pc : Point) : Watch :=
  MkWatch (core x) (callbacks_ x) (stopRequested_ x) (running_ x) (Some pc) (joining x)
    (system x) (heard x).

(** For every event, every callback. *)
Definition calls_of (callbacks : list ProcessEventCallback) (polled : list ProcessTransition)
  : list Call :=
  t ← polled; imap (λ i cb, (i, cb, t)) callbacks.

Definition WorkerStep (x : Watch) : option Watch :=
  match worker_ x with
  | Some Polling =>
      let '(r, (w, s)) := PollOnce (core x, system x) in
      let polled := match r with Success evs => evs | Failure _ => [] end in
      Some (MkWatch w (callbacks_ x) (stopRequested_ x) (running_ x) (Some (Deciding polled))
              (joining x) s (heard x))
  | Some (Deciding polled) =>
      if stopRequested_ x then Some (moved x Left)
      else Some (moved x (Calling (calls_of (callbacks_ x) polled)))
  | Some (Calling ((i, cb, t) :: calls)) =>
      let '(_, s) := cb t (system x) in
      Some (MkWatch (core x) (callbacks_ x) (stopRequested_ x) (running_ x)
              (Some (Calling calls)) (joining x) s (heard x ++ [(i, t)]))
  | Some (Calling []) => (* locks, and waits unless the flag is up *)
      if stopRequested_ x then Some (moved x Left) else Some (moved x Waiting)
  | Some Waiting => (* woken by the interval's end or by a stop *)
      if stopRequested_ x then Some (moved x Left) else Some (moved x Polling)
  | Some Left | None => None
  end.

(** ** Interleavings *)

Inductive Action :=
  | ASubscribe (callback : option ProcessEventCallback)
  | ASetRules (games : list GameConfig)
  | AStart (thread : bool)
  | AStop             (* a client calls [Stop]; one at a time *)
  | AStopInCallback   (* a callback calls [Stop] *)
  | AJoin             (* the client's [Stop] returns *)
  | APoll
  | AWorker
  | ASystem (s : S).  (* anything else in the system *)

Definition in_callback (x : Watch) : bool :=
  match worker_ x with Some (Calling _) => true | _ => false end.

(** [None]: the action cannot happen now. *)
Definition act (a : Action) (x : Watch) : option Watch :=
  match a with
  | ASubscribe cb => Some (Subscribe cb x)
  | ASetRules games => Some (SetWatchRules games x).2
  | AStart thread => Some (Start thread x).2
  | AStop => if joining x then None else Some (RequestStop false x)
  | AStopInCallback => if in_callback x then Some (RequestStop true x) else None
  | AJoin => Join x
  | APoll => Some (PollByHand x).2
  | AWorker => WorkerStep x
  | ASystem s =>
      Some (MkWatch (core x) (callbacks_ x) (stopRequested_ x) (running_ x) (worker_ x)
              (joining x) s (heard x))
  end.

Fixpoint acts (l : list Action) (x : Watch) : option Watch :=
  match l with
  | [] => Some x
  | a :: l' => match act a x with None => None | Some x' => acts l' x' end
  end.

Lemma acts_app l1 l2 x :
  acts (l1 ++ l2) x = match acts l1 x with None => None | Some x' => acts l2 x' end.
Proof.
  revert x. induction l1 as [|a l1 IH]; intros x; cbn [acts app]; [done|].
  by destruct (act a x).
Qed.

(** An invariant of every action holds after every run. *)
Lemma acts_keep (P : Watch → Prop) (Q : Action → Prop) l x x' :
  (∀ a y y', Q a → P y → act a y = Some y' → P y') →
  Forall Q l → P x → acts l x = Some x' → P x'.
Proof.
  intros Hstep Hl. revert x. induction Hl as [|a l Ha _ IH]; cbn [acts]; intros x Hx.
  - by intros [= <-].
  - destruct (act a x) as [y|] eqn:E; [|done]. by apply IH, (Hstep a x y).
Qed.

(** ** The state of the thread *)

(** [IsRunning] tells whether a thread polls that nobody asked to stop, and the
    thread leaves only once asked. *)
Definition truthful (x : Watch) : Prop :=
  (running_ x = true ↔ is_Some (worker_ x) ∧ stopRequested_ x = false) ∧
  (worker_ x = Some Left → stopRequested_ x = true) ∧
  (joining x = true → is_Some (worker_ x) ∧ stopRequested_ x = true).

Lemma NewWatch_truthful detect s : truthful (NewWatch detect s).
Proof. unfold truthful. cbn. split_and!; try done. split; [done|]. by intros [[? ?] _]. Qed.

(** What an action of the thread leaves as it was. *)
Lemma WorkerStep_frame (x x' : Watch) :
  WorkerStep x = Some x' →
  callbacks_ x' = callbacks_ x ∧ stopRequested_ x' = stopRequested_ x ∧
  running_ x' = running_ x ∧ joining x' = joining x ∧
  is_Some (worker_ x) ∧ is_Some (worker_ x') ∧
  (worker_ x' = Some Left → stopRequested_ x = true).
Proof.
  unfold WorkerStep. destruct (worker_ x) as [[|polled|[|[[i cb] t] calls]| |]|]; [..|done|done].
  - destruct (PollOnce _) as [r [w s]]. intros [= <-]. by split_and!.
  - destruct (stopRequested_ x) eqn:E; intros [= <-]; by split_and!.
  - destruct (stopRequested_ x) eqn:E; intros [= <-]; by split_and!.
  - destruct (cb t _) as [u s]. intros [= <-]. by split_and!.
  - destruct (stopRequested_ x) eqn:E; intros [= <-]; by split_and!.
Qed.

Lemma act_truthful a (x x' : Watch) : truthful x → act a x = Some x' → truthful x'.
Proof.
  intros (Hr & Hl & Hj) E. unfold truthful. destruct a; cbn [act] in E.
  - injection E as <-. by destruct callback.
  - injection E as <-. unfold SetWatchRules. by destruct (SetRules _ _).
  - injection E as <-. unfold Start. destruct (worker_ x) eqn:Ew; cbn [fst snd]; [by rewrite Ew; split_and!|].
    assert (joining x = false) as ->.
    { destruct (joining x); [|done]. by destruct (Hj eq_refl) as [[? ?] _]. }
    destruct thread; cbn; split_and!; try done. split; [done|]. by intros [[? ?] _].
  - destruct (joining x) eqn:Ej; [done|]. injection E as <-. unfold RequestStop.
    destruct (worker_ x) eqn:Ew; cbn; rewrite ?Ej; split_and!; try done; split; try done;
      by intros [[? ?] ?].
  - unfold in_callback in E. destruct (worker_ x) as [[]|] eqn:Ew; try done. injection E as <-.
    unfold RequestStop. rewrite Ew. cbn. rewrite orb_false_r. split_and!; try done.
    split; [done|]. by intros [_ ?].
  - unfold Join in E. destruct (worker_ x) as [[]|] eqn:Ew; try done.
    destruct (joining x) eqn:Ej; [|done]. injection E as <-. cbn. split_and!; try done.
    rewrite Hr, (Hl eq_refl). split; [by intros [_ ?]|by intros [[? ?] _]].
  - injection E as <-. unfold PollByHand. by destruct (PollOnce _) as [r [w s]].
  - apply WorkerStep_frame in E as (_ & -> & -> & -> & Hw & Hw' & Hleft).
    split_and!; [|done|intros Hjn; split; [done|by apply Hj]].
    rewrite Hr. naive_solver.
  - by injection E as <-.
Qed.

Lemma acts_truthful l (x x' : Watch) : truthful x → acts l x = Some x' → truthful x'.
Proof.
  apply (acts_keep truthful (λ _, True)); [|by apply Forall_true].
  intros a y y' _. apply act_truthful.
Qed.

(** ** Stopping *)

Definition is_worker (a : Action) : bool := match a with AWorker => true | _ => false end.

(** A stop that is asked for keeps being asked for until the join. *)
Definition ending (x : Watch) : Prop := is_Some (worker_ x) ∧ stopRequested_ x = true.

(** The steps the thread may still take. *)
Definition steps_left (x : Watch) : nat :=
  match worker_ x with
  | Some Polling => 2
  | Some (Deciding _) => 1
  | Some (Calling calls) => 1 + length calls
  | Some Waiting => 1
  | Some Left | None => 0
  end.

Lemma ending_act a (x x' : Watch) :
  ending x → a ≠ AJoin → act a x = Some x' →
  ending x' ∧ (joining x = true → joining x' = true) ∧
  (steps_left x' + (if is_worker a then 1 else 0) <= steps_left x)%nat.
Proof.
  intros [[pc Ew] Hs] Ha E. unfold ending, steps_left. destruct a; cbn [act] in E.
  - injection E as <-. destruct callback; cbn; rewrite Ew; (split_and!; [done..|lia]).
  - injection E as <-. unfold SetWatchRules. destruct (SetRules _ _). cbn. rewrite Ew.
    split_and!; [done..|lia].
  - injection E as <-. unfold Start. rewrite Ew. cbn. rewrite Ew. split_and!; [done..|lia].
  - destruct (joining x) eqn:Ej; [done|]. injection E as <-. unfold RequestStop. rewrite Ew.
    cbn. split_and!; [done..|lia].
  - destruct (in_callback x); [|done]. injection E as <-. unfold RequestStop. rewrite Ew. cbn.
    split_and!; [done..| |lia]. by intros ->.
  - done.
  - injection E as <-. unfold PollByHand. destruct (PollOnce _) as [r [w s]]. cbn. rewrite Ew.
    split_and!; [done..|lia].
  - pose proof (WorkerStep_frame _ _ E) as (_ & -> & _ & -> & _ & Hw' & _).
    split; [done|]. split; [done|]. unfold WorkerStep in E. rewrite Ew, Hs in E. rewrite Ew.
    destruct pc as [|polled|[|[[i cb] t] calls]| |].
    + destruct (PollOnce _) as [r [w s]]. injection E as <-. cbn. lia.
    + injection E as <-. cbn. lia.
    + injection E as <-. cbn. lia.
    + destruct (cb t _). injection E as <-. cbn. lia.
    + injection E as <-. cbn. lia.
    + done.
  - injection E as <-. cbn. rewrite Ew. split_and!; [done..|lia].
Qed.

(** How many steps of the thread a run holds. *)
Definition worker_steps (l : list Action) : nat :=
  length (List.filter is_worker l).

Lemma ending_acts l (x x' : Watch) :
  ending x → joining x = true → Forall (λ a, a ≠ AJoin) l → acts l x = Some x' →
  ending x' ∧ joining x' = true ∧ (steps_left x' + worker_steps l <= steps_left x)%nat.
Proof.
  intros He Hj Hl. revert x He Hj.
  induction Hl as [|a l Ha _ IH]; cbn [acts]; intros x He Hj.
  { intros [= <-]. split_and!; [done..|]. unfold worker_steps. cbn. lia. }
  destruct (act a x) as [y|] eqn:E; [|done]. intros E'.
  destruct (ending_act a x y He Ha E) as (He' & Hj' & Hn).
  destruct (IH y He' (Hj' Hj) E') as (He2 & Hj2 & Hn2). split_and!; [done..|].
  unfold worker_steps in *. cbn [List.filter]. destruct (is_worker a); cbn [length]; lia.
Qed.

Lemma ending_progress (x : Watch) :
  ending x → worker_ x = Some Left ∨ is_Some (WorkerStep x).
Proof.
  intros [[pc Ew] Hs]. unfold WorkerStep. rewrite Ew, Hs.
  destruct pc as [|polled|[|[[i cb] t] calls]| |]; eauto.
  - destruct (PollOnce _) as [r [w s]]. eauto.
  - destruct (cb t _). eauto.
Qed.

(** Left to itself the thread leaves, and the join is over. *)
Lemma ending_leaves n (x : Watch) :
  ending x → joining x = true → (steps_left x <= n)%nat →
  ∃ k y, (k <= n)%nat ∧ acts (repeat AWorker k ++ [AJoin]) x = Some y ∧ worker_ y = None.
Proof.
  revert x. induction n as [|n IH]; intros x He Hj Hn;
    (destruct (ending_progress x He) as [El|[y Ey]];
      [exists 0%nat; cbn; unfold Join; rewrite El, Hj; eauto with lia|]);
    destruct (ending_act AWorker x y He) as (He' & Hj' & Hn'); try done; cbn in Hn'; [lia|].
  destruct (IH y He' (Hj' Hj) ltac:(lia)) as (k & z & Hk & E & Hz).
  exists (Datatypes.S k), z. split; [lia|]. split; [|done]. cbn [repeat app acts act].
  by rewrite Ey.
Qed.

(** ** Hearing *)

Definition starts_thread (a : Action) : bool :=
  match a with AStart true => true | _ => false end.

(** Without a thread, or with one that has left, nobody hears anything. *)
Definition silent (h : list (nat * ProcessTransition)) (x : Watch) : Prop :=
  worker_ x = None ∧ heard x = h.

Lemma silent_act h a (x x' : Watch) :
  starts_thread a = false → silent h x → act a x = Some x' → silent h x'.
Proof.
  intros Ha [Ew Hh] E. destruct x as [w cbs stop run wk j s hd]. cbn in Ew, Hh. subst wk hd.
  unfold silent. destruct a; cbn [act] in E.
  - by destruct callback; injection E as <-.
  - injection E as <-. unfold SetWatchRules. by destruct (SetRules _ _).
  - destruct thread; [done|]. by injection E as <-.
  - cbn in E. destruct j; [done|]. by injection E as <-.
  - done.
  - done.
  - injection E as <-. unfold PollByHand. by destruct (PollOnce _) as [r [w' s']].
  - done.
  - by injection E as <-.
Qed.

Definition deaf (h : list (nat * ProcessTransition)) (x : Watch) : Prop :=
  worker_ x = Some Left ∧ heard x = h.

Lemma deaf_act h a (x x' : Watch) :
  a ≠ AJoin → deaf h x → act a x = Some x' → deaf h x'.
Proof.
  intros Ha [Ew Hh] E. destruct x as [w cbs stop run wk j s hd]. cbn in Ew, Hh. subst wk hd.
  unfold deaf. destruct a; cbn [act] in E; try done.
  - by destruct callback; injection E as <-.
  - injection E as <-. unfold SetWatchRules. by destruct (SetRules _ _).
  - by injection E as <-.
  - cbn in E. destruct j; [done|]. by injection E as <-.
  - injection E as <-. unfold PollByHand. by destruct (PollOnce _) as [r [w' s']].
  - by injection E as <-.
Qed.

Lemma stop_completes (x x1 x2 : Watch) l :
  truthful x → is_Some (worker_ x) →
  act AStop x = Some x1 → Forall (λ a, a ≠ AJoin) l → acts l x1 = Some x2 →
  ∃ n y, (worker_steps l + n <= steps_left x)%nat ∧
    acts (repeat AWorker n ++ [AJoin]) x2 = Some y ∧
    worker_ y = None ∧ IsRunning y = false.
Proof.
  intros Ht [pc Ew] E Hl E2.
  assert (ending x1 ∧ joining x1 = true ∧ steps_left x1 = steps_left x ∧ truthful x1)
    as (He & Hj & Hn & Ht1).
  { pose proof (act_truthful _ _ _ Ht E) as Ht1. cbn [act] in E.
    destruct (joining x) eqn:Ej; [done|]. injection E as <-. unfold RequestStop, ending, steps_left in *.
    rewrite Ew in *. cbn in *. by rewrite Ej in *. }
  pose proof (acts_truthful _ _ _ Ht1 E2) as Ht2.
  destruct (ending_acts l x1 x2 He Hj Hl E2) as (He2 & Hj2 & Hn2).
  destruct (ending_leaves (steps_left x2) x2 He2 Hj2) as (n & y & Hk & Ey & Hy); [done|].
  exists n, y. split; [lia|]. split; [done|]. split; [done|].
  pose proof (acts_truthful _ _ _ Ht2 Ey) as (Hr & _ & _).
  unfold IsRunning. destruct (running_ y); [|done]. rewrite Hy in Hr.
  by destruct (proj1 Hr eq_refl) as [[? ?] _].
Qed.

Lemma stays_silent l (x x' : Watch) :
  worker_ x = None → Forall (λ a, starts_thread a = false) l → acts l x = Some x' →
  heard x' = heard x.
Proof.
  intros Ew Hl E. refine (proj2 (acts_keep (silent (heard x)) _ l x x' _ Hl _ E)); [|done].
  intros a u v. apply silent_act.
Qed.

(** C29. A client's [Stop] returns: whatever clients, callbacks and the system do
    meanwhile, once it has asked, the thread takes at most two steps and those
    of the calls under way, is never stuck before, and lets the join through;
    then no thread is left, [IsRunning] says so, and until another [Start] makes
    one no callback is called. *)
Theorem Stop_returns detect s0 l0 (x x1 x2 : Watch) l :
  acts l0 (NewWatch detect s0) = Some x → is_Some (worker_ x) →
  act AStop x = Some x1 → Forall (λ a, a ≠ AJoin) l → acts l x1 = Some x2 →
  ∃ n y, (worker_steps l + n <= steps_left x)%nat ∧
    acts (repeat AWorker n ++ [AJoin]) x2 = Some y ∧
    worker_ y = None ∧ IsRunning y = false ∧
    ∀ l' z, Forall (λ a, starts_thread a = false) l' → acts l' y = Some z → heard z = heard y.
Proof.
  intros E0 Hw E Hl E2. pose proof (acts_truthful _ _ _ (NewWatch_truthful _ _) E0) as Ht.
  destruct (stop_completes x x1 x2 l Ht Hw E Hl E2) as (n & y & Hn & Ey & Hy & Hr).
  exists n, y. do 4 (split; [done|]). intros l' z. by apply stays_silent.
Qed.

(** ** What a subscriber hears *)

(** The events the callback at position [i] was called with. *)
Definition heard_by (i : nat) (h : list (nat * ProcessTransition)) : list ProcessTransition :=
  map snd (filter (λ c, c.1 = i) h).

(** The events of the round under way it is still to be called with. *)
Definition pending_for (i : nat) (pc : Point) : list ProcessTransition :=
  match pc with
  | Deciding polled => polled
  | Calling calls => map snd (filter (λ c : Call, c.1.1 = i) calls)
  | Polling | Waiting | Left => []
  end.

Lemma heard_by_app i a b : heard_by i (a ++ b) = heard_by i a ++ heard_by i b.
Proof. unfold heard_by. by rewrite filter_app, map_app. Qed.

Lemma filter_nil_all {A} (P : A → Prop) `{∀ x, Decision (P x)} l :
  Forall (λ x, ¬ P x) l → filter P l = [].
Proof. induction 1 as [|x l Hx _ IH]; [done|]. by rewrite filter_cons_False. Qed.

Lemma calls_at (t : ProcessTransition) i k (cbs : list ProcessEventCallback) :
  (k <= i < k + length cbs)%nat →
  map snd (filter (λ c : Call, c.1.1 = i) (imap (λ j cb, ((k + j)%nat, cb, t)) cbs)) = [t].
Proof.
  revert k. induction cbs as [|cb cbs IH]; intros k Hi; cbn [length] in Hi; [lia|].
  rewrite imap_cons, Nat.add_0_r.
  assert (imap ((λ j cb, ((k + j)%nat, cb, t)) ∘ Datatypes.S) cbs =
          imap (λ j cb, ((Datatypes.S k + j)%nat, cb, t)) cbs) as ->.
  { apply imap_ext. intros j x _. cbn. do 2 f_equal. lia. }
  destruct (decide (k = i)) as [->|Hne].
  - rewrite filter_cons_True by done. cbn [map snd]. f_equal.
    rewrite filter_nil_all; [done|]. apply list.Forall_forall.
    intros c (j & x & -> & _)%elem_of_lookup_imap. cbn. lia.
  - rewrite filter_cons_False by done. apply IH. lia.
Qed.

(** Every callback is called with every event of the round, in their order. *)
Lemma calls_of_pending i (cbs : list ProcessEventCallback) polled :
  (i < length cbs)%nat → pending_for i (Calling (calls_of cbs polled)) = polled.
Proof.
  intros Hi. unfold calls_of. cbn [pending_for].
  induction polled as [|t polled IH]; [done|]. rewrite bind_cons, filter_app, map_app.
  change (t :: polled) with ([t] ++ polled). f_equal; [|exact IH].
  exact (calls_at t i 0 cbs ltac:(lia)).
Qed.

(** A poll extends the history by what it reports. *)
Lemma history_poll n0 evs (w w' : ProcessWatcher) (s s' : S) r :
  NoDup (map rule_id (rules_ w)) → 0 <= n0 →
  nextGeneration_ w + len (rules_ w) < 2 ^ 64 →
  history n0 evs (tracked_ w) (nextGeneration_ w) →
  PollOnce (w, s) = (r, (w', s')) →
  history n0 (evs ++ match r with Success e => e | Failure _ => [] end)
    (tracked_ w') (nextGeneration_ w') ∧
  rules_ w' = rules_ w ∧ nextGeneration_ w' <= nextGeneration_ w + len (rules_ w).
Proof.
  intros Hnd Hz Hb Hh E. pose proof (PollOnce_spec w s Hnd) as Hp. rewrite E in Hp.
  destruct r as [polled|e].
  - destruct Hp as (_ & Hr & presence & Hsub & Hpres & -> & -> & ->).
    apply sublist_length in Hsub. rewrite !length_map in Hsub.
    destruct (history_round n0 evs _ _ presence Hh Hpres Hz) as [Hh' Hn']; [lia|].
    split; [done|]. split; [done|lia].
  - subst w'. rewrite app_nil_r. split; [done|]. split; [done|lia].
Qed.

(** What a client may do within a session without disturbing it. *)
Definition within_session (a : Action) : Prop :=
  match a with ASetRules _ | APoll | AJoin => False | _ => True end.

(** A session with [m] callbacks from the start of it: [evs] is what the polls
    have reported, [h0] was heard before. *)
Definition session (n0 : Z) (rules : list GameRule) (m : nat)
    (h0 : list (nat * ProcessTransition)) (evs : list ProcessTransition) (x : Watch) : Prop :=
  history n0 evs (tracked_ (core x)) (nextGeneration_ (core x)) ∧
  rules_ (core x) = rules ∧ (m <= length (callbacks_ x))%nat ∧
  ∃ pc new, worker_ x = Some pc ∧ heard x = h0 ++ new ∧
    ∀ i, (i < m)%nat →
      heard_by i new ++ pending_for i pc `prefix_of` evs ∧
      (pc ≠ Left → heard_by i new ++ pending_for i pc = evs).

Lemma session_worker n0 rules m h0 evs (x x' : Watch) :
  NoDup (map rule_id rules) → 0 <= n0 →
  nextGeneration_ (core x) + len rules < 2 ^ 64 →
  session n0 rules m h0 evs x → WorkerStep x = Some x' →
  ∃ evs', session n0 rules m h0 evs' x' ∧
    nextGeneration_ (core x') <= nextGeneration_ (core x) + len rules.
Proof.
  intros Hnd Hz Hb (Hh & Hr & Hm & pc & new & Ew & Hn & Hi) E. unfold WorkerStep in E.
  rewrite Ew in E. unfold session.
  assert (Hkeep : pc ≠ Left → ∀ i, (i < m)%nat → heard_by i new ++ pending_for i pc = evs).
  { intros Hpc i Hlt. by apply Hi. }
  destruct pc as [|polled|[|[[j cb] t] calls]| |].
  - destruct (PollOnce (core x, system x)) as [r [w s]] eqn:Ep. injection E as <-. rewrite <- Hr in *.
    destruct (history_poll n0 evs _ _ _ _ _ Hnd Hz Hb Hh Ep) as (Hh' & Hr' & Hn').
    eexists. split; [split; [exact Hh'|]|done]. split; [done|]. split; [done|].
    eexists _, new. split; [done|]. split; [done|]. intros i Hlt. cbn.
    rewrite <- (Hkeep ltac:(done) i Hlt). cbn. by rewrite app_nil_r.
  - exists evs. destruct (stopRequested_ x); injection E as <-; (split; [|cbn; lia]);
      (split; [done|]; split; [done|]; split; [done|]; eexists _, new; split; [done|];
       split; [done|]; intros i Hlt; rewrite <- (Hkeep ltac:(done) i Hlt)).
    + split; [|done]. cbn. rewrite app_nil_r. by apply prefix_app_r.
    + rewrite calls_of_pending by lia. done.
  - exists evs. destruct (stopRequested_ x); injection E as <-; (split; [|cbn; lia]);
      (split; [done|]; split; [done|]; split; [done|]; eexists _, new; split; [done|];
       split; [done|]; intros i Hlt; by rewrite <- (Hkeep ltac:(done) i Hlt)).
  - exists evs. destruct (cb t (system x)) as [u s]. injection E as <-. split; [|cbn; lia].
    split; [done|]. split; [done|]. split; [done|]. eexists _, (new ++ [(j, t)]).
    split; [done|]. split; [cbn; by rewrite Hn, app_assoc|]. intros i Hlt.
    rewrite <- (Hkeep ltac:(done) i Hlt), heard_by_app, <- app_assoc.
    enough (heard_by i [(j, t)] ++ pending_for i (Calling calls) =
            pending_for i (Calling ((j, cb, t) :: calls))) as -> by done.
    unfold heard_by. cbn [pending_for]. destruct (decide (j = i)) as [->|Hne].
    + rewrite !filter_cons_True by done. done.
    + rewrite !filter_cons_False by done. done.
  - exists evs. destruct (stopRequested_ x); injection E as <-; (split; [|cbn; lia]);
      (split; [done|]; split; [done|]; split; [done|]; eexists _, new; split; [done|];
       split; [done|]; intros i Hlt; by rewrite <- (Hkeep ltac:(done) i Hlt)).
  - done.
Qed.

(** Any other action of a session leaves what it is about. *)
Lemma session_other n0 rules m h0 evs a (x x' : Watch) :
  within_session a → is_worker a = false →
  session n0 rules m h0 evs x → act a x = Some x' →
  session n0 rules m h0 evs x' ∧ core x' = core x.
Proof.
  intros Ha Hw (Hh & Hr & Hm & pc & new & Ew & Hn & Hi) E. unfold session.
  destruct a; try done; cbn [act] in E.
  - injection E as <-. destruct callback; cbn; (split; [|done]);
      (split_and!; [done..| |by exists pc, new]); rewrite ?length_app; cbn [length]; lia.
  - injection E as <-. unfold Start. rewrite Ew. cbn. split; [|done].
    split_and!; [done..|by exists pc, new].
  - destruct (joining x); [done|]. injection E as <-. unfold RequestStop. rewrite Ew.
    split; [|done]. split_and!; [done..|by exists pc, new].
  - destruct (in_callback x); [|done]. injection E as <-. unfold RequestStop. rewrite Ew.
    split; [|done]. split_and!; [done..|by exists pc, new].
  - injection E as <-. split; [|done]. split_and!; [done..|by exists pc, new].
Qed.

Lemma session_acts n0 rules m h0 l evs (x x' : Watch) :
  NoDup (map rule_id rules) → 0 <= n0 → Forall within_session l →
  nextGeneration_ (core x) + len l * len rules < 2 ^ 64 →
  session n0 rules m h0 evs x → acts l x = Some x' →
  ∃ evs', session n0 rules m h0 evs' x'.
Proof.
  intros Hnd Hz Hl. revert evs x. induction Hl as [|a l Ha _ IH]; cbn [acts]; intros evs x Hb Hs.
  { intros [= <-]. by exists evs. }
  destruct (act a x) as [y|] eqn:E; [|done]. cbn [length] in Hb.
  rewrite Nat2Z.inj_succ, Z.mul_succ_l in Hb.
  assert (0 <= len l * len rules) by (apply Z.mul_nonneg_nonneg; lia).
  destruct (is_worker a) eqn:Hw.
  - destruct a; try done. cbn [act] in E.
    destruct (session_worker n0 rules m h0 evs x y Hnd Hz ltac:(lia) Hs E) as (evs' & Hs' & Hn').
    apply (IH evs' y); [lia|done].
  - destruct (session_other _ _ _ _ _ _ _ _ Ha Hw Hs E) as [Hs' Hc].
    apply (IH evs y); [rewrite Hc; lia|done].
Qed.

(** C23. Between a [Start] that makes the thread and the end of the join, whoever
    subscribes, starts again or stops meanwhile and whatever callbacks and the
    system do: all the callbacks registered before hear the same events, up to
    how far the thread has come, each every one of them and in their order; per
    rule and pid these are one history of lifecycles that leads to what is
    tracked; and the lifecycles have generations of their own, none of which a
    session before used. Nothing is lost while the thread waits: a round's
    events are all delivered before the next round. *)
Theorem subscribers_hear_history (x x1 x2 : Watch) l :
  let rules := rules_ (core x) in
  let n0 := nextGeneration_ (core x) in
  worker_ x = None → NoDup (map rule_id rules) →
  0 <= n0 → n0 + len l * len rules < 2 ^ 64 →
  act (AStart true) x = Some x1 → Forall within_session l → acts l x1 = Some x2 →
  ∃ evs new, heard x2 = heard x ++ new ∧
    (∀ i, (i < length (callbacks_ x))%nat →
       heard_by i new `prefix_of` evs ∧ (worker_ x2 = Some Waiting → heard_by i new = evs)) ∧
    (∀ g p, p ≠ 0 →
       ∃ s gen, follows ProcessState.NotRunning 0 (events_of g p evs) s gen ∧
                stands (FindTracked (GetTrackedProcesses x2) g p) s gen) ∧
    NoDup (starts evs) ∧ Forall (λ gen, n0 <= gen < nextGeneration_ (core x2)) (starts evs).
Proof.
  cbv zeta. intros Ew Hnd Hz Hb E Hl E2.
  assert (session (nextGeneration_ (core x)) (rules_ (core x)) (length (callbacks_ x)) (heard x)
            [] x1 ∧ nextGeneration_ (core x1) = nextGeneration_ (core x)) as [Hs Hn1].
  { cbn [act] in E. injection E as <-. unfold Start. rewrite Ew. cbn. split; [|done].
    split; [apply history_nil|]. split; [done|]. split; [cbn; lia|].
    exists Polling, []. split; [done|]. split; [by rewrite app_nil_r|]. done. }
  rewrite <- Hn1 in Hb at 1.
  destruct (session_acts _ _ _ _ _ _ _ _ Hnd Hz Hl Hb Hs E2) as (evs & Hs2).
  destruct Hs2 as ((_ & _ & Hd & Hg & Hh) & _ & _ & pc & new & Ew2 & Hn & Hi).
  exists evs, new. split; [done|]. split; [|by split_and!].
  intros i Hlt. destruct (Hi i Hlt) as [Hp Heq]. rewrite Ew2. split.
  - etrans; [|exact Hp]. by apply prefix_app_r.
  - intros [= ->]. specialize (Heq ltac:(done)). cbn in Heq. by rewrite app_nil_r in Heq.
Qed.

(** ** A thread that left by itself *)

(** After a callback's [Stop] the watcher does not start again: [Start] reports
    success, and nobody hears anything until a client's [Stop] has joined. *)
Lemma self_stop_disables_Start (x : Watch) :
  worker_ x = Some Left →
  ∀ thread l x', Forall (λ a, a ≠ AJoin) l → acts l (Start thread x).2 = Some x' →
    (Start thread x).1 = Success tt ∧ heard x' = heard x ∧ worker_ x' = Some Left.
Proof.
  intros Ew thread l x' Hl. unfold Start. rewrite Ew. cbn [fst snd]. intros E. split; [done|].
  assert (deaf (heard x) x') as [Hw Hh]; [|by split].
  refine (acts_keep (deaf (heard x)) _ l x x' _ Hl _ E); [|by split].
  intros a u v. apply deaf_act.
Qed.

End Watching.

Arguments Call S : clear implicits.
Arguments Point S : clear implicits.
Arguments Watch S : clear implicits.
Arguments Action S : clear implicits.

(** ** Witnesses *)

Module Site.

(** One process whose name is [G.E], two subscribers, and a count of the calls. *)
#[local] Instance site_system : ProcessSystem nat := {
  EnumerateProcesses := mret (Success [MkEntry 7 [71; 46; 69] [] false]);
  QueryProcessCreationTime _ := mret 100;
  QueryWindowInfo _ := mret (Success (MkWindow [71] true true false))
}.

#[local] Instance site_pages : CodePages := {
  MultiByteToWideChar _ := inl [];
  WideCharToMultiByte _ := inl ""
}.

#[local] Instance site_messages : SystemMessages := λ _, "".

Definition counting : ProcessEventCallback (S := nat) := λ _ n, (tt, (n + 1)%nat).

Definition idle : Watch nat :=
  MkWatch (MkWatcher true [MkRule "game" [[71; 46; 69]] []] [] 1) [counting; counting]
    false false None false 0%nat [].

(** A round up to the first of its two calls; meanwhile a third subscribes. *)
Definition first_call : list (Action nat) :=
  [AWorker; AWorker; ASubscribe (Some counting); AWorker].

Definition after (l : list (Action nat)) (x : Watch nat) : Watch nat :=
  match acts l x with Some y => y | None => x end.

Example subscribers_hear_history_witness :
  ∃ evs new, heard (after first_call (after [AStart true] idle)) = new ∧
    map current (heard_by 0 new) = [ProcessState.Starting] ∧ heard_by 1 new = [] ∧
    heard_by 0 new `prefix_of` evs ∧ NoDup (starts evs).
Proof.
  destruct (subscribers_hear_history idle (after [AStart true] idle)
              (after first_call (after [AStart true] idle)) first_call)
    as (evs & new & Hn & Hp & _ & Hd & _);
    [reflexivity|apply NoDup_singleton|done|reflexivity|reflexivity| |reflexivity|].
  { unfold first_call. repeat constructor. }
  exists evs, new. split; [exact Hn|].
  assert (new = heard (after first_call (after [AStart true] idle))) as Hnew.
  { rewrite Hn. reflexivity. }
  split; [rewrite Hnew; reflexivity|]. split; [rewrite Hnew; reflexivity|].
  split; [|exact Hd]. apply (Hp 0%nat). cbn. lia.
Defined.

(** A stop in the middle of a delivery, a client starting again meanwhile. *)
Example Stop_returns_witness :
  let x := after first_call (after [AStart true; ASubscribe (Some counting)] (NewWatch true 0%nat)) in
  let x2 := after [AStart true; AWorker] (after [AStop] x) in
  ∃ n y, (worker_steps [AStart true; AWorker (S := nat)] + n <= steps_left x)%nat ∧
    acts (repeat AWorker n ++ [AJoin]) x2 = Some y ∧ IsRunning y = false.
Proof.
  cbv zeta.
  set (started := [AStart true; ASubscribe (Some counting)]).
  set (x := after first_call (after started (NewWatch true 0%nat))).
  destruct (Stop_returns true 0%nat (started ++ first_call) x (after [AStop] x)
              (after [AStart true; AWorker] (after [AStop] x)) [AStart true; AWorker])
    as (n & y & Hn & Hy & _ & Hr & _);
    [reflexivity|vm_compute; eexists; reflexivity|reflexivity| |reflexivity|].
  { repeat constructor; discriminate. }
  exists n, y. split; [exact Hn|]. split; [exact Hy|exact Hr].
Defined.

End Site.
