(* ===== verification/ProcessQueries.v ===== *)
(** The read-only queries of the process watcher
    ([source/process/process_watcher.cpp]): the Toolhelp enumeration, creation
    times, windows, and the details of processes. They implement the class
    [ProcessSystem] that a poll uses. The functions of the system are the class
    [ProcessApi]; [UniqueHandle] closes on every path. *)

From stdpp Require Import gmultiset.
From S2P Require Import Prelude CommonError ConfigTypes ProcessWatcher.

Open Scope string_scope.
Open Scope list_scope.
Open Scope Z_scope.

(** ** The system *)

Record Rect := MkRect { left : Z; top : Z; right : Z; bottom : Z }.

(** [None] is a failed call, whose code [process_error] gives. A snapshot holds
    [snapshot_entries] more entries to walk. [EnumWindows] answers the windows
    it called back for and whether it succeeded; [GetWindowTextW] answers what
    it copied, up to the size of the buffer less one. *)
Class ProcessApi (B : Type) := {
  process_error : B → Z;
  CreateToolhelp32Snapshot : M B (option Z);
  Process32FirstW : Z → M B (option (Z * wstring));
  Process32NextW : Z → M B (option (Z * wstring));
  snapshot_entries : Z → B → nat;
  OpenProcess : Z → Z → M B (option Z);
  GetProcessTimes : Z → M B (option (Z * Z)); (* the creation time, high and low *)
  QueryFullProcessImageNameW : Z → Z → M B (option wstring);
  GetProcessMemoryInfo : Z → M B (option Z); (* [WorkingSetSize] *)
  CloseHandle : Z → M B unit;
  EnumWindows : M B (list Z * bool);
  IsWindowVisible : Z → M B bool;
  GetWindowThreadProcessId : Z → M B (option Z);
  GetWindowTextW : Z → Z → M B wstring;
  GetForegroundWindow : M B (option Z);
  GetWindowRect : Z → M B (option Rect);
  MonitorFromWindow : Z → M B Z;
  GetMonitorInfoW : Z → M B (option Rect)
}.

Definition ERROR_NO_MORE_FILES : Z := 18.
Definition PROCESS_QUERY_LIMITED_INFORMATION : Z := 0x1000.
Definition MAX_PATH : Z := 260.
Definition kTitleBuffer : Z := 512.

(** [find_last_of] a backslash, and what follows it. *)
Fixpoint after_last_backslash (path : wstring) : option wstring :=
  match path with
  | [] => None
  | c :: path' =>
      match after_last_backslash path' with
      | Some rest => Some rest
      | None => if c =? 92 then Some path' else None
      end
  end.

Definition base_name (path : wstring) : wstring := default path (after_last_backslash path).

Section Queries.
Context {B : Type} `{SystemMessages, ProcessApi B}.

Definition process_failure {A} (op : string) : M B (Result A) :=
  λ b, (Failure (FromWin32 (u32 (process_error b)) op), b).

(** A [UniqueHandle] for the time of [body]. *)
Definition with_handle {A} (opening : M B (option Z)) (failed : M B A) (body : Z → M B A)
  : M B A :=
  opened <-- opening ;;
  match opened with
  | None => failed
  | Some h => r <-- body h ;; CloseHandle h ;;; mret r
  end.

(** ** Enumeration *)

(** The loop of [Process32NextW]. *)
Fixpoint walk_snapshot (fuel : nat) (h : Z) (acc : list ProcessEntry) (entry : Z * wstring)
  : M B (list ProcessEntry) :=
  let acc := acc ++ [MkEntry entry.1 entry.2 [] false] in
  match fuel with
  | O => mret acc
  | S fuel' =>
      next <-- Process32NextW h ;;
      match next with
      | None => mret acc
      | Some entry => walk_snapshot fuel' h acc entry
      end
  end.

Definition ListProcesses : M B (Result (list ProcessEntry)) :=
  with_handle CreateToolhelp32Snapshot (process_failure "CreateToolhelp32Snapshot") (λ h,
    first <-- Process32FirstW h ;;
    match first with
    | None => λ b,
        let code := u32 (process_error b) in
        if code =? ERROR_NO_MORE_FILES then (Success [], b)
        else (Failure (FromWin32 code "Process32FirstW"), b)
    | Some entry => λ b,
        let '(entries, b') := walk_snapshot (S (snapshot_entries h b)) h [] entry b in
        (Success entries, b')
    end).

(** ** One process *)

Definition CreationTimeOf (pid : Z) : M B Z :=
  with_handle (OpenProcess PROCESS_QUERY_LIMITED_INFORMATION pid) (mret 0) (λ h,
    times <-- GetProcessTimes h ;;
    mret (match times with
          | None => 0
          | Some (high, low) => Z.lor (u64 (Z.shiftl high 32)) low
          end)).

(** ** Windows *)

(** [WindowEnumContext], without the pid. *)
Record WindowEnumContext := MkContext {
  title : wstring;
  foundTitle : bool;
  foundVisible : bool
}.

Definition EnumWindowProc (pid : Z) (context : WindowEnumContext) (hwnd : Z)
  : M B WindowEnumContext :=
  visible <-- IsWindowVisible hwnd ;;
  if negb visible then mret context
  else
    windowPid <-- GetWindowThreadProcessId hwnd ;;
    if negb (default 0 windowPid =? pid) then mret context
    else if foundTitle context then mret (MkContext (title context) true true)
    else
      text <-- GetWindowTextW hwnd kTitleBuffer ;;
      mret (if 0 <? len text then MkContext text true true
            else MkContext (title context) false true).

Definition IsWindowFullscreen (hwnd : Z) : M B bool :=
  rect <-- GetWindowRect hwnd ;;
  match rect with
  | None => mret false
  | Some r =>
      monitor <-- MonitorFromWindow hwnd ;;
      info <-- GetMonitorInfoW monitor ;;
      mret (match info with
            | None => false
            | Some m =>
                (left r =? left m) && (top r =? top m) && (right r =? right m) &&
                (bottom r =? bottom m)
            end)
  end.

Definition WindowOf (pid : Z) : M B (Result WindowInfo) :=
  enumerated <-- EnumWindows ;;
  context <-- mfold (EnumWindowProc pid) enumerated.1 (MkContext [] false false) ;;
  let info fg fs :=
    if enumerated.2 : bool then MkWindow (title context) (foundVisible context) fg fs
    else MkWindow [] false fg fs in
  foreground <-- GetForegroundWindow ;;
  match foreground with
  | None => mret (Success (info false false))
  | Some hwnd =>
      foregroundPid <-- GetWindowThreadProcessId hwnd ;;
      if default 0 foregroundPid =? pid then
        full <-- IsWindowFullscreen hwnd ;; mret (Success (info true full))
      else mret (Success (info false false))
  end.

(** What a poll asks of the system. *)
#[export] Instance SystemQueries : ProcessSystem B := {|
  ProcessWatcher.EnumerateProcesses := ListProcesses;
  ProcessWatcher.QueryProcessCreationTime := CreationTimeOf;
  ProcessWatcher.QueryWindowInfo := WindowOf
|}.

(** ** The directory of processes *)

Definition QueryProcessDetails (pid : Z) : M B (Result ProcessDetails) :=
  with_handle (OpenProcess PROCESS_QUERY_LIMITED_INFORMATION pid) (process_failure "OpenProcess")
    (λ h,
      path <-- QueryFullProcessImageNameW h MAX_PATH ;;
      counters <-- GetProcessMemoryInfo h ;;
      window <-- WindowOf pid ;;
      let path := default [] path in
      let w := match window with Success w => w | Failure _ => MkWindow [] false false false end in
      mret (Success (MkDetails pid (base_name path) path (win_title w) (hasVisibleWindow w)
                       (win_isForeground w) (win_isFullscreen w) (default 0 counters)))).

(** A process that cannot be queried is listed with its pid and name. *)
Definition details_of (entry : ProcessEntry) : M B ProcessDetails :=
  query <-- QueryProcessDetails (en_pid entry) ;;
  mret (match query with
        | Success d => d
        | Failure _ => MkDetails (en_pid entry) (en_name entry) [] [] false false false 0
        end).

Definition EnumerateProcessDetails (windowOnly : bool) : M B (Result (list ProcessDetails)) :=
  processes <-- ListProcesses ;;
  match processes with
  | Failure e => mret (Failure e)
  | Success entries =>
      result <-- mfold (λ acc entry,
                   d <-- details_of entry ;;
                   mret (if negb windowOnly || det_hasVisibleWindow d then acc ++ [d] else acc))
                 entries [] ;;
      mret (Success result)
  end.

End Queries.

(** ** What the queries leave alone *)

(** The calls leave [obs] alone, opening and closing a handle when put together. *)
Class QueryFrame {B X : Type} `{ProcessApi B} (obs : B → X) := {
  frame_open A a p (failed : M B A) body :
    preserves obs failed → (∀ h, preserves obs (body h)) →
    preserves obs (with_handle (OpenProcess a p) failed body);
  frame_snapshot A (failed : M B A) body :
    preserves obs failed → (∀ h, preserves obs (body h)) →
    preserves obs (with_handle CreateToolhelp32Snapshot failed body);
  frame_first h : preserves obs (Process32FirstW h);
  frame_next h : preserves obs (Process32NextW h);
  frame_times h : preserves obs (GetProcessTimes h);
  frame_path h n : preserves obs (QueryFullProcessImageNameW h n);
  frame_memory h : preserves obs (GetProcessMemoryInfo h);
  frame_windows : preserves obs EnumWindows;
  frame_visible w : preserves obs (IsWindowVisible w);
  frame_owner w : preserves obs (GetWindowThreadProcessId w);
  frame_text w n : preserves obs (GetWindowTextW w n);
  frame_foreground : preserves obs GetForegroundWindow;
  frame_rect w : preserves obs (GetWindowRect w);
  frame_monitor w : preserves obs (MonitorFromWindow w);
  frame_monitor_info m : preserves obs (GetMonitorInfoW m)
}.

(** Every call by itself leaves [obs] alone. *)
Class QuietQueries {B X : Type} `{ProcessApi B} (obs : B → X) : Prop := {
  quiet_open a p : preserves obs (OpenProcess a p);
  quiet_snapshot : preserves obs CreateToolhelp32Snapshot;
  quiet_close h : preserves obs (CloseHandle h);
  quiet_first h : preserves obs (Process32FirstW h);
  quiet_next h : preserves obs (Process32NextW h);
  quiet_times h : preserves obs (GetProcessTimes h);
  quiet_path h n : preserves obs (QueryFullProcessImageNameW h n);
  quiet_memory h : preserves obs (GetProcessMemoryInfo h);
  quiet_windows : preserves obs EnumWindows;
  quiet_visible w : preserves obs (IsWindowVisible w);
  quiet_owner w : preserves obs (GetWindowThreadProcessId w);
  quiet_text w n : preserves obs (GetWindowTextW w n);
  quiet_foreground : preserves obs GetForegroundWindow;
  quiet_rect w : preserves obs (GetWindowRect w);
  quiet_monitor w : preserves obs (MonitorFromWindow w);
  quiet_monitor_info m : preserves obs (GetMonitorInfoW m)
}.

Lemma with_handle_quiet {B X A} `{ProcessApi B} (obs : B → X) `{!QuietQueries obs}
    (opening : M B (option Z)) (failed : M B A) body :
  preserves obs opening → preserves obs failed → (∀ h, preserves obs (body h)) →
  preserves obs (with_handle opening failed body).
Proof.
  intros Ho Hf Hb. unfold with_handle. apply preserves_bind; [done|]. intros [h|]; [|done].
  apply preserves_bind; [done|]. intros a. apply preserves_bind; [apply quiet_close|]. done.
Qed.

#[export] Instance quiet_frame {B X} `{ProcessApi B} (obs : B → X) `{!QuietQueries obs} :
  QueryFrame obs.
Proof.
  split; intros; try apply with_handle_quiet; try done; first
    [apply quiet_open|apply quiet_snapshot|apply quiet_first|apply quiet_next|apply quiet_times
    |apply quiet_path|apply quiet_memory|apply quiet_windows|apply quiet_visible|apply quiet_owner
    |apply quiet_text|apply quiet_foreground|apply quiet_rect|apply quiet_monitor
    |apply quiet_monitor_info].
Qed.

#[export] Hint Resolve frame_first frame_next frame_times frame_path frame_memory frame_windows
  frame_visible frame_owner frame_text frame_foreground frame_rect frame_monitor
  frame_monitor_info : frame.

Section Frames.
Context {B X : Type} `{SystemMessages} `{ProcessApi B} (obs : B → X) `{!QueryFrame obs}.

Lemma walk_frame fuel h acc e : preserves obs (walk_snapshot fuel h acc e).
Proof. revert acc e. induction fuel as [|fuel IH]; intros acc e; cbn [walk_snapshot]; frame. Qed.

Lemma ListProcesses_frame : preserves obs ListProcesses.
Proof.
  apply frame_snapshot; [done|]. intros h.
  apply preserves_bind; [apply frame_first|]. intros [entry|] b.
  - pose proof (walk_frame (S (snapshot_entries h b)) h [] entry b) as Hw.
    by destruct (walk_snapshot _ h [] entry b).
  - cbn. by case_match.
Qed.

Lemma CreationTimeOf_frame pid : preserves obs (CreationTimeOf pid).
Proof. apply frame_open; [done|]. intros h. frame. Qed.

Lemma WindowOf_frame pid : preserves obs (WindowOf pid).
Proof.
  unfold WindowOf. apply preserves_bind; [apply frame_windows|]. intros e.
  apply preserves_bind.
  { apply mfold_preserves. intros c w. unfold EnumWindowProc. frame. }
  intros c. unfold IsWindowFullscreen. frame.
Qed.

#[local] Hint Resolve ListProcesses_frame CreationTimeOf_frame WindowOf_frame
  mfold_preserves : frame.

Lemma QueryProcessDetails_frame pid : preserves obs (QueryProcessDetails pid).
Proof. apply frame_open; [done|]. intros h. frame. Qed.

Lemma details_of_frame entry : preserves obs (details_of entry).
Proof. apply preserves_bind; [apply QueryProcessDetails_frame|]. intros q. frame. Qed.

Lemma EnumerateProcessDetails_frame windowOnly :
  preserves obs (EnumerateProcessDetails windowOnly).
Proof.
  apply preserves_bind; [apply ListProcesses_frame|]. intros [entries|]; [|done].
  apply preserves_bind; [|done]. apply mfold_preserves. intros acc e.
  apply preserves_bind; [apply details_of_frame|]. frame.
Qed.

Lemma prefetch_frame entries rules cache :
  preserves obs (mfold (prefetch_rule entries) rules cache).
Proof.
  apply mfold_preserves. intros c rule. unfold prefetch_rule.
  destruct (_ =? 0); [done|]. apply mfold_preserves. intros c' name.
  apply mfold_preserves. intros c'' e. unfold prefetch_entry.
  destruct (ProcessNameMatches _ _); [|done]. destruct (c'' !! _); [done|].
  apply preserves_bind; [apply WindowOf_frame|]. intros [i|]; done.
Qed.

Lemma presence_of_frame detect cache m : preserves obs (presence_of detect cache m).
Proof.
  unfold presence_of. cbv zeta. apply preserves_bind; [apply CreationTimeOf_frame|].
  intros t. destruct detect; [|done]. destruct (cache !! _); [done|].
  apply preserves_bind; [apply WindowOf_frame|]. intros [i|]; done.
Qed.

Lemma PollOnce_frame (w : ProcessWatcher) (b : B) : obs (PollOnce (w, b)).2.2 = obs b.
Proof.
  unfold PollOnce. cbn [EnumerateProcesses SystemQueries].
  pose proof (ListProcesses_frame b) as He.
  destruct (ListProcesses b) as [[entries|e] b1]; [|done]. cbn in He.
  set (titled := existsb _ _).
  destruct (if titled then _ else _) as [cache b2] eqn:Ec.
  assert (obs b2 = obs b1) as Hb2.
  { destruct titled; [|by injection Ec as <- <-].
    exact (preserves_run _ _ _ _ _ (prefetch_frame _ _ _) Ec). }
  set (entries' := if titled then _ else _).
  destruct (mfold _ _ _ b2) as [presence b3] eqn:Ep.
  cbn. etrans; [|exact (eq_trans Hb2 He)].
  refine (preserves_run obs _ _ _ _ _ Ep). apply mfold_preserves. intros acc m.
  apply preserves_bind; [apply presence_of_frame|done].
Qed.
End Frames.

(** ** Handles *)

(** The handles a process holds: opening adds one, closing gives it back, and
    nothing else changes them; walking a snapshot uses it up. *)
Class ProcessApiLaws (B : Type) `{ProcessApi B} := {
  held : B → gmultiset Z;
  api_open a p b : let '(r, b') := OpenProcess a p b in
    held b' = held b ⊎ match r with Some h => {[+ h +]} | None => ∅ end;
  api_snapshot b : let '(r, b') := CreateToolhelp32Snapshot b in
    held b' = held b ⊎ match r with Some h => {[+ h +]} | None => ∅ end;
  api_close h b : held (CloseHandle h b).2 = held b ∖ {[+ h +]};
  api_first h : preserves held (Process32FirstW h);
  api_next h : preserves held (Process32NextW h);
  api_times h : preserves held (GetProcessTimes h);
  api_path h n : preserves held (QueryFullProcessImageNameW h n);
  api_memory h : preserves held (GetProcessMemoryInfo h);
  api_windows : preserves held EnumWindows;
  api_visible w : preserves held (IsWindowVisible w);
  api_owner w : preserves held (GetWindowThreadProcessId w);
  api_text w n : preserves held (GetWindowTextW w n);
  api_foreground : preserves held GetForegroundWindow;
  api_rect w : preserves held (GetWindowRect w);
  api_monitor w : preserves held (MonitorFromWindow w);
  api_monitor_info m : preserves held (GetMonitorInfoW m);
  api_walk h b e b' : Process32NextW h b = (Some e, b') →
    (snapshot_entries h b' < snapshot_entries h b)%nat
}.

Section QueryTheorems.
Context {B : Type} `{SystemMessages} `{ProcessApiLaws B}.

(** A handle is given back whatever is done with it. *)
Lemma with_handle_held {A} (opening : M B (option Z)) (failed : M B A) (body : Z → M B A) :
  (∀ b, let '(r, b') := opening b in
     held b' = held b ⊎ match r with Some h => {[+ h +]} | None => ∅ end) →
  preserves held failed → (∀ h, preserves held (body h)) →
  preserves held (with_handle opening failed body).
Proof.
  intros Ho Hf Hb b. unfold with_handle, mthen, mret. specialize (Ho b).
  destruct (opening b) as [[h|] b1].
  - specialize (Hb h b1). destruct (body h b1) as [r b2]. cbn in Hb.
    pose proof (api_close h b2) as Hc. destruct (CloseHandle h b2) as [u b3]. cbn in *.
    rewrite Hc, Hb, Ho. multiset_solver.
  - rewrite Hf, Ho. multiset_solver.
Qed.

#[local] Instance held_frame : QueryFrame held.
Proof.
  split; intros; [apply with_handle_held; [intros b; apply api_open|done|done]|
                  apply with_handle_held; [exact api_snapshot|done|done]|..].
  - apply api_first.
  - apply api_next.
  - apply api_times.
  - apply api_path.
  - apply api_memory.
  - apply api_windows.
  - apply api_visible.
  - apply api_owner.
  - apply api_text.
  - apply api_foreground.
  - apply api_rect.
  - apply api_monitor.
  - apply api_monitor_info.
Qed.

(** Neither a poll nor a listing of processes leaves a handle open, whatever
    fails in it. *)
Lemma queries_leak_nothing (w : ProcessWatcher) (windowOnly : bool) (pid : Z) (b : B) :
  held (PollOnce (w, b)).2.2 = held b ∧
  held (EnumerateProcessDetails windowOnly b).2 = held b ∧
  held (QueryProcessDetails pid b).2 = held b.
Proof.
  split; [|split].
  - exact (PollOnce_frame held w b).
  - exact (EnumerateProcessDetails_frame held windowOnly b).
  - exact (QueryProcessDetails_frame held pid b).
Qed.

(** The snapshot is walked to its end: more fuel than it has entries changes
    nothing. *)
Lemma walk_snapshot_enough fuel h acc e (b : B) :
  (snapshot_entries h b < fuel)%nat →
  walk_snapshot (S fuel) h acc e b = walk_snapshot fuel h acc e b.
Proof.
  revert acc e b. induction fuel as [|fuel IH]; intros acc e b Hf; [lia|].
  change (walk_snapshot (S (S fuel)) h acc e) with
    (next <-- Process32NextW h ;;
     match next with
     | None => mret (acc ++ [MkEntry e.1 e.2 [] false])
     | Some entry => walk_snapshot (S fuel) h (acc ++ [MkEntry e.1 e.2 [] false]) entry
     end).
  cbn [walk_snapshot]. unfold mthen. destruct (Process32NextW h b) as [[e'|] b'] eqn:E; [|done].
  apply IH. apply api_walk in E. lia.
Qed.

(** A process that opens but whose path cannot be had, for instance one longer
    than the buffer, is listed without a name, although the snapshot gave it. *)
Lemma details_nameless pid (b b1 b2 b3 : B) h d :
  OpenProcess PROCESS_QUERY_LIMITED_INFORMATION pid b = (Some h, b1) →
  QueryFullProcessImageNameW h MAX_PATH b1 = (None, b2) →
  QueryProcessDetails pid b = (Success d, b3) → det_name d = [] ∧ executablePath d = [].
Proof.
  intros E1 E2. unfold QueryProcessDetails, with_handle, mthen, mret. rewrite E1, E2.
  destruct (GetProcessMemoryInfo h b2) as [c b4]. destruct (WindowOf pid b4) as [w b5].
  destruct (CloseHandle h b5) as [u b6]. intros [= <- _]. by destruct w.
Qed.

(** A listing of all processes has each process of the snapshot once, in its
    order: one that cannot be queried does not make it fail. *)
Lemma EnumerateProcessDetails_lists (b b1 : B) entries :
  ListProcesses b = (Success entries, b1) →
  ∃ l b2, EnumerateProcessDetails false b = (Success l, b2) ∧
          map det_pid l = map en_pid entries.
Proof.
  unfold EnumerateProcessDetails. unfold mthen at 1. intros ->.
  set (f := λ (acc : list ProcessDetails) entry, _ : M B (list ProcessDetails)).
  enough (Hf : ∀ acc b, map det_pid (mfold f entries acc b).1 =
                        map det_pid acc ++ map en_pid entries).
  { specialize (Hf [] b1). unfold mthen. destruct (mfold f entries [] b1) as [l b2].
    by exists l, b2. }
  induction entries as [|e entries IH]; intros acc b2; cbn [mfold map].
  { cbn. by rewrite app_nil_r. }
  unfold mthen at 1. subst f. cbv beta. unfold mthen at 1, mret at 1.
  assert (Hp : det_pid (details_of e b2).1 = en_pid e).
  { unfold details_of, mthen at 1, mret at 1.
    destruct (QueryProcessDetails (en_pid e) b2) as [[d|x] b3] eqn:E; [|done].
    revert E. unfold QueryProcessDetails, with_handle, mthen, mret, process_failure.
    destruct (OpenProcess _ _ b2) as [[h|] b4]; [|done].
    destruct (QueryFullProcessImageNameW h _ b4) as [p b5].
    destruct (GetProcessMemoryInfo h b5) as [c b6]. destruct (WindowOf _ b6) as [w b7].
    destruct (CloseHandle h b7) as [u b8]. by intros [= <- _]. }
  destruct (details_of e b2) as [d b3]. cbn in Hp. cbn [negb orb].
  rewrite IH, map_app, <- app_assoc. cbn [map app]. by rewrite Hp.
Qed.

End QueryTheorems.

(** ** Windows as they stand *)

(** While the desktop does not change, a process's window is read off it: the
    title is that of its first visible window with one, and it is in the
    foreground when it owns the foreground window. *)
Section Desktop.
Context {B : Type} `{SystemMessages} `{ProcessApi B} (b : B).
Context (windows : list Z) (visible : Z → bool) (owner : Z → option Z) (text : Z → wstring).
Context (front : option Z) (full : Z → bool).
Hypothesis windows_ok : EnumWindows b = ((windows, true), b).
Hypothesis visible_ok : ∀ w, IsWindowVisible w b = (visible w, b).
Hypothesis owner_ok : ∀ w, GetWindowThreadProcessId w b = (owner w, b).
Hypothesis text_ok : ∀ w, GetWindowTextW w kTitleBuffer b = (text w, b).
Hypothesis front_ok : GetForegroundWindow b = (front, b).
Hypothesis full_ok : ∀ w, IsWindowFullscreen w b = (full w, b).

Definition owned (pid w : Z) : bool := visible w && (default 0 (owner w) =? pid).

Definition title_among (pid : Z) (ws : list Z) : wstring :=
  match List.find (λ w, owned pid w && (0 <? len (text w))) ws with
  | Some w => text w
  | None => []
  end.

Lemma EnumWindowProc_fold pid ws seen :
  mfold (EnumWindowProc pid) ws (MkContext [] false seen) b =
  (MkContext (title_among pid ws)
     (existsb (λ w, owned pid w && (0 <? len (text w))) ws)
     (seen || existsb (owned pid) ws), b).
Proof.
  assert (Hdone : ∀ l t, mfold (EnumWindowProc pid) l (MkContext t true true) b =
                         (MkContext t true true, b)).
  { induction l as [|w l IH]; intros t; [done|]. cbn [mfold].
    unfold mthen at 1, EnumWindowProc, mthen, mret. rewrite visible_ok.
    destruct (visible w); cbn [negb]; [|apply IH]. rewrite owner_ok.
    destruct (_ =? pid); cbn [negb foundTitle title]; apply IH. }
  revert seen. induction ws as [|w ws IH]; intros seen; [cbn; by rewrite orb_false_r|].
  unfold title_among. cbn [mfold existsb List.find]. fold (title_among pid ws).
  unfold mthen at 1, EnumWindowProc at 1, mthen, mret. rewrite visible_ok.
  unfold owned at 1 3 5. destruct (visible w); cbn [negb andb orb]; [|apply IH]. rewrite owner_ok.
  destruct (default 0 (owner w) =? pid); cbn [negb andb orb foundTitle title]; [|apply IH].
  rewrite text_ok. destruct (0 <? len (text w)); cbn [negb andb orb].
  - rewrite Hdone. by rewrite orb_true_r.
  - rewrite IH. by rewrite orb_true_r.
Qed.

Lemma WindowOf_desktop pid :
  WindowOf pid b =
  (Success (MkWindow (title_among pid windows) (existsb (owned pid) windows)
     (match front with Some w => default 0 (owner w) =? pid | None => false end)
     (match front with Some w => (default 0 (owner w) =? pid) && full w | None => false end)), b).
Proof.
  unfold WindowOf. unfold mthen at 1. rewrite windows_ok. cbn [fst snd].
  unfold mthen at 1. rewrite EnumWindowProc_fold. cbn [orb foundVisible title].
  unfold mthen at 1. rewrite front_ok. destruct front as [w|]; [|done].
  unfold mthen at 1. rewrite owner_ok. destruct (default 0 (owner w) =? pid); [|done].
  unfold mthen, mret. by rewrite full_ok.
Qed.
End Desktop.
