(* ===== verification/Platform.v ===== *)
(** The platform ([platform/native_api]): version and support of the operating
    system, the power source, and the capabilities of the native interface,
    probed once. The system's answers are the classes [Modules] and
    [PlatformApi]. *)

From S2P Require Import Prelude CommonError.

Open Scope string_scope.
Open Scope list_scope.
Open Scope Z_scope.

(** [GetModuleHandleW] and [GetProcAddress]: whether the module is loaded and
    exports the function. *)
Class Modules (B : Type) := {
  GetModuleHandleW : string → M B bool;
  GetProcAddress : string → M B bool
}.

Record OsVersion := MkOsVersion { majorVersion : Z; minorVersion : Z; buildNumber : Z }.

Module OsSupport.
Inductive OsSupport := Supported | UnsupportedVersion | UnsupportedArchitecture.
End OsSupport.
Abbreviation OsSupport := OsSupport.OsSupport.

#[export] Instance OsSupport_eq_dec : EqDecision OsSupport.
Proof. solve_decision. Defined.

Definition ClassifyOsSupport (version : OsVersion) (nativeX64 : bool) : OsSupport :=
  if negb nativeX64 then OsSupport.UnsupportedArchitecture
  else if negb (majorVersion version =? 10) || negb (minorVersion version =? 0)
          || (buildNumber version <? 10240) then OsSupport.UnsupportedVersion
  else OsSupport.Supported.

(** [RtlGetVersion] gives a status and the version; [GetSystemPowerStatus] the
    state of the AC line. *)
Class PlatformApi (B : Type) := {
  RtlGetVersion : M B (Z * OsVersion);
  GetSystemPowerStatus : M B (option Z);
  wProcessorArchitecture : M B Z;
  platform_error : B → Z
}.

Definition PROCESSOR_ARCHITECTURE_AMD64 : Z := 9.

Record NativeCapabilities := MkCapabilities {
  ntdllLoaded : bool;
  querySystemInformation : bool;
  setSystemInformation : bool;
  ntStatusConversion : bool
}.

(** The singleton: the flag of [std::call_once] and what the probe found. *)
Record NativeApi := MkNativeApi { probeOnce : bool; capabilities : NativeCapabilities }.

Definition new_native_api : NativeApi :=
  MkNativeApi false (MkCapabilities false false false false).

Section Queries.
Context {B : Type} `{SystemMessages} `{Modules B} `{PlatformApi B}.

Definition no_ntdll : Error :=
  Unsupported "GetModuleHandleW(ntdll.dll)" "ntdll.dll is not available in the current process".

Definition QueryOsVersion : M B (Result OsVersion) :=
  ntdll <-- GetModuleHandleW "ntdll.dll" ;;
  if negb ntdll then mret (Failure no_ntdll)
  else
    getVersion <-- GetProcAddress "RtlGetVersion" ;;
    if negb getVersion then
      mret (Failure (Unsupported "RtlGetVersion" "RtlGetVersion is not exported by ntdll.dll"))
    else
      answer <-- RtlGetVersion ;;
      let '(status, info) := answer in
      mret (if negb (status =? 0) then Failure (FromNtStatus status "RtlGetVersion")
            else Success info).

Definition QueryOnBatteryPower : M B (Result bool) :=
  status <-- GetSystemPowerStatus ;;
  match status with
  | None => λ b, (Failure (FromWin32 (u32 (platform_error b)) "GetSystemPowerStatus"), b)
  | Some line =>
      mret (if line =? 255 then
              Failure (Unsupported "QueryOnBatteryPower" "交流电状态未知（ACLineStatus=255）")
            else Success (line =? 0))
  end.

Definition IsNativeX64 : M B bool :=
  a <-- wProcessorArchitecture ;; mret (a =? PROCESSOR_ARCHITECTURE_AMD64).

Definition ProbeOnce (n : NativeApi) : M B NativeApi :=
  if probeOnce n then mret n
  else
    ntdll <-- GetModuleHandleW "ntdll.dll" ;;
    if negb ntdll then mret (MkNativeApi true (capabilities n))
    else
      query <-- GetProcAddress "NtQuerySystemInformation" ;;
      set <-- GetProcAddress "NtSetSystemInformation" ;;
      conversion <-- GetProcAddress "RtlNtStatusToDosError" ;;
      mret (MkNativeApi true (MkCapabilities true query set conversion)).

Definition Probe (n : NativeApi) : M B (Result NativeCapabilities * NativeApi) :=
  n' <-- ProbeOnce n ;;
  mret (if negb (ntdllLoaded (capabilities n')) then Failure no_ntdll
        else Success (capabilities n'), n').

(** The probe is made once: later ones answer the same without asking. *)
Lemma Probe_once n b r n' b' :
  Probe n b = ((r, n'), b') → ∀ b2, Probe n' b2 = ((r, n'), b2).
Proof.
  unfold Probe, ProbeOnce, mthen, mret. intros E b2.
  assert (Hp : probeOnce n' = true ∧
    r = if negb (ntdllLoaded (capabilities n')) then Failure no_ntdll
        else Success (capabilities n')).
  { destruct (probeOnce n) eqn:Hp; [by simplify_eq|].
    destruct (GetModuleHandleW "ntdll.dll" b) as [[] b3]; cbn in E; [|by simplify_eq].
    destruct (GetProcAddress "NtQuerySystemInformation" b3) as [q b4].
    destruct (GetProcAddress "NtSetSystemInformation" b4) as [s b5].
    destruct (GetProcAddress "RtlNtStatusToDosError" b5) as [c b6]. by simplify_eq. }
  destruct Hp as [-> ->]. done.
Qed.
End Queries.

(** Support is exactly Windows 10 or 11 on x64, from the first release on. *)
Lemma ClassifyOsSupport_iff v x64 :
  ClassifyOsSupport v x64 = OsSupport.Supported ↔
  x64 = true ∧ majorVersion v = 10 ∧ minorVersion v = 0 ∧ 10240 <= buildNumber v.
Proof.
  unfold ClassifyOsSupport. destruct x64; cbn; [|naive_solver].
  destruct (Z.eqb_spec (majorVersion v) 10), (Z.eqb_spec (minorVersion v) 0),
    (Z.ltb_spec (buildNumber v) 10240); cbn; split; intros; destruct_and?; try done; lia.
Qed.
