(* ===== verification/Memory.v ===== *)
(** Memory: plans of cleaning and their execution ([memory/memory_cleaner]),
    readings and trimming of the own working set ([memory/working_set]), the
    backend of the system-wide steps ([memory/system_clean_backend]) and the
    status queries ([memory/memory_tuner]). Win32 and NT calls are the class
    [MemoryApi]; texts of ASCII characters are kept as [string]. *)

From Stdlib Require Import Sorted.
From S2P Require Import Prelude CommonError ConfigTypes SafetyGates Platform.

Open Scope string_scope.
Open Scope list_scope.
Open Scope Z_scope.

(** ** Steps and plans *)

Module CleanKind.
Inductive CleanKind := WorkingSetTrim | StandbyListPurge | SystemFileCacheTrim.
End CleanKind.
Abbreviation CleanKind := CleanKind.CleanKind.

#[export] Instance CleanKind_eq_dec : EqDecision CleanKind.
Proof. solve_decision. Defined.

Definition CleanKindToString (kind : CleanKind) : string :=
  match kind with
  | CleanKind.WorkingSetTrim => "working_set_trim"
  | CleanKind.StandbyListPurge => "standby_list_purge"
  | CleanKind.SystemFileCacheTrim => "system_file_cache_trim"
  end.

Definition CleanKindCapabilityId (kind : CleanKind) : string :=
  match kind with
  | CleanKind.WorkingSetTrim => "memory.clean"
  | CleanKind.StandbyListPurge => "memory.purge_standby"
  | CleanKind.SystemFileCacheTrim => "memory.file_cache_trim"
  end.

(** The macros tested here are those of [BuildOptions]: the build defines them
    as 1 or not at all. *)
Definition CleanStepImplemented `{BuildOptions} (kind : CleanKind) : bool :=
  match kind with
  | CleanKind.WorkingSetTrim => true
  | CleanKind.StandbyListPurge => OPTIMIZER_ENABLE_STANDBY_PURGE
  | CleanKind.SystemFileCacheTrim => OPTIMIZER_ENABLE_FILE_CACHE_TRIM
  end.

Record MemoryCleanPlan := MkCleanPlan {
  plan_allowed : bool;
  levelWithinLimit : bool;
  gatesAllowed : bool;
  plan_steps : list CleanKind
}.

(** The steps a level asks for, lightest first. *)
Definition level_steps (level : Z) : list CleanKind :=
  (if clean_value CleanLevel.Light <=? level then [CleanKind.WorkingSetTrim] else []) ++
  (if clean_value CleanLevel.Medium <=? level then [CleanKind.StandbyListPurge] else []) ++
  (if clean_value CleanLevel.Deep <=? level then [CleanKind.SystemFileCacheTrim] else []).

Definition PlanMemoryClean (requested configuredMax : CleanLevel) (gates : bool) :
    MemoryCleanPlan :=
  if bool_decide (requested = CleanLevel.None) then MkCleanPlan false true gates []
  else if negb (clean_value requested <=? clean_value configuredMax) then
    MkCleanPlan false false gates []
  else MkCleanPlan gates true gates (level_steps (clean_value requested)).

Record CleanPlanReadiness := MkReadiness {
  allImplemented : bool;
  hasStep : bool;
  firstUnimplemented : option CleanKind
}.

Definition ready_step `{BuildOptions} (r : CleanPlanReadiness) (step : CleanKind) :
    CleanPlanReadiness :=
  if CleanStepImplemented step then r
  else MkReadiness false (hasStep r)
         (match firstUnimplemented r with None => Some step | f => f end).

Definition EvaluateCleanPlanReadiness `{BuildOptions} (plan : MemoryCleanPlan) :
    CleanPlanReadiness :=
  foldl ready_step
    (MkReadiness true (match plan_steps plan with [] => false | _ => true end) None)
    (plan_steps plan).

(** ** Execution *)

Class CleanBackend (B : Type) := clean_execute : CleanKind → M B (Result unit).

(** [failedStep] is the first enumerator when no step failed. *)
Record CleanExecutionReport := MkCleanReport {
  executed : Z;
  succeeded : Z;
  rep_ok : bool;
  hasFailedStep : bool;
  failedStep : CleanKind;
  failureDetail : string
}.

Definition no_report : CleanExecutionReport :=
  MkCleanReport 0 0 false false CleanKind.WorkingSetTrim "".

Definition RefusingCleanBackend {B} : CleanBackend B := λ _,
  mret (Failure (Unsupported "CleanBackend::Execute"
    "保守后端不执行任何系统调用（真实清理请走门禁允许的专用后端）")).

Section Execution.
Context {B : Type} `{CleanBackend B}.

Fixpoint clean_steps (steps : list CleanKind) (r : CleanExecutionReport) :
    M B CleanExecutionReport :=
  match steps with
  | [] => mret (MkCleanReport (executed r) (succeeded r) true (hasFailedStep r)
                  (failedStep r) (failureDetail r))
  | step :: rest =>
      result <-- clean_execute step ;;
      match result with
      | Failure e =>
          mret (MkCleanReport (executed r + 1) (succeeded r) (rep_ok r) true step (message e))
      | Success _ =>
          clean_steps rest
            (MkCleanReport (executed r + 1) (succeeded r + 1) (rep_ok r) (hasFailedStep r)
               (failedStep r) (failureDetail r))
      end
  end.

Definition ExecuteMemoryCleanPlan (plan : MemoryCleanPlan) :
    M B (Result CleanExecutionReport) :=
  if negb (plan_allowed plan) then
    mret (Failure (Unsupported "ExecuteMemoryCleanPlan" "计划未获门禁许可：不执行任何步骤"))
  else match plan_steps plan with
  | [] => mret (Failure (Validation "ExecuteMemoryCleanPlan" "计划没有可执行步骤"))
  | steps => report <-- clean_steps steps no_report ;; mret (Success report)
  end.
End Execution.

(** ** Readings of the working set *)

Record WorkingSetReading := MkReading { workingSetBytes : Z; peakWorkingSetBytes : Z }.

Record WorkingSetDelta := MkDelta { beforeBytes : option Z; afterBytes : option Z }.

Definition MakeWorkingSetDelta (before after : option WorkingSetReading) : WorkingSetDelta :=
  MkDelta (workingSetBytes <$> before) (workingSetBytes <$> after).

(** Conversion of [std::uint64_t] to [std::int64_t]. *)
Definition i64 (z : Z) : Z :=
  let r := z mod 2 ^ 64 in if r <? 2 ^ 63 then r else r - 2 ^ 64.

Definition DeltaBytes (d : WorkingSetDelta) : option Z :=
  match beforeBytes d, afterBytes d with
  | Some before, Some after => Some (i64 after - i64 before)
  | _, _ => None
  end.

Definition WorkingSetReduced (d : WorkingSetDelta) : bool :=
  match DeltaBytes d with Some n => n <? 0 | None => false end.

(** [std::to_string], or [unknown]. *)
Definition bytes_text (n : option Z) : string :=
  match n with Some z => to_string z | None => "unknown" end.

Definition DescribeWorkingSetDelta (d : WorkingSetDelta) : string :=
  "working_set_before=" +:+ bytes_text (beforeBytes d) +:+
  " working_set_after=" +:+ bytes_text (afterBytes d) +:+
  " delta=" +:+ bytes_text (DeltaBytes d).

(** ** Win32 and NT calls *)

Definition LUID : Type := Z * Z.

(** Handles are integers; [None] and [false] are failing calls, whose code
    [memory_error] gives ([GetLastError]). *)
Class MemoryApi (B : Type) := {
  OpenProcess : Z → Z → M B (option Z);
  CloseHandle : Z → M B unit;
  GetProcessMemoryInfo : Z → M B (option (Z * Z));
  EmptyWorkingSet : Z → M B bool;
  OpenProcessToken : Z → M B (option Z);
  LookupPrivilegeValueW : string → M B (option LUID);
  TokenPrivilegesSize : Z → M B Z;
  new_nothrow : Z → M B bool;
  TokenPrivileges : Z → Z → M B (option (list LUID));
  AdjustTokenPrivileges : Z → LUID → M B bool;
  NtSetSystemInformation : Z → Z → M B Z;
  NtQuerySystemInformation : Z → M B (Z * list Z * Z);
  SetSystemFileCacheSize : Z → Z → Z → M B bool;
  GetPerformanceInfo : M B (option (Z * Z));
  GetSystemPageSize : M B Z;
  GlobalMemoryStatusEx : M B (option (Z * Z * Z));
  memory_error : B → Z
}.

Definition PROCESS_QUERY_LIMITED_INFORMATION : Z := 0x1000.
Definition TOKEN_QUERY : Z := 0x0008.
Definition TOKEN_ADJUST_PRIVILEGES : Z := 0x0020.
Definition kSystemMemoryListInformation : Z := 80.
Definition kMemoryPurgeStandbyList : Z := 4.
Definition kSeProfileSingleProcess : string := "SeProfileSingleProcessPrivilege".
Definition kSeIncreaseQuota : string := "SeIncreaseQuotaPrivilege".

(** [sizeof(SystemMemoryListInformation)]: 22 words of 8 bytes. *)
Definition memory_list_size : Z := 22 * 8.

(** The pseudo handle [GetCurrentProcess] returns. *)
Definition current_process : Z := -1.

Section System.
Context {B : Type} `{SystemMessages} `{Modules B} `{MemoryApi B}.

Definition memory_failure {A} (op : string) : M B (Result A) :=
  λ b, (Failure (FromWin32 (u32 (memory_error b)) op), b).

Definition ToReading (counters : Z * Z) : WorkingSetReading :=
  MkReading counters.1 counters.2.

Definition QueryWorkingSet (processId : Z) : M B (Result WorkingSetReading) :=
  if processId =? 0 then mret (Failure (Validation "QueryWorkingSet" "进程 ID 不能为 0"))
  else
    process <-- OpenProcess PROCESS_QUERY_LIMITED_INFORMATION processId ;;
    match process with
    | None => memory_failure "OpenProcess(PROCESS_QUERY_LIMITED_INFORMATION)"
    | Some h =>
        counters <-- GetProcessMemoryInfo h ;;
        r <-- match counters with
              | None => memory_failure "GetProcessMemoryInfo"
              | Some c => mret (Success (ToReading c))
              end ;;
        CloseHandle h ;;; mret r
    end.

Definition QueryOwnWorkingSet : M B (Result WorkingSetReading) :=
  counters <-- GetProcessMemoryInfo current_process ;;
  match counters with
  | None => memory_failure "GetProcessMemoryInfo(own process)"
  | Some c => mret (Success (ToReading c))
  end.

Definition TrimOwnWorkingSet : M B (Result unit) :=
  ok <-- EmptyWorkingSet current_process ;;
  if ok then mret (Success tt) else memory_failure "EmptyWorkingSet(own process)".

Definition SelfWorkingSetTrimBackend : CleanBackend B := λ kind,
  match kind with
  | CleanKind.WorkingSetTrim => TrimOwnWorkingSet
  | CleanKind.StandbyListPurge =>
      mret (Failure (Unsupported "SelfWorkingSetTrimBackend::Execute"
        "Standby/Modified List 清理未实现（R3；且只在隔离环境显式开启时才允许执行）"))
  | CleanKind.SystemFileCacheTrim =>
      mret (Failure (Unsupported "SelfWorkingSetTrimBackend::Execute"
        "系统文件缓存修剪未实现（R3；且只在隔离环境显式开启时才允许执行）"))
  end.

(** ** Privileges *)

Definition NtSuccess (status : Z) : bool := 0 <=? status.

Definition same_luid (a b : LUID) : bool := (a.1 =? b.1) && (a.2 =? b.2).

Definition search_privilege (token : Z) (luid : LUID) : M B bool :=
  needed <-- TokenPrivilegesSize token ;;
  if negb (0 <? needed) then mret false
  else
    buffer <-- new_nothrow needed ;;
    if negb buffer then mret false
    else
      privileges <-- TokenPrivileges token needed ;;
      mret (match privileges with
            | Some l => existsb (λ candidate, same_luid candidate luid) l
            | None => false
            end).

(** [body] on the token, which is closed afterwards. *)
Definition with_token (access : Z) (name : string) (body : Z → LUID → M B bool) : M B bool :=
  opened <-- OpenProcessToken access ;;
  match opened with
  | None => mret false
  | Some token =>
      luid <-- LookupPrivilegeValueW name ;;
      found <-- match luid with None => mret false | Some l => body token l end ;;
      CloseHandle token ;;; mret found
  end.

Definition TokenHasPrivilege (name : string) : M B bool :=
  with_token TOKEN_QUERY name search_privilege.

Definition EnablePrivilege (name : string) : M B bool :=
  with_token (Z.lor TOKEN_ADJUST_PRIVILEGES TOKEN_QUERY) name
    (λ token luid,
       adjusted <-- AdjustTokenPrivileges token luid ;;
       λ b, (adjusted && (memory_error b =? 0), b)).

Definition HasRequiredPrivilege (kind : CleanKind) : M B bool :=
  match kind with
  | CleanKind.WorkingSetTrim => mret true
  | CleanKind.StandbyListPurge => TokenHasPrivilege kSeProfileSingleProcess
  | CleanKind.SystemFileCacheTrim => TokenHasPrivilege kSeIncreaseQuota
  end.

(** ** The steps that affect the whole system *)

Definition PurgeStandbyList : M B (Result unit) :=
  enabled <-- EnablePrivilege kSeProfileSingleProcess ;;
  if negb enabled then
    mret (Failure (Unsupported "PurgeStandbyList"
      "未取得 SeProfileSingleProcessPrivilege（Standby 清理需要管理员权限）"))
  else
    ntdll <-- GetModuleHandleW "ntdll.dll" ;;
    if negb ntdll then
      mret (Failure (Unsupported "PurgeStandbyList"
        "ntdll.dll 未加载，无法调用 NtSetSystemInformation"))
    else
      setInformation <-- GetProcAddress "NtSetSystemInformation" ;;
      if negb setInformation then
        mret (Failure (Unsupported "PurgeStandbyList" "ntdll 未导出 NtSetSystemInformation"))
      else
        status <-- NtSetSystemInformation kSystemMemoryListInformation
                     kMemoryPurgeStandbyList ;;
        mret (if NtSuccess status then Success tt
              else Failure (FromNtStatus (i32 status)
                     "NtSetSystemInformation(SystemMemoryListInformation)")).

Definition TrimSystemFileCache : M B (Result unit) :=
  enabled <-- EnablePrivilege kSeIncreaseQuota ;;
  if negb enabled then
    mret (Failure (Unsupported "TrimSystemFileCache"
      "未取得 SeIncreaseQuotaPrivilege（文件缓存修剪需要管理员权限）"))
  else
    let noLimit := u64 (-1) in
    ok <-- SetSystemFileCacheSize noLimit noLimit 0 ;;
    if ok then mret (Success tt) else memory_failure "SetSystemFileCacheSize".

Definition SystemMemoryCleanBackend : CleanBackend B := λ kind,
  match kind with
  | CleanKind.WorkingSetTrim => TrimOwnWorkingSet
  | CleanKind.StandbyListPurge => PurgeStandbyList
  | CleanKind.SystemFileCacheTrim => TrimSystemFileCache
  end.

Definition QuerySystemCacheBytes : M B (option Z) :=
  info <-- GetPerformanceInfo ;;
  mret ((λ i : Z * Z, u64 (i.1 * i.2)) <$> info).

Definition QueryStandbyBytes : M B (option Z) :=
  ntdll <-- GetModuleHandleW "ntdll.dll" ;;
  if negb ntdll then mret None
  else
    queryInformation <-- GetProcAddress "NtQuerySystemInformation" ;;
    if negb queryInformation then mret None
    else
      answer <-- NtQuerySystemInformation kSystemMemoryListInformation ;;
      let '(status, pageCountByPriority, returned) := answer in
      if negb (NtSuccess status) || negb (returned =? memory_list_size) then mret None
      else
        pageSize <-- GetSystemPageSize ;;
        mret (Some (u64 (foldl (λ pages count, u64 (pages + count)) 0 pageCountByPriority
                         * pageSize))).
End System.

(** ** Status of the physical memory *)

Record MemoryStatus := MkMemoryStatus {
  totalPhysicalBytes : Z;
  availablePhysicalBytes : Z;
  usedPhysicalBytes : Z;
  memoryLoadPercent : Z;
  sampledAt : Z
}.

Definition BuildMemoryStatus (total available load at_ : Z) : Result MemoryStatus :=
  if total =? 0 then
    Failure (Validation "BuildMemoryStatus.totalPhysicalBytes"
               "Total physical memory must be greater than zero")
  else if total <? available then
    Failure (Validation "BuildMemoryStatus.availablePhysicalBytes"
               "Available physical memory cannot exceed total physical memory")
  else if 100 <? load then
    Failure (Validation "BuildMemoryStatus.memoryLoadPercent"
               "Memory load percent must be in the range 0 to 100")
  else Success (MkMemoryStatus total available (u64 (total - available)) load at_).

(** [now] is the steady clock when the status is built. *)
Definition QueryMemoryStatus {B} `{SystemMessages} `{MemoryApi B} (now : B → Z) :
    M B (Result MemoryStatus) :=
  native <-- GlobalMemoryStatusEx ;;
  match native with
  | None => memory_failure "GlobalMemoryStatusEx"
  | Some (total, available, load) => λ b, (BuildMemoryStatus total available load (now b), b)
  end.

(** [whole.tenths], in 64-bit arithmetic. *)
Definition ScaleToTenths (bytes divisor : Z) : Z * Z :=
  let whole := bytes / divisor in
  let remainder := bytes mod divisor in
  let tenths := u64 (u64 (remainder * 10) + divisor / 2) / divisor in
  if tenths =? 10 then (u64 (whole + 1), 0) else (whole, u32 tenths).

Definition kKiB : Z := 1024.
Definition kMiB : Z := kKiB * 1024.
Definition kGiB : Z := kMiB * 1024.
Definition kTiB : Z := kGiB * 1024.

Definition kUnits : list (Z * string) :=
  [(kTiB, "TiB"); (kGiB, "GiB"); (kMiB, "MiB"); (kKiB, "KiB")].

Definition format_unit (bytes : Z) (u : Z * string) : string :=
  let value := ScaleToTenths bytes u.1 in
  to_string value.1 +:+ "." +:+ to_string value.2 +:+ " " +:+ u.2.

Fixpoint format_units (bytes : Z) (units : list (Z * string)) : string :=
  match units with
  | [] => to_string bytes +:+ " B"
  | u :: rest => if u.1 <=? bytes then format_unit bytes u else format_units bytes rest
  end.

Definition FormatBytes (bytes : Z) : string :=
  if bytes <? kKiB then to_string bytes +:+ " B" else format_units bytes kUnits.

(** Time points are far from the bounds of their 64-bit representation. *)
Definition IsSnapshotFresh (sampled now maxAge : Z) : bool := now - sampled <=? maxAge.

(** ** Plans *)

Lemma clean_value_range l : 0 <= clean_value l <= 3.
Proof. by destruct l. Qed.

Lemma level_steps_app (l m : CleanLevel) :
  clean_value l <= clean_value m →
  ∃ rest, level_steps (clean_value m) = level_steps (clean_value l) ++ rest.
Proof. destruct l, m; cbn; intros ?; try lia; by eexists. Qed.

(** A plan is allowed exactly when a level is asked for that is within the
    limit and the gates are open; its steps are those of the level, lightest
    first, whether or not the gates are open, and none when the level is above
    the limit; a lighter level within the limit has a prefix of them. *)
Lemma PlanMemoryClean_spec (requested limit : CleanLevel) (gates : bool) :
  let plan := PlanMemoryClean requested limit gates in
  (plan_allowed plan = true ↔
     requested ≠ CleanLevel.None ∧ clean_value requested <= clean_value limit ∧ gates = true) ∧
  (levelWithinLimit plan = true ↔ clean_value requested <= clean_value limit) ∧
  (plan_steps plan =
     if clean_value requested <=? clean_value limit
     then take (Z.to_nat (clean_value requested))
            [CleanKind.WorkingSetTrim; CleanKind.StandbyListPurge; CleanKind.SystemFileCacheTrim]
     else []) ∧
  (∀ lighter, clean_value lighter <= clean_value requested → levelWithinLimit plan = true →
     ∃ rest, plan_steps plan = plan_steps (PlanMemoryClean lighter limit gates) ++ rest).
Proof.
  cbn zeta. split; [|split; [|split]].
  - destruct requested, limit, gates; cbn; split; intros; try done; try lia;
      try (split; [done|split; [lia|done]]); destruct_and!; try done; lia.
  - destruct requested, limit, gates; cbn; split; intros; try done; lia.
  - by destruct requested, limit, gates.
  - intros lighter Hle Hin.
    destruct requested, limit, lighter; cbn in *; try lia; try done; by eexists.
Qed.

(** ** Execution *)

Section ExecutionSpec.
Context {B : Type} `{CleanBackend B}.

(** The steps run one after the other and all succeed. *)
Inductive ran : list CleanKind → B → B → Prop :=
  | ran_nil b : ran [] b b
  | ran_cons k l b b1 b2 :
      clean_execute k b = (Success tt, b1) → ran l b1 b2 → ran (k :: l) b b2.

Lemma clean_steps_spec steps r b rep b' :
  clean_steps steps r b = (rep, b') →
  ∃ done b1, ran done b b1 ∧
    ((steps = done ∧ b' = b1 ∧
      rep = MkCleanReport (executed r + len done) (succeeded r + len done) true
              (hasFailedStep r) (failedStep r) (failureDetail r)) ∨
     (∃ k rest e, steps = done ++ k :: rest ∧ clean_execute k b1 = (Failure e, b') ∧
        rep = MkCleanReport (executed r + len done + 1) (succeeded r + len done) (rep_ok r)
                true k (message e))).
Proof.
  revert r b. induction steps as [|k steps IH]; intros r b; cbn.
  - intros [= <- <-]. exists [], b. split; [constructor|]. left.
    cbn. by rewrite !Z.add_0_r.
  - unfold mthen, mret. destruct (clean_execute k b) as [[[]|e] b1] eqn:Hk; cbn.
    + intros E. apply IH in E as (dn & b2 & Hrun & Hcase). cbn in Hcase.
      exists (k :: dn), b2. split; [by econstructor|].
      destruct Hcase as [(-> & -> & ->)|(k' & rest & e & -> & He & ->)];
        [left|right; exists k', rest, e]; cbn; repeat split; try done;
        f_equal; lia.
    + intros [= <- <-]. exists [], b. split; [constructor|]. right.
      exists k, steps, e. cbn. by rewrite !Z.add_0_r.
Qed.

(** A plan without leave, or without steps, fails and the backend is not
    called. Otherwise the steps run in order until the first that fails: the
    report counts what was tried and what succeeded, is ok exactly when all
    steps did, and else names the failed step and its message. *)
Lemma ExecuteMemoryCleanPlan_spec plan b r b' :
  ExecuteMemoryCleanPlan plan b = (r, b') →
  match r with
  | Failure _ => (plan_allowed plan = false ∨ plan_steps plan = []) ∧ b' = b
  | Success report =>
      plan_allowed plan = true ∧ plan_steps plan ≠ [] ∧
      ∃ done b1, ran done b b1 ∧
        ((plan_steps plan = done ∧ b' = b1 ∧
          report = MkCleanReport (len done) (len done) true false CleanKind.WorkingSetTrim "") ∨
         (∃ k rest e, plan_steps plan = done ++ k :: rest ∧
            clean_execute k b1 = (Failure e, b') ∧
            report = MkCleanReport (len done + 1) (len done) false true k (message e)))
  end.
Proof.
  unfold ExecuteMemoryCleanPlan. destruct (plan_allowed plan) eqn:Ha; cbn [negb].
  - destruct (plan_steps plan) as [|k steps] eqn:Hs.
    + intros [= <- <-]. by split; [right|].
    + unfold mthen, mret. destruct (clean_steps (k :: steps) no_report b) as [rep b2] eqn:E.
      intros [= <- <-]. split; [done|]. split; [done|].
      by apply clean_steps_spec in E.
  - intros [= <- <-]. by split; [left|].
Qed.
End ExecutionSpec.

Lemma ready_fold `{BuildOptions} steps r :
  foldl ready_step r steps =
  MkReadiness (allImplemented r && forallb CleanStepImplemented steps) (hasStep r)
    (match firstUnimplemented r with
     | Some k => Some k
     | None => List.find (λ k, negb (CleanStepImplemented k)) steps
     end).
Proof.
  revert r. induction steps as [|k steps IH]; intros [a h f]; cbn.
  - rewrite andb_true_r. by destruct f.
  - rewrite IH. unfold ready_step.
    destruct (CleanStepImplemented k); cbn; [done|]. rewrite andb_false_r. by destruct f.
Qed.

(** A plan is ready exactly when every step has a backend in the build. *)
Lemma EvaluateCleanPlanReadiness_iff `{BuildOptions} plan :
  allImplemented (EvaluateCleanPlanReadiness plan) = true ↔
  Forall (λ k, CleanStepImplemented k = true) (plan_steps plan).
Proof.
  unfold EvaluateCleanPlanReadiness. rewrite ready_fold. cbn.
  rewrite forallb_forall, Forall_forall. split; intros Hk k Hin; apply Hk.
  - by apply list_elem_of_In.
  - by apply list_elem_of_In.
Qed.

(** ** Formatting of sizes *)

Lemma ScaleToTenths_nearest bytes d :
  0 <= bytes < 2 ^ 64 → 1024 <= d <= kTiB →
  let '(whole, tenths) := ScaleToTenths bytes d in
  0 <= tenths <= 9 ∧ 2 * Z.abs (10 * bytes - (10 * whole + tenths) * d) <= d.
Proof.
  intros Hb Hd. unfold ScaleToTenths.
  change kTiB with 1099511627776 in Hd. change (2 ^ 64) with 18446744073709551616 in *.
  pose proof (Z.div_mod bytes d ltac:(lia)) as Hdm.
  pose proof (Z.mod_pos_bound bytes d ltac:(lia)) as Hm.
  set (q := bytes / d) in *. set (r := bytes mod d) in *.
  assert (0 <= q) by (apply Z.div_pos; lia).
  assert (q <= 18014398509481984) by (apply Z.div_le_upper_bound; lia).
  set (h := d / 2). assert (Hh : 2 * h <= d < 2 * h + 2).
  { pose proof (Z.div_mod d 2 ltac:(lia)). pose proof (Z.mod_pos_bound d 2 ltac:(lia)). lia. }
  rewrite (u64_small (r * 10)) by (unfold is_u64; lia).
  rewrite (u64_small (r * 10 + h)), (u64_small (q + 1)) by (unfold is_u64; lia).
  pose proof (Z.div_mod (r * 10 + h) d ltac:(lia)) as Ht.
  pose proof (Z.mod_pos_bound (r * 10 + h) d ltac:(lia)) as Htm.
  set (t := (r * 10 + h) / d) in *.
  assert (0 <= t) by (apply Z.div_pos; lia).
  assert (t <= 10) by (apply Z.lt_succ_r, Z.div_lt_upper_bound; lia).
  destruct (t =? 10) eqn:E.
  - apply Z.eqb_eq in E. rewrite E in *. split; [lia|]. nia.
  - apply Z.eqb_neq in E. rewrite u32_small by (unfold is_u32; lia). split; [lia|]. nia.
Qed.

(** In a list of falling units the one used is the largest not above. *)
Lemma format_units_largest bytes units :
  StronglySorted (λ u v, v.1 <= u.1) units → (∃ u, u ∈ units ∧ u.1 <= bytes) →
  ∃ u, u ∈ units ∧ u.1 <= bytes ∧ (∀ v, v ∈ units → v.1 <= bytes → v.1 <= u.1) ∧
    format_units bytes units = format_unit bytes u.
Proof.
  induction 1 as [|u units _ IH Hu]; intros (v & Hin & Hv); [by apply elem_of_nil in Hin|].
  cbn. rewrite Forall_forall in Hu. destruct (Z.leb_spec u.1 bytes) as [Hle|Hle].
  - exists u. split; [by left|]. split; [done|]. split; [|done].
    intros w Hw _. apply elem_of_cons in Hw as [->|Hw]; [lia|by apply Hu].
  - apply elem_of_cons in Hin as [->|Hin]; [lia|].
    destruct IH as (w & Hw & Hwb & Hmax & ->); [by exists v|].
    exists w. split; [by right|]. split; [done|]. split; [|done].
    intros x Hx Hxb. apply elem_of_cons in Hx as [->|Hx]; [lia|by apply Hmax].
Qed.

Lemma kUnits_sorted : StronglySorted (λ u v : Z * string, v.1 <= u.1) kUnits.
Proof. repeat constructor; cbn; discriminate. Qed.

Lemma kUnits_range u : u ∈ kUnits → 1024 <= u.1 <= kTiB.
Proof.
  revert u. apply Forall_forall. repeat constructor; cbn; discriminate.
Qed.

(** A size below 1 KiB is shown exactly; any other 64-bit size in the
    largest unit not above it, with one decimal, off by at most half a tenth
    of that unit (the unit is chosen before rounding). *)
Lemma FormatBytes_nearest bytes :
  0 <= bytes < 2 ^ 64 →
  (bytes < kKiB ∧ FormatBytes bytes = to_string bytes +:+ " B") ∨
  (∃ d label whole tenths,
     (d, label) ∈ kUnits ∧ d <= bytes ∧
     (∀ d' label', (d', label') ∈ kUnits → d' <= bytes → d' <= d) ∧
     FormatBytes bytes = to_string whole +:+ "." +:+ to_string tenths +:+ " " +:+ label ∧
     0 <= tenths <= 9 ∧ 2 * Z.abs (10 * bytes - (10 * whole + tenths) * d) <= d).
Proof.
  intros Hb. unfold FormatBytes. destruct (Z.ltb_spec bytes kKiB) as [Hk|Hk]; [by left|right].
  destruct (format_units_largest bytes kUnits kUnits_sorted) as ([d label] & Hin & Hd & Hmax & ->).
  { exists (kKiB, "KiB"). split; [|done]. do 3 right. by left. }
  pose proof (ScaleToTenths_nearest bytes d Hb (kUnits_range _ Hin)) as Hs.
  unfold format_unit. cbn [fst snd] in *. destruct (ScaleToTenths bytes d) as [w t].
  exists d, label, w, t. split; [done|]. split; [done|]. split; [|tauto].
  intros d' label' Hin' Hd'. exact (Hmax (d', label') Hin' Hd').
Qed.

Lemma FormatBytes_nearest_witness :
  0 <= 1048575 < 2 ^ 64 ∧ FormatBytes 1048575 = "1024.0 KiB" ∧
  ((1048575 < kKiB ∧ FormatBytes 1048575 = to_string 1048575 +:+ " B") ∨
   (∃ d label whole tenths,
     (d, label) ∈ kUnits ∧ d <= 1048575 ∧
     (∀ d' label', (d', label') ∈ kUnits → d' <= 1048575 → d' <= d) ∧
     FormatBytes 1048575 = to_string whole +:+ "." +:+ to_string tenths +:+ " " +:+ label ∧
     0 <= tenths <= 9 ∧ 2 * Z.abs (10 * 1048575 - (10 * whole + tenths) * d) <= d)).
Proof. split; [lia|]. split; [reflexivity|]. apply (FormatBytes_nearest 1048575). lia. Defined.

(** ** Differences *)

(** Between readings below 2^63 the difference is exact, and it is given only
    when both readings are. *)
Lemma DeltaBytes_exact before after :
  0 <= before < 2 ^ 63 → 0 <= after < 2 ^ 63 →
  DeltaBytes (MkDelta (Some before) (Some after)) = Some (after - before).
Proof.
  intros Hb Ha. unfold DeltaBytes, i64. cbn.
  rewrite !Z.mod_small by lia.
  by rewrite (proj2 (Z.ltb_lt after (2 ^ 63))), (proj2 (Z.ltb_lt before (2 ^ 63))) by lia.
Qed.

(** ** An example system *)

Section Example.
Local Instance counting_backend : CleanBackend Z := λ k n,
  match k with
  | CleanKind.SystemFileCacheTrim => (Failure (Unsupported "" "no"), n)
  | _ => (Success tt, n + 1)
  end.

Lemma ExecuteMemoryCleanPlan_spec_witness :
  let plan := PlanMemoryClean CleanLevel.Deep CleanLevel.Deep true in
  let report := MkCleanReport 3 2 false true CleanKind.SystemFileCacheTrim "no" in
  ExecuteMemoryCleanPlan plan 0 = (Success report, 2) ∧
  plan_allowed plan = true ∧ plan_steps plan ≠ [] ∧
  ∃ done b1, ran done 0 b1 ∧
    ((plan_steps plan = done ∧ 2 = b1 ∧
      report = MkCleanReport (len done) (len done) true false CleanKind.WorkingSetTrim "") ∨
     (∃ k rest e, plan_steps plan = done ++ k :: rest ∧
        clean_execute k b1 = (Failure e, 2) ∧
        report = MkCleanReport (len done + 1) (len done) false true k (message e))).
Proof. split; [reflexivity|]. exact (ExecuteMemoryCleanPlan_spec (PlanMemoryClean CleanLevel.Deep CleanLevel.Deep true) 0 (Success (MkCleanReport 3 2 false true CleanKind.SystemFileCacheTrim "no")) 2 eq_refl). Defined.
End Example.
