(* ===== verification/Actions.v ===== *)
(** What the commands of [source/main.cpp] share: numbers in arguments, the
    files of the user's data directory, the journal and audit around an
    action, and the facts the environment gate looks at. A command is a
    function of the world; what it prints is not modelled, apart from the
    answer whether an entry was recorded. *)

From S2P Require Import Prelude CommonError Containers Paths AuditLine AuditLog.
From S2P Require Import SafetyGates Platform UserActivity.

Open Scope string_scope.
Open Scope list_scope.
Open Scope Z_scope.

(** ** Numbers in arguments *)

(** [iswspace], and the digits [wcstoul] knows beside those of ASCII. *)
Class WideCtype := { iswspace : Z → bool; wide_digit : Z → option Z }.

Class WideCtypeLaws `{WideCtype} := {
  wide_digit_range : ∀ c d, wide_digit c = Some d → 0 <= d <= 9;
  wide_digit_ascii : ∀ c, 48 <= c <= 57 → wide_digit c = Some (c - 48);
  wide_digit_sign : wide_digit 43 = None ∧ wide_digit 45 = None;
  iswspace_digit : ∀ c d, wide_digit c = Some d → iswspace c = false;
  iswspace_sign : iswspace 43 = false ∧ iswspace 45 = false
}.

(** [c_str()]: up to the first zero. *)
Fixpoint c_str (text : wstring) : wstring :=
  match text with [] => [] | c :: r => if c =? 0 then [] else c :: c_str r end.

Section Numbers.
Context `{WideCtype}.

Fixpoint skip_spaces (s : wstring) : wstring :=
  match s with c :: r => if iswspace c then skip_spaces r else s | [] => [] end.

(** The digits read, as a number, and how many there are. *)
Fixpoint wide_digits (value count : Z) (s : wstring) : Z * Z * wstring :=
  match s with
  | c :: r =>
      match wide_digit c with
      | Some d => wide_digits (value * 10 + d) (count + 1) r
      | None => (value, count, s)
      end
  | [] => (value, count, [])
  end.

(** [wcstoul(text, &end, 10)] with a 32-bit [unsigned long]: the value, and the
    rest when something was read; a value above the range is the largest one, a
    minus sign negates modulo 2^32. *)
Definition wcstoul (text : wstring) : Z * option wstring :=
  let s := skip_spaces text in
  let '(minus, s) := match s with
                     | 43 :: r => (false, r)
                     | 45 :: r => (true, r)
                     | _ => (false, s)
                     end in
  let '(value, count, rest) := wide_digits 0 0 s in
  if count =? 0 then (0, None)
  else if UINT32_MAX <? value then (UINT32_MAX, Some rest)
  else (if minus : bool then u32 (- value) else value, Some rest).

Definition ParseUint32 (text : wstring) : option Z :=
  let '(value, rest) := wcstoul (c_str text) in
  match rest with
  | Some [] => if UINT32_MAX <? value then None else Some value
  | _ => None
  end.
End Numbers.

(** ** The data directory *)

(** [GetEnvironmentVariableW] gives the length it needs or wrote and the text. *)
Class Folders (W : Type) := {
  GetEnvironmentVariableW : string → W → Z * string;
  temp_directory_path : W → string
}.

Class UnixTime (W : Type) := unix_time : W → Z.

Definition MAX_PATH : Z := 260.

Section DataDirectory.
Context {W : Type} `{Folders W}.

Definition DefaultHostConfigPath (w : W) : string :=
  let '(length, buffer) := GetEnvironmentVariableW "LOCALAPPDATA" w in
  let root := if (0 <? length) && (length <? MAX_PATH) then buffer
              else temp_directory_path w in
  path_append (path_append root "CppOptimizer") "config.local.toml".

Definition data_file (name : string) (w : W) : string :=
  path_append (parent_path (DefaultHostConfigPath w)) name.

Definition DefaultCooldownLedgerPath : W → string := data_file "gate-cooldowns.txt".
Definition DefaultJournalPath : W → string := data_file "action-journal.log".
Definition DefaultPowerSchemeSavePath : W → string := data_file "power-scheme-save.txt".
Definition DefaultAuditLogPath : W → string := data_file "audit.log".
Definition DefaultPresenceTimelinePath : W → string := data_file "presence-timeline.log".
End DataDirectory.

(** ** The record of an action *)

(** The state of the three forms of the agent, for the journal. *)
Class AgentFormState (W : Type) := DescribeAgentFormsSnapshot : M W string.

Section Records.
Context {W : Type} `{SystemMessages} `{FileSystem W} `{Clock W} `{Folders W}.

(** Whether the entry was recorded; if not, a line is printed. *)
Definition JournalAction (operationId target : string) (ok : bool) (phase : JournalPhase)
    (detail : string) : M W bool := λ w,
  (appended <-- AppendJournalLine (DefaultJournalPath w) phase operationId ok target detail ;;
   mret (HasValue appended)) w.

Definition AppendAudit (operationId : string) (risk : RiskLevel) (target : string) (ok : bool)
    (detail : string) : M W bool := λ w,
  (appended <-- AppendAuditLine (DefaultAuditLogPath w)
                  (MkAuditRecord operationId risk "cli" target detail ok 0) ;;
   mret (HasValue appended)) w.

Definition AuditAction `{AgentFormState W} (operationId : string) (risk : RiskLevel)
    (target : string) (ok : bool) (detail postState : string) : M W bool :=
  recorded <-- AppendAudit operationId risk target ok detail ;;
  JournalAction operationId target ok JournalPhase.After detail ;;;
  state <-- (if string_empty postState then DescribeAgentFormsSnapshot
             else mret postState) ;;
  JournalAction operationId target true JournalPhase.State state ;;;
  mret recorded.
End Records.

(** ** Gates *)

Definition FirstBlockingGateName (g : GateEvaluation) : string :=
  match firstBlocking g with Some gate => GateIdToString gate | None => "unknown" end.

Section Gates.
Context {W : Type} `{SystemMessages} `{Modules W} `{PlatformApi W} `{SessionProbe W}.

Definition GatherEnvironmentFacts : M W EnvironmentFacts :=
  version <-- QueryOsVersion ;;
  os <-- match version with
         | Failure _ => mret (false, false)
         | Success v =>
             x64 <-- IsNativeX64 ;;
             mret (true, bool_decide (ClassifyOsSupport v x64 = OsSupport.Supported))
         end ;;
  battery <-- QueryOnBatteryPower ;;
  session <-- QuerySession ;;
  let '(batteryKnown, onBattery) :=
    match battery with Success b => (true, b) | Failure _ => (false, false) end in
  let '(sessionKnown, remote, locked) :=
    match session with
    | Success c => (true, remoteSession c, UserActivity.locked c)
    | Failure _ => (false, false, false)
    end in
  mret (MkEnvironment (os.1 && batteryKnown && sessionKnown) os.2 onBattery remote locked
          sessionKnown).

(** A dangerous action's gates; [allows] is the configuration's say. *)
Record GateContext := MkGateContext {
  environment : EnvironmentFacts;
  inputs : GateInputs;
  evaluation : GateEvaluation;
  auditWritable : bool
}.
End Gates.

Section GatherGates.
Context {W : Type} `{SystemMessages} `{FileSystem W} `{Modules W} `{PlatformApi W}.
Context `{SessionProbe W} `{Folders W} `{UnixTime W}.

(** [configEnabled], [compiledIn], [capabilityId] and the two acknowledgements
    are those of the capability; the clock is read after the environment. *)
Definition GatherMemoryCleanGates (acknowledged configEnabled compiledIn : bool)
    (capabilityId : string) (requireIsolatedEnvironment isolatedAcknowledged : bool) :
    M W GateContext :=
  facts <-- GatherEnvironmentFacts ;;
  probed <-- (λ w, ProbeAuditWritable (DefaultAuditLogPath w) w) ;;
  λ w,
    let ledger := ReadCooldownLedger (DefaultCooldownLedgerPath w) w in
    let i := MkGateInputs compiledIn configEnabled
               (acknowledged && (negb requireIsolatedEnvironment || isolatedAcknowledged))
               (EvaluateEnvironmentGate facts) (HasValue probed)
               (match ledger with
                | Success l => EvaluateCooldownGate l capabilityId (unix_time w) kDefaultCooldown
                | Failure _ => false
                end) in
    (MkGateContext facts i (EvaluateGates i) (HasValue probed), w).
End GatherGates.

(** ** What an open gate says *)

Lemma EvaluateGates_allowed i :
  allowed (EvaluateGates i) =
  gate_compileTime i && gate_config i && gate_commandLine i && gate_permissionAndEnvironment i &&
  gate_audit i && gate_cooldown i.
Proof. by destruct i as [[] [] [] [] [] []]. Qed.

Section OpenGates.
Context {W : Type} `{SystemMessages} `{FileSystem W} `{Modules W} `{PlatformApi W}.
Context `{SessionProbe W} `{Folders W} `{UnixTime W}.

(** The environment, the audit trail and the ledger, as they are found when the
    gates are gathered in this world, leave the capability open; and the world that
    gathering them leaves. *)
Definition world_allows (capabilityId : string) (w : W) : Prop :=
  ∃ facts w1 probe w2 ledger,
    GatherEnvironmentFacts w = (facts, w1) ∧ EvaluateEnvironmentGate facts = true ∧
    ProbeAuditWritable (DefaultAuditLogPath w1) w1 = (Success probe, w2) ∧
    ReadCooldownLedger (DefaultCooldownLedgerPath w2) w2 = Success ledger ∧
    EvaluateCooldownGate ledger capabilityId (unix_time w2) kDefaultCooldown = true.

Definition looked_at (w : W) : W :=
  let '(_, w1) := GatherEnvironmentFacts w in (ProbeAuditWritable (DefaultAuditLogPath w1) w1).2.

(** One after the other. *)
Fixpoint worlds_allow (capabilities : list string) (w : W) : Prop :=
  match capabilities with
  | [] => True
  | id :: rest => world_allows id w ∧ worlds_allow rest (looked_at w)
  end.

Lemma gates_open ack conf compiled id isolated isoAck w ctx w' :
  GatherMemoryCleanGates ack conf compiled id isolated isoAck w = (ctx, w') →
  allowed (evaluation ctx) = true →
  compiled = true ∧ conf = true ∧ ack = true ∧ (isolated = true → isoAck = true) ∧
  world_allows id w.
Proof.
  unfold GatherMemoryCleanGates, mthen.
  destruct (GatherEnvironmentFacts w) as [facts w1] eqn:Ef.
  destruct (ProbeAuditWritable (DefaultAuditLogPath w1) w1) as [probe w2] eqn:Ep.
  intros [= <- <-]. cbn [evaluation]. rewrite EvaluateGates_allowed. cbn.
  rewrite !andb_true_iff, orb_true_iff, negb_true_iff. intros H'. destruct_and! H'.
  destruct probe as [u|]; [|done].
  destruct (ReadCooldownLedger _ w2) as [l|] eqn:El; [|done].
  repeat split; try done; [intros ->; naive_solver|].
  by exists facts, w1, u, w2, l.
Qed.

Lemma gates_looked_at ack conf compiled id isolated isoAck w :
  (GatherMemoryCleanGates ack conf compiled id isolated isoAck w).2 = looked_at w.
Proof.
  unfold GatherMemoryCleanGates, looked_at, mthen. destruct (GatherEnvironmentFacts w) as [facts w1].
  by destruct (ProbeAuditWritable (DefaultAuditLogPath w1) w1).
Qed.
End OpenGates.

(** ** Numbers are in range *)

Lemma wide_digits_ge `{WideCtypeLaws} value count s v c r :
  0 <= value → wide_digits value count s = (v, c, r) → 0 <= v.
Proof.
  induction s as [|d s IH] in value, count |- *; cbn [wide_digits]; [by intros ? [= <- _ _]|].
  intros Hv. destruct (wide_digit d) as [k|] eqn:Ed; [|by intros [= <- _ _]].
  apply wide_digit_range in Ed. apply IH. lia.
Qed.

Lemma wide_ParseUint32_range `{WideCtypeLaws} text n : ParseUint32 text = Some n → is_u32 n.
Proof.
  unfold ParseUint32, wcstoul. destruct (match skip_spaces _ with [] => _ | _ => _ end) as [minus s].
  destruct (wide_digits 0 0 s) as [[v c] r] eqn:E. apply wide_digits_ge in E; [|done].
  destruct (c =? 0); [done|]. unfold is_u32, UINT32_MAX.
  destruct (Z.ltb_spec (2 ^ 32 - 1) v).
  - destruct r; [|done]. destruct (_ <? _); [done|]. intros [= <-]. lia.
  - destruct r; [|done]. destruct (_ <? _); [done|]. intros [= <-].
    destruct minus; [apply u32_range|lia].
Qed.

(** ** Distinct files *)

Lemma path_append_inj dir a b : path_append dir a = path_append dir b → a = b.
Proof.
  unfold path_append. repeat case_match; intros E; apply string_app_inj_l in E; congruence.
Qed.

Lemma data_file_ne {W} `{Folders W} a b (w : W) : a ≠ b → data_file a w ≠ data_file b w.
Proof. intros Hne E. by apply path_append_inj in E. Qed.

(** The probe leaves the other files alone. *)
Lemma ProbeAuditWritable_other {W} `{SystemMessages} `{FileSystemLaws W} path q :
  q ≠ path → preserves (file q) (ProbeAuditWritable (W := W) path).
Proof.
  intros Hq. unfold ProbeAuditWritable. destruct (string_empty path); [frame|].
  intros w. destruct (with_parent path _ _ w) as [r w'] eqn:E.
  apply with_parent_spec in E as [(w1 & Hw1 & E)|[Hw _]]; [|apply Hw].
  unfold mthen in E. pose proof (append_text_other path "" w1 q Hq) as Ha.
  destruct (append_text path "" w1) as [o w2]. cbn in Ha. cbn [snd].
  destruct o; injection E as _ <-; by rewrite Ha, Hw1.
Qed.

(** ** A recorded run keeps the gate closed *)

Section Closed.
Context {W : Type} `{SystemMessages} `{FileSystemLaws W}.

(** The ledger at [path] keeps [id] closed before [until]. *)
Definition closed_until (path id : string) (until : Z) (w : W) : Prop :=
  ∃ text, file path w = Some text ∧
    ∀ t, EvaluateCooldownGate (parse_ledger text) id t kDefaultCooldown = true → until <= t.

Lemma closed_until_read path id until w l t :
  closed_until path id until w → ReadCooldownLedger path w = Success l → t < until →
  EvaluateCooldownGate l id t kDefaultCooldown = false.
Proof.
  intros (text & Hf & Hc) Hr Ht. rewrite (ReadCooldownLedger_file _ _ _ _ Hr Hf).
  destruct (EvaluateCooldownGate _ _ _ _) eqn:E; [|done]. apply Hc in E. lia.
Qed.

Lemma RecordCooldownRun_closed path id now from w w' :
  plain_id id = true → is_i64 now → 0 < from <= now →
  RecordCooldownRun path id now w = (Success tt, w') →
  closed_until path id (from + kDefaultCooldown) w' ∧
  ∀ id', closed_until path id' (from + kDefaultCooldown) w →
         closed_until path id' (from + kDefaultCooldown) w'.
Proof.
  intros Hid Hnow Hpos Hrec. unfold RecordCooldownRun in Hrec.
  destruct (string_empty path); [done|]. destruct (string_empty id) eqn:He; [done|].
  destruct (ReadCooldownLedger path w) as [l0|] eqn:Hr; [|done].
  pose proof (ReadCooldownLedger_ok _ _ _ Hr) as Hok0.
  pose proof (WithCooldownRun_ok l0 id now Hok0 Hid Hnow) as Hok1.
  apply WriteCooldownLedger_Success in Hrec.
  assert (Hself : ∀ t, EvaluateCooldownGate (WithCooldownRun l0 id now) id t kDefaultCooldown
                       = true → from + kDefaultCooldown <= t).
  { intros t Ht. apply WithCooldownRun_closes in Ht; [|intros ->; done|lia].
    unfold kDefaultCooldown in *. lia. }
  split; [|intros id' (text & Hf & Hc)]; exists (format_ledger (WithCooldownRun l0 id now));
    (split; [done|]); intros t; rewrite parse_format_ledger by done; [apply Hself|].
  destruct (decide (id' = id)) as [->|Hne]; [apply Hself|].
  rewrite WithCooldownRun_other by done. intros Ht. apply Hc.
  by rewrite <- (ReadCooldownLedger_file _ _ _ _ Hr Hf).
Qed.
End Closed.

(** ** Plain text *)

(** Spaces and the digits of ASCII alone, for examples. *)
Definition plain_ctype : WideCtype := {|
  iswspace c := c =? 32;
  wide_digit c := if (48 <=? c) && (c <=? 57) then Some (c - 48) else None
|}.

Lemma plain_ctype_laws : @WideCtypeLaws plain_ctype.
Proof.
  split; cbn.
  - intros c d. destruct (_ && _) eqn:E; [|done]. intros [= <-]. b2p. lia.
  - intros c Hc. rewrite (proj2 (Z.leb_le _ _)), (proj2 (Z.leb_le _ _)) by lia. done.
  - done.
  - intros c d. destruct (_ && _) eqn:E; [|done]. intros _. b2p. lia.
  - done.
Qed.
