(* ===== verification/ProcessCommands.v ===== *)
(** The commands of [source/main.cpp] on processes: [--list-processes]
    ([RunListProcesses]), [--watch] ([RunWatchCommand]) and [--add-game]
    ([RunAddGameCommand]), which turns a process into a rule of the local
    configuration. *)

From stdpp Require Import sorting.
From S2P Require Import Prelude CommonError Containers Paths Crash ConfigTypes Config ConfigRules.
From S2P Require Import ProcessWatcher WatchThread ProcessQueries Actions.

Open Scope string_scope.
Open Scope list_scope.
Open Scope Z_scope.

(** ** Listing *)

Definition by_pid (a b : ProcessDetails) : Prop := det_pid a <= det_pid b.

#[export] Instance by_pid_dec : RelDecision by_pid.
Proof. intros a b. unfold by_pid. apply _. Defined.

(** [std::sort] by pid; the order of equal pids is not fixed there. *)
Definition sorted_by_pid (l : list ProcessDetails) : list ProcessDetails := merge_sort by_pid l.

(** [--all] and the first other argument that is not empty. *)
Fixpoint list_arguments (args : list wstring) (windowOnly : bool) (filter : wstring)
  : bool * wstring :=
  match args with
  | [] => (windowOnly, filter)
  | arg :: args' =>
      if bool_decide (arg = widen "--all") then list_arguments args' false filter
      else list_arguments args' windowOnly (if len filter =? 0 then arg else filter)
  end.

(** The exit code and the processes shown; [args] come after the command. *)
Definition RunListProcesses {B} `{SystemMessages} `{ProcessApi B} (args : list wstring)
  : M B (Z * list ProcessDetails) :=
  let '(windowOnly, filter) := list_arguments args true [] in
  result <-- EnumerateProcessDetails windowOnly ;;
  mret (match result with
        | Failure _ => (2, [])
        | Success l =>
            (0, sorted_by_pid (List.filter (λ d, ProcessMatchesFilter d filter) l))
        end).

(** ** Watching *)

Definition kMaxWatchSeconds : Z := 60.

Definition watch_seconds `{WideCtype} (text : wstring) : option Z :=
  match ParseUint32 text with
  | Some s => if (s =? 0) || (kMaxWatchSeconds <? s) then None else Some s
  | None => None
  end.

(** A named configuration must load, with the local one beside it. Without one,
    a local configuration that does not load counts as none. *)
Definition watch_games {W Node} `{Toml Node} `{TomlFiles W Node} `{FileSystem W}
    (configPath : option string) (w : W) : option (list GameConfig) :=
  match configPath with
  | Some main =>
      match LoadConfigWithLocal main (path_append (parent_path main) "config.local.toml") w with
      | Failure _ => None
      | Success s => Some (games s)
      end
  | None =>
      if (exists_file "config.local.toml" w).1 then
        match LoadConfig "config.local.toml" w with
        | Failure _ => Some []
        | Success s => Some (games s)
        end
      else Some []
  end.

(** The line a callback writes for an event. *)
Definition transition_line (t : ProcessTransition) : wstring :=
  let i := info t in
  widen "  [" ++ widen (ProcessStateToString (previous t)) ++ widen " -> " ++
  widen (ProcessStateToString (current t)) ++ widen "] " ++ widen (tr_gameId t) ++
  match current t with
  | ProcessState.Starting | ProcessState.Running =>
      widen " pid=" ++ widen (to_string (pid i)) ++ widen " " ++ processName i ++
      (if isForeground i then widen " foreground" else [])
  | _ => []
  end.

Class ConsoleOutput (S : Type) := WriteConsoleLine : wstring → M S unit.

Section Watch.
Context {S Node : Type} `{!ProcessSystem S} `{!CodePages} `{!SystemMessages} `{!WideCtype}.
Context `{!ConsoleOutput S} `{Toml Node} `{TomlFiles S Node} `{FileSystem S}.

Definition print_transition : ProcessEventCallback (S := S) := λ t,
  WriteConsoleLine (transition_line t).

(** What happens while the command sleeps, or waits for the join: steps of the
    polling thread and of the rest of the system. *)
Definition background (a : Action S) : bool :=
  match a with AWorker | ASystem _ => true | _ => false end.

(** How the command ends. *)
Inductive WatchEnd :=
  | Refused                                   (* exit code 2 *)
  | Watched (tracked : list ProcessInfo) (x : Watch S). (* 0, and what it prints *)

(** [thread]: whether the system can create the thread; [sleeping] and
    [stopping] happen meanwhile. [None]: they cannot happen in this way. *)
Definition RunWatchCommand (thread : bool) (sleeping stopping : list (Action S))
    (secondsText : wstring) (configPath : option string) (s : S) : option WatchEnd :=
  match watch_seconds secondsText with
  | None => Some Refused
  | Some _ =>
      match watch_games configPath s with
      | None => Some Refused
      | Some games =>
          match SetWatchRules games (NewWatch true s) with
          | (Failure _, _) => Some Refused
          | (Success _, x) =>
              match Start thread (Subscribe (Some print_transition) x) with
              | (Failure _, _) => Some Refused
              | (Success _, x) =>
                  x1 ← acts sleeping x;
                  x2 ← act AStop x1;
                  x3 ← acts stopping x2;
                  x4 ← act AJoin x3;
                  Some (Watched (GetTrackedProcesses x4) x4)
              end
          end
      end
  end.
End Watch.

(** ** Adding a game *)

Class ConsoleInput (B : Type) := ReadConsoleLine : M B wstring.

Definition LocalConfigPath (mainPath : string) : string :=
  if string_empty mainPath then "config.local.toml"
  else path_append (parent_path mainPath) "config.local.toml".

Record AddGameArguments := MkAddGame {
  ag_pid : Z;
  ag_main : wstring;
  ag_dryRun : bool
}.

(** A number sets the pid, also when it is 0 and the argument then counts as the
    path. [None]: one argument too many. *)
Fixpoint add_game_arguments `{WideCtype} (args : list wstring) (a : AddGameArguments)
  : option AddGameArguments :=
  match args with
  | [] => Some a
  | arg :: args' =>
      if bool_decide (arg = widen "--dry-run") then
        add_game_arguments args' (MkAddGame (ag_pid a) (ag_main a) true)
      else
        let p := default (ag_pid a) (ParseUint32 arg) in
        if match ParseUint32 arg with Some n => 0 <? n | None => false end then
          add_game_arguments args' (MkAddGame p (ag_main a) (ag_dryRun a))
        else if len (ag_main a) =? 0 then
          add_game_arguments args' (MkAddGame p arg (ag_dryRun a))
        else None
  end.

Definition LoadExistingGameRules {W Node} `{Toml Node} `{TomlFiles W Node} `{FileSystem W}
    (mainPath localPath : string) (w : W) : Result (list GameConfig) :=
  if negb (string_empty mainPath) then
    match LoadConfigWithLocal mainPath localPath w with
    | Failure e => Failure e
    | Success s => Success (games s)
    end
  else if (exists_file localPath w).1 then
    match LoadConfig localPath w with
    | Failure e => Failure e
    | Success s => Success (games s)
    end
  else Success [].

(** [q], [Q], or nothing. *)
Definition quits (input : wstring) : bool :=
  match input with [] => true | [c] => (c =? 113) || (c =? 81) | _ => false end.

(** [y] or [Y]. *)
Definition agrees (input : wstring) : bool :=
  match input with [c] => (c =? 121) || (c =? 89) | _ => false end.

Section AddGame.
Context {B Node : Type} `{SystemMessages} `{!CodePages} `{!WideCtype} `{ProcessApi B}.
Context `{!ConsoleInput B} `{FileSystem B} `{!FileSizes B} `{Toml Node} `{TomlFiles B Node}.

(** The numbered menu: [None] when [fuel] lines were read without an answer. *)
Fixpoint choose (fuel : nat) (l : list ProcessDetails) : M B (option (option ProcessDetails)) :=
  match fuel with
  | O => mret None
  | S fuel' =>
      input <-- ReadConsoleLine ;;
      if quits input then mret (Some None)
      else
        match ParseUint32 input with
        | None => choose fuel' l
        | Some index =>
            if (index =? 0) || (len l <? index) then choose fuel' l
            else mret (Some (l !! Z.to_nat (index - 1)))
        end
  end.

(** What the process is, or the exit code to leave with. *)
Definition select_process (fuel : nat) (pid : Z) : M B (option (ProcessDetails + Z)) :=
  if pid =? 0 then
    result <-- EnumerateProcessDetails true ;;
    match result with
    | Failure _ => mret (Some (inr 2))
    | Success l =>
        let l := sorted_by_pid l in
        if len l =? 0 then mret (Some (inr 0))
        else
          choice <-- choose fuel l ;;
          mret (match choice with
                | None => None
                | Some None => Some (inr 0)
                | Some (Some d) => Some (inl d)
                end)
    end
  else
    query <-- QueryProcessDetails pid ;;
    mret (Some (match query with Success d => inl d | Failure _ => inr 2 end)).

(** Asked for only when the process came from the menu. *)
Definition confirmed (pid : Z) : M B bool :=
  if pid =? 0 then answer <-- ReadConsoleLine ;; mret (agrees answer) else mret true.

(** From the rule on: preview, consent, and the write. *)
Definition write_rule (a : AddGameArguments) (localPath : string) (rule : GameConfig) : M B Z :=
  if ag_dryRun a then mret 0
  else
    yes <-- confirmed (ag_pid a) ;;
    if negb yes then mret 0
    else
      written <-- AppendGameRules localPath [rule] ;;
      mret (if HasValue written then 0 else 2).

(** The exit code; [None] while the menu is still asking. *)
Definition RunAddGameCommand (path_of : wstring → string) (fuel : nat) (args : list wstring)
  : M B (option Z) :=
  match add_game_arguments args (MkAddGame 0 [] false) with
  | None => mret (Some 2)
  | Some a =>
      selected <-- select_process fuel (ag_pid a) ;;
      match selected with
      | None => mret None
      | Some (inr code) => mret (Some code)
      | Some (inl d) => λ b,
          let mainPath := if len (ag_main a) =? 0 then "" else path_of (ag_main a) in
          let localPath := LocalConfigPath mainPath in
          match LoadExistingGameRules mainPath localPath b with
          | Failure _ => (Some 2, b)
          | Success existing =>
              match BuildGameRuleFromProcess (length existing) d existing [] with
              | None => (None, b)
              | Some (Failure _) => (Some 2, b)
              | Some (Success rule) =>
                  let '(code, b') := write_rule a localPath rule b in (Some code, b')
              end
          end
      end
  end.
End AddGame.

(** ** Facts *)

Lemma BuildGameRule_fresh `{!CodePages} `{!SystemMessages} d existing hint rule :
  len existing < 2 ^ 31 - 4 →
  BuildGameRuleFromProcess (length existing) d existing hint = Some (Success rule) →
  ∀ game, game ∈ existing → lower_ascii (cfg_id game) ≠ lower_ascii (cfg_id rule).
Proof.
  intros Hl. unfold BuildGameRuleFromProcess. destruct (_ =? 0); [done|].
  destruct (DeriveGameId _) as [baseId|]; [|done]. destruct (string_empty baseId); [done|].
  destruct (MakeUniqueGameId_fresh baseId existing Hl) as (id & -> & Hfresh & _).
  destruct (WideToUtf8 _); [|done]. by intros [= <-].
Qed.

(** Queries and reading the console change no file. *)
Class AddGameLaws (B : Type) `{ProcessApi B, FileSystemLaws B, !ConsoleInput B} := {
  queries_files q :: QuietQueries (file q);
  console_files q : preserves (file q) ReadConsoleLine
}.

(** A system beside the lines read from its console, in their order. *)
Definition Heard (B : Type) : Type := B * list wstring.

Definition lines {B} (b : Heard B) : list wstring := b.2.

Section Hearing.
Context {B : Type}.

#[export] Instance heard_console `{!ConsoleInput B} : ConsoleInput (Heard B) := λ '(b, l),
  let '(line, b') := ReadConsoleLine b in (line, (b', l ++ [line])).

#[export] Instance heard_toml {Node} `{TomlFiles B Node} : TomlFiles (Heard B) Node :=
  λ p b, parse_file p b.1.

#[export] Instance heard_sizes `{!FileSizes B} : FileSizes (Heard B) := {|
  is_directory_ec p b := is_directory_ec p b.1;
  file_size p b := file_size p b.1;
  read_bad p b := read_bad p b.1;
  resize_file p n := on_files (resize_file p n)
|}.

#[export] Instance heard_queries `{ProcessApi B} : ProcessApi (Heard B) := {|
  process_error b := process_error b.1;
  CreateToolhelp32Snapshot := on_files CreateToolhelp32Snapshot;
  Process32FirstW h := on_files (Process32FirstW h);
  Process32NextW h := on_files (Process32NextW h);
  snapshot_entries h b := snapshot_entries h b.1;
  OpenProcess a p := on_files (OpenProcess a p);
  GetProcessTimes h := on_files (GetProcessTimes h);
  QueryFullProcessImageNameW h n := on_files (QueryFullProcessImageNameW h n);
  GetProcessMemoryInfo h := on_files (GetProcessMemoryInfo h);
  CloseHandle h := on_files (CloseHandle h);
  EnumWindows := on_files EnumWindows;
  IsWindowVisible w := on_files (IsWindowVisible w);
  GetWindowThreadProcessId w := on_files (GetWindowThreadProcessId w);
  GetWindowTextW w n := on_files (GetWindowTextW w n);
  GetForegroundWindow := on_files GetForegroundWindow;
  GetWindowRect w := on_files (GetWindowRect w);
  MonitorFromWindow w := on_files (MonitorFromWindow w);
  GetMonitorInfoW m := on_files (GetMonitorInfoW m)
|}.

Lemma on_files_lines {A} (m : M B A) : preserves lines (on_files m).
Proof. intros b. apply on_files_other. Qed.

Lemma on_files_quiet {A Y} (obs : B → Y) (m : M B A) :
  preserves obs m → preserves (λ b : Heard B, obs b.1) (on_files m).
Proof. intros Hm [b l]. specialize (Hm b). cbn. by destruct (m b). Qed.

#[export] Instance heard_lines_quiet `{ProcessApi B} : QuietQueries (B := Heard B) lines.
Proof. split; intros; apply on_files_lines. Qed.

#[export] Instance heard_obs_quiet {Y} `{ProcessApi B} (obs : B → Y) `{!QuietQueries obs} :
  QuietQueries (λ b : Heard B, obs b.1).
Proof.
  split; intros; apply on_files_quiet; first
    [apply quiet_open|apply quiet_snapshot|apply quiet_close|apply quiet_first|apply quiet_next
    |apply quiet_times|apply quiet_path|apply quiet_memory|apply quiet_windows
    |apply quiet_visible|apply quiet_owner|apply quiet_text|apply quiet_foreground
    |apply quiet_rect|apply quiet_monitor|apply quiet_monitor_info].
Qed.

#[export] Instance heard_laws `{AddGameLaws B} : AddGameLaws (Heard B).
Proof.
  split.
  - intros q. exact (heard_obs_quiet (file q)).
  - intros q [b l]. pose proof (console_files q b) as Hc. cbn. by destruct (ReadConsoleLine b).
Qed.

Lemma ReadConsoleLine_heard `{!ConsoleInput B} (b b' : Heard B) line :
  ReadConsoleLine b = (line, b') → lines b' = lines b ++ [line].
Proof. destruct b as [b l]. cbn. destruct (ReadConsoleLine b). by intros [= <- <-]. Qed.

Lemma AppendGameRules_lines `{SystemMessages} `{FileSystem B} `{!FileSizes B} path rules :
  preserves lines (AppendGameRules (W := Heard B) path rules).
Proof.
  assert (Hf : ∀ A (m : M B A), preserves lines (on_files m)) by (intros; apply on_files_lines).
  unfold AppendGameRules, replace_file, via_temp. frame; by apply Hf.
Qed.
End Hearing.

Section AddGameFiles.
Context {B : Type} `{SystemMessages} `{!CodePages} `{!WideCtype} `{AddGameLaws B}.

#[local] Hint Resolve console_files EnumerateProcessDetails_frame QueryProcessDetails_frame : frame.

Lemma choose_files q fuel l : preserves (file q) (choose fuel l).
Proof.
  induction fuel as [|fuel IH]; cbn [choose]; [done|].
  apply preserves_bind; [apply console_files|]. intros input. destruct (quits input); [done|].
  destruct (ParseUint32 input) as [index|]; [|done]. by destruct ((index =? 0) || _).
Qed.

Lemma select_process_files q fuel p : preserves (file q) (select_process fuel p).
Proof.
  unfold select_process. destruct (p =? 0).
  - apply preserves_bind; [exact (EnumerateProcessDetails_frame (file q) true)|]. intros [l|]; [|done].
    cbv zeta. destruct (_ =? 0); [done|]. apply preserves_bind; [apply choose_files|]. done.
  - apply preserves_bind; [exact (QueryProcessDetails_frame (file q) p)|]. done.
Qed.

End AddGameFiles.

Section AddGameTheorems.
Context {B0 Node : Type} `{SystemMessages} `{!CodePages} `{WideCtypeLaws}.
Context `{AddGameLaws B0} `{!FileSizes B0} `{Toml Node} `{TomlFiles B0 Node}.
#[local] Notation B := (Heard B0).

(** What was read of the menu ends with the number of what was chosen. *)
Lemma choose_picks fuel l (b b' : B) c :
  choose fuel l b = (c, b') →
  ∃ said, lines b' = lines b ++ said ∧
    ∀ d, c = Some (Some d) →
      ∃ others pick index, said = others ++ [pick] ∧ ParseUint32 pick = Some index ∧
        1 <= index <= len l ∧ l !! Z.to_nat (index - 1) = Some d.
Proof.
  revert b. induction fuel as [|fuel IH]; intros b; cbn [choose].
  { intros [= <- <-]. exists []. by rewrite app_nil_r. }
  unfold mthen at 1. destruct (ReadConsoleLine b) as [input b1] eqn:E.
  apply ReadConsoleLine_heard in E. destruct (quits input).
  { intros [= <- <-]. exists [input]. by split. }
  assert (Hagain : choose fuel l b1 = (c, b') → ∃ said, lines b' = lines b ++ said ∧
    ∀ d, c = Some (Some d) → ∃ others pick index, said = others ++ [pick] ∧
      ParseUint32 pick = Some index ∧ 1 <= index <= len l ∧
      l !! Z.to_nat (index - 1) = Some d).
  { intros (said & Hs & Hd)%IH. exists (input :: said). rewrite Hs, E, <- app_assoc.
    split; [done|]. intros d (others & pick & index & -> & ?)%Hd. by exists (input :: others), pick, index. }
  destruct (ParseUint32 input) as [index|] eqn:Ep; [|exact Hagain].
  destruct ((index =? 0) || (len l <? index)) eqn:Ei; [exact Hagain|].
  apply orb_false_iff in Ei as [Hz%Z.eqb_neq Hl%Z.ltb_ge].
  intros [= <- <-]. exists [input]. split; [done|]. intros d [= Hd]. exists [], input, index.
  apply wide_ParseUint32_range in Ep as Hr. unfold is_u32 in Hr. split_and!; try done; lia.
Qed.

(** Where the process comes from: the number on the command line, without a
    word being read, or the menu. *)
Lemma select_process_from fuel p (b b' : B) d :
  select_process fuel p b = (Some (inl d), b') →
  ∃ said, lines b' = lines b ++ said ∧
    (p ≠ 0 → said = [] ∧ (QueryProcessDetails p b).1 = Success d) ∧
    (p = 0 → ∃ shown others pick index,
       (EnumerateProcessDetails true b).1 = Success shown ∧ said = others ++ [pick] ∧
       ParseUint32 pick = Some index ∧ 1 <= index <= len shown ∧
       sorted_by_pid shown !! Z.to_nat (index - 1) = Some d).
Proof.
  unfold select_process. destruct (Z.eqb_spec p 0) as [->|Hp]; unfold mthen, mret.
  - pose proof (EnumerateProcessDetails_frame lines true b) as He.
    destruct (EnumerateProcessDetails true b) as [[shown|e] b1]; [|done]. cbn in He.
    cbv zeta. destruct (_ =? 0); [done|].
    destruct (choose fuel (sorted_by_pid shown) b1) as [c b2] eqn:Ec.
    apply choose_picks in Ec as (said & Hs & Hd).
    destruct c as [[c|]|]; intros [=]; subst. exists said. rewrite Hs, He.
    split; [done|]. split; [done|]. intros _.
    destruct (Hd d eq_refl) as (others & pick & index & -> & ? & Hi & ?).
    exists shown, others, pick, index. do 3 (split; [done|]). split; [|done].
    revert Hi. unfold sorted_by_pid, len. by rewrite merge_sort_Permutation.
  - pose proof (QueryProcessDetails_frame lines p b) as Hq.
    destruct (QueryProcessDetails p b) as [[d'|e] b1]; intros [=]; subst.
    exists []. rewrite app_nil_r. by split_and!.
Qed.

Lemma confirmed_agrees p (b b' : B) :
  confirmed p b = (true, b') →
  (∀ q, file q b' = file q b) ∧
  if p =? 0 then ∃ answer, lines b' = lines b ++ [answer] ∧ agrees answer = true
  else lines b' = lines b.
Proof.
  unfold confirmed. destruct (p =? 0); unfold mthen, mret; [|by intros [= <-]].
  destruct (ReadConsoleLine b) as [answer b1] eqn:E. intros [= Ha <-].
  split; [intros q; exact (preserves_run _ _ _ _ _ (console_files (B := B) q) E)|].
  apply ReadConsoleLine_heard in E. by exists answer.
Qed.

Lemma write_rule_spec a path rule (b b' : B) code :
  write_rule a path rule b = (code, b') →
  (∀ q, file q b' = file q b) ∨
  ag_dryRun a = false ∧
  (if ag_pid a =? 0 then ∃ answer, lines b' = lines b ++ [answer] ∧ agrees answer = true
   else lines b' = lines b) ∧
  (∀ q, q ≠ path → q ≠ path +:+ ".tmp" → file q b' = file q b) ∧
  (code = 2 ∧ file path b' = file path b ∨
   code = 0 ∧ ∃ b1 old new, confirmed (ag_pid a) b = (true, b1) ∧
     (∀ q, file q b1 = file q b) ∧ read_rules path b1 = Success old ∧
     file path b' = Some new ∧ getlines new = getlines old ++ getlines (FormatGameRule rule)).
Proof.
  unfold write_rule. destruct (ag_dryRun a); [intros [= _ <-]; by left|]. unfold mthen at 1.
  destruct (confirmed (ag_pid a) b) as [[] b1] eqn:Ec; cbn [negb]; cycle 1.
  { intros [= _ <-]. left. intros q. refine (preserves_run (file q) _ _ _ _ _ Ec).
    unfold confirmed. destruct (_ =? 0); [|done]. apply preserves_bind; [apply (console_files (B := B))|done]. }
  pose proof (confirmed_agrees _ _ _ Ec) as [Hf Hy]. unfold mthen, mret.
  pose proof (AppendGameRules_lines path [rule] b1) as Hlines.
  destruct (AppendGameRules path [rule] b1) as [written b2] eqn:Ea. intros [= <- <-].
  cbn in Hlines. rewrite <- Hlines in Hy.
  apply AppendGameRules_appends in Ea as [Hq Hw]; [|done]. right. split; [done|]. split; [done|].
  split; [intros q ??; by rewrite Hq|]. destruct written as [u|e]; cbn.
  - right. split; [done|]. destruct Hw as (old & new & Hr & Hn & Hl).
    exists b1, old, new. do 4 (split; [done|]). cbn [FormatGameRulesToml] in Hl.
    by rewrite string_app_nil_r in Hl.
  - left. split; [done|]. etransitivity; [exact Hw|apply Hf].
Qed.

(** C25. Adding a game changes no file unless the command was not a dry run and
    either a process was named on the command line, in which case the console is
    not read and the rule is of that process, or the user chose one of the
    processes shown by its number and the line read after that, the last one, was
    [y] or [Y]. Then only the local configuration (and its temporary file) is
    touched: it stays as it was and the command fails, or it keeps its lines and
    gains those of one rule, whose id differs up to ASCII case from the id of
    every rule in force (of fewer than 2^31 - 4). *)
Theorem add_game_on_consent path_of fuel args (b b' : B) out :
  RunAddGameCommand path_of fuel args b = (out, b') →
  (∀ q, file q b' = file q b) ∨
  ∃ a d existing rule said b1,
    let main := if len (ag_main a) =? 0 then "" else path_of (ag_main a) in
    let path := LocalConfigPath main in
    add_game_arguments args (MkAddGame 0 [] false) = Some a ∧ ag_dryRun a = false ∧
    lines b' = lines b ++ said ∧
    (ag_pid a ≠ 0 → said = [] ∧ (QueryProcessDetails (ag_pid a) b).1 = Success d) ∧
    (ag_pid a = 0 → ∃ shown others pick index answer,
       (EnumerateProcessDetails true b).1 = Success shown ∧
       said = others ++ [pick; answer] ∧ ParseUint32 pick = Some index ∧
       1 <= index <= len shown ∧ sorted_by_pid shown !! Z.to_nat (index - 1) = Some d ∧
       agrees answer = true) ∧
    select_process fuel (ag_pid a) b = (Some (inl d), b1) ∧
    (∀ q, file q b1 = file q b) ∧ LoadExistingGameRules main path b1 = Success existing ∧
    BuildGameRuleFromProcess (length existing) d existing [] = Some (Success rule) ∧
    (len existing < 2 ^ 31 - 4 →
     ∀ game, game ∈ existing → lower_ascii (cfg_id game) ≠ lower_ascii (cfg_id rule)) ∧
    (∀ q, q ≠ path → q ≠ path +:+ ".tmp" → file q b' = file q b) ∧
    (out = Some 2 ∧ file path b' = file path b ∨
     out = Some 0 ∧ ∃ b2 old new,
       confirmed (ag_pid a) b1 = (true, b2) ∧ read_rules path b2 = Success old ∧
       (∀ q, file q b2 = file q b) ∧
       file path b' = Some new ∧ getlines new = getlines old ++ getlines (FormatGameRule rule)).
Proof.
  unfold RunAddGameCommand. destruct (add_game_arguments args _) as [a|] eqn:Ea;
    [|intros [= _ <-]; by left].
  unfold mthen. destruct (select_process fuel (ag_pid a) b) as [s b1] eqn:Es.
  assert (Hs : ∀ q, file q b1 = file q b)
    by (intros q; exact (preserves_run _ _ _ _ _ (select_process_files (B := B) q _ _) Es)).
  destruct s as [[d|code]|]; [|intros [= _ <-]; by left..]. cbv zeta.
  set (main := if len (ag_main a) =? 0 then "" else path_of (ag_main a)).
  destruct (LoadExistingGameRules main _ b1) as [existing|] eqn:El; [|intros [= _ <-]; by left].
  destruct (BuildGameRuleFromProcess _ d existing []) as [[rule|]|] eqn:Er;
    [|intros [= _ <-]; by left..].
  destruct (write_rule a _ rule b1) as [code b2] eqn:Ew. intros [= <- <-].
  apply write_rule_spec in Ew as [Hf|(Hd & Hy & Hq & Hw)];
    [left; intros q; by rewrite Hf|].
  pose proof (select_process_from _ _ _ _ _ Es) as (said & Hl & Hn & Hz).
  assert (∃ said', lines b2 = lines b ++ said ++ said' ∧
    if ag_pid a =? 0 then ∃ answer, said' = [answer] ∧ agrees answer = true else said' = [])
    as (said' & Hl' & Hy').
  { destruct (ag_pid a =? 0).
    - destruct Hy as (answer & -> & Hy). exists [answer]. rewrite Hl, app_assoc. split; [done|].
      by exists answer.
    - exists []. by rewrite Hy, Hl, app_nil_r. }
  right. exists a, d, existing, rule, (said ++ said'), b1. fold main. do 3 (split; [done|]).
  split.
  { intros Hp. destruct (Hn Hp) as [-> ?]. apply Z.eqb_neq in Hp. rewrite Hp in Hy'. by subst. }
  split.
  { intros Hp. destruct (Hz Hp) as (shown & others & pick & index & ? & -> & ? & ? & ?).
    apply Z.eqb_eq in Hp. rewrite Hp in Hy'. destruct Hy' as (answer & -> & ?).
    exists shown, others, pick, index, answer. by rewrite <- app_assoc. }
  do 4 (split; [done|]).
  split; [intros Hlen; by eapply BuildGameRule_fresh|].
  split; [intros q ??; by rewrite Hq|]. rewrite Hs in Hw.
  destruct Hw as [[-> Hw]|(-> & b3 & old & new & Hc & Hb3 & Hr & Hnew & Hg)]; [by left|].
  right. split; [done|]. exists b3, old, new. do 2 (split; [done|]). split; [|done].
  intros q. by rewrite Hb3.
Qed.
End AddGameTheorems.

(** ** The watching command *)

Section WatchTheorems.
Context {S Node : Type} `{!ProcessSystem S} `{!CodePages} `{!SystemMessages} `{!WideCtype}.
Context `{!ConsoleOutput S} `{Toml Node} `{TomlFiles S Node} `{FileSystem S}.

(** What goes on beside the command neither starts nor stops anything. *)
Lemma background_act a (x x' : Watch S) :
  background a = true → act a x = Some x' →
  callbacks_ x' = callbacks_ x ∧ stopRequested_ x' = stopRequested_ x ∧
  joining x' = joining x ∧ (is_Some (worker_ x) → is_Some (worker_ x')).
Proof.
  intros Ha E. destruct a; try done; cbn [act] in E.
  - apply WorkerStep_frame in E as (-> & -> & _ & -> & _ & ? & _). by split_and!.
  - by injection E as <-.
Qed.

Lemma background_enabled a (x : Watch S) :
  background a = true → truthful x → is_Some (worker_ x) → stopRequested_ x = false →
  is_Some (act a x).
Proof.
  intros Ha (_ & Hl & _) [pc Ew] Hs. destruct a; try done; cbn [act].
  unfold WorkerStep. rewrite Ew, Hs. destruct pc as [|polled|[|[[i cb] t] calls]| |]; eauto.
  - destruct (PollOnce _) as [r [w s']]. eauto.
  - destruct (cb t _). eauto.
  - rewrite (Hl Ew) in Hs. done.
Qed.

(** Beside the sleeping command the thread goes on polling. *)
Lemma background_acts l (x : Watch S) :
  Forall (λ a, background a = true) l →
  truthful x → is_Some (worker_ x) → stopRequested_ x = false → joining x = false →
  ∃ x', acts l x = Some x' ∧ truthful x' ∧ is_Some (worker_ x') ∧ joining x' = false.
Proof.
  intros Hl. revert x. induction Hl as [|a l Ha _ IH]; intros x Ht Hw Hs Hj; [by exists x|].
  cbn [acts]. destruct (background_enabled a x Ha Ht Hw Hs) as [y Ey]. rewrite Ey.
  pose proof (act_truthful a x y Ht Ey). apply (background_act a x y Ha) in Ey as (_ & Es & Ej & Hw').
  apply IH; [done|auto|congruence..].
Qed.

(** Whatever the thread does while the command sleeps, the command comes to its
    end: after finitely many steps of the thread it is joined, and the command
    prints what is then tracked. *)
Lemma RunWatchCommand_ends thread sleeping text configPath (s : S) :
  Forall (λ a, background a = true) sleeping →
  ∃ n r, RunWatchCommand thread sleeping (repeat AWorker n) text configPath s = Some r ∧
    match r with
    | Refused => True
    | Watched l x => worker_ x = None ∧ IsRunning x = false ∧ l = GetTrackedProcesses x
    end.
Proof.
  intros Hb. unfold RunWatchCommand.
  destruct (watch_seconds text); [|by exists O, Refused].
  destruct (watch_games configPath s) as [games|]; [|by exists O, Refused].
  destruct (SetWatchRules games (NewWatch true s)) as [[u|] x0] eqn:E0; [|by exists O, Refused].
  assert (Ht0 : truthful x0 ∧ worker_ x0 = None ∧ joining x0 = false).
  { pose proof (act_truthful (ASetRules games) _ x0 (NewWatch_truthful true s)) as Ht.
    cbn [act] in Ht. rewrite E0 in Ht. split; [by apply Ht|]. revert E0.
    unfold SetWatchRules. destruct (SetRules _ _). intros [= _ <-]. by split. }
  destruct Ht0 as (Ht0 & Hw0 & Hj0).
  set (x1 := Subscribe (Some print_transition) x0).
  assert (Ht1 : truthful x1) by (by apply (act_truthful (ASubscribe (Some print_transition)) x0)).
  destruct (Start thread x1) as [[u'|] x2] eqn:E2; [|by exists O, Refused].
  assert (Ht2 : truthful x2).
  { apply (act_truthful (AStart thread) x1); [done|]. cbn [act]. by rewrite E2. }
  assert (Hw2 : is_Some (worker_ x2) ∧ stopRequested_ x2 = false ∧ joining x2 = false).
  { revert E2. unfold Start, x1. cbn [Subscribe worker_]. rewrite Hw0.
    destruct thread; [|done]. intros [= _ <-]. by split; [eexists|]. }
  destruct Hw2 as (Hw2 & Hs2 & Hj2).
  destruct (background_acts sleeping x2 Hb Ht2 Hw2 Hs2 Hj2) as (x3 & E3 & Hx3 & Hw3 & Hj3).
  assert (E4 : act AStop x3 = Some (RequestStop false x3)) by (cbn [act]; by rewrite Hj3).
  destruct (stop_completes x3 _ _ [] Hx3 Hw3 E4 ltac:(constructor) eq_refl)
    as (n & y & _ & Ey & Hy & Hr).
  rewrite acts_app in Ey. destruct (acts (repeat AWorker n) _) as [x5|] eqn:E5; [|done].
  cbn [acts] in Ey. destruct (act AJoin x5) as [x6|] eqn:E6; [|done]. injection Ey as <-.
  exists n, (Watched (GetTrackedProcesses x6) x6). split; [|done].
  cbn [mbind option_bind]. rewrite E3. cbn [mbind option_bind]. rewrite E4.
  cbn [mbind option_bind]. rewrite E5. cbn [mbind option_bind]. by rewrite E6.
Qed.
End WatchTheorems.

(** ** Witnesses *)

Module Shop.

(** One process with a path and a window, files in memory, a local
    configuration with a comment. *)
#[local] Instance shop_queries : ProcessApi MemFs := {
  process_error _ := 5;
  CreateToolhelp32Snapshot := mret (Some 1);
  Process32FirstW _ := mret (Some (7, widen "Game.exe"));
  Process32NextW _ := mret None;
  snapshot_entries _ _ := O;
  OpenProcess _ _ := mret (Some 2);
  GetProcessTimes _ := mret None;
  QueryFullProcessImageNameW _ _ := mret (Some (widen "C:\Games\Game.exe"));
  GetProcessMemoryInfo _ := mret (Some 4096);
  CloseHandle _ := mret tt;
  EnumWindows := mret ([3], true);
  IsWindowVisible _ := mret true;
  GetWindowThreadProcessId _ := mret (Some 7);
  GetWindowTextW _ _ := mret (widen "Game");
  GetForegroundWindow := mret None;
  GetWindowRect _ := mret None;
  MonitorFromWindow _ := mret 0;
  GetMonitorInfoW _ := mret None
}.

(** What is still to be typed at the console. *)
Definition Typed : Type := Heard MemFs.

#[local] Instance shop_input : ConsoleInput Typed := λ '(f, script),
  match script with [] => ([], (f, [])) | line :: rest => (line, (f, rest)) end.
#[local] Instance shop_messages : SystemMessages := no_messages.
#[local] Instance shop_pages : CodePages := {
  MultiByteToWideChar t := inl (widen t);
  WideCharToMultiByte w := inl (string_of_list_ascii (map (λ c, ascii_of_N (Z.to_N c)) w))
}.
#[local] Existing Instance plain_ctype.
#[local] Existing Instance plain_ctype_laws.
#[local] Instance shop_documents : TomlFiles MemFs tree := λ _ _, inl [].

#[local] Instance shop_quiet q : QuietQueries (B := MemFs) (file q).
Proof. done. Qed.

#[local] Instance shop_laws : AddGameLaws Typed.
Proof. split; [intros q; exact (heard_obs_quiet (file q))|]. by intros q [f [|line rest]]. Defined.

(** A number that is not positive takes the process back, and becomes the path
    of the configuration: [--add-game 7 0] asks with the menu. *)
Example zero_names_configuration :
  add_game_arguments [widen "7"; widen "0"] (MkAddGame 0 [] false) =
  Some (MkAddGame 0 (widen "0") false).
Proof. reflexivity. Qed.

(** A local configuration with a comment, and [script] to be typed. *)
Definition shelf (script : list wstring) : Heard Typed :=
  ((MkMemFs {[ "config.local.toml" := "# mine" ]} [], script), []).

Definition add_game (args script : list wstring) : option Z * Heard Typed :=
  RunAddGameCommand (λ _, "") 3 args (shelf script).

(** [--add-game 7]; [--add-game] answered with a number that is not in the menu,
    with 1 and with [y]; and answered with 1 and [n]. *)
Example add_game_on_consent_witness :
  let said l := lines (add_game [] l).2 in
  let change args l := file "config.local.toml" (add_game args l).2 ≠ Some "# mine" in
  change [widen "7"] [] ∧
  (change [] [widen "9"; widen "1"; widen "y"] ∧
   ∃ others answer, said [widen "9"; widen "1"; widen "y"] = others ++ [answer] ∧
     agrees answer = true) ∧
  ¬ change [] [widen "1"; widen "n"].
Proof.
  cbv zeta.
  assert (Hf : ∀ args l, ag_pid <$> add_game_arguments args (MkAddGame 0 [] false) = Some 0 →
    file "config.local.toml" (add_game args l).2 ≠ Some "# mine" →
    ∃ others answer, lines (add_game args l).2 = others ++ [answer] ∧ agrees answer = true).
  { intros args l Ha Hc.
    destruct (add_game_on_consent (λ _, "") 3 args (shelf l) _ _ (surjective_pairing _))
      as [Hsame|(a & d & existing & rule & said & b1 & Hargs & _ & Hs & _ & Hmenu & _)].
    - destruct Hc. exact (Hsame "config.local.toml").
    - rewrite Hargs in Ha. injection Ha as Ha.
      destruct (Hmenu Ha) as (_ & others & pick & _ & answer & _ & -> & _ & _ & _ & Hy).
      exists (others ++ [pick]), answer. split; [|exact Hy].
      etransitivity; [exact Hs|]. cbn. by rewrite <- app_assoc. }
  assert (Hy : file "config.local.toml"
    (add_game [] [widen "9"; widen "1"; widen "y"]).2 ≠ Some "# mine")
    by (vm_compute; discriminate).
  split; [vm_compute; discriminate|split].
  - split; [exact Hy|]. exact (Hf [] [widen "9"; widen "1"; widen "y"] eq_refl Hy).
  - intros Hn. apply Hn. vm_compute. reflexivity.
Defined.

End Shop.
