(* ===== verification/MemoryClean.v ===== *)
(** The command [--memory-clean] of [source/main.cpp]: what its configuration
    allows, the dry run, and the two paths that clean: the own working set
    alone, or the steps of the configured level. The printed text is not
    modelled; an outcome is the exit code and the capabilities whose cooldown
    was not recorded. *)

From S2P Require Import Prelude CommonError Containers Paths AuditLine AuditLog.
From S2P Require Import SafetyGates ConfigTypes Config Platform UserActivity Memory Actions.

Open Scope string_scope.
Open Scope list_scope.
Open Scope Z_scope.

(** ** What the configuration allows *)

Record MemoryCleanConfigGate := MkConfigGate {
  cleanEnabled : bool;
  nativeWrite : bool;
  maxLevel : CleanLevel;
  gate_mode : RunMode;
  gate_layers : LayerConfig;
  hasConfig : bool
}.

Definition no_config : MemoryCleanConfigGate :=
  MkConfigGate false false CleanLevel.None RunMode.Observe
    (layers default_snapshot) false.

Definition clean_overlay (c : MemoryCleanConfigGate) (kind : CleanKind) : bool :=
  if bool_decide (kind = CleanKind.WorkingSetTrim)
  then AllowsLocalReversibleActions (gate_mode c) (gate_layers c)
  else AllowsSystemLevelActions (gate_mode c) (gate_layers c).

Definition level_reaches (c : MemoryCleanConfigGate) (kind : CleanKind) : bool :=
  match kind with
  | CleanKind.WorkingSetTrim => clean_value CleanLevel.Light <=? clean_value (maxLevel c)
  | CleanKind.StandbyListPurge => clean_value CleanLevel.Medium <=? clean_value (maxLevel c)
  | CleanKind.SystemFileCacheTrim => bool_decide (maxLevel c = CleanLevel.Deep)
  end.

Definition ConfigAllowsCleanStep (c : MemoryCleanConfigGate) (kind : CleanKind) : bool :=
  if negb (hasConfig c) then false
  else if negb (clean_overlay c kind) then false
  else match kind with
  | CleanKind.WorkingSetTrim => cleanEnabled c && level_reaches c kind
  | CleanKind.StandbyListPurge | CleanKind.SystemFileCacheTrim =>
      cleanEnabled c && level_reaches c kind && nativeWrite c
  end.

Definition add_gap (gaps text : string) : string :=
  (if string_empty gaps then "" else gaps +:+ ", ") +:+ text.

Definition DescribeCleanConfigGaps (c : MemoryCleanConfigGate) (kind : CleanKind) : string :=
  let own := bool_decide (kind = CleanKind.WorkingSetTrim) in
  let when (b : bool) (text gaps : string) := if b then add_gap gaps text else gaps in
  let gaps := when (negb (cleanEnabled c)) "[memory].scheduled_clean_enabled = false" "" in
  let gaps := when (negb (level_reaches c kind)) "[memory].max_clean_level too low" gaps in
  let gaps := when (negb own && negb (nativeWrite c)) "[memory].allow_native_write = false" gaps in
  if negb (hasConfig c) then add_gap gaps "no config file given"
  else when (negb (clean_overlay c kind))
         (if own then "[application].mode / [layers].maintenance|emergency"
          else "[application].mode=experimental and [layers].emergency") gaps.

Definition CleanStepCompiledIn `{BuildOptions} (kind : CleanKind) : bool :=
  match kind with
  | CleanKind.WorkingSetTrim => MemoryCleanCompiledIn
  | CleanKind.StandbyListPurge => StandbyPurgeCompiledIn
  | CleanKind.SystemFileCacheTrim => FileCacheTrimCompiledIn
  end.

Definition CleanStepNeedsIsolatedEnvironment (kind : CleanKind) : bool :=
  negb (bool_decide (kind = CleanKind.WorkingSetTrim)).

Definition DescribeByteDelta (prefix : string) (before after : option Z) : string :=
  prefix +:+ "_before=" +:+ bytes_text before +:+ " " +:+
  prefix +:+ "_after=" +:+ bytes_text after +:+ " " +:+
  prefix +:+ "_delta=" +:+
  match before, after with
  | Some b, Some a => to_string (i64 a - i64 b)
  | _, _ => "unknown"
  end.

(** ** Running a plan *)

(** The characters of a text that are not ASCII, as question marks: one for
    each UTF-16 unit of the wide text, of which [s] is the UTF-8 form. *)
Fixpoint mark_non_ascii (s : string) : string :=
  match s with
  | EmptyString => EmptyString
  | String c r =>
      let v := code c in
      if v <? 128 then String c (mark_non_ascii r)
      else if v <? 192 then mark_non_ascii r
      else if v <? 240 then String "?" (mark_non_ascii r)
      else String "?" (String "?" (mark_non_ascii r))
  end.

(** [executed] says how many steps were executed. *)
Definition clean_detail (executed_text : Z → string) (r : Result CleanExecutionReport) : string :=
  match r with
  | Success rep =>
      if rep_ok rep then executed_text (succeeded rep)
      else "failed at step " +:+ CleanKindToString (failedStep rep) +:+ ": " +:+ failureDetail rep
  | Failure e =>
      "not executed [" +:+ DomainToString (domain e) +:+ ":" +:+ to_string (err_code e) +:+
      "] " +:+ message e
  end.

Definition clean_ok (r : Result CleanExecutionReport) : bool :=
  match r with Success rep => rep_ok rep | Failure _ => false end.

(** Whether a planned step affects the whole system. *)
Definition has_r3_step (steps : list CleanKind) : bool :=
  existsb CleanStepNeedsIsolatedEnvironment steps.

Definition no_steps (plan : MemoryCleanPlan) : bool :=
  match plan_steps plan with [] => true | _ => false end.

Record CommandOutcome := MkOutcome { exit_code : Z; unrecorded : list string }.

Definition refused : CommandOutcome := MkOutcome 2 [].

Section Commands.
Context {W : Type} `{SystemMessages} `{BuildOptions} `{FileSystem W} `{Clock W} `{Folders W}.
Context `{UnixTime W} `{Modules W} `{PlatformApi W} `{SessionProbe W} `{MemoryApi W}.
Context `{AgentFormState W}.

Definition QueryAvailablePhysicalBytes : M W (option Z) :=
  status <-- GlobalMemoryStatusEx ;;
  mret ((λ s : Z * Z * Z, s.1.2) <$> status).

Definition own_reading : M W (option WorkingSetReading) :=
  r <-- QueryOwnWorkingSet ;;
  mret (match r with Success v => Some v | Failure _ => None end).

(** The gates of one step. *)
Definition step_gates (config : MemoryCleanConfigGate) (acknowledged isolated : bool)
    (step : CleanKind) : M W GateContext :=
  GatherMemoryCleanGates acknowledged (ConfigAllowsCleanStep config step)
    (CleanStepCompiledIn step) (CleanKindCapabilityId step)
    (CleanStepNeedsIsolatedEnvironment step) isolated.

(** The first step whose gates refuse. *)
Fixpoint blocked_step (config : MemoryCleanConfigGate) (acknowledged isolated : bool)
    (steps : list CleanKind) : M W (option (CleanKind * GateId)) :=
  match steps with
  | [] => mret None
  | step :: rest =>
      context <-- step_gates config acknowledged isolated step ;;
      if negb (allowed (evaluation context)) then
        mret (Some (step, default GateId.CompileTime (firstBlocking (evaluation context))))
      else blocked_step config acknowledged isolated rest
  end.

(** The cooldown of every step, and those that could not be recorded. *)
Fixpoint record_runs (steps : list CleanKind) : M W (list string) :=
  match steps with
  | [] => mret []
  | step :: rest =>
      recorded <-- (λ w, RecordCooldownRun (DefaultCooldownLedgerPath w)
                           (CleanKindCapabilityId step) (unix_time w) w) ;;
      missing <-- record_runs rest ;;
      mret (match recorded with
            | Success _ => missing
            | Failure _ => CleanKindCapabilityId step :: missing
            end)
  end.

Record Readings := MkReadings {
  own_set : option WorkingSetReading;
  available : option Z;
  standby : option Z;
  cache : option Z
}.

Definition read_all : M W Readings :=
  own <-- own_reading ;;
  avail <-- QueryAvailablePhysicalBytes ;;
  standby <-- QueryStandbyBytes ;;
  cache <-- QuerySystemCacheBytes ;;
  mret (MkReadings own avail standby cache).

Definition describe_readings (before after : Readings) : string :=
  DescribeWorkingSetDelta (MakeWorkingSetDelta (own_set before) (own_set after)) +:+ " " +:+
  DescribeByteDelta "standby" (standby before) (standby after) +:+ " " +:+
  DescribeByteDelta "cache" (cache before) (cache after) +:+ " " +:+
  DescribeByteDelta "avail" (available before) (available after).

Definition target_name (configPath : option string) : string :=
  match configPath with Some _ => "config" | None => "defaults" end.

(** The part of [--execute] after the gates and the readiness check. *)
Definition execute_plan (target : string) (plan : MemoryCleanPlan) : M W CommandOutcome :=
  before <-- read_all ;;
  JournalAction "memory.clean_execute" target true JournalPhase.Before
    "intent: execute the planned clean steps (gates passed, readiness checked)" ;;;
  executed <-- @ExecuteMemoryCleanPlan W SystemMemoryCleanBackend plan ;;
  after <-- read_all ;;
  let ok := clean_ok executed in
  AuditAction "memory.clean_execute"
    (if has_r3_step (plan_steps plan) then RiskLevel.R3 else RiskLevel.R1) target ok
    (clean_detail (λ n, "executed " +:+ to_string n +:+ " planned step(s)") executed)
    (describe_readings before after) ;;;
  if negb ok then mret refused
  else missing <-- record_runs (plan_steps plan) ;; mret (MkOutcome 0 missing).

Definition RunMemoryCleanExecuteCommand (configPath : option string)
    (config : MemoryCleanConfigGate) (acknowledged isolatedAcknowledged : bool) :
    M W CommandOutcome :=
  let plan := PlanMemoryClean (maxLevel config) (maxLevel config) true in
  match plan_steps plan with
  | [] => mret refused
  | _ =>
      blocked <-- blocked_step config acknowledged isolatedAcknowledged (plan_steps plan) ;;
      match blocked with
      | Some _ => mret refused
      | None =>
          if negb (allImplemented (EvaluateCleanPlanReadiness plan)) then mret refused
          else execute_plan (target_name configPath) plan
      end
  end.

Definition RunMemoryCleanSelfTrim (configPath : option string)
    (config : MemoryCleanConfigGate) (acknowledged : bool) : M W CommandOutcome :=
  let target := target_name configPath in
  let step := CleanKind.WorkingSetTrim in
  context <-- GatherMemoryCleanGates acknowledged (ConfigAllowsCleanStep config step) true
                kMemoryCleanCapabilityId false false ;;
  if negb (allowed (evaluation context)) then mret refused
  else
    let plan := PlanMemoryClean CleanLevel.Light (maxLevel config) true in
    if negb (plan_allowed plan) || no_steps plan then mret refused
    else
      JournalAction "memory.clean_execute" target true JournalPhase.Before
        "intent: trim own process working set (single call, no privilege)" ;;;
      before <-- own_reading ;;
      executed <-- @ExecuteMemoryCleanPlan W SelfWorkingSetTrimBackend plan ;;
      after <-- own_reading ;;
      let ok := clean_ok executed in
      AuditAction "memory.clean_execute" RiskLevel.R1 target ok
        (mark_non_ascii (clean_detail
           (λ n, "self working set trim executed (" +:+ to_string n +:+
                 " step(s), own process only)") executed))
        (DescribeWorkingSetDelta (MakeWorkingSetDelta before after)) ;;;
      if negb ok then mret refused
      else missing <-- record_runs [step] ;; mret (MkOutcome 0 missing).

(** Without an execution switch: the plan, and its record. *)
Definition plan_dry_run (configPath : option string) (config : MemoryCleanConfigGate)
    (acknowledged : bool) : M W CommandOutcome :=
  let target := target_name configPath in
  context <-- GatherMemoryCleanGates acknowledged
                (ConfigAllowsCleanStep config CleanKind.WorkingSetTrim) true
                kMemoryCleanCapabilityId false false ;;
  let plan := PlanMemoryClean (maxLevel config) (maxLevel config)
                (allowed (evaluation context)) in
  JournalAction "memory.clean_plan" target true JournalPhase.Before
    "intent: plan memory clean (dry-run, no system call)" ;;;
  AuditAction "memory.clean_plan" RiskLevel.R2 target true
    "plan only (dry-run; no system call)"
    (match plan_steps plan with
     | [] => "no steps planned"
     | _ => "working_set_trim planned, dry-run (no execution)"
     end) ;;;
  mret (MkOutcome 0 []).

(** ** The command line *)

Record CleanArguments := MkCleanArguments {
  configPath : option string;
  acknowledged : bool;
  executeSelfTrim : bool;
  execute : bool;
  isolatedAcknowledged : bool
}.

(** [None] is an argument that is refused. *)
Definition clean_argument (a : CleanArguments) (arg : string) : option CleanArguments :=
  if String.eqb arg "--dry-run" then Some a
  else if String.eqb arg "--acknowledge-system-wide-side-effects" then
    Some (MkCleanArguments (configPath a) true (executeSelfTrim a) (execute a)
            (isolatedAcknowledged a))
  else if String.eqb arg "--execute-self-trim" then
    Some (MkCleanArguments (configPath a) (acknowledged a) true (execute a)
            (isolatedAcknowledged a))
  else if String.eqb arg "--force" then None
  else if String.eqb arg "--execute" then
    Some (MkCleanArguments (configPath a) (acknowledged a) (executeSelfTrim a) true
            (isolatedAcknowledged a))
  else if String.eqb arg "--acknowledge-isolated-environment" then
    Some (MkCleanArguments (configPath a) (acknowledged a) (executeSelfTrim a) (execute a) true)
  else match configPath a with
  | Some _ => None
  | None => Some (MkCleanArguments (Some arg) (acknowledged a) (executeSelfTrim a) (execute a)
                    (isolatedAcknowledged a))
  end.

Fixpoint clean_arguments (a : CleanArguments) (args : list string) : option CleanArguments :=
  match args with
  | [] => Some a
  | arg :: rest => clean_argument a arg ≫= λ a', clean_arguments a' rest
  end.

Definition clean_gate (s : ConfigSnapshot) : MemoryCleanConfigGate :=
  MkConfigGate (scheduledCleanEnabled (memory s)) (allowNativeWrite (memory s))
    (maxCleanLevel (memory s)) (app_mode (application s)) (layers s) true.

Context {Node : Type} `{Toml Node} `{TomlFiles W Node}.

(** [args] are the arguments after the command's name. *)
Definition RunMemoryCleanCommand (args : list string) : M W CommandOutcome :=
  match clean_arguments (MkCleanArguments None false false false false) args with
  | None => mret refused
  | Some a => λ w,
      match (match configPath a with
             | None => Success no_config
             | Some p =>
                 match LoadConfig p w with
                 | Success s => Success (clean_gate s)
                 | Failure e => Failure e
                 end
             end) with
      | Failure _ => (refused, w)
      | Success config =>
          (if execute a then
             RunMemoryCleanExecuteCommand (configPath a) config (acknowledged a)
               (isolatedAcknowledged a)
           else if executeSelfTrim a then
             RunMemoryCleanSelfTrim (configPath a) config (acknowledged a)
           else plan_dry_run (configPath a) config (acknowledged a)) w
      end
  end.
End Commands.
