(* ===== verification/PowerSchemeCommand.v ===== *)
(** The command [--power-scheme] of [source/main.cpp] ([RunPowerSchemeCommand]):
    its arguments, its gates, which let a rollback pass where they would stop a
    switch, and the record it leaves of what it does. *)

From S2P Require Import Prelude CommonError Containers Paths AuditLine AuditLog.
From S2P Require Import SafetyGates ConfigTypes Config Platform UserActivity PowerScheme.
From S2P Require Import Actions MemoryClean.

Open Scope string_scope.
Open Scope list_scope.
Open Scope Z_scope.

(** ** Arguments *)

Inductive SchemeAction := Status | Saved | Restore | Recover | Apply (targetGuid : string).

Record SchemeArguments := MkSchemeArguments {
  scheme_action : option SchemeAction;
  scheme_acknowledged : bool;
  scheme_config : option string
}.

Definition parse_action (text : string) : option SchemeAction :=
  let folded := map_chars ascii_lower text in
  if String.eqb folded "status" then Some Status
  else if String.eqb folded "saved" then Some Saved
  else if String.eqb folded "restore" then Some Restore
  else if String.eqb folded "recover" then Some Recover
  else match ResolveSchemeArgument text with Some g => Some (Apply g) | None => None end.

(** [None] is an argument that is refused. *)
Definition scheme_argument (a : SchemeArguments) (arg : string) : option SchemeArguments :=
  if String.eqb arg "--acknowledge-system-wide-side-effects" then
    Some (MkSchemeArguments (scheme_action a) true (scheme_config a))
  else if String.eqb arg "--force" then None
  else match scheme_action a with
  | None =>
      match parse_action arg with
      | Some act => Some (MkSchemeArguments (Some act) (scheme_acknowledged a) (scheme_config a))
      | None => None
      end
  | Some _ =>
      match scheme_config a with
      | Some _ => None
      | None => Some (MkSchemeArguments (scheme_action a) (scheme_acknowledged a) (Some arg))
      end
  end.

Fixpoint scheme_arguments (a : SchemeArguments) (args : list string) : option SchemeArguments :=
  match args with
  | [] => Some a
  | arg :: rest => scheme_argument a arg ≫= λ a', scheme_arguments a' rest
  end.

Definition is_forward (a : SchemeAction) : bool := match a with Apply _ => true | _ => false end.

(** A rollback asks only whether the capability is in the build and whether the
    audit trail can be written. *)
Definition rollback_inputs (i : GateInputs) : GateInputs :=
  MkGateInputs (gate_compileTime i) true true true (gate_audit i) true.

Definition failed_text (e : Error) : string :=
  "failed [" +:+ DomainToString (domain e) +:+ ":" +:+ to_string (err_code e) +:+ "] " +:+ message e.

Definition recover_ok (r : Result SchemeRecoveryOutcome) : bool :=
  match r with
  | Success o => match rc_action o with RestoreToSaved => rc_restored o | _ => true end
  | Failure _ => false
  end.

Definition recover_detail (r : Result SchemeRecoveryOutcome) : string :=
  match r with
  | Success o =>
      match rc_action o with
      | RecoverNone => "nothing to roll back (record is applied/restored or absent)"
      | MarkNeverApplied => "the switch never took effect; record marked as restored"
      | RestoreToSaved =>
          if rc_restored o then "rolled back to the saved scheme and verified by read-back"
          else "rollback call returned success but read-back differs"
      end
  | Failure e => failed_text e
  end.

Definition recover_state (r : Result SchemeRecoveryOutcome) : string :=
  match r with
  | Success o => "action=" +:+ SchemeRecoveryActionToString (rc_action o) +:+
                 " saved=" +:+ rc_saved o +:+ " active=" +:+ rc_active o
  | Failure _ => ""
  end.

Definition restore_ok (r : Result RestoreFlowOutcome) : bool :=
  match r with Success o => rf_restored o | Failure _ => false end.

Definition restore_detail (r : Result RestoreFlowOutcome) : string :=
  match r with
  | Success o => if rf_restored o then "restored and verified by read-back; record marked restored"
                 else "restore call returned success but read-back differs"
  | Failure e => failed_text e
  end.

Definition restore_state (r : Result RestoreFlowOutcome) : string :=
  match r with
  | Success o => "saved=" +:+ rf_saved o +:+ " active=" +:+ rf_active o
  | Failure _ => ""
  end.

Definition switch_ok (r : Result SwitchFlowOutcome) : bool :=
  match r with Success o => sf_changed o | Failure _ => false end.

Definition switch_detail (r : Result SwitchFlowOutcome) : string :=
  match r with
  | Success o =>
      if sf_changed o then "switched and verified by read-back; record marked applied"
      else "switch call returned success but read-back shows a different active scheme; the record stays pending (next run rolls back)"
  | Failure e => failed_text e
  end.

Definition switch_state (r : Result SwitchFlowOutcome) : string :=
  match r with
  | Success o => "previous=" +:+ sf_previous o +:+ " target=" +:+ sf_target o +:+
                 " active=" +:+ sf_active o
  | Failure _ => ""
  end.

Section Command.
Context {W : Type} `{SystemMessages} `{BuildOptions} `{FileSystem W} `{Clock W} `{Folders W}.
Context `{UnixTime W} `{Modules W} `{PlatformApi W} `{SessionProbe W} `{AgentFormState W}.
Context `{PowerSchemeBackend W}.

(** The audit trail is probed first, the ledger read last, and only when the
    cooldown applies. *)
Definition GatherPowerSchemeGates (acknowledged configEnabled cooldownApplies : bool) :
    M W GateInputs :=
  probed <-- (λ w, ProbeAuditWritable (DefaultAuditLogPath w) w) ;;
  facts <-- GatherEnvironmentFacts ;;
  λ w,
    (MkGateInputs PowerSchemeSwitchCompiledIn configEnabled acknowledged
       (EvaluateEnvironmentGate facts) (HasValue probed)
       (if cooldownApplies then
          match ReadCooldownLedger (DefaultCooldownLedgerPath w) w with
          | Success l => EvaluateCooldownGate l kPowerSchemeCapabilityId (unix_time w) kDefaultCooldown
          | Failure _ => false
          end
        else true), w).

(** The gates of an action: all six for a switch. *)
Definition scheme_gates (action : SchemeAction) (acknowledged configEnabled : bool) :
    M W GateEvaluation :=
  let forward := is_forward action in
  i <-- GatherPowerSchemeGates (if forward then acknowledged else true) configEnabled forward ;;
  mret (EvaluateGates (if forward then i else rollback_inputs i)).

Definition run_recover (target savePath : string) (record : Result (option SavedSchemeRecord)) :
    M W CommandOutcome :=
  match record with
  | Failure _ => mret refused
  | Success None => mret (MkOutcome 0 [])
  | Success (Some _) =>
      JournalAction "power.scheme_recover" target true JournalPhase.Before
        "intent: roll back an unconfirmed power scheme switch" ;;;
      recovered <-- RecoverPendingScheme savePath ;;
      AuditAction "power.scheme_recover" RiskLevel.R2 target (recover_ok recovered)
        (recover_detail recovered) (recover_state recovered) ;;;
      mret (if recover_ok recovered then MkOutcome 0 [] else refused)
  end.

Definition run_restore (target savePath : string) : M W CommandOutcome :=
  JournalAction "power.scheme_restore" target true JournalPhase.Before
    "intent: restore saved power scheme (rollback)" ;;;
  restored <-- RestoreSchemeWithRecord savePath ;;
  AuditAction "power.scheme_restore" RiskLevel.R2 target (restore_ok restored)
    (restore_detail restored) (restore_state restored) ;;;
  mret (if restore_ok restored then MkOutcome 0 [] else refused).

(** A switch that was not confirmed, as the record read at the start says, is
    rolled back first. *)
Definition reconcile (savePath : string) (record : Result (option SavedSchemeRecord)) : M W bool :=
  match record with
  | Success (Some r) =>
      if bool_decide (save_state r = Pending) then
        recovered <-- RecoverPendingScheme savePath ;; mret (HasValue recovered)
      else mret true
  | _ => mret true
  end.

Definition run_apply (target savePath targetGuid : string)
    (record : Result (option SavedSchemeRecord)) : M W CommandOutcome :=
  reconciled <-- reconcile savePath record ;;
  if negb reconciled then mret refused
  else
    JournalAction "power.scheme_apply" target true JournalPhase.Before
      "intent: switch active power scheme (pending record written first)" ;;;
    switched <-- ApplySchemeWithRecord savePath targetGuid ;;
    AuditAction "power.scheme_apply" RiskLevel.R2 target (switch_ok switched)
      (switch_detail switched) (switch_state switched) ;;;
    if negb (switch_ok switched) then mret refused
    else
      recorded <-- (λ w, RecordCooldownRun (DefaultCooldownLedgerPath w) kPowerSchemeCapabilityId
                           (unix_time w) w) ;;
      mret (MkOutcome 0 (if HasValue recorded then [] else [kPowerSchemeCapabilityId])).

Context {Node : Type} `{Toml Node} `{TomlFiles W Node}.

(** The configuration's say; [None] when the file cannot be loaded. *)
Definition scheme_config_gate (path : option string) (w : W) : option bool :=
  match path with
  | None => Some false
  | Some p =>
      match LoadConfig p w with
      | Failure _ => None
      | Success s =>
          Some (switchPowerScheme (power s) &&
                AllowsSystemLevelActions (app_mode (application s)) (layers s))
      end
  end.

(** [args] are the arguments after the command's name; what is printed is not
    modelled. *)
Definition RunPowerSchemeCommand (args : list string) : M W CommandOutcome :=
  match scheme_arguments (MkSchemeArguments None false None) args with
  | None | Some (MkSchemeArguments None _ _) => mret refused
  | Some (MkSchemeArguments (Some action) acknowledged path) => λ w,
      let savePath := DefaultPowerSchemeSavePath w in
      let record := ReadSavedSchemeRecord savePath w in
      match action with
      | Saved => (if HasValue record then MkOutcome 0 [] else refused, w)
      | Status =>
          if negb (HasValue record) then (refused, w)
          else (active <-- GetActive ;; mret (if HasValue active then MkOutcome 0 [] else refused)) w
      | _ =>
          match scheme_config_gate path w with
          | None => (refused, w)
          | Some configEnabled =>
              let target := target_name path in
              (gates <-- scheme_gates action acknowledged configEnabled ;;
               if negb (allowed gates) then mret refused
               else match action with
                    | Recover => run_recover target savePath record
                    | Restore => run_restore target savePath
                    | Apply guid => run_apply target savePath guid record
                    | _ => mret refused
                    end) w
          end
      end
  end.
End Command.
