(* ===== verification/World.v ===== *)
(** A world that records: the files, the rest of the system, and the list of the
    calls made so far that change the system, for programs run in it. What is
    common to the commands that change something: what they leave alone, the
    calls they make ([emits]), and cooldowns in their ledger. *)

From S2P Require Import Prelude CommonError Containers Paths Crash AuditLine AuditLog.
From S2P Require Import SafetyGates Config Platform UserActivity Actions.

Open Scope string_scope.
Open Scope list_scope.
Open Scope Z_scope.

(** ** A world that records *)

(** The files, the calls so far, and the rest of the system. *)
Definition World (C F X : Type) : Type := F * (list C * X).

Definition quietly {C F X A} (m : M X A) : M (World C F X) A := λ '(f, (t, x)),
  let '(a, x') := m x in (a, (f, (t, x'))).

Definition recorded {C F X A} (call : C) (m : M X A) : M (World C F X) A := λ '(f, (t, x)),
  let '(a, x') := m x in (a, (f, (t ++ [call], x'))).

(** What the observers see: the calls, and the files. *)
Definition calls {C F X} (w : World C F X) : list C := w.2.1.
Definition files_of {C F X} (w : World C F X) : F := w.1.

Section Instances.
Context {C F X : Type}.

#[export] Instance world_modules `{Modules X} : Modules (World C F X) := {|
  GetModuleHandleW n := quietly (GetModuleHandleW n);
  GetProcAddress n := quietly (GetProcAddress n)
|}.

#[export] Instance world_platform `{PlatformApi X} : PlatformApi (World C F X) := {|
  RtlGetVersion := quietly RtlGetVersion;
  GetSystemPowerStatus := quietly GetSystemPowerStatus;
  wProcessorArchitecture := quietly wProcessorArchitecture;
  platform_error w := platform_error w.2.2
|}.

#[export] Instance world_session `{SessionProbe X} : SessionProbe (World C F X) :=
  quietly (C := C) (F := F) (X := X) (QuerySession (B := X)).

#[export] Instance world_forms `{AgentFormState X} : AgentFormState (World C F X) :=
  quietly (C := C) (F := F) (X := X) (DescribeAgentFormsSnapshot (W := X)).

#[export] Instance world_clock `{Clock F} : Clock (World C F X) := {|
  localtime w := localtime w.1; steady_clock w := steady_clock w.1
|}.
#[export] Instance world_folders `{Folders F} : Folders (World C F X) := {|
  GetEnvironmentVariableW n w := GetEnvironmentVariableW n w.1;
  temp_directory_path w := temp_directory_path w.1
|}.
#[export] Instance world_time `{UnixTime F} : UnixTime (World C F X) :=
  λ w : World C F X, unix_time w.1.
#[export] Instance world_toml {Node} `{TomlFiles F Node} : TomlFiles (World C F X) Node :=
  λ p w, parse_file p w.1.

Lemma quietly_calls {A} (m : M X A) : preserves (@calls C F X) (quietly m).
Proof. intros (f & t & x). cbn. by destruct (m x). Qed.

Lemma quietly_files {A} (m : M X A) : preserves (@files_of C F X) (quietly m).
Proof. intros (f & t & x). cbn. by destruct (m x). Qed.

Lemma recorded_files {A} c (m : M X A) : preserves (@files_of C F X) (recorded c m).
Proof. intros (f & t & x). cbn. by destruct (m x). Qed.

Lemma recorded_calls {A} (c : C) (m : M X A) (w w' : World C F X) a :
  recorded c m w = (a, w') → calls w' = calls w ++ [c].
Proof. destruct w as (f & t & x). cbn. destruct (m x). by intros [= <- <-]. Qed.
End Instances.

#[export] Hint Extern 1 (preserves _ _) =>
  first [apply quietly_calls | apply quietly_files | apply recorded_files] : frame.

(** ** What is left alone *)

(** Actions on the files alone do not touch what is seen of the rest: the calls,
    or the state of the system. *)
Section FilesOnly.
Context {C F X Y : Type} `{SystemMessages} `{FileSystem F} `{Clock F} `{Folders F} `{UnixTime F}.
Context (see : list C * X → Y).

Definition beside (w : World C F X) : Y := see w.2.

Lemma on_files_beside {A} (m : M F A) : preserves beside (on_files m).
Proof. intros (f & t & x). unfold on_files, beside. by destruct (m f). Qed.
Hint Extern 1 (preserves _ _) => apply on_files_beside : frame.

Lemma AppendJournalLine_beside path phase op ok target detail :
  preserves beside (AppendJournalLine path phase op ok target detail).
Proof. unfold AppendJournalLine, with_parent, append_flushed, AuditLog.last_error. frame. Qed.

Lemma AppendAuditLine_beside path record : preserves beside (AppendAuditLine path record).
Proof. unfold AppendAuditLine, with_parent, append_flushed, AuditLog.last_error. frame. Qed.

Lemma ProbeAuditWritable_beside path : preserves beside (ProbeAuditWritable path).
Proof. unfold ProbeAuditWritable, with_parent, AuditLog.last_error. frame. Qed.
Hint Resolve AppendJournalLine_beside AppendAuditLine_beside : frame.

Lemma JournalAction_beside op target ok phase detail :
  preserves beside (JournalAction op target ok phase detail).
Proof. unfold JournalAction. frame. Qed.

Lemma AppendAudit_beside op risk target ok detail :
  preserves beside (AppendAudit op risk target ok detail).
Proof. unfold AppendAudit. frame. Qed.

Lemma RecordCooldownRun_beside path id now : preserves beside (RecordCooldownRun path id now).
Proof.
  unfold RecordCooldownRun, WriteCooldownLedger, write_and_replace. frame.
Qed.
End FilesOnly.

Section Frames.
Context {C F X : Type} `{SystemMessages} `{FileSystem F} `{Clock F} `{Folders F} `{UnixTime F}.
Context `{Modules X} `{PlatformApi X} `{SessionProbe X} `{AgentFormState X}.

Lemma on_files_calls {A} (m : M F A) : preserves (@calls C F X) (on_files m).
Proof. exact (on_files_beside fst m). Qed.

Lemma AppendJournalLine_calls path phase op ok target detail :
  preserves (@calls C F X) (AppendJournalLine path phase op ok target detail).
Proof. exact (AppendJournalLine_beside fst path phase op ok target detail). Qed.

Lemma AppendAuditLine_calls path record :
  preserves (@calls C F X) (AppendAuditLine path record).
Proof. exact (AppendAuditLine_beside fst path record). Qed.

Lemma ProbeAuditWritable_calls path : preserves (@calls C F X) (ProbeAuditWritable path).
Proof. exact (ProbeAuditWritable_beside fst path). Qed.

Lemma JournalAction_calls op target ok phase detail :
  preserves (@calls C F X) (JournalAction op target ok phase detail).
Proof. exact (JournalAction_beside fst op target ok phase detail). Qed.

Lemma AppendAudit_calls op risk target ok detail :
  preserves (@calls C F X) (AppendAudit op risk target ok detail).
Proof. exact (AppendAudit_beside fst op risk target ok detail). Qed.

Lemma RecordCooldownRun_calls path id now :
  preserves (@calls C F X) (RecordCooldownRun path id now).
Proof. exact (RecordCooldownRun_beside fst path id now). Qed.
Hint Resolve JournalAction_calls AppendAudit_calls : frame.

Lemma AuditAction_calls op risk target ok detail state :
  preserves (@calls C F X) (AuditAction op risk target ok detail state).
Proof. unfold AuditAction. frame. Qed.

Lemma GatherEnvironmentFacts_calls : preserves (@calls C F X) GatherEnvironmentFacts.
Proof.
  unfold GatherEnvironmentFacts, QueryOsVersion, IsNativeX64, QueryOnBatteryPower. frame.
Qed.

Lemma GatherEnvironmentFacts_files : preserves (@files_of C F X) GatherEnvironmentFacts.
Proof.
  unfold GatherEnvironmentFacts, QueryOsVersion, IsNativeX64, QueryOnBatteryPower. frame.
Qed.
End Frames.

#[export] Hint Extern 1 (preserves _ _) => apply on_files_calls : frame.
#[export] Hint Resolve AppendJournalLine_calls AppendAuditLine_calls ProbeAuditWritable_calls
  JournalAction_calls AuditAction_calls RecordCooldownRun_calls GatherEnvironmentFacts_calls
  GatherEnvironmentFacts_files : frame.

(** ** What is called *)

(** The action makes some calls, which together with its answer satisfy [Q]. *)
Definition emits {C F X A} (m : M (World C F X) A) (Q : A → list C → Prop) : Prop :=
  ∀ w a w', m w = (a, w') → ∃ cs, calls w' = calls w ++ cs ∧ Q a cs.

Section Emits.
Context {C F X : Type}.

Lemma emits_quiet {A} (m : M (World C F X) A) (Q : A → list C → Prop) :
  preserves calls m → (∀ a, Q a []) → emits m Q.
Proof.
  intros Hm HQ w a w' E. exists []. rewrite app_nil_r.
  split; [by eapply (preserves_run calls)|done].
Qed.

Lemma emits_recorded {A} c (m : M X A) (Q : A → list C → Prop) :
  (∀ a, Q a [c]) → emits (recorded (F := F) c m) Q.
Proof. intros HQ w a w' E. exists [c]. by rewrite (recorded_calls _ _ _ _ _ E). Qed.

Lemma emits_bind {A B} (m : M (World C F X) A) (k : A → M (World C F X) B) P Q :
  emits m P → (∀ a cs, P a cs → emits (k a) (λ b ds, Q b (cs ++ ds))) → emits (mthen m k) Q.
Proof.
  intros Hm Hk w b w'. unfold mthen. destruct (m w) as [a w1] eqn:E. intros E2.
  destruct (Hm _ _ _ E) as (cs & Hcs & HP). destruct (Hk a cs HP _ _ _ E2) as (ds & Hds & HQ).
  exists (cs ++ ds). by rewrite Hds, Hcs, app_assoc.
Qed.

Lemma emits_ret {A} (a : A) (Q : A → list C → Prop) :
  Q a [] → emits (C := C) (F := F) (X := X) (mret a) Q.
Proof. intros HQ w b w' [= <- <-]. exists []. by rewrite app_nil_r. Qed.

Lemma emits_bind_quiet {A B} (m : M (World C F X) A) (k : A → M (World C F X) B) Q :
  preserves calls m → (∀ a, emits (k a) Q) → emits (mthen m k) Q.
Proof.
  intros Hm Hk. apply (emits_bind m k (λ _ cs, cs = [])); [by apply emits_quiet|].
  intros a cs ->. apply Hk.
Qed.

(** A quiet action afterwards, whose answer is dropped. *)
Lemma emits_then_quiet {A B} (m : M (World C F X) A) (n : M (World C F X) B) Q :
  emits m Q → preserves calls n → emits (a <-- m ;; n ;;; mret a) Q.
Proof.
  intros Hm Hn. eapply emits_bind; [done|]. intros a cs HQ.
  apply emits_bind_quiet; [done|]. intros _. apply emits_ret. by rewrite app_nil_r.
Qed.
End Emits.

(** ** Cooldowns in a world *)

Section Cooldown.
Context {C F X : Type} `{SystemMessages} `{FileSystemLaws F} `{Folders F} `{UnixTime F}.
Context `{Modules X} `{PlatformApi X} `{SessionProbe X}.
Notation W := (World C F X).

(** The data directory does not move, and every reading of the clock is in one
    cooldown window. *)
Context (folder : string) (start : Z).
Context (Hfolder : ∀ f : F, DefaultHostConfigPath f = folder).
Context (Hstart : 0 < start) (Hend : is_i64 (start + kDefaultCooldown)).
Context (Hclock : ∀ f : F, start <= unix_time f < start + kDefaultCooldown).

Definition ledger_at : string := path_append (parent_path folder) "gate-cooldowns.txt".

Lemma data_file_at name (w : W) : data_file name w = path_append (parent_path folder) name.
Proof. unfold data_file. change (DefaultHostConfigPath w) with (DefaultHostConfigPath w.1). by rewrite Hfolder. Qed.

Lemma ledger_path (w : W) : DefaultCooldownLedgerPath w = ledger_at.
Proof. apply data_file_at. Qed.

(** The capability is in its cooldown. *)
Definition cooling (id : string) (w : W) : Prop :=
  closed_until ledger_at id (start + kDefaultCooldown) w.

Lemma cooling_file id (w w' : W) : file ledger_at w' = file ledger_at w → cooling id w → cooling id w'.
Proof. intros E (text & Hf & Hc). exists text. by rewrite E. Qed.

Lemma cooling_files id (w w' : W) : files_of w' = files_of w → cooling id w → cooling id w'.
Proof. intros E. apply cooling_file. exact (f_equal (file ledger_at) E). Qed.

Lemma audit_not_ledger (w : W) : ledger_at ≠ DefaultAuditLogPath w.
Proof. rewrite <- (ledger_path w). by apply data_file_ne. Qed.

(** Probing the audit trail does not end it. *)
Lemma cooling_probe id (w : W) r w' :
  ProbeAuditWritable (DefaultAuditLogPath w) w = (r, w') → cooling id w → cooling id w'.
Proof.
  intros E. apply cooling_file.
  exact (preserves_run (file ledger_at) _ _ _ _ (ProbeAuditWritable_other _ _ (audit_not_ledger w)) E).
Qed.

(** The gate of the ledger that is read then is closed. *)
Lemma cooling_gate id (w : W) :
  cooling id w →
  match ReadCooldownLedger (DefaultCooldownLedgerPath w) w with
  | Success l => EvaluateCooldownGate l id (unix_time w) kDefaultCooldown
  | Failure _ => false
  end = false.
Proof.
  intros Hc. rewrite ledger_path.
  destruct (ReadCooldownLedger ledger_at w) as [l|] eqn:Hr; [|done].
  apply (closed_until_read _ _ _ _ _ _ Hc Hr). apply (Hclock w.1).
Qed.

(** A recorded run starts it, and ends no other. *)
Lemma cooling_recorded id (w w' : W) :
  plain_id id = true →
  RecordCooldownRun (DefaultCooldownLedgerPath w) id (unix_time w) w = (Success tt, w') →
  cooling id w' ∧ ∀ id', cooling id' w → cooling id' w'.
Proof.
  rewrite ledger_path. change (unix_time w) with (unix_time w.1). intros Hid E.
  pose proof (Hclock w.1) as Ht.
  apply (RecordCooldownRun_closed _ _ _ start) in E; [exact E|done| |lia].
  unfold is_i64 in *. lia.
Qed.
End Cooldown.

(** ** A machine *)

(** One on which every query succeeds, for examples. *)
Module Machine.
#[export] Instance quiet : SystemMessages := no_messages.

Section Queries.
Context {X : Type}.

#[export] Instance machine_modules : Modules X | 50 := {|
  GetModuleHandleW _ := mret true; GetProcAddress _ := mret true
|}.
#[export] Instance machine_platform : PlatformApi X | 50 := {|
  RtlGetVersion := mret (0, MkOsVersion 10 0 19045);
  GetSystemPowerStatus := mret (Some 1);
  wProcessorArchitecture := mret 9;
  platform_error _ := 0
|}.
#[export] Instance machine_session : SessionProbe X | 50 :=
  mret (S := X) (Success (MkSessionContext false false SessionLinkState.Active)).
#[export] Instance machine_forms : AgentFormState X | 50 := mret (S := X) "none".
End Queries.

#[export] Instance mem_folders : Folders MemFs := {|
  GetEnvironmentVariableW _ _ := (9, "C:\Users\u"); temp_directory_path _ := "C:\Temp"
|}.
#[export] Instance mem_time : UnixTime MemFs := λ _ : MemFs, 1700000000.

Definition no_capabilities : BuildOptions := Build_BuildOptions false false false false false.
Definition all_capabilities : BuildOptions := Build_BuildOptions true true true true true.
End Machine.
