(* ===== verification/FormCommands.v ===== *)
(** The commands of [source/main.cpp] that make the host resident:
    [--startup] ([RunStartupCommand]), [--scheduled-task]
    ([RunScheduledTaskCommand]), [--service install|uninstall|status] and
    [--agent-form] ([RunAgentFormCommand], [RunAgentFormApply]), which sees to
    it that one form is registered at a time. *)

From S2P Require Import Prelude CommonError Containers Paths Crash AuditLine AuditLog SafetyGates.
From S2P Require Import ConfigTypes Config AgentForms ScheduledTask ServiceHost ServiceControl.
From S2P Require Import Actions World.

Open Scope string_scope.
Open Scope list_scope.
Open Scope Z_scope.

Definition kServiceName : string := "CppOptimizerService".
Definition kServiceDisplayName : string := "CppOptimizer Service".
Definition kServiceDescription : string := "CppOptimizer 只读观测与受控优化宿主（R0 负载）".

Definition HostAutostartCommandLine (exePath : wstring) : wstring :=
  [34] ++ exePath ++ [34] ++ widen " --service console run --tray --ipc-facts".

(** [None]: the call failed or the path does not fit. *)
Definition ResolveExecutablePath {B} `{ModulePath B} : M B (option wstring) :=
  r <-- GetModuleFileNameW MAX_PATH ;;
  let '(written, text) := r in
  mret (if (written =? 0) || (MAX_PATH <=? written) then None
        else Some (take (Z.to_nat written) text)).

Inductive FormVerb := VStatus | VInstall | VRemove.

Definition form_verb (arg : wstring) : option FormVerb :=
  if bool_decide (arg = widen "status") then Some VStatus
  else if bool_decide (arg = widen "install") then Some VInstall
  else if bool_decide (arg = widen "remove") then Some VRemove
  else None.

Section Snapshot.
Context {B : Type} `{StartupEntryBackend B} `{ScheduledTaskBackend B} `{ScmInstallBackend B}.

Definition snapshot_word (installed : option bool) : string :=
  match installed with Some true => "yes" | Some false => "no" | None => "unknown" end.

(** What the three queries answer, [None] for one that fails. *)
Definition query_startup : M B (option bool) :=
  q <-- QueryStartupEntry ;;
  mret (match q with Success v => Some (negb (bool_decide (v = []))) | Failure _ => None end).

Definition query_task : M B (option bool) :=
  q <-- QueryScheduledTask kScheduledTaskName ;;
  mret (match q with Success s => Some (task_installed s) | Failure _ => None end).

Definition query_service : M B (option bool) :=
  q <-- QueryService kServiceName ;;
  mret (match q with Success s => Some (installed s) | Failure _ => None end).

#[export] Instance forms_snapshot : AgentFormState B :=
  startup <-- query_startup ;;
  task <-- query_task ;;
  service <-- query_service ;;
  mret ("startup_tray=" +:+ snapshot_word startup +:+ " task=" +:+ snapshot_word task +:+
        " service=" +:+ snapshot_word service).
End Snapshot.

Section Leaves.
Context {B : Type} `{StartupEntryBackend B} `{ScheduledTaskBackend B} `{ScmInstallBackend B}.
Context `{!ModulePath B} `{SystemMessages} `{FileSystem B} `{Clock B} `{Folders B} `{!UnixTime B}.

(** ** The record of a registration *)

Definition AuditAgentFormAction (form : AgentForm) (install ok : bool) : M B unit :=
  state <-- DescribeAgentFormsSnapshot ;;
  AuditAction (if install then "agent.form_install" else "agent.form_remove") RiskLevel.R1
    (AgentFormToString form) ok
    (if install then "explicit action (install)" else "explicit action (remove)") state ;;;
  mret tt.

Definition audit_writable : M B bool := λ b,
  let '(probed, b') := ProbeAuditWritable (DefaultAuditLogPath b) b in (HasValue probed, b').

Definition journal_intent (install : bool) (target detail : string) : M B unit :=
  JournalAction (if install then "agent.form_install" else "agent.form_remove") target true
    JournalPhase.Before detail ;;;
  mret tt.

(** After a change: the audit record when it was made. *)
Definition registered_as {A} (form : AgentForm) (install : bool) (r : Result A) : M B Z :=
  match r with
  | Failure _ => mret 2
  | Success _ => AuditAgentFormAction form install true ;;; mret 0
  end.

(** ** The startup entry *)

Definition startup_status : M B Z :=
  q <-- QueryStartupEntry ;; mret (if HasValue q then 0 else 2).

Definition startup_install : M B Z :=
  ok <-- audit_writable ;;
  if negb ok then mret 2
  else
    exe <-- ResolveExecutablePath ;;
    match exe with
    | None => mret 2
    | Some exePath =>
        journal_intent true "startup_tray" "intent: install per-user startup entry" ;;;
        r <-- startup_write (HostAutostartCommandLine exePath) ;;
        registered_as AgentForm.StartupTray true r
    end.

Definition startup_uninstall : M B Z :=
  journal_intent false "startup_tray" "intent: remove per-user startup entry" ;;;
  r <-- RemoveStartupEntry ;;
  registered_as AgentForm.StartupTray false r.

(** [args] follow the command. *)
Definition RunStartupCommand (args : list wstring) : M B Z :=
  match args with
  | [] => mret 2
  | verb :: _ =>
      match form_verb verb with
      | Some VStatus => startup_status
      | Some VInstall => startup_install
      | Some VRemove => startup_uninstall
      | None => mret 2
      end
  end.

(** ** The scheduled task *)

Definition task_status (name : wstring) : M B Z :=
  q <-- QueryScheduledTask name ;; mret (if HasValue q then 0 else 2).

Definition task_install (name : wstring) : M B Z :=
  ok <-- audit_writable ;;
  if negb ok then mret 2
  else
    exe <-- ResolveExecutablePath ;;
    match exe with
    | None => mret 2
    | Some exePath =>
        journal_intent true "task" "intent: install scheduled task" ;;;
        r <-- InstallScheduledTask (MkTaskSpec name (HostAutostartCommandLine exePath) OnLogon) ;;
        registered_as AgentForm.ScheduledTask true r
    end.

Definition task_uninstall (name : wstring) : M B Z :=
  ok <-- audit_writable ;;
  if negb ok then mret 2
  else
    journal_intent false "task" "intent: remove scheduled task" ;;;
    r <-- RemoveScheduledTask name ;;
    registered_as AgentForm.ScheduledTask false r.

Definition RunScheduledTaskCommand (args : list wstring) : M B Z :=
  match args with
  | [] => mret 2
  | verb :: rest =>
      let name := match rest with n :: _ => n | [] => kScheduledTaskName end in
      match form_verb verb with
      | Some VStatus => task_status name
      | Some VInstall => task_install name
      | Some VRemove => task_uninstall name
      | None => mret 2
      end
  end.

(** ** The service *)

(** A ledger that cannot be read does not hold an installation up. *)
Definition registration_cooled : M B bool := λ b,
  (match ReadCooldownLedger (DefaultCooldownLedgerPath b) b with
   | Success l => EvaluateCooldownGate l kServiceRegistrationCapabilityId (unix_time b)
                    kDefaultCooldown
   | Failure _ => true
   end, b).

Definition service_identity (executable : option string) : ServiceIdentity :=
  MkIdentity kServiceName kServiceDisplayName kServiceDescription (default "" executable).

Definition record_registration : M B unit := λ b,
  let '(_, b') := RecordCooldownRun (DefaultCooldownLedgerPath b) kServiceRegistrationCapabilityId
                    (unix_time b) b in (tt, b').

Definition RunServiceInstallCommand (executable : option string) : M B Z :=
  ok <-- audit_writable ;;
  if negb ok then mret 2
  else
    cooled <-- registration_cooled ;;
    if negb cooled then mret 2
    else
      journal_intent true "service" "intent: install SCM service (needs admin)" ;;;
      r <-- InstallService (service_identity executable) ;;
      match r with
      | Failure _ => mret 2
      | Success _ =>
          AuditAgentFormAction AgentForm.Service true true ;;;
          record_registration ;;;
          mret 0
      end.

Definition RunServiceUninstallCommand : M B Z :=
  ok <-- audit_writable ;;
  if negb ok then mret 2
  else
    journal_intent false "service" "intent: uninstall SCM service (needs admin)" ;;;
    r <-- UninstallService kServiceName ;;
    registered_as AgentForm.Service false r.

Definition RunServiceStatusCommand : M B Z :=
  q <-- QueryService kServiceName ;; mret (if HasValue q then 0 else 2).

(** ** One form at a time *)

Definition RunAgentFormAction (target : AgentForm) (install : bool) : M B Z :=
  let verb := widen (if install then "install" else "remove") in
  match target with
  | AgentForm.Service =>
      if install then RunServiceInstallCommand None else RunServiceUninstallCommand
  | AgentForm.StartupTray => RunStartupCommand [verb]
  | AgentForm.ScheduledTask => RunScheduledTaskCommand [verb]
  end.

(** The three flags; a query that fails counts as not installed. *)
Definition query_forms : M B (bool * bool * bool) :=
  startup <-- query_startup ;;
  task <-- query_task ;;
  service <-- query_service ;;
  mret (default false startup, default false task, default false service).

(** One after the other, up to the first that fails. *)
Fixpoint run_actions (actions : list AgentFormAction) : M B Z :=
  match actions with
  | [] => mret 0
  | a :: rest =>
      result <-- RunAgentFormAction (action_form a) (action_install a) ;;
      if negb (result =? 0) then mret result else run_actions rest
  end.

(** The configuration path and [--dry-run]. *)
Fixpoint apply_arguments (args : list wstring) (config : option wstring) (dryRun : bool)
  : option (option wstring * bool) :=
  match args with
  | [] => Some (config, dryRun)
  | arg :: args' =>
      if bool_decide (arg = widen "--dry-run") then apply_arguments args' config true
      else match config with
           | Some _ => None
           | None => apply_arguments args' (Some arg) dryRun
           end
  end.

Context {Node : Type} `{Toml Node} `{TomlFiles B Node}.

Definition declared_form (path_of : wstring → string) (config : option wstring) (b : B)
  : option string :=
  match config with
  | None => Some "startup_tray"
  | Some path =>
      match LoadConfig (path_of path) b with
      | Failure _ => None
      | Success s => Some (agent_form (agent s))
      end
  end.

(** [args] follow [apply]. *)
Definition RunAgentFormApply (path_of : wstring → string) (args : list wstring) : M B Z := λ b,
  match apply_arguments args None false with
  | None => (2, b)
  | Some (config, dryRun) =>
      match declared_form path_of config b with
      | None => (2, b)
      | Some declared =>
          match ParseAgentForm (widen declared) with
          | None => (2, b)
          | Some form =>
              (flags <-- query_forms ;;
               let '(startup, task, service) := flags in
               let actions := ResolveFormApplyActions form startup task service in
               if dryRun : bool then mret 0 else run_actions actions) b
          end
      end
  end.

(** The options after the form; [None] for an unknown one. *)
Fixpoint replace_option (args : list wstring) (replace : bool) : option bool :=
  match args with
  | [] => Some replace
  | arg :: args' =>
      if bool_decide (arg = widen "--replace") then replace_option args' true else None
  end.

Definition install_form (form : AgentForm) (replace : bool) : M B Z :=
  flags <-- query_forms ;;
  let '(startup, task, service) := flags in
  let conflicts := ConflictingAgentForms form startup task service in
  if negb (bool_decide (conflicts = [])) && negb replace then mret 2
  else
    run_actions (MkAction form true :: map (λ c, MkAction c false) conflicts).

Definition form_status (path_of : wstring → string) (config : option wstring) : M B Z := λ b,
  match match config with None => Some "" | Some _ => declared_form path_of config b end with
  | None => (2, b)
  | Some _ => (query_forms ;;; mret 0) b
  end.

(** [args] follow the command. *)
Definition RunAgentFormCommand (path_of : wstring → string) (args : list wstring) : M B Z :=
  match args with
  | [] => mret 2
  | action :: rest =>
      if bool_decide (action = widen "apply") then RunAgentFormApply path_of rest
      else
        match form_verb action with
        | None => mret 2
        | Some VStatus => form_status path_of (head rest)
        | Some verb =>
            match rest with
            | [] => mret 2
            | name :: options =>
                match replace_option options false with
                | None => mret 2
                | Some replace =>
                    match ParseAgentForm name with
                    | None => mret 2
                    | Some form =>
                        match verb with
                        | VInstall => install_form form replace
                        | _ => RunAgentFormAction form false
                        end
                    end
                end
            end
        end
  end.
End Leaves.

(** ** Facts *)

(** The calls that change what is registered. *)
Inductive FormCall :=
  | WriteEntry | RemoveEntry
  | CreateTask (name : wstring) | RemoveTask (name : wstring)
  | CreateScm (name : string) | DeleteScm (name : string).

#[export] Instance world_startup {F X} `{StartupEntryBackend X} :
    StartupEntryBackend (World FormCall F X) := {|
  startup_read := quietly startup_read;
  startup_write c := recorded WriteEntry (startup_write c);
  startup_remove := recorded RemoveEntry startup_remove
|}.
#[export] Instance world_tasks {F X} `{ScheduledTaskBackend X} :
    ScheduledTaskBackend (World FormCall F X) := {|
  task_read n := quietly (task_read n);
  task_create s := recorded (CreateTask (taskName s)) (task_create s);
  task_remove n := recorded (RemoveTask n) (task_remove n)
|}.
#[export] Instance world_scm {F X} `{ScmInstallBackend X} :
    ScmInstallBackend (World FormCall F X) := {|
  scm_create i := recorded (CreateScm (svc_name i)) (scm_create i);
  scm_delete n := recorded (DeleteScm n) (scm_delete n);
  scm_query n := quietly (scm_query n)
|}.
#[export] Instance world_path {F X} `{ModulePath X} : ModulePath (World FormCall F X) :=
  λ n, quietly (GetModuleFileNameW n).

(** Which forms are registered: what is written, created, removed or deleted
    successfully is so afterwards, a failure changes nothing, and an answer to a
    query is right. *)
Class FormsLaws (X : Type) `{StartupEntryBackend X, ScheduledTaskBackend X, ScmInstallBackend X,
    ModulePath X} := {
  forms : X → Installed;
  path_forms n : preserves forms (GetModuleFileNameW n);
  read_startup x r x' : startup_read x = (r, x') → forms x' = forms x ∧
    ∀ v, r = Success v → is_installed (forms x) AgentForm.StartupTray = negb (bool_decide (v = []));
  write_startup c x r x' : c ≠ [] → startup_write c x = (r, x') →
    forms x' = if HasValue r then act (forms x) (MkAction AgentForm.StartupTray true) else forms x;
  remove_startup x r x' : startup_remove x = (r, x') →
    forms x' = if HasValue r then act (forms x) (MkAction AgentForm.StartupTray false) else forms x;
  read_task x r x' : task_read kScheduledTaskName x = (r, x') → forms x' = forms x ∧
    ∀ s, r = Success s → is_installed (forms x) AgentForm.ScheduledTask = task_installed s;
  create_task_forms s x r x' : taskName s = kScheduledTaskName → task_create s x = (r, x') →
    forms x' = if HasValue r then act (forms x) (MkAction AgentForm.ScheduledTask true) else forms x;
  remove_task_forms x r x' : task_remove kScheduledTaskName x = (r, x') →
    forms x' = if HasValue r then act (forms x) (MkAction AgentForm.ScheduledTask false) else forms x;
  read_scm x r x' : scm_query kServiceName x = (r, x') → forms x' = forms x ∧
    ∀ s, r = Success s → is_installed (forms x) AgentForm.Service = installed s;
  create_scm i x r x' : svc_name i = kServiceName → scm_create i x = (r, x') →
    forms x' = if HasValue r then act (forms x) (MkAction AgentForm.Service true) else forms x;
  delete_scm x r x' : scm_delete kServiceName x = (r, x') →
    forms x' = if HasValue r then act (forms x) (MkAction AgentForm.Service false) else forms x
}.

Section FormTheorems.
Context {F X : Type} `{FormsLaws X} `{SystemMessages} `{FileSystem F} `{Clock F} `{Folders F}.
Context `{UnixTime F} {Node : Type} `{Toml Node} `{TomlFiles F Node}.
Notation W := (World FormCall F X).

Definition forms_in : W → Installed := beside (λ p, forms p.2).

(** What a call of the system does to the forms, it does in the world. *)
Lemma quietly_forms {A} (m : M X A) : preserves forms m → preserves forms_in (quietly (F := F) m).
Proof.
  intros Hm (f & t & x). cbn. specialize (Hm x). unfold forms_in, beside.
  by destruct (m x).
Qed.

Lemma quietly_inv {A} (m : M X A) (w w' : W) a :
  quietly m w = (a, w') → ∃ x', m w.2.2 = (a, x') ∧ forms_in w' = forms x'.
Proof.
  destruct w as (f & t & x). cbn. destruct (m x) as [b x'] eqn:E. intros [= <- <-]. by exists x'.
Qed.

Lemma recorded_inv {A} c (m : M X A) (w w' : W) a :
  recorded c m w = (a, w') → ∃ x', m w.2.2 = (a, x') ∧ forms_in w' = forms x'.
Proof.
  destruct w as (f & t & x). cbn. destruct (m x) as [b x'] eqn:E. intros [= <- <-]. by exists x'.
Qed.

Lemma query_startup_spec (w w' : W) a :
  query_startup w = (a, w') →
  forms_in w' = forms_in w ∧
  ∀ b, a = Some b → b = is_installed (forms_in w) AgentForm.StartupTray.
Proof.
  unfold query_startup, QueryStartupEntry, mthen, mret.
  destruct (startup_read w) as [r w1] eqn:E. intros [= <- <-].
  apply quietly_inv in E as (x' & E & ->). apply read_startup in E as [-> E]. split; [done|].
  destruct r as [v|]; [|done]. intros b [= <-]. by rewrite <- (E v eq_refl).
Qed.

Lemma query_task_spec (w w' : W) a :
  query_task w = (a, w') →
  forms_in w' = forms_in w ∧
  ∀ b, a = Some b → b = is_installed (forms_in w) AgentForm.ScheduledTask.
Proof.
  unfold query_task, mthen, mret. change (QueryScheduledTask kScheduledTaskName w)
    with (task_read kScheduledTaskName w).
  destruct (task_read kScheduledTaskName w) as [r w1] eqn:E. intros [= <- <-].
  apply quietly_inv in E as (x' & E & ->). apply read_task in E as [-> E]. split; [done|].
  destruct r as [s|]; [|done]. intros b [= <-]. by rewrite <- (E s eq_refl).
Qed.

Lemma query_service_spec (w w' : W) a :
  query_service w = (a, w') →
  forms_in w' = forms_in w ∧
  ∀ b, a = Some b → b = is_installed (forms_in w) AgentForm.Service.
Proof.
  unfold query_service, mthen, mret. change (QueryService kServiceName w)
    with (scm_query kServiceName w).
  destruct (scm_query kServiceName w) as [r w1] eqn:E. intros [= <- <-].
  apply quietly_inv in E as (x' & E & ->). apply read_scm in E as [-> E]. split; [done|].
  destruct r as [s|]; [|done]. intros b [= <-]. by rewrite <- (E s eq_refl).
Qed.

(** The three queries a command that begins in [w] makes, one after the other,
    all answer. *)
Definition answered (w : W) : Prop :=
  let '(startup, w1) := query_startup w in
  let '(task, w2) := query_task w1 in
  let '(service, _) := query_service w2 in
  is_Some startup ∧ is_Some task ∧ is_Some service.

(** A form the flags show is registered; if the queries answer they show all. *)
Lemma query_forms_spec (w w' : W) flags :
  query_forms w = (flags, w') →
  forms_in w' = forms_in w ∧
  (∀ f, is_installed flags f = true → is_installed (forms_in w) f = true) ∧
  (answered w → flags = forms_in w).
Proof.
  unfold query_forms, answered, mthen, mret.
  destruct (query_startup w) as [a w1] eqn:Ea. destruct (query_task w1) as [b w2] eqn:Eb.
  destruct (query_service w2) as [c w3] eqn:Ec. intros [= <- <-].
  pose proof (query_startup_spec _ _ _ Ea) as [Hq1 Ha].
  pose proof (query_task_spec _ _ _ Eb) as [Hq2 Hb].
  pose proof (query_service_spec _ _ _ Ec) as [Hq3 Hc]. rewrite Hq1 in Hb, Hq2. rewrite Hq2 in Hc, Hq3.
  split; [done|]. split.
  - intros []; cbn; [destruct a as [[]|]|destruct b as [[]|]|destruct c as [[]|]]; try done;
      intros _; symmetry; auto.
  - intros ([a' ->] & [b' ->] & [c' ->]). cbn.
    rewrite (Ha a'), (Hb b'), (Hc c') by done. by destruct (forms_in w) as [[[] []] []].
Qed.

Lemma snapshot_forms : preserves forms_in (forms_snapshot (B := W)).
Proof.
  intros w. unfold forms_snapshot, mthen, mret.
  destruct (query_startup w) as [a w1] eqn:Ea. destruct (query_task w1) as [b w2] eqn:Eb.
  destruct (query_service w2) as [c w3] eqn:Ec. cbn [snd].
  apply query_startup_spec in Ea as [Ha _]. apply query_task_spec in Eb as [Hb _].
  apply query_service_spec in Ec as [Hc _]. by rewrite Hc, Hb, Ha.
Qed.

Lemma journal_intent_forms install target detail :
  preserves forms_in (journal_intent install target detail).
Proof.
  apply preserves_bind; [apply (JournalAction_beside (λ p, forms p.2))|]. done.
Qed.

Lemma audit_writable_forms : preserves forms_in audit_writable.
Proof.
  intros w. unfold audit_writable.
  pose proof (ProbeAuditWritable_beside (λ p : list FormCall * X, forms p.2)
                (DefaultAuditLogPath w) w) as Hp.
  by destruct (ProbeAuditWritable _ w).
Qed.

Lemma AuditAgentFormAction_forms form install ok :
  preserves forms_in (AuditAgentFormAction form install ok).
Proof.
  apply preserves_bind; [apply snapshot_forms|]. intros state.
  apply preserves_bind; [|done]. unfold AuditAction.
  apply preserves_bind; [apply (AppendAudit_beside (λ p, forms p.2))|]. intros recorded.
  apply preserves_bind; [apply (JournalAction_beside (λ p, forms p.2))|]. intros _.
  apply preserves_bind; [destruct (string_empty state); [apply snapshot_forms|done]|]. intros s.
  apply preserves_bind; [apply (JournalAction_beside (λ p, forms p.2))|]. done.
Qed.

Lemma ResolveExecutablePath_forms : preserves forms_in (ResolveExecutablePath (B := W)).
Proof.
  apply preserves_bind; [apply quietly_forms, path_forms|]. by intros [written text].
Qed.

(** The code of a leaf that ends in a change [r] of one form. *)
Lemma registered_as_spec {A} form install (r : Result A) (w w' : W) code :
  registered_as form install r w = (code, w') →
  forms_in w' = forms_in w ∧ code = if HasValue r then 0 else 2.
Proof.
  destruct r as [a|e]; cbn [registered_as HasValue]; [|by intros [= <- <-]].
  unfold mthen, mret. pose proof (AuditAgentFormAction_forms form install true w) as Ha.
  destruct (AuditAgentFormAction form install true w) as [u w1]. by intros [= <- <-].
Qed.

(** A leaf either leaves the forms alone and fails, or does what it is for. *)
Definition leaf (form : AgentForm) (install : bool) (m : M W Z) : Prop :=
  ∀ w code w', m w = (code, w') →
    forms_in w' = if code =? 0 then act (forms_in w) (MkAction form install) else forms_in w.

Lemma leaf_refused form install : leaf form install (mret 2).
Proof. by intros w code w' [= <- <-]. Qed.

Lemma leaf_after {A} form install (m : M W A) (k : A → M W Z) :
  preserves forms_in m → (∀ a, leaf form install (k a)) → leaf form install (mthen m k).
Proof.
  intros Hm Hk w code w'. unfold mthen. specialize (Hm w). destruct (m w) as [a w1]. cbn in Hm.
  intros E%Hk. by rewrite Hm in E.
Qed.

Lemma leaf_change {A} form install (m : M W (Result A)) :
  (∀ w r w', m w = (r, w') →
     forms_in w' = if HasValue r then act (forms_in w) (MkAction form install) else forms_in w) →
  leaf form install (mthen m (registered_as form install)).
Proof.
  intros Hm w code w'. unfold mthen. destruct (m w) as [r w1] eqn:E. apply Hm in E.
  intros [-> ->]%registered_as_spec. rewrite E. by destruct r.
Qed.

Lemma startup_leaf install :
  leaf AgentForm.StartupTray install
    (RunAgentFormAction AgentForm.StartupTray install).
Proof.
  destruct install.
  - change (RunAgentFormAction (B := W) AgentForm.StartupTray true)
      with (startup_install (B := W)). unfold startup_install.
    apply leaf_after; [apply audit_writable_forms|]. intros ok.
    destruct (negb ok); [apply leaf_refused|].
    apply leaf_after; [apply ResolveExecutablePath_forms|]. intros [exe|]; [|apply leaf_refused].
    apply leaf_after; [apply journal_intent_forms|]. intros _. apply leaf_change.
    intros w r w' (x' & E & ->)%recorded_inv. by apply write_startup in E.
  - change (RunAgentFormAction (B := W) AgentForm.StartupTray false)
      with (startup_uninstall (B := W)). unfold startup_uninstall.
    apply leaf_after; [apply journal_intent_forms|]. intros _. apply leaf_change.
    intros w r w' (x' & E & ->)%recorded_inv. by apply remove_startup in E.
Qed.

Lemma task_leaf install :
  leaf AgentForm.ScheduledTask install
    (RunAgentFormAction AgentForm.ScheduledTask install).
Proof.
  destruct install.
  - change (RunAgentFormAction (B := W) AgentForm.ScheduledTask true)
      with (task_install (B := W) kScheduledTaskName). unfold task_install.
    apply leaf_after; [apply audit_writable_forms|]. intros ok.
    destruct (negb ok); [apply leaf_refused|].
    apply leaf_after; [apply ResolveExecutablePath_forms|]. intros [exe|]; [|apply leaf_refused].
    apply leaf_after; [apply journal_intent_forms|]. intros _. apply leaf_change.
    intros w r w' E. change (recorded (CreateTask kScheduledTaskName)
      (task_create (MkTaskSpec kScheduledTaskName (HostAutostartCommandLine exe) OnLogon)) w
      = (r, w')) in E.
    apply recorded_inv in E as (x' & E & ->). by apply create_task_forms in E.
  - change (RunAgentFormAction (B := W) AgentForm.ScheduledTask false)
      with (task_uninstall (B := W) kScheduledTaskName). unfold task_uninstall.
    apply leaf_after; [apply audit_writable_forms|]. intros ok.
    destruct (negb ok); [apply leaf_refused|].
    apply leaf_after; [apply journal_intent_forms|]. intros _. apply leaf_change.
    intros w r w' E. change (recorded (RemoveTask kScheduledTaskName)
      (task_remove kScheduledTaskName) w = (r, w')) in E.
    apply recorded_inv in E as (x' & E & ->). by apply remove_task_forms in E.
Qed.

Lemma record_registration_forms : preserves forms_in record_registration.
Proof.
  intros w. unfold record_registration.
  pose proof (RecordCooldownRun_beside (λ p : list FormCall * X, forms p.2)
    (DefaultCooldownLedgerPath w) kServiceRegistrationCapabilityId (unix_time w) w) as Hp.
  by destruct (RecordCooldownRun _ _ _ w).
Qed.

Lemma service_leaf install :
  leaf AgentForm.Service install (RunAgentFormAction AgentForm.Service install).
Proof.
  destruct install; cbn [RunAgentFormAction].
  - unfold RunServiceInstallCommand.
    apply leaf_after; [apply audit_writable_forms|]. intros ok.
    destruct (negb ok); [apply leaf_refused|].
    apply leaf_after; [done|]. intros cooled. destruct (negb cooled); [apply leaf_refused|].
    apply leaf_after; [apply journal_intent_forms|]. intros _ w code w'.
    change (InstallService (service_identity None))
      with (recorded (F := F) (CreateScm kServiceName) (scm_create (service_identity None))).
    unfold mthen at 1. destruct (recorded _ _ w) as [r w1] eqn:E.
    apply recorded_inv in E as (x' & E & Hw1). apply create_scm in E; [|done].
    rewrite E in Hw1. destruct r as [u|e]; [|by intros [= <- <-]]. unfold mthen, mret.
    pose proof (AuditAgentFormAction_forms AgentForm.Service true true w1) as Ha.
    destruct (AuditAgentFormAction _ _ _ w1) as [u1 w2].
    pose proof (record_registration_forms w2) as Hr.
    destruct (record_registration w2) as [u2 w3]. cbn in Ha, Hr. intros [= <- <-].
    by rewrite Hr, Ha, Hw1.
  - unfold RunServiceUninstallCommand.
    apply leaf_after; [apply audit_writable_forms|]. intros ok.
    destruct (negb ok); [apply leaf_refused|].
    apply leaf_after; [apply journal_intent_forms|]. intros _. apply leaf_change.
    intros w r w' E. change (recorded (DeleteScm kServiceName) (scm_delete kServiceName) w
      = (r, w')) in E.
    apply recorded_inv in E as (x' & E & ->). by apply delete_scm in E.
Qed.

Lemma action_leaf form install : leaf form install (RunAgentFormAction form install).
Proof. destruct form; [apply startup_leaf|apply task_leaf|apply service_leaf]. Qed.

(** A run of actions does some of them, from the first on, and all on success. *)
Lemma run_actions_spec actions (w w' : W) code :
  run_actions actions w = (code, w') →
  ∃ n, (n <= length actions)%nat ∧ forms_in w' = foldl act (forms_in w) (take n actions) ∧
       (code = 0 → n = length actions).
Proof.
  revert w. induction actions as [|[f i] rest IH]; intros w; cbn [run_actions].
  { intros [= <- <-]. by exists O. }
  unfold mthen. destruct (RunAgentFormAction _ _ w) as [result w1] eqn:E.
  apply action_leaf in E. destruct (Z.eqb_spec result 0) as [->|Hne]; cbn [negb].
  - intros (n & Hn & Hf & Hc)%IH. exists (S n). cbn [length take foldl].
    split; [lia|]. rewrite Hf, E. split; [done|]. intros ?. by rewrite Hc.
  - intros [= <- <-]. exists O. split; [lia|]. by split.
Qed.
(** ** Plans *)

Definition some_form (i : Installed) : Prop := ∃ g, is_installed i g = true.

(** Installing a form and then removing what conflicts with it, broken off at any
    point: if a form was registered, one still is. When all is done the form is
    registered, alone if what conflicts was known. *)
Lemma install_plan f (flags i : Installed) n :
  let '(s, t, v) := flags in
  let plan := MkAction f true :: map (λ c, MkAction c false) (ConflictingAgentForms f s t v) in
  (n <= length plan)%nat →
  (some_form i → some_form (foldl act i (take n plan))) ∧
  (n = length plan → is_installed (foldl act i (take n plan)) f = true ∧
                     (flags = i → foldl act i (take n plan) = only f)).
Proof.
  destruct flags as [[s t] v]. destruct f, s, t, v, i as [[[] []] []]; cbn;
    destruct n as [|[|[|[|n]]]]; cbn; intros Hn; try lia;
    (split; [first [by intros _; exists AgentForm.StartupTray
                   |by intros _; exists AgentForm.ScheduledTask
                   |by intros _; exists AgentForm.Service|by intros [[] ?]]
            |first [by intros [=] |intros _; split; [done|first [by intros [=] |done]]]]).
Qed.

Lemma apply_plan f (flags i : Installed) n :
  let '(s, t, v) := flags in
  let plan := ResolveFormApplyActions f s t v in
  (∀ g, is_installed flags g = true → is_installed i g = true) → (n <= length plan)%nat →
  (some_form i → some_form (foldl act i (take n plan))) ∧
  (n = length plan → is_installed (foldl act i (take n plan)) f = true).
Proof.
  destruct flags as [[s t] v]. cbv zeta. intros Hsub.
  pose proof (Hsub AgentForm.StartupTray) as H1'. pose proof (Hsub AgentForm.ScheduledTask) as H2'.
  pose proof (Hsub AgentForm.Service) as H3'. clear Hsub. revert H1' H2' H3'.
  destruct f, s, t, v, i as [[[] []] []]; cbn; intros H1' H2' H3';
    try (discriminate (H1' eq_refl)); try (discriminate (H2' eq_refl));
    try (discriminate (H3' eq_refl)); clear H1' H2' H3';
    destruct n as [|[|[|[|n]]]]; cbn; intros Hn; try lia;
    (split; [first [by intros _; exists AgentForm.StartupTray
                   |by intros _; exists AgentForm.ScheduledTask
                   |by intros _; exists AgentForm.Service|by intros [[] ?]]
            |by first [intros [=] |intros _]]).
Qed.

Lemma query_forms_calls : preserves (@calls FormCall F X) query_forms.
Proof. unfold query_forms, query_startup, query_task, query_service. frame. Qed.

(** C24. [--agent-form install]: on success the form is registered, and, if the
    three queries the run begins with answered, it is the only one. Whatever
    fails, on the way or from the start, a user who had a form registered still
    has one. Without [--replace] no other form is removed; if the three queries
    answered and another form is registered, the command is then refused, makes
    no change to the system and leaves the forms as they were. *)
Theorem form_install_exclusive path_of name options f (w w' : W) code :
  ParseAgentForm name = Some f →
  RunAgentFormCommand path_of (widen "install" :: name :: options) w = (code, w') →
  (code = 0 → is_installed (forms_in w') f = true) ∧
  (answered w → code = 0 → forms_in w' = only f) ∧
  (some_form (forms_in w) → some_form (forms_in w')) ∧
  (options = [] →
     forms_in w' = forms_in w ∨ forms_in w' = act (forms_in w) (MkAction f true)) ∧
  (options = [] → answered w → (∃ g, g ≠ f ∧ is_installed (forms_in w) g = true) →
     code ≠ 0 ∧ calls w' = calls w ∧ forms_in w' = forms_in w).
Proof.
  intros Hf.
  assert (RunAgentFormCommand path_of (widen "install" :: name :: options) w =
          match replace_option options false with
          | None => mret 2 w
          | Some replace => install_form f replace w
          end) as ->.
  { unfold RunAgentFormCommand.
    change (bool_decide (widen "install" = widen "apply")) with false.
    change (form_verb (widen "install")) with (Some VInstall). cbv beta iota.
    destruct (replace_option options false); [|done]. by rewrite Hf. }
  destruct (replace_option options false) as [replace|] eqn:Eo.
  2:{ intros [= <- <-]. split_and!; try done; by auto. }
  unfold install_form, mthen. destruct (query_forms w) as [[[s t] v] w1] eqn:Eq.
  pose proof (preserves_run calls _ _ _ _ query_forms_calls Eq) as Hcalls.
  apply query_forms_spec in Eq as (Hw1 & Hsub & Hread).
  set (conflicts := ConflictingAgentForms f s t v).
  destruct (negb (bool_decide (conflicts = [])) && negb replace) eqn:Eb.
  { unfold mret. intros [= <- <-]. rewrite Hw1, Hcalls. split_and!; try done; by auto. }
  intros (n & Hn & Hfin & Hc)%run_actions_spec. rewrite Hw1 in Hfin.
  pose proof (install_plan f (s, t, v) (forms_in w) n) as Hplan. cbv zeta in Hplan.
  specialize (Hplan Hn) as [Hsome Hall]. fold conflicts in Hsome, Hall.
  rewrite <- Hfin in Hsome, Hall.
  split_and!.
  - intros Hz. by apply Hall, Hc.
  - intros Hr Hz. apply Hall; auto.
  - exact Hsome.
  - intros ->. injection Eo as <-. rewrite andb_true_r in Eb.
    apply negb_false_iff, bool_decide_eq_true in Eb. rewrite Eb in *. rewrite Hfin.
    destruct n as [|n]; [by left|right]. cbn in Hn |- *. by rewrite take_nil.
  - intros -> Hr (g & Hg & Hi). exfalso. injection Eo as <-. rewrite andb_true_r in Eb.
    apply negb_false_iff, bool_decide_eq_true in Eb. rewrite <- (Hread Hr) in Hi.
    unfold conflicts in Eb. by destruct f, g, s, t, v.
Qed.

(** C30. [--agent-form apply], once it has read a declared form: on success (and
    not as a dry run) the form is registered, and, if the three queries the run
    begins with answered, it is the only one. If they answered and the declared
    form alone is registered already, the command succeeds and makes no change to
    the system, as a dry run never does; and broken off anywhere, it does not
    leave a user without a form who had one. *)
Theorem form_apply_converges path_of args config dryRun declared form (w w' : W) code :
  apply_arguments args None false = Some (config, dryRun) →
  declared_form path_of config w = Some declared →
  ParseAgentForm (widen declared) = Some form →
  RunAgentFormCommand path_of (widen "apply" :: args) w = (code, w') →
  (dryRun = true → calls w' = calls w ∧ forms_in w' = forms_in w) ∧
  (dryRun = false → code = 0 → is_installed (forms_in w') form = true) ∧
  (dryRun = false → answered w → code = 0 → forms_in w' = only form) ∧
  (answered w → forms_in w = only form → code = 0 ∧ calls w' = calls w) ∧
  (some_form (forms_in w) → some_form (forms_in w')).
Proof.
  intros Ha Hd Hf.
  change (RunAgentFormCommand path_of (widen "apply" :: args) w)
    with (RunAgentFormApply path_of args w).
  unfold RunAgentFormApply. rewrite Ha, Hd, Hf. unfold mthen.
  destruct (query_forms w) as [[[s t] v] w1] eqn:Eq.
  pose proof (preserves_run calls _ _ _ _ query_forms_calls Eq) as Hcalls.
  apply query_forms_spec in Eq as (Hw1 & Hsub & Hread).
  destruct dryRun.
  { unfold mret. intros [= <- <-]. rewrite Hw1, Hcalls. split_and!; try done; by auto. }
  intros E. pose proof (ResolveFormApplyActions_plan form s t v) as (Hp1 & Hp2 & _).
  assert (Hnone : answered w → forms_in w = only form → code = 0 ∧ calls w' = calls w).
  { intros Hr Ho. rewrite <- (Hread Hr) in Ho. apply Hp2 in Ho. rewrite Ho in E.
    cbn in E. injection E as <- <-. by rewrite Hcalls. }
  apply run_actions_spec in E as (n & Hn & Hfin & Hc). rewrite Hw1 in Hfin.
  pose proof (apply_plan form (s, t, v) (forms_in w) n) as Hplan. cbv zeta in Hplan.
  specialize (Hplan Hsub Hn) as [Hsome Hall]. rewrite <- Hfin in Hsome, Hall.
  split_and!; [done|by auto| |done|done].
  intros _ Hr Hz. rewrite Hfin, (Hc Hz), firstn_all, <- (Hread Hr). exact Hp1.
Qed.
End FormTheorems.

(** ** A desktop *)

Module Desktop.
Import Machine.

(** The Run value, the task and the service; whether the registry can be read,
    and whether changes are let through. *)
Record Sys := MkSys { run : wstring; task : bool; service : bool; reads : bool; writes : bool }.

Definition denied : Error := MkError ErrorDomain.Win32 5 "denied" "".

Definition change (f : Sys → Sys) : M Sys (Result unit) := λ s,
  if writes s then (Success tt, f s) else (Failure denied, s).

#[local] Instance sys_startup : StartupEntryBackend Sys := {|
  startup_read s := (if reads s then Success (run s) else Failure denied, s);
  startup_write c := change (λ s, MkSys c (task s) (service s) (reads s) (writes s));
  startup_remove := change (λ s, MkSys [] (task s) (service s) (reads s) (writes s))
|}.
#[local] Instance sys_tasks : ScheduledTaskBackend Sys := {|
  task_read _ s := (Success (MkTaskStatus (task s) [] []), s);
  task_create _ := change (λ s, MkSys (run s) true (service s) (reads s) (writes s));
  task_remove _ := change (λ s, MkSys (run s) false (service s) (reads s) (writes s))
|}.
#[local] Instance sys_scm : ScmInstallBackend Sys := {|
  scm_create _ := change (λ s, MkSys (run s) (task s) true (reads s) (writes s));
  scm_delete _ := change (λ s, MkSys (run s) (task s) false (reads s) (writes s));
  scm_query _ s := (Success (MkInstallStatus (service s) ServiceState.Unknown false false), s)
|}.
#[local] Instance sys_path : ModulePath Sys := λ _, mret (5, widen "C:\a.").

Definition shown (s : Sys) : Installed := (negb (bool_decide (run s = [])), task s, service s).

#[local] Ltac by_change :=
  intros; match goal with E : _ ?s = (_, _) |- _ =>
    revert E; cbn [startup_write startup_remove task_create task_remove scm_create scm_delete
                   sys_startup sys_tasks sys_scm]; unfold change; destruct (writes s)
  end; intros [= <- <-]; unfold shown; cbn; rewrite ?bool_decide_eq_false_2 by done; done.

#[local] Instance sys_laws : FormsLaws Sys.
Proof.
  refine {| forms := shown |}.
  - done.
  - intros s r s' [= <- <-]. split; [done|]. destruct s as [? ? ? [] ?]; [|done].
    by intros v [= <-].
  - by_change.
  - by_change.
  - intros s r s' [= <- <-]. split; [done|]. by intros v [= <-].
  - by_change.
  - by_change.
  - intros s r s' [= <- <-]. split; [done|]. by intros v [= <-].
  - by_change.
  - by_change.
Defined.

#[local] Instance desk_documents : TomlFiles MemFs tree := λ _ _, inl
  [("agent", TTable [("form", TString "task")])].

Definition with_tray (reads writes : bool) : World FormCall MemFs Sys :=
  (empty_fs, ([], MkSys (widen "C:\host.exe") false false reads writes)).

Definition run_form (args : list wstring) (w : World FormCall MemFs Sys) :
    Z * World FormCall MemFs Sys := RunAgentFormCommand (Node := tree) (λ _, "agent.toml") args w.

(** [--agent-form install task --replace] over the tray, whose queries answer:
    the task alone is registered. Without [--replace] it is refused. *)
Example form_install_exclusive_witness :
  let r := run_form [widen "install"; widen "task"; widen "--replace"] (with_tray true true) in
  let q := run_form [widen "install"; widen "task"] (with_tray true true) in
  (r.1 = 0 ∧ forms_in r.2 = only AgentForm.ScheduledTask) ∧
  (q.1 ≠ 0 ∧ calls q.2 = [] ∧ forms_in q.2 = only AgentForm.StartupTray).
Proof.
  cbv zeta.
  assert (Ha : answered (with_tray true true))
    by (vm_compute; split_and!; eexists; reflexivity).
  assert (Hc : (run_form [widen "install"; widen "task"; widen "--replace"]
                  (with_tray true true)).1 = 0) by (vm_compute; reflexivity).
  assert (Hg : ∃ g, g ≠ AgentForm.ScheduledTask ∧
                is_installed (forms_in (with_tray true true)) g = true)
    by (exists AgentForm.StartupTray; split; [discriminate|vm_compute; reflexivity]).
  split.
  - split; [exact Hc|].
    exact (proj1 (proj2 (form_install_exclusive (Node := tree) (λ _, "agent.toml") (widen "task")
             [widen "--replace"] AgentForm.ScheduledTask (with_tray true true) _ _ eq_refl
             (surjective_pairing _))) Ha Hc).
  - exact (proj2 (proj2 (proj2 (proj2 (form_install_exclusive (Node := tree) (λ _, "agent.toml")
             (widen "task") [] AgentForm.ScheduledTask (with_tray true true) _ _ eq_refl
             (surjective_pairing _))))) eq_refl Ha Hg).
Defined.

Definition with_task : World FormCall MemFs Sys :=
  (empty_fs, ([], MkSys [] true false true true)).

(** [--agent-form apply agent.toml], which declares the task: over the tray the
    task alone is registered, and where it is so already nothing is changed. *)
Example form_apply_converges_witness :
  let r := run_form [widen "apply"; widen "agent.toml"] (with_tray true true) in
  let q := run_form [widen "apply"; widen "agent.toml"] with_task in
  (r.1 = 0 ∧ forms_in r.2 = only AgentForm.ScheduledTask) ∧ (q.1 = 0 ∧ calls q.2 = []).
Proof.
  cbv zeta.
  assert (Hd : declared_form (Node := tree) (λ _, "agent.toml") (Some (widen "agent.toml"))
                 (with_tray true true) = Some "task") by (vm_compute; reflexivity).
  assert (Hd' : declared_form (Node := tree) (λ _, "agent.toml") (Some (widen "agent.toml"))
                 with_task = Some "task") by (vm_compute; reflexivity).
  assert (Hc : (run_form [widen "apply"; widen "agent.toml"] (with_tray true true)).1 = 0)
    by (vm_compute; reflexivity).
  assert (Ha : answered (with_tray true true))
    by (vm_compute; split_and!; eexists; reflexivity).
  assert (Ha' : answered with_task) by (vm_compute; split_and!; eexists; reflexivity).
  split.
  - split; [exact Hc|].
    exact (proj1 (proj2 (proj2 (form_apply_converges (λ _, "agent.toml") [widen "agent.toml"]
             (Some (widen "agent.toml")) false "task" AgentForm.ScheduledTask
             (with_tray true true) _ _ eq_refl Hd eq_refl (surjective_pairing _))))
           eq_refl Ha Hc).
  - exact (proj1 (proj2 (proj2 (proj2 (form_apply_converges (λ _, "agent.toml")
             [widen "agent.toml"] (Some (widen "agent.toml")) false "task"
             AgentForm.ScheduledTask with_task _ _ eq_refl Hd' eq_refl
             (surjective_pairing _))))) Ha' eq_refl).
Defined.

(** A form that cannot be queried counts as not installed: the task is installed
    beside the tray without [--replace], and the command reports success. *)
Lemma unreadable_form_is_joined :
  let r := run_form [widen "install"; widen "task"] (with_tray false true) in
  r.1 = 0 ∧ forms_in r.2 = (true, true, false).
Proof. vm_compute. done. Qed.

Definition read_only_audit : World FormCall MemFs Sys :=
  (MkMemFs ∅ ["C:\Users\u\CppOptimizer\audit.log"], (with_tray true true).2).

(** Removing the startup entry does not ask whether the audit trail can be
    written, as the other changes do. *)
Lemma startup_remove_unaudited :
  (RunStartupCommand [widen "install"] read_only_audit).1 = 2 ∧
  (RunScheduledTaskCommand [widen "remove"] read_only_audit).1 = 2 ∧
  let r := RunStartupCommand [widen "remove"] read_only_audit in
  r.1 = 0 ∧ calls r.2 = [RemoveEntry] ∧ forms_in r.2 = (false, false, false) ∧
  file "C:\Users\u\CppOptimizer\audit.log" (files_of r.2) = None.
Proof. vm_compute. done. Qed.

(** A registration that fails is announced in the journal and leaves no word of
    its outcome, there or in the audit trail. *)
Lemma failed_registration_unrecorded :
  let r := RunStartupCommand [widen "install"] (with_tray true false) in
  r.1 = 2 ∧ calls r.2 = [WriteEntry] ∧
  file "C:\Users\u\CppOptimizer\audit.log" (files_of r.2) = Some "" ∧
  (λ text, length (getlines text)) <$>
    file "C:\Users\u\CppOptimizer\action-journal.log" (files_of r.2) = Some 1%nat.
Proof. vm_compute. done. Qed.
End Desktop.
