(* ===== verification/MemoryCleanSafety.v ===== *)
(** What [--memory-clean] can do to the system. The command is run in a world
    that records every call that changes something outside the files; whatever
    the system answers, the record shows what was called. *)

From S2P Require Import Prelude CommonError Containers Paths Crash AuditLine AuditLog.
From S2P Require Import SafetyGates ConfigTypes Config Platform UserActivity Memory Actions.
From S2P Require Import MemoryClean World.

Open Scope string_scope.
Open Scope list_scope.
Open Scope Z_scope.

(** ** The calls *)

Inductive SystemCall :=
  | CallEmptyWorkingSet (process : Z)
  | CallEnablePrivilege
  | CallSetMemoryList (class command : Z)
  | CallFileCacheSize (low high flags : Z).

#[export] Instance SystemCall_eq_dec : EqDecision SystemCall.
Proof. solve_decision. Defined.

Section Instances.
Context {F X : Type}.

#[export] Instance world_memory `{MemoryApi X} : MemoryApi (World SystemCall F X) := {|
  OpenProcess a p := quietly (OpenProcess a p);
  CloseHandle h := quietly (CloseHandle h);
  GetProcessMemoryInfo h := quietly (GetProcessMemoryInfo h);
  EmptyWorkingSet h := recorded (CallEmptyWorkingSet h) (EmptyWorkingSet h);
  OpenProcessToken a := quietly (OpenProcessToken a);
  LookupPrivilegeValueW n := quietly (LookupPrivilegeValueW n);
  TokenPrivilegesSize t := quietly (TokenPrivilegesSize t);
  new_nothrow n := quietly (new_nothrow n);
  TokenPrivileges t n := quietly (TokenPrivileges t n);
  AdjustTokenPrivileges t l := recorded CallEnablePrivilege (AdjustTokenPrivileges t l);
  NtSetSystemInformation c k := recorded (CallSetMemoryList c k) (NtSetSystemInformation c k);
  NtQuerySystemInformation c := quietly (NtQuerySystemInformation c);
  SetSystemFileCacheSize a b c :=
    recorded (CallFileCacheSize a b c) (SetSystemFileCacheSize a b c);
  GetPerformanceInfo := quietly GetPerformanceInfo;
  GetSystemPageSize := quietly GetSystemPageSize;
  GlobalMemoryStatusEx := quietly GlobalMemoryStatusEx;
  memory_error w := memory_error w.2.2
|}.

End Instances.

(** ** What is left alone *)

Section Frames.
Context {F X : Type} `{SystemMessages} `{BuildOptions} `{FileSystem F} `{Clock F} `{Folders F}.
Context `{UnixTime F} `{Modules X} `{PlatformApi X} `{SessionProbe X} `{MemoryApi X}.
Context `{AgentFormState X}.
Notation W := (World SystemCall F X).

Lemma record_runs_calls steps : preserves (@calls SystemCall F X) (record_runs steps).
Proof. induction steps; cbn [record_runs]; frame. Qed.

Hint Resolve record_runs_calls : frame.

Lemma GatherMemoryCleanGates_calls a b c i d e :
  preserves (@calls SystemCall F X) (GatherMemoryCleanGates a b c i d e).
Proof. unfold GatherMemoryCleanGates. frame. Qed.
Hint Resolve GatherMemoryCleanGates_calls : frame.

Lemma blocked_step_calls config a i steps :
  preserves (@calls SystemCall F X) (blocked_step config a i steps).
Proof. induction steps; cbn [blocked_step]; unfold step_gates; frame. Qed.

Lemma own_reading_calls : preserves (@calls SystemCall F X) own_reading.
Proof. unfold own_reading, QueryOwnWorkingSet, memory_failure. frame. Qed.
Hint Resolve own_reading_calls blocked_step_calls : frame.

Lemma read_all_calls : preserves (@calls SystemCall F X) read_all.
Proof.
  unfold read_all, QueryAvailablePhysicalBytes, QueryStandbyBytes, QuerySystemCacheBytes.
  frame.
Qed.
Hint Resolve read_all_calls : frame.
End Frames.

#[export] Hint Resolve record_runs_calls GatherMemoryCleanGates_calls
  blocked_step_calls own_reading_calls read_all_calls : frame.

(** ** What is called *)

(** The calls of a step that succeeds. *)
Definition step_calls (k : CleanKind) : list SystemCall :=
  match k with
  | CleanKind.WorkingSetTrim => [CallEmptyWorkingSet current_process]
  | CleanKind.StandbyListPurge =>
      [CallEnablePrivilege; CallSetMemoryList kSystemMemoryListInformation kMemoryPurgeStandbyList]
  | CleanKind.SystemFileCacheTrim =>
      [CallEnablePrivilege; CallFileCacheSize (2 ^ 64 - 1) (2 ^ 64 - 1) 0]
  end.

(** All of them when it succeeds, the first of them when not. *)
Definition step_made (k : CleanKind) (r : Result unit) (cs : list SystemCall) : Prop :=
  match r with Success _ => cs = step_calls k | Failure _ => cs `prefix_of` step_calls k end.

Section Backends.
Context {F X : Type} `{SystemMessages} `{Modules X} `{MemoryApi X}.
Notation W := (World SystemCall F X).

Lemma EnablePrivilege_emits name :
  emits (F := F) (X := X) (EnablePrivilege name)
    (λ b cs, if b : bool then cs = [CallEnablePrivilege] else cs `prefix_of` [CallEnablePrivilege]).
Proof.
  unfold EnablePrivilege, with_token.
  apply emits_bind_quiet; [frame|]. intros [token|]; [|by apply emits_ret, prefix_nil].
  apply emits_bind_quiet; [frame|]. intros luid.
  apply emits_then_quiet; [|frame]. destruct luid as [luid|]; [|by apply emits_ret, prefix_nil].
  eapply (emits_bind _ _ (λ _ cs, cs = [CallEnablePrivilege])); [by apply emits_recorded|].
  intros a cs ->. apply emits_quiet; [frame|]. intros []; by rewrite app_nil_r.
Qed.

(** A step behind a privilege: [call] is made when it is held. *)
Lemma privileged_emits (name : string) k c (no : Error) (m : M W (Result unit)) :
  step_calls k = [CallEnablePrivilege; c] →
  emits m (λ r cs, match r with Success _ => cs = [c] | Failure _ => cs `prefix_of` [c] end) →
  emits (enabled <-- EnablePrivilege name ;; if negb enabled then mret (Failure no) else m)
    (step_made k).
Proof.
  intros Hk Hm. eapply emits_bind; [apply EnablePrivilege_emits|].
  intros [] cs Hcs; cbn [negb].
  - subst cs. intros w r w' E. destruct (Hm _ _ _ E) as (ds & Hds & HQ).
    exists ds. split; [done|]. unfold step_made. rewrite Hk.
    destruct r; [by rewrite HQ|]. by apply (prefix_app [CallEnablePrivilege]).
  - apply emits_ret. rewrite app_nil_r. unfold step_made. rewrite Hk.
    etrans; [done|]. by exists [c].
Qed.

Lemma TrimOwnWorkingSet_emits :
  emits (F := F) (X := X) TrimOwnWorkingSet (step_made CleanKind.WorkingSetTrim).
Proof.
  unfold TrimOwnWorkingSet.
  eapply (emits_bind _ _ (λ _ cs, cs = step_calls CleanKind.WorkingSetTrim)).
  - by apply emits_recorded.
  - intros [] cs ->.
    + apply emits_ret. by rewrite app_nil_r.
    + intros w r w' [= <- <-]. exists []. rewrite !app_nil_r. split; [done|]. unfold step_made. reflexivity.
Qed.

Lemma SystemMemoryCleanBackend_emits k :
  emits (F := F) (X := X) (SystemMemoryCleanBackend k) (step_made k).
Proof.
  destruct k; cbn [SystemMemoryCleanBackend].
  - apply TrimOwnWorkingSet_emits.
  - eapply privileged_emits; [done|].
    apply emits_bind_quiet; [frame|]. intros []; [|by apply emits_ret, prefix_nil].
    apply emits_bind_quiet; [frame|]. intros []; [|by apply emits_ret, prefix_nil].
    eapply (emits_bind _ _ (λ _ cs, cs = [CallSetMemoryList _ _])); [by apply emits_recorded|].
    intros s cs ->. apply emits_ret. rewrite app_nil_r.
    destruct (NtSuccess s); [done|]. reflexivity.
  - eapply privileged_emits; [done|]. cbv zeta.
    eapply (emits_bind _ _ (λ _ cs, cs = [CallFileCacheSize (2 ^ 64 - 1) (2 ^ 64 - 1) 0]));
      [by apply emits_recorded|].
    intros [] cs ->.
    + by apply emits_ret.
    + intros w r w' [= <- <-]. exists []. rewrite !app_nil_r. split; [done|]. unfold step_made. reflexivity.
Qed.

Lemma SelfWorkingSetTrimBackend_emits k :
  emits (F := F) (X := X) (SelfWorkingSetTrimBackend k)
    (λ r cs, match r with
             | Success _ => k = CleanKind.WorkingSetTrim ∧ cs = [CallEmptyWorkingSet current_process]
             | Failure _ => cs `prefix_of` [CallEmptyWorkingSet current_process]
             end).
Proof.
  destruct k; cbn [SelfWorkingSetTrimBackend]; [|apply emits_ret, prefix_nil..].
  intros w r w' E. destruct (TrimOwnWorkingSet_emits _ _ _ E) as (cs & Hcs & HQ).
  exists cs. split; [done|]. by destruct r.
Qed.

(** A plan's calls are the beginning of those of its steps, and all of them
    when it succeeds. *)
Lemma clean_steps_emits (steps : list CleanKind) report :
  emits (F := F) (X := X) (@clean_steps W SystemMemoryCleanBackend steps report)
    (λ rep cs, cs `prefix_of` concat (map step_calls steps) ∧
               (rep_ok report = false → rep_ok rep = true →
                cs = concat (map step_calls steps))).
Proof.
  revert report. induction steps as [|k steps IH]; intros report; cbn.
  - by apply emits_ret.
  - eapply emits_bind; [apply SystemMemoryCleanBackend_emits|]. intros [v|e] cs Hcs.
    + unfold step_made in Hcs. subst cs. intros w rep w' E.
      destruct (IH _ _ _ _ E) as (ds & Hds & Hpre & Hall). exists ds. split; [done|].
      split; [by apply prefix_app|]. intros Hf Hr. by rewrite (Hall Hf Hr).
    + apply emits_ret. rewrite app_nil_r. cbn. split; [by apply prefix_app_r|congruence].
Qed.
End Backends.

(** ** The command *)

Section Command.
Context {F X Node : Type} `{SystemMessages} `{BuildOptions} `{FileSystem F} `{Clock F}.
Context `{Folders F} `{UnixTime F} `{Modules X} `{PlatformApi X} `{SessionProbe X}.
Context `{MemoryApi X} `{AgentFormState X} `{Toml Node} `{TomlFiles F Node}.
Notation W := (World SystemCall F X).

(** All six gates of a step are open in the world in which they are gathered;
    those of a plan's steps, one after the other. *)
Definition cleared (config : MemoryCleanConfigGate) (ack iso : bool) (k : CleanKind) : Prop :=
  CleanStepCompiledIn k = true ∧ ConfigAllowsCleanStep config k = true ∧ ack = true ∧
  (CleanStepNeedsIsolatedEnvironment k = true → iso = true).

Lemma blocked_step_None config ack iso steps (w w' : W) :
  blocked_step config ack iso steps w = (None, w') →
  Forall (cleared config ack iso) steps ∧ worlds_allow (map CleanKindCapabilityId steps) w.
Proof.
  revert w. induction steps as [|k steps IH]; intros w; [by split|].
  cbn. unfold mthen, step_gates.
  destruct (GatherMemoryCleanGates _ _ _ _ _ _ w) as [ctx w1] eqn:E.
  destruct (allowed (evaluation ctx)) eqn:Ha; cbn; [|done].
  intros [IH1 IH2]%IH. pose proof (f_equal snd E) as E1. rewrite gates_looked_at in E1. cbn in E1. subst w1.
  destruct (gates_open _ _ _ _ _ _ _ _ _ E Ha) as (? & ? & ? & ? & ?).
  split; [by constructor|done].
Qed.

Lemma execute_plan_emits target plan :
  emits (execute_plan (W := W) target plan)
    (λ o cs, cs `prefix_of` concat (map step_calls (plan_steps plan)) ∧
             (exit_code o = 0 → cs = concat (map step_calls (plan_steps plan)))).
Proof.
  unfold execute_plan. apply emits_bind_quiet; [frame|]. intros before.
  apply emits_bind_quiet; [frame|]. intros _.
  eapply (emits_bind _ _ (λ r cs, cs `prefix_of` concat (map step_calls (plan_steps plan)) ∧
    (clean_ok r = true → cs = concat (map step_calls (plan_steps plan))))).
  - unfold ExecuteMemoryCleanPlan. destruct (plan_allowed plan); cbn [negb].
    + destruct (plan_steps plan) as [|k steps]; [by apply emits_ret|].
      eapply emits_bind; [apply clean_steps_emits|]. intros rep cs [Hpre Hall].
      apply emits_ret. rewrite app_nil_r. split; [done|]. intros Hok. by apply Hall.
    + apply emits_ret. split; [apply prefix_nil|done].
  - intros r cs [Hpre Hall]. apply emits_bind_quiet; [frame|]. intros after. cbv zeta.
    apply emits_bind_quiet; [frame|]. intros _.
    destruct (clean_ok r); cbn [negb].
    + apply emits_bind_quiet; [frame|]. intros missing. apply emits_ret.
      rewrite app_nil_r. split; [done|]. intros _. by apply Hall.
    + apply emits_ret. by rewrite app_nil_r.
Qed.

(** [--execute] makes no call that changes the system before all six gates
    of every step of the configured level are open and every step has a backend
    in the build; the calls made are then the first of those of the steps, in
    order, and all of them when the exit code is 0. *)
Lemma RunMemoryCleanExecuteCommand_guarded configPath config ack iso (w w' : W) o :
  RunMemoryCleanExecuteCommand configPath config ack iso w = (o, w') →
  let steps := plan_steps (PlanMemoryClean (maxLevel config) (maxLevel config) true) in
  ∃ made, calls w' = calls w ++ made ∧
    made `prefix_of` concat (map step_calls steps) ∧
    (made ≠ [] → Forall (cleared config ack iso) steps ∧
                 worlds_allow (map CleanKindCapabilityId steps) w ∧
                 Forall (λ k, CleanStepImplemented k = true) steps) ∧
    (exit_code o = 0 → steps ≠ [] ∧ made = concat (map step_calls steps)).
Proof.
  unfold RunMemoryCleanExecuteCommand. cbv zeta. set (plan := PlanMemoryClean _ _ _).
  assert (Hno : ∀ w1 : W, calls w1 = calls w → (refused, w1) = (o, w') →
    ∃ made, calls w' = calls w ++ made ∧ made `prefix_of` concat (map step_calls (plan_steps plan)) ∧
      (made ≠ [] → Forall (cleared config ack iso) (plan_steps plan) ∧
                   worlds_allow (map CleanKindCapabilityId (plan_steps plan)) w ∧
                   Forall (λ k, CleanStepImplemented k = true) (plan_steps plan)) ∧
      (exit_code o = 0 → plan_steps plan ≠ [] ∧ made = concat (map step_calls (plan_steps plan)))).
  { intros w1 Hc [= <- <-]. exists []. rewrite app_nil_r. split_and!; [done|apply prefix_nil|done|done]. }
  destruct (plan_steps plan) as [|k0 rest] eqn:Hs; [by apply Hno|]. rewrite <- Hs in *. unfold mthen.
  destruct (blocked_step config ack iso (plan_steps plan) w) as [b w1] eqn:Eb.
  assert (Hc1 : calls w1 = calls w) by (eapply (preserves_run calls); [|exact Eb]; frame).
  destruct b as [[k g]|]; [by apply Hno|]. apply blocked_step_None in Eb as [Hcl Hw].
  destruct (allImplemented (EvaluateCleanPlanReadiness plan)) eqn:Hr; cbn [negb]; [|by apply Hno].
  intros E. apply execute_plan_emits in E as (made & Hm & Hpre & Hall). rewrite Hc1 in Hm.
  exists made. split_and!; [done|done| |].
  - intros _. split_and!; [done|done|]. by apply EvaluateCleanPlanReadiness_iff.
  - intros Ho. split; [by rewrite Hs|by apply Hall].
Qed.

(** What [--execute-self-trim] calls; the switch of the build is not asked. *)
Lemma self_trim_run configPath config ack (w w' : W) o :
  RunMemoryCleanSelfTrim configPath config ack w = (o, w') →
  ∃ made, calls w' = calls w ++ made ∧ made `prefix_of` [CallEmptyWorkingSet current_process] ∧
    (made ≠ [] → ack = true ∧ ConfigAllowsCleanStep config CleanKind.WorkingSetTrim = true ∧
                 world_allows kMemoryCleanCapabilityId w) ∧
    (exit_code o = 0 → made = [CallEmptyWorkingSet current_process]).
Proof.
  unfold RunMemoryCleanSelfTrim. cbv zeta. unfold mthen at 1.
  destruct (GatherMemoryCleanGates _ _ _ _ _ _ w) as [ctx w1] eqn:E.
  assert (Hc1 : calls w1 = calls w) by (eapply (preserves_run calls); [|exact E]; frame).
  assert (Hno : ∀ w2 : W, calls w2 = calls w → (refused, w2) = (o, w') →
    ∃ made, calls w' = calls w ++ made ∧ made `prefix_of` [CallEmptyWorkingSet current_process] ∧
      (made ≠ [] → ack = true ∧ ConfigAllowsCleanStep config CleanKind.WorkingSetTrim = true ∧
                   world_allows kMemoryCleanCapabilityId w) ∧
      (exit_code o = 0 → made = [CallEmptyWorkingSet current_process])).
  { intros w2 Hc [= <- <-]. exists []. rewrite app_nil_r. split_and!; [done|apply prefix_nil|done|done]. }
  destruct (allowed (evaluation ctx)) eqn:Ha; cbn [negb]; [|by apply Hno].
  destruct (gates_open _ _ _ _ _ _ _ _ _ E Ha) as (_ & Hconf & Hack & _ & Hw).
  destruct (plan_allowed _) eqn:Hp; cbn [negb orb]; [|by apply Hno].
  destruct (no_steps _) eqn:Hns; [by apply Hno|]. clear Hno E.
  assert (Hrest : emits (F := F) (X := X)
    (JournalAction "memory.clean_execute" (target_name configPath) true JournalPhase.Before
        "intent: trim own process working set (single call, no privilege)" ;;;
      before <-- own_reading ;;
      executed <-- @ExecuteMemoryCleanPlan W SelfWorkingSetTrimBackend
                     (PlanMemoryClean CleanLevel.Light (maxLevel config) true) ;;
      after <-- own_reading ;;
      let ok := clean_ok executed in
      AuditAction "memory.clean_execute" RiskLevel.R1 (target_name configPath) ok
        (mark_non_ascii (clean_detail
           (λ n, "self working set trim executed (" +:+ to_string n +:+
                 " step(s), own process only)") executed))
        (DescribeWorkingSetDelta (MakeWorkingSetDelta before after)) ;;;
      if negb ok then mret refused
      else missing <-- record_runs [CleanKind.WorkingSetTrim] ;; mret (MkOutcome 0 missing))
    (λ o cs, cs `prefix_of` [CallEmptyWorkingSet current_process] ∧
       (exit_code o = 0 → cs = [CallEmptyWorkingSet current_process]))).
  2:{ intros E. apply Hrest in E as (made & Hm & Hpre & Hall). rewrite Hc1 in Hm.
      exists made. by split_and!. }
  apply emits_bind_quiet; [frame|]. intros _. apply emits_bind_quiet; [frame|]. intros before.
  set (plan := PlanMemoryClean _ _ _) in *.
  assert (Hsteps : plan_steps plan = [CleanKind.WorkingSetTrim]).
  { subst plan. by destruct (maxLevel config). }
  eapply (emits_bind _ _ (λ r cs, cs `prefix_of` [CallEmptyWorkingSet current_process] ∧
    (clean_ok r = true → cs = [CallEmptyWorkingSet current_process]))).
  { unfold ExecuteMemoryCleanPlan. rewrite Hp, Hsteps. cbn [negb clean_steps].
    eapply (emits_bind _ _ (λ rep cs, cs `prefix_of` [CallEmptyWorkingSet current_process] ∧
      (rep_ok rep = true → cs = [CallEmptyWorkingSet current_process]))).
    - eapply emits_bind; [apply SelfWorkingSetTrimBackend_emits|]. intros [u|e] cs Hcs.
      + destruct Hcs as [_ ->]. apply emits_ret. split; [reflexivity|done].
      + apply emits_ret. by rewrite app_nil_r.
    - intros rep cs Hcs. apply emits_ret. by rewrite app_nil_r. }
  intros r cs [Hpre Hall]. apply emits_bind_quiet; [frame|]. intros after.
  apply emits_bind_quiet; [frame|]. intros _.
  destruct (clean_ok r); cbn [negb].
  - apply emits_bind_quiet; [frame|]. intros missing. apply emits_ret. rewrite app_nil_r.
    split; [done|]. intros _. by apply Hall.
  - apply emits_ret. by rewrite app_nil_r.
Qed.

(** An accepted command line: what it sets was on it. *)
Definition said (old : bool) (arg : string) (args : list string) (new : bool) : Prop :=
  new = true → old = true ∨ arg ∈ args.

Lemma said_cons old mid new arg x args :
  said old arg [x] mid → said mid arg args new → said old arg (x :: args) new.
Proof.
  intros Hm Hn Ht. apply Hn in Ht as [Ht|Ht]; [|right; by right].
  apply Hm in Ht as [?|Hx]; [by left|right]. apply list_elem_of_singleton in Hx as ->. by left.
Qed.

Definition accepted (a : CleanArguments) (args : list string) (a' : CleanArguments) : Prop :=
  "--force" ∉ args ∧
  said (acknowledged a) "--acknowledge-system-wide-side-effects" args (acknowledged a') ∧
  said (executeSelfTrim a) "--execute-self-trim" args (executeSelfTrim a') ∧
  said (execute a) "--execute" args (execute a') ∧
  said (isolatedAcknowledged a) "--acknowledge-isolated-environment" args
    (isolatedAcknowledged a') ∧
  (∀ p, configPath a' = Some p → configPath a = Some p ∨ p ∈ args).

Lemma clean_argument_accepted a x a' : clean_argument a x = Some a' → accepted a [x] a'.
Proof.
  unfold clean_argument, accepted, said. intros E.
  repeat match type of E with context [String.eqb x ?s] => destruct (String.eqb_spec x s) as [->|?] end;
    try discriminate; destruct a as [p0 b1 b2 b3 b4]; cbn in E;
    try destruct p0; simplify_eq/=;
    repeat split; intros; rewrite ?list_elem_of_singleton; auto; naive_solver.
Qed.

Lemma clean_arguments_accepted a args a' : clean_arguments a args = Some a' → accepted a args a'.
Proof.
  revert a. induction args as [|x args IH]; intros a; cbn.
  - intros [= ->]. split; [by intros ?%elem_of_nil|]. unfold said. repeat split; auto.
  - destruct (clean_argument a x) as [a1|] eqn:E; [|done]. cbn. intros E2.
    apply clean_argument_accepted in E as (Hf & H1' & H2' & H3' & H4' & Hp).
    apply IH in E2 as (Gf & G1 & G2 & G3 & G4 & Gp).
    split; [set_solver|]. repeat (split; [by eapply said_cons|]).
    intros p Hq. apply Gp in Hq as [Hq|Hq]; [|right; by right].
    apply Hp in Hq as [?|Hx]; [by left|right]. set_solver.
Qed.

(** A system-wide step is allowed in the experimental mode alone. *)
Lemma system_wide_config s k :
  k ≠ CleanKind.WorkingSetTrim → ConfigAllowsCleanStep (clean_gate s) k = true →
  allowNativeWrite (memory s) = true ∧
  AllowsSystemLevelActions (app_mode (application s)) (layers s) = true.
Proof.
  intros Hk. unfold ConfigAllowsCleanStep, clean_overlay. cbn.
  rewrite bool_decide_eq_false_2 by done.
  destruct (AllowsSystemLevelActions _ _); [|done].
  destruct k; [done|..]; cbn; rewrite !andb_true_iff; naive_solver.
Qed.

(** What the calls ask of the configuration that is read. *)
Definition consented (args : list string) (w : W) (made : list SystemCall) : Prop :=
  "--force" ∉ args ∧ "--acknowledge-system-wide-side-effects" ∈ args ∧
  ("--execute" ∈ args ∨ "--execute-self-trim" ∈ args) ∧
  ∃ p s, p ∈ args ∧ LoadConfig p w = Success s ∧
    scheduledCleanEnabled (memory s) = true ∧
    AllowsLocalReversibleActions (app_mode (application s)) (layers s) = true ∧
    (∃ steps, made `prefix_of` concat (map step_calls steps) ∧
       worlds_allow (map CleanKindCapabilityId steps) w) ∧
    (∀ c, c ∈ made → c ≠ CallEmptyWorkingSet current_process →
       "--execute" ∈ args ∧ "--acknowledge-isolated-environment" ∈ args ∧
       allowNativeWrite (memory s) = true ∧
       AllowsSystemLevelActions (app_mode (application s)) (layers s) = true).

(** The first step of any plan is the trim of the own working set; only it is
    in a plan without system-wide steps. *)
Lemma plan_steps_shape l :
  plan_steps (PlanMemoryClean l l true) = [] ∨
  ∃ rest, plan_steps (PlanMemoryClean l l true) = CleanKind.WorkingSetTrim :: rest ∧
    ∀ k, k ∈ rest → k ≠ CleanKind.WorkingSetTrim.
Proof.
  destruct l; [by left|right; exists []|right; exists [CleanKind.StandbyListPurge]|
    right; exists [CleanKind.StandbyListPurge; CleanKind.SystemFileCacheTrim]];
    (split; [done|]); set_solver.
Qed.

Lemma system_wide_call c steps :
  c ∈ concat (map step_calls steps) → c ≠ CallEmptyWorkingSet current_process →
  ∃ k, k ∈ steps ∧ k ≠ CleanKind.WorkingSetTrim.
Proof.
  intros Hc Hne. apply list_elem_of_In, in_concat in Hc as (cs & Hcs & Hc).
  apply in_map_iff in Hcs as (k & <- & Hk). exists k. split; [by apply list_elem_of_In|].
  intros ->. cbn in Hc. naive_solver.
Qed.

(** C14. Whatever the command line, the configuration and the system's answers:
    [--memory-clean] makes no call that changes the system unless an execution
    switch and the acknowledgement are on it and [--force] is not, a named
    configuration was read and enables cleaning in a mode and layer that allow
    it, and environment, audit trail and cooldown are open for every step to which
    a call belongs, as this run finds them when it gathers the gates of its steps,
    one after the other from the world it is started in. Any call beyond trimming
    the own working set needs [--execute], the confirmation of an isolated
    environment, native writes enabled and the experimental mode. *)
Theorem memory_clean_needs_consent args (w w' : W) o :
  RunMemoryCleanCommand args w = (o, w') →
  ∃ made, calls w' = calls w ++ made ∧ (made = [] ∨ consented args w made).
Proof.
  unfold RunMemoryCleanCommand.
  destruct (clean_arguments _ args) as [a|] eqn:Ea; [|intros [= <- <-]; exists []; rewrite app_nil_r; by split; [|left]].
  apply clean_arguments_accepted in Ea as (Hforce & Hack & Htrim & Hexec & Hiso & Hpath).
  unfold said in *. cbn in Hack, Htrim, Hexec, Hiso, Hpath.
  set (loaded := match configPath a with None => _ | Some p => _ end).
  destruct loaded as [config|e] eqn:El;
    [|intros [= <- <-]; exists []; rewrite app_nil_r; by split; [|left]].
  (* the configuration is empty, or that of a named file *)
  assert (Hcfg : ∀ k, ConfigAllowsCleanStep config k = true →
    ∃ p s, p ∈ args ∧ LoadConfig p w = Success s ∧ config = clean_gate s).
  { intros k Hk. subst loaded. destruct (configPath a) as [p|] eqn:Hp.
    - destruct (LoadConfig p w) as [s|] eqn:Hs; [|done]. injection El as <-.
      exists p, s. split; [|done]. destruct (Hpath p eq_refl) as [|]; done.
    - injection El as <-. done. }
  clear El loaded Hpath.
  assert (Hdo : ∀ made (w2 : W), calls w2 = calls w ++ made →
    (made ≠ [] → ("--execute" ∈ args ∨ "--execute-self-trim" ∈ args) ∧ acknowledged a = true ∧
       ConfigAllowsCleanStep config CleanKind.WorkingSetTrim = true ∧
       (∃ steps, made `prefix_of` concat (map step_calls steps) ∧
          worlds_allow (map CleanKindCapabilityId steps) w) ∧
       (∀ c, c ∈ made → c ≠ CallEmptyWorkingSet current_process →
          execute a = true ∧ isolatedAcknowledged a = true ∧
          ∃ k, k ≠ CleanKind.WorkingSetTrim ∧ ConfigAllowsCleanStep config k = true)) →
    ∃ made, calls w2 = calls w ++ made ∧ (made = [] ∨ consented args w made)).
  { intros made w2 Hm Hmade. exists made. split; [done|].
    destruct (decide (made = [])) as [|Hne]; [by left|right].
    destruct (Hmade Hne) as (Hsw & Ha & Hc & Hw & Hwide).
    destruct (Hcfg _ Hc) as (p & s & Hp & Hs & ->).
    split; [done|]. split; [by destruct (Hack Ha)|]. split; [done|]. exists p, s.
    unfold ConfigAllowsCleanStep, clean_overlay in Hc. cbn in Hc.
    destruct (AllowsLocalReversibleActions _ _) eqn:Hl; cbn in Hc; [|done].
    apply andb_true_iff in Hc as [Hen _]. do 5 (split; [done|]).
    intros c Hin Hne'. destruct (Hwide c Hin Hne') as (Hx & Hi & k & Hk & Hck).
    split; [by destruct (Hexec Hx)|]. split; [by destruct (Hiso Hi)|].
    by apply system_wide_config with k. }
  destruct (execute a) eqn:Hx.
  - intros E. apply RunMemoryCleanExecuteCommand_guarded in E as (made & Hm & Hpre & Hclr & _).
    apply (Hdo made w' Hm). intros Hne. destruct (Hclr Hne) as (Hall & Hw & _).
    assert (Hopen : ∃ steps, made `prefix_of` concat (map step_calls steps) ∧
      worlds_allow (map CleanKindCapabilityId steps) w) by eauto. clear Hw.
    destruct (plan_steps_shape (maxLevel config)) as [Hs|(rest & Hs & Hrest)];
      rewrite Hs in *; [by apply prefix_nil_inv in Hpre|].
    inversion_clear Hall as [|? ? (_ & Hc & Ha & _) Hall'].
    split; [left; by destruct (Hexec eq_refl)|]. do 3 (split; [done|]).
    intros c Hin Hne'. destruct (system_wide_call c (CleanKind.WorkingSetTrim :: rest))
      as (k & Hk & Hkne); [by apply (elem_of_prefix made)|done|].
    apply elem_of_cons in Hk as [|Hk]; [done|].
    rewrite Forall_forall in Hall'. destruct (Hall' k Hk) as (_ & Hck & _ & Hi).
    split; [done|]. split; [|by exists k].
    apply Hi. unfold CleanStepNeedsIsolatedEnvironment. by rewrite bool_decide_eq_false_2.
  - destruct (executeSelfTrim a) eqn:Ht.
    + intros E. apply self_trim_run in E as (made & Hm & Hpre & Hmade & _).
      apply (Hdo made w' Hm). intros Hne. destruct (Hmade Hne) as (Ha & Hc & Hw).
      assert (Hopen : ∃ steps, made `prefix_of` concat (map step_calls steps) ∧
        worlds_allow (map CleanKindCapabilityId steps) w)
        by (exists [CleanKind.WorkingSetTrim]; by split_and!).
      split; [right; by destruct (Htrim eq_refl)|]. do 3 (split; [done|]).
      intros c Hin Hne'. exfalso. apply Hne'.
      apply (elem_of_prefix _ _ c) in Hpre; [|done]. by apply list_elem_of_singleton in Hpre.
    + intros E. apply (Hdo [] w'); [|done]. rewrite app_nil_r.
      eapply (preserves_run calls); [|exact E]. unfold plan_dry_run. frame.
Qed.
End Command.

(** ** The cooldown *)

Section Cooldown.
Context {F X Node : Type} `{SystemMessages} `{BuildOptions} `{FileSystemLaws F} `{Clock F}.
Context `{Folders F} `{UnixTime F} `{Modules X} `{PlatformApi X} `{SessionProbe X}.
Context `{MemoryApi X} `{AgentFormState X} `{Toml Node} `{TomlFiles F Node}.
Notation W := (World SystemCall F X).

(** The data directory does not move, and every reading of the clock is in one
    cooldown window. *)
Context (folder : string) (start : Z).
Context (Hfolder : ∀ f : F, DefaultHostConfigPath f = folder).
Context (Hstart : 0 < start) (Hend : is_i64 (start + kDefaultCooldown)).
Context (Hclock : ∀ f : F, start <= unix_time f < start + kDefaultCooldown).

Notation cooling := (cooling folder start kMemoryCleanCapabilityId).

(** While it is, no gathering of its gates lets it pass, and it goes on. *)
Lemma cooling_gates ack conf compiled isolated isoAck (w : W) ctx w' :
  cooling w →
  GatherMemoryCleanGates ack conf compiled kMemoryCleanCapabilityId isolated isoAck w = (ctx, w') →
  allowed (evaluation ctx) = false.
Proof.
  intros Hc. unfold GatherMemoryCleanGates, mthen.
  destruct (GatherEnvironmentFacts w) as [facts w1] eqn:Ef.
  pose proof (preserves_run files_of _ _ _ _ ltac:(frame) Ef) as Hf1.
  apply (cooling_files _ _ _ _ w1) in Hc; [|done].
  destruct (ProbeAuditWritable (DefaultAuditLogPath w1) w1) as [probe w2] eqn:Ep.
  eapply cooling_probe in Hc; [|done..].
  intros [= <- <-]. cbn [evaluation]. rewrite EvaluateGates_allowed. cbn.
  rewrite (cooling_gate _ _ Hfolder Hclock _ _ Hc). apply andb_false_r.
Qed.

Lemma capability_plain k : plain_id (CleanKindCapabilityId k) = true.
Proof. by destruct k. Qed.

Lemma record_runs_cooling steps (w w' : W) :
  record_runs steps w = ([], w') →
  (cooling w → cooling w') ∧ (CleanKind.WorkingSetTrim ∈ steps → cooling w').
Proof.
  revert w. induction steps as [|k steps IH]; intros w; cbn.
  - intros [= <-]. split; [done|by intros ?%elem_of_nil].
  - unfold mthen, mret.
    destruct (RecordCooldownRun _ _ _ w) as [[[]|e] w1] eqn:Er;
      destruct (record_runs steps w1) as [missing w2] eqn:Es; [|done].
    intros [= -> ->]. apply IH in Es as [Hkeep Hnew].
    eapply cooling_recorded in Er as [Hself Hother]; [|done..|apply capability_plain].
    split; [intros Hc; by apply Hkeep, Hother|].
    intros [<-|Hin]%elem_of_cons; [by apply Hkeep|by apply Hnew].
Qed.

Lemma execute_cools configPath config ack iso (w w' : W) :
  RunMemoryCleanExecuteCommand configPath config ack iso w = (MkOutcome 0 [], w') → cooling w'.
Proof.
  unfold RunMemoryCleanExecuteCommand.
  destruct (plan_steps_shape (maxLevel config)) as [->|(rest & Hs & _)]; [done|].
  rewrite Hs. set (plan := PlanMemoryClean _ _ _) in *.
  unfold mthen at 1. destruct (blocked_step _ _ _ _ w) as [[] w1]; [done|].
  destruct (allImplemented _); cbn [negb]; [|done].
  unfold execute_plan, mthen, mret. rewrite Hs.
  destruct (read_all w1) as [before w2]. destruct (JournalAction _ _ _ _ _ w2) as [j w3].
  destruct (ExecuteMemoryCleanPlan plan w3) as [r w4]. destruct (read_all w4) as [after w5].
  cbv zeta. destruct (AuditAction _ _ _ _ _ _ w5) as [u w6].
  destruct (clean_ok r); cbn [negb]; [|done].
  destruct (record_runs _ w6) as [missing w7] eqn:Er. intros [= -> ->].
  apply record_runs_cooling in Er as [_ Er]. apply Er. by left.
Qed.

Lemma self_trim_cools configPath config ack (w w' : W) :
  RunMemoryCleanSelfTrim configPath config ack w = (MkOutcome 0 [], w') → cooling w'.
Proof.
  unfold RunMemoryCleanSelfTrim, mthen, mret. cbv zeta.
  destruct (GatherMemoryCleanGates _ _ _ _ _ _ w) as [ctx w1].
  destruct (allowed _); cbn [negb]; [|done]. destruct (_ || _); [done|].
  destruct (JournalAction _ _ _ _ _ w1) as [j w2]. destruct (own_reading w2) as [before w3].
  destruct (ExecuteMemoryCleanPlan _ w3) as [r w4]. destruct (own_reading w4) as [after w5].
  destruct (AuditAction _ _ _ _ _ _ w5) as [u w6].
  destruct (clean_ok r); cbn [negb]; [|done].
  destruct (record_runs _ w6) as [missing w7] eqn:Er. intros [= -> ->].
  apply record_runs_cooling in Er as [_ Er]. apply Er. by left.
Qed.

(** Once a cleaning run has succeeded and its cooldown is recorded, no
    further [--memory-clean] within the cooldown window calls anything,
    whatever its arguments, its configuration and the system's answers. *)
Lemma memory_clean_once_per_cooldown path config ack iso (w w1 w2 : W) args o :
  RunMemoryCleanExecuteCommand path config ack iso w = (MkOutcome 0 [], w1) ∨
  RunMemoryCleanSelfTrim path config ack w = (MkOutcome 0 [], w1) →
  RunMemoryCleanCommand args w1 = (o, w2) →
  calls w2 = calls w1.
Proof.
  intros Hfirst. assert (Hc : cooling w1).
  { destruct Hfirst as [E|E]; [by eapply execute_cools|by eapply self_trim_cools]. }
  clear Hfirst. unfold RunMemoryCleanCommand.
  destruct (clean_arguments _ args) as [a|]; [|by intros [= <- <-]].
  destruct (match configPath a with None => _ | Some p => _ end) as [cfg|e];
    [|by intros [= <- <-]].
  destruct (execute a); [|destruct (executeSelfTrim a)].
  - unfold RunMemoryCleanExecuteCommand.
    destruct (plan_steps_shape (maxLevel cfg)) as [->|(rest & Hs & _)]; [by intros [= <- <-]|].
    rewrite Hs. cbn [blocked_step]. unfold mthen, mret, step_gates.
    destruct (GatherMemoryCleanGates _ _ _ _ _ _ w1) as [ctx w3] eqn:E.
    rewrite (cooling_gates _ _ _ _ _ _ _ _ Hc E). cbn [negb]. intros [= <- <-].
    exact (preserves_run calls _ _ _ _ (GatherMemoryCleanGates_calls _ _ _ _ _ _) E).
  - unfold RunMemoryCleanSelfTrim, mthen, mret. cbv zeta.
    destruct (GatherMemoryCleanGates _ _ _ _ _ _ w1) as [ctx w3] eqn:E.
    rewrite (cooling_gates _ _ _ _ _ _ _ _ Hc E). cbn [negb]. intros [= <- <-].
    exact (preserves_run calls _ _ _ _ (GatherMemoryCleanGates_calls _ _ _ _ _ _) E).
  - intros E. eapply (preserves_run calls); [|exact E]. unfold plan_dry_run. frame.
Qed.
End Cooldown.

(** ** A machine *)

(** One on which every call succeeds, with all capabilities compiled out or in. *)
Section Machine.
Import Machine.
#[local] Existing Instance no_capabilities | 20.

#[local] Instance unit_memory : MemoryApi unit := {|
  OpenProcess _ _ := mret (Some 4);
  CloseHandle _ := mret tt;
  GetProcessMemoryInfo _ := mret (Some (1000, 2000));
  EmptyWorkingSet _ := mret true;
  OpenProcessToken _ := mret (Some 8);
  LookupPrivilegeValueW _ := mret (Some (5, 0));
  TokenPrivilegesSize _ := mret 16;
  new_nothrow _ := mret true;
  TokenPrivileges _ _ := mret (Some [(5, 0)]);
  AdjustTokenPrivileges _ _ := mret true;
  NtSetSystemInformation _ _ := mret 0;
  NtQuerySystemInformation _ := mret (0, [3; 4], 176);
  SetSystemFileCacheSize _ _ _ := mret true;
  GetPerformanceInfo := mret (Some (10, 4096));
  GetSystemPageSize := mret 4096;
  GlobalMemoryStatusEx := mret (Some (16000, 8000, 50));
  memory_error _ := 0
|}.
(** Every configuration file enables cleaning to the deepest level. *)
#[local] Instance mem_configs : TomlFiles MemFs tree := λ _ _, inl
  [("application", TTable [("mode", TString "experimental")]);
   ("layers", TTable [("emergency", TBool true)]);
   ("memory", TTable [("scheduled_clean_enabled", TBool true);
                      ("allow_native_write", TBool true);
                      ("max_clean_level", TString "deep")])].

Definition machine : World SystemCall MemFs unit := (empty_fs, ([], tt)).

Definition trim_arguments : list string :=
  ["c.toml"; "--acknowledge-system-wide-side-effects"; "--execute-self-trim"].
Definition execute_arguments : list string :=
  ["c.toml"; "--acknowledge-system-wide-side-effects"; "--execute";
   "--acknowledge-isolated-environment"].

(** The compile gate is not asked by [--execute-self-trim]: in a build
    without the capability, where [--execute] is refused, it trims. *)
Lemma self_trim_bypasses_compile_gate :
  let trim := RunMemoryCleanCommand trim_arguments machine in
  let execute := RunMemoryCleanCommand execute_arguments machine in
  CleanStepCompiledIn CleanKind.WorkingSetTrim = false ∧
  (exit_code execute.1 = 2 ∧ calls execute.2 = []) ∧
  (exit_code trim.1 = 0 ∧ calls trim.2 = [CallEmptyWorkingSet current_process]).
Proof. vm_compute. done. Qed.

Definition deep_gate : MemoryCleanConfigGate :=
  MkConfigGate true true CleanLevel.Deep RunMode.Experimental (MkLayers true false true) true.

Definition after_execute : World SystemCall MemFs unit :=
  (@RunMemoryCleanExecuteCommand _ _ all_capabilities _ _ _ _ _ _ _ _ _ (Some "c.toml")
     deep_gate true true machine).2.

Example RunMemoryCleanExecuteCommand_guarded_witness :
  calls after_execute =
    [CallEmptyWorkingSet current_process; CallEnablePrivilege; CallSetMemoryList 80 4;
     CallEnablePrivilege; CallFileCacheSize (2 ^ 64 - 1) (2 ^ 64 - 1) 0] ∧
  ∃ made, calls after_execute = calls machine ++ made ∧
    Forall (@cleared all_capabilities deep_gate true true)
      [CleanKind.WorkingSetTrim; CleanKind.StandbyListPurge; CleanKind.SystemFileCacheTrim] ∧
    worlds_allow (map CleanKindCapabilityId
      [CleanKind.WorkingSetTrim; CleanKind.StandbyListPurge; CleanKind.SystemFileCacheTrim]) machine.
Proof.
  split; [vm_compute; reflexivity|].
  destruct (@RunMemoryCleanExecuteCommand_guarded MemFs unit _ all_capabilities _ _ _ _ _ _ _ _ _
    (Some "c.toml") deep_gate true true machine after_execute _ (surjective_pairing _))
    as (made & Hm & _ & Hc & _).
  exists made. split; [exact Hm|].
  assert (Hne : made ≠ []) by (intros ->; vm_compute in Hm; discriminate Hm).
  destruct (Hc Hne) as (H1 & H2 & _). split; [exact H1|exact H2].
Defined.

Example memory_clean_needs_consent_witness :
  let w' := (RunMemoryCleanCommand trim_arguments machine).2 in
  calls w' = [CallEmptyWorkingSet current_process] ∧
  ∃ made, calls w' = calls machine ++ made ∧ consented trim_arguments machine made.
Proof.
  assert (E : calls (RunMemoryCleanCommand trim_arguments machine).2 = [CallEmptyWorkingSet current_process])
    by (vm_compute; reflexivity).
  split; [exact E|].
  destruct (memory_clean_needs_consent trim_arguments machine
    (RunMemoryCleanCommand trim_arguments machine).2 _ (surjective_pairing _)) as (made & Hm & Hc).
  exists made. split; [exact Hm|]. destruct Hc as [Hc|Hc]; [exfalso|exact Hc].
  rewrite Hc, E in Hm. discriminate Hm.
Defined.

Example memory_clean_once_per_cooldown_witness :
  let w1 := (RunMemoryCleanSelfTrim (Some "c.toml") deep_gate true machine).2 in
  let w2 := (RunMemoryCleanCommand trim_arguments w1).2 in
  calls w1 = [CallEmptyWorkingSet current_process] ∧ calls w2 = calls w1.
Proof.
  cbv zeta. split; [vm_compute; reflexivity|].
  refine (memory_clean_once_per_cooldown
    "C:\Users\u\CppOptimizer\config.local.toml" 1700000000 _ _ _ _ (Some "c.toml") deep_gate true
    true machine (RunMemoryCleanSelfTrim (Some "c.toml") deep_gate true machine).2
    (RunMemoryCleanCommand trim_arguments
       (RunMemoryCleanSelfTrim (Some "c.toml") deep_gate true machine).2).2 trim_arguments
    (MkOutcome 2 []) _ _).
  - reflexivity.
  - reflexivity.
  - vm_compute. split; [discriminate|reflexivity].
  - intros f. vm_compute. split; [discriminate|reflexivity].
  - right. vm_compute. reflexivity.
  - vm_compute. reflexivity.
Defined.
End Machine.
