(* ===== verification/PowerSchemeSafety.v ===== *)
(** What [--power-scheme] can do to the system: the schemes it sets, recorded
    call by call, and when. *)

From S2P Require Import Prelude CommonError Containers Paths Crash AuditLine AuditLog.
From S2P Require Import SafetyGates ConfigTypes Config Platform UserActivity PowerScheme.
From S2P Require Import Actions MemoryClean PowerSchemeCommand World.

Open Scope string_scope.
Open Scope list_scope.
Open Scope Z_scope.

(** ** The calls: the schemes set *)

#[export] Instance world_scheme {F X} `{PowerSchemeBackend X} : PowerSchemeBackend (World string F X) := {|
  GetActive := quietly GetActive;
  SetActive g := recorded g (SetActive g)
|}.

Section Calls.
Context {F X : Type} `{SystemMessages} `{FileSystem F} `{PowerSchemeBackend X}.
Notation W := (World string F X).

Lemma save_text_calls path text : preserves (@calls string F X) (save_text path text).
Proof. unfold save_text, make_parent, via_temp. frame. Qed.
Hint Resolve save_text_calls : frame.

Lemma SaveSchemeRecord_calls path r : preserves (@calls string F X) (SaveSchemeRecord path r).
Proof. unfold SaveSchemeRecord. frame. Qed.

Lemma GetActive_calls : preserves (@calls string F X) GetActive.
Proof. apply quietly_calls. Qed.

Lemma emits_weaken {A} (m : M W A) P Q :
  emits m P → (∀ a cs, P a cs → Q a cs) → emits m Q.
Proof. intros Hm HPQ w a w' E. destruct (Hm _ _ _ E) as (cs & Hcs & HP). eauto. Qed.

(** A step that fails or goes on, without a call. *)
Lemma emits_try {A B} (m : M W (Result A)) (k : A → M W (Result B)) Q :
  preserves calls m → (∀ e, Q (Failure e) []) → (∀ a, emits (k a) Q) → emits (try m k) Q.
Proof.
  intros Hm HF Hk. unfold try. apply emits_bind_quiet; [done|].
  intros [a|e]; [apply Hk|by apply emits_ret].
Qed.

(** A step that sets [g] first. *)
Lemma emits_try_set {B} g (k : unit → M W (Result B)) Q :
  (∀ e, Q (Failure e) [g]) → (∀ a, emits (k a) (λ r cs, Q r (g :: cs))) →
  emits (try (SetActive g) k) Q.
Proof.
  intros HF Hk. unfold try. eapply (emits_bind _ _ (λ _ cs, cs = [g])).
  { apply (emits_recorded (C := string) (F := F)). done. }
  intros [a|e] cs ->; [apply Hk|by apply emits_ret].
Qed.

Lemma RestoreScheme_emits g :
  emits (RestoreScheme (W := W) g)
    (λ _ cs, cs = [] ∨ ∃ n, NormalizeSchemeGuid g = Some n ∧ cs = [n]).
Proof.
  unfold RestoreScheme. destruct (NormalizeSchemeGuid g) as [n|]; [|apply emits_ret; by left].
  apply emits_try_set; [eauto|]. intros _.
  apply emits_try; [apply GetActive_calls|eauto|]. intros active. apply emits_ret. eauto.
Qed.

Lemma RecoverPendingScheme_emits path :
  emits (RecoverPendingScheme (W := W) path) (λ _ cs, (length cs <= 1)%nat).
Proof.
  unfold RecoverPendingScheme. apply emits_try; [apply preserves_get|cbn; lia|]. intros record.
  apply emits_try; [apply GetActive_calls|cbn; lia|]. intros active. cbv zeta.
  destruct (DecideSchemeRecovery record active), record as [r|]; try (apply emits_ret; cbn; lia).
  - unfold try at 1. eapply emits_bind; [apply RestoreScheme_emits|].
    intros [o|e] cs Hcs; [|apply emits_ret; rewrite app_nil_r;
      destruct Hcs as [->|(n & _ & ->)]; cbn; lia].
    assert (length cs <= 1)%nat by (destruct Hcs as [->|(n & _ & ->)]; cbn; lia).
    destruct (rs_restored o); [|apply emits_ret; by rewrite app_nil_r].
    apply emits_try; [apply SaveSchemeRecord_calls|by rewrite app_nil_r|].
    intros _. apply emits_ret. by rewrite app_nil_r.
  - apply emits_try; [apply SaveSchemeRecord_calls|cbn; lia|]. intros _. apply emits_ret. cbn; lia.
Qed.

Lemma RestoreSchemeWithRecord_emits path :
  emits (RestoreSchemeWithRecord (W := W) path) (λ _ cs, (length cs <= 1)%nat).
Proof.
  unfold RestoreSchemeWithRecord. apply emits_try; [apply preserves_get|cbn; lia|].
  intros [r|]; [|apply emits_ret; cbn; lia].
  unfold try at 1. eapply emits_bind; [apply RestoreScheme_emits|].
  intros [o|e] cs Hcs; [|apply emits_ret; rewrite app_nil_r;
    destruct Hcs as [->|(n & _ & ->)]; cbn; lia].
  assert (length cs <= 1)%nat by (destruct Hcs as [->|(n & _ & ->)]; cbn; lia).
  destruct (rs_restored o); cbn [negb]; [|apply emits_ret; by rewrite app_nil_r].
  apply emits_try; [apply SaveSchemeRecord_calls|by rewrite app_nil_r|].
  intros _. apply emits_ret. by rewrite app_nil_r.
Qed.

Lemma ApplySchemeWithRecord_emits path target :
  emits (ApplySchemeWithRecord (W := W) path target)
    (λ r cs, match NormalizeSchemeGuid target with
             | Some n => cs `prefix_of` [n] ∧ (switch_ok r = true → cs = [n])
             | None => cs = [] ∧ switch_ok r = false
             end).
Proof.
  unfold ApplySchemeWithRecord. destruct (NormalizeSchemeGuid target) as [n|]; [|by apply emits_ret].
  assert (Hno : ∀ e, [] `prefix_of` [n] ∧ (switch_ok (Failure e) = true → [] = [n])).
  { intros e. split; [apply prefix_nil|done]. }
  apply emits_try; [apply GetActive_calls|done|]. intros previous. cbv zeta.
  apply emits_try; [apply SaveSchemeRecord_calls|done|]. intros _.
  apply emits_try_set; [done|]. intros _.
  apply emits_try; [apply GetActive_calls|done|]. intros active.
  destruct (negb _); [by apply emits_ret|].
  apply emits_try; [apply SaveSchemeRecord_calls|done|]. intros _. by apply emits_ret.
Qed.
End Calls.

(** ** The command *)

Section Guarded.
Context {F X Node : Type} `{SystemMessages} `{BuildOptions} `{FileSystem F} `{Clock F}.
Context `{Folders F} `{UnixTime F} `{Modules X} `{PlatformApi X} `{SessionProbe X}.
Context `{AgentFormState X} `{PowerSchemeBackend X} `{Toml Node} `{TomlFiles F Node}.
Notation W := (World string F X).

Lemma GatherPowerSchemeGates_calls a c d :
  preserves (@calls string F X) (GatherPowerSchemeGates a c d).
Proof. unfold GatherPowerSchemeGates. frame. Qed.
Hint Resolve GatherPowerSchemeGates_calls : frame.

Lemma scheme_gates_calls a b c : preserves (@calls string F X) (scheme_gates a b c).
Proof. unfold scheme_gates. frame. Qed.

Lemma run_recover_emits target path record :
  emits (run_recover (W := W) target path record) (λ _ cs, (length cs <= 1)%nat).
Proof.
  unfold run_recover. destruct record as [[r|]|e]; try (apply emits_ret; cbn; lia).
  apply emits_bind_quiet; [frame|]. intros _.
  eapply emits_bind; [apply RecoverPendingScheme_emits|]. intros rec cs Hcs.
  apply emits_bind_quiet; [frame|]. intros _. apply emits_ret. by rewrite app_nil_r.
Qed.

Lemma run_restore_emits target path :
  emits (run_restore (W := W) target path) (λ _ cs, (length cs <= 1)%nat).
Proof.
  unfold run_restore. apply emits_bind_quiet; [frame|]. intros _.
  eapply emits_bind; [apply RestoreSchemeWithRecord_emits|]. intros rec cs Hcs.
  apply emits_bind_quiet; [frame|]. intros _. apply emits_ret. by rewrite app_nil_r.
Qed.

(** A record that says a switch was not confirmed. *)
Definition unconfirmed (record : Result (option SavedSchemeRecord)) : Prop :=
  ∃ r, record = Success (Some r) ∧ save_state r = Pending.

(** The schemes set by a switch to [guid]. *)
Definition apply_made (guid : string) (record : Result (option SavedSchemeRecord))
    (o : CommandOutcome) (made : list string) : Prop :=
  ∃ back forth, made = back ++ forth ∧ (length back <= 1)%nat ∧ (back ≠ [] → unconfirmed record) ∧
    forth `prefix_of` [guid] ∧ (exit_code o = 0 → forth = [guid]).

Lemma run_apply_emits target path guid record :
  NormalizeSchemeGuid guid = Some guid →
  emits (run_apply (W := W) target path guid record) (apply_made guid record).
Proof.
  intros Hg. unfold run_apply.
  eapply (emits_bind _ _ (λ _ back, (length back <= 1)%nat ∧ (back ≠ [] → unconfirmed record))).
  { unfold reconcile. destruct record as [[r|]|e]; try (apply emits_ret; split; [cbn; lia|done]).
    destruct (bool_decide (save_state r = Pending)) eqn:Hp; [|apply emits_ret; split; [cbn; lia|done]].
    apply bool_decide_eq_true in Hp. eapply emits_bind; [apply RecoverPendingScheme_emits|].
    intros rec cs Hcs. apply emits_ret. rewrite app_nil_r. split; [done|]. intros _. by exists r. }
  intros ok back [Hb Hr]. destruct ok; cbn [negb].
  2:{ apply emits_ret. exists back, []. split; [done|]. do 2 (split; [done|]).
      split; [apply prefix_nil|done]. }
  apply emits_bind_quiet; [frame|]. intros _.
  eapply emits_bind; [apply ApplySchemeWithRecord_emits|]. rewrite Hg. intros sw forth [Hpre Hall].
  apply emits_bind_quiet; [frame|]. intros _. destruct (switch_ok sw) eqn:Hs; cbn [negb].
  - apply emits_bind_quiet; [frame|]. intros rec. apply emits_ret. exists back, forth.
    rewrite app_nil_r. split; [done|]. do 3 (split; [done|]). intros _. by apply Hall.
  - apply emits_ret. exists back, forth. rewrite app_nil_r. split; [done|]. by do 3 (split; [done|]).
Qed.
(** What the arguments must hold for them to be accepted so. *)
Definition scheme_said (a : SchemeArguments) (args : list string) (a' : SchemeArguments) : Prop :=
  "--force" ∉ args ∧
  (scheme_acknowledged a' = true → scheme_acknowledged a = true ∨
     "--acknowledge-system-wide-side-effects" ∈ args) ∧
  (∀ p, scheme_config a' = Some p → scheme_config a = Some p ∨ p ∈ args) ∧
  (∀ act, scheme_action a' = Some act → scheme_action a = Some act ∨
     ∃ t, t ∈ args ∧ parse_action t = Some act).

Lemma scheme_argument_said a x a' : scheme_argument a x = Some a' → scheme_said a [x] a'.
Proof.
  unfold scheme_argument, scheme_said.
  destruct (String.eqb_spec x "--acknowledge-system-wide-side-effects") as [->|Ha].
  { intros [= <-]. cbn. split; [set_solver|]. repeat split; auto. intros _. right. set_solver. }
  destruct (String.eqb_spec x "--force") as [->|Hf]; [done|]. intros E.
  split; [set_solver|]. assert (Hx : x ∈ [x]) by set_solver.
  destruct a as [[act|] ack [p|]]; cbn in *; try done;
    try destruct (parse_action x) as [act'|] eqn:Ep; simplify_eq/=;
    (split; [by auto|]; split; intros; simplify_eq; by eauto).
Qed.

Lemma scheme_arguments_said a args a' : scheme_arguments a args = Some a' → scheme_said a args a'.
Proof.
  revert a. induction args as [|x args IH]; intros a; cbn.
  - intros [= ->]. split; [by intros ?%elem_of_nil|]. repeat split; auto.
  - destruct (scheme_argument a x) as [a1|] eqn:E; [|done]. cbn. intros E2.
    apply scheme_argument_said in E as (Hf & Ha & Hp & Hc). apply IH in E2 as (Gf & Ga & Gp & Gc).
    split; [set_solver|]. split; [|split].
    + intros [H'|H']%Ga; [apply Ha in H' as [?|?]; [by left|right; set_solver]|right; set_solver].
    + intros p [H'|H']%Gp; [apply Hp in H' as [?|?]; [by left|right; set_solver]|right; set_solver].
    + intros act [H'|(t & Ht & Et)]%Gc; [apply Hc in H' as [?|(t & Ht & Et)]; [by left|]|];
        right; exists t; set_solver.
Qed.

Lemma parse_action_apply t g : parse_action t = Some (Apply g) → NormalizeSchemeGuid g = Some g.
Proof.
  unfold parse_action. repeat (destruct (String.eqb _ _); [done|]).
  destruct (ResolveSchemeArgument t) as [n|] eqn:E; [|done]. intros [= ->].
  by apply ResolveSchemeArgument_normal in E.
Qed.

(** The audit trail can be written. *)
Definition audit_open (w : W) : Prop :=
  ∃ u w1, ProbeAuditWritable (DefaultAuditLogPath w) w = (Success u, w1).

(** Environment and ledger, looked at after the audit trail, allow a switch. *)
Definition switch_allowed (w : W) : Prop :=
  ∃ facts w2 ledger,
    GatherEnvironmentFacts (ProbeAuditWritable (DefaultAuditLogPath w) w).2 = (facts, w2) ∧
    EvaluateEnvironmentGate facts = true ∧
    ReadCooldownLedger (DefaultCooldownLedgerPath w2) w2 = Success ledger ∧
    EvaluateCooldownGate ledger kPowerSchemeCapabilityId (unix_time w2) kDefaultCooldown = true.

Lemma scheme_gates_open action ack conf (w : W) g w' :
  scheme_gates action ack conf w = (g, w') → allowed g = true →
  PowerSchemeSwitchCompiledIn = true ∧ audit_open w ∧
  (is_forward action = true → ack = true ∧ conf = true ∧ switch_allowed w).
Proof.
  unfold scheme_gates, GatherPowerSchemeGates, switch_allowed, mthen, mret.
  destruct (ProbeAuditWritable (DefaultAuditLogPath w) w) as [probe w1] eqn:Ep. cbn [snd].
  destruct (GatherEnvironmentFacts w1) as [facts w2] eqn:Ef. intros [= <- <-].
  rewrite EvaluateGates_allowed. destruct (is_forward action) eqn:Hf; cbn;
    rewrite !andb_true_iff; intros Hall; destruct_and! Hall;
    (destruct probe as [u|]; [|done]); (split; [done|]); (split; [by exists u, w1|]); [|done].
  intros _. split; [done|]. split; [done|].
  destruct (ReadCooldownLedger _ w2) as [l|] eqn:El; [|done]. by exists facts, w2, l.
Qed.

Lemma scheme_gates_rollback action conf ack (w : W) :
  is_forward action = false → PowerSchemeSwitchCompiledIn = true → audit_open w →
  ∃ g w', scheme_gates action ack conf w = (g, w') ∧ allowed g = true.
Proof.
  intros Hf Hc (u & w1 & Ep). unfold scheme_gates, GatherPowerSchemeGates, mthen, mret.
  rewrite Ep, Hf. destruct (GatherEnvironmentFacts w1) as [facts w2]. eexists _, _.
  split; [done|]. rewrite EvaluateGates_allowed. cbn. by rewrite Hc.
Qed.

(** The configuration named on the command line asks for switches. *)
Definition config_allows (args : list string) (w : W) : Prop :=
  ∃ p s, p ∈ args ∧ LoadConfig p w = Success s ∧ switchPowerScheme (power s) = true ∧
    AllowsSystemLevelActions (app_mode (application s)) (layers s) = true.

Lemma scheme_config_gate_true args path (w : W) :
  (∀ p, path = Some p → p ∈ args) → scheme_config_gate path w = Some true → config_allows args w.
Proof.
  unfold scheme_config_gate. intros Hin. destruct path as [p|]; [|done].
  destruct (LoadConfig p w) as [s|] eqn:E; [|done]. intros [= [H1' H2']%andb_true_iff].
  exists p, s. auto.
Qed.

Definition initial_arguments : SchemeArguments := MkSchemeArguments None false None.

(** C4. Whatever the command line, the configuration and the system's answers:
    no scheme is set unless the capability is in the build, the audit trail can
    be written and [--force] is not given. A switch sets its target only with
    the acknowledgement, a configuration that asks for it in the experimental
    mode, a sound environment and no cooldown running; before it, at most one
    scheme is set, to roll back a switch that was not confirmed; exit code 0
    means the target was set last. Rollbacks set at most one scheme, queries
    none. *)
Theorem power_scheme_guarded args (w w' : W) o :
  RunPowerSchemeCommand args w = (o, w') →
  ∃ made, calls w' = calls w ++ made ∧
    (made ≠ [] → PowerSchemeSwitchCompiledIn = true ∧ "--force" ∉ args ∧ audit_open w) ∧
    match scheme_arguments initial_arguments args with
    | Some (MkSchemeArguments (Some (Apply guid)) _ _) =>
        (made ≠ [] → "--acknowledge-system-wide-side-effects" ∈ args ∧ config_allows args w ∧
                     switch_allowed w) ∧
        apply_made guid (ReadSavedSchemeRecord (DefaultPowerSchemeSavePath w) w) o made
    | Some (MkSchemeArguments (Some (Recover | Restore)) _ _) => (length made <= 1)%nat
    | _ => made = []
    end.
Proof.
  unfold RunPowerSchemeCommand. fold initial_arguments.
  destruct (scheme_arguments initial_arguments args) as [[[action|] ack path]|] eqn:Ea;
    [|intros [= <- <-]; exists []; rewrite app_nil_r; done..].
  apply scheme_arguments_said in Ea as (Hforce & Hack & Hpath & Hact). cbn in Hack, Hpath, Hact.
  set (record := ReadSavedSchemeRecord _ w).
  assert (Hno : ∀ guid, apply_made guid record refused []).
  { intros guid. exists [], []. split; [done|]. split; [cbn; lia|]. split; [done|].
    split; [apply prefix_nil|done]. }
  assert (Hsame : ∀ (m : M W CommandOutcome), preserves calls m → m w = (o, w') →
    calls w' = calls w ++ []).
  { intros m Hm E. rewrite app_nil_r. by eapply (preserves_run calls). }
  assert (Hgated : ∀ conf (k : M W CommandOutcome) Q,
    (gates <-- scheme_gates action ack conf ;; if negb (allowed gates) then mret refused else k) w
      = (o, w') → Q refused [] → emits k Q →
    ∃ made, calls w' = calls w ++ made ∧ Q o made ∧
      (made ≠ [] → PowerSchemeSwitchCompiledIn = true ∧ audit_open w ∧
         (is_forward action = true → ack = true ∧ conf = true ∧ switch_allowed w))).
  { intros conf k Q. unfold mthen. destruct (scheme_gates action ack conf w) as [g w1] eqn:Eg.
    pose proof (preserves_run calls _ _ _ _ (scheme_gates_calls _ _ _) Eg) as Hc1.
    destruct (allowed g) eqn:Hg; cbn [negb].
    - intros E _ Hk. destruct (Hk _ _ _ E) as (made & Hm & HQ). exists made.
      rewrite Hm, Hc1. split; [done|]. split; [done|]. intros _. by eapply scheme_gates_open.
    - intros [= <- <-] HQ _. exists []. rewrite app_nil_r. by rewrite Hc1. }
  destruct action as [| | | |guid].
  - (* status *) destruct (HasValue record); cbn [negb].
    + intros E. exists []. split; [|done]. eapply Hsame; [|exact E].
      apply preserves_bind; [apply GetActive_calls|]. intros r. apply preserves_ret.
    + intros [= <- <-]. exists []. by rewrite app_nil_r.
  - intros [= <- <-]. exists []. by rewrite app_nil_r.
  - destruct (scheme_config_gate path w) as [conf|]; [|intros [= <- <-]; exists []; rewrite app_nil_r; split; [done|]; split; [done|cbn; lia]].
    intros E. apply (Hgated _ _ (λ _ cs, (length cs <= 1)%nat)) in E
      as (made & Hm & HQ & Hopen); [|cbn; lia|apply run_restore_emits].
    exists made. split; [done|]. split; [|done]. intros Hne. by destruct (Hopen Hne) as (? & ? & _).
  - destruct (scheme_config_gate path w) as [conf|]; [|intros [= <- <-]; exists []; rewrite app_nil_r; split; [done|]; split; [done|cbn; lia]].
    intros E. apply (Hgated _ _ (λ _ cs, (length cs <= 1)%nat)) in E
      as (made & Hm & HQ & Hopen); [|cbn; lia|apply run_recover_emits].
    exists made. split; [done|]. split; [|done]. intros Hne. by destruct (Hopen Hne) as (? & ? & _).
  - destruct (scheme_config_gate path w) as [conf|] eqn:Econf; [|intros [= <- <-]; exists []; rewrite app_nil_r; by repeat split].
    assert (Hg : NormalizeSchemeGuid guid = Some guid).
    { destruct (Hact _ eq_refl) as [?|(t & _ & Et)]; [done|]. by eapply parse_action_apply. }
    intros E. apply (Hgated _ _ (apply_made guid record)) in E
      as (made & Hm & HQ & Hopen); [|done|by apply run_apply_emits].
    exists made. split; [done|]. split; [|split; [|done]]; intros Hne;
      destruct (Hopen Hne) as (Hc & Ha & Hf); [done|].
    destruct (Hf eq_refl) as (-> & -> & Hsw). split; [by destruct (Hack eq_refl)|].
    split; [|done]. eapply scheme_config_gate_true; [|exact Econf].
    intros p Hp. by destruct (Hpath p Hp).
Qed.

(** A rollback is never stopped by what stops a switch: if the capability is
    in the build, the audit trail can be written and the configuration, if one
    is named, can be read, [restore] and [recover] are carried out, whatever the
    configuration says, and whatever the environment and the cooldown. *)
Lemma rollback_not_blocked args action ack path (w : W) :
  scheme_arguments initial_arguments args = Some (MkSchemeArguments (Some action) ack path) →
  action = Restore ∨ action = Recover →
  PowerSchemeSwitchCompiledIn = true → audit_open w → is_Some (scheme_config_gate path w) →
  ∃ w1, calls w1 = calls w ∧
    RunPowerSchemeCommand args w =
      match action with
      | Restore => run_restore (target_name path) (DefaultPowerSchemeSavePath w)
      | _ => run_recover (target_name path) (DefaultPowerSchemeSavePath w)
               (ReadSavedSchemeRecord (DefaultPowerSchemeSavePath w) w)
      end w1.
Proof.
  intros Ea Hact Hc Haudit [conf Hconf]. unfold RunPowerSchemeCommand. fold initial_arguments.
  rewrite Ea. assert (Hf : is_forward action = false) by (by destruct Hact as [-> | ->]).
  destruct (scheme_gates_rollback action conf ack w Hf Hc Haudit) as (g & w1 & Eg & Hg).
  exists w1. split; [exact (preserves_run calls _ _ _ _ (scheme_gates_calls _ _ _) Eg)|].
  destruct Hact as [-> | ->]; rewrite Hconf; unfold mthen; rewrite Eg, Hg; done.
Qed.
End Guarded.

(** ** The cooldown *)

Section Cooldown.
Context {F X Node : Type} `{SystemMessages} `{BuildOptions} `{FileSystemLaws F} `{Clock F}.
Context `{Folders F} `{UnixTime F} `{Modules X} `{PlatformApi X} `{SessionProbe X}.
Context `{AgentFormState X} `{PowerSchemeBackend X} `{Toml Node} `{TomlFiles F Node}.
Notation W := (World string F X).

Context (folder : string) (start : Z).
Context (Hfolder : ∀ f : F, DefaultHostConfigPath f = folder).
Context (Hstart : 0 < start) (Hend : is_i64 (start + kDefaultCooldown)).
Context (Hclock : ∀ f : F, start <= unix_time f < start + kDefaultCooldown).

Notation cooling := (cooling folder start kPowerSchemeCapabilityId).

Lemma cooling_scheme_gates guid ack conf (w : W) g w' :
  cooling w → scheme_gates (Apply guid) ack conf w = (g, w') → allowed g = false.
Proof.
  intros Hc. unfold scheme_gates, GatherPowerSchemeGates, mthen, mret.
  destruct (ProbeAuditWritable (DefaultAuditLogPath w) w) as [probe w1] eqn:Ep.
  eapply cooling_probe in Hc; [|done..].
  destruct (GatherEnvironmentFacts w1) as [facts w2] eqn:Ef.
  pose proof (preserves_run files_of _ _ _ _ ltac:(frame) Ef) as Hf.
  apply (cooling_files _ _ _ _ w2) in Hc; [|done].
  intros [= <- <-]. cbn [is_forward]. rewrite EvaluateGates_allowed. cbn.
  rewrite (cooling_gate _ _ Hfolder Hclock _ _ Hc). apply andb_false_r.
Qed.

Lemma run_apply_cools target path guid record (w w' : W) :
  run_apply target path guid record w = (MkOutcome 0 [], w') → cooling w'.
Proof.
  unfold run_apply, mthen, mret. destruct (reconcile path record w) as [[] w1]; cbn [negb]; [|done].
  destruct (JournalAction _ _ _ _ _ w1) as [j w2].
  destruct (ApplySchemeWithRecord path guid w2) as [sw w3].
  destruct (AuditAction _ _ _ _ _ _ w3) as [u w4].
  destruct (switch_ok sw); cbn [negb]; [|done].
  destruct (RecordCooldownRun _ _ _ w4) as [[[]|e] w5] eqn:Er; intros [= <-].
  by eapply cooling_recorded in Er as [? _].
Qed.

(** After a switch that succeeded and whose cooldown was recorded, no further
    switch is made within the cooldown window, whatever its target, its
    configuration and the system's answers. *)
Lemma one_switch_per_cooldown args args' guid guid' ack ack' path path' (w w1 w2 : W) o :
  scheme_arguments initial_arguments args = Some (MkSchemeArguments (Some (Apply guid)) ack path) →
  scheme_arguments initial_arguments args' = Some (MkSchemeArguments (Some (Apply guid')) ack' path') →
  RunPowerSchemeCommand args w = (MkOutcome 0 [], w1) →
  RunPowerSchemeCommand args' w1 = (o, w2) →
  exit_code o = 2 ∧ calls w2 = calls w1.
Proof.
  intros Ea Ea' E E'. unfold RunPowerSchemeCommand in E, E'. fold initial_arguments in E, E'.
  rewrite Ea in E. rewrite Ea' in E'.
  assert (Hc : cooling w1).
  { destruct (scheme_config_gate path w) as [conf|]; [|done]. unfold mthen in E.
    destruct (scheme_gates _ _ _ w) as [g w0]. destruct (negb _); [done|].
    by eapply run_apply_cools in E. }
  destruct (scheme_config_gate path' w1) as [conf|]; [|by injection E' as <- <-]. unfold mthen in E'.
  destruct (scheme_gates _ _ _ w1) as [g w0] eqn:Eg.
  rewrite (cooling_scheme_gates _ _ _ _ _ _ Hc Eg) in E'. cbn [negb] in E'.
  injection E' as <- <-. split; [done|].
  exact (preserves_run calls _ _ _ _ (scheme_gates_calls _ _ _) Eg).
Qed.
End Cooldown.

(** ** A machine *)

(** A desk whose active scheme is its state, and whose configuration files all
    ask for switches. *)
Section Desk.
Import Machine.
#[local] Existing Instance all_capabilities.

#[local] Instance desk_schemes : PowerSchemeBackend string := {|
  GetActive s := (Success s, s); SetActive g _ := (Success tt, g)
|}.
#[local] Instance desk_configs : TomlFiles MemFs tree := λ _ _, inl
  [("application", TTable [("mode", TString "experimental")]);
   ("layers", TTable [("emergency", TBool true)]);
   ("power", TTable [("switch_power_scheme", TBool true)])].

Definition desk : World string MemFs string := (empty_fs, ([], kSchemeBalanced)).
Definition saver_arguments : list string :=
  ["power-saver"; "--acknowledge-system-wide-side-effects"; "c.toml"].
Definition fast_arguments : list string :=
  ["high-performance"; "c.toml"; "--acknowledge-system-wide-side-effects"].

Example power_scheme_guarded_witness :
  let w := (RunPowerSchemeCommand saver_arguments desk).2 in
  calls w = [kSchemePowerSaver] ∧ config_allows saver_arguments desk ∧ switch_allowed desk.
Proof.
  destruct (power_scheme_guarded saver_arguments desk
    (RunPowerSchemeCommand saver_arguments desk).2 _ (surjective_pairing _))
    as (made & Hm & _ & Hmatch).
  assert (Hc : calls (RunPowerSchemeCommand saver_arguments desk).2 = [kSchemePowerSaver])
    by (vm_compute; reflexivity).
  cbv zeta. split; [exact Hc|]. rewrite Hc in Hm. cbn [app] in Hm.
  destruct (scheme_arguments initial_arguments saver_arguments) as [a|] eqn:Ea;
    vm_compute in Ea; [|discriminate Ea]. injection Ea as <-.
  destruct Hmatch as [Hne _]. destruct Hne as (_ & ? & ?); [|split; assumption].
  intros ->. vm_compute in Hm. discriminate Hm.
Defined.

Example rollback_not_blocked_witness :
  let w := (RunPowerSchemeCommand saver_arguments desk).2 in
  ∃ w1, calls w1 = calls w ∧
    RunPowerSchemeCommand ["restore"] w =
      run_restore "defaults" (DefaultPowerSchemeSavePath w) w1.
Proof.
  cbv zeta. set (w := (RunPowerSchemeCommand saver_arguments desk).2).
  apply (rollback_not_blocked ["restore"] Restore false None w).
  - vm_compute. reflexivity.
  - left. reflexivity.
  - reflexivity.
  - eexists tt, _. rewrite (surjective_pairing (ProbeAuditWritable _ w)).
    apply f_equal2; [vm_compute; reflexivity|reflexivity].
  - eexists. reflexivity.
Defined.

Example one_switch_per_cooldown_witness :
  let w1 := (RunPowerSchemeCommand saver_arguments desk).2 in
  let '(o, w2) := RunPowerSchemeCommand fast_arguments w1 in
  calls w1 = [kSchemePowerSaver] ∧ exit_code o = 2 ∧ calls w2 = calls w1.
Proof.
  cbv zeta. set (w1 := (RunPowerSchemeCommand saver_arguments desk).2).
  destruct (RunPowerSchemeCommand fast_arguments w1) as [o w2] eqn:E.
  split; [vm_compute; reflexivity|].
  refine (one_switch_per_cooldown "C:\Users\u\CppOptimizer\config.local.toml" 1700000000
    _ _ _ _ saver_arguments fast_arguments kSchemePowerSaver kSchemeHighPerformance true true
    (Some "c.toml") (Some "c.toml") desk w1 w2 o _ _ _ E).
  - reflexivity.
  - reflexivity.
  - vm_compute. split; [discriminate|reflexivity].
  - intros f. vm_compute. split; [discriminate|reflexivity].
  - vm_compute. reflexivity.
  - vm_compute. reflexivity.
  - rewrite (surjective_pairing (RunPowerSchemeCommand saver_arguments desk)).
    apply f_equal2; [vm_compute; reflexivity|reflexivity].
Defined.
End Desk.
