(* ===== verification/Metrics.v ===== *)
(** What the program measures ([metrics/memory_metrics], [disk/disk_observer],
    [gpu/gpu_heartbeat], [metrics/pdh_metrics]): windows of memory samples,
    volumes and process counters, video memory, and the CPU counter, whose
    query object keeps its own pace. *)

From stdpp Require Import sorting.
From S2P Require Import Prelude CommonError Containers ProcessWatcher UserActivity Timing.

Open Scope string_scope.
Open Scope list_scope.
Open Scope Z_scope.

(** ** Windows of memory samples *)

Record MemorySample := MkSample { loadPercent : Z; availableBytes : Z }.

Record MemoryWindowReport := MkWindowReport {
  sampleCount : Z;
  minLoadPercent : Z;
  maxLoadPercent : Z;
  avgLoadPercent : Z;
  minAvailableBytes : Z;
  maxAvailableBytes : Z
}.

Definition kNoSamples : string := "An observation window must contain at least one sample".

(** The loop's running report, with the sum of the loads beside it. *)
Definition add_sample (acc : MemoryWindowReport * Z) (s : MemorySample) : MemoryWindowReport * Z :=
  let '(r, loadSum) := acc in
  (MkWindowReport (sampleCount r)
     (Z.min (minLoadPercent r) (loadPercent s)) (Z.max (maxLoadPercent r) (loadPercent s))
     (avgLoadPercent r)
     (Z.min (minAvailableBytes r) (availableBytes s))
     (Z.max (maxAvailableBytes r) (availableBytes s)),
   u64 (loadSum + loadPercent s)).

Definition AggregateMemoryWindow (samples : list MemorySample) : Result MemoryWindowReport :=
  match samples with
  | [] => Failure (Validation "AggregateMemoryWindow.samples" kNoSamples)
  | front :: _ =>
      if existsb (λ s, 100 <? loadPercent s) samples then
        Failure (Validation "AggregateMemoryWindow.loadPercent"
                   "Memory load percent must be in the range 0 to 100")
      else
        let '(r, loadSum) :=
          fold_left add_sample samples
            (MkWindowReport (len samples) 100 0 0 (availableBytes front) (availableBytes front), 0) in
        Success (MkWindowReport (sampleCount r) (minLoadPercent r) (maxLoadPercent r)
                   (u32 (u64 (loadSum + sampleCount r / 2) / sampleCount r))
                   (minAvailableBytes r) (maxAvailableBytes r))
  end.

Definition count_below (threshold : Z) (samples : list MemorySample) : Z :=
  len (filter (λ s, loadPercent s < threshold) samples).

Definition ShareOfLoadBelow (samples : list MemorySample) (thresholdPercent : Z) : Result Z :=
  match samples with
  | [] => Failure (Validation "ShareOfLoadBelow.samples" kNoSamples)
  | _ =>
      if 100 <? thresholdPercent then
        Failure (Validation "ShareOfLoadBelow.thresholdPercent"
                   "Threshold must be in the range 0 to 100")
      else
        let count := count_below thresholdPercent samples in
        Success (u32 (u64 (u64 (count * 100) + len samples / 2) / len samples))
  end.

(** ** Volumes and process counters *)

Record VolumeInfo := MkVolume {
  rootPath : wstring;
  fileSystem : wstring;
  totalBytes : Z;
  freeBytes : Z
}.

Record ProcessIo := MkProcessIo {
  io_processId : Z;
  io_name : wstring;
  readBytes : Z;
  writeBytes : Z
}.

Definition io_totalBytes (p : ProcessIo) : Z := u64 (readBytes p + writeBytes p).

Class DiskBackend (B : Type) := {
  ListVolumes : M B (Result (list VolumeInfo));
  ListProcessIo : M B (Result (list ProcessIo))
}.

(** The calls of the real backend; [None] is a failed call, whose code
    [last_disk_error] gives. [CreateToolhelp32Snapshot] answers the entries,
    identifier and name, that [Process32FirstW] and [Process32NextW] walk. *)
Class DiskApi (B : Type) := {
  last_disk_error : B → Z;
  GetLogicalDrives : M B Z;
  GetDriveTypeW : wstring → M B Z;
  GetDiskFreeSpaceExW : wstring → M B (option (Z * Z));
  GetVolumeInformationW : wstring → M B (option wstring);
  CreateProcessSnapshot : M B (option (list (Z * wstring)));
  Process32FirstW : M B (option Z);
  OpenProcessForIo : Z → M B (option Z);
  GetProcessIoCounters : Z → M B (option (Z * Z));
  CloseProcessHandle : Z → M B unit
}.

Definition DRIVE_NO_ROOT_DIR : Z := 1.

Definition drive_root (index : nat) : wstring := 65 + Z.of_nat index :: widen ":\".

Section RealDisk.
Context {B : Type} `{SystemMessages, DiskApi B}.

(** One turn of the loop over the drive letters. *)
Definition read_volume (mask : Z) (index : nat) : M B (option VolumeInfo) :=
  if negb (Z.testbit mask (Z.of_nat index)) then mret None
  else
    let root := drive_root index in
    type <-- GetDriveTypeW root ;;
    if type =? DRIVE_NO_ROOT_DIR then mret None
    else
      space <-- GetDiskFreeSpaceExW root ;;
      match space with
      | None => mret None
      | Some (free, total) =>
          name <-- GetVolumeInformationW root ;;
          mret (Some (MkVolume root (default [] name) total free))
      end.

Fixpoint read_volumes (mask : Z) (indices : list nat) : M B (list VolumeInfo) :=
  match indices with
  | [] => mret []
  | i :: is' =>
      volume <-- read_volume mask i ;;
      rest <-- read_volumes mask is' ;;
      mret (option_list volume ++ rest)
  end.

Definition read_counters (entry : Z * wstring) : M B (option ProcessIo) :=
  process <-- OpenProcessForIo entry.1 ;;
  match process with
  | None => mret None
  | Some h =>
      counters <-- GetProcessIoCounters h ;;
      CloseProcessHandle h ;;;
      mret (match counters with
            | None => None
            | Some (reads, writes) => Some (MkProcessIo entry.1 entry.2 reads writes)
            end)
  end.

Fixpoint read_processes (entries : list (Z * wstring)) : M B (list ProcessIo) :=
  match entries with
  | [] => mret []
  | e :: es =>
      item <-- read_counters e ;;
      rest <-- read_processes es ;;
      mret (option_list item ++ rest)
  end.

#[export] Instance RealDiskBackend : DiskBackend B := {|
  ListVolumes :=
    mask <-- GetLogicalDrives ;;
    if mask =? 0 then λ b, (Failure (FromWin32 (last_disk_error b) "GetLogicalDrives"), b)
    else volumes <-- read_volumes mask (seq 0 26) ;; mret (Success volumes);
  ListProcessIo :=
    snapshot <-- CreateProcessSnapshot ;;
    match snapshot with
    | None => λ b, (Failure (FromWin32 (last_disk_error b) "CreateToolhelp32Snapshot"), b)
    | Some entries =>
        failed <-- Process32FirstW ;;
        match failed with
        | Some error =>
            if error =? 18 then mret (Success [])
            else mret (Failure (FromWin32 error "Process32FirstW"))
        | None => processes <-- read_processes entries ;; mret (Success processes)
        end
    end
|}.
End RealDisk.

Module VolumePressure.
Inductive VolumePressure := Unknown | Low | Medium | High.
End VolumePressure.
Abbreviation VolumePressure := VolumePressure.VolumePressure.

Definition ClassifyVolumeUsage (totalBytes freeBytes : Z) : VolumePressure :=
  if totalBytes =? 0 then VolumePressure.Unknown
  else
    let used := if freeBytes <? totalBytes then totalBytes - freeBytes else 0 in
    let usedPercent := u64 (used * 100) / totalBytes in
    if 90 <=? usedPercent then VolumePressure.High
    else if 75 <=? usedPercent then VolumePressure.Medium
    else VolumePressure.Low.

Definition VolumePressureToString (p : VolumePressure) : string :=
  match p with
  | VolumePressure.Unknown => "Unknown"
  | VolumePressure.Low => "Low"
  | VolumePressure.Medium => "Medium"
  | VolumePressure.High => "High"
  end.

(** [std::stable_sort] by descending total: a process goes before those that
    follow it unless they have more. *)
Fixpoint insert_io (p : ProcessIo) (sorted : list ProcessIo) : list ProcessIo :=
  match sorted with
  | [] => [p]
  | q :: rest => if io_totalBytes p <? io_totalBytes q then q :: insert_io p rest else p :: sorted
  end.

Definition stable_sort_io (processes : list ProcessIo) : list ProcessIo :=
  foldr insert_io [] processes.

Definition TopByIo (processes : list ProcessIo) (count : nat) : list ProcessIo :=
  let sorted := stable_sort_io processes in
  if (count <? length sorted)%nat then take count sorted else sorted.

Definition DescribeVolume (v : VolumeInfo) : wstring :=
  widen "volume: " ++ rootPath v ++ widen " fs=" ++
  (if len (fileSystem v) =? 0 then widen "(unknown)" else fileSystem v) ++
  widen (" total=" +:+ to_string (totalBytes v) +:+ " free=" +:+ to_string (freeBytes v) +:+
         " pressure=" +:+ VolumePressureToString (ClassifyVolumeUsage (totalBytes v) (freeBytes v))).

Definition DescribeProcessIo (p : ProcessIo) : wstring :=
  widen ("    pid=" +:+ to_string (io_processId p) +:+ " ") ++ io_name p ++
  widen (" read=" +:+ to_string (readBytes p) +:+ " write=" +:+ to_string (writeBytes p)).

(** ** Video memory *)

Record VideoMemoryInfo := MkVideoMemory {
  budgetBytes : Z;
  usageBytes : Z;
  reservableBytes : Z
}.

Record AdapterSnapshot := MkAdapter {
  adapter_name : string;
  vendorId : Z;
  deviceId : Z;
  dedicatedVideoMemory : Z;
  memory_info : option VideoMemoryInfo
}.

Class GpuBackend (B : Type) := EnumerateAdapters : M B (Result (list AdapterSnapshot)).

Record DXGI_ADAPTER_DESC1 := MkAdapterDesc {
  Description : wstring;
  VendorId : Z;
  DeviceId : Z;
  DedicatedVideoMemory : Z
}.

(** DXGI. [EnumAdapters1] answers an adapter, or none past the last;
    [QueryVideoMemoryInfo] covers [As<IDXGIAdapter3>]. COM pointers are released
    when they go out of scope. *)
Class Dxgi (B : Type) := {
  CreateDXGIFactory1 : M B Z;
  EnumAdapters1 : Z → M B (option Z);
  GetDesc1 : Z → M B (option DXGI_ADAPTER_DESC1);
  QueryVideoMemoryInfo : Z → M B (option VideoMemoryInfo)
}.

Section RealGpu.
Context {B : Type} `{SystemMessages, CodePages, Dxgi B}.

(** A description that cannot be converted is left empty. *)
Definition gpu_WideToUtf8 (text : wstring) : string :=
  match text with
  | [] => ""
  | _ => match WideCharToMultiByte text with inl utf8 => utf8 | inr _ => "" end
  end.

Definition read_adapter (adapter : Z) : M B (option AdapterSnapshot) :=
  desc <-- GetDesc1 adapter ;;
  match desc with
  | None => mret None
  | Some d =>
      memory <-- QueryVideoMemoryInfo adapter ;;
      mret (Some (MkAdapter (gpu_WideToUtf8 (Description d)) (VendorId d) (DeviceId d)
                    (DedicatedVideoMemory d) memory))
  end.

(** The loop over the indices, a [UINT]; [None] out of fuel. *)
Fixpoint enumerate (fuel : nat) (index : Z) : M B (option (list AdapterSnapshot)) :=
  match fuel with
  | O => mret None
  | S f =>
      adapter <-- EnumAdapters1 index ;;
      match adapter with
      | None => mret (Some [])
      | Some a =>
          item <-- read_adapter a ;;
          rest <-- enumerate f (u32 (index + 1)) ;;
          mret (match rest with Some r => Some (option_list item ++ r) | None => None end)
      end
  end.

Definition EnumerateAdaptersReal (fuel : nat) : M B (option (Result (list AdapterSnapshot))) :=
  created <-- CreateDXGIFactory1 ;;
  if created <? 0 then mret (Some (Failure (FromHResult created "CreateDXGIFactory1")))
  else
    adapters <-- enumerate fuel 0 ;;
    mret (match adapters with Some a => Some (Success a) | None => None end).
End RealGpu.

Module MemoryPressure.
Inductive MemoryPressure := Unknown | Low | Medium | High.
End MemoryPressure.
Abbreviation MemoryPressure := MemoryPressure.MemoryPressure.

Definition ClassifyPressure (info : VideoMemoryInfo) : MemoryPressure :=
  if budgetBytes info =? 0 then MemoryPressure.Unknown
  else
    let usagePercent := u64 (usageBytes info * 100) / budgetBytes info in
    if 90 <=? usagePercent then MemoryPressure.High
    else if 70 <=? usagePercent then MemoryPressure.Medium
    else MemoryPressure.Low.

Definition MemoryPressureToString (p : MemoryPressure) : string :=
  match p with
  | MemoryPressure.Unknown => "Unknown"
  | MemoryPressure.Low => "Low"
  | MemoryPressure.Medium => "Medium"
  | MemoryPressure.High => "High"
  end.

(** [std::hex] without [std::uppercase]. *)
Definition hex_lower (n : Z) : string := map_chars ascii_lower (hex_go 16 (u64 n) "").

(** The name's bytes are widened one by one, sign included. *)
Definition DescribeAdapter (a : AdapterSnapshot) : wstring := widen (
  "adapter: " +:+ (if string_empty (adapter_name a) then "(unnamed)" else adapter_name a) +:+
  " vendor=0x" +:+ hex_lower (vendorId a) +:+ " device=0x" +:+ hex_lower (deviceId a) +:+
  " vram=" +:+ to_string (dedicatedVideoMemory a) +:+
  match memory_info a with
  | Some m =>
      " budget=" +:+ to_string (budgetBytes m) +:+ " usage=" +:+ to_string (usageBytes m) +:+
      " pressure=" +:+ MemoryPressureToString (ClassifyPressure m)
  | None => " budget=unknown pressure=Unknown"
  end).

(** ** The CPU counter *)

(** A [double] is uninterpreted; [zero] is [0.0]. *)
Record CpuSample (D : Type) := MkCpuSample { valid : bool; usagePercent : D }.
Arguments MkCpuSample {D}.
Arguments valid {D}.
Arguments usagePercent {D}.

(** Each call answers its [PDH_STATUS], zero for success. *)
Class PdhApi (D B : Type) := {
  zero : D;
  PdhOpenQueryW : M B (Z * Z);
  PdhAddEnglishCounterW : Z → string → M B (Z * Z);
  PdhCollectQueryData : Z → M B Z;
  PdhGetFormattedCounterValue : Z → M B (Z * (Z * D));
  PdhCloseQuery : Z → M B unit;
  pdh_now : B → Z
}.

Definition PDH_CSTATUS_VALID_DATA : Z := 0.
Definition PDH_CSTATUS_NEW_DATA : Z := 1.
Definition kCounterPath : string := "\Processor(_Total)\% Processor Time".

(** The members; a handle is zero when it is null, times are in nanoseconds. *)
Record PdhCpuQuery := MkPdhQuery {
  queryHandle : Z;
  counterHandle : Z;
  hasPreviousSample : bool;
  minInterval : Z;
  lastSampleTime : Z;
  hasLastSampleTime : bool
}.

Definition new_query (interval : Z) : PdhCpuQuery := MkPdhQuery 0 0 false interval 0 false.

Section Pdh.
Context {D B : Type} `{SystemMessages, PdhApi D B, Sleeping B}.

Definition Pdh_Close (q : PdhCpuQuery) : M B PdhCpuQuery :=
  if queryHandle q =? 0 then mret q
  else
    PdhCloseQuery (queryHandle q) ;;;
    mret (MkPdhQuery 0 0 false (minInterval q) (lastSampleTime q) false).

Definition Pdh_Initialize (q : PdhCpuQuery) : M B (Result unit * PdhCpuQuery) :=
  q <-- Pdh_Close q ;;
  opened <-- PdhOpenQueryW ;;
  let '(status, query) := opened in
  if negb (status =? 0) then mret (Failure (FromPdh status "PdhOpenQueryW"), q)
  else
    added <-- PdhAddEnglishCounterW query kCounterPath ;;
    let '(status, counter) := added in
    if negb (status =? 0) then
      PdhCloseQuery query ;;;
      mret (Failure (FromPdh status "PdhAddEnglishCounterW"), q)
    else
      mret (Success tt,
            MkPdhQuery query counter false (minInterval q) (lastSampleTime q) false).

(** The wait that keeps two collections apart. *)
Definition Pdh_wait (q : PdhCpuQuery) : M B unit := λ b,
  let elapsed := pdh_now b - lastSampleTime q in
  if hasLastSampleTime q && (elapsed <? minInterval q)
  then sleep_for (minInterval q - elapsed) b
  else (tt, b).

Definition Pdh_Sample (q : PdhCpuQuery) : M B (Result (CpuSample D) * PdhCpuQuery) :=
  if (queryHandle q =? 0) || (counterHandle q =? 0) then
    mret (Failure (Validation "PdhCpuQuery::Sample" "Query not initialized"), q)
  else
    Pdh_wait q ;;;
    status <-- PdhCollectQueryData (queryHandle q) ;;
    if negb (status =? 0) then mret (Failure (FromPdh status "PdhCollectQueryData"), q)
    else
      now <-- (λ b, (pdh_now b, b)) ;;
      let q := MkPdhQuery (queryHandle q) (counterHandle q) (hasPreviousSample q)
                 (minInterval q) now true in
      if negb (hasPreviousSample q) then
        mret (Success (MkCpuSample false zero),
              MkPdhQuery (queryHandle q) (counterHandle q) true (minInterval q) now true)
      else
        formatted <-- PdhGetFormattedCounterValue (counterHandle q) ;;
        let '(status, (CStatus, doubleValue)) := formatted in
        if negb (status =? 0) then
          mret (Failure (FromPdh status "PdhGetFormattedCounterValue"), q)
        else if negb (CStatus =? PDH_CSTATUS_VALID_DATA) && negb (CStatus =? PDH_CSTATUS_NEW_DATA)
        then mret (Failure (Validation "PdhCpuQuery::Sample" "Counter data not valid"), q)
        else mret (Success (MkCpuSample true doubleValue), q).
End Pdh.

(** ** Aggregates *)

Definition least (l : list Z) (m : Z) : Prop := m ∈ l ∧ Forall (λ x, m <= x) l.
Definition greatest (l : list Z) (m : Z) : Prop := m ∈ l ∧ Forall (λ x, x <= m) l.

Definition load_sum (samples : list MemorySample) : Z := foldr (λ s t, loadPercent s + t) 0 samples.

(** [q] is [a / n] rounded to the nearest integer, halves up. *)
Definition rounds_half_up (a n q : Z) : Prop := 2 * a - n < 2 * n * q <= 2 * a + n.

Lemma least_unique l m m' : least l m → least l m' → m = m'.
Proof.
  intros [Hm Hl] [Hm' Hl']. rewrite Forall_forall in Hl. rewrite Forall_forall in Hl'.
  apply Z.le_antisymm; auto.
Qed.

Lemma greatest_unique l m m' : greatest l m → greatest l m' → m = m'.
Proof.
  intros [Hm Hl] [Hm' Hl']. rewrite Forall_forall in Hl. rewrite Forall_forall in Hl'.
  apply Z.le_antisymm; auto.
Qed.

#[local] Instance least_proper : Proper ((≡ₚ) ==> eq ==> iff) least.
Proof. intros l l' Hl m ? <-. unfold least. by rewrite Hl. Qed.
#[local] Instance greatest_proper : Proper ((≡ₚ) ==> eq ==> iff) greatest.
Proof. intros l l' Hl m ? <-. unfold greatest. by rewrite Hl. Qed.

Lemma half_bounds {A} (l : list A) : 0 <= len l / 2 <= len l.
Proof. split; [apply Z.div_pos; lia|apply Z.div_le_upper_bound; lia]. Qed.

Lemma rounds_unique a n q q' : 0 < n → rounds_half_up a n q → rounds_half_up a n q' → q = q'.
Proof. unfold rounds_half_up. intros. nia. Qed.

Lemma rounds_div a n : 0 < n → rounds_half_up a n ((a + n / 2) / n).
Proof.
  intros Hn. unfold rounds_half_up.
  pose proof (Z.div_mod (a + n / 2) n ltac:(lia)). pose proof (Z.mod_pos_bound (a + n / 2) n Hn).
  pose proof (Z.div_mod n 2 ltac:(lia)). pose proof (Z.mod_pos_bound n 2 ltac:(lia)). nia.
Qed.

Lemma rounds_between a n q lo hi :
  0 < n → rounds_half_up a n q → n * lo <= a → a <= n * hi → lo <= q <= hi.
Proof. unfold rounds_half_up. intros. split; nia. Qed.

Lemma least_cons x l m : least l m → least (x :: l) (Z.min x m).
Proof.
  intros [Hm Hl]. split.
  - destruct (Z.min_spec x m) as [[_ ->]|[_ ->]]; set_solver.
  - constructor; [lia|]. eapply Forall_impl; [exact Hl|]. cbn. lia.
Qed.

Lemma greatest_cons x l m : greatest l m → greatest (x :: l) (Z.max x m).
Proof.
  intros [Hm Hl]. split.
  - destruct (Z.max_spec x m) as [[_ ->]|[_ ->]]; set_solver.
  - constructor; [lia|]. eapply Forall_impl; [exact Hl|]. cbn. lia.
Qed.

(** A bound that some element meets adds nothing. *)
Lemma least_drop x l m : least (x :: l) m → (∃ y, y ∈ l ∧ y <= x) → least l m.
Proof.
  intros [Hm Hl] (y & Hy & Hle). rewrite Forall_cons in Hl. destruct Hl as [_ Hl].
  split; [|done]. rewrite Forall_forall in Hl. specialize (Hl _ Hy).
  apply elem_of_cons in Hm as [->|]; [|done]. by replace x with y by lia.
Qed.

Lemma greatest_drop x l m : greatest (x :: l) m → (∃ y, y ∈ l ∧ x <= y) → greatest l m.
Proof.
  intros [Hm Hl] (y & Hy & Hle). rewrite Forall_cons in Hl. destruct Hl as [_ Hl].
  split; [|done]. rewrite Forall_forall in Hl. specialize (Hl _ Hy).
  apply elem_of_cons in Hm as [->|]; [|done]. by replace x with y by lia.
Qed.

Lemma add_samples l r sum :
  let '(r', sum') := fold_left add_sample l (r, u64 sum) in
  sampleCount r' = sampleCount r ∧ sum' = u64 (sum + load_sum l) ∧
  least (minLoadPercent r :: map loadPercent l) (minLoadPercent r') ∧
  greatest (maxLoadPercent r :: map loadPercent l) (maxLoadPercent r') ∧
  least (minAvailableBytes r :: map availableBytes l) (minAvailableBytes r') ∧
  greatest (maxAvailableBytes r :: map availableBytes l) (maxAvailableBytes r').
Proof.
  revert r sum. induction l as [|s l IH]; intros r sum; cbn [fold_left].
  - cbn. rewrite Z.add_0_r. unfold least, greatest.
    repeat split; try apply list_elem_of_singleton; repeat constructor; lia.
  - cbn [add_sample]. replace (u64 (u64 sum + loadPercent s)) with (u64 (sum + loadPercent s))
      by (unfold u64; by rewrite Z.add_mod_idemp_l).
    specialize (IH (MkWindowReport (sampleCount r)
      (Z.min (minLoadPercent r) (loadPercent s)) (Z.max (maxLoadPercent r) (loadPercent s))
      (avgLoadPercent r) (Z.min (minAvailableBytes r) (availableBytes s))
      (Z.max (maxAvailableBytes r) (availableBytes s))) (sum + loadPercent s)).
    destruct (fold_left _ _ _) as [r' sum']. cbn in *.
    destruct IH as (-> & -> & H1 & H2 & H3 & H4).
    split; [done|]. split; [by rewrite Z.add_assoc|].
    unfold least, greatest in *. rewrite !Forall_cons in *. rewrite !elem_of_cons in *.
    destruct H1 as [M1 [? ?]], H2 as [M2 [? ?]], H3 as [M3 [? ?]], H4 as [M4 [? ?]].
    split_and!; try done; try lia.
    all: first [destruct M1 as [M|]; [|by auto]; destruct (Z.min_spec (minLoadPercent r) (loadPercent s)); lia
               | idtac].
    all: first [destruct M2 as [M|]; [|by auto]; destruct (Z.max_spec (maxLoadPercent r) (loadPercent s)); lia
               | idtac].
    all: first [destruct M3 as [M|]; [|by auto]; destruct (Z.min_spec (minAvailableBytes r) (availableBytes s)); lia
               | idtac].
    all: first [destruct M4 as [M|]; [|by auto]; destruct (Z.max_spec (maxAvailableBytes r) (availableBytes s)); lia
               | idtac].
Qed.

Lemma load_sum_bounds lo hi samples :
  Forall (λ s, lo <= loadPercent s <= hi) samples →
  len samples * lo <= load_sum samples <= len samples * hi.
Proof. induction 1; cbn [load_sum foldr length]; unfold load_sum in *; lia. Qed.

Lemma load_sum_perm a b : a ≡ₚ b → load_sum a = load_sum b.
Proof. induction 1; cbn; unfold load_sum in *; lia. Qed.

Definition window_report (samples : list MemorySample) (r : MemoryWindowReport) : Prop :=
  sampleCount r = len samples ∧
  least (map loadPercent samples) (minLoadPercent r) ∧
  greatest (map loadPercent samples) (maxLoadPercent r) ∧
  least (map availableBytes samples) (minAvailableBytes r) ∧
  greatest (map availableBytes samples) (maxAvailableBytes r) ∧
  rounds_half_up (load_sum samples) (len samples) (avgLoadPercent r).

Lemma window_report_unique a b r r' :
  a ≠ [] → a ≡ₚ b → window_report a r → window_report b r' → r = r'.
Proof.
  intros Hne Hab (H1 & H2 & H3 & H4 & H5 & H6) (G1 & G2 & G3 & G4 & G5 & G6).
  assert (0 < len a) by (destruct a; [done|cbn; lia]).
  rewrite <- Hab in G2, G3, G4, G5.
  rewrite <- (Permutation_length Hab) in G1, G6. rewrite <- (load_sum_perm _ _ Hab) in G6.
  destruct r, r'; cbn in *.
  rewrite (least_unique _ _ _ H2 G2), (greatest_unique _ _ _ H3 G3), (least_unique _ _ _ H4 G4),
    (greatest_unique _ _ _ H5 G5), (rounds_unique _ _ _ _ ltac:(done) H6 G6). congruence.
Qed.

Definition loads_ok (samples : list MemorySample) : Prop :=
  Forall (λ s, 0 <= loadPercent s <= 100) samples.

Lemma AggregateMemoryWindow_reports samples :
  101 * len samples < 2 ^ 64 → Forall (λ s, is_u32 (loadPercent s)) samples →
  (samples = [] ∨ ¬ loads_ok samples) ∧
    (∃ e, AggregateMemoryWindow samples = Failure e ∧
          operation e = if decide (samples = []) then "AggregateMemoryWindow.samples"
                 else "AggregateMemoryWindow.loadPercent") ∨
  (samples ≠ [] ∧ loads_ok samples) ∧
    ∃ r, AggregateMemoryWindow samples = Success r ∧ window_report samples r.
Proof.
  intros Hlen Hu. unfold AggregateMemoryWindow.
  destruct samples as [|s0 l]; [left; split; [by left|]; by eexists|].
  destruct (existsb _ _) eqn:E.
  - left. split.
    + right. intros Hok. apply existsb_exists in E as (s & Hs & Hgt).
      apply list_elem_of_In in Hs. unfold loads_ok in Hok. rewrite Forall_forall in Hok.
      specialize (Hok _ Hs). lia.
    + eexists. split; [done|]. by rewrite decide_False.
  - right. assert (Hok : loads_ok (s0 :: l)).
    { unfold loads_ok. rewrite Forall_forall in Hu |- *. intros s Hs. split; [by apply Hu|].
      assert (existsb (λ s, 100 <? loadPercent s) (s0 :: l) = true → False) by congruence.
      destruct (Z.le_gt_cases (loadPercent s) 100); [done|]. exfalso. apply H.
      apply existsb_exists. exists s. rewrite <- list_elem_of_In. split; [done|lia]. }
    split; [done|].
    pose proof (add_samples (s0 :: l)
      (MkWindowReport (len (s0 :: l)) 100 0 0 (availableBytes s0) (availableBytes s0)) 0) as F.
    change (u64 0) with 0 in F. destruct (fold_left _ _ _) as [r sum].
    destruct F as (Hn & -> & F1 & F2 & F3 & F4). cbn [sampleCount minLoadPercent maxLoadPercent
      minAvailableBytes maxAvailableBytes] in *.
    pose proof (load_sum_bounds 0 100 _ Hok) as Hsum.
    eexists. split; [done|]. unfold window_report. rewrite Hn. cbn [sampleCount minLoadPercent
      maxLoadPercent avgLoadPercent minAvailableBytes maxAvailableBytes].
    assert (Hpos : 0 < len (s0 :: l)) by (cbn; lia).
    pose proof (rounds_div (load_sum (s0 :: l)) _ Hpos) as Hr.
    pose proof (rounds_between _ _ _ 0 100 Hpos Hr ltac:(lia) ltac:(lia)) as Hb.
    rewrite (u64_small (0 + _)) by (unfold is_u64; lia). rewrite Z.add_0_l.
    rewrite (u64_small (_ + _)).
    2:{ unfold is_u64. pose proof (half_bounds (s0 :: l)). lia. }
    rewrite (u32_small (_ / _)) by (unfold is_u32; lia).
    split_and!; try done.
    + eapply least_drop; [exact F1|]. exists (loadPercent s0). split; [set_solver|].
      unfold loads_ok in Hok. rewrite Forall_cons in Hok. lia.
    + eapply greatest_drop; [exact F2|]. exists (loadPercent s0). split; [set_solver|].
      unfold loads_ok in Hok. rewrite Forall_cons in Hok. lia.
    + eapply least_drop; [exact F3|]. exists (availableBytes s0). split; [set_solver|lia].
    + eapply greatest_drop; [exact F4|]. exists (availableBytes s0). split; [set_solver|lia].
Qed.

(** The report of a window: it is refused exactly when it is empty or holds
    a load above 100; otherwise minimum and maximum are the least and greatest
    samples, the average is the mean rounded half up and lies between them, and
    the order of the samples does not matter. *)
Lemma AggregateMemoryWindow_spec samples :
  101 * len samples < 2 ^ 64 → Forall (λ s, is_u32 (loadPercent s)) samples →
  (HasValue (AggregateMemoryWindow samples) = true ↔ samples ≠ [] ∧ loads_ok samples) ∧
  (∀ r, AggregateMemoryWindow samples = Success r →
     window_report samples r ∧
     0 <= minLoadPercent r <= avgLoadPercent r ∧ avgLoadPercent r <= maxLoadPercent r <= 100) ∧
  ∀ samples', samples ≡ₚ samples' →
    AggregateMemoryWindow samples' = AggregateMemoryWindow samples.
Proof.
  intros Hlen Hu.
  assert (Hperm : ∀ samples', samples ≡ₚ samples' →
    AggregateMemoryWindow samples' = AggregateMemoryWindow samples).
  { intros b Hab.
    pose proof (AggregateMemoryWindow_reports samples Hlen Hu) as Ha.
    rewrite (Permutation_length Hab) in Hlen. rewrite Hab in Hu.
    pose proof (AggregateMemoryWindow_reports b Hlen Hu) as Hb'. clear Hlen Hu.
    destruct samples as [|s a]; [apply Permutation_nil_l in Hab; subst; done|].
    destruct b as [|s' b]; [by apply Permutation_nil_r in Hab|].
    assert (Hbad : ¬ loads_ok (s :: a) ↔ ¬ loads_ok (s' :: b)) by (unfold loads_ok; by rewrite Hab).
    destruct Ha as [[[?|Hx] (e & E & _)]|[[_ Hx] (r & E & Hr)]],
      Hb' as [[[?|Hy] (e' & E' & _)]|[[_ Hy] (r' & E' & Hr')]]; try done; try tauto.
    - revert E E'. unfold AggregateMemoryWindow.
      repeat (destruct (existsb _ _); [|destruct (fold_left _ _ _); done]). done.
    - rewrite E, E'. f_equal. symmetry. by apply (window_report_unique (s :: a) (s' :: b)). }
  split_and!; [| |done];
    destruct (AggregateMemoryWindow_reports samples Hlen Hu) as [[Hbad (e & -> & _)]|[[Hne Hok] (r & -> & Hr)]].
  - cbn. split; [done|]. intros [? ?]. by destruct Hbad.
  - done.
  - done.
  - intros r' [= <-]. split; [done|]. destruct Hr as (_ & [Hm Hml] & [HM HMl] & _ & _ & Hr).
    assert (Hpos : 0 < len samples) by (destruct samples; [done|cbn; lia]).
    assert (Hb : Forall (λ s, minLoadPercent r <= loadPercent s <= maxLoadPercent r) samples).
    { rewrite Forall_map in Hml, HMl. apply Forall_and. done. }
    apply load_sum_bounds in Hb.
    pose proof (rounds_between _ _ _ _ _ Hpos Hr ltac:(apply Hb) ltac:(apply Hb)).
    apply list_elem_of_fmap in Hm as (s & Es & Hs), HM as (s' & Es' & Hs').
    unfold loads_ok in Hok. rewrite Forall_forall in Hok.
    pose proof (Hok _ Hs). pose proof (Hok _ Hs'). lia.
Qed.

Lemma count_below_bounds t samples : 0 <= count_below t samples <= len samples.
Proof.
  unfold count_below. pose proof (length_filter (λ s, loadPercent s < t) samples). lia.
Qed.

(** The share of the samples below a threshold: a percentage rounded half
    up, which does not depend on the order and grows with the threshold. *)
Lemma ShareOfLoadBelow_spec samples t p :
  101 * len samples < 2 ^ 64 →
  ShareOfLoadBelow samples t = Success p →
  0 <= p <= 100 ∧
  rounds_half_up (100 * count_below t samples) (len samples) p ∧
  (∀ samples', samples ≡ₚ samples' → ShareOfLoadBelow samples' t = Success p) ∧
  ∀ t' p', t <= t' → ShareOfLoadBelow samples t' = Success p' → p <= p'.
Proof.
  intros Hlen E.
  assert (Hall : ∀ t p, ShareOfLoadBelow samples t = Success p →
    0 < len samples ∧ 0 <= p <= 100 ∧
    rounds_half_up (100 * count_below t samples) (len samples) p).
  { clear t p E. intros t p. unfold ShareOfLoadBelow. destruct samples as [|s l]; [done|].
    destruct (100 <? t); [done|]. intros [= <-]. change (S (length l)) with (length (s :: l)).
    assert (Hpos : 0 < len (s :: l)) by (cbn; lia).
    pose proof (count_below_bounds t (s :: l)) as Hc.
    pose proof (rounds_div (100 * count_below t (s :: l)) _ Hpos) as Hr.
    pose proof (rounds_between _ _ _ 0 100 Hpos Hr ltac:(lia) ltac:(lia)) as Hb.
    pose proof (half_bounds (s :: l)).
    rewrite (u64_small (_ * 100)) by (unfold is_u64; lia). rewrite (Z.mul_comm _ 100).
    rewrite (u64_small (_ + _)) by (unfold is_u64; lia).
    rewrite (u32_small (_ / _)) by (unfold is_u32; lia). done. }
  destruct (Hall _ _ E) as (Hpos & Hp & Hr). split_and!; try done; try lia.
  - intros b Hab. revert E. unfold ShareOfLoadBelow, count_below.
    destruct samples as [|s a]; [done|]. destruct b as [|s' b]; [by apply Permutation_nil_r in Hab|].
    by rewrite Hab.
  - intros t' p' Ht E'. destruct (Hall _ _ E') as (_ & _ & Hr').
    assert (count_below t samples <= count_below t' samples).
    { unfold count_below. apply Nat2Z.inj_le, sublist_length.
      clear -Ht. induction samples as [|s l IH]; [done|]. rewrite !filter_cons.
      repeat case_decide; try lia; try (by constructor); done. }
    unfold rounds_half_up in *. nia.
Qed.

(** ** Thresholds *)

(** While the product fits, the percentage is exact: the thresholds are those of
    the ratio itself. *)
Lemma percent_reaches a b k :
  0 <= a → 0 < b → 100 * a < 2 ^ 64 → (k <= u64 (a * 100) / b ↔ k * b <= 100 * a).
Proof.
  intros Ha Hb Hs. rewrite u64_small by (unfold is_u64; lia).
  rewrite (Z.mul_comm a 100). split; intros Hk.
  - pose proof (Z.mul_div_le (100 * a) b Hb). nia.
  - by apply Z.div_le_lower_bound; [|lia].
Qed.

Definition used_bytes (totalBytes freeBytes : Z) : Z := Z.max 0 (totalBytes - freeBytes).

Lemma ClassifyVolumeUsage_iff total free :
  0 <= total → 100 * used_bytes total free < 2 ^ 64 →
  (ClassifyVolumeUsage total free = VolumePressure.High ↔
     total ≠ 0 ∧ 9 * total <= 10 * used_bytes total free) ∧
  (ClassifyVolumeUsage total free = VolumePressure.Medium ↔
     total ≠ 0 ∧ 3 * total <= 4 * used_bytes total free ∧ 10 * used_bytes total free < 9 * total) ∧
  (ClassifyVolumeUsage total free = VolumePressure.Unknown ↔ total = 0).
Proof.
  intros Ht Hs. unfold ClassifyVolumeUsage. destruct (total =? 0) eqn:E; b2p.
  { subst. intuition (try done; try lia). }
  assert (Hu : (if free <? total then total - free else 0) = used_bytes total free).
  { unfold used_bytes. destruct (free <? total) eqn:F; b2p; lia. }
  rewrite Hu. assert (0 <= used_bytes total free) by (unfold used_bytes; lia).
  pose proof (percent_reaches (used_bytes total free) total 90).
  pose proof (percent_reaches (used_bytes total free) total 75).
  destruct (90 <=? _) eqn:E9; [|destruct (75 <=? _) eqn:E7]; b2p; intuition (try done; try lia).
Qed.

Lemma gpu_ClassifyPressure_iff info :
  0 <= usageBytes info → 0 <= budgetBytes info → 100 * usageBytes info < 2 ^ 64 →
  (ClassifyPressure info = MemoryPressure.High ↔
     budgetBytes info ≠ 0 ∧ 9 * budgetBytes info <= 10 * usageBytes info) ∧
  (ClassifyPressure info = MemoryPressure.Medium ↔
     budgetBytes info ≠ 0 ∧ 7 * budgetBytes info <= 10 * usageBytes info < 9 * budgetBytes info) ∧
  (ClassifyPressure info = MemoryPressure.Unknown ↔ budgetBytes info = 0).
Proof.
  intros Hu Hb Hs. unfold ClassifyPressure. destruct (budgetBytes info =? 0) eqn:E; b2p.
  { intuition (try done; try lia). }
  pose proof (percent_reaches (usageBytes info) (budgetBytes info) 90).
  pose proof (percent_reaches (usageBytes info) (budgetBytes info) 70).
  destruct (90 <=? _) eqn:E9; [|destruct (70 <=? _) eqn:E7]; b2p; intuition (try done; try lia).
Qed.

(** Beyond, the product wraps: a volume of 2^58 bytes that is full is rated low. *)
Lemma ClassifyVolumeUsage_wraps : ClassifyVolumeUsage (2 ^ 58) 0 = VolumePressure.Low.
Proof. reflexivity. Qed.

(** ** The busiest processes *)

Definition descending : list ProcessIo → Prop :=
  StronglySorted (λ p q, io_totalBytes q <= io_totalBytes p).

Lemma insert_io_perm p l : insert_io p l ≡ₚ p :: l.
Proof.
  induction l as [|q l IH]; cbn; [done|]. destruct (_ <? _); [|done].
  rewrite IH. apply Permutation_swap.
Qed.

Lemma insert_io_descending p l : descending l → descending (insert_io p l).
Proof.
  unfold descending. induction 1 as [|q l Hl IH Hq]; cbn; [repeat constructor|].
  destruct (_ <? _) eqn:E; b2p.
  - constructor; [done|]. rewrite insert_io_perm. constructor; [lia|done].
  - constructor; [by constructor|]. constructor; [lia|].
    eapply Forall_impl; [exact Hq|]. cbn. lia.
Qed.

Lemma insert_io_stable t p l :
  descending l → filter (λ q, io_totalBytes q = t) (insert_io p l) =
                 filter (λ q, io_totalBytes q = t) (p :: l).
Proof.
  intros Hl. induction Hl as [|q l Hl IH Hq]; cbn [insert_io]; [done|].
  destruct (_ <? _) eqn:E; b2p; [|done].
  rewrite filter_cons, IH, !filter_cons. repeat case_decide; try done; lia.
Qed.

Lemma stable_sort_io_spec ps :
  stable_sort_io ps ≡ₚ ps ∧ descending (stable_sort_io ps) ∧
  ∀ t, filter (λ q, io_totalBytes q = t) (stable_sort_io ps) = filter (λ q, io_totalBytes q = t) ps.
Proof.
  induction ps as [|p ps (Hp & Hd & Hs)]; cbn; [split_and!; [done|constructor|done]|].
  fold (stable_sort_io ps). split_and!.
  - by rewrite insert_io_perm, Hp.
  - by apply insert_io_descending.
  - intros t. rewrite insert_io_stable by done. by rewrite !filter_cons, Hs.
Qed.

(** The busiest processes are the head of the one list that holds the same
    processes by descending total and keeps equal totals in their order. *)
Lemma TopByIo_spec ps count :
  ∃ rest, length (TopByIo ps count) = Nat.min count (length ps) ∧
    TopByIo ps count ++ rest ≡ₚ ps ∧ descending (TopByIo ps count ++ rest) ∧
    ∀ t, filter (λ q, io_totalBytes q = t) (TopByIo ps count ++ rest) =
         filter (λ q, io_totalBytes q = t) ps.
Proof.
  destruct (stable_sort_io_spec ps) as (Hp & Hd & Hs).
  pose proof (Permutation_length Hp) as Hl. unfold TopByIo.
  destruct (_ <? _)%nat eqn:E; [apply Nat.ltb_lt in E|apply Nat.ltb_ge in E].
  - exists (drop count (stable_sort_io ps)). rewrite take_drop, length_take. split_and!; try done. lia.
  - exists []. rewrite app_nil_r. split_and!; try done. lia.
Qed.

(** ** The life of a CPU query *)

(** What the query relies on: which queries PDH holds open, the times at which
    data was collected for a query since it was opened, and a clock that does
    not run backwards and that a sleep moves on by at least its length. *)
Class PdhLaws (D B : Type) `{PdhApi D B, Sleeping B} := {
  open_queries : B → gset Z;
  collections : B → Z → list Z;
  open_law b s h b' : PdhOpenQueryW b = ((s, h), b') →
    pdh_now b <= pdh_now b' ∧
    if s =? 0
    then h ≠ 0 ∧ open_queries b' = {[h]} ∪ open_queries b ∧ h ∉ open_queries b ∧
         collections b' h = [] ∧ ∀ h', h' ∈ open_queries b → collections b' h' = collections b h'
    else open_queries b' = open_queries b ∧ collections b' = collections b;
  add_law h p b r b' : PdhAddEnglishCounterW h p b = (r, b') →
    pdh_now b <= pdh_now b' ∧ open_queries b' = open_queries b ∧ collections b' = collections b;
  collect_law h b s b' : PdhCollectQueryData h b = (s, b') →
    open_queries b' = open_queries b ∧
    if s =? 0
    then ∃ t, pdh_now b <= t <= pdh_now b' ∧ collections b' h = collections b h ++ [t]
    else collections b' = collections b ∧ pdh_now b <= pdh_now b';
  formatted_law h b r b' : PdhGetFormattedCounterValue h b = (r, b') →
    pdh_now b <= pdh_now b' ∧ open_queries b' = open_queries b ∧ collections b' = collections b;
  close_law h b b' : PdhCloseQuery h b = (tt, b') →
    pdh_now b <= pdh_now b' ∧ open_queries b' = open_queries b ∖ {[h]} ∧
    ∀ h', h' ≠ h → collections b' h' = collections b h';
  sleep_law d b b' : sleep_for d b = (tt, b') →
    pdh_now b + Z.max 0 d <= pdh_now b' ∧ open_queries b' = open_queries b ∧
    collections b' = collections b
}.

Section Life.
Context {D B : Type} `{SystemMessages, PdhLaws D B}.

(** The calls a client can make. *)
Inductive PdhCall := CallInitialize | CallSample | CallClose.

Definition pdh_call (c : PdhCall) (q : PdhCpuQuery) : M B PdhCpuQuery :=
  match c with
  | CallInitialize => r <-- Pdh_Initialize q ;; mret r.2
  | CallSample => r <-- Pdh_Sample q ;; mret r.2
  | CallClose => Pdh_Close q
  end.

Fixpoint pdh_calls (cs : list PdhCall) (q : PdhCpuQuery) : M B PdhCpuQuery :=
  match cs with
  | [] => mret q
  | c :: cs' => q <-- pdh_call c q ;; pdh_calls cs' q
  end.

(** Collections at least [d] apart. *)
Definition paced (d : Z) : list Z → Prop := StronglySorted (λ a b, a + d <= b).

Definition nonempty {A} (l : list A) : bool := match l with [] => false | _ => true end.

(** What the query object says is true of the system. *)
Record query_ok (q : PdhCpuQuery) (b : B) : Prop := MkQueryOk {
  ok_handles : open_queries b = if queryHandle q =? 0 then ∅ else {[queryHandle q]};
  ok_closed : queryHandle q = 0 → hasPreviousSample q = false ∧ hasLastSampleTime q = false;
  ok_flags : queryHandle q ≠ 0 →
    hasPreviousSample q = nonempty (collections b (queryHandle q)) ∧
    hasLastSampleTime q = nonempty (collections b (queryHandle q));
  ok_last : queryHandle q ≠ 0 →
    Forall (λ t, t <= lastSampleTime q) (collections b (queryHandle q));
  ok_now : lastSampleTime q <= pdh_now b;
  ok_paced : queryHandle q ≠ 0 → paced (minInterval q) (collections b (queryHandle q))
}.

Lemma paced_snoc d l t :
  paced d l → Forall (λ a, a + d <= t) l → paced d (l ++ [t]).
Proof.
  unfold paced. induction 1 as [|a l Hl IH Ha]; cbn; [repeat constructor|].
  rewrite Forall_cons. intros [Hat Ht]. constructor; [by apply IH|].
  apply Forall_app. split; [done|by constructor].
Qed.

Lemma nonempty_snoc {A} (l : list A) x : nonempty (l ++ [x]) = true.
Proof. by destruct l. Qed.

Lemma Pdh_Close_ok q b q' b' :
  query_ok q b → Pdh_Close q b = (q', b') →
  query_ok q' b' ∧ queryHandle q' = 0 ∧ minInterval q' = minInterval q.
Proof.
  intros Hok. pose proof (ok_handles _ _ Hok) as Hh. unfold Pdh_Close.
  destruct (queryHandle q =? 0) eqn:E; b2p.
  { intros [= <- <-]. done. }
  unfold mthen, mret. destruct (PdhCloseQuery _ b) as [[] b1] eqn:Ec.
  intros [= <- <-]. apply close_law in Ec as (Hn & Ho & _).
  split; [|done]. constructor; cbn; try done.
  - rewrite Ho, Hh. set_solver.
  - pose proof (ok_now _ _ Hok). lia.
Qed.

Lemma Pdh_Initialize_ok q b r q' b' :
  query_ok q b → Pdh_Initialize q b = ((r, q'), b') →
  query_ok q' b' ∧ minInterval q' = minInterval q ∧
  (HasValue r = true ↔ queryHandle q' ≠ 0) ∧
  (queryHandle q' ≠ 0 → collections b' (queryHandle q') = []).
Proof.
  intros Hok. unfold Pdh_Initialize, mthen, mret.
  destruct (Pdh_Close q b) as [q0 b0] eqn:E0.
  apply (Pdh_Close_ok _ _ _ _ Hok) in E0 as (Hok0 & Hz & Hi). clear Hok.
  pose proof (ok_handles _ _ Hok0) as Hh. pose proof (ok_now _ _ Hok0) as Hnow.
  pose proof (ok_closed _ _ Hok0 Hz) as [Hp Hl]. rewrite Hz in Hh. cbn in Hh.
  destruct (PdhOpenQueryW b0) as [[s h] b1] eqn:E1. apply open_law in E1 as [Hn1 Hopen].
  destruct (s =? 0) eqn:Es; cbn [negb].
  2:{ intros [= <- <- <-]. destruct Hopen as [Ho Hc]. split; [|rewrite Hz; done].
      constructor; rewrite ?Hz; try done; [by rewrite Ho, Hh|lia]. }
  destruct Hopen as (Hne & Ho & Hnin & Hc & _).
  destruct (PdhAddEnglishCounterW h kCounterPath b1) as [[s2 c] b2] eqn:E2.
  apply add_law in E2 as (Hn2 & Ho2 & Hc2). destruct (s2 =? 0) eqn:Es2; cbn [negb].
  - intros [= <- <- <-]. cbn. rewrite Hc2, Hc.
    split; [|done]. constructor; cbn; rewrite ?Hc2, ?Hc; try done.
    + rewrite Ho2, Ho, Hh. destruct (h =? 0) eqn:X; b2p; [done|set_solver].
    + lia.
    + constructor.
  - destruct (PdhCloseQuery h b2) as [[] b3] eqn:E3. apply close_law in E3 as (Hn3 & Ho3 & _).
    intros [= <- <- <-]. split; [|rewrite Hz; done].
    constructor; rewrite ?Hz; try done; [|lia]. rewrite Ho3, Ho2, Ho, Hh. set_solver.
Qed.

(** After the wait the next collection is in time. *)
Lemma Pdh_wait_ok q b b' :
  query_ok q b → Pdh_wait q b = (tt, b') →
  query_ok q b' ∧ collections b' = collections b ∧
  (queryHandle q ≠ 0 →
   Forall (λ t, t + minInterval q <= pdh_now b') (collections b (queryHandle q))).
Proof.
  intros Hok. unfold Pdh_wait. destruct (_ && _) eqn:E.
  - apply andb_true_iff in E as [_ E]. b2p. intros Es. apply sleep_law in Es as (Hn & Ho & Hc). split; [|split; [done|]].
    + destruct Hok. constructor; rewrite ?Ho, ?Hc; try done. lia.
    + intros Hq. eapply Forall_impl; [exact (ok_last _ _ Hok Hq)|]. cbn. lia.
  - intros [= <-]. split; [done|]. split; [done|]. intros Hq.
    destruct (ok_flags _ _ Hok Hq) as [_ Hf]. pose proof (ok_last _ _ Hok Hq) as Hl.
    apply andb_false_iff in E as [E|E].
    + rewrite Hf in E. by destruct (collections b (queryHandle q)).
    + b2p. eapply Forall_impl; [exact Hl|]. cbn. lia.
Qed.

Lemma Pdh_Sample_ok q b r q' b' :
  query_ok q b → Pdh_Sample q b = ((r, q'), b') →
  query_ok q' b' ∧ minInterval q' = minInterval q ∧ queryHandle q' = queryHandle q ∧
  ∀ s, r = Success s → queryHandle q ≠ 0 ∧
    valid s = (2 <=? length (collections b' (queryHandle q)))%nat.
Proof.
  intros Hok. unfold Pdh_Sample, mthen, mret.
  destruct (_ || _) eqn:Eh; [intros [= <- <- <-]; by split_and!|].
  apply orb_false_iff in Eh as [Eq _]. b2p.
  destruct (Pdh_wait q b) as [[] b1] eqn:Ew.
  apply (Pdh_wait_ok _ _ _ Hok) in Ew as (Hok1 & Hc1 & Hin). specialize (Hin Eq). clear Hok.
  destruct (PdhCollectQueryData _ b1) as [s b2] eqn:Ec. apply collect_law in Ec as [Ho2 Hc].
  pose proof (ok_handles _ _ Hok1) as Hh. pose proof (ok_flags _ _ Hok1 Eq) as [Hf Hf'].
  pose proof (ok_last _ _ Hok1 Eq) as Hl. pose proof (ok_now _ _ Hok1) as Hn.
  pose proof (ok_paced _ _ Hok1 Eq) as Hp. rewrite <- Hc1 in Hin.
  destruct (s =? 0); cbn [negb].
  2:{ destruct Hc as [Hc Hn2]. intros [= <- <- <-]. split_and!; try done.
      constructor; rewrite ?Ho2, ?Hc; try done. lia. }
  destruct Hc as (t & Ht & Hc).
  assert (Hok2 : ∀ prev b3, prev = true → open_queries b3 = open_queries b2 →
    collections b3 = collections b2 → pdh_now b2 <= pdh_now b3 →
    query_ok (MkPdhQuery (queryHandle q) (counterHandle q) prev (minInterval q) (pdh_now b2) true) b3).
  { intros prev b3 -> Ho3 Hc3 Hn3. constructor; cbn; rewrite ?Ho3, ?Hc3, ?Ho2; try done.
    - intros _. rewrite Hc. by rewrite nonempty_snoc.
    - intros _. rewrite Hc. apply Forall_app. split; [|by constructor; [lia|]].
      eapply Forall_impl; [exact Hl|]. cbn. lia.
    - intros _. rewrite Hc. apply paced_snoc; [done|].
      eapply Forall_impl; [exact Hin|]. cbn. lia. }
  cbn [hasPreviousSample queryHandle counterHandle]. rewrite Hf.
  destruct (collections b1 (queryHandle q)) as [|t0 ts] eqn:El; cbn [nonempty negb].
  - intros [= <- <- <-]. split_and!; try done; [by apply Hok2|].
    intros s' [= <-]. split; [done|]. by rewrite Hc.
  - destruct (PdhGetFormattedCounterValue _ b2) as [[s3 [cs v]] b3] eqn:E3.
    apply formatted_law in E3 as (Hn3 & Ho3 & Hc3).
    assert (Hgood : query_ok (MkPdhQuery (queryHandle q) (counterHandle q)
      (hasPreviousSample q) (minInterval q) (pdh_now b2) true) b3) by (by apply Hok2).
    rewrite Hf in Hgood. cbn [nonempty] in Hgood.
    destruct (s3 =? 0); cbn [negb]; [destruct (_ && _)|];
      intros [= <- <- <-]; split_and!; try done.
    intros s' [= <-]. split; [done|]. rewrite Hc3, Hc, length_app.
    symmetry. apply Nat.leb_le. cbn [length]. lia.
Qed.

Lemma pdh_call_ok c q b q' b' :
  query_ok q b → pdh_call c q b = (q', b') → query_ok q' b' ∧ minInterval q' = minInterval q.
Proof.
  intros Hok. destruct c; cbn; unfold mthen, mret.
  - destruct (Pdh_Initialize q b) as [[r q1] b1] eqn:E. intros [= <- <-].
    by apply (Pdh_Initialize_ok _ _ _ _ _ Hok) in E as (? & ? & _).
  - destruct (Pdh_Sample q b) as [[r q1] b1] eqn:E. intros [= <- <-].
    by apply (Pdh_Sample_ok _ _ _ _ _ Hok) in E as (? & ? & _).
  - intros E. by apply (Pdh_Close_ok _ _ _ _ Hok) in E as (? & _ & ?).
Qed.

Lemma pdh_calls_ok cs q b q' b' :
  query_ok q b → pdh_calls cs q b = (q', b') → query_ok q' b' ∧ minInterval q' = minInterval q.
Proof.
  revert q b. induction cs as [|c cs IH]; intros q b Hok; cbn; unfold mthen.
  - intros [= <- <-]. done.
  - destruct (pdh_call c q b) as [q1 b1] eqn:E.
    apply (pdh_call_ok _ _ _ _ _ Hok) in E as [Hok1 Hi]. intros E'.
    apply IH in E' as [? ?]; [|done]. split; [done|congruence].
Qed.

(** The CPU query, whatever PDH answers and however it is called: it holds
    one query open when it is initialized and none when it is not, so that
    closing it leaves none; it never collects twice within its interval; and a
    sample is valid exactly from the second collection on. *)
Lemma PdhCpuQuery_life interval cs b q b' :
  open_queries b = ∅ → 0 <= pdh_now b → pdh_calls cs (new_query interval) b = (q, b') →
  open_queries b' = (if queryHandle q =? 0 then ∅ else {[queryHandle q]}) ∧
  open_queries (Pdh_Close q b').2 = ∅ ∧
  (queryHandle q ≠ 0 → paced interval (collections b' (queryHandle q))) ∧
  ∀ s q1 b1, Pdh_Sample q b' = ((Success s, q1), b1) →
    valid s = (2 <=? length (collections b1 (queryHandle q)))%nat.
Proof.
  intros Ho Hn E. assert (Hok : query_ok (new_query interval) b) by by constructor.
  apply (pdh_calls_ok _ _ _ _ _ Hok) in E as [Hq Hi]. cbn in Hi. split_and!.
  - apply Hq.
  - destruct (Pdh_Close q b') as [q2 b2] eqn:E.
    apply (Pdh_Close_ok _ _ _ _ Hq) in E as (Hq2 & Hz & _). cbn.
    rewrite (ok_handles _ _ Hq2), Hz. done.
  - intros Hne. rewrite <- Hi. by apply Hq.
  - intros s q1 b1 E. apply (Pdh_Sample_ok _ _ _ _ _ Hq) in E as (_ & _ & _ & Hv).
    by apply Hv.
Qed.
End Life.

(** ** A PDH *)

(** One whose calls succeed and whose clock counts them. *)
Section FakePdh.
#[local] Instance quiet : SystemMessages := no_messages.

Record FakePdh := MkFakePdh { fp_now : Z; fp_open : gset Z; fp_times : Z → list Z }.

#[local] Instance fake_pdh : PdhApi Z FakePdh := {|
  zero := 0;
  PdhOpenQueryW b :=
    let h := 1 + set_max (fp_open b) in
    ((0, h), MkFakePdh (1 + fp_now b) ({[h]} ∪ fp_open b)
               (λ x, if x =? h then [] else fp_times b x));
  PdhAddEnglishCounterW _ _ := mret (0, 7);
  PdhCollectQueryData h b :=
    (0, MkFakePdh (1 + fp_now b) (fp_open b)
          (λ x, if x =? h then fp_times b h ++ [fp_now b] else fp_times b x));
  PdhGetFormattedCounterValue _ := mret (0, (PDH_CSTATUS_VALID_DATA, 42));
  PdhCloseQuery h b := (tt, MkFakePdh (1 + fp_now b) (fp_open b ∖ {[h]}) (fp_times b));
  pdh_now := fp_now
|}.
#[local] Instance fake_sleep : Sleeping FakePdh :=
  λ d b, (tt, MkFakePdh (fp_now b + Z.max 0 d) (fp_open b) (fp_times b)).

#[local] Instance fake_pdh_laws : PdhLaws Z FakePdh.
Proof.
  refine {| open_queries := fp_open; collections := fp_times |};
    unfold PdhOpenQueryW, PdhAddEnglishCounterW, PdhCollectQueryData, PdhGetFormattedCounterValue,
      PdhCloseQuery, sleep_for, pdh_now, fake_pdh, fake_sleep, mret.
  - intros b s h b' [= <- <- <-]. pose proof (set_max_nonneg (fp_open b)). cbn [Z.eqb fp_now fp_open fp_times].
    split_and!; try lia; try done.
    + intros Hin%set_max_ge. lia.
    + by rewrite Z.eqb_refl.
    + intros h' Hin. destruct (_ =? _) eqn:E; b2p; [|done].
      apply set_max_ge in Hin. lia.
  - intros h p b r b' [= <- <-]. split_and!; done || lia.
  - intros h b s b' [= <- <-]. split; [done|]. exists (fp_now b). cbn. rewrite Z.eqb_refl.
    split; [lia|done].
  - intros h b r b' [= <- <-]. split_and!; done || lia.
  - intros h b b' [= <-]. cbn. split_and!; done || lia.
  - intros d b b' [= <-]. cbn. split_and!; done || lia.
Defined.

Definition fake_start : FakePdh := MkFakePdh 0 ∅ (λ _, []).

Example PdhCpuQuery_life_witness :
  let '(q, b) := pdh_calls [CallInitialize; CallSample; CallSample; CallSample]
                   (new_query 500) fake_start in
  collections b (queryHandle q) = [1; 502; 1003] ∧ open_queries b = {[queryHandle q]} ∧
  open_queries (Pdh_Close q b).2 = ∅.
Proof.
  destruct (pdh_calls _ _ _) as [q b] eqn:E.
  edestruct (PdhCpuQuery_life (D := Z) (B := FakePdh)) as (Ho & Hc & _);
    [| |exact E|]; [reflexivity|cbn; lia|]. vm_compute in E. injection E as <- <-. split_and!; try done.
Defined.

Definition two_samples : list MemorySample := [MkSample 41 700; MkSample 44 500].

Example AggregateMemoryWindow_spec_witness :
  AggregateMemoryWindow two_samples = Success (MkWindowReport 2 41 44 43 500 700) ∧
  AggregateMemoryWindow (reverse two_samples) = AggregateMemoryWindow two_samples.
Proof.
  split; [reflexivity|].
  destruct (AggregateMemoryWindow_spec two_samples) as (_ & _ & Hp).
  - cbn; lia.
  - repeat constructor; cbn; lia.
  - apply Hp. apply Permutation_swap.
Defined.

Example ShareOfLoadBelow_spec_witness :
  ShareOfLoadBelow two_samples 42 = Success 50 ∧ rounds_half_up (100 * 1) 2 50.
Proof.
  split; [reflexivity|].
  destruct (ShareOfLoadBelow_spec two_samples 42 50 ltac:(cbn; lia) ltac:(reflexivity)) as (_ & H & _).
  exact H.
Defined.
End FakePdh.
