(* ===== verification/Credentials.v ===== *)
(** The shared credential of agent and host ([ipc/ipc_credentials]): a random
    token in a file of the user's, its restricted access list, and what is
    accepted as a token when it is read, given on the command line
    ([source/main.cpp]) or received in a snapshot. *)

From S2P Require Import Prelude CommonError Containers Paths Crash IpcFacts Actions.

Open Scope string_scope.
Open Scope list_scope.
Open Scope Z_scope.

(** ** Data *)

Definition kTokenLength : nat := 32.
Definition kTokenAlphabet : string :=
  "ABCDEFGHIJKLMNOPQRSTUVWXYZabcdefghijklmnopqrstuvwxyz0123456789".

Definition wide_alnum (ch : Z) : bool :=
  ((97 <=? ch) && (ch <=? 122)) || ((65 <=? ch) && (ch <=? 90)) || ((48 <=? ch) && (ch <=? 57)).

Definition IsAsciiTokenChar (ch : Z) : bool := wide_alnum ch || (ch =? 95) || (ch =? 45).

Definition IsValidTokenText (text : wstring) : bool :=
  negb ((len text =? 0) || (64 <? len text)) && forallb IsAsciiTokenChar text.

(** The command line's own check of [--ipc-token]. *)
Definition IsValidIpcToken (token : wstring) : bool :=
  negb ((len token =? 0) || (64 <? len token)) &&
  forallb (λ ch, negb (negb (wide_alnum ch) && negb (ch =? 95) && negb (ch =? 45))) token.

(** The calls; [None] is a failed call. [TokenUser] answers the pointer to the
    identifier; descriptors are handles. *)
Class TokenApi (W : Type) := {
  SystemFunction036 : nat → M W (option (list Z));
  OpenProcessToken : M W (option Z);
  TokenUserSize : Z → M W Z;
  TokenUser : Z → Z → M W (option Z);
  ConvertSidToStringSidW : Z → M W (option string);
  CloseToken : Z → M W unit;
  ConvertStringSecurityDescriptor : string → M W (option Z);
  SetFileSecurityW : string → Z → M W bool
}.

Section Credentials.
Context {W : Type} `{SystemMessages} `{FileSystem W} `{Folders W} `{TokenApi W}.

Definition token_char (b : Z) : ascii :=
  default "A"%char (String.get (Z.to_nat (b mod 62)) kTokenAlphabet).

(** Empty when no random bytes are to be had. *)
Definition GenerateRandomToken : M W string :=
  bytes <-- SystemFunction036 kTokenLength ;;
  mret (match bytes with
        | None => ""
        | Some bs => string_of_list_ascii (map token_char bs)
        end).

(** Empty on any failure; the token handle is closed when it goes out of scope. *)
Definition CurrentUserSid : M W string :=
  opened <-- OpenProcessToken ;;
  match opened with
  | None => mret ""
  | Some token =>
      needed <-- TokenUserSize token ;;
      sid <-- (if needed =? 0 then mret ""
               else
                 user <-- TokenUser token needed ;;
                 match user with
                 | None => mret ""
                 | Some p =>
                     if p =? 0 then mret ""
                     else text <-- ConvertSidToStringSidW p ;; mret (default "" text)
                 end) ;;
      CloseToken token ;;;
      mret sid
  end.

Definition last_win32 {A} (op : string) : M W (Result A) := λ w,
  (Failure (FromWin32 (GetLastError w) op), w).

(** Protected, for the system and the user alone. *)
Definition token_sddl (userSid : string) : string :=
  "D:P(A;;FA;;;SY)(A;;FA;;;" +:+ userSid +:+ ")".

Definition RestrictFileDacl (path : string) : M W (Result unit) :=
  userSid <-- CurrentUserSid ;;
  if string_empty userSid
  then mret (Failure (Validation "RestrictFileDacl" "无法解析当前用户 SID"))
  else
    descriptor <-- ConvertStringSecurityDescriptor (token_sddl userSid) ;;
    match descriptor with
    | None => last_win32 "ConvertStringSecurityDescriptorToSecurityDescriptorW"
    | Some d =>
        set <-- SetFileSecurityW path d ;;
        if negb set then last_win32 "SetFileSecurityW" else mret (Success tt)
    end.

Definition WriteTokenFile (path token : string) : M W bool :=
  out <-- write_trunc path token ;;
  mret (match out with Written => true | _ => false end).

Definition ProvisionError (msg : string) : Error := Validation "IpcCredentials" msg.

Definition DefaultAgentTokenFilePath (w : W) : string :=
  let '(length, buffer) := GetEnvironmentVariableW "LOCALAPPDATA" w in
  if (length =? 0) || (1024 <=? length) then ""
  else path_append (path_append buffer "CppOptimizer") "ipc_agent_token".

Definition ProvisionAgentTokenFile (path : string) (force : bool) : M W (Result unit) := λ w,
  if string_empty path then (Failure (ProvisionError "token 存储路径为空"), w)
  else if (exists_file path w).1 && negb force
  then (Failure (ProvisionError "token 存储已存在（幂等；轮换请用 force）"), w)
  else
    (ec <-- create_directories (parent_path path) ;;
     if negb (ec =? 0) then mret (Failure (ProvisionError "创建 token 存储父目录失败"))
     else
       token <-- GenerateRandomToken ;;
       if string_empty token then mret (Failure (ProvisionError "随机 token 生成失败"))
       else
         written <-- WriteTokenFile path token ;;
         if negb written then last_win32 "WriteFile(token)"
         else RestrictFileDacl path) w.

Definition is_trailing (c : ascii) : bool :=
  (code c =? 13) || (code c =? 10) || (code c =? 32) || (code c =? 9).

Definition ReadAgentTokenFile (path : string) (w : W) : Result wstring :=
  match open_read path w with
  | None => Failure (FromWin32 (GetLastError w) "CreateFileW(token)")
  | Some bytes =>
      let bytes := (span_end is_trailing bytes).1 in
      if string_empty bytes || (64 <? strlen bytes)
      then Failure (ProvisionError "token 存储内容长度非法")
      else if negb (all_chars (λ c, IsAsciiTokenChar (code c)) bytes)
      then Failure (ProvisionError "token 存储内容含非法字符")
      else Success (map code (list_ascii_of_string bytes))
  end.

Definition IsAgentTokenProvisioned (path : string) (w : W) : bool :=
  HasValue (ReadAgentTokenFile path w).

(** The first argument that is no option is the path. *)
Fixpoint credential_arguments (args : list string) (path : option string) (force : bool) :
    option string * bool :=
  match args with
  | [] => (path, force)
  | a :: args' =>
      if String.eqb a "--force" then credential_arguments args' path true
      else credential_arguments args'
             (match path with
              | None => if match a with String "-" _ => true | _ => false end then None else Some a
              | Some _ => path
              end) force
  end.

(** [args] are the arguments from [argv[2]] on; the answer is the exit code. *)
Definition RunIpcCredentialCommand (action : string) (args : list string) : M W Z := λ w,
  let '(given, force) := credential_arguments args None false in
  let path := match given with Some p => p | None => DefaultAgentTokenFilePath w end in
  if string_empty path then (2, w)
  else if String.eqb action "provision" then
    (result <-- ProvisionAgentTokenFile path force ;;
     mret (if HasValue result then 0 else 2)) w
  else if String.eqb action "status" then (0, w)
  else (2, w).
End Credentials.

(** ** One notion of a token *)

Lemma wide_alnum_ascii c : wide_alnum (code c) = is_alnum c.
Proof.
  unfold wide_alnum, is_alnum, is_lower, is_upper, is_digit.
  destruct (97 <=? code c), (code c <=? 122), (65 <=? code c), (code c <=? 90), (48 <=? code c),
    (code c <=? 57); reflexivity.
Qed.

Lemma code_eqb c d : (code c =? code d) = Ascii.eqb c d.
Proof.
  destruct (Ascii.eqb_spec c d) as [->|Hne]; [apply Z.eqb_refl|]. apply Z.eqb_neq.
  unfold code. intros E%N2Z.inj. apply Hne. rewrite <- (ascii_N_embedding c), <- (ascii_N_embedding d). congruence.
Qed.

Lemma IsAsciiTokenChar_key c : IsAsciiTokenChar (code c) = IsAsciiKeyChar c.
Proof.
  unfold IsAsciiTokenChar, IsAsciiKeyChar. rewrite wide_alnum_ascii.
  change 95 with (code "_"). change 45 with (code "-"). by rewrite !code_eqb.
Qed.

Lemma all_chars_forallb (p : ascii → bool) s : all_chars p s = forallb p (list_ascii_of_string s).
Proof. induction s as [|c s IH]; cbn; [done|by rewrite IH]. Qed.

Lemma forallb_map {A B} (f : A → B) p l : forallb p (map f l) = forallb (λ x, p (f x)) l.
Proof. induction l; cbn; congruence. Qed.

Lemma forallb_eq {A} (p q : A → bool) l : (∀ x, p x = q x) → forallb p l = forallb q l.
Proof. intros E. induction l; cbn; congruence. Qed.

Definition token_text (s : string) : bool :=
  negb (string_empty s || (64 <? strlen s)) && all_chars IsAsciiKeyChar s.

Definition wide_bytes (s : string) : wstring := map code (list_ascii_of_string s).

Lemma wide_bytes_len s : len (wide_bytes s) = strlen s.
Proof.
  unfold wide_bytes. rewrite length_map. f_equal.
  induction s as [|c s IH]; [done|]. cbn. by rewrite IH.
Qed.

Lemma wide_bytes_empty s : (len (wide_bytes s) =? 0) = string_empty s.
Proof. by destruct s. Qed.

Lemma IsValidTokenText_text s : IsValidTokenText (wide_bytes s) = token_text s.
Proof.
  unfold IsValidTokenText, token_text. rewrite wide_bytes_empty, wide_bytes_len. f_equal.
  unfold wide_bytes. rewrite forallb_map, all_chars_forallb.
  apply forallb_eq. intros c. apply IsAsciiTokenChar_key.
Qed.

Lemma IsValidIpcToken_text t : IsValidIpcToken t = IsValidTokenText t.
Proof.
  unfold IsValidIpcToken, IsValidTokenText. f_equal. apply forallb_eq. intros c.
  unfold IsAsciiTokenChar. by destruct (wide_alnum c), (c =? 95), (c =? 45).
Qed.

(** The schema of the facts asks the same of [agent_token]. *)
Lemma schema_token st s :
  schema_fact st (MkFact kFactsTokenKey s) = Success st ↔ token_text s = true.
Proof.
  unfold schema_fact, token_text. cbn [key value kFactsTokenKey].
  change (String.eqb kFactsTokenKey "agent_token") with true. change kMaxFactsTokenBytes with 64.
  destruct (string_empty s || _); [done|]. cbn [negb andb].
  destruct (all_chars IsAsciiKeyChar s); done.
Qed.

(** *** Trailing blanks *)

Lemma span_end_spec p s a b :
  span_end p s = (a, b) → s = a +:+ b ∧ all_chars p b = true.
Proof.
  revert a b. induction s as [|x s IH]; intros a b; cbn; [by intros [= <- <-]|].
  destruct (span_end p s) as [a0 b0]. specialize (IH a0 b0 eq_refl) as (-> & Hb).
  destruct (string_empty a0 && p x) eqn:E; intros [= <- <-]; [|done].
  apply andb_true_iff in E as [E Hx]. apply string_empty_iff in E as ->. cbn.
  by rewrite Hx, Hb.
Qed.

Lemma span_end_app p s ws :
  all_chars p ws = true → all_chars (λ c, negb (p c)) s = true → span_end p (s +:+ ws) = (s, ws).
Proof.
  intros Hws. induction s as [|c s IH]; cbn.
  - intros _. induction ws as [|c ws IH]; [done|]. cbn in *.
    apply andb_true_iff in Hws as [Hc Hws]. by rewrite IH, Hc.
  - intros [Hc Hs]%andb_true_iff. rewrite IH by done.
    apply negb_true_iff in Hc. by rewrite Hc, andb_false_r.
Qed.

Lemma token_not_trailing s :
  all_chars IsAsciiKeyChar s = true → all_chars (λ c, negb (is_trailing c)) s = true.
Proof.
  apply all_chars_impl. intros c. rewrite <- IsAsciiTokenChar_key.
  unfold IsAsciiTokenChar, wide_alnum, is_trailing. intros E. apply negb_true_iff.
  rewrite !orb_false_iff, !Z.eqb_neq. rewrite !orb_true_iff, !andb_true_iff, !Z.leb_le, !Z.eqb_eq in E.
  lia.
Qed.

(** ** Reading *)

Section Reading.
Context {W : Type} `{SystemMessages} `{FileSystem W}.

Lemma ReadAgentTokenFile_text path w s ws :
  open_read path w = Some (s +:+ ws) → all_chars is_trailing ws = true → token_text s = true →
  ReadAgentTokenFile path w = Success (wide_bytes s).
Proof.
  intros E Hws Hs. unfold ReadAgentTokenFile. rewrite E.
  unfold token_text in Hs. apply andb_true_iff in Hs as [Hlen Hch]. apply negb_true_iff in Hlen.
  rewrite span_end_app by (done || by apply token_not_trailing). cbn [fst]. rewrite Hlen.
  replace (all_chars (λ c, IsAsciiTokenChar (code c)) s) with true; [done|].
  symmetry. eapply all_chars_impl; [|exact Hch]. intros c. by rewrite IsAsciiTokenChar_key.
Qed.

(** The file is accepted exactly when it holds, before trailing blanks, a
    text that the schema of the facts takes for a credential and that the
    command line would take; the token read is that text. *)
Lemma ReadAgentTokenFile_iff path w tok :
  ReadAgentTokenFile path w = Success tok ↔
  ∃ s ws, open_read path w = Some (s +:+ ws) ∧ all_chars is_trailing ws = true ∧
    tok = wide_bytes s ∧ IsValidIpcToken tok = true ∧
    ∀ st, schema_fact st (MkFact kFactsTokenKey s) = Success st.
Proof.
  split.
  - unfold ReadAgentTokenFile. destruct (open_read path w) as [t|]; [|done].
    destruct (span_end is_trailing t) as [s ws] eqn:E. cbn [fst].
    apply span_end_spec in E as (-> & Hws).
    destruct (_ || _) eqn:Hlen; [done|]. destruct (all_chars _ s) eqn:Hch; [|done].
    intros [= <-]. assert (Ht : token_text s = true).
    { unfold token_text. rewrite Hlen. cbn. eapply all_chars_impl; [|exact Hch].
      intros c. cbn. by rewrite IsAsciiTokenChar_key. }
    exists s, ws. split_and!; try done.
    + rewrite IsValidIpcToken_text. change (map code _) with (wide_bytes s).
      by rewrite IsValidTokenText_text.
    + intros st. by apply schema_token.
  - intros (s & ws & E & Hws & -> & _ & Hst).
    apply (ReadAgentTokenFile_text path w s ws E Hws).
    by apply (schema_token (MkSchema false None None)).
Qed.
End Reading.

(** ** Provisioning *)

(** What the calls do: random bytes are bytes, none of the calls touches a
    file's contents, and a descriptor that is set governs its file. *)
Class TokenLaws (W : Type) `{FileSystemLaws W} `{!TokenApi W} := {
  sddl_of : Z → string;
  dacl : string → W → option string;
  random_bytes n w bs w' : SystemFunction036 n w = (Some bs, w') →
    length bs = n ∧ Forall is_u8 bs;
  random_files n q : preserves (file q) (SystemFunction036 n);
  open_token_files q : preserves (file q) OpenProcessToken;
  token_size_files t q : preserves (file q) (TokenUserSize t);
  token_user_files t n q : preserves (file q) (TokenUser t n);
  sid_text_files p q : preserves (file q) (ConvertSidToStringSidW p);
  close_token_files t q : preserves (file q) (CloseToken t);
  descriptor_files s q : preserves (file q) (ConvertStringSecurityDescriptor s);
  descriptor_text s w d w' : ConvertStringSecurityDescriptor s w = (Some d, w') → sddl_of d = s;
  set_security_files p d q : preserves (file q) (SetFileSecurityW p d);
  set_security_dacl p d w w' : SetFileSecurityW p d w = (true, w') → dacl p w' = Some (sddl_of d)
}.

Section Provisioning.
Context {W : Type} `{SystemMessages} `{FileSystemLaws W} `{Folders W} `{!TokenApi W, !TokenLaws W}.

Lemma token_char_key b : 0 <= b → IsAsciiKeyChar (token_char b) = true.
Proof.
  intros Hb. unfold token_char. pose proof (Z.mod_pos_bound b 62 ltac:(lia)) as Hm.
  remember (Z.to_nat (b mod 62)) as n. assert (n < 62)%nat as Hn by lia. clear -Hn.
  do 62 (destruct n as [|n]; [reflexivity|]). lia.
Qed.

Lemma GenerateRandomToken_spec (w : W) t w' :
  GenerateRandomToken w = (t, w') → t ≠ "" →
  String.length t = kTokenLength ∧ token_text t = true.
Proof.
  unfold GenerateRandomToken, mthen, mret.
  destruct (SystemFunction036 kTokenLength w) as [[bs|] w1] eqn:E; intros [= <- <-]; [|done].
  intros _. apply random_bytes in E as [Hl Hb].
  assert (Hlen : String.length (string_of_list_ascii (map token_char bs)) = kTokenLength).
  { rewrite <- Hl. clear. induction bs; cbn; congruence. }
  assert (Hs : strlen (string_of_list_ascii (map token_char bs)) = 32) by by rewrite Hlen.
  split; [done|]. unfold token_text. rewrite Hs.
  apply andb_true_iff. split; [by destruct bs|].
  clear -Hb. induction Hb as [|b bs Hb Hbs IH]; [done|]. cbn [map string_of_list_ascii all_chars].
  rewrite IH, token_char_key; [done|]. unfold is_u8 in Hb. lia.
Qed.

Lemma GenerateRandomToken_files q (w : W) : file q (GenerateRandomToken w).2 = file q w.
Proof.
  unfold GenerateRandomToken, mthen, mret. pose proof (random_files kTokenLength q w) as Hf.
  destruct (SystemFunction036 _ w) as [[?|] w1]; exact Hf.
Qed.

#[local] Hint Resolve open_token_files token_size_files token_user_files sid_text_files
  close_token_files descriptor_files set_security_files : frame.

Lemma CurrentUserSid_files q : preserves (file q) (CurrentUserSid (W := W)).
Proof. unfold CurrentUserSid. frame. Qed.

Lemma RestrictFileDacl_files path q : preserves (file q) (RestrictFileDacl (W := W) path).
Proof. unfold RestrictFileDacl, last_win32. pose proof (CurrentUserSid_files q). frame. Qed.

Lemma RestrictFileDacl_restricts path (w w' : W) :
  RestrictFileDacl path w = (Success tt, w') →
  ∃ sid, sid ≠ "" ∧ dacl path w' = Some (token_sddl sid).
Proof.
  unfold RestrictFileDacl, mthen, mret, last_win32.
  destruct (CurrentUserSid w) as [sid w1]. destruct (string_empty sid) eqn:Es; [done|].
  destruct (ConvertStringSecurityDescriptor _ w1) as [[d|] w2] eqn:Ed; [|done].
  destruct (SetFileSecurityW path d w2) as [[] w3] eqn:E; cbn; [|done]. intros [= <-].
  exists sid. split; [intros ->; done|].
  apply set_security_dacl in E as ->. by rewrite (descriptor_text _ _ _ _ Ed).
Qed.
(** What provisioning comes to: a restricted token; or a refusal that leaves the
    file as it was; or a token whose access could not be restricted; or a write
    that broke off. *)
Lemma ProvisionAgentTokenFile_cases path force (w w' : W) r :
  ProvisionAgentTokenFile path force w = (r, w') →
  (∀ q, q ≠ path → file q w' = file q w) ∧
  ((file path w' = file path w ∧ HasValue r = false) ∨
   (((exists_file path w).1 = false ∨ force = true) ∧ path ≠ "" ∧
    ((∃ t w1, write_trunc path t w1 = (FlushFailed, w')) ∧ HasValue r = false ∨
     ∃ t, String.length t = kTokenLength ∧ token_text t = true ∧ file path w' = Some t ∧
       (HasValue r = true → ∃ sid, sid ≠ "" ∧ dacl path w' = Some (token_sddl sid))))).
Proof.
  unfold ProvisionAgentTokenFile. destruct (string_empty path) eqn:Ep.
  { intros [= <- <-]. split; [done|]. by left. }
  destruct (_ && _) eqn:Ex; [intros [= <- <-]; split; [done|]; by left|].
  assert (Hmay : (exists_file path w).1 = false ∨ force = true).
  { apply andb_false_iff in Ex as [?|Ex]; [by left|right]. by apply negb_false_iff in Ex. }
  assert (Hpath : path ≠ "") by (intros ->; done). unfold mthen, mret, last_win32.
  pose proof (create_directories_file (parent_path path)) as Hd.
  destruct (create_directories (parent_path path) w) as [ec w1] eqn:Ed.
  assert (Hf1 : ∀ q, file q w1 = file q w) by (intros q; rewrite <- (Hd q w); by rewrite Ed).
  destruct (ec =? 0); cbn [negb]; [|intros [= <- <-]; split; [done|left; by split]].
  destruct (GenerateRandomToken w1) as [t w2] eqn:Eg.
  assert (Hf2 : ∀ q, file q w2 = file q w).
  { intros q. rewrite <- Hf1, <- (GenerateRandomToken_files q w1). by rewrite Eg. }
  destruct (string_empty t) eqn:Et; [intros [= <- <-]; split; [done|left; by split]|].
  assert (Ht : t ≠ "") by (intros ->; done). apply (GenerateRandomToken_spec _ _ _ Eg) in Ht as [Hl Ht].
  unfold WriteTokenFile, mthen, mret.
  pose proof (λ q, write_trunc_other path t w2 q) as Ho.
  destruct (write_trunc path t w2) as [[] w3] eqn:Ew; cbn [negb]; cbn in Ho.
  - apply write_trunc_file in Ew. intros E.
    pose proof (λ q, preserves_run (file q) _ _ _ _ (RestrictFileDacl_files path q) E) as Hr.
    split; [intros q Hq; by rewrite Hr, Ho|]. right. split; [done|]. split; [done|]. right.
    exists t. rewrite Hr. split_and!; try done. destruct r as [[]|]; [|done]. intros _.
    by eapply RestrictFileDacl_restricts.
  - intros [= <- <-]. pose proof (λ q, write_trunc_open path t w2 w3 q Ew) as Hop.
    split; [intros q Hq; by rewrite Hop|]. left. by rewrite Hop.
  - intros [= <- <-]. split; [intros q Hq; by rewrite Ho|]. right. split; [done|]. split; [done|].
    left. split; [|done]. by exists t, w2.
Qed.

(** Provisioning touches no other file. When it succeeds, the file did not
    exist or replacing it was asked for, it now holds thirty-two characters that
    every reader of tokens accepts, and only the system and the user may open it;
    what the readers read back is that text. *)
Lemma ProvisionAgentTokenFile_spec path force (w w' : W) :
  ProvisionAgentTokenFile path force w = (Success tt, w') →
  ((exists_file path w).1 = false ∨ force = true) ∧
  (∀ q, q ≠ path → file q w' = file q w) ∧
  ∃ t sid, file path w' = Some t ∧ String.length t = kTokenLength ∧
    sid ≠ "" ∧ dacl path w' = Some (token_sddl sid) ∧
    IsValidIpcToken (wide_bytes t) = true ∧
    (∀ st, schema_fact st (MkFact kFactsTokenKey t) = Success st) ∧
    (is_Some (open_read path w') → ReadAgentTokenFile path w' = Success (wide_bytes t)).
Proof.
  intros E. apply ProvisionAgentTokenFile_cases in E as [Ho [[_ ?]|(Hmay & _ & Hc)]]; [done|].
  split; [done|]. split; [done|].
  destruct Hc as [[_ ?]|(t & Hl & Ht & Hf & Hr)]; [done|].
  destruct (Hr eq_refl) as (sid & Hs & Hd). exists t, sid. split_and!; try done.
  - by rewrite IsValidIpcToken_text, IsValidTokenText_text.
  - intros st. by apply schema_token.
  - intros [t' Ht']. assert (t' = t) as -> by (apply open_read_file in Ht'; congruence).
    apply (ReadAgentTokenFile_text _ _ t ""); [by rewrite string_app_nil_r|done|done].
Qed.
End Provisioning.

(** ** A machine *)

(** The files, and which user the token names: none when [0]. *)
Section Machine.
#[local] Instance quiet : SystemMessages := no_messages.

(** The access lists of the files, and the pointer to the user's identifier. *)
Definition Desk : Type := MemFs * (gmap string string * Z).

#[local] Instance desk_folders : Folders Desk := {|
  GetEnvironmentVariableW _ _ := (9, "C:\Users\u"); temp_directory_path _ := "C:\Temp"
|}.

(** The one descriptor the desk can make. *)
Definition desk_sddl : string := token_sddl "S-1-5-21-7".

#[local] Instance desk_tokens : TokenApi Desk := {|
  SystemFunction036 n := mret (Some (map (λ i, u8 (Z.of_nat i)) (seq 0 n)));
  OpenProcessToken := mret (Some 4);
  TokenUserSize _ := mret 44;
  TokenUser _ _ d := (Some (snd (snd d)), d);
  ConvertSidToStringSidW _ := mret (Some "S-1-5-21-7");
  CloseToken _ := mret tt;
  ConvertStringSecurityDescriptor s := mret (if String.eqb s desk_sddl then Some 8 else None);
  SetFileSecurityW p d w := (true, (fst w, (<[p := desk_sddl]> (fst (snd w)), snd (snd w))))
|}.

#[local] Program Instance desk_laws : TokenLaws Desk := {|
  sddl_of d := desk_sddl;
  dacl p w := fst (snd w) !! p
|}.
Solve Obligations with done.
Next Obligation.
  intros n w bs w' [= <- <-]. rewrite length_map, length_seq. split; [done|].
  apply Forall_map, Forall_forall. intros i _. apply Z.mod_pos_bound. reflexivity.
Qed.
Next Obligation.
  intros s w d w'. intros E. injection E. by destruct (String.eqb_spec s desk_sddl) as [->|_].
Qed.
Next Obligation. intros p d w w' [= <-]. cbn. by rewrite lookup_insert_eq. Qed.

Definition token_path : string := "C:\Users\u\CppOptimizer\ipc_agent_token".
Definition desk (user : Z) : Desk := (empty_fs, (∅, user)).
Definition first_token : string := "ABCDEFGHIJKLMNOPQRSTUVWXYZabcdef".

(** When the user cannot be determined, provisioning fails, and yet the
    token has been written: it is in force, its file was never restricted, and
    provisioning again without [force] is refused. *)
Lemma failed_restriction_leaves_token :
  let '(r, w) := ProvisionAgentTokenFile token_path false (desk 0) in
  HasValue r = false ∧ file token_path w = Some first_token ∧ fst (snd w) = ∅ ∧
  IsAgentTokenProvisioned token_path w = true ∧
  (ProvisionAgentTokenFile token_path false w).1 =
    Failure (ProvisionError "token 存储已存在（幂等；轮换请用 force）").
Proof. vm_compute. done. Qed.

Definition provisioned : Desk := (ProvisionAgentTokenFile token_path false (desk 3)).2.

Lemma desk_provisioned :
  ProvisionAgentTokenFile token_path false (desk 3) = (Success tt, provisioned).
Proof.
  by rewrite (surjective_pairing (ProvisionAgentTokenFile _ _ _)).
Qed.

Example ProvisionAgentTokenFile_spec_witness :
  ReadAgentTokenFile token_path provisioned = Success (wide_bytes first_token) ∧
  dacl token_path provisioned = Some desk_sddl.
Proof.
  destruct (ProvisionAgentTokenFile_spec token_path false (desk 3) provisioned desk_provisioned)
    as (_ & _ & t & sid & Hf & _ & _ & _ & _ & _ & Hr).
  assert (file token_path provisioned = Some first_token) as Ht by (vm_compute; reflexivity).
  rewrite Ht in Hf. injection Hf as <-.
  split; [apply Hr; by eexists | vm_compute; reflexivity].
Defined.
End Machine.
