(* ===== verification/IpcArguments.v ===== *)
(** The options of the IPC commands ([source/main.cpp], from [IpcPipeName] on):
    each is looked up by a scan of its own over the arguments. *)

From S2P Require Import Prelude CommonError Containers Actions Credentials.

Open Scope string_scope.
Open Scope list_scope.
Open Scope Z_scope.

Definition kIpcPipeBase : string := "\\.\pipe\CppOptimizerIpc".

(** Empty when the suffix has a character that is not allowed. *)
Definition IpcPipeName (suffix : wstring) : wstring :=
  if forallb (λ ch, wide_alnum ch || (ch =? 45) || (ch =? 95)) suffix
  then widen kIpcPipeBase ++ suffix else [].

Definition is_arg (name : string) (arg : wstring) : bool := bool_decide (arg = widen name).

(** The options with a value, and those [FindIpcSuffix] takes for such. *)
Definition value_options : list string :=
  ["--ipc-token"; "--ipc-token-file"; "--ipc-allow-user"; "--frames"; "--instances";
   "--interval-ms"; "--max-interval-ms"; "--away-after-seconds"; "--away-cap-ms"].
Definition suffix_options : list string := "--session" :: value_options.

Definition is_option (names : list string) (arg : wstring) : bool :=
  existsb (λ name, is_arg name arg) names.

Fixpoint find_suffix (skipNextValue : bool) (suffix : wstring) (args : list wstring) : wstring :=
  match args with
  | [] => suffix
  | arg :: args' =>
      if negb skipNextValue && is_option suffix_options arg then find_suffix true suffix args'
      else if skipNextValue then find_suffix false suffix args'
      else find_suffix false (if len suffix =? 0 then arg else suffix) args'
  end.

Definition FindIpcSuffix (args : list wstring) : wstring := find_suffix false [] args.

Fixpoint has_session (skipNextValue : bool) (args : list wstring) : bool :=
  match args with
  | [] => false
  | arg :: args' =>
      if negb skipNextValue && is_option value_options arg then has_session true args'
      else if skipNextValue then has_session false args'
      else if is_arg "--session" arg then true
      else has_session false args'
  end.

Definition HasIpcSessionFlag (args : list wstring) : bool := has_session false args.

(** The argument after the first one of this name. *)
Fixpoint value_after (name : string) (args : list wstring) : option wstring :=
  match args with
  | arg :: ((v :: _) as args') => if is_arg name arg then Some v else value_after name args'
  | _ => None
  end.

Section Numbers.
Context `{WideCtype}.

Definition find_number (name : string) (missing : Z) (args : list wstring) : Z :=
  match value_after name args with
  | Some v => default 0 (ParseUint32 v)
  | None => missing
  end.

Definition FindIpcFrames : list wstring → Z := find_number "--frames" 1.
Definition FindIpcInstances : list wstring → Z := find_number "--instances" 1.
Definition FindIpcIntervalMs : list wstring → Z := find_number "--interval-ms" 1000.
Definition FindIpcMaxIntervalMs : list wstring → Z := find_number "--max-interval-ms" 0.
End Numbers.

Definition FindIpcToken : list wstring → option wstring := value_after "--ipc-token".

Section Files.
Context {W : Type} `{Folders W}.

Fixpoint FindIpcTokenFile (args : list wstring) (w : W) : option wstring :=
  match args with
  | [] => None
  | arg :: args' =>
      if is_arg "--ipc-token-file" arg then
        match args' with
        | v :: _ => if match v with 45 :: _ => true | _ => false end
                    then Some (widen (DefaultAgentTokenFilePath w)) else Some v
        | [] => Some (widen (DefaultAgentTokenFilePath w))
        end
      else FindIpcTokenFile args' w
  end.

Context `{SystemMessages} `{FileSystem W}.

(** The credential of the file counts over the one on the command line. Paths
    are narrow in this library; [path_of] is the conversion. *)
Definition console_token (path_of : wstring → string) (args : list wstring) (w : W) :
    option wstring :=
  match FindIpcToken args with
  | Some t =>
      if negb (IsValidIpcToken t) then None
      else match FindIpcTokenFile args w with
           | None => Some t
           | Some f => match ReadAgentTokenFile (path_of f) w with
                       | Success stored => Some stored
                       | Failure _ => None
                       end
           end
  | None =>
      match FindIpcTokenFile args w with
      | None => Some []
      | Some f => match ReadAgentTokenFile (path_of f) w with
                  | Success stored => Some stored
                  | Failure _ => None
                  end
      end
  end.
End Files.

(** The users of [--ipc-allow-user]; [None] for one that is empty or too long. *)
Fixpoint allowed_users (args : list wstring) : option (list wstring) :=
  match args with
  | arg :: ((v :: _) as rest) =>
      if is_arg "--ipc-allow-user" arg then
        if (len v =? 0) || (192 <? len v) then None else cons v <$> allowed_users rest
      else allowed_users rest
  | _ => Some []
  end.

(** ** What the scans agree on *)

(** Arguments in the order the usage gives them: options with their values, the
    bare [--session], and plain words, none of which is an option's name. *)
Inductive Argument :=
  | Option_ (name : string) (v : wstring)
  | Session
  | Word (w : wstring).

Definition spell (a : Argument) : list wstring :=
  match a with
  | Option_ name v => [widen name; v]
  | Session => [widen "--session"]
  | Word w => [w]
  end.

Definition argument_ok (a : Argument) : bool :=
  match a with
  | Option_ name _ => existsb (String.eqb name) value_options
  | Session => true
  | Word w => negb (is_option suffix_options w) && negb (len w =? 0)
  end.

Definition first_word (l : list Argument) : wstring :=
  default [] (head (omap (λ a, match a with Word w => Some w | _ => None end) l)).

Definition is_session (a : Argument) : bool := match a with Session => true | _ => false end.

Lemma is_arg_widen name : is_arg name (widen name) = true.
Proof. by apply bool_decide_eq_true. Qed.

Lemma value_option_spelled names name :
  existsb (String.eqb name) names = true → is_option names (widen name) = true.
Proof.
  rewrite existsb_exists. intros (x & Hx & E). apply String.eqb_eq in E as <-.
  apply existsb_exists. exists name. split; [done|apply is_arg_widen].
Qed.

Lemma value_option_no_session name :
  existsb (String.eqb name) value_options = true → is_arg "--session" (widen name) = false.
Proof.
  rewrite existsb_exists. intros (x & Hx & E). apply String.eqb_eq in E as <-.
  apply list_elem_of_In in Hx. unfold value_options in Hx. rewrite !elem_of_cons in Hx.
  destruct Hx as [->|[->|[->|[->|[->|[->|[->|[->|[->|Hx]]]]]]]]]; [reflexivity..|set_solver].
Qed.

Lemma suffix_options_split arg :
  is_option suffix_options arg = is_arg "--session" arg || is_option value_options arg.
Proof. reflexivity. Qed.

Lemma suffix_value_option arg : is_option value_options arg = true → is_option suffix_options arg = true.
Proof. intros E. by rewrite suffix_options_split, E, orb_true_r. Qed.

(** However options, values and words are mixed, [--session] is found exactly
    when it is given as an argument of its own; a value that reads [--session]
    does not count. *)
Lemma HasIpcSessionFlag_spec l :
  forallb argument_ok l = true →
  HasIpcSessionFlag (concat (map spell l)) = existsb is_session l.
Proof.
  unfold HasIpcSessionFlag. induction l as [|a l IH]; [done|]. cbn [forallb map concat existsb].
  intros [Ha Hl]%andb_true_iff. destruct a as [name v| |w]; cbn [spell app is_session orb].
  - cbn [has_session]. rewrite (value_option_spelled value_options name) by done. cbn. by apply IH.
  - cbn. reflexivity.
  - cbn [argument_ok] in Ha. apply andb_true_iff in Ha as [Ha _]. apply negb_true_iff in Ha.
    rewrite suffix_options_split in Ha. apply orb_false_iff in Ha as [Hs Hv].
    cbn [has_session negb andb]. rewrite Hv, Hs. by apply IH.
Qed.

(** Without [--session] the suffix is the first word, wherever it stands
    among the options. *)
Lemma FindIpcSuffix_spec l :
  forallb argument_ok l = true → existsb is_session l = false →
  FindIpcSuffix (concat (map spell l)) = first_word l.
Proof.
  unfold FindIpcSuffix.
  assert (Hgen : ∀ s, forallb argument_ok l = true → existsb is_session l = false →
    find_suffix false s (concat (map spell l)) = if len s =? 0 then first_word l else s).
  { induction l as [|a l IH]; intros s; cbn [forallb map concat existsb].
    - intros _ _. cbn. destruct s; [done|]. by destruct (_ =? _) eqn:E; b2p.
    - intros [Ha Hl]%andb_true_iff [Hs Hls]%orb_false_iff.
      destruct a as [name v| |w]; [|done|]; cbn [spell app find_suffix negb andb].
      + rewrite (suffix_value_option (widen name)) by by apply value_option_spelled.
        rewrite IH by done. done.
      + cbn [argument_ok] in Ha. apply andb_true_iff in Ha as [Ha Hw].
        apply negb_true_iff in Ha, Hw. rewrite Ha, IH by done. unfold first_word. cbn.
        destruct (len s =? 0) eqn:E; [by rewrite Hw|by rewrite E]. }
  intros Hok Hs. by apply (Hgen []).
Qed.

(** [--session] has no value, as the other scan knows, but the scan for the
    suffix skips the argument after it: the pipe's name depends on the order. *)
Lemma session_swallows_suffix w :
  negb (is_option suffix_options w) && negb (len w =? 0) = true →
  FindIpcSuffix [widen "--session"; w] = [] ∧ FindIpcSuffix [w; widen "--session"] = w ∧
  HasIpcSessionFlag [widen "--session"; w] = true ∧
  HasIpcSessionFlag [w; widen "--session"] = true.
Proof.
  intros Hw. pose proof (HasIpcSessionFlag_spec [Session; Word w]) as H1.
  pose proof (HasIpcSessionFlag_spec [Word w; Session]) as H2.
  cbn [forallb argument_ok existsb is_session map spell concat app orb] in H1, H2.
  rewrite Hw in H1, H2. split_and!; [reflexivity| |by apply H1|by apply H2].
  apply andb_true_iff in Hw as [Ha Hw]. apply negb_true_iff in Ha, Hw.
  unfold FindIpcSuffix. cbn [find_suffix negb andb]. rewrite Ha. cbn. done.
Qed.

Definition sample_arguments : list Argument :=
  [Option_ "--frames" (widen "3"); Word (widen "lab"); Option_ "--ipc-token" (widen "--session")].

Example HasIpcSessionFlag_spec_witness :
  HasIpcSessionFlag (concat (map spell sample_arguments)) = false.
Proof. apply (HasIpcSessionFlag_spec sample_arguments). reflexivity. Defined.

Example FindIpcSuffix_spec_witness :
  FindIpcSuffix (concat (map spell sample_arguments)) = widen "lab".
Proof. apply (FindIpcSuffix_spec sample_arguments); reflexivity. Defined.

Example session_swallows_suffix_witness :
  FindIpcSuffix [widen "--session"; widen "lab"] = [] ∧
  FindIpcSuffix [widen "lab"; widen "--session"] = widen "lab".
Proof.
  destruct (session_swallows_suffix (widen "lab") ltac:(reflexivity)) as (H1 & H2 & _).
  split; [exact H1|exact H2].
Defined.
