(* ===== verification/IpcServer.v ===== *)
(** Servers and reporters that run for a while ([ipc/ipc_session]):
    [RunConcurrentServer], whose workers share one summary under a lock, as a
    step relation over their interleavings, and [RunPeriodicReporter], the loop
    that reports at a pace until its window ends. *)

From S2P Require Import Prelude CommonError IpcProtocol IpcSession UserActivity Timing.

Open Scope string_scope.
Open Scope list_scope.
Open Scope Z_scope.

(** ** The concurrent server *)

Record IpcConcurrentSummary := MkConcurrentSummary {
  workers : Z;
  clientsServed : Z;
  failedSessions : Z;
  sessions : list IpcServeResult
}.

Record ConcurrentSharedState := MkShared { summary : IpcConcurrentSummary; fatalError : bool }.

(** What a session must end with not to be counted. The code means sessions in
    which nothing happened, and goes by the error alone. *)
Definition no_activity (r : Result IpcServeResult) : bool :=
  match r with
  | Success _ => false
  | Failure e => is_win32 e ERROR_TIMEOUT || is_win32 e ERROR_BROKEN_PIPE || is_win32 e ERROR_NO_DATA
  end.

(** What a worker does to the summary with the lock held. *)
Definition count_session (r : Result IpcServeResult) (sh : ConcurrentSharedState) :
    ConcurrentSharedState :=
  let m := summary sh in
  MkShared
    (match r with
     | Failure _ => MkConcurrentSummary (workers m) (clientsServed m) (failedSessions m + 1) (sessions m)
     | Success s => MkConcurrentSummary (workers m) (clientsServed m + 1) (failedSessions m)
                      (sessions m ++ [s])
     end) (fatalError sh).

Definition set_fatal (sh : ConcurrentSharedState) : ConcurrentSharedState := MkShared (summary sh) true.

(** Where a worker's thread is; [Publishing] holds a result not yet counted. *)
Inductive WorkerPhase :=
  | Starting | Looping | Publishing (r : Result IpcServeResult) | Joined.

Section Server.
Context {S : Type} `{IpcServerBackend S} `{WideLibrary} `{SystemMessages}.

(** A worker, its session's pipe with its log, and for the theorems all that its
    calls of [ServeSession] have answered and what it has counted of that, oldest
    first. *)
Record Worker := MkWorker {
  phase : WorkerPhase;
  pipe : option (S * Log);
  served : list (Result IpcServeResult);
  counted : list (Result IpcServeResult)
}.

Record Machine := MkMachine { shared : ConcurrentSharedState; threads : list Worker }.

Definition start_machine (instances : nat) : Machine :=
  MkMachine (MkShared (MkConcurrentSummary (Z.of_nat instances) 0 0 []) false)
    (replicate instances (MkWorker Starting None [] [])).

Definition set_worker (i : nat) (w : Worker) (m : Machine) : Machine :=
  MkMachine (shared m) (<[i := w]> (threads m)).

Definition remaining_ms (deadline now : Z) : Z := Z.quot (deadline - now) 1000000.

(** One step of one thread: everything between two looks at shared state. The
    clock is read from the worker's pipe. *)
Inductive worker_step (o : SessionOptions) (handler : option (Handler S)) (deadline frameIdle : Z)
    (i : nat) (m : Machine) : Machine → Prop :=
  | step_session sv ws s :
      threads m !! i = Some (MkWorker Starting None sv ws) →
      worker_step o handler deadline frameIdle i m
        (set_worker i (MkWorker Looping (Some s) sv ws) m)
  | step_no_session p sv ws :
      threads m !! i = Some (MkWorker Starting p sv ws) →
      worker_step o handler deadline frameIdle i m
        (MkMachine (set_fatal (shared m)) (<[i := MkWorker Joined p sv ws]> (threads m)))
  | step_serve s l s1 now fuel sv ws r s2 :
      threads m !! i = Some (MkWorker Looping (Some (s, l)) sv ws) →
      steady_now s = (now, s1) →
      0 < remaining_ms deadline now →
      ServeSession fuel o handler (remaining_ms deadline now) frameIdle
        (remaining_ms deadline now + frameIdle) (s1, l) = (Some r, s2) →
      worker_step o handler deadline frameIdle i m
        (set_worker i (MkWorker (if no_activity r then Looping else Publishing r) (Some s2)
                         (sv ++ [r]) ws) m)
  | step_publish p sv ws r :
      threads m !! i = Some (MkWorker (Publishing r) p sv ws) →
      worker_step o handler deadline frameIdle i m
        (MkMachine (count_session r (shared m)) (<[i := MkWorker Looping p sv (ws ++ [r])]> (threads m)))
  | step_expire s l s1 now sv ws s2 :
      threads m !! i = Some (MkWorker Looping (Some (s, l)) sv ws) →
      steady_now s = (now, s1) →
      remaining_ms deadline now <= 0 →
      CloseServer s1 = (tt, s2) →
      worker_step o handler deadline frameIdle i m
        (set_worker i (MkWorker Joined (Some (s2, l)) sv ws) m)
  | step_throw ph p sv ws :
      threads m !! i = Some (MkWorker ph p sv ws) → ph = Looping ∨ (∃ r, ph = Publishing r) →
      worker_step o handler deadline frameIdle i m
        (MkMachine (set_fatal (shared m)) (<[i := MkWorker Joined p sv ws]> (threads m))).

Inductive server_run (o : SessionOptions) (handler : option (Handler S)) (deadline frameIdle : Z) :
    Machine → Machine → Prop :=
  | run_here m : server_run o handler deadline frameIdle m m
  | run_step i m m1 m2 :
      worker_step o handler deadline frameIdle i m m1 →
      server_run o handler deadline frameIdle m1 m2 →
      server_run o handler deadline frameIdle m m2.

Definition joined (m : Machine) : Prop := Forall (λ w, phase w = Joined) (threads m).

(** After the joins. *)
Definition server_result (m : Machine) : Result IpcConcurrentSummary :=
  if fatalError (shared m)
  then Failure (Validation "RunConcurrentServer" "worker 异常/会话工厂失败")
  else Success (summary (shared m)).

(** The result of a call: a refusal of the arguments, or that of a run in which
    all threads are joined. *)
Inductive RunConcurrentServer (instances : nat) (window frameIdle now : Z) (o : SessionOptions)
    (handler : option (Handler S)) (factory : bool) : Result IpcConcurrentSummary → Prop :=
  | server_arguments :
      instances = 0%nat ∨ window <= 0 ∨ frameIdle <= 0 →
      RunConcurrentServer instances window frameIdle now o handler factory
        (Failure (Validation "RunConcurrentServer" "instances/window/frameIdle 必须为正"))
  | server_factory :
      (0 < instances)%nat → 0 < window → 0 < frameIdle → factory = false →
      RunConcurrentServer instances window frameIdle now o handler factory
        (Failure (Validation "RunConcurrentServer" "sessionFactory 不能为空"))
  | server_runs m :
      (0 < instances)%nat → 0 < window → 0 < frameIdle → factory = true →
      server_run o handler (now + ns_of_millis window) frameIdle (start_machine instances) m →
      joined m →
      RunConcurrentServer instances window frameIdle now o handler factory (server_result m).

(** *** No count is lost *)

Definition successes (l : list (Result IpcServeResult)) : list IpcServeResult :=
  omap (λ r, match r with Success s => Some s | Failure _ => None end) l.

Definition failures (l : list (Result IpcServeResult)) : list Error :=
  omap (λ r, match r with Failure e => Some e | Success _ => None end) l.

Definition counting (l : list (Result IpcServeResult)) : list (Result IpcServeResult) :=
  List.filter (λ r, negb (no_activity r)) l.

Definition uncounted (l : list (Result IpcServeResult)) : list (Result IpcServeResult) :=
  List.filter no_activity l.

Definition pending (w : Worker) : list (Result IpcServeResult) :=
  match phase w with Publishing r => [r] | _ => [] end.

Record machine_ok (instances : nat) (m : Machine) : Prop := MkMachineOk {
  ok_workers : workers (summary (shared m)) = Z.of_nat instances;
  ok_threads : length (threads m) = instances;
  ok_sessions : sessions (summary (shared m)) ≡ₚ concat (map (λ w, successes (counted w)) (threads m));
  ok_served : clientsServed (summary (shared m)) = len (sessions (summary (shared m)));
  ok_failed : failedSessions (summary (shared m)) =
              len (concat (map (λ w, failures (counted w)) (threads m)));
  ok_served_all : fatalError (shared m) = false →
    Forall (λ w, counting (served w) = counted w ++ pending w) (threads m)
}.

(** A worker replaced by one that has counted [new] more. *)
Lemma counted_insert {A} (f : list (Result IpcServeResult) → list A) ws i w w' new :
  (∀ a b, f (a ++ b) = f a ++ f b) → ws !! i = Some w → counted w' = counted w ++ new →
  concat (map (λ w, f (counted w)) (<[i := w']> ws)) ≡ₚ
  concat (map (λ w, f (counted w)) ws) ++ f new.
Proof.
  intros Hf Hi Hc. revert i Hi. induction ws as [|w0 ws IH]; intros [|i]; cbn; try done.
  - intros [= ->]. rewrite Hc, Hf, <- !app_assoc. apply Permutation_app_head, Permutation_app_comm.
  - intros Hi. rewrite IH by done. by rewrite app_assoc.
Qed.

Lemma successes_app a b : successes (a ++ b) = successes a ++ successes b.
Proof. apply omap_app. Qed.
Lemma failures_app a b : failures (a ++ b) = failures a ++ failures b.
Proof. apply omap_app. Qed.

(** A step that counts nothing. *)
Lemma machine_ok_keep n m i w w' sh :
  machine_ok n m → summary sh = summary (shared m) → threads m !! i = Some w → counted w' = counted w →
  (fatalError sh = false → fatalError (shared m) = false ∧
     (counting (served w) = counted w ++ pending w →
      counting (served w') = counted w ++ pending w')) →
  machine_ok n (MkMachine sh (<[i := w']> (threads m))).
Proof.
  intros [] Hsh Hi Hc Hsv. constructor; cbn; rewrite ?Hsh; try done.
  - by rewrite length_insert.
  - rewrite (counted_insert successes _ _ w w' []); [|apply successes_app|done|by rewrite app_nil_r].
    by rewrite app_nil_r.
  - pose proof (counted_insert failures (threads m) i w w' [] failures_app Hi
      ltac:(by rewrite app_nil_r)) as Hl.
    apply Permutation_length in Hl. rewrite app_nil_r in Hl. by rewrite Hl.
  - intros Hf. destruct (Hsv Hf) as [Hf' Hw]. specialize (ok_served_all0 Hf').
    apply Forall_insert; [done|]. rewrite Hc. apply Hw. by eapply Forall_lookup_1 in ok_served_all0.
Qed.

Lemma worker_step_ok n o handler deadline frameIdle i m m' :
  machine_ok n m → worker_step o handler deadline frameIdle i m m' → machine_ok n m'.
Proof.
  intros Hok Hs. destruct Hs; unfold set_worker, set_fatal.
  - eapply machine_ok_keep; done.
  - eapply machine_ok_keep; done.
  - eapply machine_ok_keep; try done. cbn. intros Hf. split; [done|].
    unfold counting, pending. rewrite List.filter_app. cbn.
    destruct (no_activity r); cbn; rewrite !app_nil_r; by intros ->.
  - pose proof (counted_insert successes (threads m) i _ (MkWorker Looping p sv (ws ++ [r])) [r]
      successes_app H2 eq_refl) as Hsucc.
    pose proof (counted_insert failures (threads m) i _ (MkWorker Looping p sv (ws ++ [r])) [r]
      failures_app H2 eq_refl) as Hfail.
    apply Permutation_length in Hfail. rewrite length_app in Hfail.
    destruct Hok.
    constructor; cbn [shared threads count_session summary workers sessions clientsServed failedSessions
      fatalError].
    + by destruct r.
    + by rewrite length_insert.
    + rewrite Hsucc. destruct r; cbn; [by rewrite ok_sessions0|by rewrite app_nil_r].
    + destruct r; cbn; [|done]. rewrite length_app. cbn. lia.
    + rewrite Hfail. destruct r; cbn; lia.
    + intros Hf. specialize (ok_served_all0 Hf). apply Forall_insert; [done|].
      pose proof (Forall_lookup_1 _ _ _ _ ok_served_all0 H2) as Hsv. cbn in *.
      by rewrite app_nil_r.
  - eapply machine_ok_keep; done.
  - eapply machine_ok_keep; done.
Qed.

Lemma start_machine_ok n : machine_ok n (start_machine n).
Proof.
  constructor; cbn; try done.
  - by rewrite length_replicate.
  - induction n; [done|]. cbn. done.
  - induction n; cbn in *; [done|]. done.
  - intros _. by apply Forall_replicate.
Qed.

Lemma server_run_ok n o handler deadline frameIdle m m' :
  server_run o handler deadline frameIdle m m' → machine_ok n m → machine_ok n m'.
Proof. induction 1; eauto using worker_step_ok. Qed.

Lemma successes_counting l : successes (counting l) = successes l.
Proof.
  unfold successes, counting in *. induction l as [|[r|e] l IH]; cbn; [done|by f_equal|].
  destruct (is_win32 e _ || _ || _); cbn; exact IH.
Qed.

Lemma successes_failures l : len l = len (successes l) + len (failures l).
Proof.
  induction l as [|[r|e] l IH]; [done| |].
  - change (successes (Success r :: l)) with (r :: successes l).
    change (failures (Success r :: l)) with (failures l). cbn [length]. lia.
  - change (successes (Failure e :: l)) with (successes l).
    change (failures (Failure e :: l)) with (e :: failures l). cbn [length]. lia.
Qed.

Lemma counting_uncounted l : len l = len (counting l) + len (uncounted l).
Proof.
  unfold counting, uncounted in *. induction l as [|r l IH]; cbn [List.filter]; [done|].
  destruct (no_activity r); cbn [negb length]; lia.
Qed.

(** What every worker adds up to. *)
Lemma concat_sum {A B C D} (f : A → list B) (g : A → list C) (h : A → list D) (l : list A) :
  (∀ a, len (f a) = len (g a) + len (h a)) →
  len (concat (map f l)) = len (concat (map g l)) + len (concat (map h l)).
Proof.
  intros Hf. induction l as [|a l IH]; cbn; [done|].
  rewrite !length_app. specialize (Hf a). lia.
Qed.

(** C26. However the workers are interleaved, once they are joined and none has
    failed, the summary accounts for every outcome that a call of [ServeSession]
    has had in any of them: the successful ones are listed, each once, in some
    order, and [clientsServed] is their number; [failedSessions] is the number of
    the others, but for those that failed with the Win32 code of a timeout, of a
    broken pipe or of a closing pipe, which are counted nowhere, whatever the
    session had served before. *)
Theorem RunConcurrentServer_counts instances o handler deadline frameIdle m sm :
  server_run o handler deadline frameIdle (start_machine instances) m →
  joined m → server_result m = Success sm →
  workers sm = Z.of_nat instances ∧ length (threads m) = instances ∧
  sessions sm ≡ₚ concat (map (λ w, successes (served w)) (threads m)) ∧
  clientsServed sm = len (sessions sm) ∧
  failedSessions sm = len (concat (map (λ w, failures (counting (served w))) (threads m))) ∧
  len (concat (map served (threads m))) =
    clientsServed sm + failedSessions sm + len (concat (map (λ w, uncounted (served w)) (threads m))).
Proof.
  intros Hrun Hj Hr. pose proof (server_run_ok _ _ _ _ _ _ _ Hrun (start_machine_ok instances)) as Hok.
  unfold server_result in Hr. destruct (fatalError (shared m)) eqn:Hf; [done|]. injection Hr as <-.
  assert (Hall : Forall (λ w, counted w = counting (served w)) (threads m)).
  { destruct Hok as [_ _ _ _ _ Hs]. specialize (Hs Hf). unfold joined in Hj.
    rewrite Forall_forall in Hs, Hj |- *. intros w Hw. rewrite (Hs w Hw). unfold pending.
    by rewrite (Hj w Hw), app_nil_r. }
  assert (Hmap : ∀ {A} (f : list (Result IpcServeResult) → list A),
    concat (map (λ w, f (counted w)) (threads m)) =
    concat (map (λ w, f (counting (served w))) (threads m))).
  { intros A f. clear -Hall. induction Hall as [|w ws Hw _ IH]; cbn; [done|]. by rewrite Hw, IH. }
  destruct Hok as [Hw Hn Hs Hc Hfail _]. rewrite Hmap in Hs, Hfail.
  split_and!; try done.
  - rewrite Hs. clear. induction (threads m) as [|w ws IH]; cbn; [done|].
    by rewrite successes_counting, IH.
  - rewrite Hc, Hfail.
    rewrite (concat_sum served (λ w, counting (served w)) (λ w, uncounted (served w)))
      by (intros; apply counting_uncounted).
    rewrite (concat_sum (λ w, counting (served w)) (λ w, successes (counting (served w)))
      (λ w, failures (counting (served w)))) by (intros; apply successes_failures).
    enough (len (sessions (summary (shared m))) =
      len (concat (map (λ w, successes (counting (served w))) (threads m)))) as -> by lia.
    by rewrite Hs.
Qed.
End Server.

(** *** One worker, one client *)

Module OneClient.
(** The client sends [input] and stays; every look at the clock takes 400 ms. *)
#[export] Instance backend : IpcServerBackend (Z * list byte) := {
  CreateAndListen := mret (Success tt);
  AcceptClient _ := mret (Success tt);
  ReadAll n _ := λ '(t, input),
    if (length input <? n)%nat
    then (Failure (MkError ErrorDomain.Win32 ERROR_TIMEOUT "ReadFile" ""), (t, input))
    else (Success (take n input), (t, drop n input));
  WriteAll _ _ := mret (Success tt);
  DisconnectClient := mret (Success tt);
  CloseServer := mret tt;
  ClientPid _ := 4242;
  ClientSessionId _ := 1;
  ClientUserSid _ := [];
  steady_now := λ '(t, input), (t, (t + 400000000, input))
}.
#[export] Instance lower : WideLibrary := λ c, c.
#[export] Instance messages : SystemMessages := no_messages.

Definition options : SessionOptions := MkOptions 3000 (Some DefaultClientGate) true [] [].
Definition ping : list byte := MakeFrame IpcMessageType.Ping 7 [].
Definition first_session : (Z * list byte) * Log := ((0, ping), MkLog [] []).
End OneClient.

Section OneClientRun.
Import OneClient.

(** A client is served one frame and breaks off in the payload of the next: the
    session fails with a timeout, and the server takes it for one in which
    nothing happened. It counts it neither as served nor as failed, though the
    comment on the worker leaves out only sessions without a frame. *)
Lemma served_session_vanishes :
  let input := ping ++ take 17 (MakeFrame IpcMessageType.Ping 8 [byte_of_Z 1; byte_of_Z 2]) in
  let '(r, (_, l)) := ServeSession 3 options None 1000 100 1100 ((0, input), MkLog [] []) in
  match r with Some (Failure e) => is_win32 e ERROR_TIMEOUT && no_activity (Failure e) | _ => false end
    = true ∧
  map (λ h, req_id h.1.2) (handled l) = [7].
Proof. vm_compute. done. Qed.

Example RunConcurrentServer_counts_witness :
  ∃ m sm, server_run options None (ns_of_millis 1000) 100 (start_machine 1) m ∧
    joined m ∧ server_result m = Success sm ∧ clientsServed sm = 1 ∧ failedSessions sm = 0 ∧
    workers sm = 1 ∧ sessions sm ≡ₚ concat (map (λ w, successes (served w)) (threads m)).
Proof.
  assert (Hrun : ∃ m, server_run options None (ns_of_millis 1000) 100 (start_machine 1) m ∧
    joined m ∧ ∃ sm, server_result m = Success sm ∧ clientsServed sm = 1 ∧ failedSessions sm = 0).
  { eexists. split; [|split].
    - eapply run_step; [apply (step_session _ _ _ _ 0 _ [] [] first_session); reflexivity|].
      eapply run_step; [eapply (step_serve _ _ _ _ 0 _ _ _ _ _ 3%nat);
        [reflexivity|reflexivity|vm_compute; reflexivity|vm_compute; reflexivity]|].
      eapply run_step; [eapply (step_publish _ _ _ _ 0); vm_compute; reflexivity|].
      eapply run_step; [eapply (step_expire _ _ _ _ 0);
        [vm_compute; reflexivity|vm_compute; reflexivity|vm_compute; discriminate|reflexivity]|].
      apply run_here.
    - vm_compute. repeat constructor.
    - eexists. split; [vm_compute; reflexivity|]. split; reflexivity. }
  destruct Hrun as (m & Hrun & Hj & sm & Hr & Hc & Hf).
  destruct (RunConcurrentServer_counts 1 _ _ _ _ _ _ Hrun Hj Hr) as (Hw & _ & Hs & _).
  exists m, sm. done.
Defined.
End OneClientRun.

(** ** The periodic reporter *)

(** Durations in milliseconds. *)
Record IpcPeriodicReportOptions := MkReportOptions {
  pipePath : string;
  window : Z;
  interval : Z;
  intervalCap : Z;
  reportIoTimeout : Z;
  maxConnectAttempts : nat;
  reconnectBackoff : Z;
  userAwayAfterSeconds : Z;
  userAwayStepSeconds : Z;
  userAwayCap : Z
}.

Record IpcPeriodicReportSummary := MkReportSummary {
  reportsSent : Z;
  connectFailures : Z;
  lastReplyAck : bool
}.

Section Reporter.
Context {B : Type} `{IpcClientBackend B, SteadyClock B, Sleeping B, SystemMessages}.

(** One report: whether it was delivered. [n] attempts are left. *)
Fixpoint report_attempts (n : nat) (o : IpcPeriodicReportOptions) (deadline : Z)
    (request : IpcFrameRequest) (sm : IpcPeriodicReportSummary)
  : M B (bool * IpcPeriodicReportSummary) :=
  match n with
  | O => mret (false, sm)
  | S n' =>
      now <-- clock_now ;;
      if deadline <=? now then mret (false, sm)
      else
        reply <-- IpcRoundTrip (pipePath o) (fr_type request) (fr_payload request)
                    (fr_requestId request) (reportIoTimeout o) ;;
        match reply with
        | Success r =>
            mret (true, MkReportSummary (reportsSent sm + 1) (connectFailures sm)
                          (bool_decide (rep_type r = IpcMessageType.Ack)))
        | Failure _ =>
            (match n' with
             | O => mret tt
             | S _ => sleep_for (ns_of_millis (reconnectBackoff o))
             end) ;;;
            report_attempts n' o deadline request sm
        end
  end.

(** How long the user has been away, when that is asked for and known. *)
Definition sample_idle (o : IpcPeriodicReportOptions) (idleProvider : option (M B (Result Z))) :
    M B (option Z) :=
  match idleProvider with
  | Some idle =>
      if (0 <? userAwayCap o) && (0 <? userAwayAfterSeconds o)
      then i <-- idle ;; mret (match i with Success s => Some s | Failure _ => None end)
      else mret None
  | None => mret None
  end.

(** [None]: still running after [fuel] turns. *)
Fixpoint reporter_loop (fuel : nat) (o : IpcPeriodicReportOptions)
    (requestFactory : M B (Result IpcFrameRequest)) (idleProvider : option (M B (Result Z)))
    (deadline nextSlot : Z) (consecutiveFailures : nat) (sm : IpcPeriodicReportSummary)
  : M B (option (Result IpcPeriodicReportSummary)) :=
  match fuel with
  | O => mret None
  | S fuel' =>
      now <-- clock_now ;;
      if deadline <=? now then CloseClient ;;; mret (Some (Success sm))
      else if now <? nextSlot then
        sleep_for (ns_of_millis (Z.quot (nextSlot - now) 1000000)) ;;;
        reporter_loop fuel' o requestFactory idleProvider deadline nextSlot consecutiveFailures sm
      else
        request <-- requestFactory ;;
        match request with
        | Failure e => mret (Some (Failure e))
        | Success rq =>
            out <-- report_attempts (maxConnectAttempts o) o deadline rq sm ;;
            let '(delivered, sm) := out in
            let sm := if delivered : bool then sm
                      else MkReportSummary (reportsSent sm) (connectFailures sm + 1) (lastReplyAck sm) in
            let consecutiveFailures := if delivered then O else S consecutiveFailures in
            idleSeconds <-- sample_idle o idleProvider ;;
            now <-- clock_now ;;
            let gap := IpcReportNextGap consecutiveFailures (interval o) (intervalCap o) idleSeconds
                         (userAwayAfterSeconds o) (userAwayStepSeconds o) (userAwayCap o) in
            reporter_loop fuel' o requestFactory idleProvider deadline (now + ns_of_millis gap)
              consecutiveFailures sm
        end
  end.

Definition RunPeriodicReporter (fuel : nat) (o : IpcPeriodicReportOptions)
    (requestFactory : option (M B (Result IpcFrameRequest)))
    (idleProvider : option (M B (Result Z))) : M B (option (Result IpcPeriodicReportSummary)) :=
  if (window o <=? 0) || (interval o <=? 0) || (reportIoTimeout o <=? 0) ||
     (maxConnectAttempts o =? 0)%nat
  then mret (Some (Failure (Validation "RunPeriodicReporter"
                              "window/interval/ioTimeout 必须为正且 maxConnectAttempts>0")))
  else
    match requestFactory with
    | None => mret (Some (Failure (Validation "RunPeriodicReporter" "requestFactory 不能为空")))
    | Some factory =>
        start <-- clock_now ;;
        nextSlot <-- clock_now ;;
        reporter_loop fuel o factory idleProvider (start + ns_of_millis (window o)) nextSlot 0
          (MkReportSummary 0 0 false)
    end.
End Reporter.

(** *** It returns, and how much it can have sent *)

Lemma IpcReportNextGap_ge failures base failureCap idle after step awayCap :
  0 < base → base <= IpcReportNextGap failures base failureCap idle after step awayCap.
Proof.
  intros Hb. unfold IpcReportNextGap, IpcReportGapAfterFailures.
  assert (base <= (if (0 <? failureCap) && (base <? failureCap) && (0 <? Z.of_nat failures)
    then if failureCap <=? 0 then base
         else double_gap failures (if failureCap <? base then failureCap else base) failureCap
    else base)) as Hf.
  { destruct (_ && _) eqn:E; [|lia]. rewrite !andb_true_iff, !Z.ltb_lt in E.
    destruct (failureCap <=? 0); [lia|]. destruct (failureCap <? base) eqn:E2; b2p; [lia|].
    rewrite double_gap_spec by lia.
    pose proof (Z.pow_pos_nonneg 2 (Z.of_nat failures) ltac:(lia) ltac:(lia)). nia. }
  destruct (_ <? _) eqn:E in |- *; [exact Hf|b2p; lia].
Qed.

(** The pipe does not turn the clock back either. *)
Class ReporterLaws (B : Type) `{TimeLaws B} `{!IpcClientBackend B} := {
  connect_time p t : advances (Connect p t);
  write_time p t : advances (ClientWriteAll p t);
  read_time n t : advances (ClientReadAll n t);
  close_time : advances CloseClient
}.

#[export] Hint Resolve connect_time write_time read_time close_time : advance.

Section ReporterTime.
Context {B : Type} `{ReporterLaws B, SystemMessages}.

Lemma IpcRoundTrip_advances p t payload id timeout : advances (IpcRoundTrip p t payload id timeout).
Proof. unfold IpcRoundTrip, exchange. advance. Qed.

Lemma report_attempts_advances n o deadline rq sm : advances (report_attempts n o deadline rq sm).
Proof.
  induction n as [|n IH] in sm |- *; cbn [report_attempts]; [apply advances_ret|].
  pose proof IpcRoundTrip_advances. advance.
Qed.

(** A report adds one to one of the two counts. *)
Lemma report_attempts_sent n o deadline rq sm b delivered sm' b' :
  report_attempts n o deadline rq sm b = ((delivered, sm'), b') →
  connectFailures sm' = connectFailures sm ∧
  reportsSent sm' = reportsSent sm + if delivered then 1 else 0.
Proof.
  induction n as [|n IH] in sm, b |- *; cbn [report_attempts]; unfold mthen, mret.
  { intros [= <- <- <-]. split; [done|lia]. }
  destruct (clock_now b) as [now b1]. destruct (_ <=? _); [intros [= <- <- <-]; split; [done|lia]|].
  destruct (IpcRoundTrip _ _ _ _ _ b1) as [[r|e] b2]; [by intros [= <- <- <-]|].
  destruct n as [|n]; [apply IH|]. destruct (sleep_for _ b2) as [[] b3]. apply IH.
Qed.

Definition reports (sm : IpcPeriodicReportSummary) : Z := reportsSent sm + connectFailures sm.

Section Loop.
Context (o : IpcPeriodicReportOptions) (factory : M B (Result IpcFrameRequest))
  (idle : option (M B (Result Z))) (deadline : Z).
Hypothesis Hfactory : advances factory.
Hypothesis Hidle : ∀ i, idle = Some i → advances i.
Hypothesis Hinterval : 0 < interval o.

Lemma idle_advances : advances (sample_idle o idle).
Proof. unfold sample_idle. destruct idle as [i|] eqn:E; [pose proof (Hidle i eq_refl)|]; advance. Qed.

(** Time to come, twice, and one more turn when a report is due. *)
Definition turns_left (b : B) (nextSlot : Z) : Z :=
  2 * (deadline - time b) + if nextSlot <=? time b then 1 else 0.

Lemma reporter_loop_spec fuel nextSlot failures sm b r b' :
  reporter_loop fuel o factory idle deadline nextSlot failures sm b = (r, b') →
  ((0 < fuel)%nat → turns_left b nextSlot < Z.of_nat fuel → r ≠ None) ∧
  ∀ sm', r = Some (Success sm') →
    reports sm <= reports sm' ∧
    (reports sm < reports sm' →
     (reports sm' - reports sm - 1) * ns_of_millis (interval o) < deadline - Z.max nextSlot (time b)).
Proof.
  revert nextSlot failures sm b. induction fuel as [|fuel IH]; intros nextSlot failures sm b;
    cbn [reporter_loop]; [intros [= <- <-]; split; [lia|done]|]. unfold turns_left, mthen, mret.
  destruct (clock_now b) as [now b1] eqn:Ec. apply clock_run in Ec.
  destruct (deadline <=? now) eqn:Ed; b2p.
  { destruct (CloseClient b1) as [[] b2]. intros [= <- <-]. split; [done|].
    intros sm' [= <-]. lia. }
  destruct (now <? nextSlot) eqn:En; b2p.
  - destruct (sleep_for _ b1) as [[] b2] eqn:Es.
    pose proof (sleep_time (ns_of_millis (Z.quot (nextSlot - now) 1000000)) b1) as Hs.
    rewrite Es in Hs. cbn in Hs. intros E. apply IH in E as [Hr Hc]. split.
    + intros _ Ht. apply Hr; unfold turns_left;
        destruct (nextSlot <=? time b), (nextSlot <=? time b2); lia.
    + intros sm' E. specialize (Hc _ E) as [? Hc]. split; [done|]. intros Hlt.
      specialize (Hc Hlt). lia.
  - destruct (factory b1) as [[rq|e] b2] eqn:Ef; [|by intros [= <- <-]].
    apply (advances_run _ _ _ _ Hfactory) in Ef.
    destruct (report_attempts _ o deadline rq sm b2) as [[delivered sm1] b3] eqn:Ea.
    pose proof (report_attempts_sent _ _ _ _ _ _ _ _ _ Ea) as [Hf Hsent].
    apply (advances_run _ _ _ _ (report_attempts_advances _ _ _ _ _)) in Ea.
    set (sm2 := if delivered then sm1 else _).
    assert (Hrep : reports sm2 = reports sm + 1).
    { subst sm2. unfold reports. destruct delivered; cbn; lia. }
    destruct (sample_idle o idle b3) as [seconds b4] eqn:Ei.
    apply (advances_run _ _ _ _ idle_advances) in Ei.
    destruct (clock_now b4) as [now' b5] eqn:Ec'. apply clock_run in Ec'.
    intros E. apply IH in E as [Hr Hc]. rewrite Hrep in Hc.
    set (gap := IpcReportNextGap _ _ _ _ _ _ _) in *.
    assert (Hgap : interval o <= gap) by by apply IpcReportNextGap_ge.
    unfold ns_of_millis in *. split.
    + intros _ Ht. apply Hr; unfold turns_left; unfold ns_of_millis;
        destruct (nextSlot <=? time b) eqn:?, (now' + gap * 1000000 <=? time b5) eqn:?; b2p; nia.
    + intros sm' E. specialize (Hc _ E) as [? Hc]. split; [lia|]. intros _.
      destruct (Z.eq_dec (reports sm') (reports sm + 1)) as [->|Hne]; [lia|].
      specialize (Hc ltac:(lia)). nia.
Qed.
End Loop.

(** The reporter returns within a number of turns that its window bounds,
    and its reports, delivered or given up, are at least the interval apart:
    there are at most one more than fit into the window. *)
Lemma RunPeriodicReporter_bounded fuel o factory idle b r b' :
  0 < window o → 0 < interval o → 0 < reportIoTimeout o → maxConnectAttempts o ≠ 0%nat →
  advances factory → (∀ i, idle = Some i → advances i) →
  RunPeriodicReporter fuel o (Some factory) idle b = (r, b') →
  (2 * ns_of_millis (window o) + 1 < Z.of_nat fuel → r ≠ None) ∧
  ∀ sm, r = Some (Success sm) →
    0 <= reports sm ∧ (reports sm - 1) * interval o < window o.
Proof.
  intros Hw Hi Ht Hm Hf Hidle. unfold RunPeriodicReporter.
  destruct (_ || _) eqn:E.
  { rewrite !orb_true_iff, !Z.leb_le, Nat.eqb_eq in E. lia. }
  unfold mthen. destruct (clock_now b) as [start b1] eqn:E1. apply clock_run in E1.
  destruct (clock_now b1) as [slot b2] eqn:E2. apply clock_run in E2.
  intros Hl. apply reporter_loop_spec in Hl as [Hr Hc]; try done. unfold turns_left in Hr.
  split.
  - intros Hfuel. apply Hr; [unfold ns_of_millis in *; lia|]. destruct (slot <=? time b2); lia.
  - intros sm E'. specialize (Hc _ E') as [Hge Hc]. change (reports (MkReportSummary 0 0 false)) with 0 in *.
    split; [done|]. destruct (Z.eq_dec (reports sm) 0) as [->|Hne]; [nia|].
    specialize (Hc ltac:(lia)). unfold ns_of_millis in *. nia.
Qed.
End ReporterTime.

(** *** A host that is offline *)

Module Offline.
(** The clock in nanoseconds; connecting fails after three milliseconds. *)
#[export] Instance client : IpcClientBackend Z := {
  Connect _ _ t := (Failure (Validation "Connect" ""), t + 3000000);
  ClientWriteAll _ _ := mret (Success tt);
  ClientReadAll _ _ := mret (Success []);
  CloseClient := mret tt
}.
#[export] Instance clock : SteadyClock Z := λ t, (t, t).
#[export] Instance sleeping : Sleeping Z := λ d t, (tt, t + Z.max 1 d).
#[export] Instance messages : SystemMessages := no_messages.
#[export] Program Instance time_laws : TimeLaws Z := {| time t := t |}.
Solve Obligations with (cbn; lia).
#[export] Instance laws : ReporterLaws Z.
Proof. split; intros; intros b; cbn; lia. Qed.

Definition options : IpcPeriodicReportOptions :=
  MkReportOptions "\\.\pipe\CppOptimizerIpc" 20 4 0 5 2 1 0 1 0.
Definition factory : M Z (Result IpcFrameRequest) :=
  mret (Success (MkFrameRequest IpcMessageType.Ping [] 1)).
End Offline.

Section OfflineRun.
Import Offline.

Example RunPeriodicReporter_bounded_witness :
  ∃ t, RunPeriodicReporter 20 options (Some factory) None 0 =
         (Some (Success (MkReportSummary 0 2 false)), t) ∧
    0 <= reports (MkReportSummary 0 2 false) ∧
    (reports (MkReportSummary 0 2 false) - 1) * interval options < window options.
Proof.
  eexists. split; [vm_compute; reflexivity|].
  eapply (RunPeriodicReporter_bounded 20 options factory None 0);
    [reflexivity|reflexivity|reflexivity|discriminate|intros b; cbn; lia|discriminate| |reflexivity].
  vm_compute. reflexivity.
Defined.
End OfflineRun.
