(* ===== verification/PolicyCommand.v ===== *)
(** The command [--policy] of [source/main.cpp] ([RunPolicyCommand]): for a
    bounded window it observes memory and games once a second, decides, and has
    the executor act on what it decided; at the end everything is let go of. *)

From S2P Require Import Prelude Timing CommonError Containers Paths AuditLine AuditLog.
From S2P Require Import PolicyEngine ConfigTypes Config ConfigRules UserActivity.
From S2P Require Import PowerLocker PriorityBooster PolicyExecutor ServiceCalls ProcessWatcher.
From S2P Require Import Memory Actions.

Open Scope string_scope.
Open Scope list_scope.
Open Scope Z_scope.

(** ** What is configured *)

(** The variables that the configuration sets; [pst_loaded] is [configLoaded]. *)
Record PolicySettings := MkPolicySettings {
  pst_games : list GameConfig;
  pst_policy : PolicyConfig;
  pst_power : PowerConfig;
  pst_priority : PriorityConfig;
  pst_mode : RunMode;
  pst_layers : LayerConfig;
  pst_loaded : bool;
  pst_memoryQuery : bool
}.

(** Before any configuration is read. *)
Definition initial_settings : PolicySettings :=
  MkPolicySettings [] default_policy default_power (ConfigTypes.priority default_snapshot)
    RunMode.Observe (layers default_snapshot) false true.

Definition kMaxPolicySeconds : Z := 60.

Definition policy_seconds `{WideCtype} (text : wstring) : option Z :=
  match ParseUint32 text with
  | Some s => if (s =? 0) || (kMaxPolicySeconds <? s) then None else Some s
  | None => None
  end.

Section Settings.
Context {B Node : Type} `{Toml Node} `{TomlFiles B Node} `{FileSystem B}.

(** A configuration that is named is read with the local one beside it and must
    be valid. Otherwise the local one of the current directory is read, of which
    the mode, the layers and the memory section are not taken over. *)
Definition policy_settings (configPath : option string) (b : B) : option PolicySettings :=
  match configPath with
  | Some main =>
      match LoadConfigWithLocal main (path_append (parent_path main) "config.local.toml") b with
      | Failure _ => None
      | Success s =>
          Some (MkPolicySettings (games s) (policy s) (ConfigTypes.power s) (ConfigTypes.priority s)
                  (app_mode (application s)) (layers s) true (queryEnabled (memory s)))
      end
  | None =>
      let i := initial_settings in
      if (exists_file "config.local.toml" b).1 then
        match LoadConfig "config.local.toml" b with
        | Failure _ => Some i
        | Success s =>
            Some (MkPolicySettings (games s) (policy s) (ConfigTypes.power s) (ConfigTypes.priority s)
                    (pst_mode i) (pst_layers i) true (pst_memoryQuery i))
        end
      else Some i
  end.
End Settings.

Definition settings_thresholds (s : PolicySettings) : PolicyThresholds :=
  let p := pst_policy s in
  MkThresholds (ConfigTypes.comfortableMarginPercent p) (ConfigTypes.adequateMarginPercent p)
    (ConfigTypes.tightMarginPercent p).

Definition r1_allowed (s : PolicySettings) : bool :=
  pst_loaded s && AllowsLocalReversibleActions (pst_mode s) (pst_layers s).

(** [ExecutorConfig::powerReason]. *)
Definition kPowerReason : string := "CppOptimizer policy: game running (R1)".

Definition executor_config (s : PolicySettings) : ExecutorConfig :=
  let allowed := r1_allowed s in
  MkExecutorConfig (allowed && pri_enabled (pst_priority s)) (ConfigTypes.maxLevel (pst_priority s))
    (allowed && executionRequired (pst_power s)) (allowed && displayRequired (pst_power s))
    kPowerReason (Z.to_nat (Z.max 0 (haltAfterActionFailures (pst_policy s)))) true.

(** ** One round *)

(** [pauseByGame]: the last rule of an id counts. *)
Definition pause_by_game (games : list GameConfig) : gmap string bool :=
  foldl (λ m g, <[cfg_id g := ConfigTypes.pauseWhenBackground g]> m) ∅ games.

Definition in_focus (i : ProcessInfo) : bool :=
  match state i with ProcessState.Running | ProcessState.Starting => true | _ => false end.

Definition no_focus : GameFocus := MkFocus "" false false true.
Definition no_target : ExecutorTarget := MkTarget "" 0 0 false.

(** The first game that runs, in the order of the table. *)
Definition focus_of (pauses : gmap string bool) (tracked : list ProcessInfo) :
    GameFocus * ExecutorTarget :=
  match List.find in_focus tracked with
  | Some i =>
      (MkFocus (ProcessWatcher.gameId i) true (isForeground i)
         (default true (pauses !! ProcessWatcher.gameId i)),
       MkTarget (ProcessWatcher.gameId i) (pid i) (creationTime100ns i) true)
  | None => (no_focus, no_target)
  end.

(** An action of the executor as an audit record. *)
Definition action_record (e : ExecutorActionEvent) : AuditRecord :=
  MkAuditRecord (operationId e) RiskLevel.R1 "policy" (ev_target e) (ev_detail e) (ev_ok e) 0.

Section Round.
Context {P Q B : Type} `{PowerService P} `{BoostService Q}.
Context `{SystemMessages} `{FileSystem B} `{Clock B} `{SteadyClock B} `{Sleeping B}.
Context `{MemoryApi B} `{LastInputBackend B} `{ProcessSystem B}.

Definition read_margin : M B (option Z) :=
  status <-- QueryMemoryStatus steady_clock ;;
  mret (match status with
        | Success s =>
            match ComputeMemoryMarginPercent (availablePhysicalBytes s) (totalPhysicalBytes s) with
            | Success m => Some m
            | Failure _ => None
            end
        | Failure _ => None
        end).

(** Whether the user counts as present; without the gate nobody is asked. *)
Definition user_present (awayIdleSeconds : Z) : M B bool :=
  if 0 <? awayIdleSeconds then
    sample <-- QueryInput ;;
    mret (match sample with
          | Success i =>
              bool_decide (ClassifyActivity (nowTick i) (lastInputTick i) (awayIdleSeconds * 1000)
                           = ActivityState.Active)
          | Failure _ => false
          end)
  else mret true.

(** The objects of the window, and the audit's failures. *)
Record PolicyWindow := MkPolicyWindow {
  win_watcher : ProcessWatcher;
  win_evaluator : PolicyEvaluator;
  win_exec : World P Q;
  win_audit : AuditLog;
  win_auditFailures : Z
}.

(** No margin, or thresholds that cannot be: no decision is asked for, and the
    default one stands. *)
Definition tick_decision (s : PolicySettings) (now : Z) (margin : option Z) (focus : GameFocus)
    (e : PolicyEvaluator) : M B (PolicyDecision * PolicyEvaluator) :=
  match margin with
  | None => mret (default_decision, e)
  | Some m =>
      match ClassifyPressure (i32 m) (settings_thresholds s) with
      | Failure _ => mret (default_decision, e)
      | Success pressure =>
          present <-- user_present (userAwayIdleSeconds (pst_policy s)) ;;
          let '(v, e') := Evaluate (MkInput pressure focus present) now e in
          mret (decision v, e')
      end
  end.

(** The observer of the executor. The model runs it after the round, on the
    round's events in their order. *)
Fixpoint audit_events (events : list ExecutorActionEvent) (l : AuditLog) (failures : Z) :
    M B (AuditLog * Z) :=
  match events with
  | [] => mret (l, failures)
  | e :: rest => λ b,
      let '(r, (l', b')) := Append (action_record e) (l, b) in
      audit_events rest l' (if HasValue r then failures else u64 (failures + 1)) b'
  end.

(** The observer on what [w'] has observed more than [w]. *)
Definition note_actions (w w' : World P Q) (win : PolicyWindow) (watcher : ProcessWatcher)
    (e : PolicyEvaluator) : M B PolicyWindow :=
  out <-- audit_events (drop (length (observed w)) (observed w')) (win_audit win)
            (win_auditFailures win) ;;
  mret (MkPolicyWindow watcher e w' out.1 out.2).

Definition policy_round (s : PolicySettings) (now : Z) (win : PolicyWindow) : M B PolicyWindow :=
  margin <-- read_margin ;;
  λ b,
    let '(polled, (watcher, b1)) := PollOnce (win_watcher win, b) in
    let '(focus, target) :=
      if HasValue polled then focus_of (pause_by_game (pst_games s)) (tracked_ watcher)
      else (no_focus, no_target) in
    (decided <-- tick_decision s now margin focus (win_evaluator win) ;;
     note_actions (win_exec win) (ApplyDecision decided.1 target (win_exec win)).2 win watcher
       decided.2) b1.

Definition kSecond : Z := 1000000000.

(** The loop reads the clock up to three times a turn; [None] is a window that
    has not ended yet. *)
Fixpoint policy_loop (fuel : nat) (s : PolicySettings) (deadline : Z) (win : PolicyWindow) :
    M B (option PolicyWindow) :=
  match fuel with
  | O => mret None
  | S fuel' =>
      t <-- clock_now ;;
      if deadline <=? t then mret (Some win)
      else
        now <-- clock_now ;;
        win' <-- policy_round s now win ;;
        t' <-- clock_now ;;
        (if t' <? deadline then sleep_for kSecond else mret tt) ;;;
        policy_loop fuel' s deadline win'
  end.

(** What is held at the end is released, under the observer's eyes. *)
Definition policy_exit (win : PolicyWindow) : M B PolicyWindow :=
  note_actions (win_exec win) (ExecutorReleaseAll (win_exec win)) win (win_watcher win)
    (win_evaluator win).
End Round.

Arguments PolicyWindow P Q : clear implicits.

(** ** The command *)

(** The exit code, and the window if it came to one. *)
Record PolicyOutcome (P Q : Type) := MkPolicyOutcome {
  policy_exit_code : Z;
  policy_window : option (PolicyWindow P Q)
}.
Arguments MkPolicyOutcome {P Q}. Arguments policy_exit_code {P Q}. Arguments policy_window {P Q}.

Section Command.
Context {P Q B Node : Type} `{PowerService P} `{BoostService Q}.
Context `{SystemMessages} `{WideCtype} `{CodePages}.
Context `{FileSystem B} `{Clock B} `{SteadyClock B} `{Sleeping B} `{Folders B}.
Context `{MemoryApi B} `{LastInputBackend B} `{ProcessSystem B}.
Context `{Toml Node} `{TomlFiles B Node}.

Definition policy_refused : PolicyOutcome P Q := MkPolicyOutcome 2 None.

(** The window before its first round. [locker] and [booster] are the new
    services on the system's backends. *)
Definition new_window (s : PolicySettings) (watcher : ProcessWatcher) (locker : P)
    (booster : PriorityLevel → Q) (b : B) : PolicyWindow P Q :=
  let c := executor_config s in
  MkPolicyWindow watcher
    (NewPolicyEvaluator (settings_thresholds s) (pol_cooldownMs (pst_policy s)))
    (MkWorld (NewPolicyExecutor c) locker (booster (priorityMaxLevel c)) [])
    (MkAuditLog 128 true (DefaultAuditLogPath b) []) 0.

(** [secondsText] and [configPath] are the arguments; what is printed is not
    modelled. *)
Definition RunPolicyCommand (fuel : nat) (secondsText : wstring) (configPath : option string)
    (locker : P) (booster : PriorityLevel → Q) : M B (option (PolicyOutcome P Q)) := λ b,
  match policy_seconds secondsText with
  | None => (Some policy_refused, b)
  | Some seconds =>
      match policy_settings configPath b with
      | None => (Some policy_refused, b)
      | Some s =>
          match SetRules (pst_games s) (NewProcessWatcher true) with
          | (Failure _, _) => (Some policy_refused, b)
          | (Success _, watcher) =>
              if pst_loaded s && negb (pst_memoryQuery s) then (Some policy_refused, b)
              else
                (start <-- clock_now ;;
                 ended <-- policy_loop fuel s (start + seconds * kSecond)
                             (new_window s watcher locker booster b) ;;
                 match ended with
                 | None => mret None
                 | Some win =>
                     win' <-- policy_exit win ;;
                     mret (Some (MkPolicyOutcome 0 (Some win')))
                 end) b
          end
      end
  end.
End Command.

(** ** Theorems *)

Section Settings.
Context {B Node : Type} `{Toml Node} `{!TomlLaws Node} `{TomlFiles B Node} `{FileSystem B}.

(** What a named configuration has to say for the executor to act. *)
Definition permits (configPath : option string) (b : B) (f : ConfigSnapshot → bool) : Prop :=
  ∃ main c, configPath = Some main ∧
    LoadConfigWithLocal main (path_append (parent_path main) "config.local.toml") b = Success c ∧
    AllowsLocalReversibleActions (app_mode (application c)) (layers c) = true ∧ f c = true.

Lemma settings_games path (b : B) s :
  policy_settings path b = Some s → Forall (λ g, cfg_id g ≠ "") (pst_games s).
Proof.
  unfold policy_settings. destruct path as [main|].
  - destruct (LoadConfigWithLocal _ _ b) as [c|] eqn:E; [|done]. intros [= <-]. cbn.
    by apply LoadConfigWithLocal_spec in E as [[] _].
  - destruct (exists_file _ b).1; [|by intros [= <-]].
    destruct (LoadConfig _ b) as [c|] eqn:E; intros [= <-]; [|done]. cbn.
    by apply load_valid in E as [].
Qed.

Lemma settings_permit path (b : B) s f :
  policy_settings path b = Some s → r1_allowed s = true →
  (∀ c, pst_priority s = ConfigTypes.priority c → pst_power s = ConfigTypes.power c →
        f c = true) →
  permits path b f.
Proof.
  unfold policy_settings, permits. destruct path as [main|].
  - destruct (LoadConfigWithLocal _ _ b) as [c|] eqn:E; [|done]. intros [= <-] Hr Hf. cbn in *.
    exists main, c. split_and!; [done|done|done|by apply Hf].
  - destruct (exists_file _ b).1; [|by intros [= <-]].
    by destruct (LoadConfig _ b) as [c|]; intros [= <-].
Qed.
End Settings.

Section Rounds.
Context {P Q B : Type} `{!PowerService P} `{!BoostService Q}.
Context `{SystemMessages} `{FileSystem B} `{Clock B} `{SteadyClock B} `{Sleeping B}.
Context `{MemoryApi B} `{LastInputBackend B} `{ProcessSystem B}.
#[local] Abbreviation world := (World P Q).
#[local] Abbreviation window := (PolicyWindow P Q).

Lemma ApplyDecision_inv d t (w : world) :
  exec_inv w → (tgt_running t = true → tgt_gameId t ≠ "") → exec_inv (ApplyDecision d t w).2.
Proof.
  intros Hinv Hid. destruct (halted_ (executor w)) eqn:Hh.
  - unfold ApplyDecision. by rewrite Hh.
  - destruct (ApplyDecision d t w) as [r w'] eqn:E.
    eapply ApplyDecision_cases; [exact Hinv|exact Hh| |exact E].
    unfold priority_desired. intros Hd. b2p. by apply Hid.
Qed.

(** What holds between the rounds. *)
Definition window_ok (win : window) : Prop :=
  exec_inv (win_exec win) ∧ watches (λ g, g ≠ "") (win_watcher win).

Lemma focus_of_id pauses tr :
  Forall (λ i, ProcessWatcher.gameId i ≠ "") tr →
  tgt_running (focus_of pauses tr).2 = true → tgt_gameId (focus_of pauses tr).2 ≠ "".
Proof.
  intros Ht. unfold focus_of. destruct (List.find in_focus tr) as [i|] eqn:E; [|done].
  intros _. cbn. apply find_some in E as [Hi _]. rewrite Forall_forall in Ht.
  by apply Ht, list_elem_of_In.
Qed.

Lemma note_actions_exec (w w' : world) win watcher e b :
  win_exec (note_actions w w' win watcher e b).1 = w' ∧
  win_watcher (note_actions w w' win watcher e b).1 = watcher.
Proof. unfold note_actions, mthen, mret. by destruct (audit_events _ _ _ b) as [out b1]. Qed.

(** A round is a round of the executor, with a target that has an id. *)
Lemma policy_round_exec s now (win : window) b win' b' :
  policy_round s now win b = (win', b') →
  (window_ok win → window_ok win') ∧ moved (win_exec win) (win_exec win').
Proof.
  unfold policy_round. unfold mthen. destruct (read_margin b) as [margin b1].
  pose proof (PollOnce_watches (λ g, g ≠ "") (win_watcher win) b1) as Hw.
  destruct (PollOnce (win_watcher win, b1)) as [polled [watcher b2]]. cbn [fst snd] in Hw.
  destruct (if HasValue polled then _ else _) as [focus target] eqn:Ef.
  destruct (tick_decision _ _ _ _ _ b2) as [[d e] b3]. cbn [fst snd]. intros E.
  destruct (note_actions_exec (win_exec win) (ApplyDecision d target (win_exec win)).2 win watcher e b3)
    as [E1 E2]. rewrite E in E1, E2. cbn in E1, E2. unfold window_ok. rewrite E1, E2.
  split; [|apply moved_ApplyDecision].
  intros [Hinv Hwin]. specialize (Hw Hwin). split; [|done]. apply ApplyDecision_inv; [done|].
  destruct (HasValue polled); [|by injection Ef as <- <-].
  intros Hr. pose proof (focus_of_id (pause_by_game (pst_games s)) (tracked_ watcher)) as Hid.
  rewrite Ef in Hid. by apply Hid; [apply Hw|].
Qed.

Lemma policy_loop_exec fuel s deadline (win : window) b win' b' :
  policy_loop fuel s deadline win b = (Some win', b') →
  (window_ok win → window_ok win') ∧ moved (win_exec win) (win_exec win').
Proof.
  revert win b. induction fuel as [|fuel IH]; intros win b; cbn [policy_loop]; [done|].
  unfold mthen, mret. destruct (clock_now b) as [t b1].
  destruct (_ <=? _); [intros [= <- <-]; by split|].
  destruct (clock_now b1) as [now b2].
  destruct (policy_round s now win b2) as [win1 b3] eqn:E.
  apply policy_round_exec in E as [H7 H8].
  destruct (clock_now b3) as [t' b4].
  match goal with |- context [let (_, _) := ?x in _] => destruct x as [[] b5] end.
  intros [H9 H10]%IH.
  split; [by intros; apply H9, H7|by etrans].
Qed.

(** The rounds are rounds of the executor: what every one of them keeps up, the
    loop does. *)
Lemma policy_loop_rounds (R : world → world → Prop) `{!PreOrder R} fuel s deadline (win : window) b win' b' :
  (∀ d t w, R w (ApplyDecision d t w).2) →
  policy_loop fuel s deadline win b = (Some win', b') → R (win_exec win) (win_exec win').
Proof.
  intros HR. revert win b. induction fuel as [|fuel IH]; intros win b; cbn [policy_loop]; [done|].
  unfold mthen, mret. destruct (clock_now b) as [t b1].
  destruct (_ <=? _); [by intros [= <- <-]|].
  destruct (clock_now b1) as [now b2].
  destruct (policy_round s now win b2) as [win1 b3] eqn:E.
  assert (R (win_exec win) (win_exec win1)) as Hstep.
  { revert E. unfold policy_round, mthen. destruct (read_margin b2) as [margin b4].
    destruct (PollOnce (win_watcher win, b4)) as [polled [watcher b5]].
    destruct (if HasValue polled then _ else _) as [focus target].
    destruct (tick_decision _ _ _ _ _ b5) as [[d e] b6]. cbn [fst snd]. intros E.
    destruct (note_actions_exec (win_exec win) (ApplyDecision d target (win_exec win)).2 win watcher e b6)
      as [E1 _]. rewrite E in E1. cbn in E1. rewrite E1. apply HR. }
  destruct (clock_now b3) as [t' b4].
  match goal with |- context [let (_, _) := ?x in _] => destruct x as [[] b5] end.
  intros Hrest%IH. by etrans.
Qed.

Lemma policy_exit_exec (win : window) b :
  win_exec (policy_exit win b).1 = ExecutorReleaseAll (win_exec win).
Proof. apply note_actions_exec. Qed.
End Rounds.

Section CommandTheorems.
Context {P Q B Node : Type} `{!PowerService P} `{!BoostService Q}.
Context `{SystemMessages} `{WideCtype} `{CodePages}.
Context `{FileSystem B} `{Clock B} `{SteadyClock B} `{Sleeping B} `{Folders B}.
Context `{MemoryApi B} `{LastInputBackend B} `{ProcessSystem B}.
Context `{Toml Node} `{!TomlLaws Node} `{TomlFiles B Node}.
Context (locker : P) (booster : PriorityLevel → Q).

(** The run of a window that came to be. *)
Record window_run (fuel : nat) (text : wstring) (path : option string) (b : B)
    (win : PolicyWindow P Q) (b' : B) (s : PolicySettings) : Prop := MkWindowRun {
  wr_settings : policy_settings path b = Some s;
  wr_run : ∃ seconds watcher b1 start b2 win0,
    policy_seconds text = Some seconds ∧
    SetRules (pst_games s) (NewProcessWatcher true) = (Success tt, watcher) ∧
    clock_now b = (start, b1) ∧
    policy_loop fuel s (start + seconds * kSecond) (new_window s watcher locker booster b) b1
      = (Some win0, b2) ∧
    policy_exit win0 b2 = (win, b')
}.

Lemma RunPolicyCommand_window fuel text path b code win b' :
  RunPolicyCommand fuel text path locker booster b = (Some (MkPolicyOutcome code (Some win)), b') →
  code = 0 ∧ ∃ s, window_run fuel text path b win b' s.
Proof.
  unfold RunPolicyCommand. destruct (policy_seconds text) as [seconds|] eqn:Et; [|done].
  destruct (policy_settings path b) as [s|] eqn:Es; [|done].
  destruct (SetRules _ _) as [[[]|e] watcher] eqn:Er; [|done].
  destruct (_ && _); [done|]. unfold mthen, mret.
  destruct (clock_now b) as [start b1] eqn:Ec.
  destruct (policy_loop _ _ _ _ b1) as [[win0|] b2] eqn:El; [|done].
  destruct (policy_exit win0 b2) as [win1 b3] eqn:Ee. intros [= <- <- <-].
  split; [done|]. exists s. split; [done|]. by exists seconds, watcher, b1, start, b2, win0.
Qed.

(** The new services hold nothing. *)
Definition fresh_services : Prop :=
  power_inv locker ∧ (∀ t, power_count t locker = 0%nat) ∧
  ∀ l, boost_inv (booster l) ∧ ∀ g, boosted g (booster l) = None.

Lemma new_window_ok s watcher b :
  fresh_services → watches (λ g, g ≠ "") watcher →
  window_ok (new_window s watcher locker booster b).
Proof.
  intros (Hp & Hc & Hq) Hw. split; [|done]. destruct (Hq (priorityMaxLevel (executor_config s)))
    as [Hi Hb]. split_and!; [done|done|..].
  - intros t. cbn. rewrite Hc. by destruct t.
  - intros g. cbn. rewrite Hb. by rewrite decide_False by naive_solver.
Qed.

(** C3. Whatever happens in its window, and whatever the system answers: when
    [--policy] is done its executor holds nothing, and if the releases it made
    on leaving succeeded (three at most, the last events it observed), no power
    request and no priority is left at the services. *)
Theorem policy_gives_back fuel text path (b : B) code win b' :
  fresh_services →
  RunPolicyCommand fuel text path locker booster b = (Some (MkPolicyOutcome code (Some win)), b') →
  let w := win_exec win in
  code = 0 ∧
  IsPriorityHeld (executor w) = false ∧ IsPowerHeld (executor w) = false ∧
  IsDisplayHeld (executor w) = false ∧
  ∃ before leaving, observed w = before ++ leaving ∧ (length leaving <= 3)%nat ∧
    (forallb ev_ok leaving = true →
     (∀ t, power_count t (power w) = 0%nat) ∧ ∀ g, boosted g (priority w) = None).
Proof.
  intros Hf [-> (s & [Es (seconds & watcher & b1 & start & b2 & win0 & _ & Er & _ & El & Ee)])]
    %RunPolicyCommand_window. cbn zeta. split; [done|].
  pose proof (SetRules_watches (λ g, g ≠ "") _ _ _ _ (settings_games _ _ _ Es) Er) as Hw.
  apply policy_loop_exec in El as [Hok (Hc & _)].
  destruct (Hok (new_window_ok s watcher b Hf Hw)) as [Hinv _].
  pose proof (policy_exit_exec win0 b2) as E. rewrite Ee in E. cbn in E. rewrite E.
  destruct (ExecutorReleaseAll_spec (win_exec win0) Hinv) as (H1' & H2' & H3' & ev & H4' & H5' & H6').
  { by rewrite Hc. }
  split_and!; [done..|]. by exists (observed (win_exec win0)), ev.
Qed.

(** C15. Without a configuration named on the command line that allows reversible
    actions in its mode and layers and enables them, [--policy] never touches
    the services, whatever it decides: power requests want one of the two power
    switches, priorities the priority switch. The configuration of the current
    directory, which is read when none is named, cannot enable anything. *)
Theorem policy_needs_permission fuel text path (b : B) code win b' :
  RunPolicyCommand fuel text path locker booster b = (Some (MkPolicyOutcome code (Some win)), b') →
  let w := win_exec win in
  let wants_power c := executionRequired (ConfigTypes.power c) || displayRequired (ConfigTypes.power c) in
  let wants_priority c := pri_enabled (ConfigTypes.priority c) in
  (power w = locker ∨ permits path b wants_power) ∧
  ((∃ l, priority w = booster l) ∨ permits path b wants_priority) ∧
  (observed w = [] ∨ permits path b (λ c, wants_power c || wants_priority c)).
Proof.
  intros [-> (s & [Es (seconds & watcher & b1 & start & b2 & win0 & _ & _ & _ & El & Ee)])]
    %RunPolicyCommand_window. cbn zeta.
  apply policy_loop_exec in El as [_ Hm].
  pose proof (policy_exit_exec win0 b2) as E. rewrite Ee in E. cbn in E. rewrite E.
  assert (moved (win_exec (new_window s watcher locker booster b))
            (ExecutorReleaseAll (win_exec win0))) as (_ & _ & Hu)
    by (etrans; [exact Hm|apply moved_ExecutorReleaseAll]).
  destruct Hu as (_ & Hq & Hp & Ho); [by split; [|intros _ []]|].
  cbn [win_exec new_window executor config_ NewPolicyExecutor power priority observed] in Hq, Hp, Ho.
  pose proof (λ f, settings_permit path b s f Es) as Hpermit.
  unfold power_enabled, executor_config in *. cbn in Hq, Hp, Ho.
  destruct (r1_allowed s) eqn:Hr; cbn in Hq, Hp, Ho;
    [|split_and!; left; [by apply Hp|eexists; by apply Hq|by apply Ho]].
  destruct (pri_enabled (pst_priority s)) eqn:E1,
    (executionRequired (pst_power s) || displayRequired (pst_power s)) eqn:E2; split_and!;
    first [ left; first [by apply Hp | eexists; by apply Hq | by apply Ho]
          | right; apply Hpermit; [done|]; intros c E3 E4; cbv beta; rewrite <- ?E3, <- ?E4; by rewrite ?E1, ?E2, ?orb_true_r ].
Qed.
End CommandTheorems.

(** *** The window ends, and everything it did is on record *)

(** The queries of a round, and the files, take time but do not turn the clock
    back; the queries leave the files alone. *)
Class WindowLaws (B : Type) `{TimeLaws B} `{FileSystemLaws B} `{MemoryApi B}
    `{LastInputBackend B} `{ProcessSystem B} := {
  memory_time : advances GlobalMemoryStatusEx;
  input_time : advances QueryInput;
  enumerate_time : advances EnumerateProcesses;
  creation_time p : advances (QueryProcessCreationTime p);
  window_time p : advances (QueryWindowInfo p);
  directories_time p : advances (create_directories p);
  append_time p t : advances (append_text p t);
  memory_files q : preserves (file q) GlobalMemoryStatusEx;
  input_files q : preserves (file q) QueryInput;
  enumerate_files q : preserves (file q) EnumerateProcesses;
  creation_files p q : preserves (file q) (QueryProcessCreationTime p);
  window_files p q : preserves (file q) (QueryWindowInfo p);
  clock_files q : preserves (file q) clock_now;
  sleep_files d q : preserves (file q) (sleep_for d)
}.
#[export] Hint Extern 1 (advances _) =>
  first [apply memory_time | apply input_time | apply enumerate_time | apply creation_time
        | apply window_time | apply directories_time | apply append_time] : advance.
#[export] Hint Extern 1 (preserves _ _) =>
  first [apply memory_files | apply input_files | apply enumerate_files | apply creation_files
        | apply window_files | apply clock_files | apply sleep_files] : frame.

Section WindowTime.
Context {P Q B : Type} `{!PowerService P} `{!BoostService Q}.
Context `{WindowLaws B} `{SystemMessages} `{!Clock B}.
#[local] Abbreviation window := (PolicyWindow P Q).

Lemma AppendAuditLine_advances path r : advances (AppendAuditLine path r).
Proof.
  unfold AppendAuditLine, with_parent.
  assert (∀ a c (t : B → string), advances (append_flushed path a c t)) as Ha.
  { intros a c t b. refine (advances_bind (append_text path (t b)) _ _ _ b).
    - auto with advance.
    - intros []; [advance| |]; intros b1; cbn; lia. }
  advance; auto.
Qed.

Lemma Append_advances r l b : time b <= time (Append r (l, b)).2.2.
Proof.
  unfold Append. destruct (negb _); [cbn; lia|]. destruct (string_empty _); [cbn; lia|].
  pose proof (AppendAuditLine_advances (filePath l) (stamp r b) b) as Ha.
  by destruct (AppendAuditLine _ _ b) as [[[]|e] b1].
Qed.

Lemma audit_events_advances events l n : advances (audit_events events l n).
Proof.
  revert l n. induction events as [|e rest IH]; intros l n; cbn [audit_events]; [advance|].
  intros b. pose proof (Append_advances (action_record e) l b) as Ha.
  destruct (Append _ _) as [r [l1 b1]]. cbn in Ha. etrans; [exact Ha|apply IH].
Qed.

Lemma mfold_advances {A C} (f : C → A → M B C) l c :
  (∀ c a, advances (f c a)) → advances (mfold f l c).
Proof. intros Hf. revert c. induction l as [|a l IH]; intros c; cbn; advance; auto. Qed.

Lemma PollOnce_advances w b : time b <= time (PollOnce (w, b)).2.2.
Proof.
  unfold PollOnce.
  assert (advances EnumerateProcesses) as He by auto with advance.
  specialize (He b). destruct (EnumerateProcesses b) as [[entries|e] b1]; cbn in *; [|done].
  set (titled := existsb _ _).
  assert (∀ entries, advances (mfold (prefetch_rule entries) (rules_ w) ∅)) as Hp.
  { intros es. apply mfold_advances. intros c rule. unfold prefetch_rule.
    destruct (_ =? 0); [advance|]. apply mfold_advances. intros c' name.
    apply mfold_advances. intros c'' entry. unfold prefetch_entry. advance. }
  assert (time b1 <= time (if titled then mfold (prefetch_rule entries) (rules_ w) ∅ b1
                           else (∅, b1)).2) as Hc by (destruct titled; [apply Hp|cbn; lia]).
  destruct (if titled then _ else _) as [cache b2]. cbn in Hc.
  set (ms := MatchRulesToEntries _ _).
  assert (advances (mfold (λ acc m, item <-- presence_of (detectWindows w) cache m ;;
                              mret (acc ++ [item])) ms [])) as Hm.
  { apply mfold_advances. intros acc m. unfold presence_of. advance. }
  specialize (Hm b2). destruct (mfold _ ms [] b2) as [presence b3]. cbn in *. lia.
Qed.

Lemma policy_round_advances s now (win : window) : advances (policy_round s now win).
Proof.
  unfold policy_round, read_margin, QueryMemoryStatus, memory_failure. apply advances_bind.
  { advance. }
  intros margin b. pose proof (PollOnce_advances (win_watcher win) b) as Hp.
  destruct (PollOnce _) as [polled [watcher b1]]. cbn in Hp.
  destruct (if HasValue polled then _ else _) as [focus target].
  etrans; [exact Hp|]. revert b1 Hp. intros b1 _.
  match goal with |- time b1 <= time (?m b1).2 => enough (advances m) by auto end.
  unfold tick_decision, user_present, note_actions. pose proof audit_events_advances.
  advance; auto.
Qed.

Lemma policy_loop_ends fuel s deadline (win : window) b :
  (0 < fuel)%nat → deadline - time b <= (Z.of_nat fuel - 1) * kSecond →
  (policy_loop fuel s deadline win b).1 ≠ None.
Proof.
  revert win b. induction fuel as [|fuel IH]; intros win b Hf Ht; [lia|]. cbn [policy_loop].
  unfold mthen, mret, kSecond in *. destruct (clock_now b) as [t b1] eqn:E1. apply clock_run in E1.
  destruct (Z.leb_spec deadline t); [done|].
  destruct (clock_now b1) as [now b2] eqn:E2. apply clock_run in E2.
  destruct (policy_round s now win b2) as [win1 b3] eqn:E3.
  apply (advances_run _ _ _ _ (policy_round_advances _ _ _)) in E3.
  destruct (clock_now b3) as [t' b4] eqn:E4. apply clock_run in E4.
  destruct (Z.ltb_spec t' deadline).
  - destruct (sleep_for 1000000000 b4) as [[] b5] eqn:E5. apply sleep_run in E5. apply IH; lia.
  - apply IH; lia.
Qed.
End WindowTime.

Section Audited.
Context {P Q B : Type} `{!PowerService P} `{!BoostService Q}.
Context `{WindowLaws B} `{SystemMessages} `{!Clock B}.
#[local] Abbreviation window := (PolicyWindow P Q).

(** The line of an action, at whatever time it was written. *)
Definition recorded (e : ExecutorActionEvent) (line : string) : Prop :=
  ∃ local at_, line = FormatAuditLineAscii local
    (MkAuditRecord (operationId e) RiskLevel.R1 "policy" (ev_target e) (ev_detail e) (ev_ok e) at_).

(** [n] events of [events] could not be recorded; if none, the file has grown by
    their lines. *)
Definition audited (path old : string) (events : list ExecutorActionEvent) (l : AuditLog)
    (failures : Z) (b : B) : Prop :=
  filePath l = path ∧ enabled l = true ∧
  ∃ n, failures = u64 n ∧ 0 <= n <= len events ∧
    (n = 0 → ∃ lines, Forall2 recorded events lines ∧
                      default "" (file path b) = old +:+ unlines lines).

Lemma Append_action e l b r l' b' :
  filePath l ≠ "" → enabled l = true →
  Append (action_record e) (l, b) = (r, (l', b')) →
  filePath l' = filePath l ∧ enabled l' = true ∧
  (HasValue r = true → ∃ line, recorded e line ∧
     file (filePath l) b' = Some (default "" (file (filePath l) b) +:+ unlines [line])).
Proof.
  intros Hp He Ha. apply Append_spec in Ha. destruct r as [[]|err]; cbn [HasValue].
  - destruct Ha as (_ & -> & Hf). split_and!; [done|done|]. intros _.
    destruct Hf as [local Hf].
    { unfold IsPersistent. by destruct (filePath l). }
    exists (FormatAuditLineAscii local (stamp (action_record e) b)). split; [|done].
    unfold stamp. cbn. by exists local, (steady_clock b).
  - subst l'. by split_and!.
Qed.

Lemma audit_events_audited path old evs before l n b l' n' b' :
  path ≠ "" → audited path old before l n b →
  audit_events evs l n b = ((l', n'), b') →
  audited path old (before ++ evs) l' n' b'.
Proof.
  intros Hp. revert before l n b. induction evs as [|e evs IH]; intros before l n b Ha;
    cbn [audit_events]; [intros [= <- <- <-]; by rewrite app_nil_r|].
  destruct (Append (action_record e) (l, b)) as [r [l1 b1]] eqn:E. intros Hrun.
  destruct Ha as (<- & He & k & -> & Hk & Hfile).
  destruct (Append_action e l b r l1 b1 Hp He E) as (Hp1 & He1 & Hf1).
  rewrite (cons_middle e before evs), app_assoc.
  eapply IH; [|exact Hrun]. split_and!; [done|done|].
  destruct (HasValue r).
  - destruct (Hf1 eq_refl) as (line & Hline & Hf). exists k. rewrite length_app. cbn [length].
    split_and!; [done|lia|lia|]. intros Hk0. destruct (Hfile Hk0) as (lines & Hl & Ho).
    exists (lines ++ [line]). split; [by apply Forall2_app; [|constructor]|].
    rewrite Hf, Ho. cbn. by rewrite unlines_app, !string_app_assoc.
  - exists (k + 1). rewrite length_app. cbn [length]. split_and!; [|lia|lia|lia].
    unfold u64. by rewrite Zplus_mod_idemp_l.
Qed.

(** The queries leave the files alone. *)
Lemma read_margin_files q : preserves (file q) read_margin.
Proof. unfold read_margin, QueryMemoryStatus, memory_failure. frame. Qed.

Lemma tick_decision_files q s now margin focus e :
  preserves (file q) (tick_decision s now margin focus e).
Proof. unfold tick_decision, user_present. frame. Qed.

Lemma PollOnce_files q w b : file q (PollOnce (w, b)).2.2 = file q b.
Proof.
  unfold PollOnce. assert (preserves (file q) EnumerateProcesses) as He by auto with frame.
  specialize (He b). destruct (EnumerateProcesses b) as [[entries|e] b1]; cbn in *; [|done].
  set (titled := existsb _ _).
  assert (∀ es, preserves (file q) (mfold (prefetch_rule es) (rules_ w) ∅)) as Hp.
  { intros es. apply mfold_preserves. intros c rule. unfold prefetch_rule.
    destruct (_ =? 0); [frame|]. apply mfold_preserves. intros c' name.
    apply mfold_preserves. intros c'' entry. unfold prefetch_entry. frame. }
  assert (file q (if titled then mfold (prefetch_rule entries) (rules_ w) ∅ b1
                  else (∅, b1)).2 = file q b1) as Hc by (destruct titled; [apply Hp|done]).
  destruct (if titled then _ else _) as [cache b2]. cbn in Hc. set (ms := MatchRulesToEntries _ _).
  assert (preserves (file q) (mfold (λ acc m, item <-- presence_of (detectWindows w) cache m ;;
                                mret (acc ++ [item])) ms [])) as Hm.
  { apply mfold_preserves. intros acc m. unfold presence_of. frame. }
  specialize (Hm b2). destruct (mfold _ ms [] b2) as [presence b3]. cbn in *. congruence.
Qed.

Definition window_audited (path old : string) (win : window) (b : B) : Prop :=
  audited path old (observed (win_exec win)) (win_audit win) (win_auditFailures win) b.

Lemma audited_files path old evs l n b b' :
  file path b' = file path b → audited path old evs l n b → audited path old evs l n b'.
Proof. unfold audited. by intros ->. Qed.

Lemma note_actions_audited path old w' (win : window) watcher e b win' b' :
  path ≠ "" → observed (win_exec win) `prefix_of` observed w' →
  window_audited path old win b →
  note_actions (win_exec win) w' win watcher e b = (win', b') → window_audited path old win' b'.
Proof.
  intros Hp [evs Hevs] Ha. unfold note_actions, mthen, mret. rewrite Hevs, drop_app_length.
  destruct (audit_events evs _ _ b) as [[l n] b1] eqn:E. intros [= <- <-].
  unfold window_audited. cbn. rewrite Hevs. by eapply audit_events_audited.
Qed.

Lemma policy_round_audited path old s now (win : window) b win' b' :
  path ≠ "" → window_audited path old win b →
  policy_round s now win b = (win', b') → window_audited path old win' b'.
Proof.
  intros Hp Ha. unfold policy_round. unfold mthen.
  destruct (read_margin b) as [margin b1] eqn:E1.
  apply (preserves_run _ _ _ _ _ (read_margin_files path)) in E1.
  pose proof (PollOnce_files path (win_watcher win) b1) as E2.
  destruct (PollOnce (win_watcher win, b1)) as [polled [watcher b2]]. cbn [fst snd] in E2.
  destruct (if HasValue polled then _ else _) as [focus target].
  destruct (tick_decision _ _ _ _ _ b2) as [[d e] b3] eqn:E3.
  apply (preserves_run _ _ _ _ _ (tick_decision_files path _ _ _ _ _)) in E3.
  apply note_actions_audited; [done|apply moved_ApplyDecision|].
  eapply audited_files; [|exact Ha]. congruence.
Qed.

Lemma policy_loop_audited path old fuel s deadline (win : window) b win' b' :
  path ≠ "" → window_audited path old win b →
  policy_loop fuel s deadline win b = (Some win', b') → window_audited path old win' b'.
Proof.
  intros Hp. revert win b. induction fuel as [|fuel IH]; intros win b Ha;
    cbn [policy_loop]; [done|]. unfold mthen, mret.
  assert (∀ w x y u, window_audited path old w x → clock_now x = (u, y) →
                     window_audited path old w y) as Hclock.
  { intros w x y u Hx E. apply (preserves_run _ _ _ _ _ (clock_files path)) in E.
    by eapply audited_files. }
  destruct (clock_now b) as [t b1] eqn:E1. pose proof (Hclock _ _ _ _ Ha E1) as Ha1.
  destruct (_ <=? _); [by intros [= <- <-]|].
  destruct (clock_now b1) as [now b2] eqn:E2. pose proof (Hclock _ _ _ _ Ha1 E2) as Ha2.
  destruct (policy_round s now win b2) as [win1 b3] eqn:E3.
  pose proof (policy_round_audited _ _ _ _ _ _ _ _ Hp Ha2 E3) as Ha3.
  destruct (clock_now b3) as [t' b4] eqn:E4. pose proof (Hclock _ _ _ _ Ha3 E4) as Ha4.
  destruct (t' <? deadline).
  - destruct (sleep_for kSecond b4) as [[] b5] eqn:E5.
    apply (preserves_run _ _ _ _ _ (sleep_files kSecond path)) in E5.
    apply IH. by eapply audited_files.
  - by apply IH.
Qed.
End Audited.

Section Recorded.
Context {P Q B Node : Type} `{!PowerService P} `{!BoostService Q}.
Context `{WindowLaws B} `{SystemMessages} `{!Clock B} `{WideCtype} `{CodePages} `{Folders B}.
Context `{Toml Node} `{!TomlLaws Node} `{TomlFiles B Node}.
Context (locker : P) (booster : PriorityLevel → Q).

(** [--policy] returns: its window is over after at most sixty rounds. *)
Lemma policy_window_ends fuel text path (b : B) :
  (61 <= fuel)%nat → (RunPolicyCommand fuel text path locker booster b).1 ≠ None.
Proof.
  intros Hfuel. unfold RunPolicyCommand.
  destruct (policy_seconds text) as [seconds|] eqn:Et; [|done].
  destruct (policy_settings path b) as [s|]; [|done].
  destruct (SetRules _ _) as [[[]|e] watcher]; [|done].
  destruct (_ && _); [done|]. unfold mthen, mret.
  destruct (clock_now b) as [start b1] eqn:Ec. apply clock_run in Ec.
  assert (seconds <= 60).
  { unfold policy_seconds in Et. destruct (ParseUint32 text) as [n|]; [|done].
    destruct (_ || _) eqn:E; simplify_eq. unfold kMaxPolicySeconds in E. b2p. lia. }
  pose proof (policy_loop_ends fuel s (start + seconds * kSecond)
    (new_window s watcher locker booster b) b1 ltac:(lia)) as Hends.
  destruct (policy_loop _ _ _ _ b1) as [[win0|] b2].
  - by destruct (policy_exit win0 b2).
  - exfalso. apply Hends; [unfold kSecond; nia|done].
Qed.

(** C7. Nothing is done off the record. The calls that the two services got in the
    window, as the services have them themselves, are for each service, in their
    order, the actions the executor tells: every call is told with its kind, its
    power request or its process and its outcome, and nothing is told that was
    not called. And unless the command says that records failed, the audit file
    has grown by one line for every action told, in the order of the actions and
    with their outcomes, and by nothing else. *)
Theorem policy_on_record fuel text path (b : B) code win b' :
  RunPolicyCommand fuel text path (locker, []) (λ level, (booster level, [])) b =
    (Some (MkPolicyOutcome code (Some win)), b') →
  let w := win_exec win in
  len (observed w) < 2 ^ 64 →
  Forall2 tells (power w).2 (List.filter about_power (observed w)) ∧
  Forall2 tells (priority w).2 (List.filter (λ e, negb (about_power e)) (observed w)) ∧
  (win_auditFailures win = 0 →
   ∃ lines, Forall2 recorded (observed w) lines ∧
     default "" (file (DefaultAuditLogPath b) b') =
       default "" (file (DefaultAuditLogPath b) b) +:+ unlines lines).
Proof.
  intros [-> (s & [Es (seconds & watcher & b1 & start & b2 & win0 & _ & _ & Ec & El & Ee)])]
    %RunPolicyCommand_window. cbn zeta. intros Hlen.
  pose proof (policy_loop_rounds reporting _ _ _ _ _ _ _ reporting_ApplyDecision El) as Hl.
  assert (reporting (win_exec (new_window s watcher (locker, []) (λ level, (booster level, [])) b))
            (win_exec win)) as [_ Hr].
  { etrans; [exact Hl|]. pose proof (policy_exit_exec win0 b2) as E. rewrite Ee in E. cbn in E. rewrite E.
    apply reporting_ExecutorReleaseAll. }
  destruct Hr as [Hpower Hpriority]; [done|by split; constructor|].
  split; [done|]. split; [done|]. intros Hf.
  set (p := DefaultAuditLogPath b) in *. set (old := default "" (file p b)).
  assert (p ≠ "") as Hp.
  { subst p. unfold DefaultAuditLogPath, data_file. apply path_append_not_empty. done. }
  apply (preserves_run _ _ _ _ _ (clock_files p)) in Ec.
  apply (policy_loop_audited p old) in El; [|done|].
  - unfold policy_exit in Ee. apply (note_actions_audited p old) in Ee;
      [|done|apply moved_ExecutorReleaseAll|done].
    destruct Ee as (_ & _ & n & Hn & Hb & Hfile). apply Hfile. rewrite Hf in Hn.
    rewrite u64_small in Hn; [done|]. unfold is_u64. lia.
  - split_and!; [done|done|]. exists 0. split_and!; [done|done|cbn; lia|]. intros _.
    exists []. split; [constructor|]. cbn. rewrite Ec, string_app_nil_r. done.
Qed.
End Recorded.

(** ** An example machine *)

(** Files, documents, processes and a clock; every query takes a millisecond. *)
Record Desk := MkDesk {
  desk_now : Z;
  desk_fs : MemFs;
  desk_docs : list (string * list (string * tree));
  desk_processes : list ProcessEntry
}.

Definition passes (d : Z) (k : Desk) : Desk :=
  MkDesk (desk_now k + Z.max 0 d + 1000000) (desk_fs k) (desk_docs k) (desk_processes k).
Definition answers {A} (f : Desk → A) : M Desk A := λ k, (f k, passes 0 k).
Definition with_fs (fs : MemFs) (k : Desk) : Desk :=
  MkDesk (desk_now k) fs (desk_docs k) (desk_processes k).

Definition desk_doc (p : string) (k : Desk) : option (list (string * tree)) :=
  snd <$> List.find (λ d, String.eqb d.1 p) (desk_docs k).

#[local] Instance desk_files : FileSystem Desk := lifted_fs desk_fs with_fs.
#[local] Instance desk_files_laws : FileSystemLaws Desk :=
  lifted_fs_laws desk_fs with_fs (λ _ _, eq_refl).

#[local] Instance desk_clock : Clock Desk := {|
  localtime _ := Some (MkTm 125 0 31 23 59 58); steady_clock k := desk_now k
|}.
#[local] Instance desk_steady : SteadyClock Desk := answers desk_now.
#[local] Instance desk_sleep : Sleeping Desk := λ d k, (tt, passes d k).
#[local] Instance desk_time : TimeLaws Desk.
Proof.
  refine {| time := desk_now |}.
  - intros k. cbn. lia.
  - intros d k. cbn. lia.
Defined.

#[local] Instance desk_memory : MemoryApi Desk := {|
  OpenProcess _ _ := mret None; CloseHandle _ := mret tt; GetProcessMemoryInfo _ := mret None;
  EmptyWorkingSet _ := mret false; OpenProcessToken _ := mret None;
  LookupPrivilegeValueW _ := mret None; TokenPrivilegesSize _ := mret 0;
  new_nothrow _ := mret false; TokenPrivileges _ _ := mret None;
  AdjustTokenPrivileges _ _ := mret false; NtSetSystemInformation _ _ := mret 0;
  NtQuerySystemInformation _ := mret (0, [], 0); SetSystemFileCacheSize _ _ _ := mret false;
  GetPerformanceInfo := mret None; GetSystemPageSize := mret 4096;
  GlobalMemoryStatusEx := answers (λ _, Some (16000, 8000, 50));
  memory_error _ := 0
|}.
#[local] Instance desk_input : LastInputBackend Desk :=
  answers (λ _, Success (MkInputSample 100 50)).
#[local] Instance desk_system : ProcessSystem Desk := {
  EnumerateProcesses := answers (λ k, Success (desk_processes k));
  QueryProcessCreationTime p := answers (λ _, 1000 + p);
  QueryWindowInfo _ := answers (λ _, Success (MkWindow [71] true true false))
}.
#[local] Instance desk_documents : TomlFiles Desk tree := λ p k,
  match desk_doc p k with Some t => inl t | None => inr "missing" end.
#[local] Instance desk_folders : Folders Desk := {|
  GetEnvironmentVariableW _ _ := (1, "C"); temp_directory_path _ := "T"
|}.
#[local] Existing Instance plain_ctype.
#[local] Instance desk_pages : CodePages := {|
  MultiByteToWideChar t := inl (widen t); WideCharToMultiByte _ := inr 5
|}.
#[local] Instance desk_messages : SystemMessages := no_messages.

#[local] Instance desk_laws : WindowLaws Desk.
Proof. split; intros; intros k; cbn; try lia; try done; by destruct (refuses _ _). Qed.

(** [permissive] allows everything that [--policy] can do. *)
Definition permissive : list (string * tree) :=
  [("application", TTable [("mode", TString "balanced")]);
   ("layers", TTable [("maintenance", TBool true)]);
   ("priority", TTable [("enabled", TBool true)]);
   ("power", TTable [("execution_required", TBool true)]);
   ("games", TArray [TTable [("id", TString "g"); ("process_names", TArray [TString "g.e"])]])].

(** A game runs as process 10, in the foreground. *)
Definition desk (docs : list (string * list (string * tree))) : Desk :=
  MkDesk 0 (MkMemFs (list_to_map (map (λ d, (d.1, "")) docs)) []) docs
    [MkEntry 10 [103; 46; 101] [] false].

Definition desk_locker : PowerLocker * FakePower := (NewPowerLocker true, fake_backend []).
Definition desk_booster (l : PriorityLevel) : PriorityBooster * FakeProcesses :=
  (MkBooster l [], two_processes).

Definition desk_run (configPath : option string) (docs : list (string * list (string * tree))) :=
  RunPolicyCommand 61 [50] configPath desk_locker desk_booster (desk docs).

Lemma desk_services : fresh_services desk_locker desk_booster.
Proof.
  split; [apply locker_inv_new; reflexivity|]. split; [by intros []|]. intros l. split; [|done].
  exact new_booster_inv.
Qed.

Example policy_gives_back_witness :
  match (desk_run (Some "c") [("c", permissive)]).1 with
  | Some (MkPolicyOutcome code (Some win)) =>
      code = 0 ∧ len (observed (win_exec win)) = 4 ∧
      ∀ t, power_count t (power (win_exec win)) = 0%nat
  | _ => False
  end.
Proof.
  assert (match (desk_run (Some "c") [("c", permissive)]).1 with
          | Some (MkPolicyOutcome _ (Some win)) =>
              len (observed (win_exec win)) = 4 ∧ forallb ev_ok (observed (win_exec win)) = true
          | _ => False
          end) as Hrun by (vm_compute; done).
  destruct (desk_run _ _) as [[[code [win|]]|] k] eqn:E; [|destruct Hrun..].
  destruct (policy_gives_back desk_locker desk_booster _ _ _ _ _ _ _ desk_services E)
    as (Hcode & _ & _ & _ & before & leaving & Heq & _ & Hback).
  destruct Hrun as [Hlen Hok]. split; [exact Hcode|]. split; [exact Hlen|]. apply Hback.
  rewrite Heq, forallb_app in Hok. exact (proj2 (andb_prop _ _ Hok)).
Defined.

Example policy_needs_permission_witness :
  match (desk_run None [("config.local.toml", permissive)]).1 with
  | Some (MkPolicyOutcome _ (Some win)) => observed (win_exec win) = []
  | _ => False
  end.
Proof.
  assert (match (desk_run None [("config.local.toml", permissive)]).1 with
          | Some (MkPolicyOutcome _ (Some win)) => True
          | _ => False
          end) as Hrun by (vm_compute; done).
  destruct (desk_run _ _) as [[[code [win|]]|] k] eqn:E; [|destruct Hrun..].
  destruct (policy_needs_permission desk_locker desk_booster _ _ _ _ _ _ _ E)
    as (_ & _ & [Ho|(main & c & Hm & _)]); [exact Ho|discriminate].
Defined.

Example policy_window_ends_witness :
  (desk_run (Some "c") [("c", permissive)]).1 ≠ None.
Proof. apply (policy_window_ends desk_locker desk_booster 61 [50] (Some "c")). lia. Defined.

(** The same window on services that keep their calls. *)
Definition logged_run :=
  RunPolicyCommand 61 [50] (Some "c") (desk_locker, []) (λ level, (desk_booster level, []))
    (desk [("c", permissive)]).

Example policy_on_record_witness :
  match logged_run with
  | (Some (MkPolicyOutcome _ (Some win)), k) =>
      length (power (win_exec win)).2 = 2%nat ∧ length (priority (win_exec win)).2 = 2%nat ∧
      Forall2 tells (power (win_exec win)).2 (List.filter about_power (observed (win_exec win))) ∧
      ∃ lines, length lines = 4%nat ∧
        default "" (file (DefaultAuditLogPath (desk [])) k) = unlines lines
  | _ => False
  end.
Proof.
  assert (match logged_run.1 with
          | Some (MkPolicyOutcome _ (Some win)) =>
              length (power (win_exec win)).2 = 2%nat ∧ length (priority (win_exec win)).2 = 2%nat ∧
              length (observed (win_exec win)) = 4%nat ∧ win_auditFailures win = 0
          | _ => False
          end) as Hrun by (vm_compute; done).
  destruct logged_run as [[[code [win|]]|] k] eqn:E; [|destruct Hrun..].
  destruct Hrun as (Hp & Hq & Hlen & Hf).
  destruct (policy_on_record desk_locker desk_booster _ _ _ _ _ _ _ E) as (Hpower & _ & Hfile);
    [rewrite Hlen; reflexivity|]. destruct (Hfile Hf) as (lines & Hl & Hgrown).
  split; [exact Hp|]. split; [exact Hq|]. split; [exact Hpower|].
  exists lines. split; [|exact Hgrown]. clear E. apply Forall2_length in Hl. congruence.
Defined.

(** *** A decision outlives its game *)

(** A game that runs in the background and pauses there is not to be boosted,
    and the rules say so; but if the decision to boost the game before it is
    still cooling down, the suppressed decision is carried out on the new one:
    the executor takes its game from the target and not from the decision. *)
Lemma stale_decision_boosts_other :
  let of_a := MkInput ResourcePressure.Comfortable (MkFocus "game" true true true) true in
  let of_b := MkInput ResourcePressure.Comfortable (MkFocus "other" true false true) true in
  let e := (Evaluate of_a 0 (NewPolicyEvaluator default_thresholds 5000)).2 in
  let '(v, _) := Evaluate of_b kSecond e in
  let w1 := (ApplyDecision (decision (Evaluate of_a 0 (NewPolicyEvaluator default_thresholds 5000)).1)
               (game_target true) (sample_world [])).2 in
  let w2 := (ApplyDecision (decision v) (MkTarget "other" 20 1020 true) w1).2 in
  action (EvaluatePolicy of_b) = PolicyAction.NoOp ∧ suppressed v = true ∧
  dec_gameId (decision v) = "game" ∧
  boosted "other" (priority w2) = Some (20, 1%nat).
Proof. vm_compute. done. Qed.
