(* ===== verification/HostTick.v ===== *)
(** The workload of the service host ([ServiceWorkloadTick] of [source/main.cpp]):
    what it does once a second. It takes a memory snapshot, notes whether somebody
    is at the machine, and, if it takes in agents, serves one client of the pipe
    unless Safe Mode keeps clients out; credentials that are refused count
    towards Safe Mode. *)

From S2P Require Import Prelude Timing CommonError Containers Paths AuditLine AuditLog.
From S2P Require Import IpcProtocol IpcFacts IpcSession ServiceHost Presence.
From S2P Require Import UserActivity RawInput Memory Actions.

Import ServiceHost.SafeMode.

Open Scope string_scope.
Open Scope list_scope.
Open Scope Z_scope.

(** ** State *)

(** What the last snapshot of facts said; empty after one that does not parse. *)
Record LastFacts := MkLastFacts {
  ipcLastFactSummary : string;
  ipcLastFactCount : Z;
  ipcLastUserIdleSeconds : option Z;
  ipcLastForegroundPid : option Z
}.

Definition no_facts : LastFacts := MkLastFacts "" 0 None None.

(** The members for the intake of agents, which are set together. The session
    is given by its options; [in_last] is what the last client was served, of
    which the code keeps the identity, the size and whether it was acknowledged.
    The last two members are for the theorems: when rejections were counted, and
    how many replies that refused a credential were delivered. *)
Record Intake := MkIntake {
  in_session : SessionOptions;
  in_guard : SafeModeGuard;
  in_authRejected : bool;
  in_safeModeEntries : Z;
  in_rejectedClients : Z;
  in_clientsServed : Z;
  in_last : option IpcServeResult;
  in_facts : LastFacts;
  refusals : list Z;
  wrongGuesses : nat
}.

Definition NewIntake (o : SessionOptions) (g : SafeModeGuard) : Intake :=
  MkIntake o g false 0 0 0 None no_facts [] 0.

Definition set_gate (g : SafeModeGuard) (rejected : bool) (i : Intake) : Intake :=
  MkIntake (in_session i) g rejected (in_safeModeEntries i) (in_rejectedClients i)
    (in_clientsServed i) (in_last i) (in_facts i) (refusals i) (wrongGuesses i).

(** The host: [ipc] is there when agents are taken in, [hs_rawInput] when the
    window of the tray is watched for input. *)
Record HostState := MkHostState {
  tickCount : Z;
  ipc : option Intake;
  ipcPresence : option HostPresenceTracker;
  hs_rawInput : bool;
  rawInputAttached : bool;
  presenceTransitions : Z
}.

Definition set_ipc (i : option Intake) (h : HostState) : HostState :=
  MkHostState (tickCount h) i (ipcPresence h) (hs_rawInput h) (rawInputAttached h)
    (presenceTransitions h).
Definition set_presence (p : HostPresenceTracker) (transitions : Z) (h : HostState) : HostState :=
  MkHostState (tickCount h) (ipc h) (Some p) (hs_rawInput h) (rawInputAttached h) transitions.

(** The source of raw input, which the thread of the tray writes. *)
Class TrayInput (B : Type) := {
  raw_input : B → RawInputEventSource;
  put_raw_input : RawInputEventSource → B → B
}.

(** [stopRequested_], which other threads set, and waiting for it with a time
    limit in milliseconds. *)
Class StopSignal (B : Type) := {
  stop_requested : B → bool;
  wait_stop : Z → M B unit
}.

(** [Options::tickInterval] *)
Definition kTickIntervalMs : Z := 1000.

(** ** Operations *)

Section Tick.
Context {B : Type} `{SystemMessages} `{WideLibrary}.
Context `{SteadyClock B} `{Clock B} `{Folders B} `{FileSystem B}.
Context `{IpcServerBackend B} `{MemoryApi B} `{LastInputBackend B} `{TrayInput B}.
Context `{StopSignal B}.

(** *** Presence *)

(** The callback of the tracker: counted, and written to the timeline as far as
    possible. *)
Fixpoint note_changes (evs : list (PresenceState * PresenceState)) (n : Z) : M B Z :=
  match evs with
  | [] => mret n
  | (from, to) :: rest => λ b,
      (AppendPresenceTransitionLine (DefaultPresenceTimelinePath b) from to
         (LocalTimestampAscii (localtime b)) ;;;
       note_changes rest (u64 (n + 1))) b
  end.

(** [ipcPresence->Summary()], when there is a tracker. *)
Definition advance_presence (h : HostState) : M B HostState :=
  match ipcPresence h with
  | None => mret h
  | Some p =>
      now <-- clock_now ;;
      let p' := (PresenceSummary now p).2 in
      n <-- note_changes (drop (length (changes p)) (changes p')) (presenceTransitions h) ;;
      mret (set_presence p' n h)
  end.

Definition record_presence (k : string) (idle : option Z) (h : HostState) : M B HostState :=
  match ipcPresence h with
  | None => mret h
  | Some p =>
      now1 <-- clock_now ;;
      now2 <-- clock_now ;;
      mret (set_presence (RecordPresence k idle now1 now2 p).2 (presenceTransitions h) h)
  end.

(** Input at the machine itself: the window's if it has seen any, otherwise the
    system's, otherwise unknown. *)
Definition host_idle (h : HostState) : M B (option Z) :=
  event <-- (if rawInputAttached h then λ b, IdleDuration (raw_input b) b else mret None) ;;
  match event with
  | Some ms => mret (Some (u32 (Z.quot ms 1000)))
  | None =>
      sample <-- QueryInput ;;
      mret (match sample with
            | Success s =>
                Some (u32 (Z.quot (IdleMilliseconds (nowTick s) (lastInputTick s)) 1000))
            | Failure _ => None
            end)
  end.

Definition record_host_input (h : HostState) : M B HostState :=
  if hs_rawInput h then
    match ipcPresence h with
    | Some _ => idle <-- host_idle h ;; record_presence "host" idle h
    | None => mret h
    end
  else mret h.

(** *** Serving a client *)

(** What the handler of the session notes beside answering. *)
Definition note_facts (request : IpcRequest) (f : LastFacts) : LastFacts :=
  match req_type request with
  | IpcMessageType.FactsSnapshot =>
      match ParseFactsV1 (req_payload request) with
      | Success facts =>
          MkLastFacts (FormatFactsSummary facts) (len facts)
            (NumericFactValue facts "user_idle_seconds")
            (NumericFactValue facts "foreground_pid")
      | Failure _ => no_facts
      end
  | _ => f
  end.

Definition note_handled (i : Intake) (e : IpcClientIdentity * IpcRequest * Result IpcReply) :
    Intake :=
  MkIntake (in_session i) (in_guard i) (in_authRejected i) (in_safeModeEntries i)
    (in_rejectedClients i) (in_clientsServed i) (in_last i) (note_facts e.1.2 (in_facts i))
    (refusals i) (wrongGuesses i).

(** The observer of verdicts. *)
Definition note_verdict (v : IpcClientVerdict) (i : Intake) : M B Intake :=
  now <-- clock_now ;;
  let '(before, g0) := State now (in_guard i) in
  match v with
  | IpcClientVerdict.Accepted => mret (set_gate g0 (in_authRejected i) i)
  | _ =>
      now1 <-- clock_now ;;
      now2 <-- clock_now ;;
      now3 <-- clock_now ;;
      now4 <-- clock_now ;;
      now5 <-- clock_now ;;
      let '(after, g) := State now5 (OnClientRejected now1 now2 now3 now4 g0) in
      let entered := match before, after with Normal, InSafeMode => true | _, _ => false end in
      mret (MkIntake (in_session i) g true
              (if entered then u64 (in_safeModeEntries i + 1) else in_safeModeEntries i)
              (u64 (in_rejectedClients i + 1)) (in_clientsServed i) (in_last i) (in_facts i)
              (refusals i ++ [now2]) (wrongGuesses i))
  end.

Fixpoint note_verdicts (vs : list IpcClientVerdict) (i : Intake) : M B Intake :=
  match vs with
  | [] => mret i
  | v :: rest => i' <-- note_verdict v i ;; note_verdicts rest i'
  end.

Definition kAcceptTimeoutMs : Z := 900.

Definition refuses_credential (e : IpcClientIdentity * IpcRequest * Result IpcReply) : bool :=
  match e.2 with Success p => auth_failed_reply p | Failure _ => false end.

Definition note_guesses (n : nat) (i : Intake) : Intake :=
  MkIntake (in_session i) (in_guard i) (in_authRejected i) (in_safeModeEntries i)
    (in_rejectedClients i) (in_clientsServed i) (in_last i) (in_facts i) (refusals i)
    (wrongGuesses i + n).

(** One client with one frame; the handler is the default one. The model hears
    of requests and verdicts when the session is over. *)
Definition serve_client (i : Intake) : M B (option (Result IpcServeResult) * Intake) := λ b,
  let handler : Handler B := λ req, mret (DefaultHandler req (expectedToken (in_session i))) in
  let '(r, (b1, l)) := ServeOne 1 (in_session i) (Some handler) kAcceptTimeoutMs
                         (b, MkLog [] []) in
  let delivered := match r with
                   | Some (Success _) => length (List.filter refuses_credential (handled l))
                   | _ => O
                   end in
  (i' <-- note_verdicts (verdicts l)
            (note_guesses delivered (foldl note_handled i (handled l))) ;;
   mret (r, i')) b1.

(** The key of a client in the presence ledger. *)
Definition client_key_of (r : IpcServeResult) : string :=
  to_string (res_clientPid r) +:+ ":" +:+ to_string (res_clientSessionId r).

Definition note_served (r : IpcServeResult) (i : Intake) : Intake :=
  MkIntake (in_session i) (in_guard i) (in_authRejected i) (in_safeModeEntries i)
    (in_rejectedClients i) (u64 (in_clientsServed i + 1)) (Some r) (in_facts i) (refusals i)
    (wrongGuesses i).

(** The intake of a tick whose guard lets clients in. *)
Definition take_client (i : Intake) (h : HostState) : M B (Result unit * HostState) :=
  out <-- serve_client i ;;
  let '(served, i') := out in
  match served with
  | None => mret (Success tt, set_ipc (Some i') h)
  | Some (Failure e) =>
      if is_win32 e ERROR_TIMEOUT then mret (Success tt, set_ipc (Some i') h)
      else if in_authRejected i' then
        mret (Success tt, set_ipc (Some (set_gate (in_guard i') false i')) h)
      else mret (Failure e, set_ipc (Some i') h)
  | Some (Success r) =>
      let h1 := set_ipc (Some (note_served r i')) h in
      h2 <-- (if 0 <? ipcLastFactCount (in_facts i')
              then record_presence (client_key_of r) (ipcLastUserIdleSeconds (in_facts i')) h1
              else mret h1) ;;
      h3 <-- advance_presence h2 ;;
      mret (Success tt, h3)
  end.

(** *** The tick *)

Definition query_disabled : Error :=
  Unsupported "ServiceWorkloadTick" "内存查询已被配置关闭（[memory].query_enabled = false）".

Definition ServiceWorkloadTick (memoryQueryEnabled : bool) (h : HostState) :
    M B (Result unit * HostState) :=
  if negb memoryQueryEnabled then mret (Failure query_disabled, h)
  else
    status <-- QueryMemoryStatus steady_clock ;;
    match status with
    | Failure e => mret (Failure e, h)
    | Success _ =>
        h1 <-- record_host_input
                 (MkHostState (u64 (tickCount h + 1)) (ipc h) (ipcPresence h) (hs_rawInput h)
                    (rawInputAttached h) (presenceTransitions h)) ;;
        match ipc h1 with
        | None => h2 <-- advance_presence h1 ;; mret (Success tt, h2)
        | Some i =>
            now <-- clock_now ;;
            let '(open, g) := ShouldAcceptClients now (in_guard i) in
            let i1 := set_gate g false i in
            if open : bool then take_client i1 h1
            else h2 <-- advance_presence (set_ipc (Some i1) h1) ;; mret (Success tt, h2)
        end
    end.

(** [RunLoop] of the service host on this workload: until somebody asks it to
    stop, the deadline is past or a tick fails; [None] is a loop that is still
    running. *)
Fixpoint host_loop (fuel : nat) (deadline : option Z) (h : HostState) :
    M B (option (Result unit) * HostState) := λ b,
  match fuel with
  | O => ((None, h), b)
  | Datatypes.S fuel' =>
      if stop_requested b then ((Some (Success tt), h), b)
      else
        (over <-- (match deadline with
                   | Some d => now <-- clock_now ;; mret (d <=? now)
                   | None => mret false
                   end) ;;
         if over : bool then mret (Some (Success tt), h)
         else
           out <-- ServiceWorkloadTick true h ;;
           match out.1 with
           | Failure e => mret (Some (Failure e), out.2)
           | Success _ => wait_stop kTickIntervalMs ;;; host_loop fuel' deadline out.2
           end) b
  end.
End Tick.

(** ** The pace of refused credentials *)

(** Any entry comes at least [d] after the [n]th entry before it. *)
Definition paced (d : Z) (n : nat) (times : list Z) : Prop :=
  ∀ i a b, times !! i = Some a → times !! (i + n)%nat = Some b → a + d <= b.

Lemma paced_step d n times t0 t1 m b :
  paced d n times → Forall (λ t, t0 <= t <= t1) times →
  times !! (n * m)%nat = Some b → t0 + Z.of_nat m * d <= b.
Proof.
  intros Hp Ht. revert b. induction m as [|m IH]; intros b Hb.
  - eapply Forall_lookup_1 in Ht; [|exact Hb]. lia.
  - destruct (times !! (n * m)%nat) as [a|] eqn:Ha.
    + specialize (IH a eq_refl). pose proof (Hp (n * m)%nat a b Ha) as Hab.
      rewrite Nat.mul_succ_r in Hb. specialize (Hab Hb). lia.
    + apply lookup_ge_None in Ha. apply lookup_lt_Some in Hb. lia.
Qed.

Lemma paced_length d n times t0 t1 :
  0 < d → (0 < n)%nat → t0 <= t1 → paced d n times → Forall (λ t, t0 <= t <= t1) times →
  len times <= Z.of_nat n * ((t1 - t0) / d + 1).
Proof.
  intros Hd Hn H01 Hp Ht. apply Z.le_ngt. intros Hlong.
  assert (0 <= (t1 - t0) / d) as Hq by (apply Z.div_pos; lia).
  set (m := Z.to_nat ((t1 - t0) / d + 1)).
  assert (n * m < length times)%nat as Hlt by (subst m; nia).
  apply lookup_lt_is_Some in Hlt as [b Hb].
  pose proof (paced_step d n times t0 t1 m b Hp Ht Hb) as Hs.
  eapply Forall_lookup_1 in Ht; [|exact Hb]. subst m. rewrite Z2Nat.id in Hs by lia.
  pose proof (Z.mul_succ_div_gt (t1 - t0) d Hd). nia.
Qed.

Lemma paced_extend d n times t :
  paced d n times →
  (∀ i a, times !! i = Some a → (i + n)%nat = length times → a + d <= t) →
  (0 < n)%nat → paced d n (times ++ [t]).
Proof.
  intros Hp Hnew Hn i a b Ha Hb. apply lookup_snoc_Some in Hb as [[Hlt Hb]|[Heq ->]].
  - rewrite lookup_app_l in Ha by lia. by eapply Hp.
  - rewrite lookup_app_l in Ha by lia. by eapply Hnew.
Qed.

(** The shorter of the guard's two spans. *)
Definition guard_span (g : SafeModeGuard) : Z :=
  Z.min (ns (countingWindow g)) (ns (guard_cooldown g)).

(** The guard [g] against all rejections [times] it has ever counted: those it
    has forgotten are a span ago; those it remembers are fewer than the
    threshold, or Safe Mode is on and lasts until a span after them. *)
Definition guard_keeps (g : SafeModeGuard) (times : list Z) (now : Z) : Prop :=
  enabled g = true ∧ (0 < failuresToEnter g)%nat ∧
  paced (guard_span g) (failuresToEnter g) times ∧ Forall (λ t, t <= now) times ∧
  if safeMode g then Forall (λ t, t + guard_span g <= cooldownUntil g) times
  else ∃ old, times = old ++ failureTimes g ∧
              (length (failureTimes g) < failuresToEnter g)%nat ∧
              Forall (λ t, t + guard_span g <= now) old.

Lemma drop_expired_split cutoff l :
  ∃ old, l = old ++ drop_expired cutoff l ∧ Forall (λ t, t <= cutoff) old.
Proof.
  induction l as [|t l (old & Hl & Ho)]; [by exists []|]. cbn.
  destruct (Z.leb_spec t cutoff); [|by exists []].
  exists (t :: old). cbn. rewrite <- Hl. split; [done|]. by constructor.
Qed.

Lemma guard_keeps_later g times now t :
  guard_keeps g times now → now <= t → guard_keeps g times t.
Proof.
  intros (H1 & H2 & H3 & H4 & H5) Ht. split_and!; [done..| |].
  - eapply Forall_impl; [exact H4|]. cbn. lia.
  - destruct (safeMode g); [done|]. destruct H5 as (old & ? & ? & Ho).
    exists old. split_and!; [done..|]. eapply Forall_impl; [exact Ho|]. cbn. lia.
Qed.

(** Pruning forgets what is out of the window. *)
Lemma prune_keeps g times now :
  guard_keeps g times now → safeMode g = false →
  guard_keeps (PruneExpired now g) times now.
Proof.
  intros (H1 & H2 & H3 & H4 & H5) Hs. rewrite Hs in H5.
  destruct H5 as (old & Hold & Hlen & Ho).
  destruct (drop_expired_split (now - ns (countingWindow g)) (failureTimes g))
    as (dropped & Hd & Hdo).
  unfold guard_keeps, PruneExpired. cbn [enabled failuresToEnter safeMode failureTimes set_guard].
  rewrite Hs. split_and!; [done..|]. exists (old ++ dropped).
  rewrite <- app_assoc, <- Hd. split_and!; [done| |].
  - pose proof (drop_expired_length (now - ns (countingWindow g)) (failureTimes g)). lia.
  - apply Forall_app. split; [done|]. eapply Forall_impl; [exact Hdo|].
    unfold guard_span. cbn. lia.
Qed.

Lemma refresh_keeps g times now :
  guard_keeps g times now → guard_keeps (Refresh now g) times now.
Proof.
  intros Hk. unfold Refresh. destruct (anomalyLatched g); [done|].
  destruct (safeMode g) eqn:Hs; [|by apply prune_keeps].
  destruct (Z.leb_spec (cooldownUntil g) now); [|done].
  destruct Hk as (H1 & H2 & H3 & H4 & H5). rewrite Hs in H5.
  unfold guard_keeps. cbn [enabled failuresToEnter safeMode failureTimes set_guard].
  split_and!; [done..|]. exists times. cbn [length]. rewrite app_nil_r.
  split_and!; [done|lia|]. eapply Forall_impl; [exact H5|]. unfold guard_span. cbn. lia.
Qed.

(** A guard that lets clients in counts the rejection. *)
Lemma reject_keeps g times now t1 t2 t3 t4 :
  guard_keeps g times now → safeMode g = false → anomalyLatched g = false →
  now <= t1 <= t2 → t2 <= t3 <= t4 →
  guard_keeps (OnClientRejected t1 t2 t3 t4 g) (times ++ [t2]) t4.
Proof.
  intros Hk Hs Hl Ht12 Ht34. unfold OnClientRejected.
  rewrite (proj1 Hk). cbn [negb].
  apply (guard_keeps_later _ _ _ t1) in Hk; [|lia]. apply refresh_keeps in Hk.
  assert (safeMode (Refresh t1 g) = false ∧ anomalyLatched (Refresh t1 g) = false) as [Hs1 Hl1].
  { unfold Refresh. by rewrite Hl, Hs. }
  set (g1 := Refresh t1 g) in *. rewrite Hs1, Hl1. cbn [orb].
  destruct Hk as (H1 & H2 & H3 & H4 & H5). rewrite Hs1 in H5.
  destruct H5 as (old & Hold & Hlen & Ho).
  assert (paced (guard_span g1) (failuresToEnter g1) (times ++ [t2])) as Hp.
  { apply paced_extend; [done| |done]. intros i a Ha Hi. rewrite Hold in Ha.
    rewrite Hold, length_app in Hi. rewrite lookup_app_l in Ha by lia.
    eapply Forall_lookup_1 in Ho; [|exact Ha]. cbn in Ho. lia. }
  assert (Forall (λ t, t <= t4) (times ++ [t2])) as Hle.
  { apply Forall_app. split; [|constructor; [lia|done]].
    eapply Forall_impl; [exact H4|]. cbn. lia. }
  destruct (drop_expired_split (t3 - ns (countingWindow g1)) (failureTimes g1 ++ [t2]))
    as (dropped & Hd & Hdo).
  unfold PruneExpired.
  cbn [failuresToEnter failureTimes set_guard countingWindow safeMode anomalyLatched cooldownUntil].
  rewrite ?Hs1, ?Hl1.
  destruct (Nat.leb_spec (failuresToEnter g1)
    (length (drop_expired (t3 - ns (countingWindow g1)) (failureTimes g1 ++ [t2]))));
    unfold guard_keeps;
    cbn [enabled failuresToEnter safeMode failureTimes set_guard cooldownUntil];
    (split_and!; [done..|]).
  - rewrite Hold, <- app_assoc in Hle. rewrite Hold, <- app_assoc.
    eapply Forall_impl; [exact Hle|]. cbn. unfold guard_span. cbn. intros t Ht.
    pose proof (Z.le_min_r (ns (countingWindow g1)) (ns (guard_cooldown g1))). lia.
  - exists (old ++ dropped). rewrite <- app_assoc, <- Hd, app_assoc, <- Hold.
    split_and!; [done|done|]. apply Forall_app. split.
    + eapply Forall_impl; [exact Ho|]. unfold guard_span. cbn. lia.
    + eapply Forall_impl; [exact Hdo|]. unfold guard_span. cbn. lia.
Qed.

(** The options, which nothing changes. *)
Definition guard_options (g : SafeModeGuard) : nat * Z * Z * bool :=
  (failuresToEnter g, countingWindow g, guard_cooldown g, enabled g).

Lemma Refresh_options t g : guard_options (Refresh t g) = guard_options g.
Proof.
  unfold Refresh. destruct (anomalyLatched g); [done|]. destruct (safeMode g); [|done].
  by destruct (_ <=? _).
Qed.

Lemma OnClientRejected_options t1 t2 t3 t4 g :
  guard_options (OnClientRejected t1 t2 t3 t4 g) = guard_options g.
Proof.
  unfold OnClientRejected. destruct (negb _); [done|]. rewrite <- (Refresh_options t1 g).
  destruct (_ || _); [done|]. by destruct (_ <=? _)%nat.
Qed.

(** ** The tick *)

(** Nothing a tick calls turns the clock back; only accepting lets a client in.
    Waiting ends when the time is over or a stop is requested. *)
Class HostLaws (B : Type) `{TimeLaws B} `{FileSystem B} `{IpcServerBackend B} `{MemoryApi B}
    `{LastInputBackend B} `{StopSignal B} := {
  clients : B → nat;
  listen_time : advances CreateAndListen;
  accept_time t : advances (AcceptClient t);
  read_time n t : advances (ReadAll n t);
  write_time bs t : advances (WriteAll bs t);
  disconnect_time : advances DisconnectClient;
  close_time : advances CloseServer;
  steady_time : advances steady_now;
  status_time : advances GlobalMemoryStatusEx;
  idle_time : advances QueryInput;
  folder_time p : advances (create_directories p);
  line_time p t : advances (append_text p t);
  wait_time d : advances (wait_stop d);
  wait_long d b : time b + ns d <= time (wait_stop d b).2 ∨
                  stop_requested (wait_stop d b).2 = true;
  wait_clients d : preserves clients (wait_stop d);
  clock_clients : preserves clients clock_now;
  status_clients : preserves clients GlobalMemoryStatusEx;
  idle_clients : preserves clients QueryInput;
  folder_clients p : preserves clients (create_directories p);
  line_clients p t : preserves clients (append_text p t)
}.
#[export] Hint Extern 1 (advances _) =>
  first [apply listen_time | apply accept_time | apply read_time | apply write_time
        | apply disconnect_time | apply close_time | apply steady_time | apply status_time
        | apply idle_time | apply folder_time | apply line_time | apply wait_time] : advance.
#[export] Hint Extern 1 (preserves _ _) =>
  first [apply clock_clients | apply status_clients | apply idle_clients
        | apply folder_clients | apply line_clients | apply wait_clients] : frame.

Section TickTime.
Context {B : Type} `{HostLaws B} `{SystemMessages} `{WideLibrary} `{!Clock B} `{!Folders B}.
Context `{!TrayInput B}.

(** The clock seen from inside a session. *)
#[local] Instance session_clock : SteadyClock (B * Log) := io clock_now.
#[local] Instance session_sleep : Sleeping (B * Log) := λ d, io (sleep_for d).
#[local] Instance session_time : TimeLaws (B * Log).
Proof.
  refine {| time := λ s, time s.1 |}.
  - intros [b l]. cbn. pose proof (clock_time b). by destruct (clock_now b).
  - intros d [b l]. cbn. pose proof (sleep_time d b). by destruct (sleep_for d b).
Defined.

Lemma io_advances {A} (m : M B A) : advances m → advances (io m).
Proof. intros Hm [b l]. specialize (Hm b). cbn. by destruct (m b). Qed.
#[local] Hint Resolve io_advances : advance.

Lemma abandon_advances {A} o e : advances (abandon (A := A) o e).
Proof. unfold abandon, closeUnlessPersistent. advance. Qed.

Lemma emit_advances v : advances (emitVerdict (S := B) v).
Proof. intros [b l]. cbn. lia. Qed.
#[local] Hint Resolve abandon_advances emit_advances : advance.

Lemma refuse_advances {A} o id c v e : advances (refuse (A := A) o id c v e).
Proof. unfold refuse, SendErrorReply, drainAndDisconnect, closeUnlessPersistent. advance. Qed.
#[local] Hint Resolve refuse_advances : advance.

Definition default_handler (expected : wstring) : Handler B :=
  λ req, mret (DefaultHandler req expected).

Lemma answer_advances o expected c req :
  advances (answer_request o (Some (default_handler expected)) c req).
Proof.
  unfold answer_request, default_handler. destruct (gate_verdict o c); [|advance].
  destruct (negb _); [advance|]. apply advances_bind; [advance|intros out].
  apply advances_bind; [intros [b l]; cbn; lia|]. intros []. advance.
Qed.

Lemma serve_frame_advances o expected idle deadline limited frames :
  advances (serve_frame o (Some (default_handler expected)) idle deadline limited frames).
Proof.
  unfold serve_frame. pose proof answer_advances as Ha. advance.
  unfold serve_header. advance. intros [b l]. apply Ha.
Qed.

Lemma ServeOne_advances o expected accept :
  advances (ServeOne 1 o (Some (default_handler expected)) accept).
Proof.
  unfold ServeOne, ServeLoop, serve_frames, finish_session, drainAndDisconnect,
    closeUnlessPersistent. pose proof serve_frame_advances as Hf. advance; auto.
Qed.

Lemma ServeOne_handles o h accept :
  logs (ServeOne (S := B) 1 o h accept) (λ _ hs _, (length hs <= 1)%nat).
Proof.
  unfold ServeOne, ServeLoop, serve_frames. pose proof (@ret_silent B) as Hret.
  assert (∀ A (a : A), logs (S := B) (mret a) (λ _ hs _, (length hs <= 1)%nat)) as Hnone
    by (intros; apply logs_ret; cbn; lia).
  do 2 (eapply logs_silent; [apply io_silent|intros ?]).
  match goal with |- logs (match ?x with _ => _ end) _ => destruct x end; [|apply Hnone].
  eapply logs_silent; [apply io_silent|intros [[]|e]].
  2:{ eapply logs_silent; [apply close_silent|intros ?]. apply Hnone. }
  eapply logs_bind; [apply serve_frame_logs|].
  assert (∀ last n reason rej (hs : list entry), (length hs <= 1)%nat →
    logs (r <-- finish_session (S := B) o last n reason rej ;; mret (Some r))
      (λ _ hs' _, (length (hs ++ hs') <= 1)%nat)) as Hfinish.
  { intros last n reason rej hs Hhs. eapply logs_bind; [apply finish_session_logs|].
    intros r hs' vs' (_ & -> & _). apply logs_ret. by rewrite !app_nil_r. }
  intros [[reason|last rej]|e] hs vs [_ He].
  - destruct He as (_ & -> & _). apply Hfinish. cbn. lia.
  - destruct He as (_ & c & req & rep & -> & _). destruct (_ && _); [by apply Hfinish|].
    apply logs_ret. by rewrite app_nil_r.
  - apply logs_ret. rewrite app_nil_r. apply He.
Qed.

(** The intake's rejections since [t0], with [slack] guesses yet to be counted. *)
Definition intake_ok (c : nat * Z * Z * bool) (t0 : Z) (slack : nat) (i : Intake) (b : B) : Prop :=
  guard_options (in_guard i) = c ∧
  guard_keeps (in_guard i) (refusals i) (time b) ∧ Forall (λ t, t0 <= t) (refusals i) ∧
  (wrongGuesses i <= length (refusals i) + slack)%nat ∧ t0 <= time b.

Lemma intake_ok_later c t0 n i b b' :
  intake_ok c t0 n i b → time b <= time b' → intake_ok c t0 n i b'.
Proof.
  intros (H1' & H2' & H3' & H4' & H5') Ht. split_and!; [done| |done..|lia].
  by eapply guard_keeps_later.
Qed.

Definition open_gate (i : Intake) : Prop :=
  safeMode (in_guard i) = false ∧ anomalyLatched (in_guard i) = false.

Lemma Refresh_open t g :
  safeMode g = false → anomalyLatched g = false →
  safeMode (Refresh t g) = false ∧ anomalyLatched (Refresh t g) = false.
Proof. intros Hs Hl. unfold Refresh. by rewrite Hl, Hs. Qed.

(** A refused credential is counted, whatever the verdict says of it. *)
Lemma note_verdict_ok c t0 n v i b i' b' :
  intake_ok c t0 n i b → open_gate i → (v = IpcClientVerdict.Accepted → n = 0%nat) → (n <= 1)%nat →
  note_verdict v i b = (i', b') → intake_ok c t0 0 i' b' ∧ time b <= time b'.
Proof.
  intros (Hc & Hk & Ht0 & Hw & Htb) [Hs Hl] Hv Hn. unfold note_verdict, State. unfold mthen, mret.
  destruct (clock_now b) as [now b0] eqn:E0. apply clock_run in E0.
  apply (guard_keeps_later _ _ _ now) in Hk; [|lia]. apply refresh_keeps in Hk.
  destruct (Refresh_open now _ Hs Hl) as [Hs0 Hl0].
  assert (guard_options (Refresh now (in_guard i)) = c) as Hc0
    by by rewrite Refresh_options.
  set (g0 := Refresh now (in_guard i)) in *. rewrite Hl0, Hs0.
  destruct v.
  { intros [= <- <-]. split; [|lia]. split_and!; cbn; [done| |done|rewrite Hv in Hw by done; lia|lia].
    eapply guard_keeps_later; [exact Hk|lia]. }
  all: destruct (clock_now b0) as [t1 b1] eqn:E1; apply clock_run in E1;
    destruct (clock_now b1) as [t2 b2] eqn:E2; apply clock_run in E2;
    destruct (clock_now b2) as [t3 b3] eqn:E3; apply clock_run in E3;
    destruct (clock_now b3) as [t4 b4] eqn:E4; apply clock_run in E4;
    destruct (clock_now b4) as [t5 b5] eqn:E5; apply clock_run in E5;
    intros [= <- <-]; (split; [|lia]);
    apply (reject_keeps _ _ _ t1 t2 t3 t4) in Hk; [|done|done|lia|lia];
    apply (guard_keeps_later _ _ _ t5) in Hk; [|lia]; apply refresh_keeps in Hk;
    (split_and!; cbn; [by rewrite Refresh_options, OnClientRejected_options
      | eapply guard_keeps_later; [exact Hk|lia]
      | apply Forall_app; split; [done|constructor; [lia|done]]
      | rewrite length_app; cbn; lia | lia]).
Qed.

Lemma note_handled_keeps hs i :
  let i' := foldl note_handled i hs in
  in_guard i' = in_guard i ∧ refusals i' = refusals i ∧ wrongGuesses i' = wrongGuesses i.
Proof.
  cbn zeta. revert i. induction hs as [|e hs IH]; intros i; [done|]. cbn [foldl].
  destruct (IH (note_handled i e)) as (-> & -> & ->). done.
Qed.

Lemma refusing_filter hs :
  existsb refuses_credential hs = false → List.filter refuses_credential hs = [].
Proof.
  induction hs as [|e hs IH]; [done|]. cbn. destruct (refuses_credential e); [done|]. apply IH.
Qed.

Lemma filter_length_le {A} (f : A → bool) l : (length (List.filter f l) <= length l)%nat.
Proof. induction l as [|a l IH]; cbn; [lia|]. destruct (f a); cbn; lia. Qed.

Lemma serve_client_ok c t0 i b r i' b' :
  intake_ok c t0 0 i b → open_gate i → serve_client i b = ((r, i'), b') →
  intake_ok c t0 0 i' b' ∧ time b <= time b'.
Proof.
  intros Hok Hopen. unfold serve_client.
  change (λ req, mret (DefaultHandler req (expectedToken (in_session i))))
    with (default_handler (expectedToken (in_session i))).
  set (h := default_handler _).
  pose proof (ServeOne_advances (in_session i) (expectedToken (in_session i)) kAcceptTimeoutMs
    (b, MkLog [] [])) as Ht. fold h in Ht.
  destruct (ServeOne_handles (in_session i) (Some h) kAcceptTimeoutMs b (MkLog [] []))
    as (hs & vs & El & Hlen).
  destruct (ServeLoop_logs 1 (in_session i) (Some h) kAcceptTimeoutMs (ioTimeout (in_session i))
    (ioTimeout (in_session i)) 1 b (MkLog [] [])) as (hs2 & vs2 & El2 & _ & Hr).
  change (ServeLoop 1 (in_session i) (Some h) kAcceptTimeoutMs (ioTimeout (in_session i))
    (ioTimeout (in_session i)) 1) with (ServeOne 1 (in_session i) (Some h) kAcceptTimeoutMs) in *.
  rewrite El in El2. cbn in El2. injection El2 as <- <-.
  destruct (ServeOne 1 _ _ _ _) as [out [b1 l]]. cbn in El, Hr, Ht, Hlen. subst l.
  cbn [verdicts handled app].
  set (i1 := foldl note_handled i hs). destruct (note_handled_keeps hs i) as (Hg & Hrf & Hw).
  fold i1 in Hg, Hrf, Hw.
  set (n := match out with Some (Success _) => length _ | _ => 0%nat end).
  destruct (intake_ok_later _ _ _ _ _ _ Hok Ht) as (Q1 & Q2 & Q3 & Q4 & Q5).
  assert (intake_ok c t0 n (note_guesses n i1) b1) as Hok1.
  { split_and!; cbn; [by rewrite Hg|by rewrite Hg, Hrf|by rewrite Hrf|rewrite Hw, Hrf; lia|done]. }
  assert (open_gate (note_guesses n i1)) as Ho1 by (by unfold open_gate; cbn; rewrite Hg).
  assert ((vs = [] ∧ n = 0%nat) ∨ ∃ v, vs = [v] ∧ (v = IpcClientVerdict.Accepted → n = 0%nat) ∧
                                   (n <= 1)%nat) as [[-> Hn]|(v & -> & Hv & Hn)].
  { destruct out as [[res|e]|]; [|destruct Hr as [->| ->]|]; [right|left|right|left]; try done.
    - eexists. split; [exact Hr|]. split.
      + intros Hacc. subst n. rewrite refusing_filter; [done|].
        change (λ e, match e.2 with Success p => auth_failed_reply p | Failure _ => false end)
          with refuses_credential in Hacc.
        by destruct (existsb refuses_credential hs).
      + subst n. etrans; [apply filter_length_le|exact Hlen].
    - eexists. split; [done|]. split; [done|]. subst n. cbn. lia. }
  - cbn [note_verdicts]. unfold mthen, mret. intros [= <- <- <-]. rewrite Hn in *.
    by split.
  - cbn [note_verdicts]. unfold mthen, mret.
    destruct (note_verdict v _ b1) as [i2 b2] eqn:Ev. intros [= <- <- <-].
    destruct (note_verdict_ok _ _ _ _ _ _ _ _ Hok1 Ho1 Hv Hn Ev) as [Hok2 Ht2].
    split; [done|]. lia.
Qed.

(** What observing does: the intake is left alone, no client is let in. *)
Definition quiet_step (m : M B HostState) (h : HostState) : Prop :=
  ∀ b, ipc (m b).1 = ipc h ∧ time b <= time (m b).2 ∧ clients (m b).2 = clients b.

Lemma quiet_intro m h :
  (∀ b, ipc (m b).1 = ipc h) → advances m → preserves clients m → quiet_step m h.
Proof. intros H1' H2' H3' b. split_and!; [apply H1'|apply H2'|apply H3']. Qed.

Lemma append_line_quiet path from to text :
  advances (AppendPresenceTransitionLine path from to text) ∧
  preserves clients (AppendPresenceTransitionLine path from to text).
Proof.
  unfold AppendPresenceTransitionLine. split; [advance|frame]; apply advances_get.
Qed.

Lemma note_changes_quiet evs n :
  advances (note_changes evs n) ∧ preserves clients (note_changes evs n).
Proof.
  revert n. induction evs as [|[from to] evs IH]; intros n; cbn [note_changes].
  { split; [advance|frame]. }
  split; intros b.
  - destruct (append_line_quiet (DefaultPresenceTimelinePath b) from to
      (LocalTimestampAscii (localtime b))) as [Ha _].
    apply (advances_bind _ _ Ha). intros _. apply IH.
  - destruct (append_line_quiet (DefaultPresenceTimelinePath b) from to
      (LocalTimestampAscii (localtime b))) as [_ Ha].
    unfold mthen. destruct (AppendPresenceTransitionLine _ _ _ _ b) as [r b1] eqn:E.
    apply (preserves_run _ _ _ _ _ Ha) in E. rewrite <- E. apply IH.
Qed.

Lemma advance_presence_quiet h : quiet_step (advance_presence h) h.
Proof.
  unfold advance_presence. destruct (ipcPresence h) as [p|]; [|by intros b; cbn; split_and!].
  apply quiet_intro.
  - intros b. unfold mthen, mret. destruct (clock_now b). by destruct (note_changes _ _ _).
  - advance. apply note_changes_quiet.
  - frame. apply note_changes_quiet.
Qed.

Lemma record_presence_quiet k idle h : quiet_step (record_presence k idle h) h.
Proof.
  unfold record_presence. destruct (ipcPresence h) as [p|]; [|by intros b; cbn; split_and!].
  apply quiet_intro.
  - intros b. unfold mthen, mret. destruct (clock_now b) as [? b1]. by destruct (clock_now b1).
  - advance.
  - frame.
Qed.

Lemma host_idle_quiet h : advances (host_idle h) ∧ preserves clients (host_idle h).
Proof.
  assert (∀ r, advances (IdleDuration (B := B) r) ∧ preserves clients (IdleDuration (B := B) r))
    as Hi by (intros r; unfold IdleDuration, NowEpochMs; split; [advance|frame]).
  unfold host_idle. split.
  - apply advances_bind; [|intros []; advance].
    destruct (rawInputAttached h); [intros b; apply Hi|advance].
  - apply preserves_bind; [|intros []; frame].
    destruct (rawInputAttached h); [intros b; apply Hi|frame].
Qed.

Lemma record_host_input_quiet h : quiet_step (record_host_input h) h.
Proof.
  unfold record_host_input. destruct (hs_rawInput h), (ipcPresence h) as [p|];
    try (by intros b; cbn; split_and!).
  intros b. unfold mthen. destruct (host_idle_quiet h) as [Ha Hp].
  destruct (host_idle h b) as [idle b1] eqn:E.
  pose proof (advances_run _ _ _ _ Ha E). apply (preserves_run _ _ _ _ _ Hp) in E.
  destruct (record_presence_quiet "host" idle h b1) as (H1' & H2' & H3').
  split_and!; [done|lia|congruence].
Qed.

Lemma take_client_ok c t0 i h b r h' b' :
  intake_ok c t0 0 i b → open_gate i → take_client i h b = ((r, h'), b') →
  ∃ i', ipc h' = Some i' ∧ intake_ok c t0 0 i' b'.
Proof.
  intros Hok Ho. unfold take_client. unfold mthen.
  destruct (serve_client i b) as [[served i1] b1] eqn:E.
  destruct (serve_client_ok _ _ _ _ _ _ _ Hok Ho E) as [Hok1 _]. unfold mret.
  destruct served as [[res|e]|]; [|destruct (is_win32 _ _); [|destruct (in_authRejected i1)]|];
    try (intros [= <- <- <-]; by eexists).
  set (h1 := set_ipc _ h).
  set (m := if 0 <? _ then _ else _).
  assert (quiet_step m h1) as Hm.
  { subst m. destruct (0 <? _); [apply record_presence_quiet|]. intros b2. cbn. by split_and!. }
  destruct (m b1) as [h2 b2] eqn:E2. destruct (Hm b1) as (Hi2 & Ht2 & _). rewrite E2 in Hi2, Ht2.
  destruct (advance_presence h2 b2) as [h3 b3] eqn:E3.
  destruct (advance_presence_quiet h2 b2) as (Hi3 & Ht3 & _). rewrite E3 in Hi3, Ht3.
  cbn in *. intros [= <- <- <-]. exists (note_served res i1).
  split; [by rewrite Hi3, Hi2|]. eapply intake_ok_later; [exact Hok1|]. lia.
Qed.

Lemma memory_status_quiet : advances (QueryMemoryStatus (B := B) steady_clock) ∧
  preserves clients (QueryMemoryStatus (B := B) steady_clock).
Proof. unfold QueryMemoryStatus, memory_failure. split; [advance|frame]; apply advances_get. Qed.

(** A tick up to the question whether clients are let in. *)
Lemma tick_cases q h b r h' b' i :
  ipc h = Some i → ServiceWorkloadTick q h b = ((r, h'), b') →
  (ipc h' = Some i ∧ HasValue r = false ∧ time b <= time b' ∧ clients b' = clients b) ∨
  ∃ now h1 b1 g, ShouldAcceptClients now (in_guard i) = (g.1, g.2) ∧
    time b <= now <= time b1 ∧ clients b1 = clients b ∧
    if g.1 : bool then take_client (set_gate g.2 false i) h1 b1 = ((r, h'), b')
    else ipc h' = Some (set_gate g.2 false i) ∧ r = Success tt ∧ time b1 <= time b' ∧
         clients b' = clients b.
Proof.
  intros Hi. unfold ServiceWorkloadTick. unfold mthen, mret. destruct q; cbn [negb].
  2:{ intros [= <- <- <-]. left. by split_and!. }
  destruct memory_status_quiet as [Ha Hp].
  destruct (QueryMemoryStatus _ b) as [status b0] eqn:E.
  pose proof (advances_run _ _ _ _ Ha E). apply (preserves_run _ _ _ _ _ Hp) in E.
  destruct status as [st|e]; [|intros [= <- <- <-]; left; by split_and!].
  match goal with |- context [record_host_input ?x b0] => set (h0 := x) end.
  destruct (record_host_input_quiet h0 b0) as (Hi1 & Ht1 & Hc1).
  destruct (record_host_input h0 b0) as [h1 b1]. cbn [fst snd] in *.
  replace (ipc h1) with (Some i) by (rewrite Hi1; subst h0; cbn; by rewrite Hi).
  destruct (clock_now b1) as [now b2] eqn:E2.
  pose proof (preserves_run _ _ _ _ _ clock_clients E2) as Hc2. apply clock_run in E2.
  destruct (ShouldAcceptClients now (in_guard i)) as [open g] eqn:Eg. intros Hrun. right.
  exists now, h1, b2, (open, g). cbn [fst snd].
  split_and!; [done|lia|lia|congruence|]. destruct open; [done|].
  destruct (advance_presence_quiet (set_ipc (Some (set_gate g false i)) h1) b2) as (Hi3 & Ht3 & Hc3).
  destruct (advance_presence _ b2) as [h3 b3]. cbn [fst snd] in *. injection Hrun as <- <- <-.
  split_and!; [done|done|lia|congruence].
Qed.

Lemma tick_ok c t0 q h i b r h' b' :
  ipc h = Some i → intake_ok c t0 0 i b → ServiceWorkloadTick q h b = ((r, h'), b') →
  ∃ i', ipc h' = Some i' ∧ intake_ok c t0 0 i' b'.
Proof.
  intros Hi Hok Hrun.
  destruct (tick_cases _ _ _ _ _ _ _ Hi Hrun)
    as [(Hi' & _ & Ht & _)|(now & h1 & b1 & [open g] & Eg & Ht & _ & Hrest)].
  - exists i. split; [done|]. by eapply intake_ok_later.
  - cbn [fst snd] in *. injection Eg as Eopen Eg.
    destruct Hok as (Q1 & Q2 & Q3 & Q4 & Q5).
    apply (guard_keeps_later _ _ _ now) in Q2; [|lia]. apply refresh_keeps in Q2.
    rewrite Eg in Q2, Eopen.
    assert (intake_ok c t0 0 (set_gate g false i) b1) as Hok1.
    { split_and!; cbn; [by rewrite <- Eg, Refresh_options| |done|done|lia].
      eapply guard_keeps_later; [exact Q2|lia]. }
    destruct open.
    + eapply take_client_ok; [exact Hok1| |exact Hrest]. destruct Q2 as (He & _).
      rewrite He in Eopen. cbn in Eopen. unfold open_gate. cbn.
      by destruct (safeMode g), (anomalyLatched g).
    + destruct Hrest as (Hi' & _ & Ht' & _). exists (set_gate g false i). split; [done|].
      eapply intake_ok_later; [exact Hok1|lia].
Qed.

(** *** The loop *)

Lemma note_verdicts_advances vs i : advances (note_verdicts (B := B) vs i).
Proof.
  revert i. induction vs as [|v vs IH]; intros i; cbn [note_verdicts]; [advance|].
  apply advances_bind; [|done]. unfold note_verdict. advance.
Qed.

Lemma serve_client_advances i : advances (serve_client (B := B) i).
Proof.
  intros b. unfold serve_client.
  pose proof (ServeOne_advances (in_session i) (expectedToken (in_session i)) kAcceptTimeoutMs
    (b, MkLog [] [])) as Ht. unfold default_handler in Ht.
  destruct (ServeOne 1 _ _ _ _) as [out [b1 l]]. cbn in Ht.
  match goal with |- context [note_verdicts ?vs ?j] =>
    pose proof (note_verdicts_advances vs j b1) as Hn; unfold mthen, mret;
    destruct (note_verdicts vs j b1) as [i' b2] end. cbn in *. lia.
Qed.

Lemma tick_advances q h : advances (ServiceWorkloadTick (B := B) q h).
Proof.
  assert (∀ h, advances (advance_presence (B := B) h)) as Hp
    by (intros h0 b; apply advance_presence_quiet).
  assert (∀ k idle h, advances (record_presence (B := B) k idle h)) as Hr
    by (intros k idle h0 b; apply record_presence_quiet).
  assert (∀ h, advances (record_host_input (B := B) h)) as Hi
    by (intros h0 b; apply record_host_input_quiet).
  pose proof serve_client_advances as Hs. pose proof (proj1 memory_status_quiet) as Hm.
  unfold ServiceWorkloadTick, take_client. advance; auto.
Qed.

(** A turn of the loop: it is over, or it makes a tick and waits. *)
Lemma loop_cases fuel deadline h b r h' b' :
  host_loop (Datatypes.S fuel) deadline h b = ((r, h'), b') →
  (r = Some (Success tt) ∧ h' = h ∧ time b <= time b' ∧ clients b' = clients b) ∨
  ∃ b1 r1 h1 b2, time b <= time b1 ∧ clients b1 = clients b ∧
    (stop_requested b = false ∧ ∀ d, deadline = Some d → time b < d) ∧
    ServiceWorkloadTick true h b1 = ((r1, h1), b2) ∧
    match r1 with
    | Failure e => r = Some (Failure e) ∧ h' = h1 ∧ b' = b2
    | Success _ => host_loop fuel deadline h1 (wait_stop kTickIntervalMs b2).2 = ((r, h'), b')
    end.
Proof.
  cbn [host_loop]. destruct (stop_requested b) eqn:Hstop.
  { intros [= <- <- <-]. left. by split_and!. }
  set (m := match deadline with Some d => _ | None => _ end).
  assert (advances m ∧ preserves clients m) as [Ha Hp].
  { subst m. destruct deadline; split; [advance|frame|advance|frame]. }
  unfold mthen, mret.
  assert ((m b).1 = false → ∀ d, deadline = Some d → time b < d) as Hd.
  { intros Hm d ->. subst m. cbn in Hm. unfold mthen in Hm.
    destruct (clock_now b) as [now b0] eqn:E.
    apply clock_run in E. cbn in Hm. b2p. lia. }
  destruct (m b) as [over b1] eqn:E. pose proof (advances_run _ _ _ _ Ha E).
  apply (preserves_run _ _ _ _ _ Hp) in E. destruct over.
  { intros [= <- <- <-]. left. by split_and!. }
  destruct (ServiceWorkloadTick true h b1) as [[r1 h1] b2] eqn:Et. intros Hrun. right.
  exists b1, r1, h1, b2. split_and!; [done|done|done|by apply Hd|done|]. cbn [fst snd] in Hrun.
  destruct r1; [|by injection Hrun as <- <- <-].
  by destruct (wait_stop kTickIntervalMs b2).
Qed.

Lemma host_loop_ok c t0 n deadline h i b r h' b' :
  ipc h = Some i → intake_ok c t0 0 i b → host_loop n deadline h b = ((r, h'), b') →
  ∃ i', ipc h' = Some i' ∧ intake_ok c t0 0 i' b'.
Proof.
  revert h i b. induction n as [|n IH]; intros h i b Hi Hok Hrun.
  { injection Hrun as <- <- <-. by exists i. }
  apply loop_cases in Hrun as [(_ & -> & Ht & _)|(b1 & r1 & h1 & b2 & Ht & _ & _ & E & Hrest)].
  { exists i. split; [done|]. by eapply intake_ok_later. }
  destruct (tick_ok _ _ _ _ _ _ _ _ _ Hi (intake_ok_later _ _ _ _ _ _ Hok Ht) E)
    as (i1 & Hi1 & Hok1).
  destruct r1; [|destruct Hrest as (-> & -> & ->); by exists i1].
  eapply (IH h1 i1); [done| |exact Hrest]. eapply intake_ok_later; [exact Hok1|].
  apply wait_time.
Qed.

(** With a deadline the loop is over after a turn per second and one. *)
Lemma host_loop_ends fuel deadline h b :
  (0 < fuel)%nat →
  deadline - time b <= (Z.of_nat fuel - 1) * ns kTickIntervalMs ∨ stop_requested b = true →
  (host_loop fuel (Some deadline) h b).1.1 ≠ None.
Proof.
  revert h b. induction fuel as [|fuel IH]; intros h b Hf Ht; [lia|].
  destruct (host_loop _ _ h b) as [[r h'] b'] eqn:E. cbn [fst].
  apply loop_cases in E as [(-> & _)|(b1 & r1 & h1 & b2 & Ht1 & _ & [Hs Hd] & Et & Hrest)]; [done|].
  specialize (Hd _ eq_refl). destruct Ht as [Ht|Ht]; [|congruence].
  pose proof (advances_run _ _ _ _ (tick_advances true h) Et) as Ht2.
  destruct r1; [|by destruct Hrest as [-> _]].
  change r with ((r, h'), b').1.1. rewrite <- Hrest. apply IH.
  - destruct fuel; [unfold ns, kTickIntervalMs in *; lia|lia].
  - destruct (wait_long kTickIntervalMs b2) as [Hw|Hw]; [left|by right]. lia.
Qed.

(** C5. Guessing the credential is slow. However many clients come to the pipe,
    whatever they send and whenever, and however long the host runs: of the
    replies that refuse a credential, at most the threshold of Safe Mode is
    given per span of time, where the span is the shorter of the counting window
    and the cooldown. Every such reply is counted, and any rejection comes at
    least a span after the one that is the threshold before it. *)
Theorem host_guesses_bounded n deadline h b r h' b' o k window cool :
  ipc h = Some (NewIntake o (NewSafeModeGuard k window cool true)) → (0 < k)%nat →
  host_loop n deadline h b = ((r, h'), b') →
  let span := Z.min (ns window) (ns cool) in
  ∃ i, ipc h' = Some i ∧ (wrongGuesses i <= length (refusals i))%nat ∧
    paced span k (refusals i) ∧
    (0 < span → Z.of_nat (wrongGuesses i) <= Z.of_nat k * ((time b' - time b) / span + 1)).
Proof.
  intros Hi Hk Hrun. cbn zeta.
  assert (intake_ok (k, window, cool, true) (time b) 0
            (NewIntake o (NewSafeModeGuard k window cool true)) b) as Hok.
  { split_and!; cbn; [done| |constructor|lia|lia]. split_and!; cbn; [done|done| |constructor|].
    - intros j x y Hx. by rewrite lookup_nil in Hx.
    - exists []. split_and!; [done|done|constructor]. }
  destruct (host_loop_ok _ _ _ _ _ _ _ _ _ _ Hi Hok Hrun) as (i & Hi' & Q1 & Q2 & Q3 & Q4 & Q5).
  destruct Q2 as (_ & _ & Hp & Hle & _). unfold guard_span in Hp.
  injection Q1 as Ek Ew Ec _. rewrite Ek, Ew, Ec in Hp.
  exists i. split_and!; [done|lia|done|]. intros Hspan.
  etrans; [|apply (paced_length _ k (refusals i) (time b) (time b')); try done].
  - lia.
  - apply Forall_forall. intros t Ht. rewrite Forall_forall in Q3, Hle. by split; [apply Q3|apply Hle].
Qed.

(** A tick of a host whose guard is latched, and the loop. *)
Definition deaf (i : Intake) (h : HostState) : Prop :=
  ∃ j, ipc h = Some j ∧ j = set_gate (in_guard i) (in_authRejected j) i.

Lemma deaf_tick i q h b r h' b' :
  enabled (in_guard i) = true → anomalyLatched (in_guard i) = true → deaf i h →
  ServiceWorkloadTick q h b = ((r, h'), b') → clients b' = clients b ∧ deaf i h'.
Proof.
  intros He Hl (j & Hi & Hj) E.
  destruct (tick_cases _ _ _ _ _ _ _ Hi E)
    as [(Hi' & _ & _ & Hc)|(now & h2 & b2 & [open g] & Eg & _ & Hc & Hrest)].
  { split; [done|]. by exists j. }
  rewrite Hj in Eg. unfold ShouldAcceptClients, Refresh in Eg. cbn in Eg.
  rewrite Hl, He in Eg. cbn in Eg. rewrite ?He, ?Hl in Eg. cbn in Eg.
  rewrite ?andb_false_r in Eg. injection Eg as <- <-. cbn [fst snd] in Hrest.
  destruct Hrest as (Hi' & _ & _ & Hc'). split; [done|].
  eexists. split; [exact Hi'|]. by rewrite Hj.
Qed.

Lemma deaf_loop n deadline h i b r h' b' :
  ipc h = Some i → enabled (in_guard i) = true → anomalyLatched (in_guard i) = true →
  host_loop n deadline h b = ((r, h'), b') → clients b' = clients b ∧ deaf i h'.
Proof.
  intros Hi He Hl. assert (deaf i h) as Hd by (exists i; split; [done|by destruct i]).
  clear Hi. revert h b Hd. induction n as [|n IH]; intros h b Hd Hrun.
  { injection Hrun as <- <- <-. by split. }
  apply loop_cases in Hrun as [(_ & -> & _ & Hc)|(b1 & r1 & h1 & b2 & _ & Hc & _ & E & Hrest)].
  { by split. }
  destruct (deaf_tick _ _ _ _ _ _ _ He Hl Hd E) as [Hc2 Hd1].
  destruct r1; [|destruct Hrest as (-> & -> & ->); split; [congruence|done]].
  destruct (IH _ _ Hd1 Hrest) as [Hc3 Hd3]. split; [|done].
  pose proof (wait_clients kTickIntervalMs b2). congruence.
Qed.

(** Once an anomaly is latched, for a configuration that does not parse, an
    unsupported system, a native interface that is missing or a last run that
    died, the host is deaf to its agents for as long as it runs: no client is
    let in, and nothing of what clients ever said changes. *)
Lemma latched_host_is_deaf n deadline h i b r h' b' :
  ipc h = Some i → enabled (in_guard i) = true → anomalyLatched (in_guard i) = true →
  host_loop n deadline h b = ((r, h'), b') →
  clients b' = clients b ∧
  ∃ i', ipc h' = Some i' ∧ i' = set_gate (in_guard i) (in_authRejected i') i.
Proof. exact (deaf_loop n deadline h i b r h' b'). Qed.
End TickTime.

(** *** A frame that is none *)

Section Malformed.
Context {B : Type} `{SystemMessages} `{WideLibrary}.
Context `{SteadyClock B} `{Clock B} `{Folders B} `{FileSystem B}.
Context `{IpcServerBackend B} `{MemoryApi B} `{LastInputBackend B} `{TrayInput B}.
Context `{StopSignal B}.

(** The loop goes on to a tick: the world of the tick. *)
Definition loop_ticks (deadline : option Z) (b : B) : option B :=
  if stop_requested b then None
  else match deadline with
  | None => Some b
  | Some d => let '(now, b1) := clock_now b in if d <=? now then None else Some b1
  end.

(** The tick takes in a client: the host and the world when it starts to. *)
Definition tick_accepts (h : HostState) (b : B) : option (HostState * SafeModeGuard * B) :=
  match QueryMemoryStatus steady_clock b with
  | (Failure _, _) => None
  | (Success _, b1) =>
      let '(h1, b2) := record_host_input
        (MkHostState (u64 (tickCount h + 1)) (ipc h) (ipcPresence h) (hs_rawInput h)
           (rawInputAttached h) (presenceTransitions h)) b1 in
      match ipc h1 with
      | None => None
      | Some i =>
          let '(now, b3) := clock_now b2 in
          let '(open, g) := ShouldAcceptClients now (in_guard i) in
          if open : bool then Some (h1, g, b3) else None
      end
  end.

(** The header that the session of a tick reads, when a client comes and sends one. *)
Definition header_read (o : SessionOptions) (b : B) : option (list byte) :=
  let '(_, b1) := steady_now b in
  match CreateAndListen b1 with
  | (Failure _, _) => None
  | (Success _, b2) =>
      match AcceptClient kAcceptTimeoutMs b2 with
      | (Failure _, _) => None
      | (Success _, b3) => match (ReadAll kIpcHeaderSize (ioTimeout o) b3).1 with Success bytes => Some bytes | Failure _ => None end
      end
  end.

Lemma malformed_session o handler b bytes e :
  header_read o b = Some bytes → ParseHeader bytes = Failure e →
  ∃ b', ServeOne 1 o handler kAcceptTimeoutMs (b, MkLog [] []) = (Some (Failure e), (b', MkLog [] [])).
Proof.
  unfold header_read, ServeOne, ServeLoop, mthen, mret, io.
  destruct (steady_now b) as [now b1]. destruct (CreateAndListen b1) as [[u|?] b2]; [|done].
  destruct (AcceptClient kAcceptTimeoutMs b2) as [[u'|?] b3]; [|done].
  intros Hr Hp. cbn [serve_frames]. unfold serve_frame, mthen, mret, io.
  cbn [negb Z.eqb Pos.eqb andb]. cbv beta iota zeta.
  destruct (ReadAll kIpcHeaderSize (ioTimeout o) b3) as [[bs|?] b4]; cbn in Hr; [|done].
  injection Hr as ->. cbv beta iota zeta. unfold serve_header. rewrite Hp.
  unfold refuse, SendErrorReply, drainAndDisconnect, closeUnlessPersistent, mthen, mret, io.
  destruct (WriteAll _ _ b4) as [w b5]. destruct (ReadAll 1 _ b5) as [x b6].
  destruct (DisconnectClient b6) as [y b7].
  destruct (negb (persistentAccept o)); [destruct (CloseServer b7) as [[] b8]|]; by eexists.
Qed.

Lemma ParseHeader_error bytes e : ParseHeader bytes = Failure e → is_win32 e ERROR_TIMEOUT = false.
Proof.
  unfold ParseHeader. destruct (negb _); [by intros [= <-]|].
  match goal with |- context [ValidateIpcHeader ?h] => generalize h end. intros hd. cbv zeta.
  unfold ValidateIpcHeader. repeat case_match; intros; simplify_eq; done.
Qed.

(** C40. Anybody who can open the pipe can end the host. When a tick takes in a
    client and what that one sends first is not a header, the tick fails with the error
    of the parser and the loop of the host ends with it: whatever credential and
    users the session asks for, whoever the client is, whatever was served
    before. The client counts neither as served nor as refused, so that Safe Mode
    does not hear of it. *)
Theorem malformed_client_ends_host fuel deadline h b b0 h1 g b1 i bytes e :
  loop_ticks deadline b = Some b0 → tick_accepts h b0 = Some (h1, g, b1) → ipc h1 = Some i →
  header_read (in_session i) b1 = Some bytes → ParseHeader bytes = Failure e →
  ∃ h' b', host_loop (Datatypes.S fuel) deadline h b = ((Some (Failure e), h'), b') ∧
    ipc h' = Some (set_gate g false i).
Proof.
  intros Hl Ha Hi Hr Hp. cbn [host_loop]. unfold loop_ticks in Hl.
  destruct (stop_requested b); [done|]. unfold mthen at 1.
  match goal with |- context [let (_, _) := ?m b in _] => assert (m b = (false, b0)) as -> end.
  { unfold mthen, mret. destruct deadline as [d|]; [|by injection Hl as ->].
    destruct (clock_now b) as [now b2]. destruct (d <=? now); [done|by injection Hl as ->]. }
  cbv iota. unfold ServiceWorkloadTick, mthen, mret. cbn [negb].
  unfold tick_accepts in Ha. destruct (QueryMemoryStatus _ b0) as [[st|?] b2]; [|done].
  destruct (record_host_input _ b2) as [h2 b3]. destruct (ipc h2) as [j|] eqn:Hj; [|done].
  destruct (clock_now b3) as [now b4]. destruct (ShouldAcceptClients now (in_guard j)) as [[] g1]; [|done].
  injection Ha as -> -> ->. rewrite Hj in Hi. injection Hi as ->.
  unfold take_client, serve_client, mthen, mret. cbn [in_session set_gate].
  match goal with |- context [ServeOne _ ?o ?handler] =>
    destruct (malformed_session o handler b1 bytes e Hr Hp) as [b5 E] end.
  rewrite E. cbn. rewrite (ParseHeader_error _ _ Hp). cbn.
  eexists _, _. split; [done|]. unfold set_gate, note_guesses. cbn. by rewrite Nat.add_0_r.
Qed.
End Malformed.

(** ** Examples *)

(** A machine with a clock, files and the clients that will come to the pipe:
    process, session and what each sends before it hangs up. *)
Module Site.
Record Site := MkSite {
  site_now : Z;
  site_fs : MemFs;
  site_queue : list (Z * Z * list byte);
  site_client : Z * Z * list byte;
  site_served : nat;
  site_idle : Z
}.

Definition pass (d : Z) (s : Site) : Site :=
  MkSite (site_now s + Z.max 0 d) (site_fs s) (site_queue s) (site_client s) (site_served s)
    (site_idle s).
Definition with_fs (fs : MemFs) (s : Site) : Site :=
  MkSite (site_now s) fs (site_queue s) (site_client s) (site_served s) (site_idle s).

#[export] Instance site_files : FileSystem Site := lifted_fs site_fs with_fs.
#[export] Instance site_files_laws : FileSystemLaws Site :=
  lifted_fs_laws site_fs with_fs (λ _ _, eq_refl).

#[export] Instance site_steady : SteadyClock Site := λ s, (site_now s, pass 1000000 s).
#[export] Instance site_sleep : Sleeping Site := λ d s, (tt, pass (Z.max 0 d + 1) s).
#[export] Instance site_time : TimeLaws Site.
Proof.
  refine {| time := site_now |}.
  - intros s. cbn. lia.
  - intros d s. cbn. lia.
Defined.
#[export] Instance site_clock : Clock Site := {|
  localtime _ := None; steady_clock s := site_now s
|}.
#[export] Instance site_folders : Folders Site := {|
  GetEnvironmentVariableW _ _ := (1, "C"); temp_directory_path _ := "T"
|}.
#[export] Instance site_messages : SystemMessages := no_messages.
#[export] Instance site_wide : WideLibrary := λ c, c.

Definition timed_out : Error := MkError ErrorDomain.Win32 ERROR_TIMEOUT "pipe" "".
Definition hung_up : Error := MkError ErrorDomain.Win32 ERROR_BROKEN_PIPE "pipe" "".


#[export] Instance site_pipe : IpcServerBackend Site := {
  CreateAndListen := mret (Success tt);
  AcceptClient t := λ s,
    match site_queue s with
    | [] => (Failure timed_out, pass (t * 1000000) s)
    | c :: rest =>
        (Success tt, MkSite (site_now s) (site_fs s) rest c (site_served s + 1) (site_idle s))
    end;
  ReadAll n t := λ s,
    let '(pid, sid, bytes) := site_client s in
    if (length bytes <? n)%nat then (Failure hung_up, s)
    else (Success (take n bytes),
          MkSite (site_now s) (site_fs s) (site_queue s) (pid, sid, drop n bytes)
            (site_served s) (site_idle s));
  WriteAll _ _ := mret (Success tt);
  DisconnectClient := mret (Success tt);
  CloseServer := mret tt;
  ClientPid s := (site_client s).1.1;
  ClientSessionId s := (site_client s).1.2;
  ClientUserSid _ := [];
  steady_now := clock_now
}.

#[export] Instance site_memory : MemoryApi Site := {|
  OpenProcess _ _ := mret None; CloseHandle _ := mret tt; GetProcessMemoryInfo _ := mret None;
  EmptyWorkingSet _ := mret false; OpenProcessToken _ := mret None;
  LookupPrivilegeValueW _ := mret None; TokenPrivilegesSize _ := mret 0;
  new_nothrow _ := mret false; TokenPrivileges _ _ := mret None;
  AdjustTokenPrivileges _ _ := mret false; NtSetSystemInformation _ _ := mret 0;
  NtQuerySystemInformation _ := mret (0, [], 0); SetSystemFileCacheSize _ _ _ := mret false;
  GetPerformanceInfo := mret None; GetSystemPageSize := mret 4096;
  GlobalMemoryStatusEx := mret (Some (16000, 8000, 50));
  memory_error _ := 0
|}.
#[export] Instance site_input : LastInputBackend Site := λ s,
  (Success (MkInputSample (u32 (1000 * site_idle s)) 0), s).
#[export] Instance site_tray : TrayInput Site := {|
  raw_input _ := NewRawInput true true; put_raw_input _ s := s
|}.

#[export] Instance site_stop : StopSignal Site := {|
  stop_requested _ := false; wait_stop d := λ s, (tt, pass (d * 1000000) s)
|}.

#[export] Instance site_laws : HostLaws Site.
Proof.
  refine {| clients := site_served |}; intros; try intros s; cbn -[Nat.ltb]; try lia; try done;
    try (by destruct (refuses _ _)).
  - destruct (site_queue s); cbn; lia.
  - destruct (site_client s) as [[pid sid] bytes]. destruct (length bytes <? n)%nat; cbn; lia.
  - left. unfold ns. lia.
Defined.

(** The host asks for the credential [key] and lets three failures in 5 s be
    followed by a pause of 2 s. *)
Definition options : SessionOptions :=
  MkOptions 3000 (Some DefaultClientGate) true [] [107; 101; 121].
Definition guard : SafeModeGuard := NewSafeModeGuard 3 5000 2000 true.
Definition host : HostState :=
  MkHostState 0 (Some (NewIntake options guard)) (Some (NewHostPresenceTracker 15 60)) false false 0.

Definition facts (text : string) : list byte :=
  MakeFrame IpcMessageType.FactsSnapshot 1 (BytesFromText (kFactsEnvelopeV1 +:+ String LF text)).
Definition ping : list byte := MakeFrame IpcMessageType.Ping 1 [].

Definition site (queue : list (Z * Z * list byte)) : Site :=
  MkSite 1000000000 (MkMemFs ∅ []) queue (0, 0, []) 0 30.

(** What the presence ledger says of each client at the end of [n] ticks. *)
Definition ledger (n : nat) (queue : list (Z * Z * list byte)) : list (string * option Z) :=
  match ipcPresence (host_loop n None host (site queue)).1.2 with
  | Some p => map (λ e, (e.1, entry_idle e.2)) (presence_entries p)
  | None => []
  end.
End Site.
Import Site.

Definition guess : list byte := facts ("observer=agent" +:+ String LF "agent_token=wrong").
Definition guessers : list (Z * Z * list byte) := repeat (10, 1, guess) 6.

Example host_guesses_bounded_witness :
  match ipc (host_loop 5 None host (site guessers)).1.2 with
  | Some i => length (refusals i) = 4%nat ∧ wrongGuesses i = 4%nat ∧
              paced (Z.min (ns 5000) (ns 2000)) 3 (refusals i)
  | None => False
  end.
Proof.
  assert (match ipc (host_loop 5 None host (site guessers)).1.2 with
          | Some i => length (refusals i) = 4%nat ∧ wrongGuesses i = 4%nat
          | None => False
          end) as Hrun by (vm_compute; split; reflexivity).
  destruct (host_loop 5 None host (site guessers)) as [[r h'] b'] eqn:E. cbn [fst snd] in *.
  destruct (host_guesses_bounded 5 None host (site guessers) r h' b' options 3 5000 2000
    eq_refl ltac:(lia) E) as (i & Hi & _ & Hp & _).
  rewrite Hi in Hrun |- *. destruct Hrun as [Hr Hw]. split; [exact Hr|]. split; [exact Hw|exact Hp].
Defined.

Definition latched_host : HostState :=
  MkHostState 0 (Some (NewIntake options (OnAnomalyDetected guard))) None false false 0.

Example latched_host_is_deaf_witness :
  site_served (host_loop 6 None latched_host (site guessers)).2 = 0%nat.
Proof.
  destruct (host_loop 6 None latched_host (site guessers)) as [[r h'] b'] eqn:E.
  exact (proj1 (latched_host_is_deaf 6 None latched_host _ (site guessers) r h' b' eq_refl eq_refl
    eq_refl E)).
Defined.

(** *** What a client can do to the host *)

(** Anybody who can open the pipe can end the host: a session that fails
    otherwise than by a timeout or a refusal makes the tick fail, and the loop of
    the host ends with the first tick that fails. A header of zeros will do, sent
    before any identity or credential is looked at. *)
Lemma one_client_stops_host :
  let '((r, h'), b') := host_loop 60 None host (site [(10, 1, repeat (byte_of_Z 0) 16)]) in
  option_map HasValue r = Some false ∧ tickCount h' = 1 ∧
  match ipc h' with
  | Some i => in_clientsServed i = 0 ∧ in_rejectedClients i = 0 ∧ refusals i = []
  | None => False
  end.
Proof. vm_compute. done. Qed.

(** The presence ledger believes clients without a credential, and it files what
    the last snapshot said under the name of whoever comes next, even if that
    one sends no facts at all. *)
Lemma ledger_believes_anyone :
  let idle text := facts (text +:+ String LF "user_idle_seconds=5") in
  ledger 3 [(10, 1, idle "agent_token=wrong")] = [("10:1", Some 5)] ∧
  ledger 3 [(10, 1, idle "agent_token=key"); (20, 1, ping)] = [("10:1", Some 5); ("20:1", Some 5)].
Proof. vm_compute. done. Qed.

(** A tick to which no agent comes does not bring the presence summary up to
    date, so that input at the machine itself is not noticed as long as nobody
    calls. *)
Lemma idle_ticks_skip_summary :
  let watched := MkHostState 0 (ipc host) (ipcPresence host) true false 0 in
  let '((r, h'), b') := host_loop 5 None watched (MkSite 1000000000 (MkMemFs ∅ []) [] (0, 0, []) 0 3) in
  r = None ∧ presenceTransitions h' = 0 ∧ tickCount h' = 5 ∧
  match ipcPresence h' with
  | Some p => lastSummary p = PresenceState.Unknown ∧
              ComputeSummary (presence_entries p) = PresenceState.Present
  | None => False
  end.
Proof. vm_compute. done. Qed.

(** A host that asks for a credential, and a client without an identity (its process
    is 0) that sends sixteen zeros. *)
Definition zeros16 : list byte := repeat (byte_of_Z 0) 16.
Lemma malformed_client_ends_host_witness :
  loop_ticks None (site [(0, 0, zeros16)]) ≠ None ∧
  option_map HasValue (host_loop 60 None host (site [(0, 0, zeros16)])).1.1 = Some false.
Proof.
  split; [by vm_compute|].
  destruct (loop_ticks None (site [(0, 0, zeros16)])) as [b0|] eqn:El; [|vm_compute in El; discriminate El].
  assert (Hb : Some b0 = Some (site [(0, 0, zeros16)])) by (rewrite <- El; vm_compute; reflexivity).
  injection Hb as ->.
  destruct (tick_accepts host (site [(0, 0, zeros16)])) as [[[h1 g] b1]|] eqn:Ea;
    [|vm_compute in Ea; discriminate Ea].
  destruct (ipc h1) as [i|] eqn:Ei; [|exfalso; vm_compute in Ea; injection Ea as <- <- <-; discriminate Ei].
  assert (header_read (in_session i) b1 = Some zeros16) as Hr.
  { clear El. vm_compute in Ea. injection Ea as <- <- <-. cbn in Ei. injection Ei as <-. vm_compute. reflexivity. }
  destruct (ParseHeader zeros16) as [hd|e] eqn:Ep; [vm_compute in Ep; discriminate Ep|].
  destruct (malformed_client_ends_host 59 None host _ _ h1 g b1 i zeros16 e El Ea Ei Hr Ep) as (h' & b' & E & _).
  rewrite E. reflexivity.
Defined.
