(* ===== verification/HostConsole.v ===== *)
(** The host on the console, [--service console] of [source/main.cpp]
    ([RunServiceConsoleCommand], with [RunConsole] of [service/service_host]):
    which configuration it takes, whom it lets in, what it finds wrong when it
    starts, its loop, and the marker by which the next start knows how it ended. *)

From S2P Require Import Prelude Timing CommonError Containers Paths AuditLog.
From S2P Require Import ConfigTypes Config Recovery AgentForms Platform.
From S2P Require Import IpcProtocol IpcSession ServiceHost Presence UserActivity RawInput.
From S2P Require Import Memory Actions.
From S2P Require Import Credentials IpcArguments HostTick.

Import ServiceHost.SafeMode.

Open Scope string_scope.
Open Scope list_scope.
Open Scope Z_scope.

(** ** What is configured *)

Definition kMaxConsoleSeconds : Z := 60.
Definition kHostPresenceAwaySeconds : Z := 15.

(** The window: a number of seconds, or none for [run]. *)
Definition console_window `{WideCtype} (text : wstring) : option (option Z) :=
  if is_arg "run" text then Some None
  else match ParseUint32 text with
       | Some s => if (s =? 0) || (kMaxConsoleSeconds <? s) then None else Some (Some s)
       | None => None
       end.

Record ConsoleFlags := MkConsoleFlags { ipcFacts : bool; confirmRecovery : bool; useTray : bool }.

Definition console_flags (args : list wstring) : ConsoleFlags :=
  let given name := existsb (is_arg name) args in
  MkConsoleFlags (given "--ipc-facts") (given "--confirm-recovery") (given "--tray").

(** The configuration consumed, if any, and whether the default one of the user
    exists but is invalid. *)
Record HostConfig := MkHostConfig {
  consoleConfigSnapshot : option ConfigSnapshot;
  hostConfigInvalid : bool
}.

Section Config.
Context {B Node : Type} `{Toml Node} `{TomlFiles B Node} `{FileSystem B} `{Folders B}.

(** [None] is a configuration that was named and does not load. *)
Definition host_config (named : option string) (b : B) : option HostConfig :=
  let '(path, isDefault) :=
    match named with
    | Some p => (p, false)
    | None =>
        let p := DefaultHostConfigPath b in
        if (exists_file p b).1 then (p, true) else ("", false)
    end in
  if string_empty path then Some (MkHostConfig None false)
  else
    match LoadConfig path b with
    | Success s => Some (MkHostConfig (Some s) false)
    | Failure _ => if isDefault : bool then Some (MkHostConfig None true) else None
    end.
End Config.

(** The gate: the defaults of the guard without a configuration. *)
Definition console_guard (c : HostConfig) : SafeModeGuard :=
  match consoleConfigSnapshot c with
  | Some s =>
      let m := ConfigTypes.safeMode (ConfigTypes.ipc s) in
      NewSafeModeGuard (Z.to_nat (sm_failuresToEnter m)) (sm_countingWindowMs m)
        (sm_cooldownMs m) (sm_enabled m)
  | None => NewSafeModeGuard 3 5000 2000 true
  end.

Definition presence_away_seconds (c : HostConfig) : Z :=
  match consoleConfigSnapshot c with
  | Some s => EffectivePresenceAwaySeconds (u32 (userAwayIdleSeconds (policy s)))
                kHostPresenceAwaySeconds
  | None => kHostPresenceAwaySeconds
  end.

Definition recovery_latches (c : HostConfig) : bool :=
  match consoleConfigSnapshot c with
  | Some s => safeModeOnRecoveryError (application s)
  | None => true
  end.

(** ** Whom the host lets in *)

Section Credentials.
Context {B : Type} `{SystemMessages} `{FileSystem B} `{Folders B}.

(** The session of the host listens persistently; the rest are the defaults. *)
Definition console_session (path_of : wstring → string) (args : list wstring) (b : B) :
    option SessionOptions :=
  token ← console_token path_of args b;
  users ← allowed_users args;
  Some (MkOptions (ioTimeout session_defaults) (clientGate session_defaults) true users token).
End Credentials.

(** ** Starting *)

(** What the start found wrong; the flags of the code. *)
Record StartAnomalies := MkAnomalies {
  ipcNativeProbeAnomaly : bool;
  ipcOsSupportAnomaly : bool;
  ipcConfigAnomaly : bool;
  ipcRecoveryUnconfirmed : bool;
  ipcRecoveryNotedOnly : bool
}.

Definition no_anomalies : StartAnomalies := MkAnomalies false false false false false.

(** Those that latch Safe Mode. *)
Definition latching (a : StartAnomalies) : bool :=
  ipcNativeProbeAnomaly a || ipcOsSupportAnomaly a || ipcConfigAnomaly a ||
  ipcRecoveryUnconfirmed a.

Section Environment.
Context {B : Type} `{SystemMessages} `{Modules B} `{PlatformApi B}.

Definition native_anomaly : M B bool :=
  probe <-- Probe new_native_api ;;
  mret (match probe.1 with
        | Failure _ => true
        | Success c => negb (ntdllLoaded c) || negb (querySystemInformation c) ||
                       negb (ntStatusConversion c)
        end).

Definition os_anomaly : M B bool :=
  version <-- QueryOsVersion ;;
  match version with
  | Success v => x64 <-- IsNativeX64 ;;
                 mret (negb (bool_decide (ClassifyOsSupport v x64 = OsSupport.Supported)))
  | Failure _ => mret true
  end.
End Environment.

Section Start.
Context {B : Type} `{SystemMessages} `{Modules B} `{PlatformApi B} `{Folders B}.
Context `{FileSystem B, !FileRemoval B}.

Definition DefaultRecoveryMarkerPath (b : B) : string :=
  let '(length, buffer) := GetEnvironmentVariableW "LOCALAPPDATA" b in
  let root := if (0 <? length) && (length <? MAX_PATH) then buffer else temp_directory_path b in
  path_append (path_append root "CppOptimizer") "recovery-state.json".

(** The checks before agents are taken in, and the marker of this session. *)
Definition start_anomalies (c : HostConfig) (confirm : bool) (marker : string) :
    M B StartAnomalies :=
  native <-- native_anomaly ;;
  os <-- os_anomaly ;;
  action <-- session_begin marker confirm (recovery_latches c) ;;
  mret (MkAnomalies native os (hostConfigInvalid c)
          match action with Latch => true | _ => false end
          match action with NoteOnly => true | _ => false end).

(** [OnAnomalyDetected] latches as often as it is called. *)
Definition start_guard (c : HostConfig) (a : StartAnomalies) : SafeModeGuard :=
  let g := console_guard c in if latching a then OnAnomalyDetected g else g.
End Start.

(** The icon in the notification area: its thread with a window, which requests
    a stop when its menu is used. *)
Class TrayApi (B : Type) := {
  tray_start : M B (Result unit);
  tray_window : B → Z;
  tray_stop : M B unit
}.

(** The handler of Ctrl+C and of closing the console, which requests a stop. *)
Class ConsoleApi (B : Type) := {
  SetConsoleCtrlHandler : bool → M B bool;
  console_error : B → Z
}.

(** ** The run *)

Section Run.
Context {B : Type} `{SystemMessages} `{WideLibrary}.
Context `{SteadyClock B} `{Clock B} `{Folders B} `{FileSystem B, !FileRemoval B}.
Context `{IpcServerBackend B} `{MemoryApi B} `{LastInputBackend B} `{TrayInput B}.
Context `{StopSignal B} `{RawInputApi B} `{TrayApi B} `{ConsoleApi B}.

(** [RunConsole] of the service host. *)
Definition RunConsole (fuel : nat) (boundedFor : option Z) (h : HostState) :
    M B (option (Result unit) * HostState) :=
  if match boundedFor with Some s => s <=? 0 | None => false end then
    mret (Some (Failure (Validation "RunConsole" "boundedFor 必须为正秒数")), h)
  else
    ok <-- SetConsoleCtrlHandler true ;;
    if negb ok then λ b,
      ((Some (Failure (FromWin32 (u32 (console_error b)) "SetConsoleCtrlHandler")), h), b)
    else
      deadline <-- (match boundedFor with
                    | Some s => now <-- clock_now ;; mret (Some (now + s * 1000000000))
                    | None => mret None
                    end) ;;
      out <-- host_loop fuel deadline h ;;
      match out.1 with
      | None => mret out
      | Some _ => SetConsoleCtrlHandler false ;;; mret out
      end.

(** The window of the tray is bound to the source of raw input. *)
Definition attach_raw_input : M B (Result unit) := λ b,
  let '((r, source), b') := Attach (tray_window b) (raw_input b) b in
  (r, put_raw_input source b').

(** [None] when the tray could not be started; otherwise whether raw input was
    attached. *)
Definition start_tray (f : ConsoleFlags) (marker : string) : M B (option bool) :=
  if negb (useTray f) then mret (Some false)
  else
    (if ipcFacts f then λ b, (tt, put_raw_input (NewRawInput true true) b) else mret tt) ;;;
    started <-- tray_start ;;
    match started with
    | Failure _ => (if ipcFacts f then ClearRecoveryMarker marker ;;; mret tt else mret tt) ;;;
                   mret None
    | Success _ =>
        if ipcFacts f then r <-- attach_raw_input ;; mret (Some (HasValue r))
        else mret (Some false)
    end.

(** The state of the host when its loop starts. *)
Definition console_state (f : ConsoleFlags) (c : HostConfig) (o : SessionOptions)
    (a : StartAnomalies) (attached : bool) : HostState :=
  if ipcFacts f then
    MkHostState 0 (Some (NewIntake o (start_guard c a)))
      (Some (NewHostPresenceTracker (presence_away_seconds c) 0)) (useTray f) attached 0
  else MkHostState 0 None None false false 0.

(** From the tray on: the exit code and the last state, or [None] while the host
    is still running. *)
Definition run_host (fuel : nat) (window : option Z) (f : ConsoleFlags) (h : bool → HostState)
    (marker : string) : M B (option (Z * option HostState)) :=
  attached <-- start_tray f marker ;;
  match attached with
  | None => mret (Some (2, None))
  | Some attached =>
      out <-- RunConsole fuel window (h attached) ;;
      match out.1 with
      | None => mret None
      | Some result =>
          (if useTray f then tray_stop else mret tt) ;;;
          (match ipc out.2 with Some _ => CloseServer | None => mret tt end) ;;;
          (if ipcFacts f then session_end marker (HasValue result) else mret tt) ;;;
          mret (Some (if HasValue result then 0 else 2, Some out.2))
      end
  end.
End Run.

(** ** The command *)

Record HostOutcome := MkHostOutcome {
  host_exit : Z;
  host_anomalies : StartAnomalies;
  host_final : option HostState
}.

Definition host_refused : HostOutcome := MkHostOutcome 2 no_anomalies None.

Section Command.
Context {B Node : Type} `{SystemMessages} `{WideLibrary} `{WideCtype}.
Context `{SteadyClock B} `{Clock B} `{Folders B} `{FileSystem B, !FileRemoval B}.
Context `{IpcServerBackend B} `{MemoryApi B} `{LastInputBackend B} `{TrayInput B}.
Context `{StopSignal B} `{RawInputApi B} `{TrayApi B} `{ConsoleApi B}.
Context `{InstanceApi B} `{Modules B} `{PlatformApi B} `{Toml Node} `{TomlFiles B Node}.

(** The host that takes in agents, under the lock. *)
Definition run_intake (path_of : wstring → string) (fuel : nat) (window : option Z)
    (args : list wstring) (f : ConsoleFlags) (c : HostConfig) : M B (option HostOutcome) := λ b,
  match console_session path_of args b with
  | None => (Some host_refused, b)
  | Some o =>
      let marker := DefaultRecoveryMarkerPath b in
      (a <-- start_anomalies c (confirmRecovery f) marker ;;
       out <-- run_host fuel window f (console_state f c o a) marker ;;
       mret ((λ out, MkHostOutcome out.1 a out.2) <$> out)) b
  end.

(** [timeText] is the argument after [console], [named] the configuration if one
    is given, [args] the arguments after these. [None] is a host that is still
    running. What is logged and printed is not modelled. *)
Definition RunServiceConsoleCommand (path_of : wstring → string) (fuel : nat)
    (timeText : option wstring) (named : option string) (args : list wstring) :
    M B (option HostOutcome) := λ b,
  match timeText ≫= console_window with
  | None => (Some host_refused, b)
  | Some window =>
      let f := console_flags args in
      match host_config named b with
      | None => (Some host_refused, b)
      | Some c =>
          if negb (ipcFacts f) then
            (out <-- run_host fuel window f
                       (console_state f c (MkOptions 0 None false [] []) no_anomalies) "" ;;
             mret ((λ out, MkHostOutcome out.1 no_anomalies out.2) <$> out)) b
          else
            (name <-- DefaultHostInstanceName ;;
             lock <-- TryAcquireHostInstance (default [] name) ;;
             match lock with
             | None => mret (Some host_refused)
             | Some handle =>
                 out <-- run_intake path_of fuel window args f c ;;
                 match out with
                 | None => mret None
                 | Some _ => close_mutex handle ;;; mret out
                 end
             end) b
      end
  end.
End Command.

(** ** Theorems *)

(** Only accepting lets a client in, and nothing turns the clock back. *)
Class ConsoleLaws (B : Type) `{HostLaws B} `{!FileRemoval B} `{TrayInput B} `{RawInputApi B}
    `{TrayApi B} `{ConsoleApi B} `{InstanceApi B} `{Modules B} `{PlatformApi B} := {
  handler_clients on : preserves clients (SetConsoleCtrlHandler on);
  tray_start_clients : preserves clients tray_start;
  tray_stop_clients : preserves clients tray_stop;
  raw_clients ds : preserves clients (RegisterRawInputDevices ds);
  put_raw_clients r b : clients (put_raw_input r b) = clients b;
  module_clients n : preserves clients (GetModuleHandleW n);
  proc_clients n : preserves clients (GetProcAddress n);
  version_clients : preserves clients RtlGetVersion;
  architecture_clients : preserves clients wProcessorArchitecture;
  mutex_clients n : preserves clients (CreateMutexW n);
  close_mutex_clients h : preserves clients (close_mutex h);
  user_clients n : preserves clients (GetUserNameW n);
  remove_clients p : preserves clients (remove_ec p);
  marker_clients p t : preserves clients (write_trunc p t);
  close_clients : preserves clients CloseServer;
  handler_time on : advances (SetConsoleCtrlHandler on)
}.
#[export] Hint Extern 1 (preserves _ _) =>
  first [apply handler_clients | apply tray_start_clients | apply tray_stop_clients
        | apply raw_clients | apply module_clients | apply proc_clients | apply version_clients
        | apply architecture_clients | apply mutex_clients | apply close_mutex_clients
        | apply user_clients | apply remove_clients | apply marker_clients
        | apply close_clients] : frame.

Section Theorems.
Context {B Node : Type} `{ConsoleLaws B} `{SystemMessages} `{WideLibrary} `{WideCtype}.
Context `{!Clock B} `{!Folders B} `{Toml Node} `{TomlFiles B Node}.









Lemma instance_clients :
  preserves clients (DefaultHostInstanceName (B := B)) ∧
  ∀ name, preserves clients (TryAcquireHostInstance (B := B) name).
Proof.
  split.
  - unfold DefaultHostInstanceName. generalize 962%nat, 64. intros fuel.
    induction fuel as [|fuel IH]; intros size; cbn [host_name]; frame.
  - intros name. unfold TryAcquireHostInstance. frame.
Qed.

(** What the command finds before its host starts, if it takes in agents. *)
Lemma command_started path_of fuel timeText named args b out b' :
  ipcFacts (console_flags args) = true →
  RunServiceConsoleCommand path_of fuel timeText named args b = (Some out, b') →
  (out = host_refused ∧ clients b' = clients b) ∨
  ∃ window c b1 b2, timeText ≫= console_window = Some window ∧ host_config named b = Some c ∧
    clients b1 = clients b ∧ clients b' = clients b2 ∧
    run_intake path_of fuel window args (console_flags args) c b1 = (Some out, b2).
Proof.
  intros Hf. unfold RunServiceConsoleCommand.
  destruct (timeText ≫= console_window) as [window|]; [|intros [= <- <-]; by left].
  destruct (host_config named b) as [c|]; [|intros [= <- <-]; by left].
  rewrite Hf. cbn [negb]. unfold mthen, mret. destruct instance_clients as [Hname Hlock].
  destruct (DefaultHostInstanceName b) as [name b1] eqn:E1.
  apply (preserves_run _ _ _ _ _ Hname) in E1.
  destruct (TryAcquireHostInstance (default [] name) b1) as [lock b2] eqn:E2.
  apply (preserves_run _ _ _ _ _ (Hlock _)) in E2.
  destruct lock as [handle|]; [|intros [= <- <-]; left; split; [done|congruence]].
  destruct (run_intake _ _ _ _ _ _ b2) as [[o|] b3] eqn:E3; [|done].
  destruct (close_mutex handle b3) as [u b4] eqn:E4.
  apply (preserves_run _ _ _ _ _ (close_mutex_clients handle)) in E4. intros [= <- <-].
  right. exists window, c, b2, b3. split_and!; [done|done|congruence|done|done].
Qed.










(** C34. A host with a window of seconds ends: 61 ticks are enough, whatever its
    clients do and whether or not somebody asks it to stop. *)
Theorem console_window_ends path_of fuel text named args b :
  (61 <= fuel)%nat → is_arg "run" text = false →
  (RunServiceConsoleCommand path_of fuel (Some text) named args b).1 ≠ None.
Proof.
  intros Hfuel Hrun.
  assert (∀ s h b, s <= 60 → (RunConsole fuel (Some s) h b).1.1 ≠ None) as Hconsole.
  { intros s h b0 Hs. unfold RunConsole. destruct (Z.leb_spec s 0); [done|].
    unfold mthen, mret. destruct (SetConsoleCtrlHandler true b0) as [ok b1]. destruct ok; [|done].
    cbn [negb]. destruct (clock_now b1) as [now b2] eqn:Ec. apply clock_run in Ec.
    pose proof (host_loop_ends fuel (now + s * 1000000000) h b2 ltac:(lia)) as Hends.
    destruct (host_loop _ _ _ b2) as [[r h'] b3]. cbn [fst snd] in *. destruct r.
    - by destruct (SetConsoleCtrlHandler false b3).
    - exfalso. apply Hends; [|done]. left. unfold ns, kTickIntervalMs. lia. }
  assert (∀ s f h m b, s <= 60 → (run_host fuel (Some s) f h m b).1 ≠ None) as Hhost.
  { intros s f h m b0 Hs. unfold run_host. unfold mthen, mret.
    destruct (start_tray f m b0) as [[att|] b1]; [|done].
    specialize (Hconsole s (h att) b1 Hs). destruct (RunConsole _ _ _ b1) as [[r h'] b2].
    cbn [fst snd] in *. destruct r as [r|]; [|done].
    repeat match goal with |- context [let (_, _) := ?x in _] => destruct x end. done. }
  unfold RunServiceConsoleCommand. cbn [mbind option_bind].
  destruct (console_window text) as [window|] eqn:Ew; [|done].
  assert (∃ s, window = Some s ∧ s <= 60) as (s & -> & Hs).
  { unfold console_window in Ew. rewrite Hrun in Ew.
    destruct (ParseUint32 text) as [n|] eqn:Ep; [|done].
    destruct (_ || _) eqn:E; simplify_eq. unfold kMaxConsoleSeconds in E. b2p.
    exists n. split; [done|lia]. }
  destruct (host_config named b) as [c|]; [|done].
  destruct (negb _); unfold mthen, mret.
  - match goal with |- context [run_host fuel (Some s) ?f ?h ?m b] =>
      pose proof (Hhost s f h m b Hs); destruct (run_host fuel (Some s) f h m b) as [[o|] b1] end;
      done.
  - destruct (DefaultHostInstanceName b) as [name b1].
    destruct (TryAcquireHostInstance _ b1) as [[handle|] b2]; [|done].
    unfold run_intake. destruct (console_session path_of args b2) as [o|];
      [|by destruct (close_mutex handle b2)].
    unfold mthen, mret. destruct (start_anomalies _ _ _ b2) as [a b3].
    match goal with |- context [run_host fuel (Some s) ?f ?h ?m b3] =>
      pose proof (Hhost s f h m b3 Hs); destruct (run_host fuel (Some s) f h m b3) as [[o'|] b4] end;
      [|done]. cbn. by destruct (close_mutex handle b4).
Qed.
End Theorems.

(** *** Options without their value *)

(** An [--ipc-token] or [--ipc-allow-user] that comes last is ignored without a
    word, and the host runs open to everybody. *)
Lemma dangling_option_opens_host `{SystemMessages} `{FileSystem B} `{Folders B} path_of (b : B) :
  let open := MkOptions 3000 (Some DefaultClientGate) true [] [] in
  console_session path_of [widen "--ipc-facts"; widen "--ipc-token"] b = Some open ∧
  console_session path_of [widen "--ipc-facts"; widen "--ipc-allow-user"] b = Some open.
Proof. by vm_compute. Qed.

(** A credential that is given with its option is asked for. *)
Lemma console_token_asked `{SystemMessages} `{FileSystem B} `{Folders B} path_of args (b : B) t tok :
  FindIpcToken args = Some t → console_token path_of args b = Some tok → tok ≠ [].
Proof.
  unfold console_token. intros ->. destruct (IsValidIpcToken t) eqn:Ev; [|done]. cbn [negb].
  assert (∀ w, IsValidIpcToken w = true → w ≠ []) as Hne by (by intros w Hw ->).
  destruct (FindIpcTokenFile args b) as [f|]; [|intros [= <-]; by apply Hne].
  destruct (ReadAgentTokenFile (path_of f) b) as [stored|] eqn:Er; intros [= <-].
  apply ReadAgentTokenFile_iff in Er as (s & ws & _ & _ & _ & Hv & _). by apply Hne.
Qed.

(** ** Examples *)

Section Examples.
Import Site.

#[local] Instance site_removal : FileRemoval Site := λ p, on_part site_fs with_fs (remove_ec p).
#[local] Instance site_raw : RawInputApi Site := {|
  RegisterRawInputDevices _ := mret true; raw_input_error _ := 0
|}.
#[local] Instance site_tray_icon : TrayApi Site := {|
  tray_start := mret (Success tt); tray_window _ := 1; tray_stop := mret tt
|}.
#[local] Instance site_console : ConsoleApi Site := {|
  SetConsoleCtrlHandler _ := mret true; console_error _ := 0
|}.
#[local] Instance site_instance : InstanceApi Site := {|
  CreateMutexW _ := mret (Some 1); mutex_error _ := 0; close_mutex _ := mret tt;
  GetUserNameW _ := mret (true, 2, [117])
|}.
#[local] Instance site_modules : Modules Site := {|
  GetModuleHandleW _ := mret true; GetProcAddress _ := mret true
|}.
#[local] Instance site_platform : PlatformApi Site := {|
  RtlGetVersion := mret (0, MkOsVersion 10 0 19045); GetSystemPowerStatus := mret None;
  wProcessorArchitecture := mret 9; platform_error _ := 0
|}.
#[local] Existing Instance plain_ctype.
(** An empty file is an empty document, any other text is broken. *)
#[local] Instance site_documents : TomlFiles Site tree := λ p s,
  match files (site_fs s) !! p with Some "" => inl [] | _ => inr "broken" end.

#[local] Instance site_console_laws : ConsoleLaws Site.
Proof. split; intros; try intros s; cbn; try done; try lia; by destruct (refuses _ _). Defined.

Definition requeue (queue : list (Z * Z * list byte)) (s : Site) : Site :=
  MkSite (site_now s) (site_fs s) queue (site_client s) (site_served s) (site_idle s).

Definition console (text : string) : M Site (option HostOutcome) :=
  RunServiceConsoleCommand (λ _, "") 62 (Some (widen text)) None [widen "--ipc-facts"].

Definition polite : list (Z * Z * list byte) := [(10, 1, facts "observer=agent")].

(** One client can silence the host for good. It needs no identity and no
    credential, only a frame that is no frame: the run ends in failure, its
    marker stays, and the next start takes the failure for a crash and keeps
    every agent out until somebody confirms it on the command line. *)
Lemma one_client_silences_host :
  let '(run1, s1) := console "run" (site ((20, 1, repeat (byte_of_Z 0) 16) :: polite)) in
  let '(run2, s2) := console "5" (requeue polite s1) in
  let '(run3, s3) := RunServiceConsoleCommand (λ _, "") 62 (Some (widen "5")) None
                       [widen "--ipc-facts"; widen "--confirm-recovery"] (requeue polite s1) in
  host_exit <$> run1 = Some 2 ∧ site_served s1 = 1%nat ∧
  host_exit <$> run2 = Some 0 ∧ ipcRecoveryUnconfirmed ∘ host_anomalies <$> run2 = Some true ∧
  site_served s2 = 1%nat ∧
  host_exit <$> run3 = Some 0 ∧ site_served s3 = 2%nat.
Proof. vm_compute. done. Qed.



Example console_window_ends_witness : (console "5" (site polite)).1 ≠ None.
Proof. apply (console_window_ends (λ _, "") 62 (widen "5")); [lia|reflexivity]. Defined.
End Examples.
