(* ===== verification/IpcTransport.v ===== *)
(** The named pipe itself ([ipc/ipc_transport.hpp],
    [source/ipc/ipc_transport.cpp]): overlapped reads and writes with a time
    limit, the server's end and the client's end of the pipe. They implement the
    interfaces that [IpcSession] and [IpcServer] are written against. *)

From stdpp Require Import gmultiset.
From S2P Require Import Prelude CommonError Timing IpcProtocol IpcSession IpcServer.

Open Scope string_scope.
Open Scope list_scope.
Open Scope Z_scope.

(** ** The calls *)

Definition ERROR_BROKEN_PIPE : Z := 109.
Definition ERROR_SEM_TIMEOUT : Z := 121.
Definition ERROR_PIPE_BUSY : Z := 231.
Definition ERROR_NO_DATA : Z := 232.
Definition ERROR_PIPE_NOT_CONNECTED : Z := 233.
Definition ERROR_PIPE_CONNECTED : Z := 535.
Definition ERROR_IO_PENDING : Z := 997.
Definition ERROR_WAIT_TIMEOUT : Z := 1460. (* [ERROR_TIMEOUT] *)
Definition WAIT_OBJECT_0 : Z := 0.
Definition WAIT_TIMEOUT : Z := 258.
Definition INFINITE : Z := 0xFFFFFFFF.
Definition PROCESS_QUERY_INFORMATION : Z := 0x0400.

(** For the system, the administrators and whoever is logged on. *)
Definition kPipeSddl : string := "D:P(A;;GA;;;SY)(A;;GA;;;BA)(A;;GA;;;IU)".

(** [None] is a failed call, and [pipe_error] then the last error: a transfer
    that goes on by itself fails with [ERROR_IO_PENDING]. An event stands for the
    [OVERLAPPED] that names it, and is named by its object, which an operation
    under way keeps. [GetOverlappedRead] is [GetOverlappedResult] for a read into
    a buffer of the size given, with the bytes that are then in it, and
    [GetOverlappedWrite] for a write of the bytes given. *)
Class PipeApi (B : Type) := {
  pipe_error : B → Z;
  CreateEventW : M B (option Z);
  CloseHandle : Z → M B unit;
  ReadFile : Z → nat → Z → M B (option (list byte));
  WriteFile : Z → list byte → Z → M B (option Z);
  WaitForSingleObject : Z → Z → M B Z;
  CancelIoEx : Z → Z → M B unit;
  GetOverlappedRead : Z → nat → Z → M B (option (list byte));
  GetOverlappedWrite : Z → list byte → Z → M B (option Z);
  GetOverlappedResult : Z → Z → M B bool
}.

(** Setting up the ends. The size of the user of a token, and the pointer to it
    in a buffer of that size, are two calls of [GetTokenInformation]. *)
Class PipeSystem (B : Type) := {
  ConvertStringSecurityDescriptor : string → M B (option Z);
  LocalFree : Z → M B unit;
  CreateNamedPipeW : string → Z → M B (option Z);
  ConnectNamedPipe : Z → Z → M B bool;
  DisconnectNamedPipe : Z → M B bool;
  GetNamedPipeClientProcessId : Z → M B (option Z);
  ProcessIdToSessionId : Z → M B (option Z);
  OpenProcess : Z → Z → M B (option Z);
  OpenProcessToken : Z → M B (option Z);
  TokenUserSize : Z → M B Z;
  TokenUser : Z → Z → M B (option Z);
  ConvertSidToStringSidW : Z → M B (option (Z * wstring));
  CreateFileW : string → M B (option Z);
  WaitNamedPipeW : string → Z → M B bool
}.

(** ** Overlapped transfers *)

Section Transfers.
Context {B : Type} `{PipeApi B} `{SteadyClock B}.

Definition last_code (b : B) : Z := u32 (pipe_error b).

(** Whether the operation ended by itself; otherwise it is cancelled, and its
    end awaited. *)
Definition WaitOverlapped (pipe ev remaining : Z) : M B bool :=
  result <-- WaitForSingleObject ev (u32 remaining) ;;
  if result =? WAIT_OBJECT_0 then mret true
  else CancelIoEx pipe ev ;;; WaitForSingleObject ev INFINITE ;;; mret false.

(** Milliseconds to the deadline. *)
Definition remaining_to (deadline : Z) : M B Z :=
  now <-- clock_now ;; mret (Z.quot (deadline - now) 1000000).

(** The end of an operation under way, unless the limit has run out. *)
Definition finish_transfer {A} (pipe deadline ev : Z) (result : M B (option A)) : M B (A + Z) :=
  remaining <-- remaining_to deadline ;;
  if remaining <=? 0 then mret (inr ERROR_WAIT_TIMEOUT)
  else
    ended <-- WaitOverlapped pipe ev remaining ;;
    if negb ended then mret (inr ERROR_WAIT_TIMEOUT)
    else
      out <-- result ;;
      match out with
      | None => λ b, (inr (last_code b), b)
      | Some a => mret (inl a)
      end.

Definition run_transfer {A} (pipe deadline ev : Z) (start result : M B (option A)) : M B (A + Z) :=
  out <-- start ;;
  match out with
  | Some a => mret (inl a)
  | None => λ b,
      let error := last_code b in
      if negb (error =? ERROR_IO_PENDING) then (inr error, b)
      else finish_transfer pipe deadline ev result b
  end.

(** One turn of the loops: what was transferred, or the error. *)
Definition transfer {A} (pipe deadline : Z) (start result : Z → M B (option A)) : M B (A + Z) :=
  created <-- CreateEventW ;;
  match created with
  | None => λ b, (inr (last_code b), b)
  | Some ev =>
      out <-- run_transfer pipe deadline ev (start ev) (result ev) ;;
      CloseHandle ev ;;;
      mret out
  end.

(** [n] bytes to go; no bytes is the end of the stream. *)
Fixpoint read_rest (pipe deadline : Z) (n : nat) (got : list byte) : M B (list byte + Z) :=
  match n with
  | O => mret (inl got)
  | S k =>
      out <-- transfer pipe deadline (ReadFile pipe n) (GetOverlappedRead pipe n) ;;
      match out with
      | inr code => mret (inr code)
      | inl [] => mret (inr ERROR_BROKEN_PIPE)
      | inl (c :: more) => read_rest pipe deadline (k - length more) (got ++ c :: more)
      end
  end.

Definition ReadAllOverlapped (pipe : Z) (n : nat) (timeout : Z) : M B (list byte + Z) :=
  match n with
  | O => mret (inl [])
  | _ =>
      now <-- clock_now ;;
      read_rest pipe (now + ns_of_millis timeout) n []
  end.

(** The last [n] bytes of [data] are to go. *)
Fixpoint write_rest (pipe deadline : Z) (data : list byte) (n : nat) : M B Z :=
  match n with
  | O => mret 0
  | S k =>
      let rest := drop (length data - n) data in
      out <-- transfer pipe deadline (WriteFile pipe rest) (GetOverlappedWrite pipe rest) ;;
      match out with
      | inr code => mret code
      | inl written =>
          if written =? 0 then mret ERROR_NO_DATA
          else write_rest pipe deadline data (k - Z.to_nat (written - 1))
      end
  end.

(** 0 is [ERROR_SUCCESS]. *)
Definition WriteAllOverlapped (pipe : Z) (data : list byte) (timeout : Z) : M B Z :=
  match data with
  | [] => mret 0
  | _ =>
      now <-- clock_now ;;
      write_rest pipe (now + ns_of_millis timeout) data (length data)
  end.
End Transfers.

(** ** The user of a client *)

Section Identity.
Context {B : Type} `{PipeApi B} `{PipeSystem B}.

(** A handle that is closed when [body] is through. *)
Definition with_closing {A} (opening : M B (option Z)) (failed : A) (body : Z → M B A) : M B A :=
  opened <-- opening ;;
  match opened with
  | None => mret failed
  | Some h => r <-- body h ;; CloseHandle h ;;; mret r
  end.

(** Empty on any failure. *)
Definition QueryClientUserSid (pid : Z) : M B wstring :=
  if pid =? 0 then mret []
  else
    with_closing (OpenProcess PROCESS_QUERY_INFORMATION pid) [] (λ process,
    with_closing (OpenProcessToken process) [] (λ token,
      needed <-- TokenUserSize token ;;
      if needed =? 0 then mret []
      else
        user <-- TokenUser token needed ;;
        match user with
        | None => mret []
        | Some sid =>
            if sid =? 0 then mret []
            else
              text <-- ConvertSidToStringSidW sid ;;
              match text with
              | None => mret []
              | Some (p, s) => if p =? 0 then mret [] else LocalFree p ;;; mret s
              end
        end)).
End Identity.

(** ** The server's end *)

(** [Win32IpcServerBackend]; [None] is an invalid handle. *)
Record ServerPipe := MkServerPipe {
  sp_name : string;
  sp_pipe : option Z;
  sp_pid : Z;
  sp_session : Z;
  sp_sid : wstring
}.

Definition NewServerPipe (pipeName : string) : ServerPipe := MkServerPipe pipeName None 0 0 [].

(** Nobody is connected. *)
Definition nobody (s : ServerPipe) : ServerPipe := MkServerPipe (sp_name s) (sp_pipe s) 0 0 [].
Definition set_pipe (h : option Z) (s : ServerPipe) : ServerPipe :=
  MkServerPipe (sp_name s) h (sp_pid s) (sp_session s) (sp_sid s).

Section ServerEnd.
Context {B : Type} `{SystemMessages} `{PipeApi B} `{PipeSystem B} `{SteadyClock B}.

Definition win32_failure {A} (op : string) : M B (Result A) := λ b,
  (Failure (FromWin32 (last_code b) op), b).

(** [pipe_.Reset()] *)
Definition reset_pipe (h : option Z) : M B unit :=
  match h with Some h => CloseHandle h | None => mret tt end.

Definition pipe_close : M (ServerPipe * B) unit := λ '(s, b),
  let b1 := match sp_pipe s with Some h => (DisconnectNamedPipe h b).2 | None => b end in
  let '(_, b2) := reset_pipe (sp_pipe s) b1 in
  (tt, (nobody (set_pipe None s), b2)).

Definition pipe_create : M (ServerPipe * B) (Result unit) := λ '(s, b),
  match sp_pipe s with
  | Some _ => (Success tt, (s, b))
  | None =>
      let '(_, (s, b)) := pipe_close (s, b) in
      let '(descriptor, b) := ConvertStringSecurityDescriptor kPipeSddl b in
      match descriptor with
      | None =>
          let '(r, b) := win32_failure "ConvertStringSecurityDescriptorToSecurityDescriptorW" b in
          (r, (s, b))
      | Some d =>
          let '(created, b) := CreateNamedPipeW (sp_name s) d b in
          match created with
          | None =>
              let '(r, b) := (win32_failure "CreateNamedPipeW") b in
              let '(_, b) := LocalFree d b in (r, (s, b))
          | Some h =>
              let '(_, b) := LocalFree d b in
              (Success tt, (nobody (set_pipe (Some h) s), b))
          end
      end
  end.

(** Who is at the other end; what cannot be had stays zero or empty. *)
Definition client_identity (pipe : Z) : M B (Z * Z * wstring) :=
  asked <-- GetNamedPipeClientProcessId pipe ;;
  let pid := match asked with Some p => u32 p | None => 0 end in
  if pid =? 0 then mret (0, 0, [])
  else
    session <-- ProcessIdToSessionId pid ;;
    sid <-- QueryClientUserSid pid ;;
    mret (pid, match session with Some s => u32 s | None => 0 end, sid).

(** Waits for a client, at most [timeout] milliseconds. *)
Definition await_client (pipe timeout ev : Z) : M B (Result unit) :=
  connected <-- ConnectNamedPipe pipe ev ;;
  if connected : bool then mret (Success tt)
  else λ b,
    let error := last_code b in
    if error =? ERROR_PIPE_CONNECTED then (Success tt, b)
    else if error =? ERROR_IO_PENDING then
      (waitResult <-- WaitForSingleObject ev (u32 timeout) ;;
       if waitResult =? WAIT_TIMEOUT then
         CancelIoEx pipe ev ;;; WaitForSingleObject ev INFINITE ;;;
         mret (Failure (FromWin32 ERROR_WAIT_TIMEOUT "ConnectNamedPipe"))
       else if negb (waitResult =? WAIT_OBJECT_0) then
         CancelIoEx pipe ev ;;; WaitForSingleObject ev INFINITE ;;;
         win32_failure "ConnectNamedPipe"
       else
         ended <-- GetOverlappedResult pipe ev ;;
         if negb ended then win32_failure "GetOverlappedResult" else mret (Success tt)) b
    else (Failure (FromWin32 error "ConnectNamedPipe"), b).

Definition accept_on (pipe timeout : Z) : M B (Result (Z * Z * wstring)) :=
  opened <-- CreateEventW ;;
  match opened with
  | None => win32_failure "CreateEventW"
  | Some ev =>
      r <-- (waited <-- await_client pipe timeout ev ;;
             match waited with
             | Failure e => mret (Failure e)
             | Success _ => who <-- client_identity pipe ;; mret (Success who)
             end) ;;
      CloseHandle ev ;;;
      mret r
  end.

Definition pipe_accept (timeout : Z) : M (ServerPipe * B) (Result unit) := λ '(s, b),
  match sp_pipe s with
  | None => (Failure (Validation "AcceptClient" "管道未创建"), (s, b))
  | Some h =>
      let '(r, b) := accept_on h timeout b in
      match r with
      | Failure e => (Failure e, (nobody s, b))
      | Success (pid, session, sid) =>
          (Success tt, (MkServerPipe (sp_name s) (Some h) pid session sid, b))
      end
  end.

(** The transfers of both ends. *)
Definition read_pipe (missing : string) (h : option Z) (n : nat) (timeout : Z) :
    M B (Result (list byte)) :=
  match h with
  | None => mret (Failure (Validation "ReadAll" missing))
  | Some h =>
      out <-- ReadAllOverlapped h n timeout ;;
      mret (match out with
            | inl bytes => Success bytes
            | inr code => Failure (FromWin32 code "ReadAll")
            end)
  end.

Definition write_pipe (missing : string) (h : option Z) (data : list byte) (timeout : Z) :
    M B (Result unit) :=
  match h with
  | None => mret (Failure (Validation "WriteAll" missing))
  | Some h =>
      error <-- WriteAllOverlapped h data timeout ;;
      mret (if negb (error =? 0) then Failure (FromWin32 error "WriteAll") else Success tt)
  end.

Definition pipe_disconnect : M (ServerPipe * B) (Result unit) := λ '(s, b),
  match sp_pipe s with
  | None => (Success tt, (s, b))
  | Some h =>
      let '(ok, b) := DisconnectNamedPipe h b in
      if negb ok && negb (last_code b =? ERROR_PIPE_NOT_CONNECTED)
      then (Failure (FromWin32 (last_code b) "DisconnectNamedPipe"), (s, b))
      else (Success tt, (nobody s, b))
  end.

Definition on_pipe {A} (m : ServerPipe → M B A) : M (ServerPipe * B) A := λ '(s, b),
  let '(a, b') := m s b in (a, (s, b')).

#[export] Instance Win32IpcServerBackend : IpcServerBackend (ServerPipe * B) := {|
  CreateAndListen := pipe_create;
  AcceptClient := pipe_accept;
  ReadAll n timeout := on_pipe (λ s, read_pipe "管道未创建" (sp_pipe s) n timeout);
  WriteAll data timeout := on_pipe (λ s, write_pipe "管道未创建" (sp_pipe s) data timeout);
  DisconnectClient := pipe_disconnect;
  CloseServer := pipe_close;
  ClientPid s := sp_pid s.1;
  ClientSessionId s := sp_session s.1;
  ClientUserSid s := sp_sid s.1;
  steady_now := on_pipe (λ _, clock_now)
|}.
End ServerEnd.

(** ** The client's end *)

(** [Win32IpcClientBackend]: its handle. *)
Definition ClientPipe : Type := option Z.

Section ClientEnd.
Context {B : Type} `{SystemMessages} `{PipeApi B} `{PipeSystem B} `{SteadyClock B}.

(** [None]: still trying after [fuel] turns. *)
Fixpoint connect_loop (fuel : nat) (path : string) (deadline : Z) : M B (option (Result Z)) :=
  match fuel with
  | O => mret None
  | S fuel' =>
      opened <-- CreateFileW path ;;
      match opened with
      | Some h => mret (Some (Success h))
      | None => λ b,
          let error := last_code b in
          if negb (error =? ERROR_PIPE_BUSY)
          then (Some (Failure (FromWin32 error "CreateFileW")), b)
          else
            (remaining <-- remaining_to deadline ;;
             if remaining <=? 0
             then mret (Some (Failure (FromWin32 ERROR_WAIT_TIMEOUT "WaitNamedPipeW")))
             else
               ready <-- WaitNamedPipeW path (u32 remaining) ;;
               if ready : bool then connect_loop fuel' path deadline
               else λ b,
                 let waitError := last_code b in
                 if waitError =? ERROR_SEM_TIMEOUT then connect_loop fuel' path deadline b
                 else (Some (Failure (FromWin32 waitError "WaitNamedPipeW")), b)) b
      end
  end.

(** A turn that waits takes time, so that these turns are enough
    ([connect_loop_enough]). *)
Definition connect_fuel (timeout : Z) : nat := S (Z.to_nat (ns_of_millis timeout)).

Definition pipe_connect (path : string) (timeout : Z) : M (ClientPipe * B) (Result unit) := λ '(h, b),
  let '(_, b) := reset_pipe h b in
  let '(now, b) := clock_now b in
  let '(r, b) := connect_loop (connect_fuel timeout) path (now + ns_of_millis timeout) b in
  match r with
  | Some (Success h) => (Success tt, (Some h, b))
  | Some (Failure e) => (Failure e, (None, b))
  | None => (Failure (FromWin32 ERROR_WAIT_TIMEOUT "WaitNamedPipeW"), (None, b))
  end.

Definition on_client {A} (m : ClientPipe → M B A) : M (ClientPipe * B) A := λ '(h, b),
  let '(a, b') := m h b in (a, (h, b')).

#[export] Instance Win32IpcClientBackend : IpcClientBackend (ClientPipe * B) := {|
  Connect := pipe_connect;
  ClientWriteAll data timeout := on_client (λ h, write_pipe "未连接" h data timeout);
  ClientReadAll n timeout := on_client (λ h, read_pipe "未连接" h n timeout);
  CloseClient := λ '(h, b), let '(_, b) := reset_pipe h b in (tt, (None, b))
|}.
End ClientEnd.

(** ** What is relied on *)

(** An operation that goes on by itself. *)
Inductive Transfer :=
  | Reading (h : Z) (n : nat) | Writing (h : Z) (data : list byte) | Connecting (h : Z).

(** What the process holds of the system: handles, and operations under way, by
    their events, as far as it has not seen their end; and the bytes each pipe
    has given and taken. *)
Record PipeView := MkView {
  pv_held : gmultiset Z;
  pv_pending : gmap Z Transfer;
  pv_in : gmap Z (list byte);
  pv_out : gmap Z (list byte)
}.

Definition stream (m : gmap Z (list byte)) (h : Z) : list byte := default [] (m !! h).

Definition opened (h : Z) (v : PipeView) : PipeView :=
  MkView (pv_held v ⊎ {[+ h +]}) (pv_pending v) (pv_in v) (pv_out v).
Definition closed (h : Z) (v : PipeView) : PipeView :=
  MkView (pv_held v ∖ {[+ h +]}) (pv_pending v) (pv_in v) (pv_out v).
Definition started (ev : Z) (op : Transfer) (v : PipeView) : PipeView :=
  MkView (pv_held v) (<[ev := op]> (pv_pending v)) (pv_in v) (pv_out v).
Definition settled (ev : Z) (v : PipeView) : PipeView :=
  MkView (pv_held v) (delete ev (pv_pending v)) (pv_in v) (pv_out v).
Definition took (h : Z) (bytes : list byte) (v : PipeView) : PipeView :=
  MkView (pv_held v) (pv_pending v) (<[h := stream (pv_in v) h ++ bytes]> (pv_in v)) (pv_out v).
Definition gave (h : Z) (bytes : list byte) (v : PipeView) : PipeView :=
  MkView (pv_held v) (pv_pending v) (pv_in v) (<[h := stream (pv_out v) h ++ bytes]> (pv_out v)).

(** A transfer that goes on by itself is under way; another failure changes
    nothing. *)
Definition start_view {B A} `{PipeApi B} (ev : Z) (op : Transfer) (r : option A)
    (moves : A → PipeView → PipeView) (v : PipeView) (b' : B) : PipeView :=
  match r with
  | Some a => moves a v
  | None => if last_code b' =? ERROR_IO_PENDING then started ev op v else v
  end.

Definition opened_view (r : option Z) (v : PipeView) : PipeView :=
  match r with Some h => opened h v | None => v end.

Definition written_view (pipe : Z) (data : list byte) (k : Z) : PipeView → PipeView :=
  gave pipe (take (Z.to_nat k) data).

(** An operation that is asked to stop, but ends as it would have without. *)
Definition completed (op : Transfer) (v v' : PipeView) : Prop :=
  match op with
  | Reading h n => ∃ bs, (length bs <= n)%nat ∧ v' = took h bs v
  | Writing h data => ∃ k, 0 <= k <= len data ∧ v' = written_view h data k v
  | Connecting _ => v' = v
  end.

(** Documented behaviour: what is opened is closed by [CloseHandle] alone; an
    event that is signalled says its operation has ended, and one whose operation
    was cancelled is signalled in the end, when the operation may all the same
    have moved its bytes; no transfer is larger than asked for. *)
Class PipeLaws (B : Type) `{PipeApi B, PipeSystem B, SteadyClock B} := {
  view : B → PipeView;
  event_view b r b' : CreateEventW b = (r, b') → view b' = opened_view r (view b);
  event_fresh b ev b' : CreateEventW b = (Some ev, b') → pv_pending (view b) !! ev = None;
  close_view h b : view (CloseHandle h b).2 = closed h (view b);
  read_view h n ev b r b' : ReadFile h n ev b = (r, b') →
    view b' = start_view ev (Reading h n) r (took h) (view b) b' ∧ ∀ bs, r = Some bs → (length bs <= n)%nat;
  read_result_view h n ev b r b' : GetOverlappedRead h n ev b = (r, b') →
    view b' = match r with Some bs => took h bs (view b) | None => view b end ∧
    ∀ bs, r = Some bs → (length bs <= n)%nat;
  write_view h data ev b r b' : WriteFile h data ev b = (r, b') →
    view b' = start_view ev (Writing h data) r (written_view h data) (view b) b' ∧ ∀ k, r = Some k → 0 <= k <= len data;
  write_result_view h data ev b r b' : GetOverlappedWrite h data ev b = (r, b') →
    view b' = match r with Some k => written_view h data k (view b) | None => view b end ∧
    ∀ k, r = Some k → 0 <= k <= len data;
  result_view h ev : preserves view (GetOverlappedResult h ev);
  wait_view ev ms b r b' : WaitForSingleObject ev ms b = (r, b') →
    view b' = if r =? WAIT_OBJECT_0 then settled ev (view b) else view b;
  wait_forever ev b : (WaitForSingleObject ev INFINITE b).1 = WAIT_OBJECT_0;
  cancel_view h ev b : view (CancelIoEx h ev b).2 = view b ∨
    ∃ op, pv_pending (view b) !! ev = Some op ∧ completed op (view b) (view (CancelIoEx h ev b).2);
  connect_view h ev b r b' : ConnectNamedPipe h ev b = (r, b') →
    view b' = if negb r && (last_code b' =? ERROR_IO_PENDING) then started ev (Connecting h) (view b) else view b;
  create_view name d b r b' : CreateNamedPipeW name d b = (r, b') → view b' = opened_view r (view b);
  file_view path b r b' : CreateFileW path b = (r, b') → view b' = opened_view r (view b);
  process_view a pid b r b' : OpenProcess a pid b = (r, b') → view b' = opened_view r (view b);
  token_view p b r b' : OpenProcessToken p b = (r, b') → view b' = opened_view r (view b);
  descriptor_view s : preserves view (ConvertStringSecurityDescriptor s);
  free_view p : preserves view (LocalFree p);
  disconnect_view h : preserves view (DisconnectNamedPipe h);
  client_view h : preserves view (GetNamedPipeClientProcessId h);
  session_view pid : preserves view (ProcessIdToSessionId pid);
  size_view h : preserves view (TokenUserSize h);
  user_view h n : preserves view (TokenUser h n);
  text_view p : preserves view (ConvertSidToStringSidW p);
  event_error b b' : CreateEventW b = (None, b') → last_code b' ≠ 0;
  write_error h data ev b b' : WriteFile h data ev b = (None, b') → last_code b' ≠ 0;
  write_result_error h data ev b b' : GetOverlappedWrite h data ev b = (None, b') → last_code b' ≠ 0;
  busy_view path ms : preserves view (WaitNamedPipeW path ms);
  clock_view : preserves view clock_now
}.

(** Nothing turns the clock back, and to wait for a pipe takes time. *)
Class PipeTime (B : Type) `{TimeLaws B} `{!PipeApi B} := {
  event_time : advances CreateEventW;
  close_handle_time h : advances (CloseHandle h);
  read_file_time h n ev : advances (ReadFile h n ev);
  write_file_time h data ev : advances (WriteFile h data ev);
  wait_time ev ms : advances (WaitForSingleObject ev ms);
  cancel_time h ev : advances (CancelIoEx h ev);
  read_result_time h n ev : advances (GetOverlappedRead h n ev);
  write_result_time h data ev : advances (GetOverlappedWrite h data ev)
}.

Class PipeWaitTime (B : Type) `{TimeLaws B} `{!PipeSystem B} := {
  open_pipe_time path : advances (CreateFileW path);
  busy_time path ms b : time b < time (WaitNamedPipeW path ms b).2
}.

#[export] Hint Resolve event_time close_handle_time read_file_time write_file_time wait_time
  cancel_time read_result_time write_result_time open_pipe_time : advance.

(** ** A transfer and what it leaves *)

Lemma closed_opened h v : closed h (opened h v) = v.
Proof.
  destruct v. unfold closed, opened. cbn. f_equal. multiset_solver.
Qed.

Lemma settled_started ev op v : pv_pending v !! ev = None → settled ev (started ev op v) = v.
Proof.
  intros Hev. destruct v. unfold settled, started. cbn in *. f_equal. by rewrite delete_insert_id.
Qed.

(** The limit has less than a millisecond to go. *)
Definition expired {B} `{TimeLaws B} (deadline : Z) (b : B) : Prop := deadline - time b < 1000000.

Section TransferTime.
Context {B : Type} `{TimeLaws B, !PipeApi B, !PipeTime B}.

Lemma remaining_advances deadline : advances (remaining_to deadline).
Proof. unfold remaining_to. advance. Qed.

Lemma transfer_advances {A} pipe deadline (start result : Z → M B (option A)) :
  (∀ ev, advances (start ev)) → (∀ ev, advances (result ev)) →
  advances (transfer pipe deadline start result).
Proof.
  intros Hs Hr. assert (Hf : ∀ ev, advances (finish_transfer pipe deadline ev (result ev))).
  { intros ev. unfold finish_transfer, WaitOverlapped. pose proof remaining_advances. advance. }
  unfold transfer, run_transfer. advance.
  intros b. cbv zeta. destruct (negb _); [cbn; lia|]. by apply Hf.
Qed.

Lemma ReadAllOverlapped_advances pipe n timeout : advances (ReadAllOverlapped pipe n timeout).
Proof.
  unfold ReadAllOverlapped. destruct n as [|k]; [advance|]. apply advances_bind; [advance|].
  intros now. generalize (S k), (@nil byte). clear k. intros n.
  induction n as [n IH] using lt_wf_ind. intros got. destruct n as [|k]; cbn [read_rest]; [advance|].
  apply advances_bind; [apply transfer_advances; auto with advance|].
  intros [[|c more]|code]; [advance| |advance]. apply IH. lia.
Qed.

Lemma WriteAllOverlapped_advances pipe data timeout : advances (WriteAllOverlapped pipe data timeout).
Proof.
  unfold WriteAllOverlapped. destruct data as [|c data']; [advance|]. apply advances_bind; [advance|].
  intros now. generalize (length (c :: data')). intros n.
  induction n as [n IH] using lt_wf_ind. destruct n as [|k]; cbn [write_rest]; [advance|].
  apply advances_bind; [apply transfer_advances; auto with advance|].
  intros [w|code]; [|advance]. destruct (w =? 0); [advance|]. apply IH. lia.
Qed.
End TransferTime.

Section TransferLaws.
Context {B : Type} `{PipeLaws B} `{!Sleeping B, !TimeLaws B} `{!PipeTime B}.

Section OneTransfer.
Context {A : Type} (pipe deadline : Z) (op : Transfer) (start result : Z → M B (option A)).
Context (fin fout : A → gmap Z (list byte) → gmap Z (list byte)) (fits : A → Prop).

Definition moves (a : A) (v : PipeView) : PipeView :=
  MkView (pv_held v) (pv_pending v) (fin a (pv_in v)) (fout a (pv_out v)).

(** What is transferred is what is answered; or nothing; or, when the limit
    stopped the wait, what the system had transferred all the same. *)
Definition outcome (r : A + Z) (v v' : PipeView) : Prop :=
  match r with
  | inl a => fits a ∧ v' = moves a v
  | inr code => v' = v ∨ code = ERROR_WAIT_TIMEOUT ∧ ∃ a, fits a ∧ v' = moves a v
  end.

Hypothesis Hstart : ∀ ev b r b', start ev b = (r, b') →
  view b' = start_view ev op r moves (view b) b' ∧ ∀ a, r = Some a → fits a.
Hypothesis Hresult : ∀ ev b r b', result ev b = (r, b') →
  view b' = match r with Some a => moves a (view b) | None => view b end ∧ ∀ a, r = Some a → fits a.
Hypothesis Hop : ∀ v v', completed op v v' → ∃ a, fits a ∧ v' = moves a v.

(** The wait that gives up: the operation is cancelled and has ended. *)
Lemma WaitOverlapped_spec ev ms b r b' v :
  pv_pending v !! ev = None → view b = started ev op v → WaitOverlapped pipe ev ms b = (r, b') →
  view b' = v ∨ r = false ∧ ∃ a, fits a ∧ view b' = moves a v.
Proof.
  intros Hev Hv. unfold WaitOverlapped, mthen, mret.
  destruct (WaitForSingleObject ev _ b) as [w b2] eqn:E2. apply wait_view in E2. rewrite Hv in E2.
  destruct (w =? WAIT_OBJECT_0).
  { intros [= <- <-]. left. by rewrite E2, settled_started. }
  pose proof (cancel_view pipe ev b2) as Hc. destruct (CancelIoEx pipe ev b2) as [[] b3].
  cbn [snd] in Hc. rewrite E2 in Hc.
  destruct (WaitForSingleObject ev INFINITE b3) as [w' b4] eqn:E4.
  pose proof (wait_forever ev b3) as Hw. rewrite E4 in Hw. cbn in Hw. subst w'.
  apply wait_view in E4. cbn [Z.eqb WAIT_OBJECT_0] in E4. intros [= <- <-].
  destruct Hc as [Hc|(op' & Hop' & Hc)].
  - left. by rewrite E4, Hc, settled_started.
  - right. split; [done|]. cbn in Hop'. rewrite lookup_insert_eq in Hop'. injection Hop' as <-.
    apply Hop in Hc as (a & Ha & Hc). exists a. split; [done|]. rewrite E4, Hc.
    exact (settled_started ev op (moves a v) Hev).
Qed.

Lemma finish_spec ev b r b' v :
  pv_pending v !! ev = None → view b = started ev op v →
  finish_transfer pipe deadline ev (result ev) b = (r, b') →
  outcome r v (view b') ∨
  r = inr ERROR_WAIT_TIMEOUT ∧ expired deadline b' ∧ view b' = started ev op v.
Proof.
  intros Hev Hv. unfold finish_transfer, remaining_to, mthen, mret.
  destruct (clock_now b) as [now b1] eqn:E1. pose proof (clock_run _ _ _ E1) as Ht.
  apply (preserves_run view _ _ _ _ clock_view) in E1. rewrite Hv in E1.
  destruct (_ <=? 0) eqn:Erem.
  { intros [= <- <-]. right. split_and!; [done| |done]. unfold expired. b2p.
    pose proof (Z.quot_rem' (deadline - now) 1000000). pose proof (Z.rem_bound_abs (deadline - now) 1000000).
    lia. }
  destruct (WaitOverlapped pipe ev _ b1) as [ended b2] eqn:E2.
  apply (WaitOverlapped_spec _ _ _ _ _ v Hev E1) in E2. destruct ended; cbn [negb].
  - destruct E2 as [E2|[? _]]; [|done].
    destruct (result ev b2) as [out b3] eqn:E3. apply Hresult in E3 as [E3 Hf]. rewrite E2 in E3.
    destruct out as [a|]; intros [= <- <-]; left; cbn; auto.
  - intros [= <- <-]. left. destruct E2 as [E2|[_ E2]]; cbn; auto.
Qed.

(** All handles are closed; and no operation is left under way, but one that was
    when the limit had run out. *)
Lemma transfer_spec b r b' :
  transfer pipe deadline start result b = (r, b') →
  outcome r (view b) (view b') ∨
  r = inr ERROR_WAIT_TIMEOUT ∧ expired deadline b' ∧ ∃ ev, view b' = started ev op (view b).
Proof.
  unfold transfer, run_transfer. unfold mthen at 1.
  destruct (CreateEventW b) as [[ev|] b1] eqn:E1;
    [|intros [= <- <-]; left; left; by apply event_view in E1].
  pose proof (event_fresh _ _ _ E1) as Hf. apply event_view in E1. cbn [opened_view] in E1.
  assert (Hclose : ∀ b2, view (CloseHandle ev b2).2 = closed ev (view b2)) by (intros; apply close_view).
  unfold mthen, mret. destruct (start ev b1) as [s b2] eqn:E2. apply Hstart in E2 as [E2 Hfit].
  unfold start_view in E2. rewrite E1 in E2. destruct s as [a|].
  { specialize (Hclose b2). destruct (CloseHandle ev b2) as [[] b3]. intros [= <- <-]. left.
    cbn [snd] in Hclose. split; [by apply Hfit|]. rewrite Hclose, E2.
    apply (closed_opened ev (moves a (view b))). }
  destruct (last_code b2 =? ERROR_IO_PENDING); cbn [negb].
  2:{ specialize (Hclose b2). destruct (CloseHandle ev b2) as [[] b3]. intros [= <- <-]. left. left.
      cbn [snd] in Hclose. rewrite Hclose, E2. apply closed_opened. }
  destruct (finish_transfer _ _ _ _ b2) as [out b3] eqn:E3.
  pose proof (close_handle_time ev b3) as Hct. specialize (Hclose b3).
  destruct (CloseHandle ev b3) as [[] b4]. cbn [snd] in *. intros [= <- <-].
  apply (finish_spec ev b2 out b3 (opened ev (view b)) Hf E2) in E3 as [Ev|(-> & Hx & Ev)].
  - left. destruct out as [a|c]; cbn in Ev |- *; rewrite Hclose.
    + destruct Ev as [Ha ->]. split; [done|]. apply (closed_opened ev (moves a (view b))).
    + destruct Ev as [->|(-> & a & Ha & ->)]; [left; apply closed_opened|right].
      split; [done|]. exists a. split; [done|]. apply (closed_opened ev (moves a (view b))).
  - right. split; [done|]. split; [unfold expired in *; lia|]. exists ev. rewrite Hclose, Ev.
    apply (closed_opened ev (started ev op (view b))).
Qed.
End OneTransfer.

(** From [v] to [v']: the same handles, [leak] under way beside what was, and one
    stream of a pipe longer by [bytes]. *)
Definition received (h : Z) (bytes : list byte) (leak : gmap Z Transfer) (v v' : PipeView) : Prop :=
  pv_held v' = pv_held v ∧ pv_pending v' = leak ∪ pv_pending v ∧
  stream (pv_in v') h = stream (pv_in v) h ++ bytes ∧
  (∀ h', h' ≠ h → pv_in v' !! h' = pv_in v !! h') ∧ pv_out v' = pv_out v.
Definition delivered (h : Z) (bytes : list byte) (leak : gmap Z Transfer) (v v' : PipeView) : Prop :=
  pv_held v' = pv_held v ∧ pv_pending v' = leak ∪ pv_pending v ∧
  stream (pv_out v') h = stream (pv_out v) h ++ bytes ∧
  (∀ h', h' ≠ h → pv_out v' !! h' = pv_out v !! h') ∧ pv_in v' = pv_in v.

Lemma received_none h v : received h [] ∅ v v.
Proof. unfold received. rewrite app_nil_r, (left_id_L ∅ _). done. Qed.
Lemma received_leak h ev op v : received h [] {[ ev := op ]} v (started ev op v).
Proof. unfold received. cbn. by rewrite app_nil_r, insert_union_singleton_l. Qed.
Lemma received_took h c bytes leak v v' :
  received h bytes leak (took h c v) v' → received h (c ++ bytes) leak v v'.
Proof.
  intros (Hh & Hp & Hs & Ho & Hw). unfold received in *. cbn in *.
  split_and!; [done|done| | |done].
  - rewrite Hs. unfold stream at 1. rewrite lookup_insert_eq. cbn. by rewrite <- app_assoc.
  - intros h' Hne. rewrite Ho by done. by rewrite lookup_insert_ne.
Qed.

Lemma delivered_none h v : delivered h [] ∅ v v.
Proof. unfold delivered. rewrite app_nil_r, (left_id_L ∅ _). done. Qed.
Lemma delivered_leak h ev op v : delivered h [] {[ ev := op ]} v (started ev op v).
Proof. unfold delivered. cbn. by rewrite app_nil_r, insert_union_singleton_l. Qed.
Lemma delivered_gave h c bytes leak v v' :
  delivered h bytes leak (gave h c v) v' → delivered h (c ++ bytes) leak v v'.
Proof.
  intros (Hh & Hp & Hs & Ho & Hw). unfold delivered in *. cbn in *.
  split_and!; [done|done| | |done].
  - rewrite Hs. unfold stream at 1. rewrite lookup_insert_eq. cbn. by rewrite <- app_assoc.
  - intros h' Hne. rewrite Ho by done. by rewrite lookup_insert_ne.
Qed.

(** A failure leaves nothing under way, unless the limit had run out. *)
Definition settled_failure (code : Z) (leak : gmap Z Transfer) (deadline : Z) (b : B) : Prop :=
  leak = ∅ ∨ code = ERROR_WAIT_TIMEOUT ∧ expired deadline b.

Lemma read_transfer pipe deadline n b r b' :
  transfer pipe deadline (ReadFile pipe n) (GetOverlappedRead pipe n) b = (r, b') →
  match r with
  | inl bytes => view b' = took pipe bytes (view b) ∧ (length bytes <= n)%nat
  | inr code => ∃ bytes leak, received pipe bytes leak (view b) (view b') ∧
      (length bytes <= n)%nat ∧ (bytes = [] ∨ code = ERROR_WAIT_TIMEOUT) ∧
      settled_failure code leak deadline b'
  end.
Proof.
  intros E. apply (transfer_spec pipe deadline (Reading pipe n) _ _
    (λ bytes m, <[pipe := stream m pipe ++ bytes]> m) (λ _ m, m) (λ bytes, (length bytes <= n)%nat)) in E.
  - destruct E as [Ev|(-> & Hx & ev & Ev)].
    + destruct r as [bytes|code]; [by destruct Ev|].
      destruct Ev as [->|(-> & bytes & Hl & ->)]; [exists [], ∅|exists bytes, ∅].
      * split_and!; [apply received_none|cbn; lia|by left|by left].
      * split_and!; [|done|by right|by left].
        rewrite <- (app_nil_r bytes) at 1. apply received_took, received_none.
    + exists [], {[ ev := Reading pipe n ]}. rewrite Ev.
      split_and!; [apply received_leak|cbn; lia|by left|by right].
  - intros ev b1 r1 b2 E1. by apply read_view in E1.
  - intros ev b1 r1 b2 E1. by apply read_result_view in E1.
  - intros v v' (bs & Hl & ->). by exists bs.
Qed.

Lemma read_rest_spec pipe deadline n got b r b' :
  read_rest pipe deadline n got b = (r, b') →
  ∃ bytes leak, received pipe bytes leak (view b) (view b') ∧
    match r with
    | inl out => out = got ++ bytes ∧ length bytes = n ∧ leak = ∅
    | inr code => (length bytes <= n)%nat ∧ (code ≠ ERROR_WAIT_TIMEOUT → (length bytes < n)%nat) ∧
        settled_failure code leak deadline b'
    end.
Proof.
  revert got b. induction n as [n IH] using lt_wf_ind. intros got b.
  destruct n as [|k]; cbn [read_rest].
  { intros [= <- <-]. exists [], ∅. rewrite app_nil_r. split; [apply received_none|done]. }
  unfold mthen. destruct (transfer _ _ _ _ b) as [out b1] eqn:E.
  apply read_transfer in E as Ho. destruct out as [[|c more]|code].
  - destruct Ho as [Hv _]. intros [= <- <-]. exists [], ∅.
    split; [|split_and!; [cbn; lia|cbn; lia|by left]].
    rewrite Hv. exact (received_took _ [] [] ∅ _ _ (received_none _ _)).
  - destruct Ho as [Hv Hl]. cbn [length] in Hl. intros E1. apply IH in E1; [|lia].
    destruct E1 as (bytes & leak & Hr & Hout). exists (c :: more ++ bytes), leak.
    rewrite Hv in Hr. split; [exact (received_took _ (c :: more) _ _ _ _ Hr)|].
    cbn [length]. rewrite length_app. destruct r as [out|code].
    + destruct Hout as (-> & Hlen & Hleak). split_and!; [by rewrite <- app_assoc|lia|done].
    + destruct Hout as (Hlen & Hcode & Hs). split_and!; [lia| |done]. intros Hc. specialize (Hcode Hc). lia.
  - destruct Ho as (bytes & leak & Hr & Hl & Hc & Hs). intros [= <- <-]. exists bytes, leak.
    split_and!; [done|done| |done]. intros Hne. destruct Hc as [->|?]; [cbn; lia|done].
Qed.

(** C9. An overlapped read gives the next bytes of the pipe, in order and none
    twice, and exactly as many as were asked for. When it fails it has taken no
    more, and fewer unless it says that the limit ran out: what the system had
    transferred when the wait was given up is taken and lost. Whatever happens its
    handles are closed, and it leaves no operation under way that could still
    write into a buffer the caller has given up; except when the limit had run
    out before the system said that the operation goes on, where it returns
    without cancelling it. *)
Theorem ReadAllOverlapped_exact pipe n timeout (b b' : B) r :
  ReadAllOverlapped pipe n timeout b = (r, b') →
  ∃ bytes leak, received pipe bytes leak (view b) (view b') ∧
    match r with
    | inl out => out = bytes ∧ length bytes = n ∧ leak = ∅
    | inr code =>
        (length bytes <= n)%nat ∧ (code ≠ ERROR_WAIT_TIMEOUT → (length bytes < n)%nat) ∧
        (leak = ∅ ∨ code = ERROR_WAIT_TIMEOUT ∧ expired (time b + ns_of_millis timeout) b')
    end.
Proof.
  unfold ReadAllOverlapped. destruct n as [|k].
  { intros [= <- <-]. exists [], ∅. split; [apply received_none|done]. }
  unfold mthen. destruct (clock_now b) as [now b1] eqn:E1. pose proof (clock_run _ _ _ E1) as Ht.
  apply (preserves_run view _ _ _ _ clock_view) in E1. intros E.
  apply read_rest_spec in E as (bytes & leak & Hr & Ho). rewrite E1 in Hr.
  exists bytes, leak. split; [done|]. destruct r as [out|code]; [done|].
  destruct Ho as (Hl & Hc & Hs). split_and!; [done|done|].
  destruct Hs as [Hs|[Hs Hx]]; [by left|right]. split; [done|]. unfold expired in *. lia.
Qed.

Lemma write_transfer pipe deadline data b r b' :
  transfer pipe deadline (WriteFile pipe data) (GetOverlappedWrite pipe data) b = (r, b') →
  match r with
  | inl k => view b' = written_view pipe data k (view b) ∧ 0 <= k <= len data
  | inr code =>
      code ≠ 0 ∧
      ∃ k leak, 0 <= k <= len data ∧
        delivered pipe (take (Z.to_nat k) data) leak (view b) (view b') ∧
        settled_failure code leak deadline b'
  end.
Proof.
  intros E. assert (Hcode : match r with inl _ => True | inr code => code ≠ 0 end).
  { revert E. unfold transfer, run_transfer, finish_transfer, mthen, mret.
    destruct (CreateEventW b) as [[ev|] b1] eqn:E1; [|intros [= <- _]; by apply (event_error b)].
    destruct (WriteFile pipe data ev b1) as [[n|] b2] eqn:E2; [destruct (CloseHandle ev b2); by intros [= <- _]|].
    apply write_error in E2. destruct (negb _); [destruct (CloseHandle ev b2); by intros [= <- _]|].
    destruct (remaining_to deadline b2) as [rem b3].
    destruct (rem <=? 0); [destruct (CloseHandle ev b3); by intros [= <- _]|].
    destruct (WaitOverlapped pipe ev rem b3) as [[] b4]; cbn [negb];
      [|destruct (CloseHandle ev b4); by intros [= <- _]].
    destruct (GetOverlappedWrite pipe data ev b4) as [[n|] b5] eqn:E5; destruct (CloseHandle ev b5);
      intros [= <- _]; [done|by apply write_result_error in E5]. }
  apply (transfer_spec pipe deadline (Writing pipe data) _ _ (λ _ m, m)
           (λ k m, <[pipe := stream m pipe ++ take (Z.to_nat k) data]> m) (λ k, 0 <= k <= len data)) in E.
  - destruct E as [Ev|(-> & Hx & ev & Ev)].
    + destruct r as [k|code]; [by destruct Ev|]. split; [done|].
      destruct Ev as [->|(-> & k & Hk & ->)]; [exists 0, ∅|exists k, ∅].
      * split_and!; [lia|lia|apply delivered_none|by left].
      * split_and!; [lia|lia| |by left].
        rewrite <- (app_nil_r (take _ _)) at 1. apply delivered_gave, delivered_none.
    + split; [done|]. exists 0, {[ ev := Writing pipe data ]}. rewrite Ev.
      split_and!; [lia|lia|apply delivered_leak|by right].
  - intros ev b1 r1 b2 E1. by apply write_view in E1.
  - intros ev b1 r1 b2 E1. by apply write_result_view in E1.
  - intros v v' (k & Hk & ->). by exists k.
Qed.

(** A write that answers 0 has given all; a failure, a first part. *)
Lemma write_rest_spec pipe deadline data n b code b' :
  (n <= length data)%nat → write_rest pipe deadline data n b = (code, b') →
  ∃ k leak, (k <= n)%nat ∧
    delivered pipe (take k (drop (length data - n) data)) leak (view b) (view b') ∧
    (code = 0 → k = n) ∧ settled_failure code leak deadline b'.
Proof.
  revert b. induction n as [n IH] using lt_wf_ind. intros b Hn.
  destruct n as [|j]; cbn [write_rest].
  { intros [= <- <-]. exists 0%nat, ∅. split_and!; [lia|apply delivered_none|done|by left]. }
  set (rest := drop (length data - S j) data). unfold mthen, mret.
  destruct (transfer _ _ _ _ b) as [out b1] eqn:E. apply write_transfer in E.
  assert (length rest = S j) as Hrest by (unfold rest; rewrite length_drop; lia).
  destruct out as [w|c].
  2:{ destruct E as (Hc & k & leak & Hk & Hd & Hs). intros [= <- <-]. exists (Z.to_nat k), leak.
      split_and!; [lia|done|done|done]. }
  destruct E as [Hv Hw]. unfold written_view in Hv. destruct (w =? 0) eqn:E0; b2p.
  { subst w. intros [= <- <-]. exists 0%nat, ∅.
    split_and!; [lia| |done|by left]. rewrite Hv.
    exact (delivered_gave _ [] [] ∅ _ _ (delivered_none _ _)). }
  intros E. apply IH in E; [|lia|lia]. destruct E as (k & leak & Hk & Hd & Hc & Hs).
  exists (Z.to_nat w + k)%nat, leak. split_and!; [lia| |lia|done].
  replace (take (Z.to_nat w + k) rest)
    with (take (Z.to_nat w) rest ++ take k (drop (length data - (j - Z.to_nat (w - 1))) data)).
  - apply delivered_gave. by rewrite <- Hv.
  - unfold rest. rewrite <- take_take_drop. f_equal. f_equal. rewrite drop_drop. f_equal. lia.
Qed.

(** So with a write: success gives the pipe all of the data, in order; a failure
    has given it a first part. *)
Lemma WriteAllOverlapped_exact pipe data timeout (b b' : B) code :
  WriteAllOverlapped pipe data timeout b = (code, b') →
  ∃ k leak, delivered pipe (take k data) leak (view b) (view b') ∧
    (code = 0 → take k data = data) ∧
    (leak = ∅ ∨ code = ERROR_WAIT_TIMEOUT ∧ expired (time b + ns_of_millis timeout) b').
Proof.
  unfold WriteAllOverlapped. destruct data as [|c data'] eqn:Ed.
  { intros [= <- <-]. exists 0%nat, ∅. split_and!; [apply delivered_none|done|by left]. }
  rewrite <- Ed. unfold mthen. destruct (clock_now b) as [now b1] eqn:E1.
  pose proof (clock_run _ _ _ E1) as Ht. apply (preserves_run view _ _ _ _ clock_view) in E1. intros E.
  apply write_rest_spec in E as (k & leak & _ & Hd & Hc & Hs); [|done].
  rewrite Nat.sub_diag, E1 in Hd. exists k, leak. split_and!; [exact Hd| |].
  - intros ->. rewrite Hc by done. apply take_ge. done.
  - destruct Hs as [?|[? Hx]]; [by left|right]. split; [done|]. unfold expired in *. lia.
Qed.
End TransferLaws.

(** ** The ends of the pipe *)

Section EndLaws.
Context {B : Type} `{PipeLaws B, SystemMessages}.

(** The action opens nothing that it does not close. *)
Notation held_kept m := (preserves (pv_held ∘ view) m).

Lemma view_held_kept {A} (m : M B A) : preserves view m → held_kept m.
Proof. intros Hm b. cbn. by rewrite Hm. Qed.

Lemma wait_held_kept ev ms : held_kept (WaitForSingleObject ev ms).
Proof.
  intros b. cbn. destruct (WaitForSingleObject ev ms b) as [r b'] eqn:E. apply wait_view in E.
  cbn. rewrite E. by destruct (_ =? _).
Qed.

Lemma cancel_held_kept h ev : held_kept (CancelIoEx h ev).
Proof.
  intros b. cbn. destruct (cancel_view h ev b) as [->|(op & _ & Hc)]; [done|].
  destruct op; cbn in Hc; [destruct Hc as (? & _ & ->)..|by rewrite Hc]; done.
Qed.

Lemma connect_held_kept h ev : held_kept (ConnectNamedPipe h ev).
Proof.
  intros b. cbn. destruct (ConnectNamedPipe h ev b) as [r b'] eqn:E. apply connect_view in E.
  cbn. rewrite E. by destruct (_ && _).
Qed.

Lemma start_held_kept {A} ev op (r : option A) moves v (b' : B) :
  (∀ a v, pv_held (moves a v) = pv_held v) → pv_held (start_view ev op r moves v b') = pv_held v.
Proof. intros Hm. destruct r; cbn; [apply Hm|]. by destruct (_ =? _). Qed.

Lemma read_held_kept h n ev : held_kept (ReadFile h n ev).
Proof.
  intros b. cbn. destruct (ReadFile h n ev b) as [r b'] eqn:E. apply read_view in E as [E _].
  cbn. rewrite E. by apply start_held_kept.
Qed.

Lemma write_held_kept h data ev : held_kept (WriteFile h data ev).
Proof.
  intros b. cbn. destruct (WriteFile h data ev b) as [r b'] eqn:E. apply write_view in E as [E _].
  cbn. rewrite E. by apply start_held_kept.
Qed.

Lemma read_result_held_kept h n ev : held_kept (GetOverlappedRead h n ev).
Proof.
  intros b. cbn. destruct (GetOverlappedRead h n ev b) as [r b'] eqn:E.
  apply read_result_view in E as [E _]. cbn. rewrite E. by destruct r.
Qed.

Lemma write_result_held_kept h data ev : held_kept (GetOverlappedWrite h data ev).
Proof.
  intros b. cbn. destruct (GetOverlappedWrite h data ev b) as [r b'] eqn:E.
  apply write_result_view in E as [E _]. cbn. rewrite E. by destruct r.
Qed.

Hint Resolve view_held_kept wait_held_kept connect_held_kept read_held_kept write_held_kept
  read_result_held_kept write_result_held_kept result_view cancel_held_kept clock_view descriptor_view
  free_view disconnect_view client_view session_view size_view user_view text_view : frame.

(** A handle opened for [body] is closed after it. *)
Lemma bracket_held_kept {A} (opening : M B (option Z)) (none : M B A) (body : Z → M B A) :
  (∀ b r b', opening b = (r, b') → view b' = opened_view r (view b)) →
  held_kept none → (∀ h, held_kept (body h)) →
  held_kept (r <-- opening ;;
             match r with
             | None => none
             | Some h => a <-- body h ;; CloseHandle h ;;; mret a
             end).
Proof.
  intros Ho Hn Hb b. unfold mthen, mret. destruct (opening b) as [[h|] b1] eqn:E1; apply Ho in E1.
  - destruct (body h b1) as [a b2] eqn:E2. apply (preserves_run (pv_held ∘ view) _ _ _ _ (Hb h)) in E2.
    pose proof (close_view h b2) as Hc. destruct (CloseHandle h b2) as [[] b3]. cbn in *.
    rewrite Hc. cbn. rewrite E2, E1. cbn. multiset_solver.
  - specialize (Hn b1). cbn in *. by rewrite Hn, E1.
Qed.

Lemma transfer_held_kept {A} pipe deadline (start result : Z → M B (option A)) :
  (∀ ev, held_kept (start ev)) → (∀ ev, held_kept (result ev)) →
  held_kept (transfer pipe deadline start result).
Proof.
  intros Hs Hr. apply bracket_held_kept; [exact event_view|frame|]. intros ev.
  unfold run_transfer, finish_transfer, WaitOverlapped, remaining_to.
  apply preserves_bind; [done|]. intros [a|]; [frame|]. intros b. cbv zeta. destruct (negb _); [done|].
  revert b. apply preserves_bind; [frame|]. intros rem. destruct (rem <=? 0); [frame|].
  apply preserves_bind; [frame|]. intros []; cbn [negb]; [|frame].
  apply preserves_bind; [done|]. frame.
Qed.

Lemma ReadAllOverlapped_held_kept pipe n timeout : held_kept (ReadAllOverlapped pipe n timeout).
Proof.
  unfold ReadAllOverlapped. destruct n as [|k]; [frame|]. apply preserves_bind; [frame|].
  intros now. generalize (S k), (@nil byte). clear k. intros n.
  induction n as [n IH] using lt_wf_ind. intros got. destruct n as [|k]; cbn [read_rest]; [frame|].
  apply preserves_bind; [apply transfer_held_kept; frame|].
  intros [[|c more]|code]; [frame| |frame]. apply IH. lia.
Qed.

Lemma WriteAllOverlapped_held_kept pipe data timeout : held_kept (WriteAllOverlapped pipe data timeout).
Proof.
  unfold WriteAllOverlapped. destruct data as [|c data']; [frame|]. apply preserves_bind; [frame|].
  intros now. generalize (length (c :: data')). intros n.
  induction n as [n IH] using lt_wf_ind. destruct n as [|k]; cbn [write_rest]; [frame|].
  apply preserves_bind; [apply transfer_held_kept; frame|].
  intros [w|code]; [|frame]. destruct (w =? 0); [frame|]. apply IH. lia.
Qed.

Lemma QueryClientUserSid_held_kept pid : held_kept (QueryClientUserSid pid).
Proof.
  unfold QueryClientUserSid, with_closing. destruct (pid =? 0); [frame|].
  apply bracket_held_kept; [apply process_view|frame|]. intros process.
  apply bracket_held_kept; [apply token_view|frame|]. frame.
Qed.

Lemma client_identity_held_kept pipe : held_kept (client_identity pipe).
Proof.
  unfold client_identity. pose proof QueryClientUserSid_held_kept.
  apply preserves_bind; [frame|]. intros asked. cbv zeta. destruct (_ =? 0); [frame|].
  apply preserves_bind; [frame|]. intros session. apply preserves_bind; [done|frame].
Qed.

(** Nobody has no session and no name. *)
Lemma client_identity_nobody pipe b pid session sid b' :
  client_identity pipe b = ((pid, session, sid), b') → pid = 0 → session = 0 ∧ sid = [].
Proof.
  unfold client_identity, mthen, mret. destruct (GetNamedPipeClientProcessId pipe b) as [asked b1].
  destruct (_ =? 0) eqn:E0; [by intros [= <- <- <- <-]|]. b2p.
  destruct (ProcessIdToSessionId _ b1) as [ses b2]. destruct (QueryClientUserSid _ b2) as [s b3].
  by intros [= <- <- <- <-].
Qed.

Lemma accept_held_kept pipe timeout : held_kept (accept_on pipe timeout).
Proof.
  apply bracket_held_kept; [exact event_view|intros b; done|]. intros ev.
  apply preserves_bind.
  - unfold await_client. apply preserves_bind; [frame|]. intros []; [frame|]. intros b. cbv zeta.
    destruct (_ =? ERROR_PIPE_CONNECTED); [done|]. destruct (_ =? ERROR_IO_PENDING); [|done].
    revert b. apply preserves_bind; [frame|]. intros w. destruct (w =? WAIT_TIMEOUT); [frame|].
    destruct (negb _).
    + apply preserves_bind; [frame|]. intros _. apply preserves_bind; [frame|]. intros _ b. done.
    + apply preserves_bind; [frame|]. intros []; cbn [negb]; [frame|]. intros b. done.
  - intros []; [|frame]. apply preserves_bind; [apply client_identity_held_kept|frame].
Qed.

(** [rest] is what the process holds beside the end of the pipe. *)
Definition end_handle (h : option Z) : gmultiset Z :=
  match h with Some h => {[+ h +]} | None => ∅ end.

(** The server's end: its handle is the one it holds; who is connected is known
    only while there is a pipe, and no one has no session and no name. *)
Definition server_end (rest : gmultiset Z) (st : ServerPipe * B) : Prop :=
  pv_held (view st.2) = rest ⊎ end_handle (sp_pipe st.1) ∧
  (sp_pipe st.1 = None → sp_pid st.1 = 0) ∧
  (sp_pid st.1 = 0 → sp_session st.1 = 0 ∧ sp_sid st.1 = []).

(** An operation of the server, its answer aside. *)
Inductive PipeOp :=
  | OpCreate | OpAccept (timeout : Z) | OpRead (n : nat) (timeout : Z)
  | OpWrite (data : list byte) (timeout : Z) | OpDisconnect | OpClose.

Definition pipe_op (o : PipeOp) : M (ServerPipe * B) unit :=
  match o with
  | OpCreate => CreateAndListen ;;; mret tt
  | OpAccept t => AcceptClient t ;;; mret tt
  | OpRead n t => ReadAll n t ;;; mret tt
  | OpWrite data t => WriteAll data t ;;; mret tt
  | OpDisconnect => DisconnectClient ;;; mret tt
  | OpClose => CloseServer
  end.

Lemma close_server_end rest st : server_end rest st → server_end rest (pipe_close st).2.
Proof.
  destruct st as [s b]. intros (Hh & _ & _). unfold pipe_close, reset_pipe, mret.
  cbn [fst snd] in Hh. destruct (sp_pipe s) as [h|] eqn:Es.
  - pose proof (disconnect_view h b) as Hd. pose proof (close_view h (DisconnectNamedPipe h b).2) as Hc.
    cbv zeta. destruct (CloseHandle h _) as [[] b2]. cbn in *. split; [|done]. cbn. rewrite Hc. cbn.
    rewrite Hd, Hh. cbn. multiset_solver.
  - cbn. split; [|done]. cbn. by rewrite Hh.
Qed.

Lemma pipe_close_none st : sp_pipe (pipe_close st).2.1 = None.
Proof. destruct st as [s b]. unfold pipe_close. by destruct (reset_pipe _ _). Qed.

Lemma create_server_end rest st : server_end rest st → server_end rest (pipe_create st).2.
Proof.
  destruct st as [s b]. intros Hst. unfold pipe_create. destruct (sp_pipe s) as [h|] eqn:Es; [done|].
  apply close_server_end in Hst. pose proof (pipe_close_none (s, b)) as Hn.
  destruct (pipe_close (s, b)) as [u [s1 b1]]. destruct Hst as (Hh & Hp & Hi). cbn [fst snd] in *.
  rewrite Hn in Hh, Hp. destruct (ConvertStringSecurityDescriptor _ b1) as [d b2] eqn:E2.
  apply (preserves_run view _ _ _ _ (descriptor_view _)) in E2.
  destruct d as [d|]; [|cbn; split; cbn; rewrite ?E2, ?Hn; done].
  destruct (CreateNamedPipeW _ d b2) as [r b3] eqn:E3. apply create_view in E3. rewrite E2 in E3.
  destruct r as [h|]; cbn [win32_failure].
  - pose proof (free_view d b3) as Hf. destruct (LocalFree d b3) as [[] b4]. cbn in *.
    split; [|done]. cbn. rewrite Hf, E3. cbn. by rewrite Hh, gmultiset_disj_union_right_id.
  - unfold win32_failure. pose proof (free_view d b3) as Hf. destruct (LocalFree d b3) as [[] b4].
    cbn in *. split; cbn; rewrite ?Hf, ?E3, ?Hn; done.
Qed.

Lemma accept_server_end rest t st : server_end rest st → server_end rest (pipe_accept t st).2.
Proof.
  destruct st as [s b]. intros (Hh & Hp & Hi). unfold pipe_accept. cbn [fst snd] in *.
  destruct (sp_pipe s) as [h|] eqn:Es; [|by split; cbn; rewrite ?Es].
  destruct (accept_on h t b) as [r b1] eqn:E. pose proof E as Ek.
  apply (preserves_run (pv_held ∘ view) _ _ _ _ (accept_held_kept _ _)) in Ek. cbn in Ek.
  destruct r as [[[pid session] sid]|e]; (split; cbn; [by rewrite Ek, ?Es|split; [done|]]); [|done].
  revert E. unfold accept_on, mthen, mret, win32_failure.
  destruct (CreateEventW b) as [[ev|] b2]; [|done]. destruct (await_client _ _ _ b2) as [[u|e] b3];
    [|by destruct (CloseHandle ev b3)].
  destruct (client_identity h b3) as [[[p' s'] n'] b4] eqn:E4. destruct (CloseHandle ev b4).
  intros [= <- <- <- _]. exact (client_identity_nobody _ _ _ _ _ _ E4).
Qed.

Lemma disconnect_server_end rest st : server_end rest st → server_end rest (pipe_disconnect st).2.
Proof.
  destruct st as [s b]. intros (Hh & Hp & Hi). unfold pipe_disconnect. cbn [fst snd] in *.
  destruct (sp_pipe s) as [h|] eqn:Es; [|by split; cbn; rewrite ?Es].
  destruct (DisconnectNamedPipe h b) as [ok b1] eqn:E.
  apply (preserves_run view _ _ _ _ (disconnect_view _)) in E.
  destruct (_ && _); (split; cbn; rewrite ?E, ?Es; done).
Qed.

Lemma on_pipe_server_end {A} rest (m : ServerPipe → M B A) st :
  (∀ s, held_kept (m s)) → server_end rest st → server_end rest (on_pipe m st).2.
Proof.
  destruct st as [s b]. intros Hm [Hh Hi]. unfold on_pipe. specialize (Hm s b).
  destruct (m s b) as [a b']. cbn in *. split; [|done]. cbn. by rewrite Hm.
Qed.

Lemma read_pipe_held_kept missing h n t : held_kept (read_pipe missing h n t).
Proof.
  destruct h; cbn [read_pipe]; [|frame]. apply preserves_bind; [apply ReadAllOverlapped_held_kept|frame].
Qed.
Lemma write_pipe_held_kept missing h data t : held_kept (write_pipe missing h data t).
Proof.
  destruct h; cbn [write_pipe]; [|frame]. apply preserves_bind; [apply WriteAllOverlapped_held_kept|frame].
Qed.

(** C27. Whatever the server does with its end of the pipe, and whatever the
    system answers: the process holds the handle of the pipe and no other handle
    of the transport, so that neither events nor the processes and tokens looked
    at for a client's name pile up; a client is named only while there is a pipe,
    and one whose process is not known has no session and no user. *)
Theorem server_end_kept ops rest st :
  server_end rest st → server_end rest (fold_left (λ st o, (pipe_op o st).2) ops st).
Proof.
  revert st. induction ops as [|o ops IH]; intros st Hst; [done|]. cbn [fold_left]. apply IH.
  assert (Hd : ∀ A (m : M (ServerPipe * B) A), ((m ;;; mret tt) st).2 = (m st).2).
  { intros A m. unfold mthen, mret. by destruct (m st). }
  destruct o as [|t|n t|data t| |]; cbn [pipe_op]; rewrite ?Hd.
  - by apply create_server_end.
  - by apply accept_server_end.
  - apply on_pipe_server_end; [|done]. intros s. apply read_pipe_held_kept.
  - apply on_pipe_server_end; [|done]. intros s. apply write_pipe_held_kept.
  - by apply disconnect_server_end.
  - by apply close_server_end.
Qed.

(** An attempt that gives a handle has opened that one alone, and one that fails
    none. *)
Lemma connect_loop_held fuel path deadline b r b' :
  connect_loop fuel path deadline b = (r, b') →
  pv_held (view b') =
    pv_held (view b) ⊎ match r with Some (Success h) => {[+ h +]} | _ => ∅ end.
Proof.
  revert b. induction fuel as [|fuel IH]; intros b; cbn [connect_loop].
  { intros [= <- <-]. multiset_solver. }
  unfold mthen, mret. destruct (CreateFileW path b) as [[h|] b1] eqn:E1; apply file_view in E1.
  { intros [= <- <-]. by rewrite E1. }
  cbn in E1. destruct (negb _); [intros [= <- <-]; rewrite E1; multiset_solver|].
  destruct (remaining_to deadline b1) as [rem b2] eqn:E2. unfold remaining_to, mthen, mret in E2.
  destruct (clock_now b1) as [now b2'] eqn:E2'. injection E2 as <- <-.
  apply (preserves_run view _ _ _ _ clock_view) in E2'. rewrite E1 in E2'.
  destruct (_ <=? 0); [intros [= <- <-]; rewrite E2'; multiset_solver|].
  destruct (WaitNamedPipeW path _ b2') as [ready b3] eqn:E3.
  apply (preserves_run view _ _ _ _ (busy_view _ _)) in E3. rewrite E2' in E3. rewrite <- E3.
  destruct ready; [by apply IH|]. destruct (_ =? ERROR_SEM_TIMEOUT); [by apply IH|].
  intros [= <- <-]. multiset_solver.
Qed.

Definition client_end (rest : gmultiset Z) (st : ClientPipe * B) : Prop :=
  pv_held (view st.2) = rest ⊎ end_handle st.1.

Inductive ClientOp :=
  | OpConnect (path : string) (timeout : Z) | OpClientWrite (data : list byte) (timeout : Z)
  | OpClientRead (n : nat) (timeout : Z) | OpCloseClient.

Definition client_op (o : ClientOp) : M (ClientPipe * B) unit :=
  match o with
  | OpConnect path t => Connect path t ;;; mret tt
  | OpClientWrite data t => ClientWriteAll data t ;;; mret tt
  | OpClientRead n t => ClientReadAll n t ;;; mret tt
  | OpCloseClient => CloseClient
  end.

Lemma reset_client_end rest h b : client_end rest (h, b) → pv_held (view (reset_pipe h b).2) = rest.
Proof.
  unfold client_end. cbn. intros Hh. destruct h as [h|]; cbn [reset_pipe mret end_handle snd] in *.
  - rewrite close_view. cbn. rewrite Hh. multiset_solver.
  - rewrite Hh. multiset_solver.
Qed.

Lemma connect_client_end rest path t st :
  client_end rest st → client_end rest (pipe_connect path t st).2.
Proof.
  destruct st as [h b]. intros Hst. unfold pipe_connect. apply reset_client_end in Hst.
  destruct (reset_pipe h b) as [[] b1]. destruct (clock_now b1) as [now b2] eqn:E2.
  apply (preserves_run view _ _ _ _ clock_view) in E2.
  destruct (connect_loop _ _ _ b2) as [r b3] eqn:E3. apply connect_loop_held in E3.
  unfold client_end. cbn in Hst. rewrite E2, Hst in E3. destruct r as [[h'|e]|]; exact E3.
Qed.

Lemma client_op_end rest o st : client_end rest st → client_end rest (client_op o st).2.
Proof.
  destruct st as [h b]. intros Hst.
  assert (Hd : ∀ A (m : M (ClientPipe * B) A), ((m ;;; mret tt) (h, b)).2 = (m (h, b)).2).
  { intros A m. unfold mthen, mret. by destruct (m (h, b)). }
  destruct o as [path t|data t|n t|]; cbn [client_op]; rewrite ?Hd.
  - by apply connect_client_end.
  - cbn. pose proof (write_pipe_held_kept "未连接" h data t b) as Hk.
    destruct (write_pipe _ _ _ _ b) as [r b']. unfold client_end in *. cbn in *. by rewrite Hk.
  - cbn. pose proof (read_pipe_held_kept "未连接" h n t b) as Hk.
    destruct (read_pipe _ _ _ _ b) as [r b']. unfold client_end in *. cbn in *. by rewrite Hk.
  - cbn. apply reset_client_end in Hst. destruct (reset_pipe h b) as [[] b1]. unfold client_end. cbn in *.
    rewrite Hst. multiset_solver.
Qed.

(** The client's end leaks no handle either, whether it connects or gives up. *)
Lemma client_end_kept ops rest st :
  client_end rest st → client_end rest (fold_left (λ st o, (client_op o st).2) ops st).
Proof.
  revert st. induction ops as [|o ops IH]; intros st Hst; [done|]. cbn [fold_left].
  by apply IH, client_op_end.
Qed.
End EndLaws.

(** ** How long the client waits *)

Section WaitingTime.
Context {B : Type} `{TimeLaws B, !PipeApi B, !PipeSystem B, !PipeTime B, !PipeWaitTime B, SystemMessages}.

(** As many turns as there are nanoseconds to the limit end the loop. *)
Lemma connect_loop_ends fuel path deadline b :
  (0 < fuel)%nat → deadline - time b < Z.of_nat fuel →
  ∃ r b', connect_loop fuel path deadline b = (Some r, b') ∧ time b <= time b'.
Proof.
  revert b. induction fuel as [|fuel IH]; intros b Hpos Hfuel; [lia|]. cbn [connect_loop].
  unfold mthen, mret. pose proof (open_pipe_time path b) as Ho.
  destruct (CreateFileW path b) as [[h|] b1]; [by eauto|]. cbn in Ho.
  destruct (negb _); [by eauto|]. unfold remaining_to, mthen, mret.
  destruct (clock_now b1) as [now b2] eqn:E2. pose proof (clock_run _ _ _ E2) as [Hn1 Hn2].
  destruct (_ <=? 0) eqn:Erem; [by eexists _, _; split; [done|lia]|]. b2p.
  assert (0 < deadline - now) by (pose proof (Z.quot_rem' (deadline - now) 1000000);
    pose proof (Z.rem_bound_abs (deadline - now) 1000000);
    destruct (Z.le_gt_cases (deadline - now) 0) as [Hle|]; [|lia];
    pose proof (Z.quot_le_mono (deadline - now) 0 1000000); rewrite Z.quot_0_l in *; lia).
  pose proof (busy_time path (u32 (Z.quot (deadline - now) 1000000)) b2) as Hb.
  destruct (WaitNamedPipeW path _ b2) as [ready b3]. cbn in Hb.
  destruct (IH b3) as (r & b' & Er & Ht); [lia|lia|].
  destruct ready; [rewrite Er; eexists _, _; split; [done|lia]|].
  destruct (_ =? ERROR_SEM_TIMEOUT); [rewrite Er|]; (eexists _, _; split; [done|lia]).
Qed.

(** So the turns of [connect_fuel] are never used up. *)
Lemma connect_fuel_enough timeout path now b :
  now <= time b →
  ∃ r b', connect_loop (connect_fuel timeout) path (now + ns_of_millis timeout) b = (Some r, b') ∧
    time b <= time b'.
Proof. intros Hn. apply connect_loop_ends; unfold connect_fuel; lia. Qed.

Lemma reset_pipe_advances h : advances (reset_pipe h).
Proof. destruct h; cbn; auto with advance. Qed.

Lemma connect_advances path timeout st :
  time st.2 <= time (pipe_connect path timeout st).2.2.
Proof.
  destruct st as [h b]. unfold pipe_connect. pose proof (reset_pipe_advances h b) as Hr.
  destruct (reset_pipe h b) as [[] b1]. destruct (clock_now b1) as [now b2] eqn:E2.
  pose proof (clock_run _ _ _ E2) as Hn.
  destruct (connect_fuel_enough timeout path now b2) as (r & b3 & E3 & H3); [lia|].
  rewrite E3. cbn in *. destruct r; cbn; lia.
Qed.
End WaitingTime.

(** ** The client's end as the reporter's *)

Section ClientTime.
Context {B : Type} `{SteadyClock B, !Sleeping B}.

#[export] Instance client_clock : SteadyClock (ClientPipe * B) := on_client (λ _, clock_now).
#[export] Instance client_sleep : Sleeping (ClientPipe * B) := λ d, on_client (λ _, sleep_for d).

Context `{!TimeLaws B}.
#[export] Instance client_time : TimeLaws (ClientPipe * B).
Proof.
  refine {| time st := time st.2 |}.
  - intros [h b]. cbn. pose proof (clock_time b). by destruct (clock_now b).
  - intros d [h b]. cbn. pose proof (sleep_time d b). by destruct (sleep_for d b).
Defined.

Context `{!PipeApi B, !PipeSystem B, !PipeTime B, !PipeWaitTime B, !SystemMessages}.

Lemma on_client_advances {A} (m : ClientPipe → M B A) :
  (∀ h, advances (m h)) → advances (on_client m).
Proof.
  intros Hm [h b]. specialize (Hm h b). unfold on_client. by destruct (m h b).
Qed.

(** So what the reporter is proved to do in bounded time ([IpcServer]) holds of
    it on this pipe. *)
#[export] Instance client_reporter_laws : ReporterLaws (ClientPipe * B).
Proof.
  constructor.
  - intros path t st. exact (connect_advances path t st).
  - intros data t. apply on_client_advances. intros [h|]; cbn [write_pipe]; [|advance].
    pose proof (WriteAllOverlapped_advances h data t). advance.
  - intros n t. apply on_client_advances. intros [h|]; cbn [read_pipe]; [|advance].
    pose proof (ReadAllOverlapped_advances h n t). advance.
  - intros [h b]. pose proof (reset_pipe_advances h b). cbn. by destruct (reset_pipe h b).
Defined.
End ClientTime.

(** ** Examples *)

(** A machine with one pipe: what arrives on it and after how many milliseconds,
    what has arrived and is not yet read, the last error, the next handle, and
    how often the pipe is still busy. *)
Module Wire.
Record Machine := MkMachine {
  m_now : Z;
  m_view : PipeView;
  m_error : Z;
  m_next : Z;
  m_arrivals : list (nat * list byte);
  m_busy : nat
}.

Definition with_view (f : PipeView → PipeView) (m : Machine) : Machine :=
  MkMachine (m_now m) (f (m_view m)) (m_error m) (m_next m) (m_arrivals m) (m_busy m).
Definition with_error (e : Z) (m : Machine) : Machine :=
  MkMachine (m_now m) (m_view m) e (m_next m) (m_arrivals m) (m_busy m).
Definition with_arrivals (l : list (nat * list byte)) (m : Machine) : Machine :=
  MkMachine (m_now m) (m_view m) (m_error m) (m_next m) l (m_busy m).
Definition later (ns : Z) (m : Machine) : Machine :=
  MkMachine (m_now m + Z.max 0 ns) (m_view m) (m_error m) (m_next m) (m_arrivals m) (m_busy m).
Definition less_busy (m : Machine) : Machine :=
  MkMachine (m_now m) (m_view m) (m_error m) (m_next m) (m_arrivals m) (pred (m_busy m)).

(** A handle that names no operation under way. *)
Definition new_handle (m : Machine) : Z := fresh (dom (pv_pending (m_view m)) : gset Z).

Definition open_one : M Machine (option Z) := λ m,
  let h := new_handle m in (Some h, with_view (opened h) m).

(** The first of what has arrived, [n] bytes at most. *)
Definition take_arrived (h : Z) (n : nat) (m : Machine) : option (list byte) * Machine :=
  match m_arrivals m with
  | (O, bytes) :: more =>
      (Some (take n bytes),
       with_view (took h (take n bytes))
         (with_arrivals (match drop n bytes with [] => more | rest => (O, rest) :: more end) m))
  | _ => (None, with_error ERROR_IO_PENDING m)
  end.

(** What arrives in the millisecond after the wait was given up has arrived
    before the cancellation. *)
Definition cancel_arrival (ev : Z) (m : Machine) : Machine :=
  match pv_pending (m_view m) !! ev, m_arrivals m with
  | Some (Reading h n), (1%nat, bytes) :: more =>
      with_view (took h (take n bytes)) (with_arrivals ((O, drop n bytes) :: more) m)
  | _, _ => m
  end.

(** What arrives within [ms] milliseconds is waited for. *)
Definition wait_arrival (ev ms : Z) (m : Machine) : Z * Machine :=
  match m_arrivals m with
  | (after, bytes) :: more =>
      if (ms =? INFINITE) || (Z.of_nat after <=? ms)
      then (WAIT_OBJECT_0, with_view (settled ev) (later (ns_of_millis (Z.of_nat after)) (with_arrivals ((O, bytes) :: more) m)))
      else (WAIT_TIMEOUT, later (ns_of_millis ms) (with_arrivals ((after - Z.to_nat ms, bytes)%nat :: more) m))
  | [] => if ms =? INFINITE then (WAIT_OBJECT_0, with_view (settled ev) m)
          else (WAIT_TIMEOUT, later (ns_of_millis ms) m)
  end.

#[export] Instance clock : SteadyClock Machine := λ m, (m_now m, m).
#[export] Instance sleeping : Sleeping Machine := λ d m, (tt, later (1 + Z.max 0 d) m).

#[export] Instance api : PipeApi Machine := {|
  pipe_error := m_error;
  CreateEventW := open_one;
  CloseHandle h m := (tt, with_view (closed h) m);
  ReadFile h n ev m :=
    match take_arrived h n m with
    | (Some bytes, m') => (Some bytes, m')
    | (None, m') => (None, with_view (started ev (Reading h n)) m')
    end;
  WriteFile h data ev m := (Some (len data), with_view (gave h data) m);
  WaitForSingleObject := wait_arrival;
  CancelIoEx h ev m := (tt, cancel_arrival ev m);
  GetOverlappedRead h n ev m := take_arrived h n m;
  GetOverlappedWrite h data ev m := (None, with_error 6 m);
  GetOverlappedResult h ev m := (true, m)
|}.

#[export] Instance system : PipeSystem Machine := {|
  ConvertStringSecurityDescriptor s m := (Some 5000, m);
  LocalFree p m := (tt, m);
  CreateNamedPipeW name d := open_one;
  ConnectNamedPipe h ev m := (false, with_view (started ev (Connecting h)) (with_error ERROR_IO_PENDING m));
  DisconnectNamedPipe h m := (true, m);
  GetNamedPipeClientProcessId h m := (Some 4242, m);
  ProcessIdToSessionId pid m := (Some 1, m);
  OpenProcess a pid := open_one;
  OpenProcessToken p := open_one;
  TokenUserSize h m := (44, m);
  TokenUser h n m := (Some 6000, m);
  ConvertSidToStringSidW sid m := (Some (7000, widen "S-1-5-21-1"), m);
  CreateFileW path m :=
    match m_busy m with O => open_one m | _ => (None, with_error ERROR_PIPE_BUSY m) end;
  WaitNamedPipeW path ms m := (true, later 1 (less_busy m))
|}.

#[export] Instance time_laws : TimeLaws Machine.
Proof.
  refine {| time := m_now |}.
  - intros m. cbn. lia.
  - intros d m. cbn [snd sleep_for sleeping later m_now]. lia.
Defined.

Lemma take_arrived_spec h n m r m' :
  take_arrived h n m = (r, m') →
  m_now m' = m_now m ∧
  m_view m' = match r with Some bs => took h bs (m_view m) | None => m_view m end ∧
  (r = None → m_error m' = ERROR_IO_PENDING) ∧
  ∀ bs, r = Some bs → (length bs <= n)%nat.
Proof.
  unfold take_arrived. destruct (m_arrivals m) as [|[[|after] bytes] more]; intros [= <- <-]; cbn;
    (split_and!; [done|done|done|]); intros bs; intros [= <-]. rewrite length_take. lia.
Qed.

#[export] Instance laws : PipeLaws Machine.
Proof.
  refine {| view := m_view |}; try (intros; reflexivity); try (intros; intros b; reflexivity); try (by intros * [= <- <-]).
  - intros b ev b' [= <- <-]. apply not_elem_of_dom. exact (is_fresh (dom (pv_pending (m_view b)) : gset Z)).
  - intros h n ev b r b'. cbn. destruct (take_arrived h n b) as [[bs|] b1] eqn:E;
      apply take_arrived_spec in E as (_ & Hv & He & Hl); intros [= <- <-].
    + split; [by cbn; rewrite Hv|]. by intros ? [= <-]; apply Hl.
    + split; [|done]. cbn. unfold last_code. cbn. rewrite He by done. cbn. by rewrite Hv.
  - intros h n ev b r b' E. by apply take_arrived_spec in E as (_ & Hv & _ & Hl).
  - intros h data ev b r b' [= <- <-]. split; [|intros k [= <-]; lia]. cbn. unfold written_view.
    by rewrite take_ge by lia.
  - intros ev ms b r b'. unfold WaitForSingleObject, api, wait_arrival.
    destruct (m_arrivals b) as [|[after bytes] more]; [|destruct (_ || _)];
      [destruct (ms =? INFINITE)| |]; by intros [= <- <-].
  - intros ev b. unfold WaitForSingleObject, api, wait_arrival.
    by destruct (m_arrivals b) as [|[after bytes] more].
  - intros h ev b. cbn. unfold cancel_arrival.
    destruct (pv_pending (m_view b) !! ev) as [[h' n|h' data|h']|] eqn:Eop; try by left.
    destruct (m_arrivals b) as [|[[|[|after]] bytes] more]; try by left. right.
    exists (Reading h' n). split; [done|]. exists (take n bytes). split; [|done].
    rewrite length_take. lia.
  - intros path b r b'. cbn. destruct (m_busy b); by intros [= <- <-].
  - by intros h data ev b b' [= <-].
Defined.

#[export] Instance pipe_time : PipeTime Machine.
Proof.
  constructor; intros; intros b; unfold time, time_laws; try reflexivity.
  - cbn. destruct (take_arrived h n b) as [[bs|] b1] eqn:E;
      apply take_arrived_spec in E as [Hn _]; cbn; rewrite Hn; lia.
  - unfold WaitForSingleObject, api, wait_arrival.
    destruct (m_arrivals b) as [|[after bytes] more]; [|destruct (_ || _)];
      [destruct (ms =? INFINITE)| |]; cbn; lia.
  - cbn. unfold cancel_arrival. destruct (pv_pending (m_view b) !! ev) as [[]|]; [|reflexivity..].
    by destruct (m_arrivals b) as [|[[|[|after]] bytes] more].
  - cbn. destruct (take_arrived h n b) as [r b1] eqn:E. apply take_arrived_spec in E as [Hn _]. cbn. lia.
Defined.

(** Two bytes now, three after two seconds. *)
Definition quiet : PipeView := MkView {[+ 7 +]} ∅ ∅ ∅.
Definition hello : Machine :=
  MkMachine 0 quiet 0 8 [(0%nat, list_byte_of_string "he"); (2000%nat, list_byte_of_string "llo")] 0.
(** One byte when the three seconds are over, and another a little later. *)
Definition dribble : Machine :=
  MkMachine 0 quiet 0 8 [(3000%nat, list_byte_of_string "h"); (1%nat, list_byte_of_string "i")] 0.

(** Five bytes one millisecond after the three seconds. *)
Definition late : Machine :=
  MkMachine 0 quiet 0 8 [(3001%nat, list_byte_of_string "hello")] 0.

(** A client that is connected before the server begins to wait. *)
Definition idle : ServerPipe * Machine := (NewServerPipe "p", MkMachine 0 quiet 0 8 [(10%nat, [])] 0).
End Wire.

Section Witnesses.
Import Wire.
#[local] Instance plain : SystemMessages := no_messages.

Lemma ReadAllOverlapped_exact_witness :
  (ReadAllOverlapped 7 5 3000 hello).1 = inl (list_byte_of_string "hello") ∧
  ∃ bytes leak, received 7 bytes leak quiet (view (ReadAllOverlapped 7 5 3000 hello).2) ∧
    list_byte_of_string "hello" = bytes ∧ length bytes = 5%nat ∧ leak = ∅.
Proof.
  assert (E : ∃ m, ReadAllOverlapped 7 5 3000 hello = (inl (list_byte_of_string "hello"), m))
    by (eexists; vm_compute; reflexivity).
  destruct E as [m E]. split; [by rewrite E|]. rewrite E.
  exact (ReadAllOverlapped_exact 7 5 3000 hello m _ E).
Defined.

(** A client that sends one byte as the limit ends, and nothing more, makes the
    read return with an operation under way: a later byte is written into a
    buffer that is gone. *)
Lemma expired_read_leaves_pending :
  (ReadAllOverlapped 7 16 3000 dribble).1 = inr ERROR_WAIT_TIMEOUT ∧
  pv_pending (view (ReadAllOverlapped 7 16 3000 dribble).2) ≠ ∅.
Proof. split; [vm_compute; reflexivity|]. vm_compute. discriminate. Qed.

(** Bytes that arrive as the read gives up are taken from the pipe and lost: the
    read says that the limit ran out. *)
Lemma cancelled_read_loses_bytes :
  (ReadAllOverlapped 7 5 3000 late).1 = inr ERROR_WAIT_TIMEOUT ∧
  stream (pv_in (view (ReadAllOverlapped 7 5 3000 late).2)) 7 = list_byte_of_string "hello".
Proof. split; vm_compute; reflexivity. Qed.

Definition served : list PipeOp :=
  [OpCreate; OpAccept 1000; OpRead 1 0; OpDisconnect; OpAccept 1000; OpClose; OpRead 4 10; OpClose].

Lemma server_end_kept_witness :
  server_end {[+ 7 +]} idle ∧
  server_end {[+ 7 +]} (fold_left (λ st o, (pipe_op o st).2) served idle).
Proof.
  assert (Hi : server_end {[+ 7 +]} idle) by (split; [cbn; multiset_solver|done]).
  split; [exact Hi|]. exact (server_end_kept served {[+ 7 +]} idle Hi).
Defined.
End Witnesses.
