(* ===== verification/AgentCommand.v ===== *)
(** The agent and the two ends of the demonstration pipe ([RunAgentCommand],
    [RunIpcClientCommand] and [RunIpcServerCommand] of [source/main.cpp]): what
    an agent puts into a report, how its reports are paced, and that the host
    which is to understand them does. *)

From S2P Require Import Prelude CommonError Containers AuditLog IpcProtocol IpcFacts Timing Memory UserActivity.
From S2P Require Import IpcSession IpcServer Credentials Actions IpcArguments.

Open Scope string_scope.
Open Scope list_scope.
Open Scope Z_scope.

(** ** The arguments *)

Definition kMaxAgentSeconds : Z := 60.

(** [1..60]. *)
Definition agent_seconds `{WideCtype} (text : wstring) : option Z :=
  match ParseUint32 text with
  | Some s => if (s =? 0) || (kMaxAgentSeconds <? s) then None else Some s
  | None => None
  end.

(** The options of the pacing by presence, with what they have set so far. *)
Fixpoint away_options `{WideCtype} (intervalMs : Z) (args : list wstring) (after cap : Z) :
    option (Z * Z) :=
  match args with
  | arg :: ((v :: _) as args') =>
      if is_arg "--away-after-seconds" arg then
        match ParseUint32 v with
        | Some n => if (n =? 0) || (86400 <? n) then None else away_options intervalMs args' n cap
        | None => None
        end
      else if is_arg "--away-cap-ms" arg then
        match ParseUint32 v with
        | Some n =>
            if (n <? intervalMs) || (60000 <? n) then None else away_options intervalMs args' after n
        | None => None
        end
      else away_options intervalMs args' after cap
  | _ => Some (after, cap)
  end.

Definition kAgentConnectAttempts : nat := 3.

(** The options of the reporter; [args] follow [--agent run]. *)
Definition agent_options `{WideCtype} (path_of : wstring → string) (args : list wstring) :
    option IpcPeriodicReportOptions :=
  match args with
  | [] => None
  | text :: args' =>
      seconds ← agent_seconds text;
      let pipeName := IpcPipeName (FindIpcSuffix args') in
      let intervalMs := FindIpcIntervalMs args' in
      let intervalCapMs := FindIpcMaxIntervalMs args' in
      if len pipeName =? 0 then None
      else if (intervalMs =? 0) || (intervalMs <? 50) || (10000 <? intervalMs) then None
      else if negb (intervalCapMs =? 0) && ((intervalCapMs <? intervalMs) || (60000 <? intervalCapMs))
      then None
      else
        let effectiveCapMs :=
          if negb (intervalCapMs =? 0) then intervalCapMs
          else if 5000 <? u32 (intervalMs * 3) then u32 (intervalMs * 3) else 5000 in
        '(after, cap) ← away_options intervalMs args' 0 0;
        let awayCapMs := if (0 <? after) && (cap =? 0) then effectiveCapMs else cap in
        Some (MkReportOptions (path_of pipeName) (seconds * 1000) intervalMs effectiveCapMs 3000
                kAgentConnectAttempts 300 after 1 awayCapMs)
  end.

(** ** A report *)

Class CurrentProcess (B : Type) := GetCurrentProcessId : B → Z.

Definition kMegabyte : Z := 1024 * 1024.

(** [static_cast<char>] of each unit. *)
Definition narrow_token (token : wstring) : string :=
  string_of_list_ascii (map (λ ch, ascii_of_N (Z.to_N (ch mod 2 ^ 8))) token).

Definition memory_facts (pid : Z) (m : MemoryStatus) : list IpcFact :=
  [MkFact "client_pid" (to_string pid);
   MkFact "memory_total_mb" (to_string (totalPhysicalBytes m / kMegabyte));
   MkFact "memory_available_mb" (to_string (availablePhysicalBytes m / kMegabyte));
   MkFact "memory_load_percent" (to_string (memoryLoadPercent m))].

(** No credential where [token] is empty. *)
Definition token_facts (token : wstring) : list IpcFact :=
  match token with [] => [] | _ => [MkFact kFactsTokenKey (narrow_token token)] end.

Definition agent_observer : list IpcFact := [MkFact "observer" "CppOptimizer agent demo"].
Definition client_observer : list IpcFact := [MkFact "observer" "CppOptimizer ipc demo"].

Section Build.
Context {B : Type} `{SystemMessages} `{MemoryApi B} `{LastInputBackend B} `{ForegroundProbe B}.
Context `{Clock B} `{CurrentProcess B}.

(** What the user does, where it can be had. *)
Definition idle_seconds : M B (Result Z) :=
  input <-- QueryInput ;;
  match input with
  | Failure e => mret (Failure e)
  | Success sample => mret (Success (Z.quot (IdleMilliseconds (nowTick sample) (lastInputTick sample)) 1000))
  end.

Definition activity_facts : M B (list IpcFact) :=
  idle <-- idle_seconds ;;
  foreground <-- QueryForeground ;;
  mret (match idle with
        | Success s => [MkFact "user_idle_seconds" (to_string s)]
        | Failure _ => []
        end ++
        match foreground with
        | Success sample =>
            if hasWindow sample then [MkFact "foreground_pid" (to_string (fg_pid sample))] else []
        | Failure _ => []
        end).

(** What a report says before the credential; [facts] are those after the
    memory. *)
Definition memory_observations (facts : M B (list IpcFact)) : M B (Result (list IpcFact)) :=
  status <-- QueryMemoryStatus steady_clock ;;
  match status with
  | Failure e => mret (Failure e)
  | Success memory => λ b,
      let pid := GetCurrentProcessId b in
      (more <-- facts ;; mret (Success (memory_facts pid memory ++ more))) b
  end.

Definition memory_report (facts : M B (list IpcFact)) (token : wstring) : M B (Result (list byte)) :=
  observed <-- memory_observations facts ;;
  mret (match observed with
        | Failure e => Failure e
        | Success l => SerializeFactsV1 (l ++ token_facts token)
        end).

Definition agent_facts : M B (list IpcFact) :=
  facts <-- activity_facts ;; mret (facts ++ agent_observer).
Definition client_facts : M B (list IpcFact) := mret client_observer.
End Build.

(** The number of the last request, which the factory counts up, beside the
    rest. *)
Definition Numbered (B : Type) : Type := Z * B.

Definition aside {B A} (m : M B A) : M (Numbered B) A := λ '(n, b),
  let '(a, b') := m b in (a, (n, b')).

#[export] Instance aside_clock {B} `{SteadyClock B} : SteadyClock (Numbered B) := aside clock_now.
#[export] Instance aside_sleep {B} `{Sleeping B} : Sleeping (Numbered B) := λ d, aside (sleep_for d).
#[export] Instance aside_client {B} `{IpcClientBackend B} : IpcClientBackend (Numbered B) := {
  Connect p t := aside (Connect p t);
  ClientWriteAll bs t := aside (ClientWriteAll bs t);
  ClientReadAll n t := aside (ClientReadAll n t);
  CloseClient := aside CloseClient
}.

Section Agent.
Context {B : Type} `{SystemMessages} `{MemoryApi B} `{LastInputBackend B} `{ForegroundProbe B}.
Context `{Clock B} `{CurrentProcess B}.

(** [buildRequest] *)
Definition build_request (token : wstring) : M (Numbered B) (Result IpcFrameRequest) :=
  encoded <-- aside (memory_report agent_facts token) ;;
  match encoded with
  | Failure e => mret (Failure e)
  | Success payload => λ '(n, b),
      let n' := u32 (n + 1) in
      (Success (MkFrameRequest IpcMessageType.FactsSnapshot payload n'), (n', b))
  end.

Context `{SteadyClock B} `{Sleeping B} `{IpcClientBackend B}.
Context `{WideCtype} `{FileSystem B} `{Folders B}.

(** [args] follow [--agent run]; the exit code with the summary that is printed,
    [None] while still running after [fuel] turns. *)
Definition RunAgentCommand (path_of : wstring → string) (fuel : nat) (args : list wstring) :
    M B (option (Z * option IpcPeriodicReportSummary)) := λ b,
  match agent_options path_of args with
  | None => (Some (2, None), b)
  | Some o =>
      match console_token path_of (tl args) b with
      | None => (Some (2, None), b)
      | Some token =>
          let idleProvider :=
            if 0 <? userAwayAfterSeconds o then Some (aside idle_seconds) else None in
          let '(r, (_, b')) :=
            RunPeriodicReporter fuel o (Some (build_request token)) idleProvider (0, b) in
          (match r with
           | None => None
           | Some (Failure _) => Some (2, None)
           | Some (Success summary) => Some (0, Some summary)
           end, b')
      end
  end.

(** ** The client of the pipe *)

(** The requests of a session, numbered from [i]. *)
Fixpoint client_requests (n : nat) (i : Z) (token : wstring) : M B (Result (list IpcFrameRequest)) :=
  match n with
  | O => mret (Success [])
  | S n' =>
      encoded <-- memory_report client_facts token ;;
      match encoded with
      | Failure e => mret (Failure e)
      | Success payload =>
          rest <-- client_requests n' (u32 (i + 1)) token ;;
          mret (match rest with
                | Failure e => Failure e
                | Success l => Success (MkFrameRequest IpcMessageType.FactsSnapshot payload i :: l)
                end)
      end
  end.

Definition kIpcTimeout : Z := 3000.

(** [args] follow [--ipc-pipe client]. *)
Definition RunIpcClientCommand (path_of : wstring → string) (args : list wstring) : M B Z := λ b,
  let pipeName := IpcPipeName (FindIpcSuffix args) in
  if len pipeName =? 0 then (2, b)
  else
    match console_token path_of args b with
    | None => (2, b)
    | Some token =>
        let frames := FindIpcFrames args in
        if (frames =? 0) || (16 <? frames) then (2, b)
        else
          (built <-- client_requests (Z.to_nat frames) 1 token ;;
           match built with
           | Failure _ => mret 2
           | Success requests =>
               if 1 <? frames then
                 replies <-- IpcRoundTripSession (path_of pipeName) requests kIpcTimeout ;;
                 mret (if HasValue replies then 0 else 2)
               else
                 match requests with
                 | [] => mret 2
                 | rq :: _ =>
                     reply <-- IpcRoundTrip (path_of pipeName) (fr_type rq) (fr_payload rq)
                                 (fr_requestId rq) kIpcTimeout ;;
                     mret (if HasValue reply then 0 else 2)
                 end
           end) b
    end.
End Agent.

(** ** The server of the pipe *)

Definition kSessionIdle : Z := 2000.
Definition ERROR_TIMEOUT : Z := 1460.

Record ServerSetup := MkServerSetup {
  sv_seconds : Z;
  sv_pipe : wstring;
  sv_options : SessionOptions;
  sv_sessionMode : bool;
  sv_instances : Z
}.

Section Server.
Context {B : Type} `{SystemMessages} `{WideCtype} `{FileSystem B} `{Folders B}.

(** [args] follow [--ipc-pipe server]. *)
Definition server_setup (path_of : wstring → string) (args : list wstring) (b : B) :
    option ServerSetup :=
  match args with
  | [] => None
  | text :: args' =>
      seconds ← agent_seconds text;
      let pipeName := IpcPipeName (FindIpcSuffix args') in
      if len pipeName =? 0 then None
      else
        token ← console_token path_of args' b;
        users ← allowed_users args';
        let instances := FindIpcInstances args' in
        if (instances =? 0) || (8 <? instances) then None
        else Some (MkServerSetup seconds pipeName
                     (MkOptions (ioTimeout session_defaults) (clientGate session_defaults) false users token)
                     (HasIpcSessionFlag args') instances)
  end.

Context `{IpcServerBackend B} `{WideLibrary}.

(** The milliseconds left of a window of [seconds] that begins with the first
    look at the clock. *)
Definition window_left (seconds : Z) : M B Z :=
  now <-- steady_now ;;
  now' <-- steady_now ;;
  mret (Z.quot (now + ns_of_millis (seconds * 1000) - now') 1000000).

(** One client, one frame or a session; that nobody came, or sent anything, is
    no failure. *)
Definition serve_alone (fuel : nat) (s : ServerSetup) : M (B * Log) (option Z) :=
  remaining <-- io (window_left (sv_seconds s)) ;;
  served <-- (if sv_sessionMode s
              then ServeSession fuel (sv_options s) None remaining kSessionIdle
                     (remaining + kSessionIdle)
              else ServeOne fuel (sv_options s) None remaining) ;;
  mret (match served with
        | None => None
        | Some (Success _) => Some 0
        | Some (Failure e) =>
            Some (if bool_decide (domain e = ErrorDomain.Win32) && (err_code e =? ERROR_TIMEOUT)
                  then 0 else 2)
        end).

Definition persistent (o : SessionOptions) : SessionOptions :=
  MkOptions (ioTimeout o) (clientGate o) true (allowedClientSids o) (expectedToken o).

(** The exit codes the command can end with: several instances are served by
    threads of their own. *)
Inductive RunIpcServerCommand (path_of : wstring → string) (args : list wstring) (b : B) : Z → Prop :=
  | serve_refused :
      server_setup path_of args b = None → RunIpcServerCommand path_of args b 2
  | serve_one fuel s code out :
      server_setup path_of args b = Some s → sv_instances s <= 1 →
      serve_alone fuel s (b, MkLog [] []) = (Some code, out) →
      RunIpcServerCommand path_of args b code
  | serve_many s remaining b1 now b2 r :
      server_setup path_of args b = Some s → 1 < sv_instances s →
      window_left (sv_seconds s) b = (remaining, b1) → steady_now b1 = (now, b2) →
      RunConcurrentServer (S := B) (Z.to_nat (sv_instances s)) remaining kSessionIdle now
        (persistent (sv_options s)) None true r →
      RunIpcServerCommand path_of args b (if HasValue r then 0 else 2).
End Server.

(** ** What is sent is understood *)

(** A number is a value that reads back. *)
Lemma number_value n : is_u32 n →
  ValidateValue (to_string n) = None ∧ IpcFacts.ParseUint32 (to_string n) = Some n.
Proof.
  unfold is_u32. intros Hn. destruct (to_string_spec n ltac:(lia)) as [Hd Hv]. split.
  - apply ValidateValue_None. split.
    + assert (0 <= n < 10 ^ Z.of_nat 10) as Hb by (change (10 ^ Z.of_nat 10) with 10000000000; lia).
      pose proof (to_string_length n 10 Hb ltac:(lia)). unfold kMaxFactsValueBytes. lia.
    + pose proof (to_string_digits n ltac:(lia)) as Ha. unfold HasControlByte, any_char.
      apply negb_false_iff. eapply all_chars_impl; [|exact Ha]. intros c.
      destruct c as [[] [] [] [] [] [] [] []]; vm_compute; done.
  - apply ParseUint32_iff. split_and!; [done..|unfold UINT32_MAX; lia].
Qed.

(** *** What is known of the observations *)

Class ObserverLaws (B : Type) `{MemoryApi B} `{ForegroundProbe B} `{CurrentProcess B} := {
  memory_range b b' total available load :
    GlobalMemoryStatusEx b = (Some (total, available, load), b') →
    kMegabyte <= total < 2 ^ 52 ∧ 0 <= available ∧ 0 <= load;
  foreground_range b b' s :
    QueryForeground b = (Success s, b') → hasWindow s = true → 1 <= fg_pid s < 2 ^ 32;
  process_range b : 0 <= GetCurrentProcessId b < 2 ^ 32
}.

(** Facts that pass every check before the credential: valid, with distinct keys
    that are known and not the credential's. *)
Definition plain_fact (f : IpcFact) : Prop :=
  ok_fact f ∧ schema_ok f = true ∧ is_token f = false.

Lemma numeric_plain k n :
  is_u32 n → known_numeric k = true →
  (k = "memory_total_mb" ∨ k = "foreground_pid" → 1 <= n) → (k = "memory_load_percent" → n <= 100) →
  plain_fact (MkFact k (to_string n)).
Proof.
  intros Hn Hk H1 H100. destruct (number_value n Hn) as [Hv Hp].
  assert (ValidateKey k = None ∧ String.eqb k kFactsTokenKey = false ∧ String.eqb k "observer" = false)
    as (Hkey & Ht & Ho).
  { unfold known_numeric in Hk. rewrite !orb_true_iff, !String.eqb_eq in Hk.
    destruct Hk as [[[[[->| ->]| ->]| ->]| ->]| ->]; by split_and!. }
  split_and!; [by split|..|done]. unfold schema_ok, is_token. cbn [key value].
  rewrite Ht, Ho, Hk, Hp. cbn [andb]. apply andb_true_iff. split.
  - destruct (String.eqb_spec k "memory_total_mb"), (String.eqb_spec k "foreground_pid");
      cbn; try done; apply Z.leb_le; auto.
  - destruct (String.eqb_spec k "memory_load_percent"); cbn; [|done]. apply Z.leb_le. auto.
Qed.

(** *** Credentials *)

Lemma code_of_unit ch : 0 <= ch < 2 ^ 8 → code (ascii_of_N (Z.to_N (ch mod 2 ^ 8))) = ch.
Proof.
  intros H. unfold code. rewrite Z.mod_small by done.
  rewrite N_ascii_embedding by lia. lia.
Qed.

Lemma wide_narrow token :
  IsValidIpcToken token = true →
  wide_bytes (narrow_token token) = token ∧ token_text (narrow_token token) = true ∧
  Forall (λ e, e <= 0x7F) token.
Proof.
  intros Hv. assert (Forall (λ e, 0 <= e <= 0x7F) token) as Ha.
  { unfold IsValidIpcToken in Hv. apply andb_true_iff in Hv as [_ Hv].
    rewrite forallb_forall in Hv. apply Forall_forall. intros e He%list_elem_of_In%Hv.
    unfold wide_alnum in He. rewrite negb_true_iff, !andb_false_iff, !negb_false_iff,
      !orb_true_iff, !andb_true_iff in He. lia. }
  assert (wide_bytes (narrow_token token) = token) as E.
  { unfold wide_bytes, narrow_token. rewrite list_ascii_of_string_of_list_ascii, map_map.
    clear Hv. induction Ha as [|e token He _ IH]; [done|]. cbn [map].
    rewrite IH. f_equal. apply code_of_unit. lia. }
  split_and!; [done| |eapply Forall_impl; [exact Ha|]; cbn; lia].
  rewrite <- IsValidTokenText_text, E, <- IsValidIpcToken_text. done.
Qed.

Lemma credential_token plain token expected :
  Forall (λ f, is_token f = false) plain → token = [] ∨ IsValidIpcToken token = true →
  credential (plain ++ token_facts token) expected ↔ expected = [] ∨ expected = token.
Proof.
  intros Hp Ht. unfold credential. split.
  - intros [->|(_ & f & Hf & Hk & <-)]; [by left|right]. apply elem_of_app in Hf as [Hf|Hf].
    + rewrite Forall_forall in Hp. apply Hp in Hf. unfold is_token in Hf. by rewrite Hk in Hf.
    + destruct token as [|ch token]; [by apply elem_of_nil in Hf|].
      apply list_elem_of_singleton in Hf as ->. destruct Ht as [?|Hv]; [done|].
      exact (proj1 (wide_narrow _ Hv)).
  - intros [->| ->]; [by left|]. destruct token as [|ch token]; [by left|right].
    destruct Ht as [?|Hv]; [done|]. destruct (wide_narrow _ Hv) as (E & _ & Ha). split; [done|].
    exists (MkFact kFactsTokenKey (narrow_token (ch :: token))).
    split_and!; [by apply elem_of_app; right; apply list_elem_of_singleton|done|exact E].
Qed.

Lemma token_fact_ok token :
  IsValidIpcToken token = true →
  let f := MkFact kFactsTokenKey (narrow_token token) in ok_fact f ∧ schema_ok f = true.
Proof.
  intros Hv. destruct (wide_narrow _ Hv) as (_ & Ht & _). cbv zeta. unfold token_text in Ht.
  apply andb_true_iff in Ht as [Hl Hc]. rewrite negb_true_iff, orb_false_iff, Z.ltb_ge in Hl.
  destruct Hl as [He Hl]. split.
  - split; [done|]. apply ValidateValue_None. cbn [value]. split; [unfold kMaxFactsValueBytes; lia|].
    unfold HasControlByte, any_char. apply negb_false_iff. eapply all_chars_impl; [|exact Hc].
    intros c. destruct c as [[] [] [] [] [] [] [] []]; vm_compute; done.
  - unfold schema_ok. change (is_token _) with true. cbn [value]. rewrite Hc, andb_true_r.
    unfold kMaxFactsTokenBytes. apply andb_true_iff. rewrite !Z.leb_le. split; [|done].
    destruct (narrow_token token); cbn in *; [done|lia].
Qed.

(** *** What the host answers *)

(** The observations of a report: at most 63 plain facts on distinct keys, among
    them the memory. *)
Record report_ok (facts : list IpcFact) : Prop := {
  rep_plain : Forall plain_fact facts;
  rep_keys : NoDup (map key facts);
  rep_some : facts ≠ [];
  rep_few : len facts < kMaxFactsEntries;
  rep_memory : ∀ t a, NumericFactValue facts "memory_total_mb" = Some t →
    NumericFactValue facts "memory_available_mb" = Some a → a <= t
}.

Lemma NumericFactValue_token plain token k :
  k ≠ kFactsTokenKey → NumericFactValue (plain ++ token_facts token) k = NumericFactValue plain k.
Proof.
  intros Hk. induction plain as [|f plain IH]; cbn [app NumericFactValue]; [|by rewrite IH].
  destruct token as [|ch token]; [done|]. cbn [token_facts NumericFactValue key].
  by rewrite (proj2 (String.eqb_neq _ _)).
Qed.

Lemma report_with_token plain token :
  report_ok plain → token = [] ∨ IsValidIpcToken token = true →
  let facts := plain ++ token_facts token in
  ValidateFacts facts = None ∧ ValidateFactsV1Schema facts = Success tt ∧
  FormatFactsSummary facts = FormatFactsSummary plain.
Proof.
  intros [Hp Hk Hs Hl Hm] Ht. cbv zeta.
  assert (Forall (λ f, ok_fact f ∧ schema_ok f = true) (token_facts token)) as Htok.
  { destruct token as [|ch token]; [constructor|]. constructor; [|constructor].
    destruct Ht as [?|Hv]; [done|]. by apply token_fact_ok. }
  assert (len (token_facts token) <= 1) as Hone by (destruct token; cbn; lia).
  assert (NoDup (map key (plain ++ token_facts token))) as Hnd.
  { rewrite map_app. apply NoDup_app. split_and!; [done| |destruct token; cbn; repeat constructor; set_solver].
    intros k Hin%list_elem_of_In%in_map_iff. destruct Hin as (f & <- & Hf%list_elem_of_In).
    rewrite Forall_forall in Hp. apply Hp in Hf as (_ & _ & Hf). unfold is_token in Hf.
    apply String.eqb_neq in Hf. destruct token; cbn; [set_solver|]. rewrite list_elem_of_singleton.
    congruence. }
  split_and!.
  - apply ValidateFacts_None. split_and!; [rewrite length_app; lia| |done].
    apply Forall_app. split; [eapply Forall_impl; [exact Hp|]|eapply Forall_impl; [exact Htok|]];
      by intros f (? & _).
  - apply ValidateFactsV1Schema_iff; [done|]. split_and!.
    + rewrite forallb_app. apply andb_true_iff. split; apply forallb_forall; intros f Hf%list_elem_of_In.
      * rewrite Forall_forall in Hp. by apply Hp in Hf as (_ & ? & _).
      * rewrite Forall_forall in Htok. by apply Htok in Hf as (_ & ?).
    + apply existsb_exists. destruct plain as [|f plain]; [done|]. exists f. split; [by left|].
      apply Forall_cons in Hp as [(_ & _ & ->) _]. done.
    + rewrite !NumericFactValue_token by done. exact Hm.
  - rewrite FormatFactsSummary_echoed, (FormatFactsSummary_echoed plain). f_equal.
    unfold echoed. rewrite filter_app. destruct token as [|ch token]; [by rewrite app_nil_r|].
    change (filter _ (token_facts (ch :: token))) with (@nil IpcFact). by rewrite app_nil_r.
Qed.

Lemma report_answered plain token expected request payload :
  report_ok plain → token = [] ∨ IsValidIpcToken token = true →
  SerializeFactsV1 (plain ++ token_facts token) = Success payload →
  req_type request = IpcMessageType.FactsSnapshot → req_payload request = payload →
  DefaultHandler request expected =
  Success (if bool_decide (expected = [] ∨ expected = token)
           then MkReply IpcMessageType.Ack (BytesFromText (FormatFactsSummary plain))
           else error_reply IpcErrorCode.AuthFailed).
Proof.
  intros Hok Ht Hs Hty Hpl. destruct (report_with_token plain token Hok Ht) as (_ & Hv & Hf).
  apply Serialize_parses in Hs. unfold DefaultHandler. rewrite Hty, Hpl, Hs, Hv, Hf. cbn [HasValue negb].
  assert (Forall (λ f, is_token f = false) plain) as Hp
    by (eapply Forall_impl; [exact (rep_plain _ Hok)|]; by intros f (_ & _ & ?)).
  pose proof (credential_spec (plain ++ token_facts token) expected) as Hc.
  rewrite (credential_token plain token expected Hp Ht) in Hc.
  case_bool_decide as Hb; [by rewrite (proj2 Hc Hb)|].
  destruct (negb (len expected =? 0) && _); [done|]. by destruct Hb; apply Hc.
Qed.

Section Observed.
Context {B : Type} `{SystemMessages} `{!MemoryApi B} `{!LastInputBackend B} `{!ForegroundProbe B}.
Context `{!Clock B} `{!CurrentProcess B} `{!ObserverLaws B}.

Lemma QueryMemoryStatus_range (b b' : B) m :
  QueryMemoryStatus steady_clock b = (Success m, b') →
  1 <= totalPhysicalBytes m / kMegabyte < 2 ^ 32 ∧
  0 <= availablePhysicalBytes m / kMegabyte <= totalPhysicalBytes m / kMegabyte ∧
  0 <= memoryLoadPercent m <= 100.
Proof.
  unfold QueryMemoryStatus, mthen, memory_failure.
  destruct (GlobalMemoryStatusEx b) as [[[[total available] load]|] b1] eqn:E; [|done].
  apply memory_range in E as (Ht & Ha & Hl). unfold BuildMemoryStatus.
  destruct (_ =? 0); [done|]. destruct (Z.ltb_spec total available); [done|].
  destruct (Z.ltb_spec 100 load); [done|]. intros [= <- _]. cbn. unfold kMegabyte in *.
  split_and!; [apply Z.div_le_lower_bound; lia|apply Z.div_lt_upper_bound; lia
    |by apply Z.div_pos|by apply Z.div_le_mono|done|done].
Qed.

(** The facts of the memory and [more] that are fit to follow them. *)
Lemma memory_report_ok (b b' : B) m pid more :
  QueryMemoryStatus steady_clock b = (Success m, b') → is_u32 pid →
  Forall plain_fact more → NoDup (map key (memory_facts pid m ++ more)) → len more < 60 →
  report_ok (memory_facts pid m ++ more).
Proof.
  intros Em Hpid Hmore Hnd Hl. apply QueryMemoryStatus_range in Em as (Ht & Ha & Hp).
  assert (is_u32 (totalPhysicalBytes m / kMegabyte)) as Htu by (unfold is_u32; lia).
  assert (is_u32 (availablePhysicalBytes m / kMegabyte)) as Hau by (unfold is_u32; lia).
  split; [|done|done|unfold kMaxFactsEntries; rewrite length_app; cbn; lia|].
  - apply Forall_app. split; [|done].
    repeat constructor; apply numeric_plain; try done; try (intros [?|?]; done || lia);
      try (intros ?; done || lia); unfold is_u32; lia.
  - cbn. rewrite (proj2 (number_value _ Htu)), (proj2 (number_value _ Hau)).
    intros t a [= <-] [= <-]. lia.
Qed.

Lemma activity_facts_ok (b b' : B) l :
  activity_facts b = (l, b') →
  Forall plain_fact l ∧
  (map key l = [] ∨ map key l = ["user_idle_seconds"] ∨ map key l = ["foreground_pid"] ∨
   map key l = ["user_idle_seconds"; "foreground_pid"]).
Proof.
  unfold activity_facts, mthen, mret. destruct (idle_seconds b) as [idle b1] eqn:Ei.
  destruct (QueryForeground b1) as [fg b2] eqn:Ef. intros [= <- _].
  set (l1 := match idle with Success s => _ | Failure _ => _ end).
  set (l2 := match fg with Success s => _ | Failure _ => _ end).
  assert (Forall plain_fact l1 ∧ (map key l1 = [] ∨ map key l1 = ["user_idle_seconds"])) as [H1 K1].
  { subst l1. destruct idle as [s|e]; [|by split; [|left]]. split; [|by right].
    constructor; [|done]. unfold idle_seconds, mthen, mret in Ei.
    destruct (QueryInput b) as [[sample|e] b3]; [|done]. injection Ei as <- _.
    apply numeric_plain; [|done|by intros [?|?]|done].
    unfold IdleMilliseconds. pose proof (TickDeltaMs_range (lastInputTick sample) (nowTick sample)) as Hr.
    rewrite Z.quot_div_nonneg by lia. unfold is_u32. split; [apply Z.div_pos; lia|].
    apply Z.div_lt_upper_bound; lia. }
  assert (Forall plain_fact l2 ∧ (map key l2 = [] ∨ map key l2 = ["foreground_pid"])) as [H2 K2].
  { subst l2. destruct fg as [s|e]; [|by split; [|left]].
    destruct (hasWindow s) eqn:Hw; [|by split; [|left]]. split; [|by right].
    constructor; [|done]. apply (foreground_range _ _ _ Ef) in Hw.
    apply numeric_plain; [unfold is_u32; lia|done|lia|done]. }
  split; [by apply Forall_app|]. rewrite map_app.
  destruct K1 as [-> | ->], K2 as [-> | ->]; cbn; auto.
Qed.

Lemma agent_observations_ok (b b' : B) facts :
  memory_observations agent_facts b = (Success facts, b') → report_ok facts.
Proof.
  unfold memory_observations, agent_facts, mthen, mret.
  destruct (QueryMemoryStatus steady_clock b) as [[m|e] b1] eqn:Em; [|done].
  destruct (activity_facts b1) as [l b2] eqn:El. intros [= <- _].
  apply activity_facts_ok in El as [Hp Hk].
  apply (memory_report_ok b b1); [done|apply process_range| | |].
  - apply Forall_app. split; [done|]. constructor; [|done]. by split_and!.
  - rewrite !map_app. by destruct Hk as [->|[->|[->| ->]]]; apply (bool_decide_unpack _).
  - rewrite length_app, <- (length_map key l). by destruct Hk as [->|[->|[->| ->]]].
Qed.

Lemma client_observations_ok (b b' : B) facts :
  memory_observations client_facts b = (Success facts, b') → report_ok facts.
Proof.
  unfold memory_observations, client_facts, mthen, mret.
  destruct (QueryMemoryStatus steady_clock b) as [[m|e] b1] eqn:Em; [|done]. intros [= <- _].
  apply (memory_report_ok b b1); [done|apply process_range| | |done].
  - constructor; [|done]. by split_and!.
  - by apply (bool_decide_unpack _).
Qed.

(** What a host that wants [expected] answers to a report on [facts] with
    [token]. *)
Definition host_answer (facts : list IpcFact) (token expected : wstring) : IpcReply :=
  if bool_decide (expected = [] ∨ expected = token)
  then MkReply IpcMessageType.Ack (BytesFromText (FormatFactsSummary facts))
  else error_reply IpcErrorCode.AuthFailed.

Lemma memory_report_answered (more : M B (list IpcFact)) token (b b' : B) out :
  (∀ b1 facts, memory_observations more b = (Success facts, b1) → report_ok facts) →
  token = [] ∨ IsValidIpcToken token = true →
  memory_report more token b = (out, b') →
  match out with
  | Failure e => (memory_observations more b).1 = Failure e
  | Success payload =>
      ∃ facts, (memory_observations more b).1 = Success facts ∧
        Forall (λ f, key f ≠ kFactsTokenKey) facts ∧
        ∀ request expected,
          req_type request = IpcMessageType.FactsSnapshot → req_payload request = payload →
          DefaultHandler request expected = Success (host_answer facts token expected)
  end.
Proof.
  intros Hok Ht. unfold memory_report, mthen, mret.
  destruct (memory_observations more b) as [[facts|e] b1] eqn:Eo; intros [= <- _]; [|done].
  specialize (Hok b1 facts eq_refl). destruct (report_with_token facts token Hok Ht) as (Hv & _ & _).
  unfold SerializeFactsV1. rewrite Hv. exists facts. split; [done|]. split.
  - eapply Forall_impl; [exact (rep_plain _ Hok)|]. intros f (_ & _ & Hf). unfold is_token in Hf.
    by apply String.eqb_neq.
  - intros request expected Hty Hpl. apply (report_answered facts token expected request
      (BytesFromText (append_facts kFactsEnvelopeV1 (facts ++ token_facts token)))); try done.
    unfold SerializeFactsV1. by rewrite Hv.
Qed.

(** C10. Agent and host agree on the protocol. Unless the memory cannot be
    queried, a report can be built, numbered one above the last; and every host
    answers it, whatever the memory, the user and the windows are like: with the
    summary of what was observed where it wants no credential or the agent's own,
    and with [AuthFailed] where it wants another. The credential is not in the
    observations, so that no answer repeats it. *)
Theorem agent_and_host_agree token n (b b' : B) n' r :
  token = [] ∨ IsValidIpcToken token = true →
  build_request token (n, b) = (r, (n', b')) →
  match r with
  | Failure e => n' = n ∧ (QueryMemoryStatus steady_clock b).1 = Failure e
  | Success rq =>
      n' = u32 (n + 1) ∧ fr_requestId rq = n' ∧
      ∃ facts, (memory_observations agent_facts b).1 = Success facts ∧
        Forall (λ f, key f ≠ kFactsTokenKey) facts ∧
        ∀ request expected,
          req_type request = fr_type rq → req_payload request = fr_payload rq →
          DefaultHandler request expected = Success (host_answer facts token expected)
  end.
Proof.
  intros Ht. unfold build_request, mthen, aside.
  destruct (memory_report agent_facts token b) as [out b1] eqn:E.
  apply (memory_report_answered _ _ _ _ _ (agent_observations_ok b) Ht) in E.
  destruct out as [payload|e]; unfold mret; intros [= <- <- <-]; [by split_and!|]. split; [done|].
  revert E. unfold memory_observations, agent_facts, mthen, mret.
  destruct (QueryMemoryStatus steady_clock b) as [[m|e'] b2]; [|by intros [= <-]].
  by destruct (activity_facts b2).
Qed.

(** So with the client of the demonstration. *)
Lemma client_requests_answered token k i (b b' : B) requests :
  token = [] ∨ IsValidIpcToken token = true →
  client_requests k i token b = (Success requests, b') →
  length requests = k ∧
  Forall (λ rq, fr_type rq = IpcMessageType.FactsSnapshot ∧
    ∃ facts, ∀ request expected,
      req_type request = fr_type rq → req_payload request = fr_payload rq →
      DefaultHandler request expected = Success (host_answer facts token expected)) requests.
Proof.
  intros Ht. induction k as [|k IH] in i, b, b', requests |- *; cbn [client_requests]; unfold mthen, mret.
  { intros [= <- _]. by split; [|constructor]. }
  destruct (memory_report client_facts token b) as [out b1] eqn:E.
  apply (memory_report_answered _ _ _ _ _ (client_observations_ok b) Ht) in E.
  destruct out as [payload|e]; [|done]. destruct E as (facts & _ & _ & Hans).
  destruct (client_requests k (u32 (i + 1)) token b1) as [[l|e] b2] eqn:El; [|done].
  intros [= <- _]. apply IH in El as [Hlen Hl]. split; [cbn; by rewrite Hlen|]. constructor; [|done].
  split; [done|]. exists facts. intros request expected Hty Hpl. by apply Hans.
Qed.
End Observed.

(** ** How long and how often *)

Lemma away_options_bounds `{WideCtypeLaws} i args after cap after' cap' :
  away_options i args after cap = Some (after', cap') →
  0 <= after <= 86400 → cap = 0 ∨ i <= cap <= 60000 →
  0 <= after' <= 86400 ∧ (cap' = 0 ∨ i <= cap' <= 60000).
Proof.
  induction args as [|arg args IH] in after, cap |- *; cbn [away_options]; [by intros [= <- <-]|].
  destruct args as [|v args']; [by intros [= <- <-]|].
  destruct (is_arg "--away-after-seconds" arg).
  - destruct (ParseUint32 v) as [n|] eqn:Ep; [|done]. apply wide_ParseUint32_range in Ep.
    destruct (_ || _) eqn:En; [done|]. intros E _ Hc. unfold is_u32 in Ep.
    rewrite orb_false_iff, Z.ltb_ge in En. apply (IH _ _ E); [lia|done].
  - destruct (is_arg "--away-cap-ms" arg); [|apply IH].
    destruct (ParseUint32 v) as [n|]; [|done]. destruct (_ || _) eqn:En; [done|].
    rewrite orb_false_iff, !Z.ltb_ge in En. intros E Ha _. apply (IH _ _ E); [done|]. right. lia.
Qed.

(** What the reporter is told is within bounds that make sense together. *)
Lemma agent_options_bounds `{WideCtypeLaws} path_of args o :
  agent_options path_of args = Some o →
  1000 <= window o <= 60000 ∧ 50 <= interval o <= 10000 ∧
  interval o <= intervalCap o <= 60000 ∧ reportIoTimeout o = 3000 ∧ maxConnectAttempts o = 3%nat ∧
  0 <= userAwayAfterSeconds o <= 86400 ∧
  (0 < userAwayAfterSeconds o → interval o <= userAwayCap o <= 60000).
Proof.
  destruct args as [|text args]; [done|]. cbn [agent_options].
  unfold agent_seconds. destruct (ParseUint32 text) as [s|] eqn:Es; [|done].
  apply wide_ParseUint32_range in Es. unfold is_u32, kMaxAgentSeconds in *.
  destruct ((s =? 0) || _) eqn:Hs; [done|]. rewrite orb_false_iff, Z.eqb_neq, Z.ltb_ge in Hs.
  cbn [mbind option_bind]. cbv zeta. destruct (len _ =? 0); [done|].
  set (i := FindIpcIntervalMs args). set (c := FindIpcMaxIntervalMs args).
  destruct ((i =? 0) || _ || _) eqn:Hi; [done|]. rewrite !orb_false_iff, !Z.ltb_ge in Hi.
  destruct (negb (c =? 0) && _) eqn:Hc; [done|].
  assert (u32 (i * 3) = i * 3) as Eu by (apply u32_small; unfold is_u32; lia). rewrite Eu.
  set (cap := if negb (c =? 0) then _ else _).
  assert (i <= cap <= 60000) as Hcap.
  { subst cap. rewrite andb_false_iff, orb_false_iff, !Z.ltb_ge in Hc.
    destruct (negb (c =? 0)); [destruct Hc; [done|lia]|]. destruct (Z.ltb_spec 5000 (i * 3)); lia. }
  clearbody cap. destruct (away_options i args 0 0) as [[after acap]|] eqn:Ea; [|done].
  cbn. intros [= <-]. cbn.
  apply away_options_bounds in Ea as [Ha Hac]; [|lia|by left]. split_and!; try done; try lia.
  intros Hpos. destruct (0 <? after) eqn:E, (acap =? 0) eqn:E'; cbn; b2p; lia.
Qed.

(** Nor do the queries turn the clock back. *)
Class ObserverTime (B : Type) `{TimeLaws B} `{!MemoryApi B} `{!LastInputBackend B} `{!ForegroundProbe B} := {
  status_time : advances GlobalMemoryStatusEx;
  input_time : advances QueryInput;
  foreground_time : advances QueryForeground
}.

#[export] Program Instance aside_time {B} `{TimeLaws B} : TimeLaws (Numbered B) := {| time b := time b.2 |}.
Next Obligation.
  intros B ? ? ? [n b]. unfold clock_now, aside_clock, aside. pose proof (clock_time b).
  by destruct (clock_now b).
Qed.
Next Obligation.
  intros B ? ? ? d [n b]. unfold sleep_for, aside_sleep, aside. pose proof (sleep_time d b).
  by destruct (sleep_for d b).
Qed.

Section Bounded.
Context {B : Type} `{ReporterLaws B} `{SystemMessages}.
Context `{!MemoryApi B} `{!LastInputBackend B} `{!ForegroundProbe B} `{!ObserverTime B}.
Context `{!Clock B} `{!CurrentProcess B} `{WideCtypeLaws} `{FileSystem B} `{Folders B}.

Lemma aside_advances {A} (m : M B A) : advances m → advances (aside m).
Proof. intros Hm [n b]. unfold aside. specialize (Hm b). by destruct (m b). Qed.

#[local] Instance aside_laws : ReporterLaws (Numbered B).
Proof. split; intros; apply aside_advances; auto with advance. Qed.

Lemma idle_seconds_advances : advances idle_seconds.
Proof. unfold idle_seconds. pose proof input_time. advance. Qed.

Lemma agent_facts_advances : advances agent_facts.
Proof.
  unfold agent_facts, activity_facts. pose proof idle_seconds_advances. pose proof foreground_time.
  advance.
Qed.

Lemma build_request_advances token : advances (build_request token).
Proof.
  unfold build_request. apply advances_bind.
  - apply aside_advances. unfold memory_report, memory_observations. apply advances_bind;
      [|intros [l|e]; apply advances_ret]. apply advances_bind.
    + unfold QueryMemoryStatus, memory_failure. pose proof status_time. advance; apply advances_get.
    + intros [m|e]; [|apply advances_ret]. intros b.
      apply (advances_bind agent_facts); [apply agent_facts_advances|intros ?; apply advances_ret].
  - intros [payload|e]; [|apply advances_ret]. intros [n b]. cbn. lia.
Qed.

(** C33. Whatever the arguments, the agent ends, within 120000000002 turns of its
    loop, and has made no more reports, delivered or given up, than its interval
    lets into its window and one: 1200 and one at the most. *)
Theorem RunAgentCommand_bounded path_of fuel args (b b' : B) r :
  RunAgentCommand path_of fuel args b = (r, b') →
  (2 * ns_of_millis 60000 + 1 < Z.of_nat fuel → r ≠ None) ∧
  ∀ code sm, r = Some (code, Some sm) →
    ∃ o, agent_options path_of args = Some o ∧ code = 0 ∧
      0 <= reports sm <= 1200 + 1 ∧ (reports sm - 1) * interval o < window o.
Proof.
  unfold RunAgentCommand. destruct (agent_options path_of args) as [o|] eqn:Eo;
    [|by intros [= <- _]]. destruct (console_token _ _ b) as [token|]; [|by intros [= <- _]].
  pose proof (agent_options_bounds _ _ _ Eo) as (Hw & Hi & _ & Ht & Hm & _).
  destruct (RunPeriodicReporter _ _ _ _ _) as [res [n b1]] eqn:E. intros [= <- _].
  revert E. unfold RunPeriodicReporter. rewrite Ht, Hm.
  rewrite (proj2 (Z.leb_gt _ _)), (proj2 (Z.leb_gt _ _)) by lia. cbn [orb Z.leb Z.compare Nat.eqb].
  unfold mthen. set (nb := (0, b) : Numbered B).
  destruct (clock_now nb) as [start b2] eqn:E1. apply clock_run in E1.
  destruct (clock_now b2) as [slot b3] eqn:E2. apply clock_run in E2. intros E.
  apply reporter_loop_spec in E as [Hr Hc]; [|apply build_request_advances| |lia].
  2:{ intros i. destruct (_ <? _); [|done]. intros [= <-]. apply aside_advances, idle_seconds_advances. }
  unfold turns_left, ns_of_millis in *. split.
  - intros Hf. specialize (Hr ltac:(lia) ltac:(destruct (slot <=? time b3); lia)).
    destruct res as [[sm|e]|]; [done..|]. by destruct (Hr eq_refl).
  - intros code sm. destruct res as [[sm'|e]|]; [|done..]. intros [= <- <-].
    destruct (Hc _ eq_refl) as [Hge Hlt]. change (reports (MkReportSummary 0 0 false)) with 0 in *.
    exists o. split; [done|]. split; [done|].
    destruct (Z.eq_dec (reports sm') 0) as [->|Hne]; [nia|]. specialize (Hlt ltac:(lia)). nia.
Qed.
End Bounded.

(** ** Witnesses: a machine whose host is offline *)

Module Desk.
Import Offline.

#[export] Existing Instances plain_ctype plain_ctype_laws.

#[export] Instance memory : MemoryApi Z := {|
  Memory.OpenProcess _ _ := mret None; Memory.CloseHandle _ := mret tt; Memory.GetProcessMemoryInfo _ := mret None;
  Memory.EmptyWorkingSet _ := mret false; Memory.OpenProcessToken _ := mret None;
  Memory.LookupPrivilegeValueW _ := mret None; Memory.TokenPrivilegesSize _ := mret 0;
  Memory.new_nothrow _ := mret false; Memory.TokenPrivileges _ _ := mret None;
  Memory.AdjustTokenPrivileges _ _ := mret false; Memory.NtSetSystemInformation _ _ := mret 0;
  Memory.NtQuerySystemInformation _ := mret (0, [], 0); Memory.SetSystemFileCacheSize _ _ _ := mret false;
  Memory.GetPerformanceInfo := mret None; Memory.GetSystemPageSize := mret 4096;
  Memory.GlobalMemoryStatusEx := mret (Some (16 * 2 ^ 30, 9 * 2 ^ 30, 44));
  Memory.memory_error _ := 0
|}.
#[export] Instance input : LastInputBackend Z := mret (Success (MkInputSample 70000 7000)).
#[export] Instance foreground : ForegroundProbe Z := mret (Success (MkForeground true 4242)).
#[export] Instance wall_clock : AuditLog.Clock Z := {| localtime _ := None; steady_clock t := t |}.
#[export] Instance process : CurrentProcess Z := λ _, 1234.
#[export] Instance files : FileSystem Z := {|
  is_directory _ _ := false; exists_file _ _ := (false, 0); open_read _ _ := None;
  GetLastError _ := 2; create_directories _ := mret 0; write_trunc _ _ := mret OpenFailed;
  append_text _ _ := mret OpenFailed; MoveFileExW _ _ := mret false; remove_file _ := mret tt
|}.
#[export] Instance folders : Folders Z := {|
  GetEnvironmentVariableW _ _ := (0, ""); temp_directory_path _ := "C:\Temp"
|}.
#[export] Instance observer_laws : ObserverLaws Z.
Proof.
  split.
  - intros b b' t a l [= <- <- <- _]. unfold kMegabyte. split_and!; lia.
  - intros b b' s [= <- _] _. cbn. lia.
  - intros b. cbn. unfold GetCurrentProcessId, process. lia.
Defined.
#[export] Instance observer_time : ObserverTime Z.
Proof. split; intros b; cbn; lia. Defined.

Definition narrow_path (p : wstring) : string := narrow_token p.
Definition token : wstring := widen "k_1".
End Desk.

Section Witnesses.
Import Offline Desk.

Example agent_and_host_agree_witness :
  ∃ rq, (build_request token (6, 0)).1 = Success rq ∧ fr_requestId rq = 7 ∧
    ∃ facts, (memory_observations agent_facts 0).1 = Success facts ∧ length facts = 7%nat ∧
      DefaultHandler (MkRequest IpcMessageType.FactsSnapshot 7 (fr_payload rq) 1234 1) token =
      Success (MkReply IpcMessageType.Ack (BytesFromText (FormatFactsSummary facts))).
Proof.
  destruct (build_request token (6, 0)) as [r [n b]] eqn:E.
  pose proof (agent_and_host_agree token 6 0 b n r (or_intror eq_refl) E) as Ha.
  destruct r as [rq|e]; [|vm_compute in E; discriminate E].
  destruct Ha as (Hn & Hid & facts & Hf & _ & Hh). exists rq. split; [reflexivity|].
  split; [rewrite Hid, Hn; reflexivity|]. exists facts. split; [exact Hf|].
  split; [vm_compute in Hf; injection Hf as <-; reflexivity|].
  rewrite (Hh _ token).
  - unfold host_answer. rewrite bool_decide_eq_true_2 by (right; reflexivity). reflexivity.
  - vm_compute in E. injection E as <- _ _. reflexivity.
  - reflexivity.
Defined.

Example RunAgentCommand_bounded_witness :
  let r := RunAgentCommand narrow_path 100 [widen "1"; widen "--interval-ms"; widen "250"] 0 in
  r.1 = Some (0, Some (MkReportSummary 0 1 false)) ∧
  0 <= reports (MkReportSummary 0 1 false) <= 1201.
Proof.
  cbv zeta. destruct (RunAgentCommand _ _ _ 0) as [r b'] eqn:E.
  destruct (RunAgentCommand_bounded _ _ _ _ _ _ E) as [_ Hb]. vm_compute in E.
  injection E as <- <-. split; [reflexivity|].
  destruct (Hb 0 (MkReportSummary 0 1 false) eq_refl) as (o & _ & _ & Hr & _). exact Hr.
Defined.
End Witnesses.
