(* ===== verification/LeaseBackends.v ===== *)
(** The backends of the leases ([source/power/power_locker.cpp],
    [source/priority/priority_booster.cpp]): the calls of the system they make, and
    that with what is documented of those calls they keep the laws on which
    [PowerLocker] and [PriorityBooster] rely. *)

From S2P Require Import Prelude CommonError PowerLocker PriorityBooster.

Open Scope string_scope.
Open Scope list_scope.
Open Scope Z_scope.

(** ** Power requests *)

(** [POWER_REQUEST_TYPE] *)
Definition PowerRequestDisplayRequired : Z := 0.
Definition PowerRequestExecutionRequired : Z := 3.

Definition ToWin32Type (t : PowerLockType) : Z :=
  match t with
  | PowerLockType.ExecutionRequired => PowerRequestExecutionRequired
  | PowerLockType.DisplayRequired => PowerRequestDisplayRequired
  end.

(** [None] is a null or invalid handle; the text of the reason is UTF-16. *)
Class PowerApi (B : Type) := {
  power_error : B → Z;
  PowerCreateRequest : wstring → M B (option Z);
  PowerSetRequest : Z → Z → M B bool;
  PowerClearRequest : Z → Z → M B bool;
  CloseHandle : Z → M B unit
}.

Definition kMaxReasonChars : nat := 127.

Section PowerBackend.
Context {B : Type} `{SystemMessages, PowerApi B} (utf16 : string → wstring).

Definition power_call (op : string) (call : M B bool) : M B (Result unit) :=
  ok <-- call ;;
  if ok : bool then mret (Success tt)
  else λ b, (Failure (FromWin32 (u32 (power_error b)) op), b).

Definition Win32PowerRequestBackend : PowerRequestBackend B := {|
  CreateRequest reason :=
    created <-- PowerCreateRequest (take kMaxReasonChars (utf16 reason)) ;;
    match created with
    | Some h => mret (Success h)
    | None => λ b, (Failure (FromWin32 (u32 (power_error b)) "PowerCreateRequest"), b)
    end;
  SetRequest h t := power_call "PowerSetRequest" (PowerSetRequest h (ToWin32Type t));
  ClearRequest h t := power_call "PowerClearRequest" (PowerClearRequest h (ToWin32Type t));
  CloseRequest h := if negb (h =? 0) then CloseHandle h else mret tt
|}.
End PowerBackend.

(** ** Priorities *)

Definition PROCESS_QUERY_LIMITED_INFORMATION : Z := 0x1000.
Definition PROCESS_SET_INFORMATION : Z := 0x0200.
Definition SYNCHRONIZE : Z := 0x00100000.
Definition kMinProcessAccess : Z :=
  Z.lor (Z.lor PROCESS_QUERY_LIMITED_INFORMATION PROCESS_SET_INFORMATION) SYNCHRONIZE.

(** The creation time in its two halves, the higher one first. *)
Class PriorityApi (B : Type) := {
  priority_error : B → Z;
  OpenProcessHandle : Z → Z → M B (option Z);
  GetProcessTimes : Z → M B (option (Z * Z));
  GetPriorityClass : Z → M B Z;
  SetProcessPriorityClass : Z → Z → M B bool;
  CloseProcessHandle : Z → M B unit
}.

Section PriorityBackend.
Context {B : Type} `{SystemMessages, PriorityApi B}.

Definition creation_of (times : option (Z * Z)) : Z :=
  match times with
  | None => 0
  | Some (high, low) => Z.lor (Z.shiftl (u32 high) 32) (u32 low)
  end.

Definition Win32PriorityBackend : PriorityBackend B := {|
  OpenProcess pid :=
    opened <-- OpenProcessHandle kMinProcessAccess pid ;;
    match opened with
    | Some h => mret (Success h)
    | None => λ b, (Failure (FromWin32 (u32 (priority_error b)) "OpenProcess"), b)
    end;
  QueryCreationTime h := times <-- GetProcessTimes h ;; mret (creation_of times);
  QueryPriorityClass h := GetPriorityClass h;
  SetPriorityClass h c :=
    ok <-- SetProcessPriorityClass h c ;;
    if ok : bool then mret (Success tt)
    else λ b, (Failure (FromWin32 (u32 (priority_error b)) "SetPriorityClass"), b);
  CloseProcess h := if negb (h =? 0) then CloseProcessHandle h else mret tt
|}.
End PriorityBackend.

(** ** What is documented of the calls *)

(** The objects that are open and the requests in force, by their number. *)
Class PowerApiLaws (B : Type) `{PowerApi B} := {
  power_objects : B → gset Z;
  power_requests : B → gset (Z * Z);
  no_null_object b : 0 ∉ power_objects b;
  null_request b t : (0, t) ∉ power_requests b;
  create_some reason b h b' : PowerCreateRequest reason b = (Some h, b') →
    h ∉ power_objects b ∧ power_objects b' = {[h]} ∪ power_objects b ∧
    power_requests b' = power_requests b;
  create_none reason b b' : PowerCreateRequest reason b = (None, b') →
    power_objects b' = power_objects b ∧ power_requests b' = power_requests b;
  set_result h t b ok b' : PowerSetRequest h t b = (ok, b') →
    power_objects b' = power_objects b ∧
    power_requests b' = if ok then {[(h, t)]} ∪ power_requests b else power_requests b;
  clear_result h t b ok b' : PowerClearRequest h t b = (ok, b') →
    power_objects b' = power_objects b ∧
    power_requests b' = if ok then power_requests b ∖ {[(h, t)]} else power_requests b;
  close_result h b :
    power_objects (CloseHandle h b).2 = power_objects b ∖ {[h]} ∧
    power_requests (CloseHandle h b).2 = filter (λ r, r.1 ≠ h) (power_requests b)
}.

Definition FromWin32Type (n : Z) : option PowerLockType :=
  if n =? PowerRequestExecutionRequired then Some PowerLockType.ExecutionRequired
  else if n =? PowerRequestDisplayRequired then Some PowerLockType.DisplayRequired
  else None.

Lemma FromWin32Type_iff n t : FromWin32Type n = Some t ↔ n = ToWin32Type t.
Proof.
  unfold FromWin32Type, ToWin32Type, PowerRequestExecutionRequired, PowerRequestDisplayRequired.
  destruct (Z.eqb_spec n 3), (Z.eqb_spec n 0); destruct t; naive_solver lia.
Qed.

(** The requests of the two types the program knows. *)
Definition known_requests (s : gset (Z * Z)) : gset (Z * PowerLockType) :=
  set_omap (λ r, (λ t, (r.1, t)) <$> FromWin32Type r.2) s.

Lemma elem_of_known s h t : (h, t) ∈ known_requests s ↔ (h, ToWin32Type t) ∈ s.
Proof.
  unfold known_requests. rewrite elem_of_set_omap. split.
  - intros ([h' n] & Hin & E). cbn in E. apply fmap_Some in E as (t' & E & [= -> ->]).
    apply FromWin32Type_iff in E as ->. done.
  - intros Hin. exists (h, ToWin32Type t). split; [done|]. cbn. apply fmap_Some. exists t.
    split; [|done]. by apply FromWin32Type_iff.
Qed.

Lemma ToWin32Type_inj t t' : ToWin32Type t = ToWin32Type t' → t = t'.
Proof. by destruct t, t'. Qed.

Section PowerLaws.
Context {B : Type} `{SystemMessages} `{PowerApiLaws B} (utf16 : string → wstring).
#[local] Existing Instance Win32PowerRequestBackend.

(** The backend keeps the laws the locker is proved against: each request of the
    program is one of the system of that type and no other. *)
#[export] Instance power_backend_laws : @PowerRequestLaws B (Win32PowerRequestBackend utf16).
Proof.
  refine (@Build_PowerRequestLaws B (Win32PowerRequestBackend utf16) power_objects
            (λ b, known_requests (power_requests b)) _ _ _ _ _ _ _); cbn; unfold power_call, mthen, mret.
  - intros reason b h b'. destruct (PowerCreateRequest _ b) as [[h0|] b1] eqn:E; [|done].
    intros [= <- <-]. apply create_some in E as (Hn & Ho & Hr). rewrite Ho, Hr. split_and!; try done.
    intros ->. apply (no_null_object b1). rewrite Ho. set_solver.
  - intros reason b e b'. destruct (PowerCreateRequest _ b) as [[h0|] b1] eqn:E; [done|].
    intros [= _ <-]. apply create_none in E as [Ho Hr]. by rewrite Ho, Hr.
  - intros h t b u b'. destruct (PowerSetRequest _ _ b) as [[] b1] eqn:E; [|done]. intros [= _ <-].
    apply set_result in E as [Ho Hr]. split; [done|]. rewrite Hr. apply set_eq. intros [h' t'].
    rewrite elem_of_union, !elem_of_known, elem_of_union, !elem_of_singleton.
    split; (intros [E|?]; [left|by right]); [|congruence].
    injection E as -> Et%ToWin32Type_inj. by rewrite Et.
  - intros h t b e b'. destruct (PowerSetRequest _ _ b) as [[] b1] eqn:E; [done|]. intros [= _ <-].
    apply set_result in E as [Ho Hr]. by rewrite Ho, Hr.
  - intros h t b u b'. destruct (PowerClearRequest _ _ b) as [[] b1] eqn:E; [|done]. intros [= _ <-].
    apply clear_result in E as [Ho Hr]. split; [done|]. rewrite Hr. apply set_eq. intros [h' t'].
    rewrite elem_of_difference, !elem_of_known, elem_of_difference, !elem_of_singleton.
    split; intros [? Hn]; (split; [done|]); contradict Hn; [by injection Hn as -> ->|].
    injection Hn as -> Et%ToWin32Type_inj. by rewrite Et.
  - intros h t b e b'. destruct (PowerClearRequest _ _ b) as [[] b1] eqn:E; [done|]. intros [= _ <-].
    apply clear_result in E as [Ho Hr]. by rewrite Ho, Hr.
  - intros h b. destruct (Z.eqb_spec h 0) as [->|Hh]; cbn.
    + split; [pose proof (no_null_object b); set_solver|]. apply set_eq. intros [h t].
      rewrite elem_of_filter, elem_of_known. cbn. split; [|by intros [_ ?]]. intros Hin. split; [|done].
      intros ->. by apply (null_request b (ToWin32Type t)).
    + destruct (close_result h b) as [Ho Hr]. split; [done|]. rewrite Hr. apply set_eq. intros [h' t].
      by rewrite elem_of_filter, !elem_of_known, elem_of_filter.
Defined.
End PowerLaws.

(** Handles of processes, and for each the process it is for; a class is no
    number 0, the answer of a query that fails. *)
Class PriorityApiLaws (B : Type) `{PriorityApi B} := {
  process_handles : B → gset Z;
  process_of : Z → B → Z;
  class_in : Z → B → Z;
  born : Z → Z;
  still (b b' : B) : Prop :=
    process_handles b' = process_handles b ∧
    (∀ h, h ∈ process_handles b → process_of h b' = process_of h b) ∧
    ∀ p, class_in p b' = class_in p b;
  no_null_handle b : 0 ∉ process_handles b;
  open_some access pid b h b' : OpenProcessHandle access pid b = (Some h, b') →
    h ∉ process_handles b ∧ process_handles b' = {[h]} ∪ process_handles b ∧
    (∀ h, h ∈ process_handles b → process_of h b' = process_of h b) ∧
    ∀ p, class_in p b' = class_in p b;
  open_none access pid b b' : OpenProcessHandle access pid b = (None, b') → still b b';
  times_result h b r b' : h ∈ process_handles b → GetProcessTimes h b = (r, b') →
    (∀ high low, r = Some (high, low) → is_u32 high ∧ is_u32 low ∧
       born (process_of h b) = high * 2 ^ 32 + low) ∧ still b b';
  class_result h b c b' : h ∈ process_handles b → GetPriorityClass h b = (c, b') →
    (c = 0 ∨ c = class_in (process_of h b) b) ∧ still b b';
  class_set h c b b' : h ∈ process_handles b → SetProcessPriorityClass h c b = (true, b') →
    process_handles b' = process_handles b ∧
    (∀ h, h ∈ process_handles b → process_of h b' = process_of h b) ∧
    ∀ p, class_in p b' = if decide (p = process_of h b) then c else class_in p b;
  class_kept h c b b' : SetProcessPriorityClass h c b = (false, b') → still b b';
  closed_result h b :
    process_handles (CloseProcessHandle h b).2 = process_handles b ∖ {[h]} ∧
    (∀ h', h' ∈ process_handles b → h' ≠ h →
       process_of h' (CloseProcessHandle h b).2 = process_of h' b) ∧
    ∀ p, class_in p (CloseProcessHandle h b).2 = class_in p b
}.

Lemma creation_of_halves high low : is_u32 high → is_u32 low →
  creation_of (Some (high, low)) = high * 2 ^ 32 + low.
Proof.
  intros Hh Hl. unfold creation_of. rewrite !u32_small by done. unfold is_u32 in *.
  rewrite Z.lor_comm, lor_shiftl_add by lia. lia.
Qed.

Section PriorityLawsProof.
Context {B : Type} `{SystemMessages} `{PriorityApiLaws B}.
#[local] Existing Instance Win32PriorityBackend.

(** The backend keeps the laws the booster is proved against. *)
#[export] Instance priority_backend_laws : @PriorityLaws B Win32PriorityBackend.
Proof.
  refine (@Build_PriorityLaws B Win32PriorityBackend process_handles process_of class_in born
            _ _ _ _ _ _ _); cbn; unfold mthen, mret.
  - intros pid b h b'. destruct (OpenProcessHandle _ pid b) as [[h0|] b1] eqn:E; [|done].
    intros [= <- <-]. apply open_some in E as (Hn & Hh & Hp & Hc). split_and!; try done.
    intros ->. apply (no_null_handle b1). rewrite Hh. set_solver.
  - intros pid b e b'. destruct (OpenProcessHandle _ pid b) as [[h0|] b1] eqn:E; [done|].
    intros [= _ <-]. exact (open_none _ _ _ _ E).
  - intros h b t b' Hh. destruct (GetProcessTimes h b) as [r b1] eqn:E. intros [= <- <-].
    apply (times_result _ _ _ _ Hh) in E as [Hr Hs]. split; [|exact Hs].
    destruct r as [[high low]|]; [|by left]. right. destruct (Hr high low eq_refl) as (? & ? & Hb).
    by rewrite creation_of_halves, Hb.
  - intros h b c b' Hh E. exact (class_result _ _ _ _ Hh E).
  - intros h c b u b' Hh. destruct (SetProcessPriorityClass h c b) as [[] b1] eqn:E; [|done].
    intros [= _ <-]. exact (class_set _ _ _ _ Hh E).
  - intros h c b e b'. destruct (SetProcessPriorityClass h c b) as [[] b1] eqn:E; [done|].
    intros [= _ <-]. exact (class_kept _ _ _ _ E).
  - intros h b. destruct (Z.eqb_spec h 0) as [->|Hh]; cbn; [|apply closed_result].
    pose proof (no_null_handle b). split; [set_solver|done].
Defined.
End PriorityLawsProof.
