(* ===== verification/Watched.v ===== *)
(** A system that is watched: it keeps the states in which each call finds it and
    leaves it, in their order. What the commands of [LeaseCommands] say about the
    time they hold something is said of what is seen of their own run. *)

From S2P Require Import Prelude CommonError Timing PowerLocker PriorityBooster Actions.

Open Scope string_scope.
Open Scope list_scope.
Open Scope Z_scope.

(** The system beside what was seen of it. *)
Definition Watched (X : Type) : Type := X * list X.

Definition watching {X A} (m : M X A) : M (Watched X) A := λ '(x, seen),
  let '(a, x') := m x in (a, (x', seen ++ [x; x'])).

Definition sights {X} (s : Watched X) : list X := s.2.

(** From one sight to another, [d] later, [P] is all that is seen. *)
Definition kept_for {X} `{TimeLaws X} (P : X → Prop) (d : Z) (seen : list X) : Prop :=
  ∃ before x between y after, seen = before ++ x :: between ++ y :: after ∧
    Forall P (x :: between ++ [y]) ∧ time x + d <= time y.

Lemma kept_for_inside {X} `{TimeLaws X} (P : X → Prop) d l1 l l2 :
  kept_for P d l → kept_for P d (l1 ++ l ++ l2).
Proof.
  intros (before & x & between & y & after & -> & HP & Ht).
  exists (l1 ++ before), x, between, y, (after ++ l2). split; [|done].
  by rewrite <- !app_assoc, <- app_comm_cons, <- app_assoc, <- app_comm_cons.
Qed.

Section Instances.
Context {X : Type}.

#[export] Instance watched_clock `{SteadyClock X} : SteadyClock (Watched X) := watching clock_now.
#[export] Instance watched_sleep `{Sleeping X} : Sleeping (Watched X) := λ d, watching (sleep_for d).
#[export] Instance watched_forms `{AgentFormState X} : AgentFormState (Watched X) :=
  watching (DescribeAgentFormsSnapshot (W := X)).

#[export] Instance watched_power `{PowerRequestBackend X} : PowerRequestBackend (Watched X) := {|
  CreateRequest r := watching (CreateRequest r); SetRequest h t := watching (SetRequest h t);
  ClearRequest h t := watching (ClearRequest h t); CloseRequest h := watching (CloseRequest h)
|}.

#[export] Instance watched_priority `{PriorityBackend X} : PriorityBackend (Watched X) := {|
  OpenProcess pid := watching (OpenProcess pid); QueryCreationTime h := watching (QueryCreationTime h);
  QueryPriorityClass h := watching (QueryPriorityClass h);
  SetPriorityClass h c := watching (SetPriorityClass h c); CloseProcess h := watching (CloseProcess h)
|}.

Lemma watching_run {A} (m : M X A) s a s' :
  watching m s = (a, s') → m s.1 = (a, s'.1) ∧ s'.2 = s.2 ++ [s.1; s'.1].
Proof. destruct s as [x l]. cbn. destruct (m x). by intros [= <- <-]. Qed.

Lemma watching_fst {A} (m : M X A) s : (watching m s).2.1 = (m s.1).2.
Proof. destruct s as [x l]. cbn. by destruct (m x). Qed.

#[export] Instance watched_times `{TimeLaws X} : TimeLaws (Watched X).
Proof.
  refine {| time s := time s.1 |}.
  - intros [x l]. pose proof (clock_time x). cbn. by destruct (clock_now x).
  - intros d [x l]. pose proof (sleep_time d x). cbn. by destruct (sleep_for d x).
Defined.

#[export] Instance watched_power_laws `{PowerRequestLaws X} : PowerRequestLaws (Watched X).
Proof.
  refine {| objects s := objects s.1; in_force s := in_force s.1 |}.
  - intros r s h s' [E _]%watching_run. exact (create_ok _ _ _ _ E).
  - intros r s e s' [E _]%watching_run. exact (create_fail _ _ _ _ E).
  - intros h t s u s' [E _]%watching_run. exact (set_ok _ _ _ _ _ E).
  - intros h t s e s' [E _]%watching_run. exact (set_fail _ _ _ _ _ E).
  - intros h t s u s' [E _]%watching_run. exact (clear_ok _ _ _ _ _ E).
  - intros h t s e s' [E _]%watching_run. exact (clear_fail _ _ _ _ _ E).
  - intros h [x l]. pose proof (close_request h x). cbn. by destruct (CloseRequest h x).
Defined.

#[export] Instance watched_priority_laws `{PriorityLaws X} : PriorityLaws (Watched X).
Proof.
  refine {| handles s := handles s.1; process h s := process h s.1;
            class_of p s := class_of p s.1; created := created |}.
  - intros pid s h s' [E _]%watching_run. exact (open_ok _ _ _ _ E).
  - intros pid s e s' [E _]%watching_run. exact (open_fail _ _ _ _ E).
  - intros h s t s' Hh [E _]%watching_run. exact (query_time _ _ _ _ Hh E).
  - intros h s c s' Hh [E _]%watching_run. exact (query_class _ _ _ _ Hh E).
  - intros h c s u s' Hh [E _]%watching_run. exact (set_class_ok _ _ _ _ _ Hh E).
  - intros h c s e s' [E _]%watching_run. exact (set_class_fail _ _ _ _ _ E).
  - intros h [x l]. pose proof (close_process h x). cbn. by destruct (CloseProcess h x).
Defined.
End Instances.

(** ** What every step of an operation keeps *)

Definition steps {S A} (R : relation S) (m : M S A) : Prop := ∀ s, R s (m s).2.

Section Steps.
Context {S : Type} (R : relation S) `{!PreOrder R}.

Lemma steps_ret {A} (a : A) : steps R (mret a).
Proof. intros s. reflexivity. Qed.

Lemma steps_bind {A C} (m : M S A) (k : A → M S C) :
  steps R m → (∀ a, steps R (k a)) → steps R (mthen m k).
Proof.
  intros Hm Hk s. unfold mthen. specialize (Hm s). destruct (m s) as [a s1]. cbn in Hm.
  etransitivity; [exact Hm|apply Hk].
Qed.

Lemma steps_run {A} (m : M S A) s a s' : steps R m → m s = (a, s') → R s s'.
Proof. intros Hm E. specialize (Hm s). by rewrite E in Hm. Qed.
End Steps.

Create HintDb steps.
#[export] Hint Resolve steps_ret : steps.

(** A step beside the state of a component. *)
Definition beneath {T S} (R : relation S) : relation (T * S) := λ x y, R x.2 y.2.

#[export] Instance beneath_preorder {T S} (R : relation S) `{!PreOrder R} : PreOrder (@beneath T S R).
Proof. split; [intros x; unfold beneath; reflexivity|]. intros x y z. unfold beneath. apply transitivity. Qed.

Section LockerSteps.
Context {B : Type} `{PowerRequestBackend B} (R : relation B) `{!PreOrder R}.
Hypothesis Rcreate : ∀ r, steps R (CreateRequest r).
Hypothesis Rset : ∀ h t, steps R (SetRequest h t).
Hypothesis Rclear : ∀ h t, steps R (ClearRequest h t).
Hypothesis Rclose : ∀ h, steps R (CloseRequest h).

Lemma AcquireLock_steps t reason : steps (beneath R) (AcquireLock t reason).
Proof.
  intros [p b]. unfold AcquireLock, beneath. destruct (negb _); [reflexivity|].
  destruct (count _); [|reflexivity].
  pose proof (Rcreate reason b) as H1. destruct (CreateRequest reason b) as [[h|e] b1]; [|done].
  pose proof (Rset h t b1) as H2. destruct (SetRequest h t b1) as [[u|e] b2]; cbn in *; [by etransitivity|].
  pose proof (Rclose h b2) as H3. destruct (CloseRequest h b2). cbn in *.
  etransitivity; [exact H1|]. by etransitivity.
Qed.

Lemma release_type_steps t : steps (beneath R) (release_type t).
Proof.
  intros [p b]. unfold release_type, beneath. destruct (count _); [reflexivity|].
  destruct (_ && _); [|reflexivity]. cbn.
  pose proof (Rclear (handle (lock_state t p)) t b) as H1. destruct (ClearRequest _ t b) as [r b1].
  cbn in *. etransitivity; [exact H1|apply Rclose].
Qed.

Lemma ReleaseAll_steps : steps (beneath R) ReleaseAll.
Proof. unfold ReleaseAll. apply steps_bind; [apply _|apply release_type_steps|]. intros u. apply release_type_steps. Qed.
End LockerSteps.

Section BoosterSteps.
Context {B : Type} `{PriorityBackend B} (R : relation B) `{!PreOrder R}.
Hypothesis Ropen : ∀ p, steps R (OpenProcess p).
Hypothesis Rtime : ∀ h, steps R (QueryCreationTime h).
Hypothesis Rquery : ∀ h, steps R (QueryPriorityClass h).
Hypothesis Rset : ∀ h c, steps R (SetPriorityClass h c).
Hypothesis Rclose : ∀ h, steps R (CloseProcess h).

Lemma acquire_new_steps g pid expected level : steps (beneath R) (acquire_new g pid expected level).
Proof.
  intros [s b]. unfold acquire_new, beneath. destruct (PriorityLevelToWin32Class level) as [target|]; [|reflexivity].
  pose proof (Ropen pid b) as H1. destruct (OpenProcess pid b) as [[h|e] b1]; [|done].
  pose proof (Rtime h b1) as H2. destruct (QueryCreationTime h b1) as [t b2]. cbn in H1, H2.
  assert (R b b2) as H12 by (by etransitivity). clear H1 H2.
  destruct (_ && _).
  { pose proof (Rclose h b2) as H3. destruct (CloseProcess h b2). cbn in *. by etransitivity. }
  pose proof (Rquery h b2) as H3. destruct (QueryPriorityClass h b2) as [c b3]. cbn in H3.
  assert (R b b3) as H13 by (by etransitivity). clear H12 H3.
  destruct (c =? 0).
  { pose proof (Rclose h b3) as H4. destruct (CloseProcess h b3). cbn in *. by etransitivity. }
  pose proof (Rset h target b3) as H4. destruct (SetPriorityClass h target b3) as [[u|e] b4]; cbn in *.
  { by etransitivity. }
  pose proof (Rclose h b4) as H5. destruct (CloseProcess h b4). cbn in *.
  etransitivity; [exact H13|]. by etransitivity.
Qed.

(** A first lease. *)
Lemma AcquireBoost_steps g pid expected level mx b :
  R b (AcquireBoost g pid expected level (MkBooster mx [], b)).2.2.
Proof.
  unfold AcquireBoost. destruct (bool_decide _); [reflexivity|]. destruct (LevelExceeds _ _); [reflexivity|].
  apply (acquire_new_steps g pid expected level (MkBooster mx [], b)).
Qed.

Lemma ForceCleanLease_steps st : steps R (ForceCleanLease st).
Proof.
  unfold ForceCleanLease. destruct (negb _); [|by apply steps_ret].
  apply steps_bind; [done|done|]. intros c. apply steps_bind; [done| |done].
  destruct (_ && _); [|by apply steps_ret]. apply steps_bind; [done|done|]. intros ?. by apply steps_ret.
Qed.

Lemma ReleaseAllBoosts_steps : steps (beneath R) ReleaseAllBoosts.
Proof.
  intros [s b]. unfold ReleaseAllBoosts, beneath. assert (Hc : ∀ ls, steps R (clean_leases ls)).
  { induction ls as [|[g st] ls IH]; cbn [clean_leases]; [by apply steps_ret|].
    apply steps_bind; [done|apply ForceCleanLease_steps|done]. }
  specialize (Hc (leases s) b). by destruct (clean_leases _ b).
Qed.
End BoosterSteps.
