(* ===== verification/LeaseCommands.v ===== *)
(** The commands of [source/main.cpp] that hold something of the system for a
    while and give it back, [--power-lock] and [--priority-boost], and the one that
    raises the threads of a process, [--scheduler]: what they need before they
    touch the system, what they leave behind, and that they end. *)

From S2P Require Import Prelude CommonError Containers Paths Timing Crash AuditLine AuditLog.
From S2P Require Import SafetyGates ConfigTypes Config ConfigRules UserActivity PowerLocker.
From S2P Require Import PriorityBooster ThreadTuner ProcessWatcher Platform Actions World IpcArguments Watched.

Open Scope string_scope.
Open Scope list_scope.
Open Scope Z_scope.

(** ** Arguments *)

Definition kMaxSeconds : Z := 60.

(** [1..60]. *)
Definition lease_seconds `{WideCtype} (text : wstring) : option Z :=
  match ParseUint32 text with
  | Some s => if (s =? 0) || (kMaxSeconds <? s) then None else Some s
  | None => None
  end.

Definition fold_unit (ch : Z) : Z := if (65 <=? ch) && (ch <=? 90) then ch - 65 + 97 else ch.
Definition AsciiEqualsIgnoreCaseW (a b : wstring) : bool :=
  bool_decide (map fold_unit a = map fold_unit b).

(** The types, and what is left of the arguments: a first argument that is no type
    belongs to the reason. *)
Definition lock_types `{CodePages, SystemMessages} (args : list wstring) :
    list PowerLockType * list wstring :=
  let default := [PowerLockType.ExecutionRequired] in
  match args with
  | [] => (default, [])
  | first :: rest =>
      if AsciiEqualsIgnoreCaseW first (widen "both")
      then ([PowerLockType.ExecutionRequired; PowerLockType.DisplayRequired], rest)
      else
        match WideToUtf8 first with
        | Failure _ => (default, args)
        | Success utf8 =>
            match ParsePowerLockType utf8 with
            | Failure _ => (default, args)
            | Success t => ([t], rest)
            end
        end
  end.

(** With a space between two. *)
Fixpoint wide_words (args : list wstring) : wstring :=
  match args with
  | [] => []
  | [a] => a
  | a :: rest => a ++ 32 :: wide_words rest
  end.

Definition hold_reason (args : list wstring) : wstring :=
  match args with
  | [] => widen "CppOptimizer bounded power-lock demo (R1)"
  | _ => wide_words args
  end.

Record SchedulerArguments := MkSchedulerArguments {
  sched_execute : bool;
  sched_acknowledged : bool;
  sched_config : option wstring
}.

Definition toml_name (arg : wstring) : bool :=
  (5 <? len arg) && bool_decide (drop (length arg - 5) arg = widen ".toml").

Fixpoint scheduler_arguments (a : SchedulerArguments) (args : list wstring) : option SchedulerArguments :=
  match args with
  | [] => Some a
  | arg :: rest =>
      if is_arg "--execute" arg then
        scheduler_arguments (MkSchedulerArguments true (sched_acknowledged a) (sched_config a)) rest
      else if is_arg "--acknowledge-system-wide-side-effects" arg then
        scheduler_arguments (MkSchedulerArguments (sched_execute a) true (sched_config a)) rest
      else if toml_name arg then
        scheduler_arguments (MkSchedulerArguments (sched_execute a) (sched_acknowledged a) (Some arg)) rest
      else None
  end.

(** ** Holding *)

Definition kHoldStep : Z := ns_of_millis 100.

(** Steps of 100 ms. *)
Definition hold_fuel (seconds : Z) : nat := S (Z.to_nat (10 * seconds)).

Section Hold.
Context {W : Type} `{SteadyClock W, !Sleeping W}.

(** [false]: still holding after [fuel] steps. *)
Fixpoint hold_until (fuel : nat) (deadline : Z) : M W bool :=
  match fuel with
  | O => mret false
  | S fuel' =>
      now <-- clock_now ;;
      if now <? deadline then sleep_for kHoldStep ;;; hold_until fuel' deadline else mret true
  end.

Definition hold (seconds : Z) : M W bool :=
  now <-- clock_now ;; hold_until (hold_fuel seconds) (now + ns_of_millis (seconds * 1000)).
End Hold.

(** ** The commands *)

(** An action on the world beside a component's own state. *)
Definition on_world {S W A} (m : M W A) : M (S * W) A := λ '(s, w),
  let '(a, w') := m w in (a, (s, w')).

Section Commands.
Context {W : Type} `{SystemMessages} `{FileSystem W} `{Clock W} `{Folders W} `{AgentFormState W}.
Context `{WideCtype} `{CodePages}.

Definition probe_audit : M W bool := λ w,
  (probed <-- ProbeAuditWritable (DefaultAuditLogPath w) ;; mret (HasValue probed)) w.

(** *** [--power-lock] *)

Section PowerLock.
Context `{PowerRequestBackend W} `{SteadyClock W, !Sleeping W}.

Definition lock_target : string := "power-lock(cli)".

(** Whether all of them were acquired; if not, none is held. *)
Fixpoint acquire_types (types : list PowerLockType) (reason : string) : M (PowerLocker * W) bool :=
  match types with
  | [] => mret true
  | t :: rest =>
      on_world (JournalAction "power.hold" lock_target true JournalPhase.Before
                  "intent: acquire bounded power request") ;;;
      acquired <-- AcquireLock t reason ;;
      match acquired with
      | Failure e =>
          on_world (AuditAction "power.hold" RiskLevel.R1 lock_target false
                      ("acquire failed: " +:+ operation e) "no power request held") ;;;
          ReleaseAll ;;;
          mret false
      | Success _ =>
          on_world (AuditAction "power.hold" RiskLevel.R1 lock_target true
                      "bounded foreground hold (cli)" "power request(s) held (bounded)") ;;;
          acquire_types rest reason
      end
  end.

Definition lock_for (seconds : Z) (types : list PowerLockType) (reason : string) :
    M (PowerLocker * W) (option Z) :=
  acquired <-- acquire_types types reason ;;
  if negb acquired then mret (Some 2)
  else
    held <-- on_world (hold seconds) ;;
    if negb held then mret None
    else
      on_world (JournalAction "power.release" lock_target true JournalPhase.Before
                  "intent: release bounded power requests") ;;;
      ReleaseAll ;;;
      on_world (AuditAction "power.release" RiskLevel.R1 lock_target true
                  "released on bounded exit (cli)" "all power requests released") ;;;
      mret (Some 0).

(** The arguments after [--power-lock]; [None] while still holding. The locker
    has given everything back when its destructor runs. *)
Definition RunPowerLockCommand (text_of : wstring → string) (text : wstring) (args : list wstring) :
    M W (option Z) :=
  match lease_seconds text with
  | None => mret (Some 2)
  | Some seconds =>
      let '(types, words) := lock_types args in
      writable <-- probe_audit ;;
      if negb writable then mret (Some 2)
      else λ w,
        let '(r, (_, w')) :=
          lock_for seconds types (text_of (hold_reason words)) (NewPowerLocker true, w) in
        (r, w')
  end.
End PowerLock.

(** *** [--priority-boost] *)

Section PriorityBoost.
Context `{PriorityBackend W} `{SteadyClock W, !Sleeping W}.
Context {Node : Type} `{Toml Node} `{TomlFiles W Node}.



End PriorityBoost.

(** *** [--scheduler] *)

Section Scheduler.
Context `{BuildOptions} `{UnixTime W} `{SchedulerBackend W}.
Context {Node : Type} `{Toml Node} `{TomlFiles W Node}.

Definition THREAD_PRIORITY_ABOVE_NORMAL : Z := 1.

(** Without a configuration the gate is closed; [None] when it cannot be read. *)
Definition scheduler_config_gate (path_of : wstring → string) (config : option wstring) (w : W) :
    option bool :=
  match config with
  | None => Some false
  | Some p =>
      match LoadConfig (path_of p) w with
      | Failure _ => None
      | Success s => Some (tog_enabled (scheduler s))
      end
  end.

Definition scheduler_gates (configAllows acknowledged : bool) : M W GateEvaluation :=
  writable <-- probe_audit ;;
  λ w,
    let cooldownClear :=
      match ReadCooldownLedger (DefaultCooldownLedgerPath w) w with
      | Success l => EvaluateCooldownGate l kSchedulerTunerCapabilityId (unix_time w) kDefaultCooldown
      | Failure _ => false
      end in
    (EvaluateGates (MkGateInputs SchedulerTunerCompiledIn configAllows acknowledged true writable
                      cooldownClear), w).

Definition raise_threads (pid : Z) : M W Z :=
  report <-- BoostProcessThreads pid THREAD_PRIORITY_ABOVE_NORMAL ;;
  match report with
  | Failure _ => mret 41
  | Success r =>
      JournalAction "scheduler.boost_priority" (to_string pid) true JournalPhase.After
        "raise below-AboveNormal threads to AboveNormal" ;;;
      AuditAction "scheduler.boost_priority" RiskLevel.R1 (to_string pid) true
        ("adjusted " +:+ to_string (len (adjusted r)) +:+ " thread(s)")
        ("target=" +:+ to_string THREAD_PRIORITY_ABOVE_NORMAL) ;;;
      (λ w, RecordCooldownRun (DefaultCooldownLedgerPath w) kSchedulerTunerCapabilityId
              (unix_time w) w) ;;;
      mret 0
  end.

Definition RunSchedulerCommand (path_of : wstring → string) (text : wstring) (args : list wstring) :
    M W Z :=
  match ParseUint32 text with
  | None => mret 40
  | Some pid =>
      if pid =? 0 then mret 40
      else
        match scheduler_arguments (MkSchedulerArguments false false None) args with
        | None => mret 40
        | Some a =>
            snapshot <-- ListThreads pid ;;
            if negb (HasValue snapshot) then mret 41
            else if negb (sched_execute a) then mret 0
            else λ w,
              match scheduler_config_gate path_of (sched_config a) w with
              | None => (41, w)
              | Some configAllows =>
                  (g <-- scheduler_gates configAllows (sched_acknowledged a) ;;
                   if negb (allowed g) then mret 2 else raise_threads pid) w
              end
        end
  end.
End Scheduler.
End Commands.

(** ** How long they hold *)

Section HoldTime.
Context {W : Type} `{TimeLaws W}.

Lemma hold_until_ends fuel deadline w :
  deadline - time w <= (Z.of_nat fuel - 1) * kHoldStep → (0 < fuel)%nat →
  ∃ w', hold_until fuel deadline w = (true, w') ∧ deadline <= time w'.
Proof.
  revert w. induction fuel as [|fuel IH]; intros w Hd Hf; [lia|]. cbn [hold_until].
  unfold mthen, mret. destruct (clock_now w) as [now w1] eqn:E1. pose proof (clock_run _ _ _ E1) as [Hn1 Hn2].
  destruct (now <? deadline) eqn:Elt; b2p; [|exists w1; split; [done|lia]].
  destruct (sleep_for kHoldStep w1) as [[] w2] eqn:E2. pose proof (sleep_run _ _ _ _ E2) as [_ Hs].
  unfold kHoldStep, ns_of_millis in *. destruct fuel as [|k]; [lia|]. apply IH; lia.
Qed.

(** The command holds for as long as it says, and then goes on. *)
Lemma hold_spec seconds w :
  0 <= seconds → ∃ w', hold seconds w = (true, w') ∧ time w + ns_of_millis (seconds * 1000) <= time w'.
Proof.
  intros Hs. unfold hold, mthen. destruct (clock_now w) as [now w1] eqn:E1.
  pose proof (clock_run _ _ _ E1) as [Hn1 Hn2].
  destruct (hold_until_ends (hold_fuel seconds) (now + ns_of_millis (seconds * 1000)) w1) as (w2 & E & Ht).
  - unfold hold_fuel, kHoldStep, ns_of_millis. lia.
  - unfold hold_fuel. lia.
  - exists w2. split; [done|lia].
Qed.
End HoldTime.

Lemma hold_preserves {W Y} `{SteadyClock W, !Sleeping W} (see : W → Y) seconds :
  preserves see clock_now → (∀ d, preserves see (sleep_for d)) → preserves see (hold seconds).
Proof.
  intros Hc Hs. unfold hold. apply preserves_bind; [done|]. intros now.
  generalize (now + ns_of_millis (seconds * 1000)) (hold_fuel seconds). intros deadline fuel.
  induction fuel as [|fuel IH]; cbn [hold_until]; [frame|]. apply preserves_bind; [done|]. intros n.
  destruct (n <? deadline); [|frame]. by apply preserves_bind.
Qed.

Lemma lease_seconds_range `{WideCtypeLaws} text s : lease_seconds text = Some s → 1 <= s <= kMaxSeconds.
Proof.
  unfold lease_seconds. destruct (ParseUint32 text) as [n|] eqn:En; [|done].
  apply wide_ParseUint32_range in En. unfold is_u32 in En.
  destruct (_ || _) eqn:E; [done|]. intros [= <-]. apply orb_false_iff in E as [E0 E]. b2p. lia.
Qed.

(** ** The calls *)

(** The calls that change the system, and what a listing of threads answered. *)
Inductive LeaseCall :=
  | PowerCall
  | PriorityCall
  | ThreadsListed (pid : Z) (threads : list ThreadSnapshot)
  | ThreadCall (tid priority : Z)
  | AffinityCall (tid mask : Z).

Section WorldInstances.
Context {F X : Type}.
Notation W := (World LeaseCall F X).

#[export] Instance world_power `{PowerRequestBackend X} : PowerRequestBackend W := {|
  CreateRequest r := recorded PowerCall (CreateRequest r);
  SetRequest h t := recorded PowerCall (SetRequest h t);
  ClearRequest h t := recorded PowerCall (ClearRequest h t);
  CloseRequest h := recorded PowerCall (CloseRequest h)
|}.

#[export] Instance world_priority `{PriorityBackend X} : PriorityBackend W := {|
  OpenProcess pid := recorded PriorityCall (OpenProcess pid);
  QueryCreationTime h := recorded PriorityCall (QueryCreationTime h);
  QueryPriorityClass h := recorded PriorityCall (QueryPriorityClass h);
  SetPriorityClass h c := recorded PriorityCall (SetPriorityClass h c);
  CloseProcess h := recorded PriorityCall (CloseProcess h)
|}.

Definition listed (pid : Z) (answer : Result (list ThreadSnapshot)) : list LeaseCall :=
  match answer with Success l => [ThreadsListed pid l] | Failure _ => [] end.

#[export] Instance world_threads `{SchedulerBackend X} : SchedulerBackend W := {|
  ListThreads pid := λ '(f, (t, x)),
    let '(a, x') := ListThreads pid x in (a, (f, (t ++ listed pid a, x')));
  GetPriority t := quietly (GetPriority t);
  SetPriority t p := recorded (ThreadCall t p) (SetPriority t p);
  GetAffinity t := quietly (GetAffinity t);
  SetAffinity t m := recorded (AffinityCall t m) (SetAffinity t m)
|}.

#[export] Instance world_steady `{SteadyClock X} : SteadyClock W := quietly clock_now.
#[export] Instance world_sleep `{Sleeping X} : Sleeping W := λ d, quietly (sleep_for d).

#[export] Instance world_time_laws `{TimeLaws X} : TimeLaws W.
Proof.
  refine {| time w := time w.2.2 |}.
  - intros (f & t & x). cbn. pose proof (clock_time x). by destruct (clock_now x).
  - intros d (f & t & x). cbn. pose proof (sleep_time d x). by destruct (sleep_for d x).
Defined.

(** A call that is recorded does what it does to the system. *)
Lemma recorded_run {A} (c : LeaseCall) (m : M X A) (w w' : W) a :
  recorded c m w = (a, w') → m w.2.2 = (a, w'.2.2).
Proof. destruct w as (f & t & x). cbn. destruct (m x). by intros [= <- <-]. Qed.

#[export] Instance world_power_laws `{PowerRequestLaws X} : PowerRequestLaws W.
Proof.
  refine {| objects w := objects w.2.2; in_force w := in_force w.2.2 |}.
  - intros r w h w' E. exact (create_ok _ _ _ _ (recorded_run _ _ _ _ _ E)).
  - intros r w e w' E. exact (create_fail _ _ _ _ (recorded_run _ _ _ _ _ E)).
  - intros h t w u w' E. exact (set_ok _ _ _ _ _ (recorded_run _ _ _ _ _ E)).
  - intros h t w e w' E. exact (set_fail _ _ _ _ _ (recorded_run _ _ _ _ _ E)).
  - intros h t w u w' E. exact (clear_ok _ _ _ _ _ (recorded_run _ _ _ _ _ E)).
  - intros h t w e w' E. exact (clear_fail _ _ _ _ _ (recorded_run _ _ _ _ _ E)).
  - intros h (f & t & x). pose proof (close_request h x). cbn. by destruct (CloseRequest h x).
Defined.

#[export] Instance world_priority_laws `{PriorityLaws X} : PriorityLaws W.
Proof.
  refine {| handles w := handles w.2.2; process h w := process h w.2.2;
            class_of p w := class_of p w.2.2; created := created |}.
  - intros pid w h w' E. exact (open_ok _ _ _ _ (recorded_run _ _ _ _ _ E)).
  - intros pid w e w' E. exact (open_fail _ _ _ _ (recorded_run _ _ _ _ _ E)).
  - intros h w t w' Hh E. exact (query_time _ _ _ _ Hh (recorded_run _ _ _ _ _ E)).
  - intros h w c w' Hh E. exact (query_class _ _ _ _ Hh (recorded_run _ _ _ _ _ E)).
  - intros h c w u w' Hh E. exact (set_class_ok _ _ _ _ _ Hh (recorded_run _ _ _ _ _ E)).
  - intros h c w e w' E. exact (set_class_fail _ _ _ _ _ (recorded_run _ _ _ _ _ E)).
  - intros h (f & t & x). pose proof (close_process h x). cbn. by destruct (CloseProcess h x).
Defined.
End WorldInstances.

(** ** Records leave the system alone *)

Section Recording.
Context {F X Y : Type} `{SystemMessages} `{FileSystem F} `{Clock F} `{Folders F} `{UnixTime F}.
Context `{AgentFormState X} (see : list LeaseCall * X → Y).
Notation W := (World LeaseCall F X).

Lemma AuditAction_beside op risk target ok detail state :
  string_empty state = false → preserves (beside see) (AuditAction (W := W) op risk target ok detail state).
Proof.
  intros Hs. unfold AuditAction. rewrite Hs.
  pose proof (AppendAudit_beside (C := LeaseCall) (F := F) (X := X) see).
  pose proof (JournalAction_beside (C := LeaseCall) (F := F) (X := X) see).
  repeat (apply preserves_bind; [by auto|]; intros ?). by apply preserves_ret.
Qed.

Lemma probe_audit_beside : preserves (beside see) (probe_audit (W := W)).
Proof.
  intros w. unfold probe_audit. revert w. 
  intros w. set (p := DefaultAuditLogPath w). clearbody p. revert w.
  apply preserves_bind; [apply ProbeAuditWritable_beside|]. intros r. by apply preserves_ret.
Qed.
End Recording.

Lemma probe_audit_run {F X} `{SystemMessages} `{FileSystem F} `{Clock F} `{Folders F}
    (w w' : World LeaseCall F X) ok :
  probe_audit w = (ok, w') → calls w' = calls w ∧ w'.2.2 = w.2.2.
Proof.
  intros E. pose proof (probe_audit_beside (F := F) (X := X) (λ p, p) w) as Hb. rewrite E in Hb.
  unfold beside in Hb. cbn in Hb. unfold calls. by rewrite Hb.
Qed.

Lemma on_world_run {S W A Y} (see : W → Y) (m : M W A) (s s' : S) w a w' :
  preserves see m → on_world m (s, w) = (a, (s', w')) → s' = s ∧ see w' = see w.
Proof.
  intros Hm. unfold on_world. specialize (Hm w). destruct (m w) as [r w1]. by intros [= <- <- <-].
Qed.

(** The audit trail can be written. *)
Definition trail_open {F X} `{SystemMessages} `{FileSystem F} `{Clock F} `{Folders F}
    (w : World LeaseCall F X) : Prop := (probe_audit w).1 = true.

(** ** What is seen of the system *)

(** Between the two systems of two worlds. *)
Definition inside {F X} (R : relation X) : relation (World LeaseCall F X) := λ w w', R w.2.2 w'.2.2.

#[export] Instance inside_preorder {F X} (R : relation X) `{!PreOrder R} : PreOrder (@inside F X R).
Proof. split; [intros w; unfold inside; reflexivity|]. intros x y z. unfold inside. apply transitivity. Qed.

Lemma recorded_steps {F X A} (R : relation X) (c : LeaseCall) (m : M X A) :
  steps R m → steps (@inside F X R) (recorded c m).
Proof. intros Hm (f & t & x). specialize (Hm x). unfold inside. cbn. by destruct (m x). Qed.

Lemma quietly_steps {F X A} (R : relation X) (m : M X A) :
  steps R m → steps (@inside F X R) (quietly m).
Proof. intros Hm (f & t & x). specialize (Hm x). unfold inside. cbn. by destruct (m x). Qed.

Lemma on_world_steps {S F X A} (R : relation X) (m : M (World LeaseCall F X) A) :
  steps (inside R) m → steps (@beneath S _ (inside R)) (on_world m).
Proof. intros Hm [s w]. specialize (Hm w). unfold beneath. cbn. by destruct (m w). Qed.

(** What leaves the system alone. *)
Lemma beside_steps {F X A} (R : relation X) `{!PreOrder R} (m : M (World LeaseCall F X) A) :
  preserves (beside snd) m → steps (inside R) m.
Proof. intros Hm w. specialize (Hm w). unfold beside, inside in *. by rewrite Hm. Qed.

Section Seen.
Context {F X : Type} `{SteadyClock X, !Sleeping X}.
Notation W := (World LeaseCall F (Watched X)).

(** What was seen before is still seen. *)
Definition extends (s s' : Watched X) : Prop := ∃ made, sights s' = sights s ++ made.

#[export] Instance extends_preorder : PreOrder extends.
Proof.
  split; [intros s; exists []; by rewrite app_nil_r|].
  intros s1 s2 s3 [m1 E1] [m2 E2]. exists (m1 ++ m2). by rewrite E2, E1, app_assoc.
Qed.

Lemma watching_extends {A} (m : M X A) : steps extends (watching m).
Proof. intros [x l]. cbn. destruct (m x) as [a x']. by exists [x; x']. Qed.

Context (P : X → Prop) (Pclock : ∀ x, P x → P (clock_now x).2) (Psleep : ∀ d x, P x → P (sleep_for d x).2).

(** Whoever holds sees [P] all the time. *)
Lemma hold_until_sights fuel deadline (w w' : W) :
  P w.2.2.1 → hold_until fuel deadline w = (true, w') →
  ∃ between, sights w'.2.2 = sights w.2.2 ++ w.2.2.1 :: between ++ [w'.2.2.1] ∧
    Forall P (w.2.2.1 :: between ++ [w'.2.2.1]).
Proof.
  induction fuel as [|fuel IH] in w |- *; [done|]. destruct w as (f & t & x & l). cbn.
  unfold mthen, mret. cbn. intros HP. pose proof (Pclock x HP) as P1.
  destruct (clock_now x) as [now x1]. cbn in *. destruct (now <? deadline).
  - pose proof (Psleep kHoldStep x1 P1) as P2. cbn. unfold mthen, quietly. cbn.
    destruct (sleep_for kHoldStep x1) as [u x2]. cbn in *.
    intros E. apply IH in E as (b & Eb & Hb); [|done]. cbn in *.
    exists (x1 :: x1 :: x2 :: x2 :: b). rewrite Eb. split; [by rewrite <- !app_assoc|].
    cbn. by do 4 (constructor; [done|]).
  - intros [= <-]. cbn. exists []. split; [done|]. repeat constructor; done.
Qed.

Lemma hold_sights seconds (w w' : W) :
  P w.2.2.1 → hold seconds w = (true, w') →
  ∃ between, sights w'.2.2 = sights w.2.2 ++ w.2.2.1 :: between ++ [w'.2.2.1] ∧
    Forall P (w.2.2.1 :: between ++ [w'.2.2.1]).
Proof.
  intros HP. unfold hold, mthen. generalize (hold_fuel seconds). intros fuel.
  destruct w as (f & t & x & l). cbn. pose proof (Pclock x HP) as P1.
  destruct (clock_now x) as [now x1] eqn:E1. cbn in *. intros E.
  apply hold_until_sights in E as (b & Eb & Hb); [|done]. cbn in *.
  exists (x1 :: x1 :: b). rewrite Eb. split; [by rewrite <- !app_assoc|].
  cbn. by do 2 (constructor; [done|]).
Qed.
End Seen.

(** A hold within a run: its part of what was seen. *)
Lemma hold_kept_for {F X} `{TimeLaws X} (P : X → Prop) seconds (w0 w1 w2 w3 : World LeaseCall F (Watched X)) :
  (∀ x, P x → P (clock_now x).2) → (∀ d x, P x → P (sleep_for d x).2) →
  inside extends w0 w1 → P w1.2.2.1 → hold seconds w1 = (true, w2) →
  time w1 + ns_of_millis (seconds * 1000) <= time w2 → inside extends w2 w3 →
  ∃ seen, sights w3.2.2 = sights w0.2.2 ++ seen ∧ kept_for P (ns_of_millis (seconds * 1000)) seen.
Proof.
  intros Hc Hs [l1 E1] HP Eh Ht [l3 E3].
  destruct (hold_sights P Hc Hs seconds w1 w2 HP Eh) as (between & E2 & Hall).
  exists (l1 ++ (w1.2.2.1 :: between ++ [w2.2.2.1]) ++ l3). split.
  { by rewrite E3, E2, E1, <- !app_assoc. }
  apply kept_for_inside. exists [], w1.2.2.1, between, w2.2.2.1, []. done.
Qed.

(** ** [--power-lock] *)

(** Neither the clock nor a sleep touches the power requests. *)
Class KeepsPower (X : Type) `{PowerRequestLaws X} `{SteadyClock X, !Sleeping X} := {
  clock_objects : preserves objects clock_now;
  clock_in_force : preserves in_force clock_now;
  sleep_objects d : preserves objects (sleep_for d);
  sleep_in_force d : preserves in_force (sleep_for d)
}.

Section PowerLockLaws.
Context {F X : Type} `{SystemMessages} `{FileSystem F} `{Clock F} `{Folders F} `{UnixTime F}.
Context `{AgentFormState X} `{WideCtypeLaws} `{CodePages}.
Context `{PowerRequestLaws X} `{TimeLaws X} `{!KeepsPower X}.
Notation W := (World LeaseCall F X).

Lemma locker_inv_on_world {A} p (m : M W A) w a p' w' :
  preserves (beside snd) m → on_world m (p, w) = (a, (p', w')) → locker_inv p w →
  p' = p ∧ locker_inv p w'.
Proof.
  intros Hm E Hinv. apply (on_world_run (beside snd)) in E as [-> Hw]; [|done]. split; [done|].
  unfold beside in Hw. apply (locker_inv_same p w w'); [| |done]; cbn; by rewrite Hw.
Qed.

Lemma acquire_types_spec types reason p (w : W) ok p' w' :
  locker_inv p w → acquire_types types reason (p, w) = (ok, (p', w')) →
  locker_inv p' w' ∧
  if ok then ∀ t, t ∈ types ∨ (0 < LockCount t p)%nat → (0 < LockCount t p')%nat
  else ∀ t, LockCount t p' = 0%nat.
Proof.
  induction types as [|t types IH] in p, w |- *; cbn [acquire_types]; intros Hinv.
  { intros [= <- <- <-]. split; [done|]. intros t [?%elem_of_nil|?]; done. }
  unfold mthen. destruct (on_world (JournalAction _ _ _ _ _) (p, w)) as [j [p1 w1]] eqn:E1.
  apply locker_inv_on_world in E1 as [-> Hinv1]; [|apply JournalAction_beside|done].
  destruct (AcquireLock t reason (p, w1)) as [r [p2 w2]] eqn:E2.
  destruct (@power_acquire_spec (PowerLocker * W) locker_service t reason (p, w1) r (p2, w2) Hinv1 E2) as [Hinv2 Hc].
  cbn [power_count power_inv locker_service fst snd] in Hinv2, Hc. destruct r as [u|e].
  - destruct (on_world (AuditAction _ _ _ _ _ _) (p2, w2)) as [a [p3 w3]] eqn:E3.
    apply locker_inv_on_world in E3 as [-> Hinv3]; [|by apply AuditAction_beside|done].
    intros E. apply IH in E as [Hinv' Hok]; [|done]. split; [done|]. destruct ok; [|done].
    intros t' Ht'. apply Hok. destruct (decide (t' = t)) as [->|Hne].
    + right. rewrite Hc, decide_True by done. unfold bump. cbn. apply Nat.lt_0_succ.
    + rewrite Hc, decide_False by done. destruct Ht' as [Ht'|?]; [left|by right]. set_solver.
  - destruct (on_world (AuditAction _ _ _ _ _ _) (p2, w2)) as [a [p3 w3]] eqn:E3.
    apply locker_inv_on_world in E3 as [-> Hinv3]; [|by apply AuditAction_beside|done].
    pose proof (ReleaseAll_spec p2 w3 Hinv3) as Hr. destruct (ReleaseAll (p2, w3)) as [[] [p4 w4]].
    unfold mret. by intros [= <- <- <-].
Qed.

(** Nothing is held: nothing is in force. *)
Lemma locker_inv_none p (w : W) :
  locker_inv p w → (∀ t, LockCount t p = 0%nat) → objects w = ∅ ∧ in_force w = ∅.
Proof.
  intros (_ & _ & Hf & Ho & _) Hc. assert (held p = ∅) as E.
  { unfold held, held_by. unfold LockCount in Hc. rewrite !Hc. set_solver. }
  by rewrite Ho, Hf, E, set_map_empty.
Qed.

Lemma locker_inv_held p (w : W) t :
  locker_inv p w → (0 < LockCount t p)%nat → ∃ h, (h, t) ∈ in_force w.
Proof.
  intros (_ & _ & Hf & _) Hc. exists (handle (lock_state t p)). rewrite Hf, (held_split t).
  unfold held_by at 1. unfold LockCount in Hc. destruct (count _); [lia|set_solver].
Qed.

Lemma hold_keeps_power seconds p (w : W) h p' w' :
  on_world (hold seconds) (p, w) = (h, (p', w')) → locker_inv p w →
  p' = p ∧ locker_inv p w' ∧ in_force w' = in_force w.
Proof.
  assert (Ho : preserves objects (hold (W := W) seconds)).
  { apply hold_preserves; [|intros d]; intros (f & t & x); cbn;
      [pose proof (clock_objects x) as Hk; by destruct (clock_now x)
      |pose proof (sleep_objects d x) as Hk; by destruct (sleep_for d x)]. }
  assert (Hf : preserves in_force (hold (W := W) seconds)).
  { apply hold_preserves; [|intros d]; intros (f & t & x); cbn;
      [pose proof (clock_in_force x) as Hk; by destruct (clock_now x)
      |pose proof (sleep_in_force d x) as Hk; by destruct (sleep_for d x)]. }
  intros E Hinv. pose proof E as E2. apply (on_world_run objects) in E as [-> Eo]; [|done].
  apply (on_world_run in_force) in E2 as [_ Ef]; [|done].
  split_and!; [done|by apply (locker_inv_same p w w')|done].
Qed.

(** What is held is held in the system that [acquire_types] left, for as long as
    the hold takes, before anything is released. *)
Lemma lock_for_spec (R : relation X) `{!PreOrder R} seconds types reason (w : W) r p' w' :
  (∀ r, steps R (CreateRequest (B := X) r)) → (∀ h t, steps R (SetRequest (B := X) h t)) →
  (∀ h t, steps R (ClearRequest (B := X) h t)) → (∀ h, steps R (CloseRequest (B := X) h)) →
  0 <= seconds → objects w = ∅ → in_force w = ∅ →
  lock_for seconds types reason (NewPowerLocker true, w) = (r, (p', w')) →
  objects w' = ∅ ∧ in_force w' = ∅ ∧
  (r = Some 2 ∨ r = Some 0 ∧ ∃ w1 w2 : W, inside R w w1 ∧
     (∀ t, t ∈ types → ∃ h, (h, t) ∈ in_force w1) ∧ hold seconds w1 = (true, w2) ∧
     time w1 + ns_of_millis (seconds * 1000) <= time w2 ∧ inside R w2 w').
Proof.
  intros R1 R2 R3 R4 Hs Ho Hf. pose proof (locker_inv_new w Hf Ho true) as Hinv. unfold lock_for, mthen, mret.
  assert (Hrecord : ∀ A (m : M W A), preserves (beside snd) m → steps (@beneath PowerLocker W (inside R)) (on_world m))
    by (intros A m Hm; by apply on_world_steps, beside_steps).
  assert (Hall : steps (@beneath PowerLocker W (inside R)) ReleaseAll)
    by (apply (ReleaseAll_steps (inside R)); intros; by apply recorded_steps).
  destruct (acquire_types types reason _) as [ok [p1 w1]] eqn:E1.
  assert (inside R w w1) as S1.
  { refine (steps_run (beneath (inside R)) _ (NewPowerLocker true, w) _ (p1, w1) _ E1). clear E1.
    induction types as [|t types IH]; cbn [acquire_types]; [apply steps_ret, _|].
    apply steps_bind; [apply _|by apply Hrecord, JournalAction_beside|intros _].
    apply steps_bind; [apply _| |].
    { apply (AcquireLock_steps (inside R)); intros; by apply recorded_steps. }
    intros [u|e]; (apply steps_bind; [apply _|by apply Hrecord, AuditAction_beside|intros _]); [done|].
    apply steps_bind; [apply _|done|intros _]. apply steps_ret, _. }
  apply acquire_types_spec in E1 as [Hinv1 Hc]; [|done]. destruct ok; cbn [negb].
  2:{ intros [= <- <- <-]. destruct (locker_inv_none p1 w1 Hinv1 Hc). auto. }
  destruct (hold_spec seconds w1 Hs) as (w2 & Eh & Ht).
  assert (on_world (hold seconds) (p1, w1) = (true, (p1, w2))) as E2 by (unfold on_world; by rewrite Eh).
  rewrite E2. apply hold_keeps_power in E2 as (_ & Hinv2 & Ef); [|done]. cbn [negb].
  destruct (on_world (JournalAction _ _ _ _ _) (p1, w2)) as [j [p3 w3]] eqn:E3.
  pose proof E3 as S3. eapply steps_run in S3; [|by apply Hrecord, JournalAction_beside].
  apply locker_inv_on_world in E3 as [-> Hinv3]; [|apply JournalAction_beside|done].
  pose proof (ReleaseAll_spec p1 w3 Hinv3) as Hr. destruct (ReleaseAll (p1, w3)) as [[] [p4 w4]] eqn:E4.
  pose proof (steps_run _ _ _ _ _ Hall E4) as S4. destruct Hr as [Hinv4 Hc4].
  destruct (on_world (AuditAction _ _ _ _ _ _) (p4, w4)) as [a [p5 w5]] eqn:E5.
  pose proof E5 as S5. eapply steps_run in S5; [|by apply Hrecord, AuditAction_beside].
  apply locker_inv_on_world in E5 as [-> Hinv5]; [|by apply AuditAction_beside|done].
  intros [= <- <- <-]. destruct (locker_inv_none p4 w5 Hinv5 Hc4). split_and!; [done..|right].
  split; [done|]. exists w1, w2. split_and!; [done| |done|done|].
  - intros t Hin. apply (locker_inv_held p1 w1 t Hinv1), Hc. by left.
  - unfold beneath in *. cbn in *. etransitivity; [exact S3|]. by etransitivity.
Qed.
End PowerLockLaws.

Section PowerLockSeen.
Context {F X : Type} `{SystemMessages} `{FileSystem F} `{Clock F} `{Folders F} `{UnixTime F}.
Context `{AgentFormState X} `{WideCtypeLaws} `{CodePages}.
Context `{PowerRequestLaws X} `{TimeLaws X} `{!KeepsPower X}.
Notation W := (World LeaseCall F (Watched X)).

#[export] Instance watched_keeps_power : KeepsPower (Watched X).
Proof.
  constructor.
  - intros [x l]. pose proof (clock_objects x). cbn. by destruct (clock_now x).
  - intros [x l]. pose proof (clock_in_force x). cbn. by destruct (clock_now x).
  - intros d [x l]. pose proof (sleep_objects d x). cbn. by destruct (sleep_for d x).
  - intros d [x l]. pose proof (sleep_in_force d x). cbn. by destruct (sleep_for d x).
Qed.

(** Of every type a request is in force. *)
Definition all_in_force (types : list PowerLockType) (x : X) : Prop :=
  ∀ t, t ∈ types → ∃ h, (h, t) ∈ in_force x.

(** C11. [--power-lock] gives back what it takes. Whatever the system answers to
    any call, the command ends, with 0 or 2; no power request is in force
    afterwards and no request object is open, also where the second of two requests
    failed. Where it answers 0, every state in which its calls found and left the
    system, from one of them until another the whole time later, 1 to 60 seconds,
    had a request of every type it was asked for in force. It makes no call that
    changes a request unless the audit trail can be written. *)
Theorem power_lock_gives_back text_of text args (w w' : W) r :
  objects w = ∅ → in_force w = ∅ →
  RunPowerLockCommand text_of text args w = (r, w') →
  objects w' = ∅ ∧ in_force w' = ∅ ∧
  (r = Some 2 ∨
   r = Some 0 ∧ ∃ seconds, lease_seconds text = Some seconds ∧ 1 <= seconds <= kMaxSeconds ∧
     ∃ seen, sights w'.2.2 = sights w.2.2 ++ seen ∧
       kept_for (all_in_force (lock_types args).1) (ns_of_millis (seconds * 1000)) seen) ∧
  (calls w' ≠ calls w → trail_open w).
Proof.
  intros Ho Hf. unfold RunPowerLockCommand, trail_open, mthen, mret.
  destruct (lease_seconds text) as [s|] eqn:Es; [|intros [= <- <-]; split_and!; [done|done|by left|done]].
  destruct (lock_types args) as [types words]. pose proof (lease_seconds_range _ _ Es) as Hs.
  destruct (probe_audit w) as [ok w1] eqn:Ep.
  pose proof (probe_audit_run _ _ _ Ep) as [Hc Hx].
  destruct ok; cbn [negb fst]; [|intros [= <- <-]; split_and!; [cbn; by rewrite Hx..|by left|by rewrite Hc]].
  destruct (lock_for s types _ _) as [r0 [p' w2]] eqn:El. intros [= <- <-].
  apply (lock_for_spec extends) in El as (Ho2 & Hf2 & Hr);
    [|try (intros; apply watching_extends); first [lia|cbn; by rewrite Hx]..].
  split_and!; [done|done| |done]. destruct Hr as [?|(? & w3 & w4 & S3 & Hall & Eh & Ht & S4)]; [by left|right].
  split; [done|]. exists s. split_and!; [done|lia..|]. rewrite <- Hx.
  apply (hold_kept_for _ s w1 w3 w4 w2); [..|done]; [| |done|exact Hall|done|done].
  - intros x Hall' t Ht'. rewrite (clock_in_force x). by apply Hall'.
  - intros d x Hall' t Ht'. rewrite (sleep_in_force d x). by apply Hall'.
Qed.
End PowerLockSeen.

(** ** [--priority-boost] *)

(** Neither the clock nor a sleep touches handles and classes: nobody else changes
    the class of a process meanwhile ([PriorityBooster] says what happens then). *)
Class KeepsClasses (X : Type) `{PriorityLaws X} `{SteadyClock X, !Sleeping X} := {
  clock_handles : preserves handles clock_now;
  clock_process h : preserves (process h) clock_now;
  clock_class p : preserves (class_of p) clock_now;
  sleep_handles d : preserves handles (sleep_for d);
  sleep_process h d : preserves (process h) (sleep_for d);
  sleep_class p d : preserves (class_of p) (sleep_for d)
}.

Section Restoring.
Context {B : Type} `{PriorityLaws B}.




End Restoring.

Section PriorityBoostLaws.
Context {F X Node : Type} `{SystemMessages} `{FileSystem F} `{Clock F} `{Folders F} `{UnixTime F}.
Context `{AgentFormState X} `{WideCtypeLaws} `{CodePages} `{Toml Node} `{TomlFiles F Node}.
Context `{PriorityLaws X} `{TimeLaws X} `{!KeepsClasses X}.
Notation W := (World LeaseCall F X).







End PriorityBoostLaws.

Section PriorityBoostSeen.
Context {F X Node : Type} `{SystemMessages} `{FileSystem F} `{Clock F} `{Folders F} `{UnixTime F}.
Context `{AgentFormState X} `{WideCtypeLaws} `{CodePages} `{Toml Node} `{TomlFiles F Node}.
Context `{PriorityLaws X} `{TimeLaws X} `{!KeepsClasses X}.
Notation W := (World LeaseCall F (Watched X)).

#[export] Instance watched_keeps_classes : KeepsClasses (Watched X).
Proof.
  constructor.
  - intros [x l]. pose proof (clock_handles x). cbn. by destruct (clock_now x).
  - intros h [x l]. pose proof (clock_process h x). cbn. by destruct (clock_now x).
  - intros p [x l]. pose proof (clock_class p x). cbn. by destruct (clock_now x).
  - intros d [x l]. pose proof (sleep_handles d x). cbn. by destruct (sleep_for d x).
  - intros h d [x l]. pose proof (sleep_process h d x). cbn. by destruct (sleep_for d x).
  - intros p d [x l]. pose proof (sleep_class p d x). cbn. by destruct (sleep_for d x).
Qed.

End PriorityBoostSeen.

(** ** [--scheduler] *)

Section SchedulerLaws.
Context {F X Node : Type} `{SystemMessages} `{BuildOptions} `{FileSystem F} `{Clock F} `{Folders F}.
Context `{UnixTime F} `{Modules X} `{PlatformApi X} `{SessionProbe X} `{AgentFormState X}.
Context `{WideCtype} `{SchedulerBackend X} `{Toml Node} `{TomlFiles F Node}.
Notation W := (World LeaseCall F X).

(** Of the calls nothing but listings of the process, and what raises a thread
    that the last of them found below it to one above normal. *)
Fixpoint raises (pid : Z) (found : list ThreadSnapshot) (cs : list LeaseCall) : Prop :=
  match cs with
  | [] => True
  | ThreadsListed p l :: cs => p = pid ∧ raises pid l cs
  | ThreadCall t p :: cs =>
      p = THREAD_PRIORITY_ABOVE_NORMAL ∧
      (∃ s, s ∈ found ∧ ts_threadId s = t ∧ ts_priority s < p) ∧ raises pid found cs
  | _ :: _ => False
  end.

Lemma ListThreads_emits pid : emits (ListThreads (B := W) pid) (λ r cs, cs = listed pid r).
Proof. intros (f & t & x) r w'. cbn. destruct (ListThreads pid x). intros [= <- <-]. by eexists. Qed.

Lemma ListThreads_files pid : preserves (@files_of LeaseCall F X) (ListThreads pid).
Proof. intros (f & t & x). cbn. by destruct (ListThreads pid x). Qed.

Lemma boost_threads_emits pid found ts rep :
  (∀ s, s ∈ ts → s ∈ found) →
  emits (boost_threads (B := W) THREAD_PRIORITY_ABOVE_NORMAL ts rep) (λ _ cs, raises pid found cs).
Proof.
  induction ts as [|t ts IH] in rep |- *; cbn [boost_threads]; intros Hin; [by apply emits_ret|].
  assert (Hts : ∀ s, s ∈ ts → s ∈ found) by (intros s Hs; apply Hin; by right).
  destruct (ShouldRaisePriority _ _) eqn:Es; cbn [negb]; [|by apply IH].
  unfold ShouldRaisePriority in Es. b2p.
  eapply (emits_bind _ _ (λ _ cs, cs = [ThreadCall (ts_threadId t) THREAD_PRIORITY_ABOVE_NORMAL])).
  { by apply (emits_recorded (F := F)). }
  assert (Hone : ∃ s, s ∈ found ∧ ts_threadId s = ts_threadId t ∧ ts_priority s < THREAD_PRIORITY_ABOVE_NORMAL)
    by (exists t; split_and!; [apply Hin; by left|done|done]).
  intros [u|e] cs ->; [|by apply emits_ret].
  intros w a w' E. apply IH in E as (cs & Hcs & Hr); [|done]. by exists cs.
Qed.

Lemma raise_threads_emits pid : emits (raise_threads (W := W) pid) (λ _ cs, raises pid [] cs).
Proof.
  unfold raise_threads. eapply (emits_bind _ _ (λ _ cs, raises pid [] cs)).
  { unfold BoostProcessThreads. destruct (negb _); [by apply emits_ret|].
    eapply emits_bind; [apply ListThreads_emits|]. intros [l|e] cs ->; cbn [listed]; [|by apply emits_ret].
    intros w a w' E. apply (boost_threads_emits pid l) in E as (cs & Hcs & Hr); [|done].
    exists cs. by split. }
  intros [r|e] cs Hcs; [|apply emits_ret; by rewrite app_nil_r].
  apply emits_quiet; [frame|]. intros a. by rewrite app_nil_r.
Qed.

Lemma raises_weaken pid found cs : raises pid [] cs → raises pid found cs.
Proof.
  destruct cs as [|[] cs]; cbn; try done. intros (_ & (s & Hs & _) & _). by apply elem_of_nil in Hs.
Qed.

(** What the gates ask for, in the world they look at. *)
Definition raising_allowed (path_of : wstring → string) (args : list wstring) (w : W) : Prop :=
  SchedulerTunerCompiledIn = true ∧ trail_open w ∧
  (∃ a p s, scheduler_arguments (MkSchedulerArguments false false None) args = Some a ∧
     sched_execute a = true ∧ sched_acknowledged a = true ∧ sched_config a = Some p ∧
     LoadConfig (path_of p) w = Success s ∧ tog_enabled (scheduler s) = true) ∧
  ∃ ledger, ReadCooldownLedger (DefaultCooldownLedgerPath (probe_audit w).2) (probe_audit w).2 = Success ledger ∧
    EvaluateCooldownGate ledger kSchedulerTunerCapabilityId (unix_time (probe_audit w).2) kDefaultCooldown = true.

(** C35. [--scheduler] sets the priority of no thread, unless the capability is in
    the build, the configuration that is named asks for it, the command line says
    [--execute] and acknowledges the effects, the audit trail can be written and
    no run is too recent, all as the command finds it once it has listed the
    threads; and then it only raises: to one above normal, and threads of that
    process alone that its own listing found below it. *)
Theorem scheduler_gated path_of text args (w w' : W) code :
  RunSchedulerCommand path_of text args w = (code, w') →
  ∃ made, calls w' = calls w ++ made ∧
    (made = [] ∨ ∃ pid, ParseUint32 text = Some pid ∧ raises pid [] made ∧
       ∀ t p, ThreadCall t p ∈ made → raising_allowed path_of args (ListThreads pid w).2).
Proof.
  unfold RunSchedulerCommand.
  assert (Hnone : ∀ c, (c, w) = (code, w') → ∃ made, calls w' = calls w ++ made ∧
    (made = [] ∨ ∃ pid, ParseUint32 text = Some pid ∧ raises pid [] made ∧
       ∀ t p, ThreadCall t p ∈ made → raising_allowed path_of args (ListThreads pid w).2)).
  { intros c [= _ <-]. exists []. rewrite app_nil_r. by split; [|left]. }
  destruct (ParseUint32 text) as [pid|] eqn:Epid; [|apply Hnone]. destruct (pid =? 0); [apply Hnone|].
  destruct (scheduler_arguments _ args) as [a|] eqn:Ea; [|apply Hnone]. clear Hnone. unfold mthen, mret.
  destruct (ListThreads pid w) as [snapshot w1] eqn:E1.
  destruct (ListThreads_emits pid _ _ _ E1) as (found & Hcalls & ->).
  assert (Hlisted : raises pid [] (listed pid snapshot) ∧ ∀ t p, ThreadCall t p ∉ listed pid snapshot).
  { destruct snapshot; cbn; split; try done; intros t p; [intros [?|?%elem_of_nil]%elem_of_cons; done|].
    apply not_elem_of_nil. }
  assert (Hret : ∀ c (w2 : W), calls w2 = calls w1 → (c, w2) = (code, w') →
    ∃ made, calls w' = calls w ++ made ∧ (made = [] ∨ ∃ pid', Some pid = Some pid' ∧ raises pid' [] made ∧
       ∀ t p, ThreadCall t p ∈ made → raising_allowed path_of args (ListThreads pid' w).2)).
  { intros c w2 E [= _ <-]. exists (listed pid snapshot). split; [congruence|right].
    exists pid. split_and!; [done|apply Hlisted|]. intros t p Hin. by apply Hlisted in Hin. }
  destruct (HasValue snapshot) eqn:Hv; cbn [negb]; [|by apply Hret].
  destruct (sched_execute a) eqn:Ex; cbn [negb]; [|by apply Hret].
  destruct (scheduler_config_gate path_of (sched_config a) w1) as [conf|] eqn:Ec; [|by apply Hret].
  unfold scheduler_gates, mthen. destruct (probe_audit w1) as [ok w2] eqn:Ep.
  pose proof (probe_audit_run _ _ _ Ep) as [E2 _]. rewrite EvaluateGates_allowed. cbn.
  destruct (_ && _) eqn:Eg; cbn [negb]; [|by apply Hret].
  rewrite !andb_true_iff in Eg. destruct_and! Eg. intros E.
  destruct (raise_threads_emits pid _ _ _ E) as (made & Hm & Hr). rewrite E2, Hcalls, <- app_assoc in Hm.
  exists (listed pid snapshot ++ made). split; [done|right]. exists pid.
  split; [done|]. split; [destruct snapshot; [|done]; cbn; split; [done|]; by apply raises_weaken|].
  intros _ _ _.
  enough (raising_allowed path_of args w1) as Hall
    by exact (eq_ind_r (raising_allowed path_of args) Hall (f_equal snd E1)).
  split; [done|]. unfold trail_open. rewrite Ep. cbn. split; [done|]. split.
  - unfold scheduler_config_gate in Ec. destruct (sched_config a) as [p|] eqn:Ecp; [|by simplify_eq].
    destruct (LoadConfig (path_of p) w1) as [s|] eqn:El; [|done]. injection Ec as Ec.
    exists a, p, s. split_and!; try done. by rewrite Ec.
  - destruct (ReadCooldownLedger _ w2) as [ledger|] eqn:El; [|done]. by exists ledger.
Qed.
End SchedulerLaws.

(** ** Examples *)

(** A part of the system beside a clock. *)
Module Timed.
Definition Timed (B : Type) : Type := B * Z.

Definition part {B A} (m : M B A) : M (Timed B) A := λ '(b, t),
  let '(a, b') := m b in (a, (b', t)).

Section Parts.
Context {B : Type}.

#[export] Instance steady : SteadyClock (Timed B) := λ s, (s.2, s).
#[export] Instance sleeping : Sleeping (Timed B) := λ d s, (tt, (s.1, s.2 + 1 + Z.max 0 d)).
#[export] Instance times : TimeLaws (Timed B).
Proof.
  refine {| time s := s.2 |}; [intros s; cbn; lia|]. intros d [b t].
  cbn [snd sleep_for sleeping]. lia.
Defined.

Lemma part_run {A} (m : M B A) s a s' : part m s = (a, s') → m s.1 = (a, s'.1).
Proof. destruct s as [b t]. cbn. destruct (m b). by intros [= <- <-]. Qed.

#[export] Instance timed_power `{PowerRequestBackend B} : PowerRequestBackend (Timed B) := {|
  CreateRequest r := part (CreateRequest r); SetRequest h t := part (SetRequest h t);
  ClearRequest h t := part (ClearRequest h t); CloseRequest h := part (CloseRequest h)
|}.

#[export] Instance timed_power_laws `{PowerRequestLaws B} : PowerRequestLaws (Timed B).
Proof.
  refine {| objects s := objects s.1; in_force s := in_force s.1 |}.
  - intros r s h s' E. exact (create_ok _ _ _ _ (part_run _ _ _ _ E)).
  - intros r s e s' E. exact (create_fail _ _ _ _ (part_run _ _ _ _ E)).
  - intros h t s u s' E. exact (set_ok _ _ _ _ _ (part_run _ _ _ _ E)).
  - intros h t s e s' E. exact (set_fail _ _ _ _ _ (part_run _ _ _ _ E)).
  - intros h t s u s' E. exact (clear_ok _ _ _ _ _ (part_run _ _ _ _ E)).
  - intros h t s e s' E. exact (clear_fail _ _ _ _ _ (part_run _ _ _ _ E)).
  - intros h [b t]. pose proof (close_request h b). cbn. by destruct (CloseRequest h b).
Defined.

#[export] Instance timed_keeps_power `{PowerRequestLaws B} : KeepsPower (Timed B).
Proof. constructor; intros; intros s; reflexivity. Defined.

#[export] Instance timed_priority `{PriorityBackend B} : PriorityBackend (Timed B) := {|
  OpenProcess pid := part (OpenProcess pid); QueryCreationTime h := part (QueryCreationTime h);
  QueryPriorityClass h := part (QueryPriorityClass h);
  SetPriorityClass h c := part (SetPriorityClass h c); CloseProcess h := part (CloseProcess h)
|}.

#[export] Instance timed_priority_laws `{PriorityLaws B} : PriorityLaws (Timed B).
Proof.
  refine {| handles s := handles s.1; process h s := process h s.1;
            class_of p s := class_of p s.1; created := created |}.
  - intros pid s h s' E. exact (open_ok _ _ _ _ (part_run _ _ _ _ E)).
  - intros pid s e s' E. exact (open_fail _ _ _ _ (part_run _ _ _ _ E)).
  - intros h s t s' Hh E. exact (query_time _ _ _ _ Hh (part_run _ _ _ _ E)).
  - intros h s c s' Hh E. exact (query_class _ _ _ _ Hh (part_run _ _ _ _ E)).
  - intros h c s u s' Hh E. exact (set_class_ok _ _ _ _ _ Hh (part_run _ _ _ _ E)).
  - intros h c s e s' E. exact (set_class_fail _ _ _ _ _ (part_run _ _ _ _ E)).
  - intros h [b t]. pose proof (close_process h b). cbn. by destruct (CloseProcess h b).
Defined.

#[export] Instance timed_keeps_classes `{PriorityLaws B} : KeepsClasses (Timed B).
Proof. constructor; intros; intros s; reflexivity. Defined.
End Parts.
End Timed.

Section Witnesses.
Import Machine Timed.
#[local] Existing Instance all_capabilities.
#[local] Existing Instances plain_ctype plain_ctype_laws.
#[local] Instance plain_pages : CodePages := {|
  MultiByteToWideChar t := inl (widen t);
  WideCharToMultiByte w := inl (string_of_list_ascii (map (λ c, ascii_of_N (Z.to_N c)) w))
|}.
#[local] Instance tuned : TomlFiles MemFs tree := λ _ _, inl [("scheduler", TTable [("enabled", TBool true)])].

Definition power_desk : World LeaseCall MemFs (Watched (Timed FakePower)) :=
  (empty_fs, ([], ((fake_backend [], 0), []))).
Definition hold_power : option Z * World LeaseCall MemFs (Watched (Timed FakePower)) :=
  RunPowerLockCommand (λ _, "why") (widen "2") [widen "Both"; widen "why"] power_desk.

Lemma answered_zero (r : option Z) (Q : Prop) : r = Some 0 → (r = Some 2 ∨ r = Some 0 ∧ Q) → Q.
Proof. by intros -> [?|[_ ?]]. Qed.


Lemma power_lock_gives_back_witness :
  objects power_desk = ∅ ∧ in_force power_desk = ∅ ∧ hold_power.1 = Some 0 ∧
  objects hold_power.2 = ∅ ∧ in_force hold_power.2 = ∅ ∧
  (∃ seen, sights hold_power.2.2.2 = [] ++ seen ∧
     kept_for (all_in_force [PowerLockType.ExecutionRequired; PowerLockType.DisplayRequired]) (2000 * 1000000) seen) ∧
  trail_open power_desk.
Proof.
  assert (Ho0 : objects power_desk = ∅) by reflexivity.
  assert (Hf0 : in_force power_desk = ∅) by reflexivity.
  destruct (power_lock_gives_back (λ _, "why") (widen "2") [widen "Both"; widen "why"] power_desk
    hold_power.2 hold_power.1 Ho0 Hf0 (surjective_pairing _)) as (Ho & Hf & Hr & Hc).
  assert (E0 : hold_power.1 = Some 0) by (vm_compute; reflexivity).
  assert (Es : lease_seconds (widen "2") = Some 2) by reflexivity.
  split; [exact Ho0|]. split; [exact Hf0|]. split; [exact E0|].
  split; [exact Ho|]. split; [exact Hf|]. split.
  - destruct (answered_zero _ _ E0 Hr) as (seconds & Hs & _ & Hseen). clear Hr.
    rewrite Es in Hs. injection Hs as <-. exact Hseen.
  - apply Hc. vm_compute. discriminate.
Defined.



Definition thread_desk : World LeaseCall MemFs Threads := (empty_fs, ([], three)).
Definition raise_arguments : list wstring :=
  [widen "tuner.toml"; widen "--execute"; widen "--acknowledge-system-wide-side-effects"].
Definition raised_desk : Z * World LeaseCall MemFs Threads :=
  RunSchedulerCommand (λ _, "c") (widen "7") raise_arguments thread_desk.

Lemma scheduler_gated_witness :
  raised_desk.1 = 0 ∧ ThreadCall 1 1 ∈ calls raised_desk.2 ∧
  raises 7 [] (calls raised_desk.2) ∧
  raising_allowed (λ _, "c") raise_arguments (ListThreads 7 thread_desk).2.
Proof.
  destruct (scheduler_gated (λ _, "c") (widen "7") raise_arguments thread_desk
    raised_desk.2 raised_desk.1 (surjective_pairing _)) as (made & Hm & Hr).
  assert (Hin : ThreadCall 1 1 ∈ calls raised_desk.2) by (apply list_elem_of_In; vm_compute; tauto).
  change (calls thread_desk) with (@nil LeaseCall) in Hm. cbn [app] in Hm. rewrite Hm in Hin.
  split; [vm_compute; reflexivity|]. rewrite Hm. split; [exact Hin|].
  destruct Hr as [Hr|(pid & Hp & Hr & Ha)];
    [exfalso; rewrite Hr in Hin; exact (not_elem_of_nil _ Hin)|].
  assert (Epid : ParseUint32 (widen "7") = Some 7) by reflexivity.
  rewrite Epid in Hp. injection Hp as <-. split; [exact Hr|]. exact (Ha _ _ Hin).
Defined.
End Witnesses.
