(* ===== verification/ObserveCommands.v ===== *)
(** The commands of [source/main.cpp] that measure and print, and change nothing:
    [--status], [--observe], [--activity], [--cpu], [--gpu], [--disk] and
    [--diagnose]. A command answers its exit code and what it prints, as data. *)

From S2P Require Import Prelude CommonError Containers Paths Timing ConfigTypes Config Platform.
From S2P Require Import UserActivity Memory Metrics Actions Crash World IpcArguments LeaseCommands.

Open Scope string_scope.
Open Scope list_scope.
Open Scope Z_scope.

(** ** [--status] and [--observe] *)

(** Without a configuration nothing is refused. *)
Definition EnsureMemoryQueryAllowed (config : option ConfigSnapshot) : bool :=
  match config with Some s => queryEnabled (memory s) | None => true end.

Definition kStatusFreshnessWindow : Z := ns_of_millis 30000.
Definition kDefaultLowLoadThreshold : Z := 50.

(** [0..100], 50 when it is not given; [None] is refused. *)
Definition observe_threshold `{WideCtype} (text : wstring) : option Z :=
  match text with
  | [] => Some kDefaultLowLoadThreshold
  | _ =>
      match ParseUint32 text with
      | Some t => if 100 <? t then None else Some t
      | None => None
      end
  end.

Record StatusReport := MkStatusReport {
  st_memory : MemoryStatus;
  st_ageMs : Z;
  st_fresh : bool
}.

Record WindowOutcome := MkWindowOutcome {
  wo_samples : list MemorySample;
  wo_report : MemoryWindowReport;
  wo_share : Z
}.

Section MemoryCommands.
Context {B : Type} `{SystemMessages} `{WideCtype} `{MemoryApi B} `{SteadyClock B, !Sleeping B}.
Context `{FileSystem B} {Node : Type} `{Toml Node} `{TomlFiles B Node}.

(** What the clock says where it is looked at in passing. *)
Definition clock_reading (b : B) : Z := (clock_now b).1.

(** An empty name is no configuration. *)
Definition memory_query_allowed (path_of : wstring → string) (configPath : wstring) (b : B) : bool :=
  match configPath with
  | [] => EnsureMemoryQueryAllowed None
  | _ =>
      match LoadConfig (path_of configPath) b with
      | Failure _ => false
      | Success s => EnsureMemoryQueryAllowed (Some s)
      end
  end.

Definition RunStatus (path_of : wstring → string) (configPath : wstring) :
    M B (Z * option StatusReport) := λ b,
  if negb (memory_query_allowed path_of configPath b) then ((2, None), b)
  else
    (result <-- QueryMemoryStatus clock_reading ;;
     match result with
     | Failure _ => mret (2, None)
     | Success status =>
         now <-- clock_now ;;
         mret (0, Some (MkStatusReport status (Z.quot (now - sampledAt status) 1000000)
                          (IsSnapshotFresh (sampledAt status) now kStatusFreshnessWindow)))
     end) b.

(** One sample a second until the deadline; [None] out of fuel. *)
Fixpoint sample_memory (fuel : nat) (deadline : Z) (samples : list MemorySample) :
    M B (option (Result (list MemorySample))) :=
  match fuel with
  | O => mret None
  | S fuel' =>
      now <-- clock_now ;;
      if negb (now <? deadline) then mret (Some (Success samples))
      else
        status <-- QueryMemoryStatus clock_reading ;;
        match status with
        | Failure e => mret (Some (Failure e))
        | Success m =>
            now' <-- clock_now ;;
            (if now' <? deadline then sleep_for (ns_of_millis 1000) else mret tt) ;;;
            sample_memory fuel' deadline
              (samples ++ [MkSample (memoryLoadPercent m) (availablePhysicalBytes m)])
        end
  end.

Definition observe_fuel (seconds : Z) : nat := S (Z.to_nat seconds).

Definition observe_window (seconds threshold : Z) : M B (option (Z * option WindowOutcome)) :=
  now <-- clock_now ;;
  sampled <-- sample_memory (observe_fuel seconds) (now + ns_of_millis (seconds * 1000)) [] ;;
  mret (match sampled with
        | None => None
        | Some (Failure _) => Some (2, None)
        | Some (Success samples) =>
            match AggregateMemoryWindow samples, ShareOfLoadBelow samples threshold with
            | Success r, Success share => Some (0, Some (MkWindowOutcome samples r share))
            | _, _ => Some (2, None)
            end
        end).

(** The configuration is read before the numbers; [None] is still observing. *)
Definition RunObserve (path_of : wstring → string) (secondsText thresholdText configPath : wstring) :
    M B (option (Z * option WindowOutcome)) := λ b,
  if negb (memory_query_allowed path_of configPath b) then (Some (2, None), b)
  else
    match lease_seconds secondsText, observe_threshold thresholdText with
    | Some seconds, Some threshold => observe_window seconds threshold b
    | _, _ => (Some (2, None), b)
    end.
End MemoryCommands.

(** ** [--activity] *)

Record ActivityArguments := MkActivityArguments {
  act_idleSecs : Z;
  act_idleGiven : bool;
  act_session : bool;
  act_foreground : bool
}.

(** Anything of two characters or more that begins with a dash is an option;
    [None] is refused. *)
Definition activity_argument `{WideCtype} (a : ActivityArguments) (arg : wstring) :
    option ActivityArguments :=
  if is_arg "--session" arg then
    Some (MkActivityArguments (act_idleSecs a) (act_idleGiven a) true (act_foreground a))
  else if is_arg "--foreground" arg then
    Some (MkActivityArguments (act_idleSecs a) (act_idleGiven a) (act_session a) true)
  else if (2 <=? len arg) && bool_decide (head arg = Some 45) then None
  else if act_idleGiven a then None
  else match ParseUint32 arg with
  | None => None
  | Some n =>
      if (n =? 0) || (3600 <? n) then None
      else Some (MkActivityArguments n true (act_session a) (act_foreground a))
  end.

Fixpoint activity_arguments `{WideCtype} (a : ActivityArguments) (args : list wstring) :
    option ActivityArguments :=
  match args with
  | [] => Some a
  | arg :: rest => activity_argument a arg ≫= λ a', activity_arguments a' rest
  end.

(** What is printed: the samples and the summary of one of the three loops. *)
Inductive ActivityOutput :=
| InFront (summary : ActivityForegroundSummary)
    (samples : list (ActivityState * Z * ForegroundAttributionInfo))
| InSession (summary : ActivityContextSummary) (samples : list (ActivityState * Z))
| OfInput (summary : ActivityWindowSummary) (samples : list (ActivityState * Z)).

Section ActivityCommand.
Context {B : Type} `{WideCtype} `{LastInputBackend B, SessionProbe B, ForegroundProbe B, Sleeping B}.

Definition printed {A S} (show : A → S → ActivityOutput) (r : Result A * S) : Z * option ActivityOutput :=
  match r.1 with
  | Failure _ => (2, None)
  | Success summary => (0, Some (show summary r.2))
  end.

Definition observe_activity (a : ActivityArguments) (seconds : Z) : M B (Z * option ActivityOutput) :=
  let n := Z.to_nat seconds in
  let interval := ns_of_millis 1000 in
  let threshold := act_idleSecs a * 1000 in
  if act_foreground a then
    r <-- ObserveActivityForeground (act_session a) n interval threshold ;; mret (printed InFront r)
  else if act_session a then
    r <-- ObserveActivityContext n interval threshold ;; mret (printed InSession r)
  else r <-- ObserveActivity n interval threshold ;; mret (printed OfInput r).

(** [args] follow the seconds. The session is asked once for the heading. *)
Definition RunActivityCommand (text : option wstring) (args : list wstring) :
    M B (Z * option ActivityOutput) :=
  match text ≫= lease_seconds with
  | None => mret (2, None)
  | Some seconds =>
      match activity_arguments (MkActivityArguments 15 false false false) args with
      | None => mret (2, None)
      | Some a =>
          (if act_session a then QuerySession ;;; mret tt else mret tt) ;;;
          observe_activity a seconds
      end
  end.
End ActivityCommand.

(** ** [--cpu], [--gpu], [--disk] and [--diagnose] *)

Definition kCpuInterval : Z := ns_of_millis 500.

Section CpuCommand.
Context {D B : Type} `{SystemMessages, PdhApi D B, Sleeping B}.

(** The work of the command on its query. *)
Definition cpu_sample (q : PdhCpuQuery) : M B ((Z * option D) * PdhCpuQuery) :=
  init <-- Pdh_Initialize q ;;
  match init with
  | (Failure _, q) => mret ((2, None), q)
  | (Success _, q) =>
      first <-- Pdh_Sample q ;;
      match first with
      | (Failure _, q) => mret ((2, None), q)
      | (Success _, q) =>
          second <-- Pdh_Sample q ;;
          mret (match second with
                | (Success s, q) => if valid s then ((0, Some (usagePercent s)), q) else ((2, None), q)
                | (Failure _, q) => ((2, None), q)
                end)
      end
  end.

(** The query is destroyed at the end. *)
Definition RunCpuCommand : M B (Z * option D) :=
  r <-- cpu_sample (new_query kCpuInterval) ;;
  Pdh_Close r.2 ;;;
  mret r.1.
End CpuCommand.

Section Listings.
Context {B : Type}.

Definition RunGpuCommand `{GpuBackend B} : M B (Z * list AdapterSnapshot) :=
  adapters <-- EnumerateAdapters ;;
  mret (match adapters with Failure _ => (41, []) | Success l => (0, l) end).

(** The volumes are printed before the processes are asked for. *)
Definition RunDiskCommand `{DiskBackend B} : M B (Z * (list VolumeInfo * list ProcessIo)) :=
  volumes <-- ListVolumes ;;
  match volumes with
  | Failure _ => mret (41, ([], []))
  | Success vs =>
      processes <-- ListProcessIo ;;
      mret (match processes with
            | Failure _ => (41, (vs, []))
            | Success ps => (0, (vs, TopByIo ps 5))
            end)
  end.

Definition RunDiagnostics `{SystemMessages} `{Modules B} (n : NativeApi) :
    M B ((Z * option NativeCapabilities) * NativeApi) :=
  r <-- Probe n ;;
  mret (match r.1 with
        | Failure _ => (2, None)
        | Success c => (0, Some c)
        end, r.2).
End Listings.

(** ** The window of [--observe] *)

(** Asking for the memory does not turn the clock back, and the load is a
    number of 32 bits. *)
Class MemoryReadLaws (B : Type) `{TimeLaws B, !MemoryApi B} := {
  reading_time : advances GlobalMemoryStatusEx;
  reading_load b total available load b' :
    GlobalMemoryStatusEx b = (Some (total, available, load), b') → 0 <= load
}.

Section Window.
Context {B : Type} `{SystemMessages} `{MemoryReadLaws B} `{WideCtypeLaws}.
Context `{FileSystem B} {Node : Type} `{Toml Node} `{TomlFiles B Node}.

Lemma QueryMemoryStatus_reads (b : B) r b' :
  QueryMemoryStatus clock_reading b = (r, b') →
  time b <= time b' ∧ match r with Success m => 0 <= memoryLoadPercent m <= 100 | Failure _ => True end.
Proof.
  unfold QueryMemoryStatus, memory_failure, mthen. pose proof (reading_time b) as Ht.
  destruct (GlobalMemoryStatusEx b) as [[[[total available] load]|] b1] eqn:E; cbn in Ht.
  - apply reading_load in E. unfold BuildMemoryStatus. intros [= <- <-]. split; [done|].
    destruct (total =? 0); [done|]. destruct (total <? available); [done|].
    destruct (100 <? load) eqn:El; b2p; cbn; [done|lia].
  - by intros [= <- <-].
Qed.

(** With a turn for every second to the deadline and one more the loop ends; it
    has taken at most one sample for every second begun, and the deadline has
    passed. *)
Lemma sample_memory_ends fuel deadline samples (b : B) :
  deadline - time b <= (Z.of_nat fuel - 1) * 1000000000 → (0 < fuel)%nat →
  ∃ r b', sample_memory fuel deadline samples b = (Some r, b') ∧
    match r with
    | Failure _ => True
    | Success l => ∃ new, l = samples ++ new ∧ loads_ok new ∧ deadline <= time b' ∧
        (len new - 1) * 1000000000 < Z.max 0 (deadline - time b)
    end.
Proof.
  revert samples b. induction fuel as [|fuel IH]; intros samples b Hd Hf; [lia|].
  cbn [sample_memory]. unfold mthen, mret.
  destruct (clock_now b) as [now b1] eqn:E1. apply clock_run in E1 as [Hn1 Hn2].
  destruct (now <? deadline) eqn:Elt; cbn [negb]; b2p.
  2:{ eexists _, b1. split; [reflexivity|]. exists []. rewrite app_nil_r. cbn.
      split_and!; [done|constructor|lia|lia]. }
  destruct (QueryMemoryStatus clock_reading b1) as [[m|e] b2] eqn:E2; [|by eexists _, b2].
  apply QueryMemoryStatus_reads in E2 as [Ht2 Hload].
  destruct (clock_now b2) as [now2 b3] eqn:E3. apply clock_run in E3 as [Hn3 Hn4].
  set (b4 := ((if now2 <? deadline then sleep_for (ns_of_millis 1000) else mret tt) b3).2).
  assert (Hb4 : time b + 1000000000 <= time b4 ∨ deadline <= time b4).
  { subst b4. destruct (now2 <? deadline) eqn:El; b2p; [|cbn; lia].
    destruct (sleep_for (ns_of_millis 1000) b3) as [u b5] eqn:E5. apply sleep_run in E5 as [_ Hs].
    unfold ns_of_millis in Hs. cbn [snd]. lia. }
  assert (E4 : (if now2 <? deadline then sleep_for (ns_of_millis 1000) else mret tt) b3 = (tt, b4)).
  { subst b4. by destruct ((if now2 <? deadline then sleep_for (ns_of_millis 1000) else mret tt) b3) as [[] b4]. }
  unfold mret in E4. rewrite E4.
  destruct (IH (samples ++ [MkSample (memoryLoadPercent m) (availablePhysicalBytes m)]) b4)
    as (r & b' & E & Hr); [lia|lia|].
  exists r, b'. split; [exact E|]. destruct r as [l|]; [|done].
  destruct Hr as (new & -> & Hok & Hdl & Hlen). eexists. rewrite <- app_assoc. split; [reflexivity|].
  cbn [app length]. split_and!; [by constructor|done|lia].
Qed.

(** C20. [--observe] ends, with 0 or 2. When it answers 0, it has watched for the whole
    time, 1 to 60 seconds; it has taken at least one sample and at most one for
    every second; the lowest, highest and average load and the range of the
    available memory that it prints are those of these samples, and so is the share
    below the threshold. Where the configuration named switches queries of the memory off or cannot
    be read, it asks for nothing. *)
Theorem RunObserve_window path_of secondsText thresholdText configPath (b b' : B) r :
  RunObserve path_of secondsText thresholdText configPath b = (r, b') →
  (r = Some (2, None) ∨
   ∃ o seconds threshold, r = Some (0, Some o) ∧
     lease_seconds secondsText = Some seconds ∧ observe_threshold thresholdText = Some threshold ∧
     memory_query_allowed path_of configPath b = true ∧
     1 <= len (wo_samples o) <= seconds ∧ time b + ns_of_millis (seconds * 1000) <= time b' ∧
     window_report (wo_samples o) (wo_report o) ∧
     rounds_half_up (100 * count_below threshold (wo_samples o)) (len (wo_samples o)) (wo_share o)) ∧
  (memory_query_allowed path_of configPath b = false → b' = b).
Proof.
  unfold RunObserve. destruct (memory_query_allowed path_of configPath b); cbn [negb];
    [|intros [= <- <-]; by split; [left|]].
  destruct (lease_seconds secondsText) as [seconds|] eqn:Es; [|intros [= <- <-]; by split; [left|]].
  destruct (observe_threshold thresholdText) as [threshold|] eqn:Et; [|intros [= <- <-]; by split; [left|]].
  pose proof (lease_seconds_range _ _ Es) as Hs. unfold kMaxSeconds in Hs. unfold observe_window, mthen, mret.
  destruct (clock_now b) as [now b1] eqn:E1. apply clock_run in E1 as [Hn1 Hn2].
  destruct (sample_memory_ends (observe_fuel seconds) (now + ns_of_millis (seconds * 1000)) [] b1)
    as (s & b2 & E2 & Hs2); [unfold observe_fuel, ns_of_millis; lia|unfold observe_fuel; lia|].
  rewrite E2. destruct s as [samples|e]; [|intros [= <- <-]; by split; [left|]].
  destruct Hs2 as (new & -> & Hok & Hd & Hlen). cbn [app] in *. unfold ns_of_millis in *.
  assert (Hl : len new <= seconds) by lia.
  assert (Hsmall : 101 * len new < 2 ^ 64) by lia.
  assert (Hu : Forall (λ s, is_u32 (loadPercent s)) new).
  { eapply Forall_impl; [exact Hok|]. cbn. unfold is_u32. intros x Hx. lia. }
  destruct (AggregateMemoryWindow new) as [rep|] eqn:Ea; [|intros [= <- <-]; by split; [left|]].
  destruct (ShareOfLoadBelow new threshold) as [share|] eqn:Esh; [|intros [= <- <-]; by split; [left|]].
  intros [= <- <-]. split; [right|done].
  destruct (AggregateMemoryWindow_spec new Hsmall Hu) as (Hv & Hrep & _).
  apply ShareOfLoadBelow_spec in Esh as (_ & Hround & _); [|done].
  exists (MkWindowOutcome new rep share), seconds, threshold. cbn.
  split_and!; [done..| |lia|lia|by apply Hrep|done].
  assert (new ≠ []) as Hne by (apply Hv; by rewrite Ea). destruct new; [done|cbn; lia].
Qed.
End Window.

(** ** Every sample of [--activity] is counted *)

Section Counted.
Context {B : Type} `{WideCtypeLaws} `{LastInputBackend B, SessionProbe B, ForegroundProbe B, Sleeping B}.

Definition states_total (c : ActivityContextSummary) : Z :=
  ac_active c + ac_idle c + ac_locked c + ac_disconnected c + ac_unknown c.

(** How many samples were printed, and how many the summary accounts for. *)
Definition activity_counts (out : ActivityOutput) : Z * Z :=
  match out with
  | InFront f l => (len l, states_total (af_states f))
  | InSession c l => (len l, states_total c)
  | OfInput w l => (len l, aw_active w + aw_idle w + aw_unknown w)
  end.

Lemma context_counted (l : list (ActivityState * Z)) :
  len l < 2 ^ 64 →
  counts_states l.*1 (foldl (λ c s, count_state s.1 c) (MkContextSummary 0 0 0 0 0 0) l).
Proof.
  induction l as [|x l IH] using rev_ind; [done|]. rewrite length_app, foldl_app, fmap_app. cbn.
  intros Hl. apply count_state_snoc; [rewrite length_fmap; lia|]. apply IH. lia.
Qed.

Lemma window_counted (l : list (ActivityState * Z)) :
  len l < 2 ^ 64 →
  let w := foldl (λ c s, count_window s.1 c) (MkWindowSummary 0 0 0 0) l in
  0 <= aw_active w ∧ 0 <= aw_idle w ∧ 0 <= aw_unknown w ∧
  aw_samples w = len l ∧ aw_active w + aw_idle w + aw_unknown w = len l.
Proof.
  induction l as [|x l IH] using rev_ind; [done|]. rewrite length_app, foldl_app. cbn.
  intros Hl. destruct IH as (Ha & Hi & Hu & Hn & Hsum); [lia|]. revert Ha Hi Hu Hn Hsum.
  destruct (foldl _ _ l) as [n a i u]. cbn. intros.
  destruct x.1; cbn; rewrite !u64_small by (unfold is_u64; lia); split_and!; lia.
Qed.

Lemma observe_activity_counts a seconds (b : B) :
  1 <= seconds <= kMaxSeconds →
  ∃ o b', observe_activity a seconds b = ((0, Some o), b') ∧ activity_counts o = (seconds, seconds).
Proof.
  unfold kMaxSeconds. intros Hs. unfold observe_activity. cbv zeta.
  destruct (act_foreground a); [|destruct (act_session a)]; unfold mthen, mret.
  - destruct (ObserveActivityForeground_spec (act_session a) (Z.to_nat seconds) (ns_of_millis 1000)
      (act_idleSecs a * 1000) b) as (f & l & b' & E & Hl & _ & _ & Hsum & _); [lia|].
    rewrite E. eexists _, b'. split; [reflexivity|]. cbn. unfold states_total. f_equal; lia.
  - unfold ObserveActivityContext, mthen, mret. destruct (Nat.eqb_spec (Z.to_nat seconds) 0); [lia|].
    edestruct (observe_spec (sample_context (act_idleSecs a * 1000)) (λ s, count_state s.1) (λ _, True))
      as (l & b' & E & Hl & _); [done|]. rewrite E. eexists _, b'. split; [reflexivity|].
    assert (Hlen : len l < 2 ^ 64) by lia. pose proof (context_counted l Hlen) as Hc.
    unfold counts_states in Hc. cbn. rewrite Hc. unfold states_total. cbn.
    pose proof (tally_states l.*1) as Ht. rewrite length_fmap in Ht. f_equal; lia.
  - unfold ObserveActivity, mthen, mret. destruct (Nat.eqb_spec (Z.to_nat seconds) 0); [lia|].
    edestruct (observe_spec (sample_input (act_idleSecs a * 1000)) (λ s, count_window s.1) (λ _, True))
      as (l & b' & E & Hl & _); [done|]. rewrite E. eexists _, b'. split; [reflexivity|].
    assert (Hlen : len l < 2 ^ 64) by lia. pose proof (window_counted l Hlen) as (_ & _ & _ & _ & Hsum).
    cbn. f_equal; lia.
Qed.

(** [--activity] returns, with 0 or 2: with 0 exactly where the seconds, 1 to 60, and the
    other arguments are understood, whatever the probes answer; and then it has
    printed a sample for every second and its summary accounts for every sample
    once. *)
Lemma RunActivityCommand_counts text args (b b' : B) code out :
  RunActivityCommand text args b = ((code, out), b') →
  (code = 0 ↔ ∃ seconds, text ≫= lease_seconds = Some seconds ∧
     is_Some (activity_arguments (MkActivityArguments 15 false false false) args)) ∧
  (code = 0 ∨ code = 2) ∧
  match out with
  | None => code = 2
  | Some o => code = 0 ∧ ∃ seconds, text ≫= lease_seconds = Some seconds ∧
      activity_counts o = (seconds, seconds)
  end.
Proof.
  unfold RunActivityCommand. destruct (text ≫= lease_seconds) as [seconds|] eqn:Es.
  2:{ intros [= <- <- <-]. split_and!; [|by right|done]. split; [done|]. by intros (s & ? & _). }
  destruct (activity_arguments _ args) as [a|].
  2:{ intros [= <- <- <-]. split_and!; [|by right|done]. split; [done|]. by intros (s & _ & [? ?]). }
  assert (Hs : 1 <= seconds <= kMaxSeconds).
  { destruct text as [text|]; [|done]. by eapply lease_seconds_range. }
  unfold kMaxSeconds in Hs. unfold mthen at 1.
  destruct ((if act_session a then QuerySession ;;; mret tt else mret tt) b) as [[] b1].
  destruct (observe_activity_counts a seconds b1 Hs) as (o & b2 & E & Hc). rewrite E.
  intros [= <- <- <-]. split_and!; [|by left|done|by exists seconds].
  split; [|done]. intros _. exists seconds. by split; [|eexists].
Qed.
End Counted.

(** ** The query of [--cpu] *)

Section Cpu.
Context {D B : Type} `{SystemMessages, PdhLaws D B}.

(** However [--cpu] ends, it leaves no query open; a figure is printed exactly
    with exit code 0. *)
Lemma RunCpuCommand_closes (b b' : B) code (out : option D) :
  open_queries b = ∅ → 0 <= pdh_now b → RunCpuCommand b = ((code, out), b') →
  open_queries b' = ∅ ∧ (code = 0 ↔ is_Some out) ∧ (code = 0 ∨ code = 2).
Proof.
  intros Ho Hn. assert (Hok : query_ok (D := D) (new_query kCpuInterval) b) by by constructor.
  unfold RunCpuCommand, mthen, mret. destruct (cpu_sample _ b) as [[r q] b1] eqn:E.
  assert (query_ok q b1 ∧ (r.1 = 0 ∧ is_Some r.2 ∨ r.1 = 2 ∧ r.2 = None)) as [Hq Hr].
  { revert E. unfold cpu_sample, mthen, mret.
    destruct (Pdh_Initialize _ b) as [[[u|e] q1] b2] eqn:E1;
      apply (Pdh_Initialize_ok _ _ _ _ _ Hok) in E1 as (Hok1 & _); [|intros [= <- <- <-]; auto].
    destruct (Pdh_Sample q1 b2) as [[[s1|e] q2] b3] eqn:E2;
      apply (Pdh_Sample_ok _ _ _ _ _ Hok1) in E2 as (Hok2 & _); [|intros [= <- <- <-]; auto].
    destruct (Pdh_Sample q2 b3) as [[[s2|e] q3] b4] eqn:E3;
      apply (Pdh_Sample_ok _ _ _ _ _ Hok2) in E3 as (Hok3 & _);
      [destruct (valid s2)|]; intros [= <- <- <-]; eauto. }
  cbn [fst snd]. destruct (Pdh_Close q b1) as [q2 b2] eqn:Ec.
  apply (Pdh_Close_ok _ _ _ _ Hq) in Ec as (Hq2 & Hz & _). intros [= -> <-].
  cbn in Hr. split; [rewrite (ok_handles _ _ Hq2), Hz; done|].
  destruct Hr as [[-> ?]|[-> ->]]; [naive_solver|]. split; [|by right]. split; [done|]. by intros [? ?].
Qed.
End Cpu.

(** ** Examples *)

Section Witnesses.
Import Machine Timed.
#[local] Existing Instances plain_ctype plain_ctype_laws.

(** A desk whose memory fills by a percent every second. *)
Abbreviation Desk := (World LeaseCall MemFs (Timed unit)).

Definition filling : M Desk (option (Z * Z * Z)) := λ d,
  (Some (16000, 8000, 50 + Z.max 0 d.2.2.2 / 1000000000), d).

#[local] Instance desk_memory : MemoryApi Desk := {|
  OpenProcess _ _ := mret None;
  CloseHandle _ := mret tt;
  GetProcessMemoryInfo _ := mret None;
  EmptyWorkingSet _ := mret false;
  OpenProcessToken _ := mret None;
  LookupPrivilegeValueW _ := mret None;
  TokenPrivilegesSize _ := mret 0;
  new_nothrow _ := mret false;
  TokenPrivileges _ _ := mret None;
  AdjustTokenPrivileges _ _ := mret false;
  NtSetSystemInformation _ _ := mret 0;
  NtQuerySystemInformation _ := mret (0, [], 0);
  SetSystemFileCacheSize _ _ _ := mret false;
  GetPerformanceInfo := mret None;
  GetSystemPageSize := mret 4096;
  GlobalMemoryStatusEx := filling;
  memory_error _ := 0
|}.

#[local] Instance desk_reads : MemoryReadLaws Desk.
Proof.
  constructor.
  - intros d. cbn. lia.
  - intros d total available load d' [= _ _ <- _]. pose proof (Z.div_pos (Z.max 0 d.2.2.2) 1000000000). lia.
Qed.

(** The file that switches the queries off. *)
#[local] Instance query_switch : TomlFiles MemFs tree := λ p _,
  if String.eqb p "off" then inl [("memory", TTable [("query_enabled", TBool false)])] else inl [].

Definition new_desk : Desk := (empty_fs, ([], (tt, 0))).
Definition watched : option (Z * option WindowOutcome) * Desk :=
  RunObserve (λ _, "off") (widen "2") (widen "51") [] new_desk.

Lemma RunObserve_window_witness :
  watched.1 = Some (0, Some (MkWindowOutcome [MkSample 50 8000; MkSample 51 8000]
    (MkWindowReport 2 50 51 51 8000 8000) 50)) ∧
  time new_desk + ns_of_millis 2000 <= time watched.2 ∧
  (RunObserve (λ _, "off") (widen "2") [] (widen "off.toml") new_desk).2 = new_desk.
Proof.
  destruct (RunObserve_window (λ _, "off") (widen "2") (widen "51") [] new_desk watched.2 watched.1
    (surjective_pairing _)) as [[E|(o & seconds & threshold & E & Es & _ & _ & _ & Ht & _)] _].
  { vm_compute in E. discriminate E. }
  split; [vm_compute; reflexivity|]. split.
  - assert (seconds = 2) as -> by (vm_compute in Es; congruence). exact Ht.
  - destruct (RunObserve_window (λ _, "off") (widen "2") [] (widen "off.toml") new_desk
      _ _ (surjective_pairing _)) as [_ H]. apply H. vm_compute. reflexivity.
Defined.

Lemma RunActivityCommand_counts_witness :
  ∃ o b', RunActivityCommand (Some (widen "3")) [widen "--session"; widen "60"; widen "--foreground"] lunch =
    ((0, Some o), b') ∧ activity_counts o = (3, 3).
Proof.
  destruct (RunActivityCommand (Some (widen "3")) [widen "--session"; widen "60"; widen "--foreground"] lunch)
    as [[code [o|]] b'] eqn:E; [|vm_compute in E; discriminate E].
  destruct (RunActivityCommand_counts _ _ lunch b' code (Some o) E) as (_ & _ & -> & seconds & Es & Hc).
  exists o, b'. split; [reflexivity|].
  assert (seconds = 3) as -> by (vm_compute in Es; congruence). exact Hc.
Defined.
End Witnesses.
