(* ===== verification/AuditCommands.v ===== *)
(** The commands of [source/main.cpp] about the records: [--journal], [--audit-log] and
    [--audit-summary], which read them back, [--audit-compact], which compacts
    them; [--log], which writes one, and [--config], which reads a configuration
    back. A command answers its exit code and what it prints, as data. *)

From S2P Require Import Prelude CommonError Logger Containers Paths AuditLine AuditLog ConfigTypes Config.
From S2P Require Import Platform UserActivity Actions World Timing IpcArguments LeaseCommands.

Open Scope string_scope.
Open Scope list_scope.
Open Scope Z_scope.

(** ** Arguments *)

Definition kListedLines : Z := 20.
Definition kMaxListedLines : Z := 200.

Section Arguments.
Context `{WideCtype} (path_of : wstring → string).

(** [1..200] *)
Definition line_count (text : wstring) : option Z :=
  match ParseUint32 text with
  | Some n => if (n <? 1) || (kMaxListedLines <? n) then None else Some n
  | None => None
  end.

(** [[path] [lines]], where a first argument that is a number of lines is one. *)
Definition listing_arguments (defaultPath : string) (args : list wstring) : option (string * Z) :=
  let leading := match args with first :: _ => line_count first | [] => None end in
  let path := match args, leading with
              | first :: _, None => path_of first
              | _, _ => defaultPath
              end in
  match args with
  | _ :: lines :: _ => pair path <$> line_count lines
  | _ => Some (path, default kListedLines leading)
  end.

(** [[path] [lines]], where the first argument is the path of the audit file. *)
Definition summary_arguments (defaultPath : string) (args : list wstring) : option (string * Z) :=
  let path := AuditSummaryPath (match args with first :: _ => path_of first | [] => defaultPath end) in
  match args with
  | _ :: lines :: _ => pair path <$> line_count lines
  | _ => Some (path, kListedLines)
  end.
End Arguments.

(** ** What is printed *)

(** The lines shown, by their phase. *)
Record PhaseCounts := MkPhaseCounts { ph_before : Z; ph_after : Z; ph_state : Z; ph_unparsable : Z }.

Definition count_phase (c : PhaseCounts) (line : string) : PhaseCounts :=
  let unparsable := MkPhaseCounts (ph_before c) (ph_after c) (ph_state c) (ph_unparsable c + 1) in
  match ParseJournalLine line with
  | None => unparsable
  | Some entry =>
      if String.eqb (je_phase entry) "before" then
        MkPhaseCounts (ph_before c + 1) (ph_after c) (ph_state c) (ph_unparsable c)
      else if String.eqb (je_phase entry) "after" then
        MkPhaseCounts (ph_before c) (ph_after c + 1) (ph_state c) (ph_unparsable c)
      else if String.eqb (je_phase entry) "state" then
        MkPhaseCounts (ph_before c) (ph_after c) (ph_state c + 1) (ph_unparsable c)
      else unparsable
  end.

Definition count_phases (lines : list string) : PhaseCounts :=
  fold_left count_phase lines (MkPhaseCounts 0 0 0 0).

(** What [--audit-log] says of the part that is compacted. *)
Inductive CompactedNote :=
| NoNote
| SummaryUnreadable (e : Error)
| SummaryTotals (total ranges : Z)
| SummaryIllegible (lines : Z).

Section Commands.
Context {W : Type} `{SystemMessages} `{WideCtype} `{FileSystem W} `{FileSizes W} `{Clock W} `{Folders W}.
Context (path_of : wstring → string).

(** The tail, and the phases where there are lines. *)
Definition RunJournalCommand (args : list wstring) (w : W) : Z * option (AuditTail * PhaseCounts) :=
  match listing_arguments path_of (DefaultJournalPath w) args with
  | None => (2, None)
  | Some (path, maxLines) =>
      match ReadAuditTail path maxLines w with
      | Failure _ => (2, None)
      | Success tail =>
          (0, Some (tail, if totalLines tail =? 0 then MkPhaseCounts 0 0 0 0
                          else count_phases (tail_lines tail)))
      end
  end.

Definition compacted_note (path : string) (w : W) : CompactedNote :=
  let summaryPath := AuditSummaryPath path in
  if (exists_file summaryPath w).1 then
    match ReadAuditTail summaryPath kMaxListedLines w with
    | Failure e => SummaryUnreadable e
    | Success summaryTail =>
        let totals := AnalyzeAuditSummaryLines (tail_lines summaryTail) in
        if 0 <? act_ranges totals then SummaryTotals (act_total totals) (act_ranges totals)
        else if 0 <? act_unparsable totals then SummaryIllegible (act_unparsable totals)
        else NoNote
    end
  else NoNote.

Definition RunAuditLogCommand (args : list wstring) (w : W) : Z * option (AuditTail * CompactedNote) :=
  match listing_arguments path_of (DefaultAuditLogPath w) args with
  | None => (2, None)
  | Some (path, maxLines) =>
      match ReadAuditTail path maxLines w with
      | Failure _ => (2, None)
      | Success tail =>
          (0, Some (tail, if totalLines tail =? 0 then NoNote else compacted_note path w))
      end
  end.

(** The totals of the lines shown, where there are lines. *)
Definition RunAuditSummaryCommand (args : list wstring) (w : W) :
    Z * option (AuditTail * option AuditCompactionTotals) :=
  match summary_arguments path_of (DefaultAuditLogPath w) args with
  | None => (2, None)
  | Some (path, maxLines) =>
      match ReadAuditTail path maxLines w with
      | Failure _ => (2, None)
      | Success tail =>
          (0, Some (tail, if totalLines tail =? 0 then None
                          else Some (AnalyzeAuditSummaryLines (tail_lines tail))))
      end
  end.

(** The audit file first, then its summaries, whether or not the first was
    compacted. *)
Definition RunAuditCompactCommand (args : list wstring) : M W Z := λ w,
  let path := match args with first :: _ => path_of first | [] => DefaultAuditLogPath w end in
  (compacted <-- CompactAuditFile path default_options ;;
   match compacted with
   | Failure _ => mret 2
   | Success _ =>
       folded <-- FoldAuditSummaryFile (AuditSummaryPath path) default_options ;;
       mret (if HasValue folded then 0 else 2)
   end) w.

Context {Node : Type} `{Toml Node} `{TomlFiles W Node}.

Definition RunConfigCommand (path : wstring) (w : W) : Z * option ConfigSnapshot :=
  match LoadConfig (path_of path) w with
  | Failure _ => (2, None)
  | Success s => (0, Some s)
  end.
End Commands.

(** The arguments are the module and the words of the message; the logger is
    synchronous and its only sink is the standard error output. *)
Definition RunLogCommand (args : list wstring) (now : SYSTEMTIME) : Z * option Logger :=
  match args with
  | module :: (_ :: _ as words) =>
      (0, Some (Write LogLevel.Info module (wide_words words) now
                  (SetStderrSink (new_logger LogLevel.Info))))
  | _ => (2, None)
  end.

(** ** What is journalled is shown *)

Record JournalRequest := MkRequest {
  rq_operation : string;
  rq_target : string;
  rq_ok : bool;
  rq_phase : JournalPhase;
  rq_detail : string
}.

(** The line of an entry, written at some time. *)
Definition line_of (e : JournalRequest) (line : string) : Prop :=
  ∃ local, local_ok local ∧
    line = FormatJournalLine local (rq_phase e) (rq_operation e) (rq_ok e) (rq_target e) (rq_detail e).

Lemma FormatJournalLine_no_lf local phase op ok target detail :
  local_ok local → no_lf (FormatJournalLine local phase op ok target detail) = true.
Proof.
  intros Hl. unfold FormatJournalLine, AppendSanitized. rewrite !no_lf_app, !sanitize_no_lf, !andb_true_iff.
  repeat split; try done; [|by destruct phase|by destruct ok].
  pose proof (timestamp_lacks LF local Hl eq_refl) as Ht. unfold no_lf. exact Ht.
Qed.

Definition phase_is (phase : string) (line : string) : bool :=
  match ParseJournalLine line with Some e => String.eqb (je_phase e) phase | None => false end.

Definition shown_in (phase : string) (lines : list string) : Z := len (List.filter (phase_is phase) lines).

Lemma count_phases_spec lines :
  let c := count_phases lines in
  ph_before c = shown_in "before" lines ∧ ph_after c = shown_in "after" lines ∧
  ph_state c = shown_in "state" lines ∧
  ph_before c + ph_after c + ph_state c + ph_unparsable c = len lines.
Proof.
  unfold count_phases. induction lines as [|x l IH] using rev_ind; [done|].
  rewrite fold_left_app. cbn [fold_left]. destruct IH as (Hb & Ha & Hs & Hsum).
  assert (Hx : ∀ p, shown_in p (l ++ [x]) = shown_in p l +
    match ParseJournalLine x with Some e => Z.b2z (String.eqb (je_phase e) p) | None => 0 end).
  { intros p. unfold shown_in. rewrite List.filter_app, length_app, Nat2Z.inj_add. f_equal.
    cbn [List.filter]. unfold phase_is.
    destruct (ParseJournalLine x) as [e|]; [by destruct (String.eqb _ _)|done]. }
  rewrite !Hx, length_app. set (c := fold_left count_phase l _) in *. clearbody c.
  unfold count_phase. cbn [length]. destruct (ParseJournalLine x) as [e|]; [|cbn; split_and!; lia].
  destruct (String.eqb_spec (je_phase e) "before") as [->|H1]; [cbn; split_and!; lia|].
  destruct (String.eqb_spec (je_phase e) "after") as [->|H2]; [cbn; split_and!; lia|].
  destruct (String.eqb_spec (je_phase e) "state") as [_|_]; cbn; split_and!; lia.
Qed.

Section Remembering.
Context {W : Type} `{!SystemMessages} `{!WideCtype} `{!FileSystem W} `{!FileSystemLaws W}
  `{!FileSizes W} `{!FileSizesLaws W} `{!Clock W} `{!ClockLaws W} `{!Folders W}.
Context (path_of : wstring → string) (journal : string).

Lemma listing_count def args path n :
  listing_arguments path_of def args = Some (path, n) → 1 <= n <= kMaxListedLines.
Proof.
  assert (Hc : ∀ text k, line_count text = Some k → 1 <= k <= kMaxListedLines).
  { unfold line_count. intros text k. destruct (ParseUint32 text) as [m|]; [|done].
    destruct (_ || _) eqn:E; [done|]. intros [= <-]. b2p. lia. }
  unfold listing_arguments. destruct args as [|first [|lines rest]].
  - intros [= _ <-]. cbn. unfold kListedLines, kMaxListedLines. lia.
  - destruct (line_count first) as [k|] eqn:E; intros [= _ <-]; cbn; [by eapply Hc|].
    unfold kListedLines, kMaxListedLines. lia.
  - destruct (line_count lines) as [k|] eqn:E; [|done]. intros [= _ <-]. by eapply Hc.
Qed.

Fixpoint journal_all (es : list JournalRequest) : M W bool :=
  match es with
  | [] => mret true
  | e :: rest =>
      recorded <-- JournalAction (rq_operation e) (rq_target e) (rq_ok e) (rq_phase e) (rq_detail e) ;;
      all <-- journal_all rest ;;
      mret (recorded && all)
  end.

Lemma JournalAction_recorded op target ok phase detail (w w' : W) :
  DefaultJournalPath w = journal → JournalAction op target ok phase detail w = (true, w') →
  ∃ line, line_of (MkRequest op target ok phase detail) line ∧
    file journal w' = Some (default "" (file journal w) +:+ line +:+ String LF "").
Proof.
  intros Hp. unfold JournalAction, mthen, mret. rewrite Hp.
  destruct (AppendJournalLine _ _ _ _ _ _ w) as [r w1] eqn:E. intros [= Hr <-].
  destruct r as [[]|]; [|done]. revert E. unfold AppendJournalLine. destruct (string_empty journal); [done|].
  intros [(w2 & Hw2 & Hk)|(_ & e & [=])]%with_parent_spec.
  apply append_flushed_spec in Hk as [_ Hk]. eexists. split; [exists (localtime w2); split; [apply localtime_ok|reflexivity]|].
  by rewrite Hk, Hw2.
Qed.

Lemma journal_all_lines es ls (w w' : W) :
  (∀ w : W, DefaultJournalPath w = journal) →
  default "" (file journal w) = unlines ls → journal_all es w = (true, w') →
  ∃ new, Forall2 line_of es new ∧ default "" (file journal w') = unlines (ls ++ new).
Proof.
  intros Hp. revert ls w. induction es as [|e es IH]; intros ls w Hls; cbn [journal_all]; unfold mthen, mret.
  { intros [= <-]. exists []. rewrite app_nil_r. by split; [constructor|]. }
  destruct (JournalAction _ _ _ _ _ w) as [r w1] eqn:E1. destruct (journal_all es w1) as [all w2] eqn:E2.
  intros [= [-> ->]%andb_true_iff <-].
  apply (JournalAction_recorded _ _ _ _ _ _ _ (Hp w)) in E1 as (line & Hline & Hf).
  assert (Hls' : default "" (file journal w1) = unlines (ls ++ [line])).
  { rewrite Hf. cbn. by rewrite Hls, unlines_app. }
  destruct (IH _ _ Hls' E2) as (new & Hnew & Hend). exists (line :: new). split.
  - constructor; [by destruct e|done].
  - by rewrite <- (app_assoc ls [line] new) in Hend.
Qed.

(** What is journalled is shown. Of entries that were recorded after the
    lines of a journal, [--journal] counts every one, and its last lines are
    theirs, in the order in which they were made, each cut to 4096 bytes; and what it says
    of the phases counts the lines it shows, every one once. *)
Lemma journal_remembers es ls args n (w w' : W) tail counts :
  (∀ w : W, DefaultJournalPath w = journal) →
  default "" (file journal w) = unlines ls → forallb no_lf ls = true →
  len ls + len es < 2 ^ 64 → journal_all es w = (true, w') →
  listing_arguments path_of journal args = Some (journal, n) →
  RunJournalCommand path_of args w' = (0, Some (tail, counts)) →
  (∃ new, Forall2 line_of es new ∧ totalLines tail = len ls + len es ∧
     tail_lines tail = last_n n (map shorten (ls ++ new))) ∧
  ph_before counts = shown_in "before" (tail_lines tail) ∧
  ph_after counts = shown_in "after" (tail_lines tail) ∧
  ph_state counts = shown_in "state" (tail_lines tail) ∧
  ph_before counts + ph_after counts + ph_state counts + ph_unparsable counts = len (tail_lines tail).
Proof.
  intros Hp Hls Hlf Hlen Ej Hargs Hrun.
  destruct (journal_all_lines es ls w w' Hp Hls Ej) as (new & Hnew & Hend).
  revert Hrun. unfold RunJournalCommand. rewrite Hp, Hargs.
  destruct (ReadAuditTail journal n w') as [t|] eqn:Er; [|done]. intros [= <- <-].
  pose proof (listing_count _ _ _ _ Hargs) as Hn.
  pose proof (ReadAuditTail_spec journal n w' t ltac:(lia) Er) as Ht.
  assert (Ht' : totalLines t = len ls + len es ∧ tail_lines t = last_n n (map shorten (ls ++ new))).
  { pose proof (Forall2_length _ _ _ Hnew) as Hl. destruct (file journal w') as [text|]; cbn in Hend.
    - rewrite Hend, getlines_unlines in Ht.
      + destruct Ht as [-> ->]. rewrite length_app, u64_small by (unfold is_u64; lia). split; [lia|done].
      + rewrite forallb_app, Hlf. clear -Hnew. induction Hnew as [|e line es new (local & Hl & ->) _ IH]; [done|].
        cbn in *. by rewrite FormatJournalLine_no_lf.
    - destruct ls; [|by destruct s]. destruct new as [|l new]; [|cbn in Hend; by destruct l].
      destruct es; [|done]. destruct Ht as [-> ->]. split; [done|]. unfold last_n. by destruct (length _ - _)%nat. }
  split; [by exists new|]. destruct Ht' as [Htot Hlines].
  destruct (totalLines t =? 0) eqn:E0; [|apply count_phases_spec]. b2p.
  assert (tail_lines t = []) as ->; [|done]. rewrite Hlines.
  pose proof (Forall2_length _ _ _ Hnew). destruct ls, new; cbn in *; try lia. unfold last_n. by rewrite drop_nil.
Qed.
End Remembering.

(** ** Examples *)

Section Witnesses.
Import Machine.
#[local] Existing Instances plain_ctype.

Definition narrow_path (w : wstring) : string :=
  string_of_list_ascii (map (λ c, ascii_of_N (Z.to_N c)) w).

Definition journal_file : string := DefaultJournalPath empty_fs.
Definition audit_file : string := DefaultAuditLogPath empty_fs.

Definition two_requests : list JournalRequest :=
  [MkRequest "power.hold" "cli" true JournalPhase.Before "intent";
   MkRequest "power.hold" "cli" true JournalPhase.After "held"].

Definition journalled : bool * MemFs := journal_all two_requests empty_fs.

Lemma journal_remembers_witness :
  ∃ tail counts, RunJournalCommand narrow_path [widen "1"] journalled.2 = (0, Some (tail, counts)) ∧
    totalLines tail = 2 ∧ ph_before counts = 0 ∧ ph_after counts = 1 ∧
    (∃ new, Forall2 line_of two_requests new ∧ tail_lines tail = last_n 1 (map shorten new)).
Proof.
  destruct (RunJournalCommand narrow_path [widen "1"] journalled.2) as [code out] eqn:E.
  destruct out as [[tail counts]|]; [|vm_compute in E; discriminate E].
  assert (code = 0) as -> by (vm_compute in E; congruence).
  assert (Hp : ∀ w : MemFs, DefaultJournalPath w = journal_file) by (intros m; vm_compute; reflexivity).
  assert (Ej : journal_all two_requests empty_fs = (true, journalled.2)) by (vm_compute; reflexivity).
  assert (H0 : default "" (file journal_file empty_fs) = unlines []) by (vm_compute; reflexivity).
  assert (Ha : listing_arguments narrow_path journal_file [widen "1"] = Some (journal_file, 1))
    by (vm_compute; reflexivity).
  destruct (journal_remembers narrow_path journal_file two_requests [] [widen "1"] 1 empty_fs
    journalled.2 tail counts Hp H0 eq_refl ltac:(cbn; lia) Ej Ha E) as ((new & Hnew & Htot & Hl) & _).
  exists tail, counts. split; [reflexivity|]. split; [exact Htot|].
  split; [vm_compute in E; injection E as _ <-; reflexivity|].
  split; [vm_compute in E; injection E as _ <-; reflexivity|].
  exists new. split; [exact Hnew|exact Hl].
Defined.

Definition audited_fs : MemFs :=
  MkMemFs {[ audit_file := unlines ["a"; "b"; "c"];
             AuditSummaryPath audit_file := unlines sample_summary_lines ]} [].

(** A number of lines beyond the limit is taken for the name of a file: no file of this
    name is there, and [--audit-log 300] says that there are no records, and
    succeeds. *)
Lemma number_beyond_limit_is_path :
  RunAuditLogCommand narrow_path [widen "200"] audited_fs =
    (0, Some (MkTail 3 ["a"; "b"; "c"], SummaryTotals 5 2)) ∧
  RunAuditLogCommand narrow_path [widen "300"] audited_fs = (0, Some (MkTail 0 [], NoNote)).
Proof. by split; vm_compute. Qed.

(** The totals of [--audit-summary] are those of the lines it shows: with fewer lines, less has
    been compacted. *)
Lemma totals_of_lines_shown :
  (λ r, act_total <$> (r.2 ≫= snd)) (RunAuditSummaryCommand narrow_path [] audited_fs) = Some 5 ∧
  (λ r, act_total <$> (r.2 ≫= snd))
    (RunAuditSummaryCommand narrow_path [widen audit_file; widen "1"] audited_fs) = Some 2.
Proof. by split; vm_compute. Qed.
End Witnesses.
