(* ===== verification/GatesCommand.v ===== *)
(** The command [--gates] of [source/main.cpp] ([RunGatesCommand]): the report
    on the capabilities and their gates, and how it compares with the gates the
    commands evaluate that would use them. The columns of the printed table are
    not modelled; its rows are. *)

From S2P Require Import Prelude CommonError Containers Paths Crash AuditLine AuditLog SafetyGates.
From S2P Require Import ConfigTypes Config Platform UserActivity Memory Actions MemoryClean.
From S2P Require Import ThreadTuner PowerSchemeCommand World Timing IpcArguments LeaseCommands.

Open Scope string_scope.
Open Scope list_scope.
Open Scope Z_scope.

(** ** The capabilities *)

Record Capability := MkCapability {
  cap_name : string;
  cap_configured : bool;
  cap_compiledIn : bool;
  cap_id : string;
  cap_isolated : bool
}.

(** What the overlay of mode and layers lets pass, when there is a configuration. *)
Definition r1_overlay (s : ConfigSnapshot) : bool :=
  AllowsLocalReversibleActions (app_mode (application s)) (layers s).
Definition r3_overlay (s : ConfigSnapshot) : bool :=
  AllowsSystemLevelActions (app_mode (application s)) (layers s).

Definition at_least (level : CleanLevel) (s : ConfigSnapshot) : bool :=
  clean_value level <=? clean_value (maxCleanLevel (memory s)).

(** [snapshot && p(snapshot)] *)
Definition given (snapshot : option ConfigSnapshot) (p : ConfigSnapshot → bool) : bool :=
  match snapshot with Some s => p s | None => false end.

Definition gate_capabilities `{BuildOptions} (snapshot : option ConfigSnapshot) : list Capability :=
  let given := given snapshot in
  [MkCapability "power.switch_power_scheme"
     (given (λ s, r3_overlay s && switchPowerScheme (power s)))
     PowerSchemeSwitchCompiledIn kPowerSchemeCapabilityId false;
   MkCapability "memory.purge_standby"
     (given (λ s, r3_overlay s && scheduledCleanEnabled (memory s) && at_least CleanLevel.Medium s &&
                  allowNativeWrite (memory s)))
     StandbyPurgeCompiledIn kStandbyPurgeCapabilityId true;
   MkCapability "memory.file_cache_trim"
     (given (λ s, r3_overlay s && scheduledCleanEnabled (memory s) &&
                  bool_decide (maxCleanLevel (memory s) = CleanLevel.Deep) &&
                  allowNativeWrite (memory s)))
     FileCacheTrimCompiledIn kFileCacheTrimCapabilityId true;
   MkCapability "memory.scheduled_clean_enabled"
     (given (λ s, r1_overlay s && scheduledCleanEnabled (memory s) && at_least CleanLevel.Light s))
     MemoryCleanCompiledIn kMemoryCleanCapabilityId false;
   MkCapability "memory.allow_native_write" (given (λ s, allowNativeWrite (memory s)))
     MemoryCleanCompiledIn kMemoryCleanCapabilityId false;
   MkCapability "memory.max_clean_level"
     (given (λ s, r1_overlay s && negb (bool_decide (maxCleanLevel (memory s) = CleanLevel.None))))
     MemoryCleanCompiledIn kMemoryCleanCapabilityId false;
   MkCapability "scheduler.tuner" (given (λ s, r1_overlay s && tog_enabled (scheduler s)))
     SchedulerTunerCompiledIn kSchedulerTunerCapabilityId false].

(** ** The command *)

Record GatesArguments := MkGatesArguments {
  ga_snapshot : option ConfigSnapshot;
  ga_acknowledged : bool;
  ga_isolated : bool;
  ga_json : bool
}.

Definition no_gates_arguments : GatesArguments := MkGatesArguments None false false false.

(** What the gates were judged on: the environment, the audit trail, and for
    each capability its cooldown. *)
Record GateFacts := MkGateFacts {
  gf_environment : EnvironmentFacts;
  gf_audit : bool;
  gf_cooldown : string → bool
}.

Definition row_inputs (a : GatesArguments) (f : GateFacts) (c : Capability) : GateInputs :=
  MkGateInputs (cap_compiledIn c) (cap_configured c)
    (ga_acknowledged a && (negb (cap_isolated c) || ga_isolated a))
    (EvaluateEnvironmentGate (gf_environment f)) (gf_audit f) (gf_cooldown f (cap_id c)).

Definition gate_rows `{BuildOptions} (a : GatesArguments) (f : GateFacts) :
    list (string * GateEvaluation) :=
  map (λ c, (cap_name c, EvaluateGates (row_inputs a f c))) (gate_capabilities (ga_snapshot a)).

Definition report_entry (row : string * GateEvaluation) : GatesReportEntry :=
  MkGatesReportEntry row.1 (allowed row.2)
    (match firstBlocking row.2 with Some g => GateIdToString g | None => "" end).

Definition gates_report (a : GatesArguments) (f : GateFacts) (rows : list (string * GateEvaluation)) :
    GatesReport :=
  let e := gf_environment f in
  MkGatesReport true (ga_acknowledged a) (ga_isolated a) (factsKnown e) (osSupported e)
    (onBattery e) (SafetyGates.remoteSession e) (sessionLocked e) (gf_audit f) (map report_entry rows).

(** What is written: an object of JSON, or the rows of a table. *)
Inductive GatesOutput :=
| Json (text : string)
| Table (rows : list (string * GateEvaluation)).

Section Command.
Context {W : Type} `{SystemMessages} `{BuildOptions} `{FileSystem W} `{Folders W} `{UnixTime W}.
Context `{Modules W} `{PlatformApi W} `{SessionProbe W} {Node : Type} `{Toml Node} `{TomlFiles W Node}.

(** A file is loaded when its name is met; [None] is an argument that is refused
    or a file that cannot be loaded. *)
Definition gates_argument (w : W) (a : GatesArguments) (arg : string) : option GatesArguments :=
  if String.eqb arg "--acknowledge-system-wide-side-effects" then
    Some (MkGatesArguments (ga_snapshot a) true (ga_isolated a) (ga_json a))
  else if String.eqb arg "--json" then
    Some (MkGatesArguments (ga_snapshot a) (ga_acknowledged a) (ga_isolated a) true)
  else if String.eqb arg "--acknowledge-isolated-environment" then
    Some (MkGatesArguments (ga_snapshot a) (ga_acknowledged a) true (ga_json a))
  else if String.eqb arg "--force" then None
  else match ga_snapshot a with
  | Some _ => None
  | None =>
      match LoadConfig arg w with
      | Failure _ => None
      | Success s =>
          Some (MkGatesArguments (Some s) (ga_acknowledged a) (ga_isolated a) (ga_json a))
      end
  end.

Fixpoint gates_arguments (w : W) (a : GatesArguments) (args : list string) : option GatesArguments :=
  match args with
  | [] => Some a
  | arg :: rest => gates_argument w a arg ≫= λ a', gates_arguments w a' rest
  end.

Definition gather_facts : M W GateFacts :=
  environment <-- GatherEnvironmentFacts ;;
  probed <-- (λ w, ProbeAuditWritable (DefaultAuditLogPath w) w) ;;
  λ w,
    let ledger := ReadCooldownLedger (DefaultCooldownLedgerPath w) w in
    (MkGateFacts environment (HasValue probed)
       (λ id, match ledger with
              | Success l => EvaluateCooldownGate l id (unix_time w) kDefaultCooldown
              | Failure _ => false
              end), w).

(** The exit code, and what was written. *)
Definition RunGatesCommand (args : list string) : M W (Z * option GatesOutput) := λ w,
  match gates_arguments w no_gates_arguments args with
  | None => ((2, None), w)
  | Some a =>
      (facts <-- gather_facts ;;
       let rows := gate_rows a facts in
       mret (0, Some (if ga_json a then Json (FormatGatesJson (gates_report a facts rows))
                      else Table rows))) w
  end.
End Command.

(** ** The rows *)

Definition clean_row (k : CleanKind) : string :=
  match k with
  | CleanKind.WorkingSetTrim => "memory.scheduled_clean_enabled"
  | CleanKind.StandbyListPurge => "memory.purge_standby"
  | CleanKind.SystemFileCacheTrim => "memory.file_cache_trim"
  end.

(** What [--memory-clean] takes of a configuration, and the other two. *)
Definition clean_config (snapshot : option ConfigSnapshot) : MemoryCleanConfigGate :=
  match snapshot with Some s => clean_gate s | None => no_config end.
Definition scheme_allows (snapshot : option ConfigSnapshot) : bool :=
  given snapshot (λ s, switchPowerScheme (power s) && r3_overlay s).
Definition tuner_allows (snapshot : option ConfigSnapshot) : bool :=
  given snapshot (λ s, tog_enabled (scheduler s)).

Lemma gate_rows_found `{BuildOptions} a f name e :
  (name, e) ∈ gate_rows a f ↔
  ∃ c, c ∈ gate_capabilities (ga_snapshot a) ∧ cap_name c = name ∧ e = EvaluateGates (row_inputs a f c).
Proof. unfold gate_rows. rewrite list_elem_of_fmap. naive_solver. Qed.

(** A name picks one capability. *)
Lemma gate_row_unique `{BuildOptions} a f name n c e :
  gate_capabilities (ga_snapshot a) !! n = Some c → cap_name c = name →
  (name, e) ∈ gate_rows a f ↔ e = EvaluateGates (row_inputs a f c).
Proof.
  intros Hc%list_elem_of_lookup_2 <-. rewrite gate_rows_found. split; [|by eauto].
  intros (c' & Hc' & Hn & ->). assert (c' = c) as ->; [|done]. clear -Hc Hc' Hn.
  unfold gate_capabilities in *. rewrite !elem_of_cons, elem_of_nil in Hc, Hc'.
  destruct_or! Hc; destruct_or! Hc'; subst; try done.
Qed.

Lemma clean_row_config snapshot k :
  ConfigAllowsCleanStep (clean_config snapshot) k =
  given snapshot (λ s, match k with
    | CleanKind.WorkingSetTrim => r1_overlay s && scheduledCleanEnabled (memory s) && at_least CleanLevel.Light s
    | CleanKind.StandbyListPurge => r3_overlay s && scheduledCleanEnabled (memory s) &&
        at_least CleanLevel.Medium s && allowNativeWrite (memory s)
    | CleanKind.SystemFileCacheTrim => r3_overlay s && scheduledCleanEnabled (memory s) &&
        bool_decide (maxCleanLevel (memory s) = CleanLevel.Deep) && allowNativeWrite (memory s)
    end).
Proof.
  destruct snapshot as [s|]; [|done]. unfold ConfigAllowsCleanStep, clean_overlay, r1_overlay, r3_overlay.
  destruct k; cbn.
  - by destruct (AllowsLocalReversibleActions _ _).
  - destruct (AllowsSystemLevelActions _ _); [|done]. cbn. by destruct (scheduledCleanEnabled _).
  - destruct (AllowsSystemLevelActions _ _); [|done]. cbn. by destruct (scheduledCleanEnabled _).
Qed.

Lemma scheme_config_given snapshot :
  scheme_allows snapshot = given snapshot (λ s, r3_overlay s && switchPowerScheme (power s)).
Proof. destruct snapshot; [apply andb_comm|done]. Qed.

Section Rows.
Context {C F X Node : Type} `{SystemMessages} `{BuildOptions} `{FileSystem F} `{Clock F}.
Context `{Folders F} `{UnixTime F} `{Modules X} `{PlatformApi X} `{SessionProbe X}.
Context `{Toml Node} `{TomlFiles F Node}.
Notation W := (World C F X).

(** An action of the rest of the system alone. *)
Definition on_rest {A} (m : M W A) (n : M X A) : Prop := ∀ w, m w = quietly n w.

Lemma on_rest_bind {A B} (m : M W A) n (k : A → M W B) l :
  on_rest m n → (∀ a, on_rest (k a) (l a)) → on_rest (mthen m k) (mthen n l).
Proof.
  intros Hm Hk (f & t & x). unfold mthen. rewrite Hm. cbn.
  destruct (n x) as [a x']. by rewrite Hk.
Qed.

Lemma on_rest_ret {A} (a : A) : on_rest (mret a) (mret a).
Proof. by intros (f & t & x). Qed.

(** The environment is asked of the rest of the system, the audit trail and the
    ledger of the files: the order does not matter. *)
Lemma GatherEnvironmentFacts_rest : on_rest GatherEnvironmentFacts GatherEnvironmentFacts.
Proof.
  unfold GatherEnvironmentFacts, QueryOsVersion, IsNativeX64, QueryOnBatteryPower.
  repeat first [apply on_rest_ret | apply on_rest_bind; [|intros ?] | case_match
               | intros (f & t & x); reflexivity].
Qed.

Lemma ProbeAuditWritable_files path (f : F) (y : list C * X) :
  ProbeAuditWritable path ((f, y) : W) = on_files (ProbeAuditWritable path) (f, y).
Proof.
  unfold ProbeAuditWritable, with_parent, AuditLog.last_error, on_files, mthen, mret. cbn.
  repeat (case_match; simplify_eq/=; try done).
Qed.

(** What the gates see. *)
Lemma gates_see (w : W) : ∃ e r w',
  gather_facts w =
    (MkGateFacts e r (λ id, match ReadCooldownLedger (DefaultCooldownLedgerPath w') w' with
                            | Success l => EvaluateCooldownGate l id (unix_time w') kDefaultCooldown
                            | Failure _ => false
                            end), w') ∧
  (∀ ack conf compiled id isolated isoAck,
     evaluation (GatherMemoryCleanGates ack conf compiled id isolated isoAck w).1 =
     EvaluateGates (row_inputs (MkGatesArguments None ack isoAck false) (gather_facts w).1
                      (MkCapability "" conf compiled id isolated))) ∧
  (∀ g ack conf, (scheme_gates (Apply g) ack conf w).1 =
     EvaluateGates (row_inputs (MkGatesArguments None ack false false) (gather_facts w).1
       (MkCapability "" conf PowerSchemeSwitchCompiledIn kPowerSchemeCapabilityId false))) ∧
  (∀ conf ack, (scheduler_gates conf ack w).1 =
     EvaluateGates (MkGateInputs SchedulerTunerCompiledIn conf ack true r
                      (gf_cooldown (gather_facts w).1 kSchedulerTunerCapabilityId))).
Proof.
  destruct w as (f & t & x).
  destruct (GatherEnvironmentFacts x) as [e x'] eqn:Ee.
  destruct (ProbeAuditWritable (DefaultAuditLogPath f) f) as [r f'] eqn:Er.
  assert (He : ∀ f t, GatherEnvironmentFacts ((f, (t, x)) : W) = (e, (f, (t, x')))).
  { intros f0 t0. rewrite GatherEnvironmentFacts_rest. cbn. by rewrite Ee. }
  assert (Hr : ∀ y : list C * X, ProbeAuditWritable (DefaultAuditLogPath ((f, y) : W)) ((f, y) : W) = (r, (f', y))).
  { intros y. rewrite ProbeAuditWritable_files. cbn.
    change (DefaultAuditLogPath ((f, y) : W)) with (DefaultAuditLogPath f). by rewrite Er. }
  exists e, (HasValue r), (f', (t, x')).
  unfold gather_facts, GatherMemoryCleanGates, scheme_gates, GatherPowerSchemeGates, scheduler_gates, probe_audit, mthen, mret.
  rewrite He, !Hr. cbn [fst snd is_forward]. split_and!; try done.
  intros. rewrite He. unfold row_inputs. cbn [fst ga_acknowledged cap_isolated negb orb]. by rewrite andb_true_r.
Qed.

(** What is written comes of these rows. *)
Definition shows (out : GatesOutput) (a : GatesArguments) (f : GateFacts) : Prop :=
  out = if ga_json a then Json (FormatGatesJson (gates_report a f (gate_rows a f)))
        else Table (gate_rows a f).

(** The file, if any, whose configuration is judged. *)
Definition judged (path : option string) (w : W) (a : GatesArguments) : Prop :=
  match path with
  | None => ga_snapshot a = None
  | Some p => ∃ s, LoadConfig p w = Success s ∧ ga_snapshot a = Some s
  end.

Lemma gates_arguments_judged (w : W) a args a' path :
  judged path w a → gates_arguments w a args = Some a' →
  ∃ path', (∀ p, path' = Some p → path = Some p ∨ p ∈ args) ∧ judged path' w a'.
Proof.
  revert a path. induction args as [|arg args IH]; intros a path Hj; cbn [gates_arguments].
  { intros [= <-]. exists path. auto. }
  assert (Hkeep : ∀ b path1, judged path1 w b → gates_arguments w b args = Some a' →
    (∀ p, path1 = Some p → path = Some p ∨ p = arg) →
    ∃ path', (∀ p, path' = Some p → path = Some p ∨ p ∈ arg :: args) ∧ judged path' w a').
  { intros b path1 Hb E Hp. destruct (IH _ _ Hb E) as (path' & Hin & Hj'). exists path'.
    split; [|done]. intros p Hp'. destruct (Hin p Hp') as [H'|]; [|right; set_solver].
    destruct (Hp p H') as [?| ->]; [by left|right; set_solver]. }
  unfold gates_argument.
  repeat (destruct (String.eqb _ _); [try done; intros E; by eapply (Hkeep _ path); [|apply E|auto]|]).
  destruct (ga_snapshot a) as [s|] eqn:Es; [done|]. destruct (LoadConfig arg w) as [s|] eqn:El; [|done].
  intros E. eapply (Hkeep _ (Some arg)); [|apply E|naive_solver]. cbn. eauto.
Qed.

Lemma gather_facts_calls : preserves (@calls C F X) (gather_facts (W := W)).
Proof. unfold gather_facts. frame. Qed.

(** C12. [--gates] tells the truth about [--memory-clean] and [--power-scheme], and
    calls nothing. Its rows are judged on the configuration of the file among its
    arguments, if there is one. The row of each cleaning step is the evaluation that
    [--memory-clean --execute] makes of the gates of that step, in the same world, with the
    same file and the same acknowledgements, and the first row is the one that a
    switch of the power scheme makes. The row of the thread tuner is allowed only where
    [--scheduler --execute] passes its gates; the converse does not hold
    ([observer_is_boosted]). *)
Theorem gates_agree args (w w' : W) out :
  RunGatesCommand args w = ((0, Some out), w') →
  ∃ a f path, gates_arguments w no_gates_arguments args = Some a ∧ shows out a f ∧
    (∀ p, path = Some p → p ∈ args) ∧ judged path w a ∧
    (∀ k e, (clean_row k, e) ∈ gate_rows a f ↔
       e = evaluation (step_gates (clean_config (ga_snapshot a)) (ga_acknowledged a) (ga_isolated a) k w).1) ∧
    (∃ conf, scheme_config_gate path w = Some conf ∧ ∀ g e,
       ("power.switch_power_scheme", e) ∈ gate_rows a f ↔
       e = (scheme_gates (Apply g) (ga_acknowledged a) conf w).1) ∧
    (∀ e, ("scheduler.tuner", e) ∈ gate_rows a f → allowed e = true →
       allowed (scheduler_gates (tuner_allows (ga_snapshot a)) (ga_acknowledged a) w).1 = true) ∧
    calls w' = calls w.
Proof.
  unfold RunGatesCommand, mthen, mret.
  destruct (gates_arguments w _ args) as [a|] eqn:Ea; [|done].
  destruct (gates_arguments_judged w no_gates_arguments args a None eq_refl Ea) as (path & Hin & Hj).
  pose proof (gather_facts_calls w) as Hc.
  destruct (gates_see w) as (e & r & w1 & Eg & Hclean & Hscheme & Htuner). rewrite Eg in *.
  cbn [fst snd] in *. set (f := MkGateFacts e r _) in *. intros [= <- <-].
  exists a, f, path. split_and!; [done|done|naive_solver|done| | | |done].
  - intros k ev. unfold step_gates. rewrite Hclean, clean_row_config.
    destruct k;
      [etrans; [by apply (gate_row_unique a f _ 3)|] | etrans; [by apply (gate_row_unique a f _ 1)|]
      |etrans; [by apply (gate_row_unique a f _ 2)|]]; done.
  - exists (scheme_allows (ga_snapshot a)). split.
    + unfold scheme_config_gate, scheme_allows. destruct path as [p|]; [|by rewrite Hj].
      destruct Hj as (s & -> & ->). done.
    + intros g ev. rewrite Hscheme, scheme_config_given.
      etrans; [by apply (gate_row_unique a f _ 0)|]. unfold row_inputs. cbn. done.
  - intros ev Hrow. 
    pose proof (proj1 (gate_row_unique a f "scheduler.tuner" 6 _ ev eq_refl eq_refl) Hrow) as ->.
    rewrite Htuner, !EvaluateGates_allowed. unfold row_inputs, tuner_allows. cbn.
    destruct (ga_snapshot a) as [s|]; cbn; rewrite ?andb_true_iff; naive_solver.
Qed.
End Rows.

(** ** Examples *)

Section Witnesses.
Import Machine.
#[local] Existing Instance all_capabilities.
#[local] Existing Instance tuned.

Definition gates_words : list string := ["tuner.toml"; "--acknowledge-system-wide-side-effects"].
Definition gates_shown : (Z * option GatesOutput) * World LeaseCall MemFs Threads :=
  RunGatesCommand gates_words thread_desk.

Definition row_of (name : string) (out : option GatesOutput) : option GateEvaluation :=
  match out with
  | Some (Table rows) => snd <$> find (λ r, String.eqb r.1 name) rows
  | _ => None
  end.

(** A configuration in observer mode that switches the thread tuner on: [--gates]
    says that its configuration blocks it, and [--scheduler --execute], in the
    same world with the same file and acknowledgement, raises threads. *)
Lemma observer_is_boosted :
  row_of "scheduler.tuner" gates_shown.1.2 ≫= firstBlocking = Some GateId.Config ∧
  raised_desk.1 = 0 ∧ calls raised_desk.2 ≠ [].
Proof. vm_compute. split_and!; [done|done|]. intros [=]. Qed.

Lemma gates_agree_witness :
  gates_shown.1.1 = 0 ∧ calls gates_shown.2 = [] ∧
  ∃ a f path, gates_arguments thread_desk no_gates_arguments gates_words = Some a ∧
    judged path thread_desk a ∧
    (clean_row CleanKind.StandbyListPurge,
      evaluation (step_gates (clean_config (ga_snapshot a)) (ga_acknowledged a) (ga_isolated a)
                    CleanKind.StandbyListPurge thread_desk).1) ∈ gate_rows a f.
Proof.
  split; [vm_compute; reflexivity|].
  destruct gates_shown as [[code [out|]] w'] eqn:E; [|vm_compute in E; discriminate E].
  assert (code = 0) as -> by (vm_compute in E; congruence).
  destruct (gates_agree gates_words thread_desk w' out E)
    as (a & f & path & Ha & _ & _ & Hj & Hclean & _ & _ & Hc).
  split; [exact Hc|]. exists a, f, path. split; [exact Ha|]. split; [exact Hj|].
  apply (Hclean CleanKind.StandbyListPurge). reflexivity.
Defined.

(** Every file allows native writes and nothing else. *)
#[local] Instance native_only : TomlFiles MemFs tree | 0 := λ _ _,
  inl [("memory", TTable [("allow_native_write", TBool true)])].

(** The row of [allow_native_write] is open in observer mode, though the report says
    that the rows need the overlay of mode and layers. *)
Lemma native_write_row_open :
  allowed <$> row_of "memory.allow_native_write"
    (RunGatesCommand gates_words (thread_desk : World LeaseCall MemFs Threads)).1.2 = Some true.
Proof. vm_compute. reflexivity. Qed.
End Witnesses.
