(* ===== verification/CommandLine.v ===== *)
(** The command line ([wmain] of [source/main.cpp]): which command the arguments
    name, with what, and what the command lines the host registers for itself
    come to when the system starts them. *)

From S2P Require Import Prelude CommonError ServiceHost ServiceControl ScheduledTask AgentForms.
From S2P Require Import Actions ProcessWatcher IpcArguments FormCommands HostConsole.

Open Scope string_scope.
Open Scope list_scope.
Open Scope Z_scope.

(** A command with the arguments it looks at, those after its name where it
    takes them apart itself. *)
Inductive Command :=
  | Diagnose | Status (config : wstring) | Cpu
  | Observe (seconds threshold config : wstring)
  | Log (args : list wstring) | Disk | Gpu | Scheduler (args : list wstring)
  | Journal (args : list wstring) | AuditLogTail (args : list wstring)
  | AuditCompact (args : list wstring) | AuditSummary (args : list wstring)
  | MemoryClean (args : list wstring) | Gates (args : list wstring)
  | Config (path : wstring) | Activity (args : list wstring)
  | Watch (args : list wstring) | Policy (args : list wstring)
  | PowerLock (args : list wstring) | PowerScheme (args : list wstring)
  | PriorityBoost (args : list wstring) | ListProcesses (args : list wstring)
  | AddGame (args : list wstring) | ServiceAsService | ServiceConsole (args : list wstring)
  | ServiceInstall (executable : option wstring) | ServiceUninstall | ServiceStatus
  | Agent (args : list wstring) | IpcServer (args : list wstring)
  | IpcClient (args : list wstring) | Startup (args : list wstring)
  | ScheduledTask (args : list wstring) | AgentForm (args : list wstring)
  | IpcCredential (args : list wstring)
  | Refuse            (* exit code 2 *)
  | Usage (exit : Z).

(** Equal up to ASCII case. *)
Definition same_word (text : wstring) (name : string) : bool :=
  (len text =? len (widen name)) && FoldPrefix (widen name) text.

Definition ParseServiceMode (text : wstring) : option RunMode :=
  if same_word text "console" then Some RunMode.Console
  else if same_word text "service" then Some RunMode.Service
  else if same_word text "install" then Some RunMode.Install
  else if same_word text "uninstall" then Some RunMode.Uninstall
  else if same_word text "status" then Some RunMode.Status
  else None.

(** [--service] with its mode and what follows it. *)
Definition service_command (mode : wstring) (rest : list wstring) : Command :=
  match ParseServiceMode mode with
  | None => Refuse
  | Some RunMode.Console => ServiceConsole rest
  | Some RunMode.Service => ServiceAsService
  | Some RunMode.Install => ServiceInstall (head rest)
  | Some RunMode.Uninstall => ServiceUninstall
  | Some RunMode.Status => ServiceStatus
  end.

Section Dispatch.
Context `{WideCtype}.

(** The argument after the name of the command, with the rest. *)
Definition with_mode (k : wstring → list wstring → Command) (other : Command)
    (args : list wstring) : Command :=
  match args with mode :: rest => k mode rest | [] => other end.

Definition observe_command (args : list wstring) : Command :=
  match args with
  | [seconds] => Observe seconds [] []
  | [seconds; third] =>
      match ParseUint32 third with
      | Some _ => Observe seconds third []
      | None => Observe seconds [] third
      end
  | _ => Usage 1
  end.

(** [cmd] is [argv[1]] and [args] are those after it: [n] of them. The tests are
    tried in the order of the code. *)
Definition dispatch_command (cmd : wstring) (args : list wstring) : Command :=
  let n := length args in
  let named name := is_arg name cmd in
  if Nat.eqb n 0 && named "--diagnose" then Diagnose
  else if Nat.eqb n 0 && named "--status" then Status []
  else if Nat.eqb n 1 && named "--status" then Status (hd [] args)
  else if Nat.eqb n 0 && named "--cpu" then Cpu
  else if (Nat.eqb n 1 || Nat.eqb n 2) && named "--observe" then observe_command args
  else if Nat.leb 1 n && named "--log" then Log args
  else if Nat.eqb n 0 && named "--disk" then Disk
  else if Nat.eqb n 0 && named "--gpu" then Gpu
  else if Nat.leb 1 n && named "--scheduler" then Scheduler args
  else if Nat.leb n 2 && named "--journal" then Journal args
  else if Nat.leb n 2 && named "--audit-log" then AuditLogTail args
  else if Nat.leb n 1 && named "--audit-compact" then AuditCompact args
  else if Nat.leb n 2 && named "--audit-summary" then AuditSummary args
  else if named "--memory-clean" then MemoryClean args
  else if named "--gates" then Gates args
  else if Nat.eqb n 1 && named "--config" then Config (hd [] args)
  else if Nat.leb 1 n && Nat.leb n 4 && named "--activity" then Activity args
  else if (Nat.eqb n 1 || Nat.eqb n 2) && named "--watch" then Watch args
  else if (Nat.eqb n 1 || Nat.eqb n 2) && named "--policy" then Policy args
  else if Nat.leb 1 n && named "--power-lock" then PowerLock args
  else if Nat.leb 1 n && named "--power-scheme" then PowerScheme args
  else if (Nat.eqb n 2 || Nat.eqb n 3) && named "--priority-boost" then PriorityBoost args
  else if named "--list-processes" then ListProcesses args
  else if named "--add-game" then AddGame args
  else if Nat.eqb n 0 && named kServiceName then ServiceAsService
  else if Nat.leb 1 n && named "--service" then with_mode service_command Refuse args
  else if Nat.leb 1 n && named "--agent" then
    with_mode (λ mode _, if is_arg "run" mode then Agent args else Refuse) Refuse args
  else if Nat.leb 1 n && named "--ipc-pipe" then
    with_mode (λ mode rest,
      if is_arg "server" mode then IpcServer rest
      else if is_arg "client" mode then IpcClient rest
      else Refuse) Refuse args
  else if named "--startup" then Startup args
  else if Nat.leb 1 n && named "--scheduled-task" then ScheduledTask args
  else if Nat.leb n 4 && named "--agent-form" then AgentForm args
  else if Nat.leb 1 n && named "--ipc-credential" then IpcCredential args
  else Usage (if Nat.eqb n 0 && named "--help" then 0 else 1).

Definition dispatch (argv : list wstring) : Command :=
  match argv with
  | [] => Usage 1
  | [_] => Usage 0
  | _ :: cmd :: args => dispatch_command cmd args
  end.
End Dispatch.

(** ** What [--service console] is given *)

(** The window, the configuration (an argument that does not begin with a
    hyphen), and the flags. *)
Definition console_arguments (args : list wstring)
  : option wstring * option wstring * list wstring :=
  match args with
  | [] => (None, None, [])
  | window :: rest =>
      match rest with
      | [] => (Some window, None, [])
      | first :: flags =>
          if hd 0 first =? 45 then (Some window, None, rest) else (Some window, Some first, flags)
      end
  end.

(** ** Command lines of the system *)

(** The words between spaces. *)
Fixpoint words_from (word : wstring) (text : wstring) : list wstring :=
  match text with
  | [] => if len word =? 0 then [] else [rev word]
  | c :: rest =>
      if c =? 32 then (if len word =? 0 then words_from [] rest else rev word :: words_from [] rest)
      else words_from (c :: word) rest
  end.

(** The [argv] of a line that is a quoted program and words without quotes. *)
Definition argv_of (line : wstring) : list wstring :=
  let '(program, arguments) := split_command line in program :: words_from [] arguments.

Lemma split_quoted exe args :
  exe ≠ [] → forallb (λ c, negb (c =? 34)) exe = true →
  split_command (34 :: exe ++ 34 :: args) = (exe, drop_spaces args).
Proof.
  intros Hne Hq. unfold split_command. cbn [Z.eqb Pos.eqb negb]. rewrite find_quote_app by done.
  by rewrite bool_decide_eq_false_2.
Qed.

(** What reaches the dispatcher of the service. *)
Inductive service_argv : list wstring → Prop :=
  | by_name exe : service_argv [exe; widen kServiceName]
  | by_mode exe mode rest :
      same_word mode "service" = true → service_argv (exe :: widen "--service" :: mode :: rest).

Lemma service_command_service mode rest :
  service_command mode rest = ServiceAsService ↔ same_word mode "service" = true.
Proof.
  unfold service_command, ParseServiceMode. split.
  - destruct (same_word mode "console"), (same_word mode "service"), (same_word mode "install"),
      (same_word mode "uninstall"), (same_word mode "status"); done.
  - intros E. rewrite E. destruct (same_word mode "console") eqn:Ec; [|done].
    unfold same_word in E, Ec. apply andb_true_iff in E as [_ E], Ec as [_ Ec].
    destruct mode as [|c mode]; [done|]. cbn in E, Ec.
    destruct (FoldAscii c =? FoldAscii (widen_char "s")) eqn:Es; [|done].
    destruct (FoldAscii c =? FoldAscii (widen_char "c")) eqn:E2; [|done].
    apply Z.eqb_eq in Es. rewrite Es in E2. done.
Qed.

(** One test of [dispatch_command] that answers something else. *)
#[local] Ltac next_test := lazymatch goal with |- (if ?c then _ else _) = _ → _ => destruct c; [done|] end.

Lemma dispatch_service `{WideCtype} argv : dispatch argv = ServiceAsService ↔ service_argv argv.
Proof.
  split.
  - destruct argv as [|exe [|cmd args]]; [done..|]. cbn [dispatch].
    unfold dispatch_command. cbv zeta. do 4 next_test.
    destruct (_ && is_arg "--observe" cmd).
    { unfold observe_command. destruct args as [|? [|t [|]]]; try done. by destruct (ParseUint32 t). }
    do 19 next_test.
    destruct (_ && is_arg kServiceName cmd) eqn:E.
    { apply andb_true_iff in E as [Hn Hc]. apply bool_decide_eq_true in Hc as ->.
      destruct args; [|done]. intros _. constructor. }
    destruct (_ && is_arg "--service" cmd) eqn:E'.
    { apply andb_true_iff in E' as [Hn Hc]. apply bool_decide_eq_true in Hc as ->.
      destruct args as [|mode rest]; [done|]. cbn [with_mode].
      intros Hm%service_command_service. by constructor. }
    destruct (_ && is_arg "--agent" cmd).
    { destruct args; cbn; [done|]. by destruct (is_arg "run" _). }
    destruct (_ && is_arg "--ipc-pipe" cmd).
    { destruct args; cbn; [done|]. destruct (is_arg "server" _); [done|]. by destruct (is_arg "client" _). }
    repeat next_test. done.
  - intros [exe|exe mode rest Hm]; [done|]. apply service_command_service with (rest := rest) in Hm.
    cbn [dispatch]. unfold dispatch_command. cbv zeta.
    repeat match goal with |- context [is_arg ?n (widen "--service")] =>
      let b := eval vm_compute in (is_arg n (widen "--service")) in
      change (is_arg n (widen "--service")) with b end.
    rewrite !andb_false_r. exact Hm.
Qed.

(** C31. The command line of the host. The service's dispatcher is reached by just
    two kinds of command line: the service's name alone, and [--service] followed
    by the word [service], in any case, with anything after it. For a program whose
    path is not empty and has no quotation mark, what the system starts at logon is
    what was meant: the line that the startup entry and the
    scheduled task hold, taken apart, is the command [--service console] for a
    resident host, with the tray and with agents let in, and no configuration
    named. But the line the service is registered with is the program alone, and
    started by it the program prints its usage and exits with success. *)
Theorem registered_lines_dispatch `{WideCtype} (exe : wstring) identity :
  exe ≠ [] → forallb (λ c, negb (c =? 34)) exe = true →
  (∀ argv, dispatch argv = ServiceAsService ↔
     (∃ program, argv = [program; widen kServiceName]) ∨
     (∃ program mode rest, argv = program :: widen "--service" :: mode :: rest ∧
        same_word mode "service" = true)) ∧
  (∃ args flags,
     dispatch (argv_of (HostAutostartCommandLine exe)) = ServiceConsole args ∧
     console_arguments args = (Some (widen "run"), None, flags) ∧
     console_window (widen "run") = Some None ∧
     console_flags flags = MkConsoleFlags true false true) ∧
  argv_of (ent_image (service_entry identity exe)) = [exe] ∧
  dispatch (argv_of (ent_image (service_entry identity exe))) = Usage 0.
Proof.
  intros Hne Hq. split.
  { intros argv. rewrite dispatch_service. split.
    - intros [program|program mode rest Hm]; [left|right]; [by exists program|by exists program, mode, rest].
    - intros [[program ->]|(program & mode & rest & -> & Hm)]; by constructor. }
  assert (argv_of (HostAutostartCommandLine exe) =
          exe :: words_from [] (drop_spaces (widen " --service console run --tray --ipc-facts")))
    as ->.
  { unfold argv_of, HostAutostartCommandLine. cbn [app].
    by rewrite (split_quoted exe _ Hne Hq). }
  assert (Hs : argv_of (ent_image (service_entry identity exe)) = [exe]).
  { unfold argv_of. cbn [ent_image service_entry app]. by rewrite (split_quoted exe [] Hne Hq). }
  rewrite Hs. split; [|by split_and!].
  exists [widen "run"; widen "--tray"; widen "--ipc-facts"], [widen "--tray"; widen "--ipc-facts"].
  by split_and!.
Qed.

(** ** Witness *)

#[local] Existing Instance plain_ctype.

Example registered_lines_dispatch_witness :
  let exe := widen "C:\Program Files\CppOptimizer.exe" in
  argv_of (ent_image (service_entry (service_identity None) exe)) = [exe] ∧
  dispatch [exe] = Usage 0.
Proof.
  cbv zeta.
  destruct (registered_lines_dispatch (widen "C:\Program Files\CppOptimizer.exe")
              (service_identity None)) as (_ & _ & Ha & Hd); [discriminate|reflexivity|].
  split; [exact Ha|]. rewrite Ha in Hd. exact Hd.
Defined.
